(* ===== verification/_CoqProject ===== *)
-Q . S2P
Prelude.v
RustStr.v
Json.v
JsonText.v
MemorySize.v
FleetModel.v
Negotiation.v
Validate.v
Wire.v
BlockPlan.v
BlockReduce.v
FleetDb.v
FleetSessions.v
FleetScheduling.v
FleetEvents.v
FleetAdmin.v
FleetRecovery.v
PolicyDb.v
WebhookInbox.v
Workload.v
Intent.v
Submission.v
SubmissionStore.v
SubmissionRecovery.v
RunChain.v
Preparation.v
SlackIntake.v
SlackSnapshot.v
SlackSession.v
BinaryCache.v
GithubEvents.v
WebhookHandlers.v
GithubSafety.v
PinManager.v
FleetSpec.v
FleetRefine.v
FleetSystem.v
FleetService.v
FleetDemo.v
ServiceSafety.v
FleetSafety.v
FleetRetry.v
FleetPolicy.v
FleetSweep.v
FleetAdmission.v
FleetArtifacts.v
FleetLedger.v
FleetProjection.v
FleetPayloads.v
WorkerDelivery.v
ServiceEffects.v
WorkerLease.v
WorkerRun.v
WireService.v
WorkerSession.v
WorkerExecution.v
FleetFindings.v
FleetRegistration.v
FleetGenerations.v
