(* ===== verification/Prelude.v ===== *)
(** * Verification of stacks-bench-github

    ** The program

    stacks-bench-github runs benchmarks, builds and block validations of Stacks
    nodes for requests that arrive from GitHub, Slack or a command line.  A daemon
    admits requests as submissions of jobs, kept in PostgreSQL, and drives a fleet
    of worker processes.  A worker registers a session (negotiating a protocol
    contract), polls for work, accepts an offer, executes it in virtual machines
    while its lease is renewed by heartbeats, streams events, uploads artifacts
    and submits one terminal outcome.  A lease that lapses, a session that is
    superseded, a cancellation or an operator's pause can take the work away at
    any point; the fence number of the submission then separates the attempt that
    lost its authority from the next one.

    The core of the program, and of this development, is that exchange: its
    durable state (crates/sbgh-postgres/src/stores/fleet.rs and fleet/*.rs), the
    protocol values and checks both sides share (crates/sbgh-fleet) and their
    messages (crates/sbgh-proto), the daemon's service
    (crates/sbgh-daemon/src/fleet), the worker's side of the calls
    (crates/sbgh-worker/src/fleet.rs, lease.rs, transport.rs, remote_artifacts.rs),
    and the planning and reduction of block validations
    (crates/sbgh-libvirt/src/libvirt/block_validation.rs).  Before it comes the
    admission of work: a webhook of GitHub is stored in an inbox and classified by the
    daemon's processor (crates/sbgh-daemon/src/webhook_processor.rs) against the
    installations, policies and roles of the database, a mention in Slack is resolved to an intent
    (crates/sbgh-intent, crates/sbgh-slack); either becomes a command at the submission
    boundary (crates/sbgh-daemon/src/submission.rs), is stored with its plan of runs
    (crates/sbgh-postgres/src/stores/submissions.rs, jobs.rs) and is prepared for the
    fleet (crates/sbgh-daemon/src/job_source.rs, fleet/coordinator.rs).

    ** Files

    Foundations:
    - Prelude: [result] with the [let?] notation for Rust's [?], machine integers
      at their width, the [head_case] tactic, generic lemmas, hint databases.
    - RustStr: Rust's [str] as scalar values with its UTF-8 bytes, and the part
      of [std] the code uses.
    - MemorySize: crates/sbgh-core/src/memory.rs, sizes in configuration files.

    crates/sbgh-fleet, shared by daemon and worker:
    - Json: digest.rs, canonical JSON and payload digests.
    - JsonText: serde_json's compact form over the scalar writer, and that it
      determines the value.
    - FleetModel: model.rs, the records of negotiation.rs and preflight.rs, and
      their serde encodings.
    - Negotiation: negotiation.rs, revision and feature negotiation.
    - Validate: validate.rs and preflight.rs, the validation of every request,
      artifact keys and lists, terminal texts, block-validation results.

    crates/sbgh-proto, the protobuf boundary:
    - Wire: fleet.proto, convert.rs and convert/protocol.rs, both directions of the
      conversion of every message.

    crates/sbgh-libvirt, the worker's block validation:
    - BlockPlan: selectors, shards, trusted command lines.
    - BlockReduce: reduction of the guest's output, with guest_file.rs.

    Admission of work, from the request to the payload:
    - Workload: crates/sbgh-core bench_args.rs and workload.rs, benchmark requests,
      their arguments, normalization and workload keys.
    - Intent: crates/sbgh-intent/src/intent.rs, validation of the language model's
      answer.
    - Submission: sbgh-core/src/submission.rs and sbgh-daemon/src/submission.rs,
      validation of commands and the digest of their demand; the policy of
      block_validation_submission.rs.
    - SubmissionStore: stores/submissions.rs and the chain of runs of stores/jobs.rs.
    - SubmissionRecovery: what three transactions of stores/fleet.rs write in the tables
      of submissions: the freezing of sources, the preparation of a run, recovery.
    - RunChain: the transitions of the submission tables and their invariant.
    - Preparation: the assembly of a job (job_source.rs) and its payload
      (fleet/coordinator.rs).
    - SlackIntake: crates/sbgh-slack/src/connector.rs and the adapter slack_queue.rs.
    - SlackSnapshot: crates/sbgh-slack/src/snapshot.rs, the text of a snapshot and the publisher,
      as the step relation of its critical sections.
    - SlackSession: crates/sbgh-daemon/src/slack_report.rs, the numbered view of a submission, the reports that
      change it, and its restoration after a restart.
    - PolicyDb: the stores installation.rs, policy.rs, repo.rs, user.rs and
      pull_request.rs and the allowlist of installers, with the step relation of
      their transactions.
    - WebhookInbox: the stores ingest.rs and webhook.rs and the processor's claims,
      retries and loop.
    - GithubEvents: crates/sbgh-github command.rs and webhook.rs, trigger matching.
    - WebhookHandlers: the classifier of webhook_processor.rs and its six handlers as
      programs over calls, and their interpreter.
    - GithubSafety: theorems on what a webhook can cause.

    Reuse of builds:
    - BinaryCache: crates/sbgh-driver/src/cache.rs and crates/sbgh-worker/src/
      binary_cache.rs, fingerprints and the store of built binaries on disk; the class
      [CacheControl] with its laws is what it promises to pin management.
    - PinManager: crates/sbgh-daemon pin_resolver.rs and pin_manager.rs, pinned refs,
      their protection in the cache and the warming of missing builds.

    crates/sbgh-postgres, the fleet store:
    - FleetDb: the tables as finite maps, transactions, shared transitions.
    - FleetSessions: registry, identity keys, sessions.
    - FleetScheduling: preparation, offers, acceptance, heartbeats, cancellation
      (fleet/cancellation.rs), the lease sweep, pausing (fleet/scheduler.rs),
      aborts (fleet/abort.rs), Slack queue expiry.
    - FleetEvents: event ledger, progress, artifact staging, completion, promotion,
      cleanup.
    - FleetAdmin: worker lifecycle (fleet/lifecycle.rs), compatibility floor
      (fleet/protocol.rs), maintenance counters (fleet/quiescence.rs), admission
      verdicts, source freeze, projection of progress.
    - FleetRecovery: recovery of a submission by an operator into a new generation.

    Specification and theorems of the store:
    - FleetSpec: the lifecycle machine, a step relation on jobs, attempts, fences
      and cleanup obligations, and its invariant.
    - FleetRefine: the abstraction function and a simulation lemma per operation.
    - FleetSystem: [FleetOp], one constructor per transaction, [run] and
      [fleet_after], the database a trace reaches.
    - FleetDemo: a concrete deployment, on which hypotheses are discharged.
    - FleetSafety, FleetRetry, FleetPolicy, FleetSweep, FleetAdmission,
      FleetArtifacts, FleetLedger, FleetPayloads, FleetRegistration,
      FleetGenerations, FleetFindings: theorems.
    - FleetProjection: the projection of stored events and progress into reports, the planning of the next
      run and the queue positions for Slack (crates/sbgh-daemon/src/fleet/coordinator.rs), beside
      the transactions of everybody else.

    crates/sbgh-daemon, the fleet service (fleet/service.rs, lease.rs, grpc.rs):
    - FleetService: every handler, lease tokens, the maintenance tick, the fleet
      section of the configuration.
    - ServiceSafety: the dispatch of requests, and what a request can do to the
      store.
    - ServiceEffects: tokens, completion, termination of the long poll.

    crates/sbgh-worker, the worker's process (fleet.rs, lease.rs, transport.rs):
    - WorkerDelivery: the sender of reliable events over a lossy network.
    - WorkerLease: the local lease, the heartbeat loop, the checks of a
      registration's answer.
    - WorkerRun: registration facts, admission of offers, checks of an assignment,
      the request to the driver.
    - WireService: calls through the messages of Wire.
    - WorkerSession: session recovery, cleanup, shutdown.
    - WorkerExecution: the execution of an assignment, from the first heartbeat to
      the accepted completion, with the driver's events and the artifact sink.

    ** How the code is modelled

    A store operation is one transaction: a function from the database to
    [result (A * FleetDb) StoreError].  Row locks make concurrent transactions on
    the same rows sequential, so a run of the system is a list of operations; the
    rows another transaction holds locked, which [SKIP LOCKED] passes over, are
    part of a transaction's environment [TxEnv], with its three clocks
    ([NOW()], [clock_timestamp()], the daemon's own).  Identifiers that the code
    draws at random are arguments.  Committed, rolled-back and failed transactions
    are told apart: a failing one leaves the database as it was.  Statements that
    the schema can refuse go through the constraint ([put_session],
    [insert_attempt]).

    The submission store has a state of its own, [SubmissionDb], with the columns
    that admission and preparation read; its transitions ([store_step] in RunChain)
    are the submission transaction, whose look-up may see an older state than its
    inserts, the next run of a submission, a change of a run's status, the freezing
    of a submission's sources, the preparation of a run with the commit its spec is
    frozen to (the coordinator takes the commit from there), and the recovery of a
    submission.  For the
    fleet store the rows of [task_submission], [task_spec], [job] and the Slack
    receipt are inputs: in its transition system the operations
    [Op_Submit], [Op_Spec], [Op_Enqueue] and [Op_SlackReported] stand for these
    inserts: a fresh identifier, a queued job without claim or payload, and any
    non-negative fence (those stores insert zero).

    A handler of the service makes several calls of the store, between which other
    requests run.  It is a computation ([Svc]) over a [World]: the database, and a
    script that says for each store call which other transactions commit first and
    whether the call runs, fails, or commits and loses its answer.  A webhook handler
    is a tree of typed calls ([prog] in WebhookHandlers), run over such a script by
    [run], which also logs the facts the handler found and the states it found them
    in.  The worker's
    loops are functions of such scripts too: the fate of each request on the
    network ([Net]), the instants at which timers and answers arrive ([Beat],
    [PollTick]), the answers to registrations ([RecoveryStep]), what the driver does
    and what the heartbeat task has flagged by then ([ExecutionScript]).  Theorems quantify
    over all scripts; a loop whose script ends before it does yields no result, and
    the termination theorems say how long a script suffices.

    Parameters, for code outside the repository: SHA-256 and the scalar writer of
    serde_json (class [DigestEnv] in Json); HMAC-SHA-256, the minting of GitHub
    tokens and the JSON parser ([ServiceEnv]), the artifact store ([ArtifactStore],
    both in FleetService); the UUID parser and serde_json's text form ([WireEnv],
    with the documented laws [WireLaws]); times and regular expressions ([EventEnv] in
    GithubEvents), GitHub's answers ([Moment] in WebhookHandlers); path canonicalization, the JSON parser of
    the guest's manifest and the pretty-printer (section variables of BlockReduce).
    The outcomes of the file system ([Io]) and the order of a listing ([Listing], in BinaryCache), the
    outcome of [git ls-remote] (PinManager).
    Theorems hold for every instance; witnesses fix one.

    All definitions are total.  Loops over tables run over the finite list of
    their rows.  Fuel appears in four places: the event-prefix loop
    [advance_contiguous] takes as many steps as the attempt has stored events (the
    theorem [acknowledged_prefix_exact] shows that it never stops early), the
    UTF-8 decoder takes the length of its input, the decimal printer forty digits
    (enough for 128 bits), and the shard loop of [partition] runs over the shard
    count ([partition_exact_balanced] shows that it ends exactly at the end of the
    range).

    ** What the theorems show

    - The store refines the lifecycle machine, whatever transactions run in
      whatever order; hence every job is accounted for, a fence has one holder,
      an attempt without authority is powerless for good, finished work stays
      finished (FleetSafety).
    - Lost responses can be retried: accept, event, completion, cleanup and every
      administrative request answer the same and change nothing (FleetRetry).
    - The service adds no authority: a request runs only transactions of its own
      worker, on the attempt whose token was verified, with the request's arguments
      and those of the configuration (ServiceSafety); a token binds
      worker, session, attempt and fence, a positive answer to a completion means
      that it is settled, a long poll ends (ServiceEffects).
    - The worker keeps its part: its events arrive exactly (WorkerDelivery), it
      stops before the lease the daemon confirmed runs out (WorkerLease), it acknowledges
      cleanup only after teardown, its recovery ends and its shutdown is clean
      (WorkerSession), what it is assigned is what it was offered (WorkerRun, with
      FleetPayloads), and what it reports is what the daemon records, never before
      the teardown is verified (WorkerExecution).  The conversions between them alter nothing and let only
      typed values through (WireService), and both ends of a registration agree
      (WorkerLease).
    - Operators' controls do what they say: pause, cordon, cleanup debt
      (FleetPolicy), lease sweep and abort (FleetSweep), compatibility floor and
      admission verdict, with the liveness statement that an unblocked worker is
      offered the next job (FleetAdmission), supersession (FleetRegistration),
      recovery of a submission (FleetGenerations).
    - Data is not lost: the acknowledged event prefix is exact and its projection
      never stalls (FleetLedger); reports of events are complete, in order and true however passes fail and
      interleave, the failures of one attempt hold back no other, and queue positions are sent exactly when
      due (FleetProjection); an accepted manifest is exact, its promotion
      completes, garbage collection spares it (FleetArtifacts).
    - Both ends of the protocol agree: handshake, negotiation (Negotiation), digests
      (Json), bounded texts, artifact keys and lists (Validate).
    - Admission is exact: the intents validation lets through are the well-formed
      ones (Intent), only authorized and bounded requests are submitted and the
      language model is called at a bounded rate (SlackIntake), a digest stands for
      one demand (Submission), a producer key for one submission, and the runs of a
      submission follow its plan one at a time (RunChain).  The payload of a run is
      what was submitted exactly when the submitted arguments are in normal form
      (Preparation), which those of Slack requests for blocks and transactions never
      are (SlackIntake).
    - Webhooks are handled safely: one claim at a time, a bounded number of attempts,
      no lost or repeated outcome, and an inbox that drains (WebhookInbox); nothing is
      submitted without membership, policy, trigger or role, a deleted installation
      causes no work again, and what is submitted can be prepared (GithubSafety); commands
      are read back from their rendering (GithubEvents).
    - Builds are reused safely: a lookup of the binary cache verifies only bytes that were
      published for the same build, whatever interleaves with it, eviction is least recently used and no
      more than needed, what is published is found (BinaryCache); pins follow the current refs
      of the pinned policies or stay as they are, refs are read exactly, and a missing pinned build is queued
      once (PinManager).  A memory size is read back from its rendering (MemorySize).
    - Slack shows what was reported: there is one message for a request whatever fails or interleaves,
      user text adds no markup, publications one at a time converge (SlackSnapshot), and within a process Slack shows the
      session's view (SlackSession).
    - Block validation covers every selected block exactly once, from plan to
      reduced result, and exactly the results with printable, bounded diagnostics pass
      the daemon's validation (BlockPlan, BlockReduce).
    - Some theorems exhibit behaviour the code does not intend: an execution
      stranded by the late sweep of an offer (FleetFindings), guest output that reaches
      an [unreachable!] or yields a result the daemon refuses (BlockReduce), Slack requests that are accepted and can never
      be prepared ([slack_request_prepares] in SlackIntake), concurrent
      submissions of one request of which the second fails
      ([concurrent_slack_fails] in RunChain), a cache lookup that undoes a pin set
      while it ran ([stale_lookup_drops_pin] in BinaryCache), a next run that cannot be planned and stops
      the reports of every attempt ([planning_failure_stalls] in FleetProjection), reports of a run that are
      dropped after a restart ([restart_drops_reports] in SlackSession), a snapshot lost to an overlapping one
      ([overlap_loses_snapshot] in SlackSnapshot), a queued job that cannot be assembled and hides the queue
      ([list_queued_needs_all] in Preparation), a memory size that overflows
      ([memory_size_overflow] in MemorySize), and a failing clearing of payloads that
      the processor never notices ([persistent_errors_noticed] in WebhookInbox).

    ** What is not modelled

    In the fleet store: the listings for operators
    ([fleet_snapshot], worker listings).  The claim and completion operations of
    the jobs store, which the fleet daemon does not use, and its baselines, metrics
    and report identities.  The listings for operators of the policy stores.  What
    the driver does between its events: virtual machines, artifact reads, the
    assembly of a fingerprint from the source tree.  The coordinator's preparation loop and the building of its
    report surfaces.  The daemon's HTTP API, report rendering but for Slack's
    snapshots, the details of completed runs, loading of
    configuration files, and the command line: they move data between the modelled parts and external systems.  TLS,
    gRPC and the byte encoding of protobuf are libraries.

    Of the environment: a call on Slack whose answer is lost takes effect before the next
    call or not at all (SlackSnapshot), a file does not change between the two reads of its
    publication (BinaryCache), and theorems up to a collision of SHA-256 say that the two
    texts would have to be found; they hold for every hash, so also for an injective one. *)
From stdpp Require Import base tactics numbers list gmap strings.
From Stdlib Require Import Lia.

Global Set Default Goal Selector "!".

(** ** Results

    Rust's [Result<A, E>]; the [?] operator is the [let?] notation, and
    anyhow's [ensure!] is [ensure]. *)
Inductive result (A E : Type) : Type :=
| Ok (a : A)
| Err (e : E).
Arguments Ok {A E} a.
Arguments Err {A E} e.

Declare Scope result_scope.
Delimit Scope result_scope with res.

Notation "'let?' x ':=' c1 'in' c2" :=
  (match c1 with Ok x => c2 | Err e => Err e end)
  (at level 10, x pattern, c1 at level 100, c2 at level 200,
   format "'[v' 'let?'  x  ':='  c1  'in' '/' c2 ']'") : result_scope.
Notation "c1 ';?' c2" :=
  (match c1 with Ok _ => c2 | Err e => Err e end)
  (at level 120, right associativity) : result_scope.
Global Open Scope result_scope.

(** [ensure!(cond, e)]: fail with [e] unless the condition holds. *)
Definition ensure {E : Type} (cond : bool) (e : E) : result unit E :=
  if cond then Ok tt else Err e.

Definition is_ok {A E : Type} (r : result A E) : bool :=
  match r with Ok _ => true | Err _ => false end.

Definition ok_or {A E : Type} (o : option A) (e : E) : result A E :=
  match o with Some a => Ok a | None => Err e end.

Definition map_err {A E F : Type} (f : E -> F) (r : result A E) : result A F :=
  match r with Ok a => Ok a | Err e => Err (f e) end.

(** [iter.collect::<Result<Vec<_>>>()]: all results or the first error. *)
Fixpoint collect {A E : Type} (l : list (result A E)) : result (list A) E :=
  match l with
  | [] => Ok []
  | r :: rest => let? a := r in let? rest' := collect rest in Ok (a :: rest')
  end.

(** Run a fallible check on every element in order, stopping at the first
    failure: the shape of a Rust [for] loop whose body uses [?]. *)
Fixpoint for_each {A E : Type} (f : A -> result unit E) (l : list A) : result unit E :=
  match l with
  | [] => Ok tt
  | x :: rest => f x ;? for_each f rest
  end.

Global Instance result_eq_dec {A E} `{EqDecision A, EqDecision E} :
  EqDecision (result A E).
Proof. solve_decision. Defined.

(** ** Machine integers

    Every integer is a [Z] with its width written out where the source
    relies on it. *)
Definition U16_MAX : Z := 2 ^ 16 - 1.
Definition U32_MAX : Z := 2 ^ 32 - 1.
Definition U64_MAX : Z := 2 ^ 64 - 1.
Definition I64_MAX : Z := 2 ^ 63 - 1.

Arguments U16_MAX : simpl never.
Arguments U32_MAX : simpl never.
Arguments U64_MAX : simpl never.
Arguments I64_MAX : simpl never.

Definition in_u32 (z : Z) : Prop := (0 <= z <= U32_MAX)%Z.
Definition in_u64 (z : Z) : Prop := (0 <= z <= U64_MAX)%Z.

Definition checked_add_u64 (a b : Z) : option Z :=
  if (a + b <=? U64_MAX)%Z then Some (a + b)%Z else None.
Definition checked_sub_u64 (a b : Z) : option Z :=
  if (b <=? a)%Z then Some (a - b)%Z else None.
Definition saturating_add_u64 (a b : Z) : Z := Z.min (a + b) U64_MAX.
Definition saturating_mul_u32 (a b : Z) : Z := Z.min (a * b) U32_MAX.
(** Wrapping arithmetic of a release build. *)
Definition wrapping_mul_u64 (a b : Z) : Z := Z.modulo (a * b) (2 ^ 64).

(** ** Automation *)
Create HintDb fleet discriminated.
#[export] Hint Constants Transparent : fleet.

(** The cast [as i64] of a [u64]: two's complement. *)
Definition as_i64 (z : Z) : Z := ((z + 2 ^ 63) mod 2 ^ 64 - 2 ^ 63)%Z.

Lemma as_i64_id (z : Z) : (0 <= z <= I64_MAX)%Z -> as_i64 z = z.
Proof. unfold as_i64, I64_MAX. intros H. rewrite Z.mod_small; lia. Qed.
Lemma as_i64_below z : (0 <= z)%Z -> (as_i64 z <= z)%Z.
Proof.
  unfold as_i64. intros Hz. pose proof (Z.mod_le (z + 2 ^ 63) (2 ^ 64) ltac:(lia) ltac:(lia)). lia.
Qed.
Lemma as_i64_le (z : Z) : (as_i64 z <= I64_MAX)%Z.
Proof.
  unfold as_i64, I64_MAX. pose proof (Z.mod_pos_bound (z + 2 ^ 63) (2 ^ 64)). lia.
Qed.

(** Unfold the numeric bounds so that [lia] sees their values. *)
Ltac unfold_bounds :=
  unfold in_u64, in_u32, U64_MAX, U32_MAX, U16_MAX, I64_MAX in *.

(** Turn boolean tests of hypotheses into propositions. *)
Ltac bool_hyps :=
  repeat match goal with
  | H : (_ && _)%bool = true |- _ => apply andb_true_iff in H as [? ?]
  | H : (_ || _)%bool = false |- _ => apply orb_false_iff in H as [? ?]
  | H : negb _ = true |- _ => apply negb_true_iff in H
  | H : negb _ = false |- _ => apply negb_false_iff in H
  | H : bool_decide _ = true |- _ => apply bool_decide_eq_true in H
  | H : bool_decide _ = false |- _ => apply bool_decide_eq_false in H
  end.

(** Case analysis along the control flow of a [result]-valued definition that
    is known to have returned [Ok]: every test that led to an error is
    discharged, the others become hypotheses. *)
Ltac ok_inv H :=
  repeat match type of H with
  | Err _ = Ok _ => discriminate H
  | Ok _ = Ok _ => injection H as H; try subst
  | context [match ?c with _ => _ end] =>
      let E := fresh "E" in destruct c eqn:E; try discriminate H
  end.

(** Case analysis on the outermost test of a definition. *)
Ltac head_case H E :=
  match type of H with (match ?c with _ => _ end) = _ => destruct c eqn:E end.

Section ResultLemmas.
Context {A E : Type}.

Lemma ensure_Ok (b : bool) (e : E) : ensure b e = Ok tt <-> b = true.
Proof. unfold ensure. destruct b; split; congruence. Qed.

Lemma for_each_Ok (f : A -> result unit E) (l : list A) :
  for_each f l = Ok tt <-> Forall (fun x => f x = Ok tt) l.
Proof.
  induction l as [|x l IH]; simpl.
  - split; [constructor | done].
  - rewrite Forall_cons, <- IH.
    destruct (f x) as [[]|e]; split; [tauto | tauto | discriminate | intros [H _]; discriminate].
Qed.

Lemma collect_Ok (l : list (result A E)) (r : list A) :
  collect l = Ok r <-> Forall2 (fun x a => x = Ok a) l r.
Proof.
  revert r. induction l as [|x l IH]; intros r; simpl.
  - split; [intros [= <-]; constructor | inversion 1; done].
  - split.
    + destruct x as [a|e]; [|done].
      destruct (collect l) as [l'|e]; [|done].
      intros [= <-]. constructor; [done | by apply IH].
    + inversion 1 as [|? a ? r' -> Hrest]; subst.
      apply IH in Hrest. by rewrite Hrest.
Qed.
End ResultLemmas.

Section MachineInts.
Local Open Scope Z_scope.

Lemma checked_add_u64_Some (a b c : Z) :
  checked_add_u64 a b = Some c <-> c = a + b /\ a + b <= U64_MAX.
Proof.
  unfold checked_add_u64. destruct (Z.leb_spec (a + b) U64_MAX); split.
  - by intros [= <-].
  - by intros [-> _].
  - discriminate.
  - lia.
Qed.

Lemma checked_sub_u64_Some (a b c : Z) :
  checked_sub_u64 a b = Some c <-> c = a - b /\ b <= a.
Proof.
  unfold checked_sub_u64. destruct (Z.leb_spec b a); split.
  - by intros [= <-].
  - by intros [-> _].
  - discriminate.
  - lia.
Qed.
End MachineInts.

(** ** Lists *)
Section ListLemmas.
Context {A : Type}.

(** [iter.find(pred)]: the first element that satisfies the predicate. *)
Fixpoint find_first (p : A -> bool) (l : list A) : option A :=
  match l with
  | [] => None
  | x :: rest => if p x then Some x else find_first p rest
  end.

Lemma find_first_Some (p : A -> bool) (l : list A) (x : A) :
  find_first p l = Some x -> x ∈ l /\ p x = true.
Proof.
  induction l as [|y l IH]; simpl; [done|].
  destruct (p y) eqn:Hy.
  - intros [= ->]. split; [constructor | done].
  - intros H. destruct (IH H). split; [by constructor | done].
Qed.

Lemma forallb_Forall (p : A -> bool) (l : list A) :
  forallb p l = true <-> Forall (fun x => p x = true) l.
Proof.
  rewrite forallb_forall, Forall_forall.
  split; intros H x Hx; apply H; by apply list_elem_of_In.
Qed.

Lemma existsb_false_Forall (p : A -> bool) (l : list A) :
  existsb p l = false <-> Forall (fun x => p x = false) l.
Proof.
  induction l as [|x l IH]; simpl.
  - split; [constructor | done].
  - rewrite orb_false_iff, IH, Forall_cons. done.
Qed.
End ListLemmas.
