(* ===== verification/RustStr.v ===== *)
(** * Rust strings

    A Rust [str] is a sequence of Unicode scalar values, [rstr := list Z]; its
    bytes are the UTF-8 encoding.  This file models the part of [std]'s string
    interface the crates use: byte length, byte and character predicates,
    trimming, splitting, and the decimal printer and parser of [u64]. *)
From stdpp Require Import base list strings.
From Stdlib Require Import ZArith Lia.
From S2P Require Import Prelude.

Local Open Scope Z_scope.

Abbreviation rstr := (list Z).

Declare Scope rstr_scope.
Delimit Scope rstr_scope with rs.

(** A string literal of the source (all of them are ASCII, except where a
    code point is written out). *)
Fixpoint lit (s : string) : rstr :=
  match s with
  | EmptyString => []
  | String a s' => Z.of_N (Ascii.N_of_ascii a) :: lit s'
  end.

Definition rstr_eqb (a b : rstr) : bool := bool_decide (a = b).

(** ** Characters *)
Module Char.
Definition between (lo hi c : Z) : bool := (lo <=? c) && (c <=? hi).

(** A Unicode scalar value: not a surrogate, at most U+10FFFF. *)
Definition is_scalar (c : Z) : bool := between 0 0xD7FF c || between 0xE000 0x10FFFF c.

(** [char::len_utf8]. *)
Definition len_utf8 (c : Z) : Z :=
  if c <? 0x80 then 1 else if c <? 0x800 then 2 else if c <? 0x10000 then 3 else 4.

(** [char::encode_utf8]. *)
Definition encode_utf8 (c : Z) : list Z :=
  if c <? 0x80 then [c]
  else if c <? 0x800 then
    [Z.lor 0xC0 (Z.shiftr c 6); Z.lor 0x80 (Z.land c 0x3F)]
  else if c <? 0x10000 then
    [Z.lor 0xE0 (Z.shiftr c 12); Z.lor 0x80 (Z.land (Z.shiftr c 6) 0x3F);
     Z.lor 0x80 (Z.land c 0x3F)]
  else
    [Z.lor 0xF0 (Z.shiftr c 18); Z.lor 0x80 (Z.land (Z.shiftr c 12) 0x3F);
     Z.lor 0x80 (Z.land (Z.shiftr c 6) 0x3F); Z.lor 0x80 (Z.land c 0x3F)].

(** [char::is_control]: general category Cc. *)
Definition is_control (c : Z) : bool := between 0 0x1F c || between 0x7F 0x9F c.

(** [char::is_whitespace]: the Unicode White_Space property. *)
Definition is_whitespace (c : Z) : bool :=
  between 0x09 0x0D c || (c =? 0x20) || (c =? 0x85) || (c =? 0xA0) || (c =? 0x1680)
  || between 0x2000 0x200A c || (c =? 0x2028) || (c =? 0x2029) || (c =? 0x202F)
  || (c =? 0x205F) || (c =? 0x3000).

Definition is_ascii_digit (c : Z) : bool := between 48 57 c.
Definition is_ascii_lowercase (c : Z) : bool := between 97 122 c.
Definition is_ascii_uppercase (c : Z) : bool := between 65 90 c.
Definition is_ascii_alphabetic (c : Z) : bool := is_ascii_lowercase c || is_ascii_uppercase c.
Definition is_ascii_alphanumeric (c : Z) : bool := is_ascii_alphabetic c || is_ascii_digit c.
Definition is_ascii_hexdigit (c : Z) : bool :=
  is_ascii_digit c || between 97 102 c || between 65 70 c.
Definition to_ascii_lowercase (c : Z) : Z := if is_ascii_uppercase c then c + 32 else c.
End Char.

(** ** Lengths and bytes *)

(** [str::bytes]: the UTF-8 encoding. *)
Definition bytes (s : rstr) : list Z := List.concat (map Char.encode_utf8 s).
(** [str::len]: the number of bytes. *)
Definition str_len (s : rstr) : Z := Z.of_nat (List.length (bytes s)).
(** [str::is_empty]. *)
Definition is_empty (s : rstr) : bool := match s with [] => true | _ => false end.
(** [chars().any(p)] and [bytes().all(p)]. *)
Definition any_char (p : Z -> bool) (s : rstr) : bool := existsb p s.
Definition all_bytes (p : Z -> bool) (s : rstr) : bool := forallb p (bytes s).

(** [String::from_utf8]: strict decoding.  The first byte gives the length of
    the sequence; the decoded code point is accepted when it is a scalar value
    whose encoding is exactly the bytes read (no overlong forms). *)
Definition utf8_seq_len (b : Z) : nat :=
  if b <? 0x80 then 1%nat else if b <? 0xE0 then 2%nat else if b <? 0xF0 then 3%nat else 4%nat.
Definition utf8_code_point (seq : list Z) : Z :=
  match seq with
  | [b0] => b0
  | [b0; b1] => Z.lor (Z.shiftl (Z.land b0 0x1F) 6) (Z.land b1 0x3F)
  | [b0; b1; b2] =>
      Z.lor (Z.shiftl (Z.land b0 0x0F) 12)
            (Z.lor (Z.shiftl (Z.land b1 0x3F) 6) (Z.land b2 0x3F))
  | [b0; b1; b2; b3] =>
      Z.lor (Z.shiftl (Z.land b0 0x07) 18)
            (Z.lor (Z.shiftl (Z.land b1 0x3F) 12)
                   (Z.lor (Z.shiftl (Z.land b2 0x3F) 6) (Z.land b3 0x3F)))
  | _ => -1
  end.
Fixpoint from_utf8_fuel (fuel : nat) (bs : list Z) : option rstr :=
  match fuel, bs with
  | _, [] => Some []
  | O, _ => None
  | S fuel', b :: _ =>
      let n := utf8_seq_len b in
      let c := utf8_code_point (firstn n bs) in
      if Char.is_scalar c && bool_decide (Char.encode_utf8 c = firstn n bs) then
        match from_utf8_fuel fuel' (skipn n bs) with
        | Some rest => Some (c :: rest)
        | None => None
        end
      else None
  end.
(** Every step consumes at least one byte. *)
Definition from_utf8 (bs : list Z) : option rstr := from_utf8_fuel (length bs) bs.

(** ** Searching, trimming and splitting *)

(** [str::starts_with] and [strip_prefix]. *)
Fixpoint strip_prefix (p s : rstr) : option rstr :=
  match p, s with
  | [], _ => Some s
  | x :: p', y :: s' => if x =? y then strip_prefix p' s' else None
  | _ :: _, [] => None
  end.
Definition starts_with (p s : rstr) : bool :=
  match strip_prefix p s with Some _ => true | None => false end.
Definition strip_suffix (p s : rstr) : option rstr :=
  match strip_prefix (rev p) (rev s) with Some r => Some (rev r) | None => None end.

(** [trim_start_matches] and [trim_end_matches] with a character predicate. *)
Fixpoint trim_start_matches (p : Z -> bool) (s : rstr) : rstr :=
  match s with
  | [] => []
  | c :: s' => if p c then trim_start_matches p s' else s
  end.
Definition trim_end_matches (p : Z -> bool) (s : rstr) : rstr :=
  rev (trim_start_matches p (rev s)).
(** [str::trim]. *)
Definition trim (s : rstr) : rstr :=
  trim_end_matches Char.is_whitespace (trim_start_matches Char.is_whitespace s).

(** [str::split_once] with a string pattern: split at the first occurrence. *)
Fixpoint split_once (p s : rstr) : option (rstr * rstr) :=
  match strip_prefix p s with
  | Some rest => Some ([], rest)
  | None =>
      match s with
      | [] => None
      | c :: s' =>
          match split_once p s' with
          | Some (a, b) => Some (c :: a, b)
          | None => None
          end
      end
  end.
(** [str::contains] with a string pattern. *)
Definition contains (p s : rstr) : bool :=
  match split_once p s with Some _ => true | None => false end.

(** [str::split] with a character predicate; always at least one piece. *)
Fixpoint split (p : Z -> bool) (s : rstr) : list rstr :=
  match s with
  | [] => [[]]
  | c :: s' =>
      if p c then [] :: split p s'
      else match split p s' with
           | [] => [[c]]
           | piece :: rest => (c :: piece) :: rest
           end
  end.
Definition split_char (ch : Z) : rstr -> list rstr := split (Z.eqb ch).
(** [str::split_whitespace]: the non-empty pieces between whitespace. *)
Definition split_whitespace (s : rstr) : list rstr :=
  List.filter (fun w => negb (is_empty w)) (split Char.is_whitespace s).
(** [str::lines]: pieces ended by a newline, a trailing carriage return
    removed; a final empty piece is not a line. *)
Definition lines (s : rstr) : list rstr :=
  let pieces := split_char 10 s in
  let pieces := match List.rev pieces with
                | [] :: before => List.rev before
                | _ => pieces
                end in
  map (fun l => match strip_suffix [13] l with Some l' => l' | None => l end) pieces.

(** [Vec<String>::join]. *)
Fixpoint join (sep : rstr) (l : list rstr) : rstr :=
  match l with
  | [] => []
  | [s] => s
  | s :: rest => s ++ sep ++ join sep rest
  end.

(** ** Decimal numbers *)

(** [to_string] of an unsigned integer. *)
Fixpoint show_digits (fuel : nat) (z : Z) (acc : rstr) : rstr :=
  match fuel with
  | O => acc
  | S fuel' =>
      let acc' := (48 + z mod 10) :: acc in
      if z <? 10 then acc' else show_digits fuel' (z / 10) acc'
  end.
(** 40 digits are enough for 128 bits. *)
Definition show (z : Z) : rstr := show_digits 40 z [].

(** [str::parse::<u64>]: an optional leading plus sign, then digits only, at
    least one, the value at most [u64::MAX]. *)
Fixpoint parse_digits (acc : Z) (s : rstr) : option Z :=
  match s with
  | [] => Some acc
  | c :: s' =>
      if Char.is_ascii_digit c then
        let acc' := acc * 10 + (c - 48) in
        if acc' <=? U64_MAX then parse_digits acc' s' else None
      else None
  end.
Definition parse_u64 (s : rstr) : option Z :=
  let digits := match s with 43 :: rest => rest | _ => s end in
  match digits with [] => None | _ => parse_digits 0 digits end.

(** ** Lemmas *)
Section Bytes.
Lemma encode_utf8_length c : Z.of_nat (length (Char.encode_utf8 c)) = Char.len_utf8 c.
Proof. unfold Char.encode_utf8, Char.len_utf8. by repeat case_match. Qed.

Lemma bytes_app a b : bytes (a ++ b) = bytes a ++ bytes b.
Proof. unfold bytes. by rewrite map_app, concat_app. Qed.

Lemma str_len_app a b : str_len (a ++ b) = str_len a + str_len b.
Proof. unfold str_len. rewrite bytes_app, length_app. lia. Qed.

Lemma str_len_cons c s : str_len (c :: s) = Char.len_utf8 c + str_len s.
Proof.
  unfold str_len, bytes. simpl. rewrite length_app, Nat2Z.inj_add, encode_utf8_length. lia.
Qed.

Lemma str_len_nonneg s : 0 <= str_len s.
Proof. unfold str_len. lia. Qed.

Lemma len_utf8_pos c : 1 <= Char.len_utf8 c <= 4.
Proof. unfold Char.len_utf8. repeat case_match; lia. Qed.

Lemma encode_utf8_ascii c : c < 0x80 -> Char.encode_utf8 c = [c].
Proof. intros H. unfold Char.encode_utf8. by rewrite (proj2 (Z.ltb_lt _ _) H). Qed.

(** Outside ASCII every byte of the encoding has its high bit set. *)
Lemma lor_high a b : 0x80 <= a -> 0 <= b -> 0x80 <= Z.lor a b.
Proof.
  intros Ha Hb.
  enough (0 <= a <= Z.lor a b) by lia.
  apply Z.ldiff_le; [apply Z.lor_nonneg; lia|].
  apply Z.bits_inj'. intros n Hn.
  rewrite Z.ldiff_spec, Z.lor_spec, Z.bits_0. by destruct (Z.testbit a n).
Qed.

Lemma encode_utf8_high c : 0x80 <= c -> Forall (fun b => 0x80 <= b) (Char.encode_utf8 c).
Proof.
  intros H. unfold Char.encode_utf8.
  rewrite (proj2 (Z.ltb_ge _ _) H).
  repeat case_match; repeat constructor; apply lor_high;
    try (apply Z.land_nonneg; right; lia); try (apply Z.shiftr_nonneg; lia); lia.
Qed.

(** A byte predicate that only accepts ASCII holds of all bytes exactly when
    it holds of all characters. *)
Lemma all_bytes_ascii (p : Z -> bool) (s : rstr) :
  (forall b, p b = true -> 0 <= b < 0x80) ->
  all_bytes p s = true <-> Forall (fun c => p c = true) s.
Proof.
  intros Hp. unfold all_bytes, bytes.
  induction s as [|c s IH]; simpl; [by split|].
  rewrite forallb_app, andb_true_iff, IH, Forall_cons.
  destruct (Z.ltb_spec c 0x80) as [Hlt|Hge].
  - rewrite encode_utf8_ascii by done. simpl. rewrite andb_true_r. done.
  - split; intros [H1 H2]; (split; [|done]); exfalso.
    + pose proof (encode_utf8_high c Hge) as Hh.
      pose proof (encode_utf8_length c) as Hl. pose proof (len_utf8_pos c).
      destruct (Char.encode_utf8 c) as [|b bs]; simpl in *; [lia|].
      apply andb_true_iff in H1 as [H1 _]. apply Hp in H1.
      inversion Hh; subst. lia.
    + apply Hp in H1. lia.
Qed.
End Bytes.

Section Utf8.
(** What [from_utf8] accepts is the encoding of its result. *)
Lemma from_utf8_fuel_Some fuel bs s : from_utf8_fuel fuel bs = Some s -> bytes s = bs.
Proof.
  revert bs s. induction fuel as [|fuel IH]; intros [|b bs] s; simpl; try done;
    try (by intros [= <-]).
  case_match eqn:E; [|done]. apply andb_true_iff in E as [_ E].
  apply bool_decide_eq_true in E.
  destruct (from_utf8_fuel fuel _) as [rest|] eqn:Er; [|done].
  intros [= <-]. apply IH in Er.
  change (bytes (?c :: rest)) with (Char.encode_utf8 c ++ bytes rest).
  rewrite E, Er. apply firstn_skipn.
Qed.
End Utf8.

Section Splitting.
Lemma split_nonempty (p : Z -> bool) (s : rstr) : split p s <> [].
Proof. destruct s as [|c s]; simpl; [done|]. destruct (p c); [done|]. by destruct (split p s). Qed.

Lemma strip_prefix_Some p s r : strip_prefix p s = Some r <-> s = p ++ r.
Proof.
  revert s. induction p as [|x p IH]; intros s; simpl.
  - split; [by intros [= ->] | by intros ->].
  - destruct s as [|y s]; [by split|].
    destruct (Z.eqb_spec x y) as [->|Hne].
    + rewrite IH. split; [by intros -> | by intros [= ->]].
    + split; [done | intros [= ? ?]; congruence].
Qed.

Lemma split_once_Some p s a b : split_once p s = Some (a, b) -> s = a ++ p ++ b.
Proof.
  revert a b. induction s as [|c s IH]; intros a b; simpl.
  - destruct (strip_prefix p []) as [r|] eqn:E; [|done].
    apply strip_prefix_Some in E. intros [= <- <-]. done.
  - destruct (strip_prefix p (c :: s)) as [r|] eqn:E.
    + apply strip_prefix_Some in E. by intros [= <- <-].
    + destruct (split_once p s) as [[a' b']|] eqn:E'; [|done].
      intros [= <- <-]. by rewrite (IH _ _ eq_refl).
Qed.

Lemma trim_start_suffix p s : exists pre, s = pre ++ trim_start_matches p s.
Proof.
  induction s as [|c s [pre IH]]; simpl; [by exists []|].
  destruct (p c); [exists (c :: pre); simpl; by f_equal | by exists []].
Qed.

Lemma Forall_trim_start (P : Z -> Prop) p s :
  Forall P s -> Forall P (trim_start_matches p s).
Proof.
  intros H. destruct (trim_start_suffix p s) as [pre Hs].
  rewrite Hs, Forall_app in H. tauto.
Qed.

Lemma Forall_trim (P : Z -> Prop) s : Forall P s -> Forall P (trim s).
Proof.
  intros H. unfold trim, trim_end_matches.
  apply Forall_rev. apply Forall_trim_start, Forall_rev, Forall_trim_start, H.
Qed.

Lemma split_whitespace_words (s : rstr) :
  Forall (fun w => w <> [] /\ Forall (fun c => Char.is_whitespace c = false) w)
         (split_whitespace s).
Proof.
  unfold split_whitespace.
  assert (Hall : Forall (Forall (fun c => Char.is_whitespace c = false))
                   (split Char.is_whitespace s)).
  { induction s as [|c s IH]; simpl; [by repeat constructor|].
    destruct (Char.is_whitespace c) eqn:E; [by constructor|].
    destruct (split Char.is_whitespace s) as [|w ws]; [by repeat constructor|].
    inversion IH; subst. repeat constructor; done. }
  revert Hall. generalize (split Char.is_whitespace s) as ws.
  induction ws as [|w ws IH]; simpl; intros Hall; [constructor|].
  inversion Hall; subst. destruct w as [|c w]; simpl; [by apply IH|].
  constructor; [done | by apply IH].
Qed.
End Splitting.

(** ** Decimal round trip *)
Section Decimal.
Lemma show_digits_acc fuel z acc :
  show_digits fuel z acc = show_digits fuel z [] ++ acc.
Proof.
  revert z acc. induction fuel as [|fuel IH]; intros z acc; simpl; [done|].
  destruct (z <? 10); [done|].
  rewrite (IH _ (_ :: acc)), (IH _ [_]), <- app_assoc. done.
Qed.

Lemma parse_digits_app a s t acc :
  parse_digits a s = Some acc -> parse_digits a (s ++ t) = parse_digits acc t.
Proof.
  revert a. induction s as [|c s IH]; intros a; simpl; [by intros [= ->]|].
  destruct (Char.is_ascii_digit c); [|done].
  destruct (_ <=? _); [apply IH | done].
Qed.

Lemma digit_ok z : 0 <= z -> Char.is_ascii_digit (48 + z mod 10) = true.
Proof.
  intros H. pose proof (Z.mod_pos_bound z 10 ltac:(lia)).
  unfold Char.is_ascii_digit, Char.between. apply andb_true_iff; lia.
Qed.

Lemma parse_show_digits fuel z :
  0 <= z <= U64_MAX -> z < 10 ^ Z.of_nat fuel -> (0 < fuel)%nat ->
  parse_digits 0 (show_digits fuel z []) = Some z.
Proof.
  revert z. induction fuel as [|fuel IH]; intros z Hz Hf Hpos; [lia|].
  simpl show_digits.
  destruct (Z.ltb_spec z 10) as [Hlt|Hge]; simpl.
  - rewrite digit_ok by lia. rewrite Z.mod_small by lia. cbn -[Z.leb Z.add Z.sub Z.mul].
    rewrite (proj2 (Z.leb_le _ U64_MAX)) by lia. f_equal; lia.
  - rewrite show_digits_acc.
    assert (Hq : z / 10 < 10 ^ Z.of_nat fuel).
    { rewrite Nat2Z.inj_succ, Z.pow_succ_r in Hf by lia.
      apply Z.div_lt_upper_bound; lia. }
    destruct fuel as [|fuel']; [simpl in Hf; lia|].
    pose proof (Z.div_mod z 10 ltac:(lia)) as Hdm.
    pose proof (Z.mod_pos_bound z 10 ltac:(lia)).
    erewrite parse_digits_app by (apply IH; lia).
    simpl. rewrite digit_ok by lia.
    rewrite (proj2 (Z.leb_le _ U64_MAX)) by lia. f_equal; lia.
Qed.

Lemma show_digits_head fuel z acc :
  0 <= z -> (0 < fuel)%nat ->
  exists d rest, show_digits fuel z acc = d :: rest /\ 48 <= d <= 57.
Proof.
  revert z acc. induction fuel as [|fuel IH]; intros z acc Hz Hf; [lia|]. simpl.
  pose proof (Z.mod_pos_bound z 10 ltac:(lia)).
  destruct (z <? 10); [by exists (48 + z mod 10), acc; split; [|lia]|].
  destruct fuel as [|fuel']; [by exists (48 + z mod 10), acc; split; [|lia]|].
  apply IH; [apply Z.div_pos; lia | lia].
Qed.

(** Printing then parsing a [u64] gives it back. *)
Lemma parse_show_u64 z : in_u64 z -> parse_u64 (show z) = Some z.
Proof.
  intros Hz. unfold parse_u64, show.
  destruct (show_digits_head 40 z [] ltac:(unfold in_u64 in Hz; lia) ltac:(lia))
    as (d & rest & E & Hd).
  assert (parse_digits 0 (show_digits 40 z []) = Some z) as Hp.
  { apply parse_show_digits; [done | | lia]. unfold_bounds. lia. }
  rewrite E in *.
  destruct (Z.eq_dec d 43) as [->|Hne]; [lia|].
  assert ((match d :: rest with 43 :: r => r | _ => d :: rest end) = d :: rest) as ->.
  { destruct d as [|p|p]; try done.
    do 7 (destruct p as [p|p|]; try done). }
  done.
Qed.
End Decimal.

(** ** Big-endian bytes *)
Section BigEndian.
Definition be_bytes (n : nat) (z : Z) : list Z :=
  map (fun i => Z.land (Z.shiftr z (8 * Z.of_nat i)) 255) (rev (seq 0 n)).
(** A byte of the big-endian form is eight bits of the number. *)
Lemma be_bytes_inj n x y :
  0 <= x < 2 ^ (8 * Z.of_nat n) -> 0 <= y < 2 ^ (8 * Z.of_nat n) ->
  be_bytes n x = be_bytes n y -> x = y.
Proof.
  intros Hx Hy Heq. apply Z.bits_inj'. intros k Hk.
  destruct (Z.lt_ge_cases k (8 * Z.of_nat n)) as [Hlt|Hge].
  - assert (Hbyte : forall i, (i < n)%nat -> Z.land (Z.shiftr x (8 * Z.of_nat i)) 255
              = Z.land (Z.shiftr y (8 * Z.of_nat i)) 255).
    { intros i Hi. unfold be_bytes in Heq.
      apply (ext_in_map Heq). rewrite <- in_rev. apply in_seq. lia. }
    specialize (Hbyte (Z.to_nat (k / 8))). rewrite Z2Nat.id in Hbyte by (apply Z.div_pos; lia).
    pose proof (Z.div_mod k 8 ltac:(lia)) as Hdm. pose proof (Z.mod_pos_bound k 8 ltac:(lia)).
    assert (Hlow : forall z, Z.testbit z k = Z.testbit (Z.land (Z.shiftr z (8 * (k / 8))) 255) (k mod 8)).
    { intros z. change 255 with (Z.ones 8). rewrite Z.land_ones, Z.mod_pow2_bits_low by lia.
      rewrite Z.shiftr_spec by lia. f_equal. lia. }
    rewrite !Hlow, Hbyte; [done|]. apply Nat2Z.inj_lt. rewrite Z2Nat.id by (apply Z.div_pos; lia).
    apply Z.div_lt_upper_bound; lia.
  - assert (Hhigh : forall z, 0 <= z < 2 ^ (8 * Z.of_nat n) -> Z.testbit z k = false).
    { intros z Hz. rewrite <- (Z.mod_small z (2 ^ (8 * Z.of_nat n))) by done.
      apply Z.mod_pow2_bits_high. lia. }
    by rewrite !Hhigh.
Qed.

Lemma be_bytes_length n z : length (be_bytes n z) = n.
Proof. unfold be_bytes. by rewrite length_map, length_rev, length_seq. Qed.
End BigEndian.

(** ** Printable text

    ASCII without blanks: one byte for each character, and nothing to trim. *)
Definition printable (c : Z) : Prop := 33 <= c <= 126.
Lemma printable_char c : printable c ->
  Char.is_whitespace c = false /\ Char.is_control c = false /\ Char.len_utf8 c = 1.
Proof.
  unfold printable. intros Hc. unfold Char.is_whitespace, Char.is_control, Char.len_utf8, Char.between.
  repeat match goal with |- context [?a <=? ?b] => destruct (Z.leb_spec a b); try lia
                       | |- context [?a <? ?b] => destruct (Z.ltb_spec a b); try lia
                       | |- context [?a =? ?b] => destruct (Z.eqb_spec a b); try lia end; done.
Qed.
Lemma printable_len s : Forall printable s -> str_len s = Z.of_nat (length s).
Proof.
  induction 1 as [|c s Hc _ IH]; [done|]. rewrite str_len_cons, IH. destruct (printable_char c Hc) as (_ & _ & ->).
  cbn [length]. lia.
Qed.
Lemma printable_trim c s : Forall printable (c :: s) -> trim (c :: s) = c :: s.
Proof.
  intros Hs. pose proof (Forall_inv Hs) as Hc. unfold trim.
  assert (Hstart : forall d l, printable d -> trim_start_matches Char.is_whitespace (d :: l) = d :: l).
  { intros d l Hd. cbn [trim_start_matches]. by destruct (printable_char d Hd) as (-> & _). }
  rewrite Hstart by done. unfold trim_end_matches. destruct (rev (c :: s)) as [|d l] eqn:Hr.
  { apply (f_equal (@length Z)) in Hr. rewrite length_rev in Hr. discriminate Hr. }
  rewrite Hstart; [rewrite <- Hr; apply rev_involutive|].
  assert (Hd : Forall printable (rev (c :: s))) by (by apply Forall_rev).
  rewrite Hr in Hd. exact (Forall_inv Hd).
Qed.
