(* ===== verification/Json.v ===== *)
(** * Canonical JSON and semantic digests

    Models crates/sbgh-fleet/src/digest.rs: [write_value], which serializes a
    JSON value with recursively sorted object keys, [canonical_json_bytes] and
    [payload_digest].  The scalar writer of serde_json and SHA-256 are
    parameters, packed in the class [DigestEnv].  The main result is that the
    canonical bytes do not depend on the order of object entries at any depth
    ([json_equiv], for which [write_value] is [Proper]). *)
From stdpp Require Import base list strings sorting.
From Stdlib Require Import ZArith Lia Permutation Morphisms.
From S2P Require Import Prelude RustStr.

Local Open Scope Z_scope.

(** serde_json's [Number]: an integer or the bit pattern of a finite double. *)
Inductive JsonNumber :=
| JInt (z : Z)
| JFloat (bits : Z).

Inductive Scalar :=
| SNull
| SBool (b : bool)
| SNumber (n : JsonNumber)
| SString (s : rstr).

(** serde_json's [Value]; an object is its list of entries. *)
Inductive Value :=
| VScalar (s : Scalar)
| VArray (vs : list Value)
| VObject (entries : list (rstr * Value)).

Global Instance JsonNumber_eq_dec : EqDecision JsonNumber.
Proof. solve_decision. Defined.
Global Instance Scalar_eq_dec : EqDecision Scalar.
Proof. solve_decision. Defined.

(** serde's [Serialize], up to [serde_json::to_value]. *)
Class Serialize (A : Type) := to_value : A -> Value.

(** Code outside the repository: serde_json's scalar writer and SHA-256 (with
    the hexadecimal printing of its 32 bytes). *)
Class DigestEnv := {
  scalar_bytes : Scalar -> list Z;
  sha256_hex : list Z -> rstr
}.

(** Lexicographic order on strings: Rust compares UTF-8 bytes, and UTF-8
    preserves the order of code points. *)
Fixpoint str_leb (a b : rstr) : bool :=
  match a, b with
  | [], _ => true
  | _ :: _, [] => false
  | x :: a', y :: b' => if x <? y then true else if x =? y then str_leb a' b' else false
  end.

(** Insertion of an entry into a list sorted by key. *)
Fixpoint insert_entry {A} (e : rstr * A) (l : list (rstr * A)) : list (rstr * A) :=
  match l with
  | [] => [e]
  | e' :: l' => if str_leb e.1 e'.1 then e :: l else e' :: insert_entry e l'
  end.
Definition sort_entries {A} (l : list (rstr * A)) : list (rstr * A) :=
  foldr insert_entry [] l.

(** Separate the pieces with commas. *)
Fixpoint comma (pieces : list (list Z)) : list Z :=
  match pieces with
  | [] => []
  | [p] => p
  | p :: rest => p ++ [44] ++ comma rest
  end.

Section Canonical.
Context `{DigestEnv}.

(** One object entry: the key as a JSON string, a colon, the value. *)
Definition entry_bytes (e : rstr * list Z) : list Z :=
  scalar_bytes (SString e.1) ++ [58] ++ e.2.

(** [write_value].  The bytes of every entry are computed first and then
    ordered by key, which is what iterating over the sorted keys and looking
    each of them up does. *)
Fixpoint write_value (v : Value) : list Z :=
  match v with
  | VObject entries =>
      let written := map (fun e => (e.1, write_value e.2)) entries in
      [123] ++ comma (map entry_bytes (sort_entries written)) ++ [125]
  | VArray values => [91] ++ comma (map write_value values) ++ [93]
  | VScalar scalar => scalar_bytes scalar
  end.

(** [canonical_json_bytes]: serialization to a [Value] cannot fail for the
    payload types, whose object keys are all strings. *)
Definition canonical_json_bytes {A} `{Serialize A} (x : A) : list Z :=
  write_value (to_value x).

Definition payload_digest {A} `{Serialize A} (x : A) : rstr :=
  sha256_hex (canonical_json_bytes x).
End Canonical.

(** ** Equality of values

    [Value]'s [PartialEq]: members of objects are compared by key, so both sides
    are first brought into the order of their keys. *)
Fixpoint sort_value (v : Value) : Value :=
  match v with
  | VScalar s => VScalar s
  | VArray vs => VArray (map sort_value vs)
  | VObject es => VObject (sort_entries (map (fun e => (e.1, sort_value e.2)) es))
  end.
Fixpoint value_same (v w : Value) {struct v} : bool :=
  match v, w with
  | VScalar s, VScalar t => bool_decide (s = t)
  | VArray vs, VArray ws =>
      (fix go vs ws := match vs, ws with
       | [], [] => true
       | x :: vs', y :: ws' => value_same x y && go vs' ws'
       | _, _ => false end) vs ws
  | VObject es, VObject fs =>
      (fix go es fs := match es, fs with
       | [], [] => true
       | e :: es', f :: fs' => bool_decide (e.1 = f.1) && value_same e.2 f.2 && go es' fs'
       | _, _ => false end) es fs
  | _, _ => false
  end.
Definition value_eqb (v w : Value) : bool := value_same (sort_value v) (sort_value w).

(** ** Access to values *)
Global Instance Value_Serialize : Serialize Value := fun v => v.
Definition value_get (key : string) (v : Value) : option Value :=
  match v with
  | VObject es => snd <$> List.find (fun e => rstr_eqb e.1 (lit key)) es
  | _ => None
  end.
Definition as_str (v : Value) : option rstr :=
  match v with VScalar (SString s) => Some s | _ => None end.
Definition value_as_i64 (v : Value) : option Z :=
  match v with
  | VScalar (SNumber (JInt z)) => if Char.between (- 2 ^ 63) I64_MAX z then Some z else None
  | _ => None
  end.
(** [Map::insert]: replace the value of a key or add the entry. *)
Fixpoint entries_insert (key : rstr) (v : Value) (es : list (rstr * Value))
  : list (rstr * Value) :=
  match es with
  | [] => [(key, v)]
  | (k, x) :: rest => if rstr_eqb k key then (k, v) :: rest else (k, x) :: entries_insert key v rest
  end.
Definition object_insert (key : string) (v : Value) (obj : Value) : Value :=
  match obj with VObject es => VObject (entries_insert (lit key) v es) | _ => obj end.

Section ValueInd.
Variable P : Value -> Prop.
Hypothesis Hscalar : forall s, P (VScalar s).
Hypothesis Harray : forall vs, Forall P vs -> P (VArray vs).
Hypothesis Hobject : forall es, Forall (fun e => P e.2) es -> P (VObject es).
Fixpoint value_ind' (v : Value) : P v :=
  match v with
  | VScalar s => Hscalar s
  | VArray vs => Harray vs ((fix go vs : Forall P vs :=
      match vs with [] => Forall_nil_2 _ | x :: vs' => Forall_cons_2 _ _ _ (value_ind' x) (go vs') end) vs)
  | VObject es => Hobject es ((fix go es : Forall (fun e => P e.2) es :=
      match es with
      | [] => Forall_nil_2 _
      | e :: es' => Forall_cons_2 _ _ _ (value_ind' e.2) (go es')
      end) es)
  end.
End ValueInd.

Lemma value_same_refl v : value_same v v = true.
Proof.
  induction v as [s|vs IH|es IH] using value_ind'; simpl.
  - by apply bool_decide_eq_true_2.
  - induction IH as [|x vs Hx _ IH']; [done|]. by rewrite Hx, IH'.
  - induction IH as [|e es He _ IH']; [done|]. rewrite He, IH'. by rewrite bool_decide_eq_true_2.
Qed.
Lemma value_eqb_refl v : value_eqb v v = true.
Proof. apply value_same_refl. Qed.

(** ** Order of object entries

    [json_equiv] relates two values that differ only in the order of their
    object entries, at any depth. *)
Inductive json_equiv : Value -> Value -> Prop :=
| je_scalar s : json_equiv (VScalar s) (VScalar s)
| je_array vs ws : Forall2 json_equiv vs ws -> json_equiv (VArray vs) (VArray ws)
| je_object es fs gs :
    NoDup (map fst es) ->
    Forall2 (fun e f => e.1 = f.1 /\ json_equiv e.2 f.2) es fs ->
    Permutation fs gs ->
    json_equiv (VObject es) (VObject gs).

Section JsonEquivInd.
Variable P : Value -> Value -> Prop.
Hypothesis Hscalar : forall s, P (VScalar s) (VScalar s).
Hypothesis Harray : forall vs ws, Forall2 P vs ws -> P (VArray vs) (VArray ws).
Hypothesis Hobject : forall es fs gs,
  NoDup (map fst es) ->
  Forall2 (fun e f => e.1 = f.1 /\ P e.2 f.2) es fs ->
  Permutation fs gs ->
  P (VObject es) (VObject gs).

(** Induction with hypotheses for the nested values. *)
Fixpoint json_equiv_ind' v w (H : json_equiv v w) {struct H} : P v w :=
  match H in json_equiv v w return P v w with
  | je_scalar s => Hscalar s
  | je_array vs ws Hf =>
      Harray vs ws
        ((fix go vs ws (Hf : Forall2 json_equiv vs ws) : Forall2 P vs ws :=
           match Hf with
           | List.Forall2_nil _ => List.Forall2_nil _
           | List.Forall2_cons x y Hxy Hl =>
               List.Forall2_cons _ _ (json_equiv_ind' x y Hxy) (go _ _ Hl)
           end) vs ws Hf)
  | je_object es fs gs Hn Hf Hp =>
      Hobject es fs gs Hn
        ((fix go es fs (Hf : Forall2 (fun e f => e.1 = f.1 /\ json_equiv e.2 f.2) es fs) :
            Forall2 (fun e f => e.1 = f.1 /\ P e.2 f.2) es fs :=
           match Hf with
           | List.Forall2_nil _ => List.Forall2_nil _
           | List.Forall2_cons x y (conj Hk Hv) Hl =>
               List.Forall2_cons _ _ (conj Hk (json_equiv_ind' _ _ Hv)) (go _ _ Hl)
           end) es fs Hf) Hp
  end.
End JsonEquivInd.

Section Sorting.
Lemma str_leb_refl a : str_leb a a = true.
Proof. induction a as [|x a IH]; simpl; [done|]. by rewrite Z.ltb_irrefl, Z.eqb_refl. Qed.

Lemma str_leb_total a b : str_leb a b = false -> str_leb b a = true.
Proof.
  revert b. induction a as [|x a IH]; intros [|y b]; simpl; try done.
  destruct (Z.ltb_spec x y), (Z.eqb_spec x y), (Z.ltb_spec y x), (Z.eqb_spec y x);
    try done; try lia. apply IH.
Qed.

Lemma str_leb_antisym a b : str_leb a b = true -> str_leb b a = true -> a = b.
Proof.
  revert b. induction a as [|x a IH]; intros [|y b]; simpl; try done.
  destruct (Z.ltb_spec x y), (Z.eqb_spec x y), (Z.ltb_spec y x), (Z.eqb_spec y x);
    try done; try lia. subst. intros. f_equal. by apply IH.
Qed.

Lemma str_leb_trans a b c : str_leb a b = true -> str_leb b c = true -> str_leb a c = true.
Proof.
  revert b c. induction a as [|x a IH]; intros [|y b] [|z c]; simpl; try done.
  destruct (Z.ltb_spec x y), (Z.eqb_spec x y), (Z.ltb_spec y z), (Z.eqb_spec y z),
    (Z.ltb_spec x z), (Z.eqb_spec x z); try done; try lia. apply IH.
Qed.

Context {A : Type}.
Implicit Types (e : rstr * A) (l : list (rstr * A)).

(** Entries with different keys can be inserted in either order. *)
Lemma insert_entry_comm e f l :
  e.1 <> f.1 -> insert_entry e (insert_entry f l) = insert_entry f (insert_entry e l).
Proof.
  intros Hne. induction l as [|g l IH]; simpl.
  - destruct (str_leb e.1 f.1) eqn:E1, (str_leb f.1 e.1) eqn:E2; try done.
    + by pose proof (str_leb_antisym _ _ E1 E2).
    + apply str_leb_total in E1. congruence.
  - destruct (str_leb f.1 g.1) eqn:Efg, (str_leb e.1 g.1) eqn:Eeg; simpl;
      rewrite ?Efg, ?Eeg.
    + destruct (str_leb e.1 f.1) eqn:E1, (str_leb f.1 e.1) eqn:E2; try done.
      * by pose proof (str_leb_antisym _ _ E1 E2).
      * apply str_leb_total in E1. congruence.
    + destruct (str_leb e.1 f.1) eqn:E1; [|done].
      pose proof (str_leb_trans _ _ _ E1 Efg). congruence.
    + destruct (str_leb f.1 e.1) eqn:E1; [|done].
      pose proof (str_leb_trans _ _ _ E1 Eeg). congruence.
    + by rewrite IH.
Qed.

Lemma sort_entries_perm l l' :
  Permutation l l' -> NoDup (map fst l) -> sort_entries l = sort_entries l'.
Proof.
  induction 1 as [|e l l' Hp IH|e f l|l l1 l2 Hp1 IH1 Hp2 IH2]; intros Hnd; simpl in *.
  - done.
  - inversion Hnd; subst. f_equal. by apply IH.
  - inversion Hnd as [|? ? Hni Hnd']; subst. apply insert_entry_comm.
    intros Heq. apply Hni. rewrite Heq. constructor.
  - rewrite IH1 by done. apply IH2. by rewrite <- Hp1.
Qed.
End Sorting.

Section CanonicalLemmas.
Context `{DigestEnv}.

Lemma write_value_equiv v w : json_equiv v w -> write_value v = write_value w.
Proof.
  induction 1 as [s|vs ws Hf|es fs gs Hnd Hf Hp] using json_equiv_ind'; simpl.
  - done.
  - f_equal. f_equal. f_equal. induction Hf; simpl; [done|]. by f_equal.
  - set (wr := fun e : rstr * Value => (e.1, write_value e.2)).
    assert (Heq : map wr es = map wr fs).
    { clear Hp Hnd. induction Hf as [|e f es fs [Hk Hv] Hrest IH]; simpl; [done|].
      rewrite IH. unfold wr at 1 3. by rewrite Hk, Hv. }
    rewrite Heq.
    rewrite (sort_entries_perm (map wr fs) (map wr gs)); [done | by apply Permutation_map |].
    rewrite <- Heq, map_map. simpl. done.
Qed.

#[export] Instance write_value_proper : Proper (json_equiv ==> eq) write_value.
Proof. intros v w. apply write_value_equiv. Qed.

End CanonicalLemmas.

(** ** Properties *)
Section Properties.
Context `{DigestEnv}.

(** the payload digest is independent of the order in which the members of
    objects were inserted, at any depth and for any two payload types: equal
    values up to member order have equal digests. *)
Theorem payload_digest_order_independent {A B} `{Serialize A, Serialize B} (x : A) (y : B) :
  json_equiv (to_value x) (to_value y) -> payload_digest x = payload_digest y.
Proof.
  intros Heq. unfold payload_digest, canonical_json_bytes. by rewrite Heq.
Qed.
End Properties.

Section Witnesses.
Local Instance sample_env : DigestEnv := {|
  scalar_bytes := fun s => match s with SString k => [34] ++ k ++ [34] | _ => [48] end;
  sha256_hex := fun bytes => bytes |}.
Local Instance value_serialize : Serialize Value := fun v => v.
Local Definition member_a : rstr * Value := (lit "a", VScalar SNull).
Local Definition member_b : rstr * Value := (lit "b", VArray [VScalar (SString (lit "x"))]).

Lemma payload_digest_order_independent_witness :
  payload_digest (VObject [member_a; member_b]) = payload_digest (VObject [member_b; member_a]).
Proof.
  apply payload_digest_order_independent. apply (je_object _ [member_a; member_b]).
  - apply (bool_decide_unpack _). reflexivity.
  - repeat constructor.
  - apply Permutation_swap.
Defined.
End Witnesses.
