(* ===== verification/JsonText.v ===== *)
(** * The text of a JSON value

    serde_json's compact writer for derived types, whose members keep their declared
    order, and its unique readability: under the framing of scalars that JSON
    guarantees, two values with the same text are equal.  Digests of such texts
    identify what was written, up to collisions of the hash. *)
From stdpp Require Import base list strings.
From Stdlib Require Import ZArith Lia.
From S2P Require Import Prelude RustStr Json.

Local Open Scope Z_scope.

Section Compact.
Context `{DigestEnv}.

(** [serde_json::to_vec]. *)
Fixpoint write_compact (v : Value) : list Z :=
  match v with
  | VObject entries =>
      [123] ++ comma (map (fun e => entry_bytes (e.1, write_compact e.2)) entries) ++ [125]
  | VArray values => [91] ++ comma (map write_compact values) ++ [93]
  | VScalar scalar => scalar_bytes scalar
  end.

(** Integers, strings, booleans and null have one text each. *)
Definition exact_scalar (s : Scalar) : bool :=
  match s with SNumber (JFloat _) => false | _ => true end.
Fixpoint exact (v : Value) : bool :=
  match v with
  | VObject entries => forallb (fun e => exact e.2) entries
  | VArray values => forallb exact values
  | VScalar scalar => exact_scalar scalar
  end.

Definition delimiter (c : Z) : bool := (c =? 44) || (c =? 58) || (c =? 93) || (c =? 125).
Definition ends (r : list Z) : Prop := match r with [] => True | c :: _ => delimiter c = true end.
(** The framing of scalars: a scalar's text is not empty, does not start like a
    container or a delimiter, and is ended by the next delimiter. *)
Class ScalarText : Prop := {
  scalar_head : forall s, exact_scalar s = true ->
    exists c r, scalar_bytes s = c :: r /\ delimiter c = false /\ c <> 91 /\ c <> 123;
  scalar_framed : forall s t r u,
    exact_scalar s = true -> exact_scalar t = true -> ends r -> ends u ->
    scalar_bytes s ++ r = scalar_bytes t ++ u -> s = t /\ r = u
}.
Context `{ScalarText}.

(** No text starts with a delimiter. *)
Lemma compact_head v : exact v = true ->
  exists c r, write_compact v = c :: r /\ delimiter c = false.
Proof.
  destruct v as [s|vs|es]; simpl; intros He; [|by eexists _, _ ..].
  destruct (scalar_head s He) as (c & r & -> & Hc & _). by exists c, r.
Qed.

Definition framed (v : Value) : Prop := forall w r u,
  exact v = true -> exact w = true -> ends r -> ends u ->
  write_compact v ++ r = write_compact w ++ u -> v = w /\ r = u.

(** Lists of framed pieces between a bracket and a closing delimiter. *)
Lemma comma_cons (p : list Z) ps :
  comma (p :: ps) = p ++ match ps with [] => [] | _ => [44] ++ comma ps end.
Proof. destruct ps; [by rewrite app_nil_r | done]. Qed.

Lemma comma_framed {A} (text : A -> list Z) (good : A -> bool) close vs :
  delimiter close = true -> close <> 44 ->
  (forall a, good a = true -> exists c r, text a = c :: r /\ delimiter c = false) ->
  Forall (fun a => forall b r u, good a = true -> good b = true -> ends r -> ends u ->
            text a ++ r = text b ++ u -> a = b /\ r = u) vs ->
  forall ws r u,
  forallb good vs = true -> forallb good ws = true ->
  comma (map text vs) ++ close :: r = comma (map text ws) ++ close :: u -> vs = ws /\ r = u.
Proof.
  intros Hclose Hne Hhead. induction 1 as [|v vs Hv _ IH]; intros [|w ws] r u Hg1 Hg2 Heq.
  - by injection Heq as ->.
  - apply andb_true_iff in Hg2 as [Hw _]. destruct (Hhead w Hw) as (c & t & Ht & Hc).
    rewrite map_cons, comma_cons, Ht in Heq. injection Heq as <- _. congruence.
  - apply andb_true_iff in Hg1 as [Hg _]. destruct (Hhead v Hg) as (c & t & Ht & Hc).
    rewrite map_cons, comma_cons, Ht in Heq. injection Heq as -> _. congruence.
  - apply andb_true_iff in Hg1 as [Hg1 Hgs1], Hg2 as [Hg2 Hgs2].
    rewrite !map_cons, !comma_cons, <- !app_assoc in Heq.
    apply Hv in Heq as [-> Heq]; [|done|done|by destruct vs|by destruct ws].
    destruct vs as [|v' vs], ws as [|w' ws]; cbn [map app] in Heq.
    + by injection Heq as ->.
    + by injection Heq.
    + by injection Heq.
    + injection Heq as Heq.
      apply (IH (w' :: ws)) in Heq; [|done|done]. by destruct Heq as [[= -> ->] ->].
Qed.

(** Unique readability. *)
Lemma compact_framed v : framed v.
Proof.
  induction v as [s|vs IH|es IH] using value_ind'; intros [t|ws|fs] r u Hv Hw Hr Hu Heq;
    simpl in Hv, Hw, Heq.
  - apply scalar_framed in Heq as [-> ->]; done.
  - destruct (scalar_head s Hv) as (c & x & Hs & _ & H91 & _). rewrite Hs in Heq.
    by injection Heq as -> _.
  - destruct (scalar_head s Hv) as (c & x & Hs & _ & _ & H123). rewrite Hs in Heq.
    by injection Heq as -> _.
  - destruct (scalar_head t Hw) as (c & x & Hs & _ & H91 & _). rewrite Hs in Heq.
    by injection Heq as <- _.
  - injection Heq as Heq. rewrite <- !app_assoc in Heq.
    apply (comma_framed write_compact exact 93) in Heq as [-> ->]; try done. apply compact_head.
  - discriminate Heq.
  - destruct (scalar_head t Hw) as (c & x & Hs & _ & _ & H123). rewrite Hs in Heq.
    by injection Heq as <- _.
  - discriminate Heq.
  - injection Heq as Heq. rewrite <- !app_assoc in Heq.
    apply (comma_framed (fun e => entry_bytes (e.1, write_compact e.2))
             (fun e : rstr * Value => exact e.2) 125) in Heq as [-> ->]; try done.
    + intros e _. destruct (scalar_head (SString e.1) eq_refl) as (c & x & Hs & Hc & _).
      unfold entry_bytes. cbn [fst snd]. rewrite Hs. by exists c, (x ++ [58] ++ write_compact e.2).
    + eapply Forall_impl; [exact IH|]. intros [k a] Ha [k' b] r' u' Hga Hgb Hr' Hu' Heq'.
      unfold entry_bytes in Heq'. cbn [fst snd] in *. rewrite <- !app_assoc in Heq'.
      apply scalar_framed in Heq' as [Hk Heq']; [|done ..]. injection Heq' as Heq'.
      apply Ha in Heq' as [-> ->]; [|done ..]. by injection Hk as ->.
Qed.
Lemma write_compact_inj v w :
  exact v = true -> exact w = true -> write_compact v = write_compact w -> v = w.
Proof.
  intros Hv Hw Heq. apply (compact_framed v w [] []); [done ..|]. by rewrite !app_nil_r.
Qed.

(** Equal digests: equal values, or a collision. *)
Lemma compact_digest v w :
  exact v = true -> exact w = true ->
  sha256_hex (write_compact v) = sha256_hex (write_compact w) ->
  v = w \/ (write_compact v <> write_compact w
           /\ sha256_hex (write_compact v) = sha256_hex (write_compact w)).
Proof.
  intros Hv Hw Heq. destruct (decide (write_compact v = write_compact w)) as [He|Hne].
  - left. by apply write_compact_inj.
  - by right.
Qed.
End Compact.

(** ** An instance

    Unary numbers, and strings with a mark before each character: every scalar ends
    itself. *)
Section Unary.
Definition unary (z : Z) : list Z :=
  (if z <? 0 then [45] else [43]) ++ repeat 49 (Z.abs_nat z) ++ [48].
Definition unary_scalar (s : Scalar) : list Z :=
  match s with
  | SNull => [110]
  | SBool b => if b then [116] else [102]
  | SNumber (JInt z) => 35 :: unary z
  | SNumber (JFloat bits) => 46 :: unary bits
  | SString str => 34 :: concat (map (fun c => [49; c]) str) ++ [34]
  end.
Definition unary_digest : DigestEnv :=
  {| scalar_bytes := unary_scalar; sha256_hex := fun b => b |}.

Lemma repeat_framed n m r u :
  repeat 49 n ++ 48 :: r = repeat 49 m ++ 48 :: u -> n = m /\ r = u.
Proof.
  revert m. induction n as [|n IH]; intros [|m]; simpl; try discriminate 1.
  - by intros [= ->].
  - intros [= Heq]. apply IH in Heq as [-> ->]. done.
Qed.
Lemma unary_framed z y r u : unary z ++ r = unary y ++ u -> z = y /\ r = u.
Proof.
  unfold unary. rewrite <- !app_assoc. destruct (Z.ltb_spec z 0), (Z.ltb_spec y 0); simpl;
    intros Heq; try discriminate Heq; injection Heq as Heq; rewrite <- ?app_assoc in Heq;
    apply repeat_framed in Heq as [Hn ->]; (split; [lia | done]).
Qed.
Lemma marked_framed (s : rstr) : forall t r u,
  concat (map (fun c => [49; c]) s) ++ 34 :: r = concat (map (fun c => [49; c]) t) ++ 34 :: u -> s = t /\ r = u.
Proof.
  induction s as [|z s IH]; intros [|y t] r u; simpl; try discriminate 1.
  - by intros [= ->].
  - intros [= -> Heq]. by apply IH in Heq as [-> ->].
Qed.
Lemma unary_text : @ScalarText unary_digest.
Proof.
  split.
  - intros [|[]|[]|s] _; simpl; by eexists _, _.
  - intros [|[]|[z|z]|s] [|[]|[y|y]|t] r u Hs Ht _ _; simpl; try discriminate Hs; try discriminate Ht;
      try discriminate 1; try (by intros [= ->]).
    + intros [= Heq]. by apply unary_framed in Heq as [-> ->].
    + rewrite <- !app_assoc. intros [= Heq]. by apply marked_framed in Heq as [-> ->].
Qed.
End Unary.
