(* ===== verification/MemorySize.v ===== *)
(** * Memory sizes

    crates/sbgh-core/src/memory.rs: sizes in configuration files as a number with a binary
    suffix.  The product of the number and its unit is taken in 64 bits without a check, which a
    release build wraps.  The main result is that every size is read back from its rendering; and
    a size is read as the product exactly when the product fits. *)
From stdpp Require Import base list strings.
From Stdlib Require Import ZArith Lia.
From S2P Require Import Prelude RustStr.

Local Open Scope Z_scope.
#[local] Arguments lit _ : simpl never.

Definition KIB : Z := 1024.
Definition MIB : Z := KIB * 1024.
Definition GIB : Z := MIB * 1024.
Definition TIB : Z := GIB * 1024.
Inductive MemorySizeParseError :=
| Mem_Empty
| Mem_UnknownSuffix (s : rstr)
| Mem_InvalidNumber.
(** [find] of the first character that is not a digit, and [split_at]. *)
Fixpoint split_digits (s : rstr) : rstr * rstr :=
  match s with
  | [] => ([], [])
  | c :: s' => if Char.is_ascii_digit c then let '(d, r) := split_digits s' in (c :: d, r) else ([], s)
  end.
Definition normalise_suffix (raw : rstr) : rstr :=
  let lower := map Char.to_ascii_lowercase (trim raw) in
  match strip_suffix (lit "ib") lower with
  | Some s => s
  | None =>
      match strip_suffix (lit "b") lower with
      | Some s => s
      | None => default lower (strip_suffix (lit "i") lower)
      end
  end.
Definition multiplier (suffix : rstr) : option Z :=
  if rstr_eqb suffix [] then Some 1
  else if rstr_eqb suffix (lit "k") then Some KIB
  else if rstr_eqb suffix (lit "m") then Some MIB
  else if rstr_eqb suffix (lit "g") then Some GIB
  else if rstr_eqb suffix (lit "t") then Some TIB
  else None.
(** [MemorySize::from_str]. *)
Definition memory_from_str (raw : rstr) : result Z MemorySizeParseError :=
  let s := trim raw in
  ensure (negb (is_empty s)) Mem_Empty ;?
  let '(num_str, suffix_raw) := split_digits s in
  ensure (negb (is_empty num_str)) (Mem_UnknownSuffix s) ;?
  let? n := ok_or (parse_u64 num_str) Mem_InvalidNumber in
  let? m := ok_or (multiplier (normalise_suffix suffix_raw)) (Mem_UnknownSuffix suffix_raw) in
  Ok (wrapping_mul_u64 n m).
(** [Display]: the largest unit that divides evenly. *)
Definition memory_units : list (Z * rstr) := [(TIB, lit "T"); (GIB, lit "G"); (MIB, lit "M"); (KIB, lit "K")].
Definition memory_display (b : Z) : rstr :=
  if b =? 0 then lit "0"
  else match List.find (fun u => b mod u.1 =? 0) memory_units with
       | Some (mult, suffix) => show (b / mult) ++ suffix
       | None => show b
       end.
(** [MemorySizeVisitor]. *)
Inductive MemoryInput := Input_str (s : rstr) | Input_u64 (n : Z) | Input_i64 (n : Z).
Inductive MemoryDeserializeError := De_custom (e : MemorySizeParseError) | De_negative.
Definition memory_visit (i : MemoryInput) : result Z MemoryDeserializeError :=
  match i with
  | Input_str s => map_err De_custom (memory_from_str s)
  | Input_u64 n => Ok n
  | Input_i64 n => if n <? 0 then Err De_negative else Ok n
  end.

(** ** Reading back *)
Lemma show_digits_all fuel : forall z acc, 0 <= z ->
  Forall (fun c => Char.is_ascii_digit c = true) acc -> Forall (fun c => Char.is_ascii_digit c = true) (show_digits fuel z acc).
Proof.
  induction fuel as [|fuel IH]; intros z acc Hz Ha; cbn [show_digits]; [done|].
  assert (Ha' : Forall (fun c => Char.is_ascii_digit c = true) ((48 + z mod 10) :: acc))
    by (constructor; [by apply digit_ok | done]).
  destruct (z <? 10); [done|]. apply IH; [apply Z.div_pos; lia | done].
Qed.
Lemma split_digits_app d r :
  Forall (fun c => Char.is_ascii_digit c = true) d ->
  match r with [] => True | c :: _ => Char.is_ascii_digit c = false end -> split_digits (d ++ r) = (d, r).
Proof.
  induction 1 as [|c d Hc _ IH]; cbn; intros Hr.
  - destruct r as [|c r]; [done|]. cbn. by rewrite Hr.
  - by rewrite Hc, IH.
Qed.
(** A number with the suffix of a unit reads as their product, in 64 bits. *)
Lemma memory_from_shown n suffix m :
  in_u64 n -> suffix = [] \/ (exists c, suffix = [c] /\ printable c /\ Char.is_ascii_digit c = false) ->
  multiplier (normalise_suffix suffix) = Some m -> memory_from_str (show n ++ suffix) = Ok (wrapping_mul_u64 n m).
Proof.
  intros Hn Hs Hm. assert (H0 : 0 <= n) by (unfold in_u64 in Hn; lia).
  pose proof (show_digits_all 40 n [] H0 (Forall_nil_2 _)) as Hd. fold (show n) in Hd.
  destruct (show_digits_head 40 n [] H0 ltac:(lia)) as (d & rest & E & _). fold (show n) in E.
  assert (Hp : Forall printable (show n ++ suffix)).
  { apply Forall_app_2.
    - eapply Forall_impl; [exact Hd|]. unfold Char.is_ascii_digit, Char.between, printable.
      intros c [?%Z.leb_le ?%Z.leb_le]%andb_true_iff. lia.
    - destruct Hs as [->|(c & -> & Hc & _)]; [apply Forall_nil_2 | by apply Forall_singleton]. }
  assert (Ht : trim (show n ++ suffix) = show n ++ suffix).
  { rewrite E in *. by apply printable_trim. }
  unfold memory_from_str. rewrite Ht, split_digits_app by (try done; by destruct Hs as [->|(c & -> & _ & Hc)]).
  rewrite (parse_show_u64 n Hn), Hm. rewrite E. reflexivity.
Qed.
Lemma unit_quotient b mult suffix :
  in_u64 b -> 0 < mult -> b mod mult = 0 ->
  (exists c, suffix = [c] /\ printable c /\ Char.is_ascii_digit c = false) ->
  multiplier (normalise_suffix suffix) = Some mult -> memory_from_str (show (b / mult) ++ suffix) = Ok b.
Proof.
  intros Hb Hm Hz Hs Hu. assert (Hq : b = mult * (b / mult)) by (apply Z.div_exact; lia).
  assert (Hr : in_u64 (b / mult)).
  { unfold in_u64 in *. split; [apply Z.div_pos; lia|]. apply Z.le_trans with b; [|lia].
    apply Z.div_le_upper_bound; nia. }
  rewrite (memory_from_shown _ _ mult) by (try done; by right). f_equal. unfold wrapping_mul_u64.
  rewrite Z.mul_comm, <- Hq. apply Z.mod_small. unfold_bounds. lia.
Qed.

(** Every size is read back from its rendering, whatever unit is chosen. *)
Theorem memory_size_roundtrip b : in_u64 b -> memory_from_str (memory_display b) = Ok b.
Proof.
  intros Hb. unfold memory_display. destruct (Z.eqb_spec b 0) as [->|Hne]; [exact eq_refl|].
  destruct (List.find _ memory_units) as [[mult suffix]|] eqn:Hf.
  - apply find_some in Hf as [Hin Hz%Z.eqb_eq].
    destruct Hin as [[= <- <-]|[[= <- <-]|[[= <- <-]|[[= <- <-]|[]]]]];
      (apply unit_quotient; [done | done | done | eexists; split; [reflexivity|]; split; [split; vm_compute; discriminate | reflexivity] | reflexivity]).
  - rewrite <- (app_nil_r (show b)). rewrite (memory_from_shown b [] 1) by (try done; by left).
    f_equal. unfold wrapping_mul_u64. rewrite Z.mul_1_r. apply Z.mod_small. unfold_bounds. lia.
Qed.
(** The product is not checked: a size of sixteen exbibytes is read as zero. *)
Lemma memory_size_overflow : memory_from_str (lit "16777216T") = Ok 0 /\ 16777216 * TIB = 2 ^ 64.
Proof. split; exact eq_refl. Qed.
(** Every spelling of a suffix names the same unit; fractions and unknown suffixes are errors. *)
Lemma memory_spellings :
  Forall (fun s => memory_from_str (lit s) = Ok (16 * GIB))
    ["16G"; "16g"; "16GB"; "16gb"; "16Gi"; "16gi"; "16GiB"; "16gib"; "  16G  "]
  /\ memory_from_str (lit "1.5G") = Err (Mem_UnknownSuffix (lit ".5G"))
  /\ memory_from_str (lit "G") = Err (Mem_UnknownSuffix (lit "G"))
  /\ memory_from_str (lit "   ") = Err Mem_Empty.
Proof. split; [repeat apply Forall_cons_2; try exact eq_refl; apply Forall_nil_2|]. split_and!; exact eq_refl. Qed.
