(* ===== verification/FleetModel.v ===== *)
(** * Transport-neutral fleet values

    The data of crates/sbgh-fleet/src/model.rs, negotiation.rs and preflight.rs:
    one record per struct, one inductive type per enum, and the [Serialize]
    instances that serde derives (internally tagged enums carry a [kind] entry).
    UUIDs are 128-bit integers, the nil UUID being zero; record fields carry a
    short prefix because Rocq's projections share one name space. *)
From stdpp Require Import base list strings gmap.
From Stdlib Require Import ZArith Lia.
From S2P Require Import Prelude RustStr Json.

Local Open Scope Z_scope.

Abbreviation Uuid := Z (only parsing).
Definition is_nil (u : Uuid) : bool := u =? 0.

(** The hyphenated lowercase form of a UUID. *)
Definition hex_digit (d : Z) : Z := if d <? 10 then 48 + d else 87 + d.
Definition hex_digits (n : nat) (z : Z) : rstr :=
  map (fun i => hex_digit (Z.land (Z.shiftr z (4 * Z.of_nat i)) 15)) (rev (seq 0 n)).
Definition uuid_string (u : Uuid) : rstr :=
  let h := hex_digits 32 u in
  take 8 h ++ [45] ++ take 4 (drop 8 h) ++ [45] ++ take 4 (drop 12 h) ++ [45]
  ++ take 4 (drop 16 h) ++ [45] ++ drop 20 h.

Inductive WorkerCapability := Cap_Benchmark | Cap_BuildOnly | Cap_BlockValidation.
Global Instance WorkerCapability_eq_dec : EqDecision WorkerCapability.
Proof. solve_decision. Defined.

Global Instance WorkerCapability_countable : Countable WorkerCapability.
Proof.
  refine (inj_countable'
    (fun c => match c with Cap_Benchmark => 0 | Cap_BuildOnly => 1 | Cap_BlockValidation => 2 end)%nat
    (fun n => match n with 0 => Cap_Benchmark | 1 => Cap_BuildOnly | _ => Cap_BlockValidation end)%nat _).
  by intros [].
Defined.

Definition WorkerCapability_as_str (c : WorkerCapability) : rstr :=
  match c with
  | Cap_Benchmark => lit "benchmark"
  | Cap_BuildOnly => lit "build_only"
  | Cap_BlockValidation => lit "block_validation"
  end.

Record ResourceFacts := { rf_logical_cpus : Z; rf_memory_bytes : Z }.
Global Instance ResourceFacts_eq_dec : EqDecision ResourceFacts.
Proof. solve_decision. Defined.

(** ** Protocol negotiation data (negotiation.rs) *)
Inductive ProtocolFeature :=
| BuildOnlyV1 | BenchmarkV1 | BlockValidationV1 | ResidentCordon | ShutdownAfterIdle.
Global Instance ProtocolFeature_eq_dec : EqDecision ProtocolFeature.
Proof. solve_decision. Defined.

Global Instance ProtocolFeature_countable : Countable ProtocolFeature.
Proof.
  refine (inj_countable'
    (fun f => match f with
              | BuildOnlyV1 => 0 | BenchmarkV1 => 1 | BlockValidationV1 => 2
              | ResidentCordon => 3 | ShutdownAfterIdle => 4
              end)%nat
    (fun n => match n with
              | 0 => BuildOnlyV1 | 1 => BenchmarkV1 | 2 => BlockValidationV1
              | 3 => ResidentCordon | _ => ShutdownAfterIdle
              end)%nat _).
  by intros [].
Defined.

(** A [BTreeSet] is a [gset]. *)
Record ProtocolOffer := {
  po_minimum_revision : Z;
  po_maximum_revision : Z;
  po_features : gset rstr
}.
Global Instance ProtocolOffer_eq_dec : EqDecision ProtocolOffer.
Proof. solve_decision. Defined.

Record ProtocolContract := {
  pc_revision : Z;
  pc_features : gset ProtocolFeature
}.
Global Instance ProtocolContract_eq_dec : EqDecision ProtocolContract.
Proof. solve_decision. Defined.

(** ** Preflight evidence (preflight.rs) *)
Record PreflightReport := {
  pf_revision : Z;
  pf_completed_at_ms : Z;
  pf_executable_sha256 : rstr;
  pf_configuration_sha256 : rstr
}.
Global Instance PreflightReport_eq_dec : EqDecision PreflightReport.
Proof. solve_decision. Defined.

(** ** Registration *)
Record RegistrationCheckRequest := {
  rc_protocol_version : Z;
  rc_protocol_offer : option ProtocolOffer;
  rc_software_version : rstr;
  rc_advertised_capabilities : gset WorkerCapability;
  rc_resources : ResourceFacts
}.

Record RegisterSessionRequest := {
  rs_preflight : option PreflightReport;
  rs_protocol_version : Z;
  rs_protocol_offer : option ProtocolOffer;
  rs_worker_session_id : Uuid;
  rs_software_version : rstr;
  rs_advertised_capabilities : gset WorkerCapability;
  rs_resources : ResourceFacts
}.

Record RegistrationCheckResponse := {
  rr_protocol_version : Z;
  rr_protocol_contract : option ProtocolContract;
  rr_worker_id : Uuid;
  rr_effective_capabilities : gset WorkerCapability;
  rr_measurement_profile : option rstr;
  rr_draining : bool;
  rr_heartbeat_interval_ms : Z;
  rr_lease_ttl_ms : Z;
  rr_server_time_ms : Z
}.

Record RegisterSessionResponse := {
  rg_protocol_version : Z;
  rg_protocol_contract : option ProtocolContract;
  rg_heartbeat_interval_ms : Z;
  rg_lease_ttl_ms : Z;
  rg_server_time_ms : Z
}.

Record CleanupItem := { ci_id : Z; ci_attempt_id : Uuid; ci_job_id : Uuid; ci_reason : rstr }.
Record CleanupListRequest := { cl_worker_session_id : Uuid }.
Record CleanupCompleteRequest := { cc_worker_session_id : Uuid; cc_obligation_id : Z }.
Record DeregisterSessionRequest := { dr_worker_session_id : Uuid }.
Record PollRequest := { pr_worker_session_id : Uuid }.

(** ** Attempts and offers *)
Record AttemptIdentity := {
  ai_worker_session_id : Uuid;
  ai_attempt_id : Uuid;
  ai_fencing_generation : Z;
  ai_lease_token : rstr
}.
Global Instance AttemptIdentity_eq_dec : EqDecision AttemptIdentity.
Proof. solve_decision. Defined.

Record AcceptOfferRequest := { ao_identity : AttemptIdentity }.
Record RepositoryCredentialRequest := { rcr_identity : AttemptIdentity }.
Record HeartbeatRequest := { hb_identity : AttemptIdentity; hb_reliable_buffer_len : Z }.

Inductive OfferRequirements := Req_Benchmark | Req_BuildOnly | Req_BlockValidation.
Global Instance OfferRequirements_eq_dec : EqDecision OfferRequirements.
Proof. solve_decision. Defined.

Record BenchmarkPayload := {
  bp_effective_args : list rstr;
  bp_workload_key : option rstr;
  bp_sqlite_seed_key : option rstr;
  bp_shared_baseline_calibration : bool;
  bp_baseline_calibration_id : option Z;
  bp_run_index : Z;
  bp_requested_run_count : Z
}.
Global Instance BenchmarkPayload_eq_dec : EqDecision BenchmarkPayload.
Proof. solve_decision. Defined.

Inductive ValidationEpoch := PreNakamoto | Nakamoto.
Global Instance ValidationEpoch_eq_dec : EqDecision ValidationEpoch.
Proof. solve_decision. Defined.

Record InclusiveRange := { ir_start : Z; ir_end : Z }.
Global Instance InclusiveRange_eq_dec : EqDecision InclusiveRange.
Proof. solve_decision. Defined.

Inductive BlockValidationSelection :=
| Sel_Recent (block_count : Z)
| Sel_Full
| Sel_Range (range : InclusiveRange).
Global Instance BlockValidationSelection_eq_dec : EqDecision BlockValidationSelection.
Proof. solve_decision. Defined.

Record BlockValidationPayload := {
  bv_selection : BlockValidationSelection;
  bv_timeout_secs : Z
}.
Global Instance BlockValidationPayload_eq_dec : EqDecision BlockValidationPayload.
Proof. solve_decision. Defined.

Inductive TaskPayload :=
| Task_Benchmark (p : BenchmarkPayload)
| Task_BuildOnly
| Task_BlockValidation (p : BlockValidationPayload).
Global Instance TaskPayload_eq_dec : EqDecision TaskPayload.
Proof. solve_decision. Defined.

(** [TaskPayload::capability]. *)
Definition TaskPayload_capability (p : TaskPayload) : WorkerCapability :=
  match p with
  | Task_Benchmark _ => Cap_Benchmark
  | Task_BuildOnly => Cap_BuildOnly
  | Task_BlockValidation _ => Cap_BlockValidation
  end.

(** [impl From<&TaskPayload> for OfferRequirements]. *)
Definition OfferRequirements_from (p : TaskPayload) : OfferRequirements :=
  match p with
  | Task_Benchmark _ => Req_Benchmark
  | Task_BuildOnly => Req_BuildOnly
  | Task_BlockValidation _ => Req_BlockValidation
  end.

Record WorkOffer := {
  wo_identity : AttemptIdentity;
  wo_job_id : Uuid;
  wo_trace_id : Uuid;
  wo_capability : WorkerCapability;
  wo_requirements : OfferRequirements;
  wo_payload_hash : rstr;
  wo_offer_expires_at_ms : Z
}.

Inductive PollResponse :=
| Poll_NoWork (retry_after_ms : Z)
| Poll_Drain
| Poll_ShutdownAfterIdle
| Poll_Offer (offer : WorkOffer).

Record AssignmentContext := {
  ac_job_id : Uuid;
  ac_repository : rstr;
  ac_commit : rstr
}.

Record Assignment := {
  as_identity : AttemptIdentity;
  as_trace_id : Uuid;
  as_context : AssignmentContext;
  as_payload : TaskPayload;
  as_payload_hash : rstr;
  as_vcpu_cpuset : option rstr
}.

Record AcceptOfferResponse := { aor_assignment : Assignment }.
Record RepositoryCredentialResponse := { rcp_token : rstr; rcp_expires_at_ms : Z }.

Inductive DesiredState := DS_Continue | DS_Cancel | DS_Drain.
Global Instance DesiredState_eq_dec : EqDecision DesiredState.
Proof. solve_decision. Defined.

Record HeartbeatResponse := {
  hr_desired_state : DesiredState;
  hr_lease_expires_at_ms : Z;
  hr_highest_contiguous_reliable_seq : Z
}.

(** ** Events and progress *)
Inductive ReliableEventPayload :=
| Event_Phase (label : rstr) (elapsed_ms : Z)
| Event_Terminal (outcome_digest : rstr).
Global Instance ReliableEventPayload_eq_dec : EqDecision ReliableEventPayload.
Proof. solve_decision. Defined.

Record ReliableEventEnvelope := {
  ev_identity : AttemptIdentity;
  ev_trace_id : Uuid;
  ev_reliable_seq : Z;
  ev_payload : ReliableEventPayload;
  ev_payload_digest : rstr;
  ev_worker_timestamp_ms : Z
}.

Record ReliableEventAck := { ra_highest_contiguous_reliable_seq : Z }.

Record ProgressUpdate := {
  pu_workflow_step : rstr;
  pu_run_index : Z;
  pu_requested_run_count : Z;
  pu_phase : rstr;
  pu_progress : Z;
  pu_total : option Z;
  pu_message : option rstr
}.
Global Instance ProgressUpdate_eq_dec : EqDecision ProgressUpdate.
Proof. solve_decision. Defined.

Record ProgressRequest := {
  pq_identity : AttemptIdentity;
  pq_trace_id : Uuid;
  pq_progress_seq : Z;
  pq_update : ProgressUpdate
}.

(** ** Artifacts *)
Inductive ArtifactOperation := Op_Put | Op_Get.

Record ArtifactGrantRequest := {
  ag_identity : AttemptIdentity;
  ag_operation : ArtifactOperation;
  ag_key : rstr;
  ag_size : option Z;
  ag_sha256 : option rstr
}.

Record HeaderValue := { hv_name : rstr; hv_value : rstr }.
Record ArtifactGrantResponse := {
  agr_method : rstr;
  agr_key : rstr;
  agr_url : rstr;
  agr_headers : list HeaderValue;
  agr_expires_at_ms : Z
}.

Record ArtifactDescriptor := {
  ad_key : rstr;
  ad_logical_key : rstr;
  ad_size : Z;
  ad_sha256 : rstr
}.
Global Instance ArtifactDescriptor_eq_dec : EqDecision ArtifactDescriptor.
Proof. solve_decision. Defined.

(** ** Block-validation results and terminal outcomes *)
Record InvalidBlock := { ib_shard : Z; ib_block : rstr; ib_reason : rstr }.
Global Instance InvalidBlock_eq_dec : EqDecision InvalidBlock.
Proof. solve_decision. Defined.

Record ObservedValidationIndex := {
  oi_pre_nakamoto_count : Z;
  oi_nakamoto_count : Z
}.
Global Instance ObservedValidationIndex_eq_dec : EqDecision ObservedValidationIndex.
Proof. solve_decision. Defined.

Record ValidationEpochSegment := {
  vs_epoch : ValidationEpoch;
  vs_global_range : InclusiveRange;
  vs_local_range : InclusiveRange
}.
Global Instance ValidationEpochSegment_eq_dec : EqDecision ValidationEpochSegment.
Proof. solve_decision. Defined.

Record BlockValidationResult := {
  br_valid : bool;
  br_checked_blocks : Z;
  br_invalid_blocks : list InvalidBlock;
  br_chainstate_origin : rstr;
  br_observed : ObservedValidationIndex;
  br_resolved_range : InclusiveRange;
  br_segments : list ValidationEpochSegment;
  br_shard_count : Z;
  br_max_concurrency : Z
}.

Inductive TerminalOutcome :=
| Outcome_Completed (summary : Value) (block_validation : option BlockValidationResult)
| Outcome_Failed (error : rstr) (summary : option Value) (retryable : bool)
| Outcome_Cancelled (reason : rstr).

Record CompleteAttemptRequest := {
  ca_identity : AttemptIdentity;
  ca_trace_id : Uuid;
  ca_terminal_reliable_seq : Z;
  ca_terminal_payload_digest : rstr;
  ca_outcome : TerminalOutcome;
  ca_artifacts : list ArtifactDescriptor
}.

Record CompleteAttemptResponse := { car_accepted : bool }.

(** ** Serialization *)
Definition jnull : Value := VScalar SNull.
Definition jbool (b : bool) : Value := VScalar (SBool b).
Definition jint (z : Z) : Value := VScalar (SNumber (JInt z)).
Definition jstr (s : rstr) : Value := VScalar (SString s).
Definition jopt {A} (f : A -> Value) (o : option A) : Value :=
  match o with Some a => f a | None => jnull end.
Definition juuid (u : Uuid) : Value := jstr (uuid_string u).
Definition jobj (entries : list (string * Value)) : Value :=
  VObject (map (fun e => (lit e.1, e.2)) entries).
Definition jkind (s : string) : string * Value := ("kind", jstr (lit s)).

Global Instance InclusiveRange_Serialize : Serialize InclusiveRange := fun r =>
  jobj [("start", jint (ir_start r)); ("end", jint (ir_end r))].

Global Instance BlockValidationSelection_Serialize : Serialize BlockValidationSelection :=
  fun s => match s with
  | Sel_Recent n => jobj [jkind "recent"; ("block_count", jint n)]
  | Sel_Full => jobj [jkind "full"]
  | Sel_Range r => jobj [jkind "range"; ("range", to_value r)]
  end.

Global Instance TaskPayload_Serialize : Serialize TaskPayload := fun t =>
  match t with
  | Task_Benchmark p => jobj
      [jkind "benchmark";
       ("effective_args", VArray (map jstr (bp_effective_args p)));
       ("workload_key", jopt jstr (bp_workload_key p));
       ("sqlite_seed_key", jopt jstr (bp_sqlite_seed_key p));
       ("shared_baseline_calibration", jbool (bp_shared_baseline_calibration p));
       ("baseline_calibration_id", jopt jint (bp_baseline_calibration_id p));
       ("run_index", jint (bp_run_index p));
       ("requested_run_count", jint (bp_requested_run_count p))]
  | Task_BuildOnly => jobj [jkind "build_only"]
  | Task_BlockValidation p => jobj
      [jkind "block_validation"; ("selection", to_value (bv_selection p));
       ("timeout_secs", jint (bv_timeout_secs p))]
  end.

Global Instance ReliableEventPayload_Serialize : Serialize ReliableEventPayload := fun e =>
  match e with
  | Event_Phase label elapsed_ms =>
      jobj [jkind "phase"; ("label", jstr label); ("elapsed_ms", jint elapsed_ms)]
  | Event_Terminal digest => jobj [jkind "terminal"; ("outcome_digest", jstr digest)]
  end.

Global Instance ValidationEpoch_Serialize : Serialize ValidationEpoch := fun e =>
  jstr (lit (match e with PreNakamoto => "pre_nakamoto" | Nakamoto => "nakamoto" end)).

Global Instance ValidationEpochSegment_Serialize : Serialize ValidationEpochSegment := fun s =>
  jobj [("epoch", to_value (vs_epoch s)); ("global_range", to_value (vs_global_range s));
        ("local_range", to_value (vs_local_range s))].

Global Instance InvalidBlock_Serialize : Serialize InvalidBlock := fun b =>
  jobj [("shard", jint (ib_shard b)); ("block", jstr (ib_block b)); ("reason", jstr (ib_reason b))].

Global Instance BlockValidationResult_Serialize : Serialize BlockValidationResult := fun r =>
  jobj [("valid", jbool (br_valid r)); ("checked_blocks", jint (br_checked_blocks r));
        ("invalid_blocks", VArray (map to_value (br_invalid_blocks r)));
        ("chainstate_origin", jstr (br_chainstate_origin r));
        ("observed", jobj
           [("pre_nakamoto_count", jint (oi_pre_nakamoto_count (br_observed r)));
            ("nakamoto_count", jint (oi_nakamoto_count (br_observed r)))]);
        ("resolved_range", to_value (br_resolved_range r));
        ("segments", VArray (map to_value (br_segments r)));
        ("shard_count", jint (br_shard_count r));
        ("max_concurrency", jint (br_max_concurrency r))].

Global Instance TerminalOutcome_Serialize : Serialize TerminalOutcome := fun o =>
  match o with
  | Outcome_Completed summary bv =>
      jobj [jkind "completed"; ("summary", summary); ("block_validation", jopt to_value bv)]
  | Outcome_Failed error summary retryable =>
      jobj [jkind "failed"; ("error", jstr error); ("summary", jopt id summary);
            ("retryable", jbool retryable)]
  | Outcome_Cancelled reason => jobj [jkind "cancelled"; ("reason", jstr reason)]
  end.

Global Instance ArtifactDescriptor_Serialize : Serialize ArtifactDescriptor := fun a =>
  jobj [("key", jstr (ad_key a)); ("logical_key", jstr (ad_logical_key a));
        ("size", jint (ad_size a)); ("sha256", jstr (ad_sha256 a))].

(** The serialized entries of every payload have distinct keys, so they can be
    reordered freely without changing the digest. *)
Definition object_keys_distinct (v : Value) : Prop :=
  match v with VObject es => NoDup (map fst es) | _ => True end.

Lemma TaskPayload_keys_distinct (t : TaskPayload) : object_keys_distinct (to_value t).
Proof.
  destruct t; apply (bool_decide_unpack (NoDup _)); vm_compute; exact I.
Qed.

Lemma TerminalOutcome_keys_distinct (o : TerminalOutcome) : object_keys_distinct (to_value o).
Proof.
  destruct o; apply (bool_decide_unpack (NoDup _)); vm_compute; exact I.
Qed.

(** ** The text of a UUID determines it *)
Definition unhex (c : Z) : Z := if c <? 58 then c - 48 else c - 87.
Definition hex_value (acc : Z) (l : rstr) : Z := foldl (fun a c => 16 * a + unhex c) acc l.
Lemma nibble_range z i : 0 <= Z.land (Z.shiftr z i) 15 < 16.
Proof. change 15 with (Z.ones 4). rewrite Z.land_ones by lia. apply Z.mod_pos_bound. lia. Qed.
Lemma unhex_hex_digit d : 0 <= d < 16 -> unhex (hex_digit d) = d.
Proof. unfold unhex, hex_digit. intros Hd. repeat case_match; lia. Qed.

Lemma hex_value_digits n z acc :
  hex_value acc (hex_digits n z) = acc * 16 ^ Z.of_nat n + z mod 16 ^ Z.of_nat n.
Proof.
  revert acc. induction n as [|n IH]; intros acc.
  { unfold hex_digits. simpl. rewrite Z.mod_1_r. lia. }
  unfold hex_digits. rewrite seq_S, rev_app_distr. simpl rev. simpl map.
  unfold hex_value. simpl foldl. fold (hex_digits n z) (hex_value (16 * acc + unhex (hex_digit
    (Z.land (Z.shiftr z (4 * Z.of_nat n)) 15))) (hex_digits n z)).
  rewrite IH, unhex_hex_digit by apply nibble_range.
  change 15 with (Z.ones 4). rewrite Z.land_ones, Z.shiftr_div_pow2 by lia.
  rewrite Z.pow_mul_r by lia. change (2 ^ 4) with 16.
  assert (Hpow : 0 < 16 ^ Z.of_nat n) by (apply Z.pow_pos_nonneg; lia).
  rewrite Nat2Z.inj_succ, Z.pow_succ_r by lia. set (p := 16 ^ Z.of_nat n) in *.
  replace (16 * p) with (p * 16) by ring. rewrite Z.rem_mul_r by lia. ring.
Qed.

Lemma hex_digits_no_hyphen n z : Forall (fun c => c <> 45) (hex_digits n z).
Proof.
  apply Forall_forall. intros c Hc. unfold hex_digits in Hc.
  apply list_elem_of_fmap in Hc as (i & -> & _).
  pose proof (nibble_range z (4 * Z.of_nat i)). unfold hex_digit. case_match; lia.
Qed.
Lemma filter_all {A} (P : A -> Prop) `{!forall x, Decision (P x)} l :
  Forall P l -> filter P l = l.
Proof. induction 1 as [|x l Hx Hl IH]; [done|]. rewrite filter_cons_True by done. by f_equal. Qed.
Lemma uuid_string_digits u : filter (fun c => c <> 45) (uuid_string u) = hex_digits 32 u.
Proof.
  pose proof (hex_digits_no_hyphen 32 u) as Hh. unfold uuid_string. rewrite !filter_app.
  change (filter (fun c => c <> 45) [45]) with (@nil Z).
  rewrite !filter_all by auto using Forall_take, Forall_drop. reflexivity.
Qed.
Lemma uuid_string_inj u v :
  0 <= u < 2 ^ 128 -> 0 <= v < 2 ^ 128 -> uuid_string u = uuid_string v -> u = v.
Proof.
  intros Hu Hv Heq. apply (f_equal (fun s => hex_value 0 (filter (fun c => c <> 45) s))) in Heq.
  rewrite !uuid_string_digits, !hex_value_digits in Heq.
  change (16 ^ Z.of_nat 32) with (2 ^ 128) in Heq. rewrite !Z.mod_small in Heq by done. lia.
Qed.
