(* ===== verification/Negotiation.v ===== *)
(** * Protocol negotiation

    crates/sbgh-fleet/src/negotiation.rs: a worker advertises a revision window
    and feature names ([ProtocolOffer]), the daemon selects the highest shared
    revision and the features both sides implement ([negotiate]), and the worker
    checks the selection before any assignment ([validate_selection],
    [ProtocolOffer_response]). *)
From stdpp Require Import base list strings gmap.
From Stdlib Require Import ZArith Lia.
From S2P Require Import Prelude RustStr Json FleetModel.

Local Open Scope Z_scope.

Definition PREVIOUS_PROTOCOL_REVISION : Z := 1.
Definition NEGOTIATED_PROTOCOL_REVISION : Z := 2.
Definition MAX_FEATURES : nat := 64.
Definition MAX_FEATURE_BYTES : Z := 64.

Inductive NegotiationError :=
| InvalidOffer (reason : string)
| InvalidFloor (floor : Z)
| Incompatible (minimum maximum floor : Z)
| InvalidSelection.
Global Instance NegotiationError_eq_dec : EqDecision NegotiationError.
Proof. solve_decision. Defined.

(** The error text ([Display]). *)
Definition NegotiationError_to_string (e : NegotiationError) : rstr :=
  match e with
  | InvalidOffer reason => lit "invalid protocol advertisement: " ++ lit reason
  | InvalidFloor floor =>
      lit "unsupported compatibility floor " ++ show floor ++ lit "; expected 1 or 2"
  | Incompatible minimum maximum floor =>
      lit "worker protocol range " ++ show minimum ++ lit "..=" ++ show maximum
      ++ lit " does not overlap daemon range " ++ show floor
      ++ lit "..=2; upgrade the worker or deploy a compatible daemon"
  | InvalidSelection => lit "daemon selected an unadvertised protocol revision or feature"
  end.

(** ** Features *)
Definition for_capability (c : WorkerCapability) : ProtocolFeature :=
  match c with
  | Cap_BuildOnly => BuildOnlyV1
  | Cap_Benchmark => BenchmarkV1
  | Cap_BlockValidation => BlockValidationV1
  end.

Definition ProtocolFeature_as_str (f : ProtocolFeature) : rstr :=
  match f with
  | BuildOnlyV1 => lit "build_only_v1"
  | BenchmarkV1 => lit "benchmark_v1"
  | BlockValidationV1 => lit "block_validation_v1"
  | ResidentCordon => lit "resident_cordon"
  | ShutdownAfterIdle => lit "shutdown_after_idle"
  end.

Definition for_payload (p : TaskPayload) : ProtocolFeature :=
  match p with
  | Task_BuildOnly => BuildOnlyV1
  | Task_Benchmark _ => BenchmarkV1
  | Task_BlockValidation _ => BlockValidationV1
  end.

Definition supported_list : list ProtocolFeature :=
  [BuildOnlyV1; BenchmarkV1; BlockValidationV1; ResidentCordon; ShutdownAfterIdle].
Definition supported : gset ProtocolFeature := list_to_set supported_list.
Definition legacy_features : gset ProtocolFeature :=
  list_to_set [BuildOnlyV1; BenchmarkV1; BlockValidationV1].

(** [ProtocolFeature::from_name]: search the supported features in order. *)
Definition from_name (name : rstr) : option ProtocolFeature :=
  find_first (fun f => rstr_eqb (ProtocolFeature_as_str f) name) supported_list.

(** ** Offers *)
Definition feature_name_ok (name : rstr) : bool :=
  negb (is_empty name || (MAX_FEATURE_BYTES <? str_len name)
        || negb (all_bytes (fun byte => Char.is_ascii_lowercase byte
                                     || Char.is_ascii_digit byte || (byte =? 95)) name)).

(** [ProtocolOffer::validate]. *)
Definition ProtocolOffer_validate (o : ProtocolOffer) : result unit NegotiationError :=
  if (po_minimum_revision o =? 0) || (po_maximum_revision o <? po_minimum_revision o) then
    Err (InvalidOffer "revision range must be nonzero and ordered")
  else if (MAX_FEATURES <? size (po_features o))%nat
          || existsb (fun name => negb (feature_name_ok name)) (elements (po_features o)) then
    Err (InvalidOffer "feature names must be bounded lowercase ASCII identifiers")
  else if (po_maximum_revision o =? PREVIOUS_PROTOCOL_REVISION)
          && negb (bool_decide (po_features o = ∅)) then
    Err (InvalidOffer "revision 1 has fixed semantics, not feature negotiation")
  else Ok tt.

(** [ProtocolOffer::legacy]. *)
Definition ProtocolOffer_legacy (revision : Z) : result ProtocolOffer NegotiationError :=
  if negb (revision =? PREVIOUS_PROTOCOL_REVISION) then
    Err (InvalidOffer "negotiation extension required after revision 1")
  else Ok {| po_minimum_revision := revision; po_maximum_revision := revision;
             po_features := ∅ |}.

(** [ProtocolOffer::registration]. *)
Definition ProtocolOffer_registration (version : Z) (extension : option ProtocolOffer)
  : result ProtocolOffer NegotiationError :=
  match extension with
  | None => ProtocolOffer_legacy version
  | Some offer =>
      ProtocolOffer_validate offer ;?
      (if negb (version =? po_maximum_revision offer)
          || (version =? PREVIOUS_PROTOCOL_REVISION)
       then Err (InvalidOffer "negotiation requires a matching maximum revision greater than 1")
       else Ok offer)
  end.

(** [ProtocolOffer::current]. *)
Definition ProtocolOffer_current : ProtocolOffer :=
  {| po_minimum_revision := PREVIOUS_PROTOCOL_REVISION;
     po_maximum_revision := NEGOTIATED_PROTOCOL_REVISION;
     po_features := list_to_set (map ProtocolFeature_as_str supported_list) |}.

(** [ProtocolOffer::features_at]. *)
Definition features_at (o : ProtocolOffer) (revision : Z) : gset ProtocolFeature :=
  if revision =? PREVIOUS_PROTOCOL_REVISION then legacy_features
  else list_to_set (List.filter (fun f => bool_decide (ProtocolFeature_as_str f ∈ po_features o))
                           supported_list).

Definition in_window (revision : Z) : bool :=
  (PREVIOUS_PROTOCOL_REVISION <=? revision) && (revision <=? NEGOTIATED_PROTOCOL_REVISION).

(** [ProtocolOffer::negotiate]. *)
Definition negotiate (o : ProtocolOffer) (floor : Z)
  : result ProtocolContract NegotiationError :=
  ProtocolOffer_validate o ;?
  (if negb (in_window floor) then Err (InvalidFloor floor)
   else
     let revision := Z.min (po_maximum_revision o) NEGOTIATED_PROTOCOL_REVISION in
     if revision <? Z.max (po_minimum_revision o) floor then
       Err (Incompatible (po_minimum_revision o) (po_maximum_revision o) floor)
     else Ok {| pc_revision := revision; pc_features := features_at o revision |}).

(** [ProtocolOffer::validate_selection]. *)
Definition validate_selection (o : ProtocolOffer) (selected : ProtocolContract)
  : result unit NegotiationError :=
  ProtocolOffer_validate o ;?
  (if negb ((po_minimum_revision o <=? pc_revision selected)
            && (pc_revision selected <=? po_maximum_revision o))
      || negb (in_window (pc_revision selected))
      || negb (bool_decide (pc_features selected ⊆ features_at o (pc_revision selected)))
      || ((pc_revision selected =? PREVIOUS_PROTOCOL_REVISION)
          && negb (bool_decide (pc_features selected = legacy_features)))
   then Err InvalidSelection
   else Ok tt).

(** [ProtocolOffer::response]. *)
Definition ProtocolOffer_response (o : ProtocolOffer) (revision : Z)
    (extension : option ProtocolContract) : result ProtocolContract NegotiationError :=
  let? selected :=
    match extension with
    | Some contract =>
        if pc_revision contract =? revision then Ok contract else Err InvalidSelection
    | None =>
        if (po_maximum_revision o =? PREVIOUS_PROTOCOL_REVISION)
           && (revision =? PREVIOUS_PROTOCOL_REVISION)
        then let? l := ProtocolOffer_legacy revision in
             negotiate l PREVIOUS_PROTOCOL_REVISION
        else Err InvalidSelection
    end in
  validate_selection o selected ;? Ok selected.

(** ** Contracts *)
Definition supports_capability (c : ProtocolContract) (cap : WorkerCapability) : bool :=
  in_window (pc_revision c) && bool_decide (for_capability cap ∈ pc_features c).

Definition supports_payload (c : ProtocolContract) (p : TaskPayload) : bool :=
  in_window (pc_revision c) && bool_decide (for_payload p ∈ pc_features c).

(** ** Lemmas *)
Section NegotiationLemmas.
Implicit Types (o : ProtocolOffer) (c : ProtocolContract).

Lemma supported_list_complete (f : ProtocolFeature) : f ∈ supported_list.
Proof. destruct f; unfold supported_list; set_solver. Qed.

Lemma as_str_inj (f g : ProtocolFeature) :
  ProtocolFeature_as_str f = ProtocolFeature_as_str g -> f = g.
Proof. by destruct f, g. Qed.

Lemma elem_of_features_at o revision f :
  f ∈ features_at o revision <->
  if revision =? PREVIOUS_PROTOCOL_REVISION then f ∈ legacy_features
  else ProtocolFeature_as_str f ∈ po_features o.
Proof.
  unfold features_at. destruct (revision =? _); [done|].
  rewrite elem_of_list_to_set, list_elem_of_In, filter_In, bool_decide_eq_true,
    <- list_elem_of_In.
  split; [tauto | intros; split; [apply supported_list_complete | done]].
Qed.

Lemma in_window_spec (r : Z) : in_window r = true <-> 1 <= r <= 2.
Proof.
  unfold in_window, PREVIOUS_PROTOCOL_REVISION, NEGOTIATED_PROTOCOL_REVISION.
  rewrite andb_true_iff, !Z.leb_le. done.
Qed.

(** The exact success condition of [negotiate]. *)
Lemma negotiate_Ok_iff o floor c :
  negotiate o floor = Ok c <->
  ProtocolOffer_validate o = Ok tt /\ 1 <= floor <= 2 /\
  pc_revision c = Z.min (po_maximum_revision o) 2 /\
  pc_features c = features_at o (pc_revision c) /\
  Z.max (po_minimum_revision o) floor <= pc_revision c.
Proof.
  unfold negotiate, NEGOTIATED_PROTOCOL_REVISION.
  destruct (ProtocolOffer_validate o) as [[]|e]; [|naive_solver].
  destruct (in_window floor) eqn:W; simpl.
  - apply in_window_spec in W.
    destruct (Z.ltb_spec (Z.min (po_maximum_revision o) 2) (Z.max (po_minimum_revision o) floor)).
    + split; [done | intros (_ & _ & -> & _ & ?); lia].
    + split.
      * intros [= <-]. simpl. repeat split; lia.
      * intros (_ & _ & Hr & Hf & _). destruct c; simpl in *. by subst.
  - split; [done|]. intros (_ & Hw & _). apply in_window_spec in Hw. congruence.
Qed.

(** The exact success condition of [validate_selection]. *)
Lemma validate_selection_Ok_iff o c :
  validate_selection o c = Ok tt <->
  ProtocolOffer_validate o = Ok tt /\
  po_minimum_revision o <= pc_revision c <= po_maximum_revision o /\
  1 <= pc_revision c <= 2 /\
  pc_features c ⊆ features_at o (pc_revision c) /\
  (pc_revision c = 1 -> pc_features c = legacy_features).
Proof.
  unfold validate_selection.
  destruct (ProtocolOffer_validate o) as [[]|e]; [|naive_solver].
  rewrite <- in_window_spec.
  destruct (in_window (pc_revision c)); simpl; [|rewrite orb_true_r; naive_solver].
  destruct (Z.leb_spec (po_minimum_revision o) (pc_revision c)),
    (Z.leb_spec (pc_revision c) (po_maximum_revision o)); simpl;
    try (split; [done | intros (_ & ? & _); lia]).
  case_bool_decide as Hsub; simpl; [|naive_solver].
  unfold PREVIOUS_PROTOCOL_REVISION.
  destruct (Z.eqb_spec (pc_revision c) 1) as [H1|H1]; simpl; [|naive_solver lia].
  case_bool_decide as Hf; simpl; naive_solver lia.
Qed.

Lemma validate_offer_min_max o :
  ProtocolOffer_validate o = Ok tt -> po_minimum_revision o <= po_maximum_revision o.
Proof.
  unfold ProtocolOffer_validate.
  destruct (po_minimum_revision o =? 0); simpl; [done|].
  destruct (Z.ltb_spec (po_maximum_revision o) (po_minimum_revision o)); [done | lia].
Qed.
End NegotiationLemmas.

(** The worker accepts every selection that is valid for its offer. *)
Lemma selection_accepted version extension offer contract :
  ProtocolOffer_registration version extension = Ok offer ->
  validate_selection offer contract = Ok tt ->
  ProtocolOffer_response offer (pc_revision contract)
    (match extension with Some _ => Some contract | None => None end) = Ok contract.
Proof.
  intros Hreg Hsel. unfold ProtocolOffer_response. destruct extension as [ext|].
  - rewrite Z.eqb_refl, Hsel. done.
  - apply validate_selection_Ok_iff in Hsel as Hs. simpl in Hreg. unfold ProtocolOffer_legacy in *.
    destruct (Z.eqb_spec version PREVIOUS_PROTOCOL_REVISION) as [->|]; simpl in Hreg; [|done].
    injection Hreg as <-. destruct Hs as (_ & Hr & _ & _ & Hf). simpl in Hr.
    unfold PREVIOUS_PROTOCOL_REVISION in Hr. destruct contract as [rev feats]; simpl in *.
    assert (rev = 1) as -> by lia. specialize (Hf eq_refl). subst feats. vm_compute. reflexivity.
Qed.

Lemma negotiate_selects offer floor contract :
  negotiate offer floor = Ok contract -> validate_selection offer contract = Ok tt.
Proof.
  intros Hneg. apply negotiate_Ok_iff in Hneg as (Hv & Hfl & Hr & Hf & Hle).
  pose proof (validate_offer_min_max _ Hv) as Hmm.
  apply validate_selection_Ok_iff. split_and!; try done; try lia.
  - by rewrite Hf.
  - intros H1. rewrite Hf. unfold features_at. by rewrite H1.
Qed.

(** ** Properties *)

(** The registration handshake agrees.  Whenever the daemon accepts a
    registration and negotiates a contract at some compatibility floor, the
    worker's check of the daemon's response succeeds and yields exactly the
    daemon's contract, both for explicit negotiation and for the legacy
    revision-1 exchange without a contract extension. *)
Theorem handshake_agrees (version floor : Z) (extension : option ProtocolOffer)
    (offer : ProtocolOffer) (contract : ProtocolContract) :
  ProtocolOffer_registration version extension = Ok offer ->
  negotiate offer floor = Ok contract ->
  ProtocolOffer_response offer (pc_revision contract)
    (match extension with Some _ => Some contract | None => None end) = Ok contract.
Proof.
  intros Hreg Hneg. apply selection_accepted with version; [done|]. by eapply negotiate_selects.
Qed.

Lemma handshake_agrees_witness :
  ProtocolOffer_registration 2 (Some ProtocolOffer_current) = Ok ProtocolOffer_current /\
  exists c, negotiate ProtocolOffer_current 1 = Ok c /\
    ProtocolOffer_response ProtocolOffer_current (pc_revision c) (Some c) = Ok c.
Proof.
  split; [vm_compute; reflexivity|].
  eexists. split; [vm_compute; reflexivity|].
  apply (handshake_agrees 2 1 (Some ProtocolOffer_current)); vm_compute; reflexivity.
Defined.

(** Negotiation is complete and maximal.  For a well-formed offer and a
    floor inside the daemon's window, [negotiate] succeeds exactly when some
    revision is in the worker's range, at or above the floor and implemented by
    the daemon; the selected revision is the greatest such revision; a feature is
    enabled at revision 2 exactly when the worker advertised its name; and the
    only possible failure is [Incompatible]. *)
Theorem negotiate_maximal (offer : ProtocolOffer) (floor : Z) :
  ProtocolOffer_validate offer = Ok tt -> 1 <= floor <= 2 ->
  let shared r := po_minimum_revision offer <= r <= po_maximum_revision offer
                  /\ floor <= r <= NEGOTIATED_PROTOCOL_REVISION in
  match negotiate offer floor with
  | Ok c => shared (pc_revision c) /\ (forall r, shared r -> r <= pc_revision c)
            /\ (forall f, f ∈ pc_features c <->
                  if pc_revision c =? 1 then f ∈ legacy_features
                  else ProtocolFeature_as_str f ∈ po_features offer)
  | Err e => (forall r, ~ shared r)
             /\ e = Incompatible (po_minimum_revision offer) (po_maximum_revision offer) floor
  end.
Proof.
  intros Hv Hfl shared.
  destruct (negotiate offer floor) as [c|e] eqn:E.
  - apply negotiate_Ok_iff in E as (_ & _ & Hr & Hf & Hle).
    pose proof (validate_offer_min_max _ Hv).
    unfold shared, NEGOTIATED_PROTOCOL_REVISION. split_and!; try lia.
    intros f. rewrite Hf. apply elem_of_features_at.
  - unfold negotiate in E. rewrite Hv in E.
    assert (in_window floor = true) as Hw by (by apply in_window_spec).
    rewrite Hw in E. simpl in E.
    destruct (Z.ltb_spec (Z.min (po_maximum_revision offer) NEGOTIATED_PROTOCOL_REVISION)
                (Z.max (po_minimum_revision offer) floor)); [|done].
    injection E as <-. split; [|done].
    unfold shared, NEGOTIATED_PROTOCOL_REVISION in *. lia.
Qed.

Lemma negotiate_maximal_witness :
  ProtocolOffer_validate ProtocolOffer_current = Ok tt /\
  match negotiate ProtocolOffer_current 1 with
  | Ok c => pc_revision c <= 2
  | Err _ => False
  end.
Proof.
  split; [vm_compute; reflexivity|].
  pose proof (negotiate_maximal ProtocolOffer_current 1 eq_refl ltac:(lia)) as H.
  destruct (negotiate ProtocolOffer_current 1) as [c|e] eqn:E.
  - destruct H as [[_ [_ H]] _]. exact H.
  - vm_compute in E. discriminate E.
Defined.
