(* ===== verification/Validate.v ===== *)
(** * Protocol validation

    crates/sbgh-fleet/src/validate.rs and preflight.rs: the [Validate]
    implementation of every request the daemon accepts from a worker, the
    bounded-text helpers, and [validate_block_validation_result], which checks a
    worker's block-validation result against the durable selector. *)
From stdpp Require Import base list strings gmap.
From Stdlib Require Import ZArith Lia.
From S2P Require Import Prelude RustStr Json FleetModel Negotiation.

Local Open Scope Z_scope.

Inductive ProtocolError :=
| Version (actual expected : Z)
| Invalid (field : string) (reason : rstr)
| Serialization (message : rstr).
Global Instance ProtocolError_eq_dec : EqDecision ProtocolError.
Proof. solve_decision. Defined.

(** The trait [Validate]. *)
Class Validate (A : Type) := validate : A -> result unit ProtocolError.

Definition invalid (field reason : string) : result unit ProtocolError :=
  Err (Invalid field (lit reason)).

(** Return early with an error when the condition holds: the shape
    [if cond { return Err(..) }] of the source. *)
Definition reject_if (cond : bool) (field reason : string) : result unit ProtocolError :=
  if cond then invalid field reason else Ok tt.

Definition MAX_LABEL : Z := 96.
Definition MAX_VERSION : Z := 128.
Definition MAX_REPOSITORY : Z := 512.
Definition MAX_ARGS : nat := 256.
Definition MAX_ARG_BYTES : Z := 16 * 1024.
Definition MAX_ARTIFACTS : nat := 256.
Definition MAX_TERMINAL_TEXT_BYTES : Z := 16 * 1024.
Definition MAX_INVALID_BLOCKS : Z := 16384.
Definition MAX_VALIDATION_SHARDS : Z := 4096.
Definition MAX_VALIDATION_CONCURRENCY : Z := 1024.
Definition MAX_VALIDATION_TIMEOUT_SECS : Z := 7 * 24 * 60 * 60.
Definition MIN_WORKER_TIMESTAMP_MS : Z := 946684800000.
Definition MAX_WORKER_TIMESTAMP_MS : Z := 32503680000000.

(** ** Text helpers *)

(** [bounded]. *)
Definition bounded (field : string) (value : rstr) (max : Z) (empty : bool)
  : result unit ProtocolError :=
  if (negb empty && is_empty value) || (max <? str_len value)
     || any_char Char.is_control value
  then Err (Invalid field (lit "must be " ++ show (if empty then 0 else 1) ++ lit "..="
                           ++ show max ++ lit " non-control bytes"))
  else Ok tt.

(** The inner [normalize] loop: [output] so far and whether a space is pending. *)
Fixpoint normalize_loop (chars : rstr) (output : rstr) (pending_space : bool) : rstr :=
  match chars with
  | [] => output
  | character :: rest =>
      if Char.is_control character || Char.is_whitespace character then
        normalize_loop rest output (negb (is_empty output))
      else
        let push output :=
          if MAX_TERMINAL_TEXT_BYTES <? str_len output + Char.len_utf8 character then output
          else normalize_loop rest (output ++ [character]) false in
        if pending_space then
          if str_len output =? MAX_TERMINAL_TEXT_BYTES then output
          else push (output ++ [32])
        else push output
  end.
Definition normalize (value : rstr) : rstr := normalize_loop value [] false.

(** [normalize_terminal_text]. *)
Definition normalize_terminal_text (value fallback : rstr) : rstr :=
  let normalized := normalize value in
  if negb (is_empty normalized) then normalized
  else let fallback := normalize fallback in
       if is_empty fallback then lit "unspecified terminal outcome" else fallback.

(** [sha256]: 64 hexadecimal characters of either case. *)
Definition sha256 (field : string) (value : rstr) : result unit ProtocolError :=
  if (str_len value =? 64) && all_bytes Char.is_ascii_hexdigit value then Ok tt
  else invalid field "must be a 64-character hexadecimal SHA-256 digest".

(** [std::path::Component] on Unix and [Path::components]: a leading slash is
    the root; empty pieces are skipped; a dot piece is skipped unless it starts
    a relative path. *)
Inductive Component := RootDir | CurDir | ParentDir | Normal (name : rstr).

Definition piece_components (first : bool) (piece : rstr) : list Component :=
  if is_empty piece then []
  else if rstr_eqb piece [46] then (if first then [CurDir] else [])
  else if rstr_eqb piece [46; 46] then [ParentDir]
  else [Normal piece].

Definition path_components (path : rstr) : list Component :=
  match split_char 47 path with
  | [] => []
  | piece :: rest =>
      (if starts_with [47] path then [RootDir] else piece_components true piece)
      ++ List.concat (map (piece_components false) rest)
  end.

Definition is_normal (c : Component) : bool :=
  match c with Normal _ => true | _ => false end.

(** [safe_key]. *)
Definition safe_key_byte (byte : Z) : bool :=
  Char.is_ascii_alphanumeric byte
  || (byte =? 47) || (byte =? 45) || (byte =? 95) || (byte =? 46).
Definition safe_key (key : rstr) : bool :=
  negb (is_empty key) && (str_len key <=? 1024) && all_bytes safe_key_byte key
  && forallb is_normal (path_components key).

(** [immutable_commit]. *)
Definition immutable_commit (value : rstr) : bool :=
  ((str_len value =? 40) || (str_len value =? 64)) && all_bytes Char.is_ascii_hexdigit value.

Definition session_id (value : Uuid) : result unit ProtocolError :=
  reject_if (is_nil value) "worker_session_id" "must not be nil".

(** [identity]. *)
Definition identity (i : AttemptIdentity) : result unit ProtocolError :=
  reject_if (is_nil (ai_worker_session_id i) || is_nil (ai_attempt_id i))
    "attempt identity" "UUIDs must not be nil" ;?
  reject_if ((ai_fencing_generation i =? 0) || (I64_MAX <? ai_fencing_generation i)
             || (str_len (ai_lease_token i) <? 32))
    "attempt identity" "fence must be non-zero and lease token must be present".

(** ** Validation of a block-validation result against its selector *)

(** The expected range of a selection over the observed coverage. *)
Definition expected_range (payload : BlockValidationPayload) (observed : ObservedValidationIndex)
    (total : Z) : result InclusiveRange ProtocolError :=
  match bv_selection payload with
  | Sel_Recent block_count =>
      if block_count =? 0 then
        Err (Invalid "block_validation.selection.recent.block_count" (lit "must be non-zero"))
      else
        let count := Z.min block_count (oi_nakamoto_count observed) in
        Ok {| ir_start := total - count; ir_end := total - 1 |}
  | Sel_Full => Ok {| ir_start := 0; ir_end := total - 1 |}
  | Sel_Range range =>
      if (ir_end range <? ir_start range) || (total <=? ir_end range) then
        Err (Invalid "block_validation.selection.range"
               (lit "is reversed or exceeds observed coverage"))
      else Ok range
  end.

(** The expected epoch segments of a range. *)
Definition expected_segments (range : InclusiveRange) (pre_count : Z)
  : list ValidationEpochSegment :=
  (if ir_start range <? pre_count then
     let e := Z.min (ir_end range) (pre_count - 1) in
     [{| vs_epoch := PreNakamoto;
         vs_global_range := {| ir_start := ir_start range; ir_end := e |};
         vs_local_range := {| ir_start := ir_start range; ir_end := e |} |}]
   else [])
  ++
  (if pre_count <=? ir_end range then
     let start := Z.max (ir_start range) pre_count in
     [{| vs_epoch := Nakamoto;
         vs_global_range := {| ir_start := start; ir_end := ir_end range |};
         vs_local_range := {| ir_start := start - pre_count;
                              ir_end := ir_end range - pre_count |} |}]
   else []).

(** [validate_block_validation_result]. *)
Definition validate_block_validation_result (payload : BlockValidationPayload)
    (result : BlockValidationResult) : Prelude.result unit ProtocolError :=
  let observed := br_observed result in
  reject_if ((oi_pre_nakamoto_count observed =? 0) || (oi_nakamoto_count observed =? 0))
    "block_validation.observed" "both epoch counts must be non-zero" ;?
  let? total := ok_or (checked_add_u64 (oi_pre_nakamoto_count observed)
                                       (oi_nakamoto_count observed))
                  (Invalid "block_validation.observed" (lit "total coverage overflows u64")) in
  reject_if (I64_MAX <? total)
    "block_validation.observed" "total coverage exceeds the durable signed-integer range" ;?
  let? range := expected_range payload observed total in
  reject_if (negb (bool_decide (br_resolved_range result = range)))
    "block_validation.resolved_range"
    "does not match the durable selector and observed coverage" ;?
  let segments := expected_segments range (oi_pre_nakamoto_count observed) in
  reject_if (negb (bool_decide (br_segments result = segments)))
    "block_validation.segments" "do not exactly and gaplessly cover the resolved range" ;?
  let? checked_blocks :=
    ok_or (match checked_sub_u64 (ir_end range) (ir_start range) with
           | Some span => checked_add_u64 span 1
           | None => None
           end)
      (Invalid "block_validation.checked_blocks" (lit "resolved range length overflows u64")) in
  reject_if (negb (br_checked_blocks result =? checked_blocks)
             || existsb (fun b => br_shard_count result <=? ib_shard b)
                  (br_invalid_blocks result))
    "block_validation.result"
    "checked count or invalid-block shard does not match the resolved plan".

(** ** Validation of requests *)
#[export] Instance InclusiveRange_Validate : Validate InclusiveRange := fun r =>
  reject_if (ir_end r <? ir_start r) "range" "inclusive start exceeds end" ;?
  reject_if (I64_MAX <? ir_end r) "range" "end exceeds the durable signed-integer range".

(** preflight.rs *)
Definition lowercase_hex_digest (digest : rstr) : bool :=
  (str_len digest =? 64)
  && all_bytes (fun byte => Char.is_ascii_digit byte || Char.between 97 102 byte) digest.

#[export] Instance PreflightReport_Validate : Validate PreflightReport := fun r =>
  reject_if ((pf_revision r =? 0) || (pf_completed_at_ms r <=? 0))
    "preflight" "revision and completion timestamp must be positive" ;?
  for_each (fun digest => reject_if (negb (lowercase_hex_digest digest))
              "preflight" "digests must be lowercase SHA-256 hexadecimal")
    [pf_executable_sha256 r; pf_configuration_sha256 r].

(** [registration_facts]. *)
Definition registration_facts (protocol_version : Z) (protocol_offer : option ProtocolOffer)
    (software_version : rstr) (advertised_capabilities : gset WorkerCapability)
    (resources : ResourceFacts) : result unit ProtocolError :=
  (if bool_decide (protocol_offer = None) && negb (protocol_version =? PREVIOUS_PROTOCOL_REVISION)
   then Err (Version protocol_version PREVIOUS_PROTOCOL_REVISION) else Ok tt) ;?
  map_err (fun error => Invalid "protocol_offer" (NegotiationError_to_string error))
    (ProtocolOffer_registration protocol_version protocol_offer) ;?
  bounded "software_version" software_version MAX_VERSION false ;?
  reject_if (bool_decide (advertised_capabilities = ∅))
    "advertised_capabilities" "at least one capability is required" ;?
  reject_if ((rf_logical_cpus resources =? 0) || (rf_memory_bytes resources =? 0))
    "resources" "logical_cpus and memory_bytes must be non-zero".

#[export] Instance RegisterSessionRequest_Validate : Validate RegisterSessionRequest := fun r =>
  (match rs_preflight r with Some preflight => validate preflight | None => Ok tt end) ;?
  registration_facts (rs_protocol_version r) (rs_protocol_offer r) (rs_software_version r)
    (rs_advertised_capabilities r) (rs_resources r) ;?
  reject_if (is_nil (rs_worker_session_id r)) "worker_session_id" "UUID must not be nil".

#[export] Instance RegistrationCheckRequest_Validate : Validate RegistrationCheckRequest :=
  fun r =>
  registration_facts (rc_protocol_version r) (rc_protocol_offer r) (rc_software_version r)
    (rc_advertised_capabilities r) (rc_resources r).

#[export] Instance CleanupListRequest_Validate : Validate CleanupListRequest := fun r =>
  session_id (cl_worker_session_id r).

#[export] Instance CleanupCompleteRequest_Validate : Validate CleanupCompleteRequest := fun r =>
  session_id (cc_worker_session_id r) ;?
  reject_if (cc_obligation_id r <=? 0) "obligation_id" "must be positive".

#[export] Instance DeregisterSessionRequest_Validate : Validate DeregisterSessionRequest :=
  fun r => session_id (dr_worker_session_id r).

#[export] Instance PollRequest_Validate : Validate PollRequest := fun r =>
  session_id (pr_worker_session_id r).

#[export] Instance AcceptOfferRequest_Validate : Validate AcceptOfferRequest := fun r =>
  identity (ao_identity r).

#[export] Instance HeartbeatRequest_Validate : Validate HeartbeatRequest := fun r =>
  identity (hb_identity r) ;?
  reject_if (4096 <? hb_reliable_buffer_len r)
    "reliable_buffer_len" "exceeds the protocol telemetry bound".

#[export] Instance RepositoryCredentialRequest_Validate : Validate RepositoryCredentialRequest :=
  fun r => identity (rcr_identity r).

#[export] Instance ProgressRequest_Validate : Validate ProgressRequest := fun r =>
  let update := pq_update r in
  identity (pq_identity r) ;?
  reject_if (is_nil (pq_trace_id r) || (pq_progress_seq r =? 0) || (I64_MAX <? pq_progress_seq r))
    "progress identity" "trace id and progress sequence must be present" ;?
  bounded "progress.workflow_step" (pu_workflow_step update) MAX_LABEL false ;?
  bounded "progress.phase" (pu_phase update) MAX_LABEL false ;?
  reject_if ((pu_run_index update <? 0) || (pu_requested_run_count update <? 1)
             || (pu_requested_run_count update <=? pu_run_index update))
    "progress run" "run index must be within requested run count" ;?
  (match pu_total update with
   | Some total => reject_if ((total =? 0) || (total <? pu_progress update))
                     "progress total" "must be non-zero and not less than progress"
   | None => Ok tt
   end) ;?
  (match pu_message update with
   | Some message => bounded "progress.message" message 4096 true
   | None => Ok tt
   end).

(** The benchmark arm of [TaskPayload::validate]. *)
Definition validate_benchmark (payload : BenchmarkPayload) : result unit ProtocolError :=
  let args := bp_effective_args payload in
  (if (MAX_ARGS <? length args)%nat then
     Err (Invalid "effective_args" (lit "at most " ++ show (Z.of_nat MAX_ARGS)
                                    ++ lit " arguments are allowed"))
   else Ok tt) ;?
  let total := foldr Z.add 0 (map str_len args) in
  (if (MAX_ARG_BYTES <? total) || existsb (any_char Char.is_control) args then
     Err (Invalid "effective_args" (lit "must contain at most " ++ show MAX_ARG_BYTES
                                    ++ lit " non-control bytes"))
   else Ok tt) ;?
  reject_if ((bp_run_index payload <? 0) || (bp_requested_run_count payload <? 1)
             || (bp_requested_run_count payload <=? bp_run_index payload))
    "benchmark run" "run index must be within requested run count" ;?
  reject_if (match bp_baseline_calibration_id payload with
             | Some calibration_id => calibration_id <=? 0
             | None => false
             end)
    "baseline_calibration_id" "must be positive when present" ;?
  (match bp_workload_key payload with
   | Some workload_key => bounded "workload_key" workload_key 512 false
   | None => Ok tt
   end) ;?
  reject_if (match bp_sqlite_seed_key payload with
             | Some seed_key => negb (safe_key seed_key)
             | None => false
             end)
    "sqlite_seed_key" "must be a relative normal-component key".

(** The block-validation arm. *)
Definition validate_block_validation (payload : BlockValidationPayload)
  : result unit ProtocolError :=
  (match bv_selection payload with
   | Sel_Recent block_count =>
       reject_if ((block_count =? 0) || (I64_MAX <? block_count))
         "block_validation.selection.recent.block_count" "must be within 1..=i64::MAX"
   | Sel_Full => Ok tt
   | Sel_Range range => validate range
   end) ;?
  reject_if (bv_timeout_secs payload =? 0) "block_validation" "timeout must be non-zero" ;?
  reject_if (MAX_VALIDATION_TIMEOUT_SECS <? bv_timeout_secs payload)
    "block_validation" "timeout exceeds the protocol bound".

#[export] Instance TaskPayload_Validate : Validate TaskPayload := fun t =>
  match t with
  | Task_Benchmark payload => validate_benchmark payload
  | Task_BuildOnly => Ok tt
  | Task_BlockValidation payload => validate_block_validation payload
  end.

#[export] Instance ArtifactGrantRequest_Validate : Validate ArtifactGrantRequest := fun r =>
  identity (ag_identity r) ;?
  reject_if (negb (safe_key (ag_key r)))
    "artifact key" "must be a relative normal-component key" ;?
  (match ag_sha256 r with Some digest => sha256 "artifact sha256" digest | None => Ok tt end) ;?
  reject_if (match ag_size r with Some size => I64_MAX <? size | None => false end)
    "artifact size" "exceeds the durable signed-integer range".

#[export] Instance ArtifactDescriptor_Validate : Validate ArtifactDescriptor := fun a =>
  reject_if (negb (safe_key (ad_key a)))
    "artifact key" "must be a relative normal-component key" ;?
  reject_if (negb (safe_key (ad_logical_key a)))
    "artifact logical key" "must be a relative normal-component key" ;?
  sha256 "artifact sha256" (ad_sha256 a) ;?
  reject_if (I64_MAX <? ad_size a)
    "artifact size" "exceeds the durable signed-integer range".

#[export] Instance InvalidBlock_Validate : Validate InvalidBlock := fun b =>
  bounded "invalid_block.block" (ib_block b) 512 false ;?
  bounded "invalid_block.reason" (ib_reason b) 4096 false.

(** [validate_artifacts]: the loop with its two key sets. *)
Fixpoint validate_artifacts_loop (artifacts : list ArtifactDescriptor)
    (keys logical_keys : gset rstr) : result unit ProtocolError :=
  match artifacts with
  | [] => Ok tt
  | artifact :: rest =>
      validate artifact ;?
      reject_if (bool_decide (ad_key artifact ∈ keys)
                 || bool_decide (ad_logical_key artifact ∈ logical_keys))
        "artifacts" "object and logical keys must be unique" ;?
      validate_artifacts_loop rest ({[ad_key artifact]} ∪ keys)
        ({[ad_logical_key artifact]} ∪ logical_keys)
  end.
Definition validate_artifacts (artifacts : list ArtifactDescriptor) : result unit ProtocolError :=
  (if (MAX_ARTIFACTS <? length artifacts)%nat then
     Err (Invalid "artifacts" (lit "at most " ++ show (Z.of_nat MAX_ARTIFACTS)
                               ++ lit " artifacts are allowed"))
   else Ok tt) ;?
  validate_artifacts_loop artifacts ∅ ∅.

(** The block-validation checks of [CompleteAttemptRequest::validate]. *)
Definition validate_completed_block (r : BlockValidationResult) : result unit ProtocolError :=
  bounded "block_validation.chainstate_origin" (br_chainstate_origin r) 512 false ;?
  validate (br_resolved_range r) ;?
  reject_if ((oi_pre_nakamoto_count (br_observed r) =? 0)
             || (oi_nakamoto_count (br_observed r) =? 0))
    "block_validation.observed" "both epoch counts must be non-zero" ;?
  reject_if ((br_shard_count r =? 0) || (MAX_VALIDATION_SHARDS <? br_shard_count r)
             || (br_max_concurrency r =? 0) || (MAX_VALIDATION_CONCURRENCY <? br_max_concurrency r)
             || (br_shard_count r <? br_max_concurrency r))
    "block_validation.resource_plan" "invalid shard or concurrency count" ;?
  reject_if ((length (br_segments r) =? 0)%nat || (2 <? length (br_segments r))%nat)
    "block_validation.segments" "must contain one or two epoch segments" ;?
  for_each (fun s => validate (vs_global_range s) ;? validate (vs_local_range s))
    (br_segments r) ;?
  reject_if (I64_MAX <? br_checked_blocks r)
    "block_validation.checked_blocks" "exceeds the durable signed-integer range" ;?
  (if MAX_INVALID_BLOCKS <? Z.of_nat (length (br_invalid_blocks r)) then
     Err (Invalid "block_validation.invalid_blocks"
            (lit "at most " ++ show MAX_INVALID_BLOCKS ++ lit " invalid blocks are allowed"))
   else Ok tt) ;?
  reject_if (negb (Bool.eqb (br_valid r) (bool_decide (br_invalid_blocks r = []))))
    "block_validation.valid" "must be true exactly when no invalid blocks are present" ;?
  for_each validate (br_invalid_blocks r).

Section WithDigests.
Context `{DigestEnv}.

#[export] Instance ReliableEventEnvelope_Validate : Validate ReliableEventEnvelope := fun e =>
  identity (ev_identity e) ;?
  reject_if ((ev_reliable_seq e =? 0) || (I64_MAX <? ev_reliable_seq e))
    "reliable_seq" "sequence starts at 1" ;?
  reject_if (is_nil (ev_trace_id e)) "trace_id" "must not be nil" ;?
  reject_if (negb ((MIN_WORKER_TIMESTAMP_MS <=? ev_worker_timestamp_ms e)
                   && (ev_worker_timestamp_ms e <=? MAX_WORKER_TIMESTAMP_MS)))
    "worker_timestamp_ms" "is outside the supported timestamp range" ;?
  (match ev_payload e with
   | Event_Phase label elapsed_ms =>
       bounded "phase label" label MAX_LABEL false ;?
       reject_if (MAX_VALIDATION_TIMEOUT_SECS * 1000 <? elapsed_ms)
         "phase elapsed_ms" "exceeds the maximum task duration"
   | Event_Terminal outcome_digest => sha256 "terminal outcome digest" outcome_digest
   end) ;?
  sha256 "payload_digest" (ev_payload_digest e) ;?
  reject_if (negb (rstr_eqb (payload_digest (ev_payload e)) (ev_payload_digest e)))
    "payload_digest" "does not match canonical payload bytes".

#[export] Instance Assignment_Validate : Validate Assignment := fun a =>
  identity (as_identity a) ;?
  reject_if (is_nil (as_trace_id a) || is_nil (ac_job_id (as_context a)))
    "assignment identity" "trace and job UUIDs must not be nil" ;?
  bounded "repository" (ac_repository (as_context a)) MAX_REPOSITORY false ;?
  let repository_parts := split_char 47 (ac_repository (as_context a)) in
  reject_if (negb (length repository_parts =? 2)%nat
             || existsb (fun part => is_empty part
                  || negb (all_bytes (fun byte => Char.is_ascii_alphanumeric byte
                       || (byte =? 45) || (byte =? 95) || (byte =? 46)) part))
                  repository_parts)
    "repository" "expected a non-empty ASCII owner/name" ;?
  reject_if (negb (immutable_commit (ac_commit (as_context a))))
    "commit" "must be an immutable 40- or 64-character hexadecimal object id" ;?
  reject_if (match as_vcpu_cpuset a with
             | Some cpuset => is_empty cpuset || (256 <? str_len cpuset)
                 || negb (all_bytes (fun byte => Char.is_ascii_digit byte
                      || (byte =? 44) || (byte =? 45) || (byte =? 94)) cpuset)
             | None => false
             end)
    "vcpu_cpuset" "contains unsupported characters or exceeds 256 bytes" ;?
  validate (as_payload a) ;?
  sha256 "payload_hash" (as_payload_hash a) ;?
  reject_if (negb (rstr_eqb (payload_digest (as_payload a)) (as_payload_hash a)))
    "payload_hash" "does not match canonical task payload".

#[export] Instance CompleteAttemptRequest_Validate : Validate CompleteAttemptRequest := fun r =>
  identity (ca_identity r) ;?
  reject_if (is_nil (ca_trace_id r) || (ca_terminal_reliable_seq r =? 0)
             || (I64_MAX <? ca_terminal_reliable_seq r))
    "terminal identity" "trace id and terminal sequence must be present" ;?
  sha256 "terminal_payload_digest" (ca_terminal_payload_digest r) ;?
  validate_artifacts (ca_artifacts r) ;?
  (match ca_outcome r with
   | Outcome_Completed _ (Some result) => validate_completed_block result
   | Outcome_Completed _ None => Ok tt
   | Outcome_Failed error _ _ => bounded "terminal.error" error MAX_TERMINAL_TEXT_BYTES false
   | Outcome_Cancelled reason => bounded "terminal.reason" reason MAX_TERMINAL_TEXT_BYTES false
   end) ;?
  let terminal_payload := Event_Terminal (payload_digest (ca_outcome r)) in
  reject_if (negb (rstr_eqb (payload_digest terminal_payload) (ca_terminal_payload_digest r)))
    "terminal_payload_digest" "does not bind the submitted terminal outcome".
End WithDigests.

(** ** Lemmas on the text helpers *)
Section TextLemmas.
Lemma reject_if_Ok (c : bool) f r : reject_if c f r = Ok tt <-> c = false.
Proof. unfold reject_if, invalid. destruct c; split; congruence. Qed.

Lemma bounded_Ok field value max empty :
  bounded field value max empty = Ok tt <->
  (empty = false -> value <> []) /\ str_len value <= max /\
  Forall (fun c => Char.is_control c = false) value.
Proof.
  unfold bounded, any_char. rewrite <- existsb_false_Forall.
  destruct (existsb Char.is_control value); [rewrite orb_true_r; naive_solver|].
  rewrite orb_false_r.
  destruct (Z.ltb_spec max (str_len value)); simpl.
  - rewrite orb_true_r. split; [done | lia].
  - rewrite orb_false_r. destruct empty, value; simpl; naive_solver.
Qed.

(** What the normalization loop keeps true of its output. *)
Definition text_ok (s : rstr) : Prop :=
  str_len s <= MAX_TERMINAL_TEXT_BYTES /\
  Forall (fun c => Char.is_control c = false) s.

Lemma text_ok_snoc s c :
  text_ok s -> Char.is_control c = false ->
  str_len s + Char.len_utf8 c <= MAX_TERMINAL_TEXT_BYTES -> text_ok (s ++ [c]).
Proof.
  intros [Hl Hf] Hc Hle. split.
  - rewrite str_len_app, str_len_cons. change (str_len []) with 0. lia.
  - apply Forall_app. by repeat constructor.
Qed.

Lemma normalize_loop_ok chars output pending :
  text_ok output -> text_ok (normalize_loop chars output pending).
Proof.
  revert output pending. induction chars as [|c rest IH]; intros output pending Hout; simpl;
    [done|].
  destruct (Char.is_control c) eqn:Hc; simpl; [by apply IH|].
  destruct (Char.is_whitespace c); [by apply IH|].
  assert (Hpush : forall o, text_ok o ->
    text_ok (if MAX_TERMINAL_TEXT_BYTES <? str_len o + Char.len_utf8 c then o
             else normalize_loop rest (o ++ [c]) false)).
  { intros o Ho. destruct (Z.ltb_spec MAX_TERMINAL_TEXT_BYTES (str_len o + Char.len_utf8 c));
      [done|]. apply IH, text_ok_snoc; done. }
  destruct pending; [|by apply Hpush].
  destruct (Z.eqb_spec (str_len output) MAX_TERMINAL_TEXT_BYTES); [done|].
  apply Hpush, text_ok_snoc; [done | done |].
  destruct Hout. change (Char.len_utf8 32) with 1. lia.
Qed.

Lemma normalize_ok value : text_ok (normalize value).
Proof. apply normalize_loop_ok. split; [unfold MAX_TERMINAL_TEXT_BYTES; vm_compute; done | constructor]. Qed.

Lemma normalize_terminal_text_ok value fallback :
  text_ok (normalize_terminal_text value fallback)
  /\ normalize_terminal_text value fallback <> [].
Proof.
  unfold normalize_terminal_text.
  pose proof (normalize_ok value) as Hv. pose proof (normalize_ok fallback) as Hf.
  destruct (normalize value) as [|c s]; simpl; [|done].
  destruct (normalize fallback) as [|c s]; simpl; [|done].
  split; [split; [vm_compute; done|] | done].
  by repeat constructor.
Qed.
End TextLemmas.

(** ** Lemmas on keys and paths *)
Section KeyLemmas.
(** Lexical resolution of a path below a directory given as the list of its
    components: a double dot leaves the directory, a dot and an empty piece
    stay. *)
Fixpoint resolve_pieces (dir : list rstr) (pieces : list rstr) : list rstr :=
  match pieces with
  | [] => dir
  | piece :: rest =>
      resolve_pieces
        (if is_empty piece || rstr_eqb piece [46] then dir
         else if rstr_eqb piece [46; 46] then removelast dir
         else dir ++ [piece]) rest
  end.
Definition resolve_path (root : list rstr) (path : rstr) : list rstr :=
  resolve_pieces (if starts_with [47] path then [] else root) (split_char 47 path).

Lemma piece_components_normal first piece :
  forallb is_normal (piece_components first piece) = true -> piece <> [46; 46].
Proof. intros H ->. destruct first; vm_compute in H; done. Qed.

Lemma safe_key_pieces key :
  safe_key key = true ->
  starts_with [47] key = false /\ Forall (fun p => p <> [46; 46]) (split_char 47 key).
Proof.
  unfold safe_key. intros H. bool_hyps.
  match goal with H : forallb is_normal _ = true |- _ => rename H into Hn end.
  unfold path_components in Hn.
  destruct (split_char 47 key) as [|piece rest] eqn:Es.
  - by apply split_nonempty in Es.
  - rewrite forallb_app in Hn. apply andb_true_iff in Hn as [Hp Hr].
    destruct (starts_with [47] key) eqn:Ew; [done|]. split; [done|].
    constructor; [by eapply piece_components_normal|].
    clear Es Hp. induction rest as [|q rest IH]; [constructor|].
    simpl in Hr. rewrite forallb_app in Hr. apply andb_true_iff in Hr as [Hq Hr].
    constructor; [by eapply piece_components_normal | by apply IH].
Qed.

Lemma resolve_pieces_below dir pieces :
  Forall (fun p => p <> [46; 46]) pieces ->
  exists names, resolve_pieces dir pieces = dir ++ names.
Proof.
  revert dir. induction pieces as [|p pieces IH]; intros dir; simpl.
  - intros _. exists []. by rewrite app_nil_r.
  - inversion 1; subst. unfold rstr_eqb.
    rewrite (bool_decide_eq_false_2 (p = [46; 46])) by done.
    destruct (is_empty p || _); [by apply IH|].
    destruct (IH (dir ++ [p])) as [names ->]; [done|].
    exists (p :: names). by rewrite <- app_assoc.
Qed.

Lemma validate_artifacts_loop_Ok artifacts keys logical_keys :
  validate_artifacts_loop artifacts keys logical_keys = Ok tt <->
  Forall (fun a => validate a = Ok tt) artifacts /\
  NoDup (map ad_key artifacts) /\ NoDup (map ad_logical_key artifacts) /\
  (forall a, a ∈ artifacts -> ad_key a ∉ keys /\ ad_logical_key a ∉ logical_keys).
Proof.
  revert keys logical_keys.
  induction artifacts as [|a rest IH]; intros keys logical_keys; simpl.
  - split; [|done]. intros _. repeat split; try constructor; set_solver.
  - rewrite Forall_cons, !NoDup_cons, !list_elem_of_fmap.
    destruct (validate a) as [[]|e]; [|naive_solver].
    unfold reject_if, invalid.
    destruct (decide (ad_key a ∈ keys)) as [Hk|Hk].
    { rewrite bool_decide_eq_true_2 by done. simpl.
      split; [done | intros (_ & _ & _ & Hn); destruct (Hn a); [constructor|done]]. }
    destruct (decide (ad_logical_key a ∈ logical_keys)) as [Hl|Hl].
    { rewrite (bool_decide_eq_true_2 (_ ∈ logical_keys)), orb_true_r by done.
      split; [done | intros (_ & _ & _ & Hn); destruct (Hn a); [constructor|done]]. }
    rewrite !bool_decide_eq_false_2 by done. simpl. rewrite IH. split.
    + intros (Hv & Hnk & Hnl & Hn). repeat split_and; try done.
      * intros (b & Hb & Hin). destruct (Hn b Hin). set_solver.
      * intros (b & Hb & Hin). destruct (Hn b Hin). set_solver.
      * intros b [->|Hin]%elem_of_cons; [done | destruct (Hn b Hin); set_solver].
    + intros ((_ & Hv) & (Hk1 & Hnk) & (Hl1 & Hnl) & Hn). repeat split_and; try done.
      intros b Hin. destruct (Hn b); [by constructor|].
      rewrite !elem_of_union, !elem_of_singleton. split; intros [He|He]; try done.
      * apply Hk1. by exists b.
      * apply Hl1. by exists b.
Qed.
End KeyLemmas.

(** ** Properties *)
Section Properties.
(** whatever text a worker produces for a failure or a cancellation, the
    normalized text passes the bounded check the daemon applies to it: it is
    non-empty, at most 16 KiB of UTF-8 and free of control characters. *)
Theorem terminal_text_accepted (field : string) (value fallback : rstr) :
  bounded field (normalize_terminal_text value fallback) MAX_TERMINAL_TEXT_BYTES false = Ok tt.
Proof.
  destruct (normalize_terminal_text_ok value fallback) as [[Hl Hc] Hn].
  apply bounded_Ok. by split_and!.
Qed.

(** An accepted artifact key is relative and never leaves the directory it
    is resolved in: resolving it below any root gives a path that extends the
    root, whatever dot or empty pieces it contains; its length is 1..=1024. *)
Theorem safe_key_contained (root : list rstr) (key : rstr) :
  safe_key key = true ->
  starts_with [47] key = false /\ 1 <= str_len key <= 1024
  /\ exists names, resolve_path root key = root ++ names.
Proof.
  intros Hs. destruct (safe_key_pieces key Hs) as [Hrel Hp].
  unfold safe_key in Hs. bool_hyps. unfold resolve_path. rewrite Hrel.
  split_and!; [done | | lia | by apply resolve_pieces_below].
  destruct key as [|c key]; [done|]. rewrite str_len_cons.
  pose proof (str_len_nonneg key). unfold Char.len_utf8. repeat case_match; lia.
Qed.
Lemma safe_key_contained_witness :
  safe_key (lit "runs/1/./summary.json") = true
  /\ (starts_with [47] (lit "runs/1/./summary.json") = false
      /\ 1 <= str_len (lit "runs/1/./summary.json") <= 1024
      /\ exists names,
           resolve_path [lit "srv"; lit "artifacts"] (lit "runs/1/./summary.json")
           = [lit "srv"; lit "artifacts"] ++ names).
Proof. split; [reflexivity | apply safe_key_contained; reflexivity]. Defined.

(** The keys of an accepted artifact list are distinct. *)
Lemma validate_artifacts_keys artifacts :
  validate_artifacts artifacts = Ok tt -> NoDup (map ad_key artifacts).
Proof.
  unfold validate_artifacts. destruct (_ <? _)%nat; [done|].
  intros Hv. by apply validate_artifacts_loop_Ok in Hv as (_ & Hk & _).
Qed.

(** An accepted artifact's size fits the durable signed range. *)
Lemma validate_artifacts_size artifacts d :
  validate_artifacts artifacts = Ok tt -> d ∈ artifacts -> ad_size d <= I64_MAX.
Proof.
  unfold validate_artifacts. destruct (_ <? _)%nat; [done|]. intros Hv Hd.
  apply validate_artifacts_loop_Ok in Hv as (Hall & _). rewrite Forall_forall in Hall.
  specialize (Hall d Hd). unfold validate, ArtifactDescriptor_Validate, reject_if in Hall.
  repeat case_match; try done. lia.
Qed.

(** the artifact list of a completion is accepted exactly when it has at
    most 256 entries, every entry is valid on its own, and no object key and
    no logical key occurs twice. *)
Theorem validate_artifacts_Ok_iff (artifacts : list ArtifactDescriptor) :
  validate_artifacts artifacts = Ok tt <->
  (length artifacts <= MAX_ARTIFACTS)%nat
  /\ Forall (fun a => validate a = Ok tt) artifacts
  /\ NoDup (map ad_key artifacts) /\ NoDup (map ad_logical_key artifacts).
Proof.
  unfold validate_artifacts.
  destruct (Nat.ltb_spec MAX_ARTIFACTS (length artifacts)) as [Hlt|Hle].
  - split; [done | lia].
  - rewrite validate_artifacts_loop_Ok. set_solver.
Qed.
End Properties.
