(* ===== verification/Wire.v ===== *)
(** * The protobuf boundary

    crates/sbgh-proto/src/convert.rs and convert/protocol.rs: the conversions
    between the messages of proto/sbgh/fleet/v1/fleet.proto, as prost generates
    their types, and the domain values of FleetModel.  The trait [Wire] is a class
    with one instance per message.  The predicates of section [Ok] name the values of
    each part that survive the passage, and the lemmas of section [Faithful] show that
    they do; WireService composes them into whole requests and responses.  The parser
    of UUIDs and serde_json's printer and parser are parameters, with the laws of the
    first in [WireLaws]. *)
From stdpp Require Import base list strings gmap sorting.
From Stdlib Require Import ZArith Lia.
From S2P Require Import Prelude RustStr Json FleetModel Negotiation Validate.

Local Open Scope Z_scope.

(** ** Code outside the repository *)
Class WireEnv := {
  uuid_parse_str : rstr -> option Uuid;
  json_from_str : rstr -> option Value;
  json_to_string : Value -> rstr
}.
(** [Uuid::parse_str] accepts the hyphenated form that [Display] writes, and
    yields 128 bits. *)
Definition uuid_ok (u : Uuid) : Prop := 0 <= u < 2 ^ 128.
Class WireLaws `{WireEnv} : Prop := {
  uuid_parse_display u : uuid_ok u -> uuid_parse_str (uuid_string u) = Some u;
  uuid_parse_bits s u : uuid_parse_str s = Some u -> uuid_ok u
}.

(** ** Messages (fleet.proto)

    An absent message field is [None]; an enum is its number. *)
Record WireAttemptIdentity := {
  wai_worker_session_id : rstr;
  wai_attempt_id : rstr;
  wai_fencing_generation : Z;
  wai_lease_token : rstr
}.
Record WireInclusiveRange := { wir_start : Z; wir_end : Z }.
Record WireResourceFacts := { wrf_logical_cpus : Z; wrf_memory_bytes : Z }.
Record WireProtocolOffer := {
  wpo_minimum_revision : Z;
  wpo_maximum_revision : Z;
  wpo_features : list rstr
}.
Record WireProtocolContract := { wpc_revision : Z; wpc_features : list rstr }.
Record WirePreflightReport := {
  wpf_revision : Z;
  wpf_completed_at_ms : Z;
  wpf_executable_sha256 : rstr;
  wpf_configuration_sha256 : rstr
}.
Record CheckRegistrationRequest := {
  wcr_protocol_version : Z;
  wcr_software_version : rstr;
  wcr_advertised_capabilities : list Z;
  wcr_resources : option WireResourceFacts;
  wcr_protocol_offer : option WireProtocolOffer
}.
Record CheckRegistrationResponse := {
  wcp_protocol_version : Z;
  wcp_worker_id : rstr;
  wcp_effective_capabilities : list Z;
  wcp_measurement_profile : option rstr;
  wcp_draining : bool;
  wcp_heartbeat_interval_ms : Z;
  wcp_lease_ttl_ms : Z;
  wcp_server_time_ms : Z;
  wcp_protocol_contract : option WireProtocolContract
}.
Record RegisterRequest := {
  wrq_protocol_version : Z;
  wrq_worker_session_id : rstr;
  wrq_software_version : rstr;
  wrq_advertised_capabilities : list Z;
  wrq_resources : option WireResourceFacts;
  wrq_protocol_offer : option WireProtocolOffer;
  wrq_preflight : option WirePreflightReport
}.
Record RegisterResponse := {
  wrp_protocol_version : Z;
  wrp_heartbeat_interval_ms : Z;
  wrp_lease_ttl_ms : Z;
  wrp_server_time_ms : Z;
  wrp_protocol_contract : option WireProtocolContract
}.
(** [ListCleanupRequest], [DeregisterRequest] and [PollRequest] carry a session
    only. *)
Record WireSessionRequest := { wsr_worker_session_id : rstr }.
Record CompleteCleanupRequest := { wcc_worker_session_id : rstr; wcc_obligation_id : Z }.
Record WireCleanupItem := {
  wci_id : Z;
  wci_attempt_id : rstr;
  wci_job_id : rstr;
  wci_reason : rstr
}.

(** Messages whose only field is a oneof are that field. *)
Inductive WireRequirements := Wire_Benchmark | Wire_BuildOnly | Wire_BlockValidation.
Record WireWorkOffer := {
  wwo_identity : option WireAttemptIdentity;
  wwo_job_id : rstr;
  wwo_trace_id : rstr;
  wwo_capability : Z;
  wwo_requirements : option (option WireRequirements);
  wwo_payload_hash : rstr;
  wwo_offer_expires_at_ms : Z
}.
Inductive WirePollResult :=
| Wire_NoWork (retry_after_ms : Z)
| Wire_Drain
| Wire_Offer (offer : option WireWorkOffer)
| Wire_ShutdownAfterIdle.
Record WireBenchmarkPayload := {
  wbp_effective_args : list rstr;
  wbp_workload_key : option rstr;
  wbp_sqlite_seed_key : option rstr;
  wbp_shared_baseline_calibration : bool;
  wbp_baseline_calibration_id : option Z;
  wbp_run_index : Z;
  wbp_requested_run_count : Z
}.
Inductive WireSelection :=
| Wire_Recent (block_count : Z)
| Wire_Full
| Wire_Range (range : WireInclusiveRange).
Record WireBlockValidationPayload := {
  wbv_selection : option (option WireSelection);
  wbv_timeout_secs : Z
}.
Inductive WireTaskKind :=
| Wire_TaskBenchmark (p : WireBenchmarkPayload)
| Wire_TaskBuildOnly
| Wire_TaskBlockValidation (p : WireBlockValidationPayload).
Record WireAssignmentContext := {
  wac_job_id : rstr;
  wac_repository : rstr;
  wac_commit : rstr
}.
Record WireAssignment := {
  was_identity : option WireAttemptIdentity;
  was_trace_id : rstr;
  was_context : option WireAssignmentContext;
  was_payload : option (option WireTaskKind);
  was_payload_hash : rstr;
  was_vcpu_cpuset : option rstr
}.
(** [AcceptRequest] and [FetchRepositoryCredentialRequest]. *)
Record WireIdentityRequest := { wid_identity : option WireAttemptIdentity }.
Record AcceptResponse := { war_assignment : option WireAssignment }.
Record WireHeartbeatRequest := {
  whb_identity : option WireAttemptIdentity;
  whb_reliable_buffer_len : Z
}.
Record WireHeartbeatResponse := {
  whr_desired_state : Z;
  whr_lease_expires_at_ms : Z;
  whr_highest_contiguous_reliable_seq : Z
}.
Record FetchRepositoryCredentialResponse := { wfr_token : rstr; wfr_expires_at_ms : Z }.
Record PublishReliableEventResponse := { wpe_highest_contiguous : Z }.
(** The responses with one flag: of progress, completion, cleanup and
    deregistration. *)
Record WireBool := { wb_field : bool }.
Inductive WireEventKind :=
| Wire_Phase (label : rstr) (elapsed_ms : Z)
| Wire_Terminal (outcome_digest : rstr).
Record PublishReliableEventRequest := {
  wev_identity : option WireAttemptIdentity;
  wev_trace_id : rstr;
  wev_reliable_seq : Z;
  wev_payload : option (option WireEventKind);
  wev_payload_digest : rstr;
  wev_worker_timestamp_ms : Z
}.
Record WireProgressUpdate := {
  wpu_workflow_step : rstr;
  wpu_run_index : Z;
  wpu_requested_run_count : Z;
  wpu_phase : rstr;
  wpu_progress : Z;
  wpu_total : option Z;
  wpu_message : option rstr
}.
Record PublishProgressRequest := {
  wpq_identity : option WireAttemptIdentity;
  wpq_trace_id : rstr;
  wpq_progress_seq : Z;
  wpq_update : option WireProgressUpdate
}.
Record GrantArtifactRequest := {
  wga_identity : option WireAttemptIdentity;
  wga_operation : Z;
  wga_key : rstr;
  wga_size : option Z;
  wga_sha256 : option rstr
}.
Record WireHeaderValue := { whv_name : rstr; whv_value : rstr }.
Record GrantArtifactResponse := {
  wgr_method : rstr;
  wgr_key : rstr;
  wgr_url : rstr;
  wgr_headers : list WireHeaderValue;
  wgr_expires_at_ms : Z
}.
Record WireArtifactDescriptor := {
  wad_key : rstr;
  wad_logical_key : rstr;
  wad_size : Z;
  wad_sha256 : rstr
}.
Record WireInvalidBlock := { wib_shard : Z; wib_block : rstr; wib_reason : rstr }.
Record WireObservedIndex := { woi_pre_nakamoto_count : Z; woi_nakamoto_count : Z }.
Record WireEpochSegment := {
  wes_epoch : Z;
  wes_global_range : option WireInclusiveRange;
  wes_local_range : option WireInclusiveRange
}.
Record WireBlockValidationResult := {
  wbr_valid : bool;
  wbr_checked_blocks : Z;
  wbr_invalid_blocks : list WireInvalidBlock;
  wbr_chainstate_origin : rstr;
  wbr_observed : option WireObservedIndex;
  wbr_resolved_range : option WireInclusiveRange;
  wbr_segments : list WireEpochSegment;
  wbr_shard_count : Z;
  wbr_max_concurrency : Z
}.
Inductive WireOutcomeKind :=
| Wire_Completed (summary_json : rstr) (block_validation : option WireBlockValidationResult)
| Wire_Failed (error : rstr) (summary_json : option rstr) (retryable : bool)
| Wire_Cancelled (reason : rstr).
Record WireCompleteAttemptRequest := {
  wca_identity : option WireAttemptIdentity;
  wca_trace_id : rstr;
  wca_terminal_reliable_seq : Z;
  wca_terminal_payload_digest : rstr;
  wca_outcome : option (option WireOutcomeKind);
  wca_artifacts : list WireArtifactDescriptor
}.

(** ** Conversions (convert.rs) *)

(** The trait [Wire]. *)
Class Wire (W D : Type) := {
  into_domain : W -> result D ProtocolError;
  from_domain : D -> W
}.

Definition required {A} (field : string) (value : option A) : result A ProtocolError :=
  ok_or value (Invalid field (lit "required protobuf field is absent")).
(** [opt.map(f).transpose()]. *)
Definition transpose {A B} (f : A -> result B ProtocolError) (o : option A)
  : result (option B) ProtocolError :=
  match o with Some a => let? b := f a in Ok (Some b) | None => Ok None end.
(** [u16::try_from]. *)
Definition protocol_version_domain (value : Z) : result Z ProtocolError :=
  if (0 <=? value) && (value <=? U16_MAX) then Ok value
  else Err (Invalid "protocol_version" (lit "exceeds the supported range")).
Definition unrecognized {A} (field : string) : result A ProtocolError :=
  Err (Invalid field (lit "must be a recognized non-UNSPECIFIED value")).

Definition capability_domain (value : Z) : result WorkerCapability ProtocolError :=
  match value with
  | 1 => Ok Cap_Benchmark | 2 => Ok Cap_BuildOnly | 3 => Ok Cap_BlockValidation
  | _ => unrecognized "worker_capability"
  end.
Definition capability_wire (c : WorkerCapability) : Z :=
  match c with Cap_Benchmark => 1 | Cap_BuildOnly => 2 | Cap_BlockValidation => 3 end.
Definition epoch_domain (value : Z) : result ValidationEpoch ProtocolError :=
  match value with
  | 1 => Ok PreNakamoto | 2 => Ok Nakamoto | _ => unrecognized "validation_epoch"
  end.
Definition epoch_wire (e : ValidationEpoch) : Z :=
  match e with PreNakamoto => 1 | Nakamoto => 2 end.
Definition desired_state_domain (value : Z) : result DesiredState ProtocolError :=
  match value with
  | 1 => Ok DS_Continue | 2 => Ok DS_Cancel | 3 => Ok DS_Drain | _ => unrecognized "desired_state"
  end.
Definition desired_state_wire (d : DesiredState) : Z :=
  match d with DS_Continue => 1 | DS_Cancel => 2 | DS_Drain => 3 end.
Definition artifact_operation_domain (value : Z) : result ArtifactOperation ProtocolError :=
  match value with
  | 1 => Ok Op_Put | 2 => Ok Op_Get | _ => unrecognized "artifact_operation"
  end.
Definition artifact_operation_wire (o : ArtifactOperation) : Z :=
  match o with Op_Put => 1 | Op_Get => 2 end.

(** A [BTreeSet] iterates in ascending order. *)
Definition capabilities_wire (s : gset WorkerCapability) : list Z :=
  map capability_wire
    (filter (fun c => c ∈ s) [Cap_Benchmark; Cap_BuildOnly; Cap_BlockValidation]).
Definition capabilities_domain (l : list Z) : result (gset WorkerCapability) ProtocolError :=
  let? cs := collect (map capability_domain l) in Ok (list_to_set cs).
Definition str_le (a b : rstr) : Prop := str_leb a b = true.
Global Instance str_le_dec : RelDecision str_le := fun a b => decide (str_leb a b = true).

Section Conversions.
Context `{WireEnv}.

Definition uuid_domain (field : string) (value : rstr) : result Uuid ProtocolError :=
  ok_or (uuid_parse_str value) (Invalid field (lit "must be a canonical UUID")).
(** The parser's own message is left out of the error. *)
Definition json_domain (value : rstr) : result Value ProtocolError :=
  ok_or (json_from_str value) (Invalid "summary_json" (lit "invalid JSON")).

Definition identity_domain (v : WireAttemptIdentity) : result AttemptIdentity ProtocolError :=
  let? session := uuid_domain "worker_session_id" (wai_worker_session_id v) in
  let? attempt := uuid_domain "attempt_id" (wai_attempt_id v) in
  Ok {| ai_worker_session_id := session; ai_attempt_id := attempt;
        ai_fencing_generation := wai_fencing_generation v;
        ai_lease_token := wai_lease_token v |}.
Definition identity_wire (i : AttemptIdentity) : WireAttemptIdentity :=
  {| wai_worker_session_id := uuid_string (ai_worker_session_id i);
     wai_attempt_id := uuid_string (ai_attempt_id i);
     wai_fencing_generation := ai_fencing_generation i;
     wai_lease_token := ai_lease_token i |}.
(** [identity(required("attempt_identity", ..)?)?]. *)
Definition attempt_identity (v : option WireAttemptIdentity)
  : result AttemptIdentity ProtocolError :=
  let? i := required "attempt_identity" v in identity_domain i.

Definition range_domain (v : WireInclusiveRange) : InclusiveRange :=
  {| ir_start := wir_start v; ir_end := wir_end v |}.
Definition range_wire (r : InclusiveRange) : WireInclusiveRange :=
  {| wir_start := ir_start r; wir_end := ir_end r |}.

Definition requirements_domain (v : option WireRequirements)
  : result OfferRequirements ProtocolError :=
  let? kind := required "offer_requirements.kind" v in
  Ok (match kind with
      | Wire_Benchmark => Req_Benchmark
      | Wire_BuildOnly => Req_BuildOnly
      | Wire_BlockValidation => Req_BlockValidation
      end).
Definition requirements_wire (r : OfferRequirements) : option WireRequirements :=
  Some (match r with
        | Req_Benchmark => Wire_Benchmark
        | Req_BuildOnly => Wire_BuildOnly
        | Req_BlockValidation => Wire_BlockValidation
        end).

Definition offer_domain (v : WireWorkOffer) : result WorkOffer ProtocolError :=
  let? i := required "work_offer.identity" (wwo_identity v) in
  let? identity := identity_domain i in
  let? job := uuid_domain "job_id" (wwo_job_id v) in
  let? trace := uuid_domain "trace_id" (wwo_trace_id v) in
  let? capability := capability_domain (wwo_capability v) in
  let? r := required "work_offer.requirements" (wwo_requirements v) in
  let? requirements := requirements_domain r in
  Ok {| wo_identity := identity; wo_job_id := job; wo_trace_id := trace;
        wo_capability := capability; wo_requirements := requirements;
        wo_payload_hash := wwo_payload_hash v;
        wo_offer_expires_at_ms := wwo_offer_expires_at_ms v |}.
Definition offer_wire (o : WorkOffer) : WireWorkOffer :=
  {| wwo_identity := Some (identity_wire (wo_identity o));
     wwo_job_id := uuid_string (wo_job_id o); wwo_trace_id := uuid_string (wo_trace_id o);
     wwo_capability := capability_wire (wo_capability o);
     wwo_requirements := Some (requirements_wire (wo_requirements o));
     wwo_payload_hash := wo_payload_hash o;
     wwo_offer_expires_at_ms := wo_offer_expires_at_ms o |}.

Definition benchmark_payload (v : WireBenchmarkPayload) : BenchmarkPayload :=
  {| bp_effective_args := wbp_effective_args v; bp_workload_key := wbp_workload_key v;
     bp_sqlite_seed_key := wbp_sqlite_seed_key v;
     bp_shared_baseline_calibration := wbp_shared_baseline_calibration v;
     bp_baseline_calibration_id := wbp_baseline_calibration_id v;
     bp_run_index := wbp_run_index v; bp_requested_run_count := wbp_requested_run_count v |}.
Definition benchmark_payload_wire (p : BenchmarkPayload) : WireBenchmarkPayload :=
  {| wbp_effective_args := bp_effective_args p; wbp_workload_key := bp_workload_key p;
     wbp_sqlite_seed_key := bp_sqlite_seed_key p;
     wbp_shared_baseline_calibration := bp_shared_baseline_calibration p;
     wbp_baseline_calibration_id := bp_baseline_calibration_id p;
     wbp_run_index := bp_run_index p; wbp_requested_run_count := bp_requested_run_count p |}.

Definition validation_payload (v : WireBlockValidationPayload)
  : result BlockValidationPayload ProtocolError :=
  let? selection := required "block_validation.selection" (wbv_selection v) in
  let? kind := required "block_validation.selection.kind" selection in
  Ok {| bv_selection := match kind with
                        | Wire_Recent n => Sel_Recent n
                        | Wire_Full => Sel_Full
                        | Wire_Range r => Sel_Range (range_domain r)
                        end;
        bv_timeout_secs := wbv_timeout_secs v |}.
Definition validation_payload_wire (p : BlockValidationPayload) : WireBlockValidationPayload :=
  {| wbv_selection := Some (Some (match bv_selection p with
                                  | Sel_Recent n => Wire_Recent n
                                  | Sel_Full => Wire_Full
                                  | Sel_Range r => Wire_Range (range_wire r)
                                  end));
     wbv_timeout_secs := bv_timeout_secs p |}.

Definition task_payload (v : option WireTaskKind) : result TaskPayload ProtocolError :=
  let? kind := required "task_payload.kind" v in
  match kind with
  | Wire_TaskBenchmark p => Ok (Task_Benchmark (benchmark_payload p))
  | Wire_TaskBuildOnly => Ok Task_BuildOnly
  | Wire_TaskBlockValidation p => let? b := validation_payload p in Ok (Task_BlockValidation b)
  end.
Definition task_payload_wire (p : TaskPayload) : option WireTaskKind :=
  Some (match p with
        | Task_Benchmark b => Wire_TaskBenchmark (benchmark_payload_wire b)
        | Task_BuildOnly => Wire_TaskBuildOnly
        | Task_BlockValidation b => Wire_TaskBlockValidation (validation_payload_wire b)
        end).

Definition assignment_domain (v : WireAssignment) : result Assignment ProtocolError :=
  let? context := required "assignment.context" (was_context v) in
  let? i := required "assignment.identity" (was_identity v) in
  let? identity := identity_domain i in
  let? trace := uuid_domain "trace_id" (was_trace_id v) in
  let? job := uuid_domain "job_id" (wac_job_id context) in
  let? p := required "assignment.payload" (was_payload v) in
  let? payload := task_payload p in
  Ok {| as_identity := identity; as_trace_id := trace;
        as_context := {| ac_job_id := job; ac_repository := wac_repository context;
                         ac_commit := wac_commit context |};
        as_payload := payload; as_payload_hash := was_payload_hash v;
        as_vcpu_cpuset := was_vcpu_cpuset v |}.
Definition assignment_wire (a : Assignment) : WireAssignment :=
  {| was_identity := Some (identity_wire (as_identity a));
     was_trace_id := uuid_string (as_trace_id a);
     was_context := Some {| wac_job_id := uuid_string (ac_job_id (as_context a));
                            wac_repository := ac_repository (as_context a);
                            wac_commit := ac_commit (as_context a) |};
     was_payload := Some (task_payload_wire (as_payload a));
     was_payload_hash := as_payload_hash a; was_vcpu_cpuset := as_vcpu_cpuset a |}.

Definition event_payload (v : option WireEventKind) : result ReliableEventPayload ProtocolError :=
  let? kind := required "reliable_event.payload.kind" v in
  Ok (match kind with
      | Wire_Phase label elapsed => Event_Phase label elapsed
      | Wire_Terminal digest => Event_Terminal digest
      end).
Definition event_payload_wire (p : ReliableEventPayload) : option WireEventKind :=
  Some (match p with
        | Event_Phase label elapsed => Wire_Phase label elapsed
        | Event_Terminal digest => Wire_Terminal digest
        end).

Definition progress_update (v : WireProgressUpdate) : ProgressUpdate :=
  {| pu_workflow_step := wpu_workflow_step v; pu_run_index := wpu_run_index v;
     pu_requested_run_count := wpu_requested_run_count v; pu_phase := wpu_phase v;
     pu_progress := wpu_progress v; pu_total := wpu_total v; pu_message := wpu_message v |}.
Definition progress_update_wire (p : ProgressUpdate) : WireProgressUpdate :=
  {| wpu_workflow_step := pu_workflow_step p; wpu_run_index := pu_run_index p;
     wpu_requested_run_count := pu_requested_run_count p; wpu_phase := pu_phase p;
     wpu_progress := pu_progress p; wpu_total := pu_total p; wpu_message := pu_message p |}.

Definition header_domain (v : WireHeaderValue) : HeaderValue :=
  {| hv_name := whv_name v; hv_value := whv_value v |}.
Definition header_wire (h : HeaderValue) : WireHeaderValue :=
  {| whv_name := hv_name h; whv_value := hv_value h |}.
Definition artifact_domain (v : WireArtifactDescriptor) : ArtifactDescriptor :=
  {| ad_key := wad_key v; ad_logical_key := wad_logical_key v; ad_size := wad_size v;
     ad_sha256 := wad_sha256 v |}.
Definition artifact_wire (a : ArtifactDescriptor) : WireArtifactDescriptor :=
  {| wad_key := ad_key a; wad_logical_key := ad_logical_key a; wad_size := ad_size a;
     wad_sha256 := ad_sha256 a |}.

Definition invalid_block (v : WireInvalidBlock) : InvalidBlock :=
  {| ib_shard := wib_shard v; ib_block := wib_block v; ib_reason := wib_reason v |}.
Definition invalid_block_wire (b : InvalidBlock) : WireInvalidBlock :=
  {| wib_shard := ib_shard b; wib_block := ib_block b; wib_reason := ib_reason b |}.
Definition segment_domain (v : WireEpochSegment) : result ValidationEpochSegment ProtocolError :=
  let? epoch := epoch_domain (wes_epoch v) in
  let? global := required "block_validation_result.segment.global_range" (wes_global_range v) in
  let? local := required "block_validation_result.segment.local_range" (wes_local_range v) in
  Ok {| vs_epoch := epoch; vs_global_range := range_domain global;
        vs_local_range := range_domain local |}.
Definition segment_wire (s : ValidationEpochSegment) : WireEpochSegment :=
  {| wes_epoch := epoch_wire (vs_epoch s);
     wes_global_range := Some (range_wire (vs_global_range s));
     wes_local_range := Some (range_wire (vs_local_range s)) |}.

Definition validation_result (v : WireBlockValidationResult)
  : result BlockValidationResult ProtocolError :=
  let? observed := required "block_validation_result.observed" (wbr_observed v) in
  let? resolved := required "block_validation_result.resolved_range" (wbr_resolved_range v) in
  let? segments := collect (map segment_domain (wbr_segments v)) in
  Ok {| br_valid := wbr_valid v; br_checked_blocks := wbr_checked_blocks v;
        br_invalid_blocks := map invalid_block (wbr_invalid_blocks v);
        br_chainstate_origin := wbr_chainstate_origin v;
        br_observed := {| oi_pre_nakamoto_count := woi_pre_nakamoto_count observed;
                          oi_nakamoto_count := woi_nakamoto_count observed |};
        br_resolved_range := range_domain resolved; br_segments := segments;
        br_shard_count := wbr_shard_count v; br_max_concurrency := wbr_max_concurrency v |}.
Definition validation_result_wire (r : BlockValidationResult) : WireBlockValidationResult :=
  {| wbr_valid := br_valid r; wbr_checked_blocks := br_checked_blocks r;
     wbr_invalid_blocks := map invalid_block_wire (br_invalid_blocks r);
     wbr_chainstate_origin := br_chainstate_origin r;
     wbr_observed := Some {| woi_pre_nakamoto_count := oi_pre_nakamoto_count (br_observed r);
                             woi_nakamoto_count := oi_nakamoto_count (br_observed r) |};
     wbr_resolved_range := Some (range_wire (br_resolved_range r));
     wbr_segments := map segment_wire (br_segments r);
     wbr_shard_count := br_shard_count r; wbr_max_concurrency := br_max_concurrency r |}.

Definition terminal_domain (v : option WireOutcomeKind) : result TerminalOutcome ProtocolError :=
  let? kind := required "terminal_outcome.kind" v in
  match kind with
  | Wire_Completed json bv =>
      let? summary := json_domain json in
      let? block_validation := transpose validation_result bv in
      Ok (Outcome_Completed summary block_validation)
  | Wire_Failed error json retryable =>
      let? summary := transpose json_domain json in
      Ok (Outcome_Failed error summary retryable)
  | Wire_Cancelled reason => Ok (Outcome_Cancelled reason)
  end.
Definition terminal_wire (o : TerminalOutcome) : option WireOutcomeKind :=
  Some (match o with
        | Outcome_Completed summary bv =>
            Wire_Completed (json_to_string summary) (validation_result_wire <$> bv)
        | Outcome_Failed error summary retryable =>
            Wire_Failed error (json_to_string <$> summary) retryable
        | Outcome_Cancelled reason => Wire_Cancelled reason
        end).

(** *** Negotiation (convert/protocol.rs) *)
#[export] Instance ProtocolOffer_Wire : Wire WireProtocolOffer ProtocolOffer := {|
  into_domain v :=
    let? minimum := protocol_version_domain (wpo_minimum_revision v) in
    let? maximum := protocol_version_domain (wpo_maximum_revision v) in
    let offer := {| po_minimum_revision := minimum; po_maximum_revision := maximum;
                    po_features := list_to_set (wpo_features v) |} in
    ensure (Nat.eqb (size (po_features offer)) (length (wpo_features v)))
      (Invalid "protocol_offer.features" (lit "duplicate feature name")) ;?
    map_err (fun e => Invalid "protocol_offer" (NegotiationError_to_string e))
      (ProtocolOffer_validate offer) ;?
    Ok offer;
  from_domain o :=
    {| wpo_minimum_revision := po_minimum_revision o;
       wpo_maximum_revision := po_maximum_revision o;
       wpo_features := merge_sort str_le (elements (po_features o)) |}
|}.

Definition feature_domain (name : rstr) : result ProtocolFeature ProtocolError :=
  ok_or (from_name name)
    (Invalid "protocol_contract.features" (lit "unrecognized selected feature")).
#[export] Instance ProtocolContract_Wire : Wire WireProtocolContract ProtocolContract := {|
  into_domain v :=
    let? names := collect (map feature_domain (wpc_features v)) in
    let features : gset ProtocolFeature := list_to_set names in
    ensure (Nat.eqb (size features) (length (wpc_features v)))
      (Invalid "protocol_contract.features" (lit "duplicate selected feature")) ;?
    let? revision := protocol_version_domain (wpc_revision v) in
    let contract := {| pc_revision := revision; pc_features := features |} in
    map_err (fun e => Invalid "protocol_contract" (NegotiationError_to_string e))
      (validate_selection ProtocolOffer_current contract) ;?
    Ok contract;
  from_domain c :=
    {| wpc_revision := pc_revision c;
       wpc_features := map ProtocolFeature_as_str
                         (filter (fun f => f ∈ pc_features c) supported_list) |}
|}.

Definition selected (version : Z) (value : option WireProtocolContract)
  : result (option ProtocolContract) ProtocolError :=
  let? revision := protocol_version_domain version in
  match value with
  | None =>
      if revision =? PREVIOUS_PROTOCOL_REVISION then Ok None
      else Err (Invalid "protocol_contract" (lit "required for negotiated revisions"))
  | Some v =>
      let? contract := into_domain v in
      ensure (pc_revision contract =? revision)
        (Invalid "protocol_contract.revision" (lit "does not match protocol_version")) ;?
      Ok (Some contract)
  end.

(** *** Requests *)
#[export] Instance PreflightReport_Wire : Wire WirePreflightReport PreflightReport := {|
  into_domain v :=
    let report := {| pf_revision := wpf_revision v;
                     pf_completed_at_ms := wpf_completed_at_ms v;
                     pf_executable_sha256 := wpf_executable_sha256 v;
                     pf_configuration_sha256 := wpf_configuration_sha256 v |} in
    validate report ;? Ok report;
  from_domain r :=
    {| wpf_revision := pf_revision r; wpf_completed_at_ms := pf_completed_at_ms r;
       wpf_executable_sha256 := pf_executable_sha256 r;
       wpf_configuration_sha256 := pf_configuration_sha256 r |}
|}.
#[export] Instance ResourceFacts_Wire : Wire WireResourceFacts ResourceFacts := {|
  into_domain v := Ok {| rf_logical_cpus := wrf_logical_cpus v;
                         rf_memory_bytes := wrf_memory_bytes v |};
  from_domain r := {| wrf_logical_cpus := rf_logical_cpus r;
                      wrf_memory_bytes := rf_memory_bytes r |}
|}.
#[export] Instance RegisterRequest_Wire : Wire RegisterRequest RegisterSessionRequest := {|
  into_domain v :=
    let? preflight := transpose into_domain (wrq_preflight v) in
    let? version := protocol_version_domain (wrq_protocol_version v) in
    let? offer := transpose into_domain (wrq_protocol_offer v) in
    let? session := uuid_domain "worker_session_id" (wrq_worker_session_id v) in
    let? capabilities := capabilities_domain (wrq_advertised_capabilities v) in
    let? r := required "resources" (wrq_resources v) in
    let? resources := into_domain r in
    Ok {| rs_preflight := preflight; rs_protocol_version := version;
          rs_protocol_offer := offer; rs_worker_session_id := session;
          rs_software_version := wrq_software_version v;
          rs_advertised_capabilities := capabilities; rs_resources := resources |};
  from_domain r :=
    {| wrq_protocol_version := rs_protocol_version r;
       wrq_worker_session_id := uuid_string (rs_worker_session_id r);
       wrq_software_version := rs_software_version r;
       wrq_advertised_capabilities := capabilities_wire (rs_advertised_capabilities r);
       wrq_resources := Some (from_domain (rs_resources r));
       wrq_protocol_offer := from_domain <$> rs_protocol_offer r;
       wrq_preflight := from_domain <$> rs_preflight r |}
|}.
#[export] Instance CheckRegistrationRequest_Wire
  : Wire CheckRegistrationRequest RegistrationCheckRequest := {|
  into_domain v :=
    let? version := protocol_version_domain (wcr_protocol_version v) in
    let? offer := transpose into_domain (wcr_protocol_offer v) in
    let? capabilities := capabilities_domain (wcr_advertised_capabilities v) in
    let? r := required "resources" (wcr_resources v) in
    let? resources := into_domain r in
    Ok {| rc_protocol_version := version; rc_protocol_offer := offer;
          rc_software_version := wcr_software_version v;
          rc_advertised_capabilities := capabilities; rc_resources := resources |};
  from_domain r :=
    {| wcr_protocol_version := rc_protocol_version r;
       wcr_software_version := rc_software_version r;
       wcr_advertised_capabilities := capabilities_wire (rc_advertised_capabilities r);
       wcr_resources := Some (from_domain (rc_resources r));
       wcr_protocol_offer := from_domain <$> rc_protocol_offer r |}
|}.
#[export] Instance ListCleanupRequest_Wire : Wire WireSessionRequest CleanupListRequest := {|
  into_domain v :=
    let? session := uuid_domain "worker_session_id" (wsr_worker_session_id v) in
    Ok {| cl_worker_session_id := session |};
  from_domain r := {| wsr_worker_session_id := uuid_string (cl_worker_session_id r) |}
|}.
#[export] Instance CompleteCleanupRequest_Wire
  : Wire CompleteCleanupRequest CleanupCompleteRequest := {|
  into_domain v :=
    let? session := uuid_domain "worker_session_id" (wcc_worker_session_id v) in
    Ok {| cc_worker_session_id := session; cc_obligation_id := wcc_obligation_id v |};
  from_domain r :=
    {| wcc_worker_session_id := uuid_string (cc_worker_session_id r);
       wcc_obligation_id := cc_obligation_id r |}
|}.
#[export] Instance DeregisterRequest_Wire : Wire WireSessionRequest DeregisterSessionRequest := {|
  into_domain v :=
    let? session := uuid_domain "worker_session_id" (wsr_worker_session_id v) in
    Ok {| dr_worker_session_id := session |};
  from_domain r := {| wsr_worker_session_id := uuid_string (dr_worker_session_id r) |}
|}.
#[export] Instance PollRequest_Wire : Wire WireSessionRequest PollRequest := {|
  into_domain v :=
    let? session := uuid_domain "worker_session_id" (wsr_worker_session_id v) in
    Ok {| pr_worker_session_id := session |};
  from_domain r := {| wsr_worker_session_id := uuid_string (pr_worker_session_id r) |}
|}.
#[export] Instance AcceptRequest_Wire : Wire WireIdentityRequest AcceptOfferRequest := {|
  into_domain v :=
    let? identity := attempt_identity (wid_identity v) in Ok {| ao_identity := identity |};
  from_domain r := {| wid_identity := Some (identity_wire (ao_identity r)) |}
|}.
#[export] Instance FetchRepositoryCredentialRequest_Wire
  : Wire WireIdentityRequest RepositoryCredentialRequest := {|
  into_domain v :=
    let? identity := attempt_identity (wid_identity v) in Ok {| rcr_identity := identity |};
  from_domain r := {| wid_identity := Some (identity_wire (rcr_identity r)) |}
|}.
#[export] Instance HeartbeatRequest_Wire : Wire WireHeartbeatRequest HeartbeatRequest := {|
  into_domain v :=
    let? identity := attempt_identity (whb_identity v) in
    Ok {| hb_identity := identity; hb_reliable_buffer_len := whb_reliable_buffer_len v |};
  from_domain r :=
    {| whb_identity := Some (identity_wire (hb_identity r));
       whb_reliable_buffer_len := hb_reliable_buffer_len r |}
|}.
#[export] Instance PublishReliableEventRequest_Wire
  : Wire PublishReliableEventRequest ReliableEventEnvelope := {|
  into_domain v :=
    let? identity := attempt_identity (wev_identity v) in
    let? trace := uuid_domain "trace_id" (wev_trace_id v) in
    let? p := required "reliable_event.payload" (wev_payload v) in
    let? payload := event_payload p in
    Ok {| ev_identity := identity; ev_trace_id := trace; ev_reliable_seq := wev_reliable_seq v;
          ev_payload := payload; ev_payload_digest := wev_payload_digest v;
          ev_worker_timestamp_ms := wev_worker_timestamp_ms v |};
  from_domain r :=
    {| wev_identity := Some (identity_wire (ev_identity r));
       wev_trace_id := uuid_string (ev_trace_id r); wev_reliable_seq := ev_reliable_seq r;
       wev_payload := Some (event_payload_wire (ev_payload r));
       wev_payload_digest := ev_payload_digest r;
       wev_worker_timestamp_ms := ev_worker_timestamp_ms r |}
|}.
#[export] Instance PublishProgressRequest_Wire : Wire PublishProgressRequest ProgressRequest := {|
  into_domain v :=
    let? identity := attempt_identity (wpq_identity v) in
    let? trace := uuid_domain "trace_id" (wpq_trace_id v) in
    let? update := required "progress.update" (wpq_update v) in
    Ok {| pq_identity := identity; pq_trace_id := trace; pq_progress_seq := wpq_progress_seq v;
          pq_update := progress_update update |};
  from_domain r :=
    {| wpq_identity := Some (identity_wire (pq_identity r));
       wpq_trace_id := uuid_string (pq_trace_id r); wpq_progress_seq := pq_progress_seq r;
       wpq_update := Some (progress_update_wire (pq_update r)) |}
|}.
#[export] Instance GrantArtifactRequest_Wire : Wire GrantArtifactRequest ArtifactGrantRequest := {|
  into_domain v :=
    let? identity := attempt_identity (wga_identity v) in
    let? operation := artifact_operation_domain (wga_operation v) in
    Ok {| ag_identity := identity; ag_operation := operation; ag_key := wga_key v;
          ag_size := wga_size v; ag_sha256 := wga_sha256 v |};
  from_domain r :=
    {| wga_identity := Some (identity_wire (ag_identity r));
       wga_operation := artifact_operation_wire (ag_operation r); wga_key := ag_key r;
       wga_size := ag_size r; wga_sha256 := ag_sha256 r |}
|}.
#[export] Instance CompleteAttemptRequest_Wire
  : Wire WireCompleteAttemptRequest CompleteAttemptRequest := {|
  into_domain v :=
    let? identity := attempt_identity (wca_identity v) in
    let? trace := uuid_domain "trace_id" (wca_trace_id v) in
    let? o := required "terminal_outcome" (wca_outcome v) in
    let? outcome := terminal_domain o in
    Ok {| ca_identity := identity; ca_trace_id := trace;
          ca_terminal_reliable_seq := wca_terminal_reliable_seq v;
          ca_terminal_payload_digest := wca_terminal_payload_digest v; ca_outcome := outcome;
          ca_artifacts := map artifact_domain (wca_artifacts v) |};
  from_domain r :=
    {| wca_identity := Some (identity_wire (ca_identity r));
       wca_trace_id := uuid_string (ca_trace_id r);
       wca_terminal_reliable_seq := ca_terminal_reliable_seq r;
       wca_terminal_payload_digest := ca_terminal_payload_digest r;
       wca_outcome := Some (terminal_wire (ca_outcome r));
       wca_artifacts := map artifact_wire (ca_artifacts r) |}
|}.

(** *** Responses *)
#[export] Instance RegisterResponse_Wire : Wire RegisterResponse RegisterSessionResponse := {|
  into_domain v :=
    let? version := protocol_version_domain (wrp_protocol_version v) in
    let? contract := selected (wrp_protocol_version v) (wrp_protocol_contract v) in
    Ok {| rg_protocol_version := version; rg_protocol_contract := contract;
          rg_heartbeat_interval_ms := wrp_heartbeat_interval_ms v;
          rg_lease_ttl_ms := wrp_lease_ttl_ms v; rg_server_time_ms := wrp_server_time_ms v |};
  from_domain r :=
    {| wrp_protocol_version := rg_protocol_version r;
       wrp_heartbeat_interval_ms := rg_heartbeat_interval_ms r;
       wrp_lease_ttl_ms := rg_lease_ttl_ms r; wrp_server_time_ms := rg_server_time_ms r;
       wrp_protocol_contract := from_domain <$> rg_protocol_contract r |}
|}.
#[export] Instance CheckRegistrationResponse_Wire
  : Wire CheckRegistrationResponse RegistrationCheckResponse := {|
  into_domain v :=
    let? version := protocol_version_domain (wcp_protocol_version v) in
    let? contract := selected (wcp_protocol_version v) (wcp_protocol_contract v) in
    let? worker := uuid_domain "worker_id" (wcp_worker_id v) in
    let? capabilities := capabilities_domain (wcp_effective_capabilities v) in
    Ok {| rr_protocol_version := version; rr_protocol_contract := contract;
          rr_worker_id := worker; rr_effective_capabilities := capabilities;
          rr_measurement_profile := wcp_measurement_profile v; rr_draining := wcp_draining v;
          rr_heartbeat_interval_ms := wcp_heartbeat_interval_ms v;
          rr_lease_ttl_ms := wcp_lease_ttl_ms v; rr_server_time_ms := wcp_server_time_ms v |};
  from_domain r :=
    {| wcp_protocol_version := rr_protocol_version r;
       wcp_worker_id := uuid_string (rr_worker_id r);
       wcp_effective_capabilities := capabilities_wire (rr_effective_capabilities r);
       wcp_measurement_profile := rr_measurement_profile r; wcp_draining := rr_draining r;
       wcp_heartbeat_interval_ms := rr_heartbeat_interval_ms r;
       wcp_lease_ttl_ms := rr_lease_ttl_ms r; wcp_server_time_ms := rr_server_time_ms r;
       wcp_protocol_contract := from_domain <$> rr_protocol_contract r |}
|}.
Definition cleanup_item (v : WireCleanupItem) : result CleanupItem ProtocolError :=
  let? attempt := uuid_domain "attempt_id" (wci_attempt_id v) in
  let? job := uuid_domain "job_id" (wci_job_id v) in
  Ok {| ci_id := wci_id v; ci_attempt_id := attempt; ci_job_id := job;
        ci_reason := wci_reason v |}.
#[export] Instance ListCleanupResponse_Wire : Wire (list WireCleanupItem) (list CleanupItem) := {|
  into_domain v := collect (map cleanup_item v);
  from_domain items :=
    map (fun i => {| wci_id := ci_id i; wci_attempt_id := uuid_string (ci_attempt_id i);
                     wci_job_id := uuid_string (ci_job_id i); wci_reason := ci_reason i |}) items
|}.
#[export] Instance PollResponse_Wire : Wire (option WirePollResult) PollResponse := {|
  into_domain v :=
    let? r := required "poll_response.result" v in
    match r with
    | Wire_NoWork ms => Ok (Poll_NoWork ms)
    | Wire_Drain => Ok Poll_Drain
    | Wire_ShutdownAfterIdle => Ok Poll_ShutdownAfterIdle
    | Wire_Offer o =>
        let? o := required "poll_response.offer" o in
        let? offer := offer_domain o in Ok (Poll_Offer offer)
    end;
  from_domain r :=
    Some (match r with
          | Poll_NoWork ms => Wire_NoWork ms
          | Poll_Drain => Wire_Drain
          | Poll_ShutdownAfterIdle => Wire_ShutdownAfterIdle
          | Poll_Offer o => Wire_Offer (Some (offer_wire o))
          end)
|}.
#[export] Instance AcceptResponse_Wire : Wire AcceptResponse AcceptOfferResponse := {|
  into_domain v :=
    let? a := required "assignment" (war_assignment v) in
    let? assignment := assignment_domain a in Ok {| aor_assignment := assignment |};
  from_domain r := {| war_assignment := Some (assignment_wire (aor_assignment r)) |}
|}.
#[export] Instance HeartbeatResponse_Wire : Wire WireHeartbeatResponse HeartbeatResponse := {|
  into_domain v :=
    let? desired := desired_state_domain (whr_desired_state v) in
    Ok {| hr_desired_state := desired; hr_lease_expires_at_ms := whr_lease_expires_at_ms v;
          hr_highest_contiguous_reliable_seq := whr_highest_contiguous_reliable_seq v |};
  from_domain r :=
    {| whr_desired_state := desired_state_wire (hr_desired_state r);
       whr_lease_expires_at_ms := hr_lease_expires_at_ms r;
       whr_highest_contiguous_reliable_seq := hr_highest_contiguous_reliable_seq r |}
|}.
#[export] Instance GrantArtifactResponse_Wire
  : Wire GrantArtifactResponse ArtifactGrantResponse := {|
  into_domain v :=
    Ok {| agr_method := wgr_method v; agr_key := wgr_key v; agr_url := wgr_url v;
          agr_headers := map header_domain (wgr_headers v);
          agr_expires_at_ms := wgr_expires_at_ms v |};
  from_domain r :=
    {| wgr_method := agr_method r; wgr_key := agr_key r; wgr_url := agr_url r;
       wgr_headers := map header_wire (agr_headers r); wgr_expires_at_ms := agr_expires_at_ms r |}
|}.
#[export] Instance FetchRepositoryCredentialResponse_Wire
  : Wire FetchRepositoryCredentialResponse RepositoryCredentialResponse := {|
  into_domain v := Ok {| rcp_token := wfr_token v; rcp_expires_at_ms := wfr_expires_at_ms v |};
  from_domain r := {| wfr_token := rcp_token r; wfr_expires_at_ms := rcp_expires_at_ms r |}
|}.
#[export] Instance PublishReliableEventResponse_Wire
  : Wire PublishReliableEventResponse ReliableEventAck := {|
  into_domain v := Ok {| ra_highest_contiguous_reliable_seq := wpe_highest_contiguous v |};
  from_domain r := {| wpe_highest_contiguous := ra_highest_contiguous_reliable_seq r |}
|}.
#[export] Instance CompleteAttemptResponse_Wire
  : Wire WireBool CompleteAttemptResponse := {|
  into_domain v := Ok {| car_accepted := wb_field v |};
  from_domain r := {| wb_field := car_accepted r |}
|}.
(** The macro [bool_response!]. *)
#[export] Instance bool_response : Wire WireBool bool := {|
  into_domain v := Ok (wb_field v);
  from_domain b := {| wb_field := b |}
|}.
End Conversions.

(** ** Values that survive the passage *)
Section Ok.
Context `{WireEnv}.

Definition version_ok (v : Z) : Prop := 0 <= v <= U16_MAX.
Definition identity_ok (i : AttemptIdentity) : Prop :=
  uuid_ok (ai_worker_session_id i) /\ uuid_ok (ai_attempt_id i).
Definition offer_ok (o : ProtocolOffer) : Prop :=
  version_ok (po_minimum_revision o) /\ version_ok (po_maximum_revision o)
  /\ ProtocolOffer_validate o = Ok tt.
Definition preflight_ok (r : PreflightReport) : Prop := validate r = Ok tt.
Definition contract_ok (c : ProtocolContract) : Prop :=
  version_ok (pc_revision c) /\ validate_selection ProtocolOffer_current c = Ok tt.
Definition selected_ok (version : Z) (c : option ProtocolContract) : Prop :=
  version_ok version
  /\ match c with
     | None => version = PREVIOUS_PROTOCOL_REVISION
     | Some c => contract_ok c /\ pc_revision c = version
     end.
(** serde_json reads back what it wrote.  This holds of values without doubles
    (the parser's default precision for them is best effort) that are nested less
    than 128 deep. *)
Definition json_ok (v : Value) : Prop := json_from_str (json_to_string v) = Some v.
Definition outcome_ok (o : TerminalOutcome) : Prop :=
  match o with
  | Outcome_Completed summary _ => json_ok summary
  | Outcome_Failed _ summary _ => forall v, summary = Some v -> json_ok v
  | Outcome_Cancelled _ => True
  end.
Definition work_offer_ok (o : WorkOffer) : Prop :=
  identity_ok (wo_identity o) /\ uuid_ok (wo_job_id o) /\ uuid_ok (wo_trace_id o).
Definition assignment_ok (a : Assignment) : Prop :=
  identity_ok (as_identity a) /\ uuid_ok (as_trace_id a) /\ uuid_ok (ac_job_id (as_context a)).
End Ok.

(** ** Faithfulness of the parts *)
Section Faithful.
Context `{WireLaws}.

Lemma uuid_roundtrip field u : uuid_ok u -> uuid_domain field (uuid_string u) = Ok u.
Proof. intros Hu. unfold uuid_domain. by rewrite uuid_parse_display. Qed.

Lemma version_roundtrip v : version_ok v -> protocol_version_domain v = Ok v.
Proof.
  intros [Hlo Hv]. unfold protocol_version_domain.
  by rewrite (proj2 (Z.leb_le _ _) Hlo), (proj2 (Z.leb_le _ _) Hv).
Qed.

Lemma collect_map_Ok {A B C} (f : B -> result A ProtocolError) (g : C -> B) (h : C -> A) l :
  (forall x, x ∈ l -> f (g x) = Ok (h x)) -> collect (map f (map g l)) = Ok (map h l).
Proof.
  induction l as [|x l IH]; intros Hl; [done|]. simpl.
  rewrite (Hl x) by left. rewrite IH; [done|]. intros y Hy. apply Hl. by right.
Qed.

Lemma capability_roundtrip c : capability_domain (capability_wire c) = Ok c.
Proof. by destruct c. Qed.

Lemma capabilities_roundtrip s : capabilities_domain (capabilities_wire s) = Ok s.
Proof.
  unfold capabilities_domain, capabilities_wire.
  rewrite (collect_map_Ok _ _ id) by (intros; apply capability_roundtrip).
  f_equal. rewrite map_id. apply set_eq. intros c. rewrite elem_of_list_to_set, list_elem_of_filter.
  split; [by intros []|]. intros Hc. split; [done|]. destruct c; set_solver.
Qed.

Lemma identity_roundtrip i : identity_ok i -> identity_domain (identity_wire i) = Ok i.
Proof.
  intros [Hs Ha]. unfold identity_domain. simpl. rewrite !uuid_roundtrip by done.
  by destruct i.
Qed.

Lemma attempt_identity_roundtrip i :
  identity_ok i -> attempt_identity (Some (identity_wire i)) = Ok i.
Proof. apply identity_roundtrip. Qed.

Lemma range_roundtrip r : range_domain (range_wire r) = r.
Proof. by destruct r. Qed.

Lemma work_offer_roundtrip o : work_offer_ok o -> offer_domain (offer_wire o) = Ok o.
Proof.
  intros (Hi & Hj & Ht). unfold offer_domain. simpl.
  rewrite identity_roundtrip, !uuid_roundtrip, capability_roundtrip by done. simpl.
  by destruct o as [? ? ? ? [] ? ?].
Qed.

Lemma task_payload_roundtrip p : task_payload (task_payload_wire p) = Ok p.
Proof.
  destruct p as [[]| |[[] ?]]; try done. unfold task_payload, task_payload_wire. simpl.
  by rewrite range_roundtrip.
Qed.

Lemma assignment_roundtrip a : assignment_ok a -> assignment_domain (assignment_wire a) = Ok a.
Proof.
  intros (Hi & Ht & Hj). unfold assignment_domain. simpl.
  rewrite identity_roundtrip, !uuid_roundtrip by done.
  change (Some _) with (task_payload_wire (as_payload a)).
  rewrite task_payload_roundtrip. by destruct a as [? ? [] ? ? ?].
Qed.

Lemma event_payload_roundtrip p : event_payload (event_payload_wire p) = Ok p.
Proof. by destruct p. Qed.

Lemma segment_roundtrip s : segment_domain (segment_wire s) = Ok s.
Proof.
  unfold segment_domain. simpl. replace (epoch_domain _) with (@Ok _ ProtocolError (vs_epoch s))
    by (by destruct (vs_epoch s)).
  simpl. rewrite !range_roundtrip. by destruct s.
Qed.

Lemma map_involutive {A B} (f : B -> A) (g : A -> B) l : (forall x, f (g x) = x) -> map f (map g l) = l.
Proof. intros Hfg. rewrite map_map. rewrite <- (map_id l) at 2. by apply map_ext. Qed.

Lemma validation_result_roundtrip r : validation_result (validation_result_wire r) = Ok r.
Proof.
  unfold validation_result. simpl.
  rewrite (collect_map_Ok _ _ id) by (intros; apply segment_roundtrip). simpl.
  rewrite map_id, range_roundtrip, map_involutive by (by intros []).
  by destruct r as [? ? ? ? [] ? ? ? ?].
Qed.

Lemma terminal_roundtrip o : outcome_ok o -> terminal_domain (terminal_wire o) = Ok o.
Proof.
  unfold terminal_domain, terminal_wire.
  destruct o as [summary bv|error summary retryable|reason]; simpl; intros Ho; [| |done].
  - unfold json_domain. rewrite Ho. simpl. destruct bv; simpl; [|done].
    by rewrite validation_result_roundtrip.
  - destruct summary as [v|]; simpl; [|done]. unfold json_domain. by rewrite (Ho v).
Qed.

Lemma offer_roundtrip (o : ProtocolOffer) : offer_ok o -> into_domain (from_domain o) = Ok o.
Proof.
  intros (Hmin & Hmax & Hv). destruct o as [mn mx fs]. simpl in *.
  rewrite !version_roundtrip by done.
  replace (list_to_set (merge_sort str_le (elements fs))) with fs.
  - rewrite merge_sort_Permutation. simpl. rewrite Nat.eqb_refl. simpl. by rewrite Hv.
  - apply set_eq. intros f. by rewrite elem_of_list_to_set, merge_sort_Permutation, elem_of_elements.
Qed.

Lemma from_name_as_str f : from_name (ProtocolFeature_as_str f) = Some f.
Proof. by destruct f; vm_compute. Qed.

Lemma supported_NoDup : NoDup supported_list.
Proof. apply (bool_decide_unpack _). by vm_compute. Qed.

Lemma contract_roundtrip (c : ProtocolContract) : contract_ok c -> into_domain (from_domain c) = Ok c.
Proof.
  intros [Hv Hs]. destruct c as [rev fs]. simpl in *.
  rewrite (collect_map_Ok _ _ id) by (intros; unfold feature_domain; by rewrite from_name_as_str).
  rewrite map_id, length_map.
  assert (Hfs : list_to_set (filter (fun f => f ∈ fs) supported_list) = fs).
  { apply set_eq. intros f. rewrite elem_of_list_to_set, list_elem_of_filter.
    split; [by intros []|]. intros Hf. split; [done|]. apply supported_list_complete. }
  rewrite size_list_to_set by (apply NoDup_filter, supported_NoDup).
  rewrite Nat.eqb_refl, version_roundtrip by done. simpl. by rewrite Hfs, Hs.
Qed.

Lemma selected_roundtrip version c :
  selected_ok version c -> selected version (from_domain <$> c) = Ok c.
Proof.
  intros [Hv Hc]. unfold selected. rewrite version_roundtrip by done. destruct c as [c|].
  - destruct Hc as [Hc <-]. cbn [fmap option_fmap option_map].
    rewrite contract_roundtrip by done. by rewrite Z.eqb_refl.
  - simpl. by rewrite Hc.
Qed.
End Faithful.
