(* ===== verification/BlockPlan.v ===== *)
(** * Block-validation planning

    The planning half of crates/sbgh-libvirt/src/libvirt/block_validation.rs:
    resolving a durable selector over the observed coverage
    ([resolve_execution_plan]), sizing and cutting it into shards
    ([planned_shard_count], [partition]), and the trusted command lines of each
    shard ([expected_commands]). *)
From stdpp Require Import base list strings gmap.
From Stdlib Require Import ZArith Lia.
From S2P Require Import Prelude RustStr Json FleetModel Negotiation Validate.

Local Open Scope Z_scope.

(** An anyhow error (its message without the interpolated values), or a panic
    of the running task. *)
Inductive PlanError :=
| Failed (message : string)
| Panicked (message : string).
Global Instance PlanError_eq_dec : EqDecision PlanError.
Proof. solve_decision. Defined.

Definition check (cond : bool) (message : string) : result unit PlanError :=
  ensure cond (Failed message).
Definition context {A} (o : option A) (message : string) : result A PlanError :=
  ok_or o (Failed message).

Definition STACKS_INSPECT_GUEST_PATH : rstr :=
  lit "/opt/stacks-core/target/release/stacks-inspect".
Definition STACKS_NETWORK : rstr := lit "mainnet".
Definition STACKS_NETWORK_DATA_DIR : rstr := lit "mainnet".

(** ** Resolving the selector *)

(** [planned_shard_count]. *)
Definition planned_shard_count (block_count target_blocks_per_shard max_shards : Z)
  : result Z PlanError :=
  check (0 <? block_count) "block count must be non-zero" ;?
  check (0 <? target_blocks_per_shard) "target blocks per shard must be non-zero" ;?
  check (0 <? max_shards) "max shards must be non-zero" ;?
  let desired := block_count / target_blocks_per_shard
                 + (if block_count mod target_blocks_per_shard =? 0 then 0 else 1) in
  let planned := Z.min desired max_shards in
  (if planned <=? U32_MAX then Ok planned else Err (Failed "out of range integral type conversion")).

(** [epoch_segments]. *)
Definition epoch_segments (range : InclusiveRange) (pre_nakamoto_count : Z)
  : result (list ValidationEpochSegment) PlanError :=
  let segments :=
    (if ir_start range <? pre_nakamoto_count then
       let e := Z.min (ir_end range) (pre_nakamoto_count - 1) in
       [{| vs_epoch := PreNakamoto;
           vs_global_range := {| ir_start := ir_start range; ir_end := e |};
           vs_local_range := {| ir_start := ir_start range; ir_end := e |} |}]
     else [])
    ++
    (if pre_nakamoto_count <=? ir_end range then
       let start := Z.max (ir_start range) pre_nakamoto_count in
       [{| vs_epoch := Nakamoto;
           vs_global_range := {| ir_start := start; ir_end := ir_end range |};
           vs_local_range := {| ir_start := start - pre_nakamoto_count;
                                ir_end := ir_end range - pre_nakamoto_count |} |}]
     else []) in
  check (negb (bool_decide (segments = []))) "resolved range produced no epoch segments" ;?
  Ok segments.

Record ResolvedExecutionPlan := {
  re_range : InclusiveRange;
  re_segments : list ValidationEpochSegment;
  re_shard_count : Z;
  re_max_concurrency : Z
}.

Definition is_recent (selection : BlockValidationSelection) : bool :=
  match selection with Sel_Recent _ => true | _ => false end.

(** The range of a selection: the [match selection] of [resolve_execution_plan]. *)
Definition resolve_range (selection : BlockValidationSelection)
    (observed : ObservedValidationIndex) (total : Z) : result InclusiveRange PlanError :=
  match selection with
  | Sel_Recent block_count =>
      check (0 <? block_count) "recent block count must be non-zero" ;?
      let count := Z.min block_count (oi_nakamoto_count observed) in
      Ok {| ir_start := total - count; ir_end := total - 1 |}
  | Sel_Full => Ok {| ir_start := 0; ir_end := total - 1 |}
  | Sel_Range range =>
      check (ir_start range <=? ir_end range) "validation range is reversed" ;?
      check (ir_end range <? total) "validation range exceeds observed coverage" ;?
      Ok range
  end.

(** The number of blocks of an inclusive range, with [u64] overflow checks. *)
Definition checked_count (range : InclusiveRange) : option Z :=
  match checked_sub_u64 (ir_end range) (ir_start range) with
  | Some span => checked_add_u64 span 1
  | None => None
  end.

(** [resolve_execution_plan]. *)
Definition resolve_execution_plan (selection : BlockValidationSelection)
    (observed : ObservedValidationIndex)
    (target_blocks_per_shard max_shards max_concurrency : Z)
  : result ResolvedExecutionPlan PlanError :=
  check ((0 <? oi_pre_nakamoto_count observed) && (0 <? oi_nakamoto_count observed))
    "chainstate probes must report both epoch counts" ;?
  check (0 <? target_blocks_per_shard) "target blocks per shard must be non-zero" ;?
  check (0 <? max_shards) "max shards must be non-zero" ;?
  check ((0 <? max_concurrency) && (max_concurrency <=? max_shards))
    "invalid concurrency ceiling" ;?
  let? total := context (checked_add_u64 (oi_pre_nakamoto_count observed)
                                         (oi_nakamoto_count observed))
                  "observed validation-index count overflow" in
  let? range := resolve_range selection observed total in
  let? segments := epoch_segments range (oi_pre_nakamoto_count observed) in
  let? count := context (checked_count range) "resolved block count overflow" in
  let? shard_count :=
    (if is_recent selection then Ok 1
     else planned_shard_count count target_blocks_per_shard max_shards) in
  Ok {| re_range := range; re_segments := segments; re_shard_count := shard_count;
        re_max_concurrency := Z.min shard_count max_concurrency |}.

(** ** Cutting a range into shards *)
Record ShardRange := { sr_index : Z; sr_start : Z; sr_end : Z }.
Global Instance ShardRange_eq_dec : EqDecision ShardRange.
Proof. solve_decision. Defined.

(** The loop [for index in 0..shard_count] of [partition]; [n] iterations
    remain, and the final cursor is returned with the ranges. *)
Fixpoint partition_loop (n : nat) (index base remainder cursor : Z) : list ShardRange * Z :=
  match n with
  | O => ([], cursor)
  | S n' =>
      let length := base + (if index <? remainder then 1 else 0) in
      let e := cursor + length - 1 in
      let '(rest, final) := partition_loop n' (index + 1) base remainder (e + 1) in
      ({| sr_index := index; sr_start := cursor; sr_end := e |} :: rest, final)
  end.

(** [partition]: the arithmetic is in [u128], so it cannot overflow for [u64]
    bounds. *)
Definition partition (range : InclusiveRange) (requested_shards : Z)
  : result (list ShardRange) PlanError :=
  check (ir_start range <=? ir_end range) "validation range is reversed" ;?
  check (0 <? requested_shards) "requested_shards must be non-zero" ;?
  let count := ir_end range - ir_start range + 1 in
  let shard_count := Z.min requested_shards count in
  let base := count / shard_count in
  let remainder := count mod shard_count in
  let '(ranges, cursor) :=
    partition_loop (Z.to_nat shard_count) 0 base remainder (ir_start range) in
  check (cursor =? ir_end range + 1) "partition did not exactly cover range" ;?
  Ok ranges.

(** ** Trusted command lines *)
Inductive ValidationCommandKind := IndexRange | NakaIndexRange | Last.
Global Instance ValidationCommandKind_eq_dec : EqDecision ValidationCommandKind.
Proof. solve_decision. Defined.

Definition ValidationCommandKind_as_str (k : ValidationCommandKind) : rstr :=
  match k with
  | IndexRange => lit "index-range"
  | NakaIndexRange => lit "naka-index-range"
  | Last => lit "last"
  end.

Record ExpectedCommand := {
  ec_ordinal : Z;
  ec_kind : ValidationCommandKind;
  ec_start : Z;
  ec_end_exclusive : Z;
  ec_argv : list rstr;
  ec_stdout_file : rstr;
  ec_stderr_file : rstr
}.

(** The database directory below a mountpoint. *)
Definition database_path (mountpoint : rstr) : rstr :=
  trim_end_matches (Z.eqb 47) mountpoint ++ [47] ++ STACKS_NETWORK_DATA_DIR.

(** The common prefix of every [stacks-inspect validate-block] command. *)
Definition inspect_argv (database : rstr) (kind : ValidationCommandKind) : list rstr :=
  [STACKS_INSPECT_GUEST_PATH; lit "--network-config"; STACKS_NETWORK; lit "validate-block";
   database; ValidationCommandKind_as_str kind].

(** The command ranges of a shard: kind, local start, local exclusive end. *)
Definition command_ranges (shard : ShardRange) (selection : BlockValidationSelection)
    (pre_nakamoto_count : Z) : result (list (ValidationCommandKind * Z * Z)) PlanError :=
  let naka_end :=
    match checked_sub_u64 (sr_end shard) pre_nakamoto_count with
    | Some e => checked_add_u64 e 1
    | None => None
    end in
  let? first :=
    (if is_recent selection then
       check (pre_nakamoto_count <=? sr_start shard) "recent shard crosses the epoch boundary" ;?
       let? e := context naka_end "recent command range overflow" in
       Ok [(Last, sr_start shard - pre_nakamoto_count, e)]
     else if sr_start shard <? pre_nakamoto_count then
       let? e := context (checked_add_u64 (Z.min (sr_end shard) (pre_nakamoto_count - 1)) 1)
                   "pre-Nakamoto command range overflow" in
       Ok [(IndexRange, sr_start shard, e)]
     else Ok []) in
  let? second :=
    (if negb (is_recent selection) && (pre_nakamoto_count <=? sr_end shard) then
       let global_start := Z.max (sr_start shard) pre_nakamoto_count in
       let? e := context naka_end "Nakamoto command range overflow" in
       Ok [(NakaIndexRange, global_start - pre_nakamoto_count, e)]
     else Ok []) in
  let ranges := first ++ second in
  check (negb (bool_decide (ranges = []))) "trusted shard produced no validation commands" ;?
  Ok ranges.

(** One command of a shard. *)
Definition expected_command (shard : ShardRange) (database : rstr)
    (entry : nat * (ValidationCommandKind * Z * Z)) : result ExpectedCommand PlanError :=
  let '(n, (kind, start, end_exclusive)) := entry in
  let ordinal := Z.of_nat n in
  let? extra :=
    (if bool_decide (kind = Last) then
       let? n := context (checked_sub_u64 end_exclusive start) "recent command range is reversed" in
       Ok [show n]
     else Ok [show start; show end_exclusive]) in
  let file suffix := lit "shard-" ++ show (sr_index shard) ++ lit "-command-" ++ show ordinal
                     ++ lit suffix in
  Ok {| ec_ordinal := ordinal; ec_kind := kind; ec_start := start;
        ec_end_exclusive := end_exclusive;
        ec_argv := inspect_argv database kind ++ extra;
        ec_stdout_file := file ".stdout.log"; ec_stderr_file := file ".stderr.log" |}.

(** [iter().enumerate()]. *)
Definition enumerate {A} (l : list A) : list (nat * A) := combine (seq 0 (length l)) l.

(** [expected_commands]. *)
Definition expected_commands (shard : ShardRange) (selection : BlockValidationSelection)
    (pre_nakamoto_count : Z) (mountpoint : rstr) : result (list ExpectedCommand) PlanError :=
  let? ranges := command_ranges shard selection pre_nakamoto_count in
  collect (map (expected_command shard (database_path mountpoint)) (enumerate ranges)).

(** ** Lemmas *)

(** The blocks of an inclusive range, in order. *)
Definition blocks (r : InclusiveRange) : list Z := seqZ (ir_start r) (ir_end r - ir_start r + 1).
Definition shard_blocks (s : ShardRange) : list Z :=
  seqZ (sr_start s) (sr_end s - sr_start s + 1).

Section Planning.
Lemma seqZ_split (m n k : Z) : 0 <= n -> 0 <= k -> seqZ m n ++ seqZ (m + n) k = seqZ m (n + k).
Proof. intros. by rewrite seqZ_app. Qed.

Lemma check_Ok b m : check b m = Ok tt <-> b = true.
Proof. apply ensure_Ok. Qed.

(** The trusted planner and the protocol validator compute the same
    segments. *)
Lemma epoch_segments_expected range pre segments :
  epoch_segments range pre = Ok segments -> segments = expected_segments range pre.
Proof.
  unfold epoch_segments, check, ensure, expected_segments.
  case_bool_decide; simpl; [done|]. by intros [= <-].
Qed.

Lemma expected_segments_cover (range : InclusiveRange) (pre : Z) :
  ir_start range <= ir_end range ->
  List.concat (map (fun s => blocks (vs_global_range s)) (expected_segments range pre))
  = blocks range.
Proof.
  intros Hle. destruct range as [a b]. simpl in Hle. unfold expected_segments, blocks. simpl.
  destruct (Z.ltb_spec a pre), (Z.leb_spec pre b); simpl; rewrite ?app_nil_r.
  - rewrite (Z.min_r b), (Z.max_r a) by lia.
    replace (b - a + 1) with ((pre - a) + (b - pre + 1)) by lia.
    rewrite <- (seqZ_split a (pre - a) (b - pre + 1)) by lia.
    by replace (pre - 1 - a + 1) with (pre - a) by lia; replace (a + (pre - a)) with pre by lia.
  - rewrite Z.min_l by lia. done.
  - rewrite Z.max_l by lia. done.
  - lia.
Qed.

Lemma expected_segments_nonempty (range : InclusiveRange) (pre : Z) :
  ir_start range <= ir_end range -> expected_segments range pre <> [].
Proof.
  intros Hle. unfold expected_segments.
  destruct (Z.ltb_spec (ir_start range) pre), (Z.leb_spec pre (ir_end range)); simpl; try done.
  lia.
Qed.

Lemma partition_loop_spec n index base remainder cursor ranges final :
  1 <= base ->
  partition_loop n index base remainder cursor = (ranges, final) ->
  final = cursor + Z.of_nat n * base + Z.max 0 (Z.min (index + Z.of_nat n) remainder - index)
  /\ List.concat (map shard_blocks ranges) = seqZ cursor (final - cursor)
  /\ cursor <= final
  /\ map sr_index ranges = seqZ index (Z.of_nat n)
  /\ Forall (fun s => base <= sr_end s - sr_start s + 1 <= base + 1) ranges.
Proof.
  intros Hb. revert index cursor ranges final.
  induction n as [|n IH]; intros index cursor ranges final; simpl.
  - intros [= <- <-]. replace (cursor - cursor) with 0 by lia.
    repeat split; try done; lia || constructor.
  - set (len := base + (if index <? remainder then 1 else 0)).
    assert (Hlen : base <= len <= base + 1) by (unfold len; case_match; lia).
    destruct (partition_loop n (index + 1) base remainder (cursor + len - 1 + 1))
      as [rest fin] eqn:E.
    intros [= <- <-].
    destruct (IH _ _ _ _ E) as (Hf & Hc & Hle & Hi & Hall).
    repeat split.
    + rewrite Hf. unfold len. destruct (Z.ltb_spec index remainder); lia.
    + simpl. rewrite Hc. unfold shard_blocks. simpl.
      replace (cursor + len - 1 - cursor + 1) with len by lia.
      replace (cursor + len - 1 + 1) with (cursor + len) by lia.
      rewrite seqZ_split by lia. f_equal. lia.
    + lia.
    + simpl. rewrite Hi. rewrite Nat2Z.inj_succ, <- Z.add_1_l.
      rewrite <- (seqZ_split index 1) by lia. done.
    + constructor; [simpl; lia | done].
Qed.
End Planning.

Section PlanningTheory.
Lemma partition_spec (range : InclusiveRange) (requested : Z) :
  ir_start range <= ir_end range -> 0 < requested ->
  let count := ir_end range - ir_start range + 1 in
  exists shards, partition range requested = Ok shards
    /\ List.concat (map shard_blocks shards) = blocks range
    /\ map sr_index shards = seqZ 0 (Z.min requested count)
    /\ Forall (fun s => count / Z.min requested count <= sr_end s - sr_start s + 1
                        <= count / Z.min requested count + 1) shards.
Proof.
  intros Hle Hreq count. unfold partition, check, ensure.
  rewrite (proj2 (Z.leb_le _ _) Hle), (proj2 (Z.ltb_lt _ _) Hreq).
  fold count. set (sc := Z.min requested count).
  assert (Hsc : 1 <= sc <= count) by (unfold sc, count; lia).
  assert (Hbase : 1 <= count / sc) by (apply Z.div_le_lower_bound; lia).
  pose proof (Z.mod_pos_bound count sc ltac:(lia)) as Hmod.
  pose proof (Z.div_mod count sc ltac:(lia)) as Hdm.
  destruct (partition_loop (Z.to_nat sc) 0 (count / sc) (count mod sc) (ir_start range))
    as [ranges final] eqn:E.
  destruct (partition_loop_spec _ _ _ _ _ _ _ Hbase E) as (Hf & Hc & _ & Hi & Hall).
  rewrite Z2Nat.id in Hf, Hi by lia.
  assert (Hfinal : final = ir_end range + 1) by (rewrite Hf; unfold count in *; nia).
  rewrite Hfinal, Z.eqb_refl. exists ranges. repeat split; try done.
  rewrite Hc, Hfinal. unfold blocks. f_equal. lia.
Qed.

Lemma resolve_range_spec sel obs total range :
  0 < oi_pre_nakamoto_count obs -> 0 < oi_nakamoto_count obs ->
  total = oi_pre_nakamoto_count obs + oi_nakamoto_count obs ->
  (forall r, sel = Sel_Range r -> 0 <= ir_start r) ->
  resolve_range sel obs total = Ok range ->
  0 <= ir_start range <= ir_end range /\ ir_end range < total
  /\ (is_recent sel = true -> oi_pre_nakamoto_count obs <= ir_start range)
  /\ forall payload, bv_selection payload = sel -> expected_range payload obs total = Ok range.
Proof.
  intros Hp Hn Ht Hr. unfold resolve_range, expected_range.
  destruct sel as [n| |r].
  - unfold check, ensure. destruct (Z.ltb_spec 0 n); [|done].
    intros [= <-]. simpl. repeat split; try lia. intros payload ->.
    by rewrite (proj2 (Z.eqb_neq n 0)) by lia.
  - intros [= <-]. simpl. repeat split; try done; try lia. by intros payload ->.
  - specialize (Hr r eq_refl). unfold check, ensure.
    destruct (Z.leb_spec (ir_start r) (ir_end r)); [|done].
    destruct (Z.ltb_spec (ir_end r) total); [|done].
    intros [= <-]. repeat split; try done. intros payload ->.
    rewrite (proj2 (Z.ltb_ge (ir_end r) (ir_start r))) by lia.
    by rewrite (proj2 (Z.leb_gt total (ir_end r))) by lia.
Qed.

Lemma planned_shard_count_spec count target ms n :
  planned_shard_count count target ms = Ok n ->
  0 < count /\ 0 < target /\ 1 <= n <= ms /\ n <= count /\
  (n = ms \/ count <= n * target < count + target).
Proof.
  unfold planned_shard_count, check, ensure.
  destruct (Z.ltb_spec 0 count); [|done].
  destruct (Z.ltb_spec 0 target); [|done].
  destruct (Z.ltb_spec 0 ms); [|done].
  pose proof (Z.div_mod count target ltac:(lia)) as Hdm.
  pose proof (Z.mod_pos_bound count target ltac:(lia)) as Hmod.
  assert (0 <= count / target) by (apply Z.div_pos; lia).
  assert (count / target <= count) by (apply Z.div_le_upper_bound; nia).
  destruct (Z.eqb_spec (count mod target) 0) as [Hz|Hz];
    match goal with |- context [if ?c then _ else _] => destruct c eqn:? end; try done;
    intros [= <-]; repeat split; try lia; try nia.
Qed.

(** Everything a resolved plan guarantees. *)
Record plan_ok (sel : BlockValidationSelection) (obs : ObservedValidationIndex)
    (target ms mc : Z) (plan : ResolvedExecutionPlan) : Prop := {
  po_pre : 0 < oi_pre_nakamoto_count obs;
  po_naka : 0 < oi_nakamoto_count obs;
  po_total : oi_pre_nakamoto_count obs + oi_nakamoto_count obs <= U64_MAX;
  po_range : 0 <= ir_start (re_range plan) <= ir_end (re_range plan)
             /\ ir_end (re_range plan) < oi_pre_nakamoto_count obs + oi_nakamoto_count obs;
  po_recent : is_recent sel = true -> oi_pre_nakamoto_count obs <= ir_start (re_range plan);
  po_expected : forall payload, bv_selection payload = sel ->
    expected_range payload obs (oi_pre_nakamoto_count obs + oi_nakamoto_count obs)
    = Ok (re_range plan);
  po_segments : re_segments plan
                = expected_segments (re_range plan) (oi_pre_nakamoto_count obs);
  po_shards : 1 <= re_shard_count plan <= ms
              /\ re_shard_count plan <= ir_end (re_range plan) - ir_start (re_range plan) + 1;
  po_target : is_recent sel = false -> re_shard_count plan = ms \/
    ir_end (re_range plan) - ir_start (re_range plan) + 1 <= re_shard_count plan * target;
  po_concurrency : 1 <= re_max_concurrency plan <= mc
                   /\ re_max_concurrency plan <= re_shard_count plan
}.

Lemma resolve_execution_plan_ok sel obs target ms mc plan :
  (forall r, sel = Sel_Range r -> 0 <= ir_start r) ->
  resolve_execution_plan sel obs target ms mc = Ok plan ->
  plan_ok sel obs target ms mc plan.
Proof.
  intros Hr. unfold resolve_execution_plan, context, ok_or.
  destruct (check _ _) as [[]|] eqn:E1; [|done]. apply check_Ok in E1. bool_hyps.
  destruct (check _ _) as [[]|] eqn:E2; [|done]. apply check_Ok in E2.
  destruct (check _ _) as [[]|] eqn:E3; [|done]. apply check_Ok in E3.
  destruct (check _ _) as [[]|] eqn:E4; [|done]. apply check_Ok in E4. bool_hyps.
  destruct (checked_add_u64 _ _) as [total|] eqn:Et; [|done].
  apply checked_add_u64_Some in Et as [-> Ht].
  destruct (resolve_range _ _ _) as [range|] eqn:Er; [|done].
  destruct (epoch_segments _ _) as [segments|] eqn:Es; [|done].
  apply epoch_segments_expected in Es.
  destruct (checked_count range) as [count|] eqn:Ec; [|done].
  unfold checked_count in Ec. destruct (checked_sub_u64 _ _) as [span|] eqn:Esp; [|done].
  apply checked_sub_u64_Some in Esp as [-> Hle]. apply checked_add_u64_Some in Ec as [-> Hc].
  edestruct resolve_range_spec as (Hb & Htot & Hrec & Hexp); [| | done | exact Hr | exact Er |];
    [lia | lia |].
  destruct (is_recent sel) eqn:Erec.
  - intros [= <-]. constructor; simpl; try done; try lia; try (intros; congruence); auto.
  - destruct (planned_shard_count _ _ _) as [n|] eqn:Ep; [|done].
    apply planned_shard_count_spec in Ep as (_ & _ & Hn & Hnc & Hcap).
    intros [= <-]. constructor; simpl; try done; try lia; try (intros; congruence); auto.
Qed.

(** The global blocks a command range visits: pre-Nakamoto indexes are global,
    Nakamoto indexes start after the pre-Nakamoto blocks. *)
Definition command_blocks (pre : Z) (c : ValidationCommandKind * Z * Z) : list Z :=
  let '(k, s, e) := c in seqZ (if bool_decide (k = IndexRange) then s else s + pre) (e - s).

Lemma command_ranges_spec shard sel pre ranges :
  0 <= sr_start shard <= sr_end shard -> 0 < pre ->
  command_ranges shard sel pre = Ok ranges ->
  List.concat (map (command_blocks pre) ranges) = shard_blocks shard
  /\ Forall (fun '(k, s, e) => s < e) ranges.
Proof.
  intros Hb Hp. unfold command_ranges, context, ok_or, checked_sub_u64.
  destruct shard as [i a b]; simpl in *. unfold shard_blocks; simpl.
  destruct (is_recent sel) eqn:Er; simpl.
  - unfold check, ensure. destruct (Z.leb_spec pre a); [|done].
    destruct (Z.leb_spec pre b); [|done].
    destruct (checked_add_u64 _ _) as [e|] eqn:Ee; [|done].
    apply checked_add_u64_Some in Ee as [-> _]. intros [= <-]. simpl. rewrite app_nil_r.
    split; [f_equal; lia | repeat constructor; lia].
  - unfold checked_add_u64.
    destruct (Z.ltb_spec a pre), (Z.leb_spec pre b); simpl.
    + destruct (Z.leb_spec (Z.min b (pre - 1) + 1) U64_MAX); [|done].
      destruct (Z.leb_spec (b - pre + 1) U64_MAX); [|done].
      intros [= <-]. simpl. rewrite app_nil_r, Z.min_r, Z.max_r by lia.
      split; [|repeat constructor; lia].
      replace (b - a + 1) with ((pre - a) + (b - pre + 1)) by lia.
      rewrite <- (seqZ_split a (pre - a) (b - pre + 1)) by lia.
      f_equal; f_equal; lia.
    + destruct (Z.leb_spec (Z.min b (pre - 1) + 1) U64_MAX); [|done].
      intros [= <-]. simpl. rewrite app_nil_r, Z.min_l by lia.
      split; [f_equal; lia | repeat constructor; lia].
    + destruct (Z.leb_spec (b - pre + 1) U64_MAX); [|done].
      intros [= <-]. simpl. rewrite app_nil_r, Z.max_l by lia.
      split; [f_equal; lia | repeat constructor; lia].
    + lia.
Qed.
End PlanningTheory.

(** ** Properties *)
Section Properties.
Lemma command_ranges_total shard sel pre :
  0 <= sr_start shard <= sr_end shard -> 0 < pre -> sr_end shard < U64_MAX ->
  (is_recent sel = true -> pre <= sr_start shard) ->
  exists ranges, command_ranges shard sel pre = Ok ranges.
Proof.
  intros Hb Hp Hm Hr. unfold command_ranges, check, ensure, context, ok_or, checked_sub_u64,
    checked_add_u64.
  destruct (is_recent sel) eqn:Er; simpl.
  - specialize (Hr eq_refl). rewrite (proj2 (Z.leb_le pre (sr_start shard))) by done.
    rewrite (proj2 (Z.leb_le pre (sr_end shard))), (proj2 (Z.leb_le (_ + 1) _)) by lia. eauto.
  - destruct (Z.ltb_spec (sr_start shard) pre), (Z.leb_spec pre (sr_end shard)); try lia.
    all: rewrite ?(proj2 (Z.leb_le (_ + 1) U64_MAX)) by lia; simpl;
      rewrite ?(proj2 (Z.leb_le (_ + 1) U64_MAX)) by lia; simpl; eauto.
Qed.

Lemma shards_within (shards : list ShardRange) lo n :
  List.concat (map shard_blocks shards) = seqZ lo n ->
  Forall (fun s => 1 <= sr_end s - sr_start s + 1) shards ->
  Forall (fun s => lo <= sr_start s /\ sr_end s < lo + n) shards.
Proof.
  intros Hc Hne. apply Forall_forall. intros s Hs.
  assert (Hin : forall x, x ∈ shard_blocks s -> x ∈ seqZ lo n).
  { intros x Hx. rewrite <- Hc. apply list_elem_of_In, in_concat.
    exists (shard_blocks s). split; [apply in_map|]; by apply list_elem_of_In. }
  rewrite Forall_forall in Hne. specialize (Hne s Hs).
  unfold shard_blocks in Hin. setoid_rewrite elem_of_seqZ in Hin.
  pose proof (Hin (sr_start s) ltac:(lia)). pose proof (Hin (sr_end s) ltac:(lia)). lia.
Qed.

Lemma commands_cover (shards : list ShardRange) sel pre :
  0 < pre ->
  Forall (fun s => 0 <= sr_start s <= sr_end s /\ sr_end s < U64_MAX
                   /\ (is_recent sel = true -> pre <= sr_start s)) shards ->
  exists commands,
    collect (map (fun s => command_ranges s sel pre) shards) = Ok commands
    /\ Forall (fun c => c <> []) commands
    /\ List.concat (map (command_blocks pre) (List.concat commands))
       = List.concat (map shard_blocks shards).
Proof.
  intros Hp. induction shards as [|s shards IH]; intros Hf; [by exists []|].
  apply Forall_cons in Hf as [(Hb & Hm & Hr) Hf].
  destruct (IH Hf) as (commands & Ec & Hn & Hcov).
  destruct (command_ranges_total s sel pre Hb Hp Hm Hr) as [ranges Er].
  destruct (command_ranges_spec s sel pre ranges Hb Hp Er) as [Hs _].
  exists (ranges :: commands). simpl. rewrite Er, Ec. split_and!; [done | |].
  - constructor; [|done]. intros ->. simpl in Hs. apply (f_equal length) in Hs.
    unfold shard_blocks in Hs. rewrite length_seqZ in Hs. simpl in Hs. lia.
  - rewrite map_app, concat_app, Hcov. by rewrite Hs.
Qed.

(** a range is cut into [min requested count] shards, numbered from zero,
    whose blocks in order are exactly the blocks of the range; shard sizes
    differ by at most one.  The cut never fails on a non-empty range. *)
Theorem partition_exact_balanced (range : InclusiveRange) (requested : Z) :
  ir_start range <= ir_end range -> 0 < requested ->
  exists shards, partition range requested = Ok shards
    /\ List.concat (map shard_blocks shards) = blocks range
    /\ map sr_index shards
       = seqZ 0 (Z.min requested (ir_end range - ir_start range + 1))
    /\ forall s t, s ∈ shards -> t ∈ shards ->
         Z.abs ((sr_end s - sr_start s) - (sr_end t - sr_start t)) <= 1.
Proof.
  intros Hle Hr. destruct (partition_spec range requested Hle Hr) as (shards & E & Hc & Hi & Hf).
  exists shards. split_and!; try done. rewrite Forall_forall in Hf.
  intros s t Hs Ht. pose proof (Hf s Hs). pose proof (Hf t Ht). lia.
Qed.
Lemma partition_exact_balanced_witness :
  exists shards, partition {| ir_start := 3; ir_end := 12 |} 4 = Ok shards
    /\ List.concat (map shard_blocks shards) = blocks {| ir_start := 3; ir_end := 12 |}
    /\ map sr_index shards = seqZ 0 (Z.min 4 (12 - 3 + 1))
    /\ forall s t, s ∈ shards -> t ∈ shards ->
         Z.abs ((sr_end s - sr_start s) - (sr_end t - sr_start t)) <= 1.
Proof. apply (partition_exact_balanced {| ir_start := 3; ir_end := 12 |} 4); simpl; lia. Defined.

(** A resolved execution plan validates every selected block exactly once:
    its range is cut into exactly [re_shard_count] shards, each shard has
    trusted commands, and the global blocks these commands visit, in shard and
    command order, are the blocks of the resolved range.  The plan stays inside
    the operator's shard and concurrency ceilings. *)
Theorem execution_plan_covers sel obs target ms mc plan :
  (forall r, sel = Sel_Range r -> 0 <= ir_start r) ->
  resolve_execution_plan sel obs target ms mc = Ok plan ->
  1 <= re_max_concurrency plan <= re_shard_count plan
  /\ re_shard_count plan <= ms /\ re_max_concurrency plan <= mc
  /\ exists shards commands,
       partition (re_range plan) (re_shard_count plan) = Ok shards
       /\ Z.of_nat (length shards) = re_shard_count plan
       /\ collect (map (fun s => command_ranges s sel (oi_pre_nakamoto_count obs)) shards)
          = Ok commands
       /\ Forall (fun c => c <> []) commands
       /\ List.concat (map (command_blocks (oi_pre_nakamoto_count obs)) (List.concat commands))
          = blocks (re_range plan).
Proof.
  intros Hr Hp. destruct (resolve_execution_plan_ok _ _ _ _ _ _ Hr Hp)
    as [Hpre Hnaka Htot Hrg Hrec _ _ Hsh _ Hcc].
  split_and!; try lia.
  destruct (partition_spec (re_range plan) (re_shard_count plan)) as (shards & E & Hc & Hi & Hf);
    [lia | lia |].
  rewrite Z.min_l in Hi, Hf by lia.
  assert (Hne : Forall (fun s => 1 <= sr_end s - sr_start s + 1) shards).
  { eapply Forall_impl; [exact Hf|]. intros s Hs. cbv beta in Hs.
    assert (1 <= (ir_end (re_range plan) - ir_start (re_range plan) + 1) / re_shard_count plan)
      by (apply Z.div_le_lower_bound; lia). lia. }
  pose proof (shards_within _ _ _ Hc Hne) as Hw.
  destruct (commands_cover shards sel (oi_pre_nakamoto_count obs)) as (commands & Ec & Hn & Hcov).
  { done. }
  { apply Forall_forall. intros s Hs. rewrite Forall_forall in Hw, Hne.
    specialize (Hw s Hs). specialize (Hne s Hs). cbv beta in *.
    split_and!; try lia. intros Hre. specialize (Hrec Hre). lia. }
  exists shards, commands. split_and!; try done.
  - apply (f_equal length) in Hi. rewrite length_map, length_seqZ in Hi. lia.
  - by rewrite Hcov.
Qed.
Lemma execution_plan_covers_witness :
  exists plan, resolve_execution_plan Sel_Full
      {| oi_pre_nakamoto_count := 5; oi_nakamoto_count := 6 |} 4 8 2 = Ok plan
    /\ re_shard_count plan = 3
    /\ exists shards commands,
       partition (re_range plan) (re_shard_count plan) = Ok shards
       /\ Z.of_nat (length shards) = re_shard_count plan
       /\ collect (map (fun s => command_ranges s Sel_Full 5) shards) = Ok commands
       /\ Forall (fun c => c <> []) commands
       /\ List.concat (map (command_blocks 5) (List.concat commands)) = blocks (re_range plan).
Proof.
  eexists. split; [reflexivity|]. split; [reflexivity|].
  apply (execution_plan_covers Sel_Full
    {| oi_pre_nakamoto_count := 5; oi_nakamoto_count := 6 |} 4 8 2); [done | reflexivity].
Defined.

Lemma expected_range_bounds payload obs total range :
  0 < oi_pre_nakamoto_count obs -> 0 < oi_nakamoto_count obs ->
  total = oi_pre_nakamoto_count obs + oi_nakamoto_count obs ->
  (forall n, bv_selection payload = Sel_Recent n -> 0 <= n) ->
  expected_range payload obs total = Ok range ->
  ir_start range <= ir_end range < total.
Proof.
  intros Hp Hn -> Hr. unfold expected_range. destruct (bv_selection payload) as [n| |r].
  - specialize (Hr n eq_refl). destruct (Z.eqb_spec n 0); [done|]. intros [= <-]. simpl. lia.
  - intros [= <-]. simpl. lia.
  - destruct (Z.ltb_spec (ir_end r) (ir_start r)); simpl; [done|].
    destruct (Z.leb_spec (oi_pre_nakamoto_count obs + oi_nakamoto_count obs) (ir_end r));
      simpl; [done|]. intros [= <-]. lia.
Qed.

Lemma expected_segments_local range pre :
  Forall (fun s => let offset := match vs_epoch s with PreNakamoto => 0 | Nakamoto => pre end in
     ir_start (vs_global_range s) = ir_start (vs_local_range s) + offset
     /\ ir_end (vs_global_range s) = ir_end (vs_local_range s) + offset)
    (expected_segments range pre).
Proof.
  unfold expected_segments. apply Forall_app; split; case_match; repeat constructor; simpl; lia.
Qed.

(** a worker's block-validation result that the daemon accepts accounts
    for every block: the global ranges of its epoch segments, in order, are
    exactly the blocks of the resolved range (no gap, no overlap), each local
    range is its global range counted from the start of the epoch, the checked
    count is the number of blocks, the range lies inside the observed coverage,
    and every reported invalid block names an existing shard. *)
Theorem accepted_result_accounts_for_blocks payload res :
  0 <= oi_pre_nakamoto_count (br_observed res) -> 0 <= oi_nakamoto_count (br_observed res) ->
  (forall n, bv_selection payload = Sel_Recent n -> 0 <= n) ->
  validate_block_validation_result payload res = Ok tt ->
  List.concat (map (fun s => blocks (vs_global_range s)) (br_segments res))
    = blocks (br_resolved_range res)
  /\ Forall (fun s => let offset := match vs_epoch s with
                        | PreNakamoto => 0
                        | Nakamoto => oi_pre_nakamoto_count (br_observed res) end in
        ir_start (vs_global_range s) = ir_start (vs_local_range s) + offset
        /\ ir_end (vs_global_range s) = ir_end (vs_local_range s) + offset) (br_segments res)
  /\ br_checked_blocks res = Z.of_nat (length (blocks (br_resolved_range res)))
  /\ ir_end (br_resolved_range res)
     < oi_pre_nakamoto_count (br_observed res) + oi_nakamoto_count (br_observed res)
  /\ Forall (fun b => ib_shard b < br_shard_count res) (br_invalid_blocks res).
Proof.
  intros Hp Hn Hrec. unfold validate_block_validation_result, ok_or.
  destruct (reject_if _ _ _) as [[]|] eqn:E1; [|done]. apply reject_if_Ok in E1. bool_hyps.
  destruct (checked_add_u64 _ _) as [total|] eqn:Et; [|done].
  apply checked_add_u64_Some in Et as [-> Ht].
  destruct (reject_if _ _ _) as [[]|] eqn:E2; [|done]. clear E2.
  destruct (expected_range _ _ _) as [range|] eqn:Er; [|done].
  apply expected_range_bounds in Er; [|lia|lia|done|done].
  destruct (reject_if _ _ _) as [[]|] eqn:E3; [|done]. apply reject_if_Ok in E3. bool_hyps.
  destruct (reject_if _ _ _) as [[]|] eqn:E4; [|done]. apply reject_if_Ok in E4. bool_hyps.
  unfold checked_sub_u64. rewrite (proj2 (Z.leb_le _ _)) by lia.
  destruct (checked_add_u64 _ 1) as [n|] eqn:Ec; [|done].
  apply checked_add_u64_Some in Ec as [-> _].
  intros E5%reject_if_Ok. bool_hyps.
  rewrite E3, E4. split_and!.
  - apply expected_segments_cover. lia.
  - apply expected_segments_local.
  - unfold blocks. rewrite length_seqZ. lia.
  - lia.
  - apply existsb_false_Forall in H2. eapply Forall_impl; [exact H2|]. intros b Hb.
    cbv beta in Hb. lia.
Qed.
Lemma accepted_result_accounts_for_blocks_witness :
  let payload := {| bv_selection := Sel_Range {| ir_start := 3; ir_end := 7 |};
                    bv_timeout_secs := 60 |} in
  let g := {| ir_start := 3; ir_end := 4 |} in
  let res := {| br_valid := true; br_checked_blocks := 5; br_invalid_blocks := [];
    br_chainstate_origin := lit "vg/chainstate";
    br_observed := {| oi_pre_nakamoto_count := 5; oi_nakamoto_count := 6 |};
    br_resolved_range := {| ir_start := 3; ir_end := 7 |};
    br_segments := [{| vs_epoch := PreNakamoto; vs_global_range := g; vs_local_range := g |};
      {| vs_epoch := Nakamoto; vs_global_range := {| ir_start := 5; ir_end := 7 |};
         vs_local_range := {| ir_start := 0; ir_end := 2 |} |}];
    br_shard_count := 2; br_max_concurrency := 1 |} in
  validate_block_validation_result payload res = Ok tt
  /\ br_checked_blocks res = Z.of_nat (length (blocks (br_resolved_range res))).
Proof.
  intros payload g res. split; [reflexivity|].
  apply (accepted_result_accounts_for_blocks payload res); [simpl; lia .. | done | reflexivity].
Defined.
End Properties.
