(* ===== verification/BlockReduce.v ===== *)
(** * Block-validation result reduction

    The reducing half of crates/sbgh-libvirt/src/libvirt/block_validation.rs
    ([reduce_result] and the parsers of [stacks-inspect] output) and the guarded
    reads of guest_file.rs.  The guest's result share is a map from paths to
    nodes; symbolic-link resolution ([canonicalize]), the JSON parser of the
    manifest and the JSON pretty-printer are parameters. *)
From stdpp Require Import base list strings gmap.
From Stdlib Require Import ZArith Lia.
From S2P Require Import Prelude RustStr Json FleetModel Negotiation Validate BlockPlan.

Local Open Scope Z_scope.

Definition RESULT_SCHEMA_VERSION : Z := 3.
Definition MAX_RESULT_MANIFEST_BYTES : Z := 1024 * 1024.
Definition MAX_SHARD_DIAGNOSTIC_BYTES : Z := 64 * 1024 * 1024.

(** ** Plans and guest results *)
Record PlanDevice := { pd_shard : Z; pd_serial : rstr; pd_mountpoint : rstr }.

Record BlockGuestPlan := {
  gp_schema_version : Z;
  gp_job_id : rstr;
  gp_attempt_id : rstr;
  gp_fencing_generation : Z;
  gp_commit : rstr;
  gp_chainstate_origin : rstr;
  gp_selection : BlockValidationSelection;
  gp_target_blocks_per_shard : Z;
  gp_max_shards : Z;
  gp_max_concurrency : Z;
  gp_timeout_secs : Z;
  gp_mount_options : list rstr;
  gp_devices : list PlanDevice
}.

(** lvm.rs: the snapshots of one attempt. *)
Record ShardSnapshot := { ss_shard : Z; ss_serial : rstr }.
Record ChainstateSnapshotSet := { cs_origin : rstr; cs_snapshots : list ShardSnapshot }.

(** Zero-padding to four digits. *)
Definition pad4 (s : rstr) : rstr := replicate (4 - length s) 48 ++ s.

(** [BlockGuestPlan::new]. *)
Definition BlockGuestPlan_new (job_id attempt_id : rstr) (fencing_generation : Z) (commit : rstr)
    (spec : BlockValidationPayload) (snapshots : ChainstateSnapshotSet)
    (target_blocks_per_shard max_shards max_concurrency : Z) (mount_options : list rstr)
  : result BlockGuestPlan PlanError :=
  let n := Z.of_nat (length (cs_snapshots snapshots)) in
  check (negb (n =? 0) && (n <=? max_shards)) "snapshot count is outside the local shard ceiling" ;?
  check (0 <? target_blocks_per_shard) "target blocks per shard must be non-zero" ;?
  check ((0 <? max_concurrency) && (max_concurrency <=? max_shards))
    "invalid concurrency ceiling" ;?
  Ok {| gp_schema_version := RESULT_SCHEMA_VERSION; gp_job_id := job_id;
        gp_attempt_id := attempt_id; gp_fencing_generation := fencing_generation;
        gp_commit := commit; gp_chainstate_origin := cs_origin snapshots;
        gp_selection := bv_selection spec;
        gp_target_blocks_per_shard := target_blocks_per_shard;
        gp_max_shards := max_shards; gp_max_concurrency := max_concurrency;
        gp_timeout_secs := bv_timeout_secs spec; gp_mount_options := mount_options;
        gp_devices := map (fun s => {| pd_shard := ss_shard s; pd_serial := ss_serial s;
            pd_mountpoint := lit "/var/lib/sbgh-chainstate/shard-" ++ pad4 (show (ss_shard s)) |})
          (cs_snapshots snapshots) |}.

Record GuestProbe := {
  gb_ordinal : Z;
  gb_kind : ValidationCommandKind;
  gb_argv : list rstr;
  gb_exit_code : Z;
  gb_stdout_file : rstr;
  gb_stderr_file : rstr
}.

Record GuestCommand := {
  gc_ordinal : Z;
  gc_kind : ValidationCommandKind;
  gc_start : Z;
  gc_end_exclusive : Z;
  gc_argv : list rstr;
  gc_exit_code : Z;
  gc_stdout_file : rstr;
  gc_stderr_file : rstr
}.

Record GuestShard := {
  gs_index : Z;
  gs_start : Z;
  gs_end : Z;
  gs_commands : list GuestCommand
}.

Record GuestResult := {
  gr_schema_version : Z;
  gr_job_id : rstr;
  gr_attempt_id : rstr;
  gr_fencing_generation : Z;
  gr_chainstate_origin : rstr;
  gr_selection : BlockValidationSelection;
  gr_observed : ObservedValidationIndex;
  gr_resolved_range : InclusiveRange;
  gr_segments : list ValidationEpochSegment;
  gr_shard_count : Z;
  gr_max_concurrency : Z;
  gr_probes : list GuestProbe;
  gr_shards : list GuestShard
}.

Record ExpectedProbe := {
  ep_ordinal : Z;
  ep_kind : ValidationCommandKind;
  ep_argv : list rstr;
  ep_stdout_file : rstr;
  ep_stderr_file : rstr;
  ep_count : Z
}.

(** The typed output has the fields of the wire's [BlockValidationResult]. *)
Record ReducedBlockResult := {
  rb_output : BlockValidationResult;
  rb_artifacts : list rstr
}.

(** ** Parsers of [stacks-inspect] output *)

(** [parse_probe_count]: the last word is the count. *)
Definition parse_probe_count (stdout : rstr) : result Z PlanError :=
  let? w := context (last (split_whitespace stdout)) "probe output is empty" in
  context (parse_u64 w) "probe output does not end with an unsigned count".

Definition line_break (c : Z) : bool := (c =? 13) || (c =? 10).

(** One segment of [parse_terminal_progress_count]: [None] when it carries no
    terminal progress. *)
Definition terminal_progress_segment (segment : rstr) : result (option Z) PlanError :=
  match split_once (lit "Validating: 100% (") segment with
  | None => Ok None
  | Some (_, remainder) =>
      let? counts := context (fst <$> split_once (lit ")") remainder)
                     "malformed terminal validation progress" in
      let? ct := context (split_once (lit "/") counts)
                   "malformed terminal validation progress count" in
      let? completed := context (parse_u64 (trim ct.1)) "invalid completed-block count" in
      let? total := context (parse_u64 (trim ct.2)) "invalid total-block count" in
      check (completed =? total) "terminal validation progress is incomplete" ;?
      Ok (Some total)
  end.

Fixpoint terminal_progress_loop (segments : list rstr) (count : option Z)
  : result (option Z) PlanError :=
  match segments with
  | [] => Ok count
  | segment :: rest =>
      let? found := terminal_progress_segment segment in
      terminal_progress_loop rest (match found with Some _ => found | None => count end)
  end.

(** [parse_terminal_progress_count]. *)
Definition parse_terminal_progress_count (stdout : rstr) : result Z PlanError :=
  let? count := terminal_progress_loop (split line_break stdout) None in
  context count "terminal validation progress is absent".

Definition success_segment (segment : rstr) : option Z :=
  match split_once (lit "Finished validating ") segment with
  | None => None
  | Some (_, remainder) =>
      match split_once (lit " blocks in ") remainder with
      | None => None
      | Some (count, _) => parse_u64 (trim count)
      end
  end.

(** [parse_success_count]: the last segment that reports success. *)
Definition parse_success_count (stdout : rstr) : option Z :=
  last (omap success_segment (split line_break stdout)).

Definition explicit_validation_failure (stdout stderr : rstr) : bool :=
  existsb (contains (lit "Failed processing block")) (lines stdout ++ lines stderr).

(** [parse_invalid_block_line]. *)
Definition parse_invalid_block_line (shard : Z) (line : rstr) : option InvalidBlock :=
  match split_once (lit "Failed processing block") (trim line) with
  | None => None
  | Some (_, rest) =>
      let rest := trim_start_matches (fun c => (c =? 58) || (c =? 32) || (c =? 35)) rest in
      if is_empty rest then None
      else
        let '(block, reason) :=
          match strip_prefix (lit "! block = ") rest with
          | Some canonical =>
              match split_once (lit ", error = ") canonical with
              | Some (block, error) => (block, trim error)
              | None =>
                  match split_once (lit ". Unexpected cost.") canonical with
                  | Some (block, detail) => (block, lit "Unexpected cost. " ++ trim detail)
                  | None => (canonical, lit "block validation failed")
                  end
              end
          | None =>
              match split_once (lit ":") rest with
              | Some (block, reason) => (block, trim reason)
              | None => (rest, lit "block validation failed")
              end
          end in
        let block := trim_end_matches (fun c => (c =? 44) || (c =? 46)) (trim block) in
        if is_empty block then None
        else Some {| ib_shard := shard; ib_block := block; ib_reason := reason |}
  end.

(** [parse_invalid_blocks]. *)
Definition parse_invalid_blocks (shard : Z) (stdout stderr : rstr) : list InvalidBlock :=
  omap (parse_invalid_block_line shard) (lines stdout ++ lines stderr).

(** ** Guarded reads (guest_file.rs) *)
Inductive FsNode := Regular (content : list Z) | SymlinkNode | OtherNode.
(** The share: directory entries by absolute path. *)
Record Fs := { fs_nodes : list (rstr * FsNode) }.

Definition fs_lookup (fs : Fs) (path : rstr) : option FsNode :=
  snd <$> find_first (fun entry => rstr_eqb entry.1 path) (fs_nodes fs).
Definition fs_remove (fs : Fs) (path : rstr) : Fs :=
  {| fs_nodes := List.filter (fun entry => negb (rstr_eqb entry.1 path)) (fs_nodes fs) |}.
Definition fs_create (fs : Fs) (path : rstr) (content : list Z) : Fs :=
  {| fs_nodes := (path, Regular content) :: fs_nodes fs |}.

Definition path_join (root name : rstr) : rstr := root ++ [47] ++ name.

(** [open_regular]: the final component is not followed, and must be a file. *)
Definition open_regular (fs : Fs) (path : rstr) : result (list Z) PlanError :=
  match fs_lookup fs path with
  | Some (Regular content) => Ok content
  | Some SymlinkNode => Err (Failed "too many levels of symbolic links")
  | Some OtherNode => Err (Failed "guest output is not a regular file")
  | None => Err (Failed "no such file")
  end.

(** [Read::take]: at most [n] bytes of the reader. *)
Fixpoint take_bytes (n : Z) (content : list Z) : list Z :=
  match content with
  | [] => []
  | byte :: rest => if n <=? 0 then [] else byte :: take_bytes (n - 1) rest
  end.

(** [read_bounded]. *)
Definition read_bounded (fs : Fs) (path : rstr) (max_bytes : Z) : result (list Z) PlanError :=
  let? content := open_regular fs path in
  let bytes := take_bytes (saturating_add_u64 max_bytes 1) content in
  check (Z.of_nat (length bytes) <=? max_bytes) "guest output exceeds the byte bound" ;?
  Ok bytes.

(** [read_to_string_bounded]. *)
Definition read_to_string_bounded (fs : Fs) (path : rstr) (max_bytes : Z)
  : result rstr PlanError :=
  let? bytes := read_bounded fs path max_bytes in
  context (from_utf8 bytes) "invalid utf-8 sequence".

(** [shards.sort_by_key(|shard| shard.index)]: a stable sort. *)
Fixpoint insert_shard (s : GuestShard) (l : list GuestShard) : list GuestShard :=
  match l with
  | [] => [s]
  | x :: rest => if gs_index s <=? gs_index x then s :: l else x :: insert_shard s rest
  end.
Definition sort_shards (l : list GuestShard) : list GuestShard := foldr insert_shard [] l.

Section Reduce.
(** Absolute path with symbolic links resolved, as its components. *)
Variable canonicalize : Fs -> rstr -> option (list rstr).
(** serde_json's parser of the manifest and its pretty-printer. *)
Variable parse_manifest : list Z -> option GuestResult.
Variable pretty_json : list InvalidBlock -> list Z.

(** [verify_beneath]. *)
Definition verify_beneath (fs : Fs) (root path : rstr) : result unit PlanError :=
  let? root := context (canonicalize fs root) "canonicalizing results root" in
  let? resolved := context (canonicalize fs path) "canonicalizing guest output" in
  check (bool_decide (root `prefix_of` resolved)) "guest output escapes results root" ;?
  open_regular fs path ;? Ok tt.

(** [safe_result_file]. *)
Definition safe_result_file (fs : Fs) (root name : rstr) : result rstr PlanError :=
  check (negb (is_empty name) && negb (existsb (Z.eqb 47) name)
         && negb (existsb (Z.eqb 92) name)
         && negb (rstr_eqb name [46]) && negb (rstr_eqb name [46; 46]))
    "guest result contains an unsafe artifact filename" ;?
  let path := path_join root name in
  verify_beneath fs root path ;?
  Ok path.

(** The two probes the trusted plan expects. *)
Definition expected_probes (database : rstr) (observed : ObservedValidationIndex)
  : list ExpectedProbe :=
  map (fun '(ordinal, (kind, count)) =>
         {| ep_ordinal := Z.of_nat ordinal; ep_kind := kind;
            ep_argv := inspect_argv database kind;
            ep_stdout_file := lit "probe-" ++ ValidationCommandKind_as_str kind
                              ++ lit ".stdout.log";
            ep_stderr_file := lit "probe-" ++ ValidationCommandKind_as_str kind
                              ++ lit ".stderr.log";
            ep_count := count |})
    (enumerate [(IndexRange, oi_pre_nakamoto_count observed);
                (NakaIndexRange, oi_nakamoto_count observed)]).

(** The loop body of [verify_probes]. *)
Definition verify_probe (fs : Fs) (results_dir : rstr) (probe : GuestProbe)
    (expected : ExpectedProbe) : result (list rstr) PlanError :=
  check ((gb_ordinal probe =? ep_ordinal expected)
         && bool_decide (gb_kind probe = ep_kind expected)
         && bool_decide (gb_argv probe = ep_argv expected)
         && rstr_eqb (gb_stdout_file probe) (ep_stdout_file expected)
         && rstr_eqb (gb_stderr_file probe) (ep_stderr_file expected))
    "guest probe does not match the trusted argv" ;?
  let? stdout := safe_result_file fs results_dir (gb_stdout_file probe) in
  let? stderr := safe_result_file fs results_dir (gb_stderr_file probe) in
  let? stdout_text := read_to_string_bounded fs stdout MAX_SHARD_DIAGNOSTIC_BYTES in
  let? stderr_text := read_to_string_bounded fs stderr MAX_SHARD_DIAGNOSTIC_BYTES in
  check (gb_exit_code probe =? 0) "stacks-inspect probe infrastructure failure" ;?
  let? reported := parse_probe_count stdout_text in
  check (reported =? ep_count expected) "stacks-inspect probe count mismatch" ;?
  Ok [stdout; stderr].

(** [verify_probes]. *)
Definition verify_probes (fs : Fs) (results_dir : rstr) (plan : BlockGuestPlan)
    (res : GuestResult) : result (list rstr) PlanError :=
  let? device := context (find_first (fun d => pd_shard d =? 0) (gp_devices plan))
                   "trusted plan is missing probe shard device zero" in
  let expected := expected_probes (database_path (pd_mountpoint device)) (gr_observed res) in
  check (length (gr_probes res) =? length expected)%nat
    "guest probe count does not match the trusted plan" ;?
  let? files := collect (map (fun '(p, e) => verify_probe fs results_dir p e)
                           (combine (gr_probes res) expected)) in
  Ok (List.concat files).

(** Accumulators of the shard loop. *)
Record ReduceState := {
  rd_invalid : list InvalidBlock;
  rd_checked : Z;
  rd_negative : bool;
  rd_artifacts : list rstr
}.

Definition command_matches (command : GuestCommand) (expected : ExpectedCommand) : bool :=
  (gc_ordinal command =? ec_ordinal expected)
  && bool_decide (gc_kind command = ec_kind expected)
  && (gc_start command =? ec_start expected)
  && (gc_end_exclusive command =? ec_end_exclusive expected)
  && bool_decide (gc_argv command = ec_argv expected)
  && rstr_eqb (gc_stdout_file command) (ec_stdout_file expected)
  && rstr_eqb (gc_stderr_file command) (ec_stderr_file expected).

(** The body of the command loop of [reduce_result]. *)
Definition reduce_command (fs : Fs) (results_dir : rstr) (shard : Z)
    (command : GuestCommand) (expected : ExpectedCommand) (st : ReduceState)
  : result ReduceState PlanError :=
  check (command_matches command expected)
    "guest shard command does not match the trusted argv and range" ;?
  let? stdout := safe_result_file fs results_dir (gc_stdout_file command) in
  let? stderr := safe_result_file fs results_dir (gc_stderr_file command) in
  let? stdout_text := read_to_string_bounded fs stdout MAX_SHARD_DIAGNOSTIC_BYTES in
  let? stderr_text := read_to_string_bounded fs stderr MAX_SHARD_DIAGNOSTIC_BYTES in
  check ((gc_exit_code command =? 0) || (gc_exit_code command =? 1))
    "stacks-inspect shard command infrastructure failure" ;?
  let? expected_count :=
    context (checked_sub_u64 (gc_end_exclusive command) (gc_start command))
      "trusted command range is reversed" in
  let? reported_count := parse_terminal_progress_count stdout_text in
  check (reported_count =? expected_count) "processed-block count mismatch" ;?
  let? verdict :=
    (if gc_exit_code command =? 0 then
       check (bool_decide (parse_success_count stdout_text = Some reported_count))
         "success summary does not match its processed-block count" ;?
       Ok (rd_negative st, rd_invalid st)
     else if explicit_validation_failure stdout_text stderr_text then
       let parsed := parse_invalid_blocks shard stdout_text stderr_text in
       check (negb (bool_decide (parsed = [])))
         "negative shard command reported no typed invalid-block details" ;?
       Ok (true, rd_invalid st ++ parsed)
     else Err (Panicked "non-validation exit codes are rejected above")) in
  let? checked := context (checked_add_u64 (rd_checked st) reported_count)
                    "checked-block count overflow" in
  Ok {| rd_invalid := verdict.2; rd_checked := checked; rd_negative := verdict.1;
        rd_artifacts := rd_artifacts st ++ [stdout; stderr] |}.

Fixpoint reduce_commands (fs : Fs) (results_dir : rstr) (shard : Z)
    (pairs : list (GuestCommand * ExpectedCommand)) (st : ReduceState)
  : result ReduceState PlanError :=
  match pairs with
  | [] => Ok st
  | (command, expected) :: rest =>
      let? st' := reduce_command fs results_dir shard command expected st in
      reduce_commands fs results_dir shard rest st'
  end.

(** The body of the shard loop. *)
Definition reduce_shard (fs : Fs) (results_dir : rstr) (plan : BlockGuestPlan)
    (pre_nakamoto_count : Z) (shard : GuestShard) (expected : ShardRange) (st : ReduceState)
  : result ReduceState PlanError :=
  check ((gs_index shard =? sr_index expected) && (gs_start shard =? sr_start expected)
         && (gs_end shard =? sr_end expected))
    "guest shard ranges are not an exact, gap-free partition" ;?
  let? device := context (find_first (fun d => pd_shard d =? gs_index shard) (gp_devices plan))
                   "trusted plan is missing a shard device" in
  let? expected_cmds :=
    expected_commands expected (gp_selection plan) pre_nakamoto_count (pd_mountpoint device) in
  check (length (gs_commands shard) =? length expected_cmds)%nat
    "guest shard command count does not match the trusted plan" ;?
  reduce_commands fs results_dir (gs_index shard)
    (combine (gs_commands shard) expected_cmds) st.

Fixpoint reduce_shards (fs : Fs) (results_dir : rstr) (plan : BlockGuestPlan)
    (pre_nakamoto_count : Z) (pairs : list (GuestShard * ShardRange)) (st : ReduceState)
  : result ReduceState PlanError :=
  match pairs with
  | [] => Ok st
  | (shard, expected) :: rest =>
      let? st' := reduce_shard fs results_dir plan pre_nakamoto_count shard expected st in
      reduce_shards fs results_dir plan pre_nakamoto_count rest st'
  end.

(** Replace a guest-created [invalid-blocks.json] by the host's file. *)
Definition write_invalid_blocks (fs : Fs) (path : rstr) (invalid : list InvalidBlock)
  : result Fs PlanError :=
  let? cleared :=
    match fs_lookup fs path with
    | Some (Regular _) | Some SymlinkNode => Ok (fs_remove fs path)
    | Some OtherNode =>
        Err (Failed "guest-created invalid-block diagnostics entry is not a file")
    | None => Ok fs
    end in
  Ok (fs_create cleared path (pretty_json invalid)).

(** The identity and plan checks at the head of [reduce_result]. *)
Definition check_manifest (plan : BlockGuestPlan) (res : GuestResult)
  : result ResolvedExecutionPlan PlanError :=
  check (gr_schema_version res =? RESULT_SCHEMA_VERSION) "unsupported guest result schema" ;?
  check (rstr_eqb (gr_job_id res) (gp_job_id plan)
         && rstr_eqb (gr_attempt_id res) (gp_attempt_id plan)
         && (gr_fencing_generation res =? gp_fencing_generation plan))
    "guest result attempt identity mismatch" ;?
  check (rstr_eqb (gr_chainstate_origin res) (gp_chainstate_origin plan)
         && bool_decide (gr_selection res = gp_selection plan))
    "guest result task identity mismatch" ;?
  let? resolved := resolve_execution_plan (gp_selection plan) (gr_observed res)
                     (gp_target_blocks_per_shard plan) (gp_max_shards plan)
                     (gp_max_concurrency plan) in
  check (bool_decide (gr_resolved_range res = re_range resolved)
         && bool_decide (gr_segments res = re_segments resolved)
         && (gr_shard_count res =? re_shard_count resolved)
         && (gr_max_concurrency res =? re_max_concurrency resolved))
    "guest result does not match the trusted local planning algorithm" ;?
  Ok resolved.

(** [reduce_result]: the reduced result and the share after the host's own
    diagnostics file was written. *)
Definition reduce_result (fs : Fs) (result_path results_dir : rstr) (plan : BlockGuestPlan)
  : result (ReducedBlockResult * Fs) PlanError :=
  verify_beneath fs results_dir result_path ;?
  let? bytes := read_bounded fs result_path MAX_RESULT_MANIFEST_BYTES in
  let? res := context (parse_manifest bytes) "parsing block-validation guest result" in
  let? resolved := check_manifest plan res in
  let? expected := partition (re_range resolved) (re_shard_count resolved) in
  check (length (gr_shards res) =? length expected)%nat "guest result is partial" ;?
  let? probe_files := verify_probes fs results_dir plan res in
  let? st := reduce_shards fs results_dir plan (oi_pre_nakamoto_count (gr_observed res))
               (combine (sort_shards (gr_shards res)) expected)
               {| rd_invalid := []; rd_checked := 0; rd_negative := false;
                  rd_artifacts := probe_files |} in
  let? trusted := context (checked_count (re_range resolved))
                    "trusted checked-block count overflow" in
  check (rd_checked st =? trusted)
    "reported processed-block counts do not exactly cover the trusted range" ;?
  check (negb (rd_negative st) || negb (bool_decide (rd_invalid st = [])))
    "negative result has no typed invalid-block diagnostics" ;?
  let invalid_path := path_join results_dir (lit "invalid-blocks.json") in
  let? fs' := write_invalid_blocks fs invalid_path (rd_invalid st) in
  Ok ({| rb_output :=
           {| br_valid := negb (rd_negative st); br_checked_blocks := rd_checked st;
              br_invalid_blocks := rd_invalid st;
              br_chainstate_origin := gp_chainstate_origin plan;
              br_observed := gr_observed res; br_resolved_range := re_range resolved;
              br_segments := re_segments resolved;
              br_shard_count := re_shard_count resolved;
              br_max_concurrency := re_max_concurrency resolved |};
         rb_artifacts := rd_artifacts st ++ [result_path; invalid_path] |}, fs').
End Reduce.

(** ** Lemmas on the reducer *)
Definition command_failed (c : GuestCommand) : bool := negb (gc_exit_code c =? 0).
Definition shard_failed (s : GuestShard) : bool := existsb command_failed (gs_commands s).

(** The accumulators agree: a negative verdict comes exactly with typed
    diagnostics, each naming a planned shard. *)
Definition st_ok (k : Z) (st : ReduceState) : Prop :=
  (rd_negative st = negb (bool_decide (rd_invalid st = []))) /\
  Forall (fun b => 0 <= ib_shard b < k) (rd_invalid st).

Section ReduceLemmas.
Variable canonicalize : Fs -> rstr -> option (list rstr).

Lemma parse_invalid_blocks_shard shard stdout stderr :
  Forall (fun b => ib_shard b = shard) (parse_invalid_blocks shard stdout stderr).
Proof.
  unfold parse_invalid_blocks.
  apply Forall_forall. intros b Hb. apply list_elem_of_omap in Hb as (line & _ & Hl).
  unfold parse_invalid_block_line in Hl. by repeat (case_match; try done; simplify_eq).
Qed.

Lemma reduce_command_Ok fs dir shard command expected st st' :
  reduce_command canonicalize fs dir shard command expected st = Ok st' ->
  (gc_exit_code command = 0 /\ rd_negative st' = rd_negative st
   /\ rd_invalid st' = rd_invalid st)
  \/ (gc_exit_code command = 1 /\ rd_negative st' = true
      /\ exists parsed, parsed <> [] /\ rd_invalid st' = rd_invalid st ++ parsed
                        /\ Forall (fun b => ib_shard b = shard) parsed).
Proof.
  unfold reduce_command.
  destruct (check (command_matches _ _) _); [|done].
  destruct (safe_result_file _ _ _ (gc_stdout_file _)) as [po|]; [|done].
  destruct (safe_result_file _ _ _ (gc_stderr_file _)) as [pe|]; [|done].
  destruct (read_to_string_bounded _ po _) as [out|]; [|done].
  destruct (read_to_string_bounded _ pe _) as [err|]; [|done].
  destruct (check (_ || _) _) as [[]|] eqn:Ex; [|done]. apply check_Ok in Ex.
  destruct (context (checked_sub_u64 _ _) _); [|done].
  destruct (parse_terminal_progress_count out); [|done].
  destruct (check (_ =? _) _); [|done].
  destruct (Z.eqb_spec (gc_exit_code command) 0) as [H0|H0].
  - destruct (check _ _); [|done].
    destruct (context _ _); [|done]. intros [= <-]. by left.
  - simpl in Ex. apply Z.eqb_eq in Ex.
    destruct (explicit_validation_failure out err); [|done].
    destruct (check _ _) as [[]|] eqn:Ep; [|done]. apply check_Ok in Ep. bool_hyps.
    destruct (context _ _); [|done]. intros [= <-]. right. simpl.
    repeat split; try done. eexists. repeat split; [exact Ep | apply parse_invalid_blocks_shard].
Qed.

Lemma reduce_command_st fs dir shard command expected st st' k :
  0 <= shard < k ->
  reduce_command canonicalize fs dir shard command expected st = Ok st' ->
  st_ok k st ->
  st_ok k st' /\ rd_negative st' = rd_negative st || command_failed command.
Proof.
  intros Hk Hr [Hn Hf]. unfold command_failed.
  destruct (reduce_command_Ok _ _ _ _ _ _ _ Hr)
    as [(-> & Hneg & Hinv)|(-> & Hneg & parsed & Hne & Hinv & Hs)]; simpl.
  - unfold st_ok. rewrite Hneg, Hinv, orb_false_r. done.
  - unfold st_ok. rewrite Hneg, Hinv, orb_true_r. split; [split|done].
    + rewrite bool_decide_eq_false_2; [done|]. destruct (rd_invalid st); [done|by destruct parsed].
    + apply Forall_app. split; [done|]. eapply Forall_impl; [exact Hs|]. intros b ->. done.
Qed.

Lemma reduce_commands_st fs dir shard pairs st st' k :
  0 <= shard < k ->
  reduce_commands canonicalize fs dir shard pairs st = Ok st' ->
  st_ok k st ->
  st_ok k st' /\ rd_negative st' = rd_negative st || existsb (fun p => command_failed p.1) pairs.
Proof.
  intros Hk. revert st. induction pairs as [|[c e] pairs IH]; intros st; simpl.
  - intros [= <-] ?. by rewrite orb_false_r.
  - destruct (reduce_command _ _ _ _ _ _ _) as [st1|] eqn:Er; [|done].
    intros Hrest Hst. destruct (reduce_command_st _ _ _ _ _ _ _ _ Hk Er Hst) as [Hst1 Hn1].
    destruct (IH _ Hrest Hst1) as [Hst' Hn']. split; [done|].
    by rewrite Hn', Hn1, orb_assoc.
Qed.

Lemma existsb_combine {A B} (p : A -> bool) (l : list A) (m : list B) :
  length l = length m -> existsb (fun x => p x.1) (combine l m) = existsb p l.
Proof.
  revert m. induction l as [|x l IH]; intros [|y m]; simpl; try done. intros [= H].
  by rewrite IH.
Qed.

Lemma reduce_shard_st fs dir plan pre shard expected st st' k :
  0 <= sr_index expected < k ->
  reduce_shard canonicalize fs dir plan pre shard expected st = Ok st' ->
  st_ok k st ->
  st_ok k st' /\ rd_negative st' = rd_negative st || shard_failed shard.
Proof.
  intros Hk. unfold reduce_shard.
  destruct (check _ _) as [[]|] eqn:Em; [|done]. apply check_Ok in Em. bool_hyps.
  destruct (context _ _); [|done].
  destruct (expected_commands _ _ _ _) as [cmds|]; [|done].
  destruct (check (_ =? _)%nat _) as [[]|] eqn:El; [|done]. apply check_Ok in El.
  apply Nat.eqb_eq in El. intros Hr Hst.
  replace (gs_index shard) with (sr_index expected) in Hr by lia.
  destruct (reduce_commands_st _ _ _ _ _ _ _ Hk Hr Hst) as [Hst' Hn].
  split; [done|]. rewrite Hn. unfold shard_failed. by rewrite existsb_combine.
Qed.

Lemma reduce_shards_st fs dir plan pre pairs st st' k :
  Forall (fun p => 0 <= sr_index p.2 < k) pairs ->
  reduce_shards canonicalize fs dir plan pre pairs st = Ok st' ->
  st_ok k st ->
  st_ok k st' /\ rd_negative st' = rd_negative st || existsb (fun p => shard_failed p.1) pairs.
Proof.
  revert st. induction pairs as [|[s e] pairs IH]; intros st Hf; simpl.
  - intros [= <-] ?. by rewrite orb_false_r.
  - inversion Hf as [|? ? Hk Hf']; subst.
    destruct (reduce_shard _ _ _ _ _ _ _ _) as [st1|] eqn:Er; [|done].
    intros Hrest Hst. destruct (reduce_shard_st _ _ _ _ _ _ _ _ _ Hk Er Hst) as [Hst1 Hn1].
    destruct (IH _ Hf' Hrest Hst1) as [Hst' Hn']. split; [done|].
    by rewrite Hn', Hn1, orb_assoc.
Qed.

Lemma insert_shard_perm s l : insert_shard s l ≡ₚ s :: l.
Proof.
  induction l as [|x l IH]; simpl; [done|]. case_match; [done|]. rewrite IH. constructor.
Qed.
Lemma sort_shards_perm l : sort_shards l ≡ₚ l.
Proof. induction l as [|x l IH]; simpl; [done|]. by rewrite insert_shard_perm, IH. Qed.

Lemma existsb_perm {A} (p : A -> bool) (l l' : list A) : l ≡ₚ l' -> existsb p l = existsb p l'.
Proof.
  induction 1; simpl; try congruence. by rewrite !orb_assoc, (orb_comm (p y)).
Qed.

Lemma Forall_combine_r {A B} (P : B -> Prop) (l : list A) (m : list B) :
  Forall P m -> Forall (fun x => P x.2) (combine l m).
Proof.
  revert m. induction l as [|x l IH]; intros [|y m]; simpl; try constructor.
  - by inversion H.
  - apply IH. by inversion H.
Qed.
End ReduceLemmas.

Section ReduceTheory.
Variable canonicalize : Fs -> rstr -> option (list rstr).
Variable parse_manifest : list Z -> option GuestResult.
Variable pretty_json : list InvalidBlock -> list Z.

(** What a successful reduction establishes. *)
Lemma reduce_result_Ok fs path dir plan r fs' :
  (forall range, gp_selection plan = Sel_Range range -> 0 <= ir_start range) ->
  reduce_result canonicalize parse_manifest pretty_json fs path dir plan = Ok (r, fs') ->
  exists bytes res resolved,
    read_bounded fs path MAX_RESULT_MANIFEST_BYTES = Ok bytes
    /\ parse_manifest bytes = Some res
    /\ plan_ok (gp_selection plan) (gr_observed res) (gp_target_blocks_per_shard plan)
         (gp_max_shards plan) (gp_max_concurrency plan) resolved
    /\ br_valid (rb_output r) = negb (existsb shard_failed (gr_shards res))
    /\ br_valid (rb_output r) = bool_decide (br_invalid_blocks (rb_output r) = [])
    /\ Forall (fun b => 0 <= ib_shard b < re_shard_count resolved)
         (br_invalid_blocks (rb_output r))
    /\ checked_count (re_range resolved) = Some (br_checked_blocks (rb_output r))
    /\ br_observed (rb_output r) = gr_observed res
    /\ br_resolved_range (rb_output r) = re_range resolved
    /\ br_segments (rb_output r) = re_segments resolved
    /\ br_shard_count (rb_output r) = re_shard_count resolved
    /\ br_max_concurrency (rb_output r) = re_max_concurrency resolved
    /\ br_chainstate_origin (rb_output r) = gp_chainstate_origin plan.
Proof.
  intros Hsel. unfold reduce_result.
  destruct (verify_beneath _ _ _ _); [|done].
  destruct (read_bounded _ _ _) as [bytes|] eqn:Eb; [|done].
  destruct (parse_manifest bytes) as [res|] eqn:Ep; simpl; [|done].
  destruct (check_manifest plan res) as [resolved|] eqn:Ec; [|done].
  destruct (partition _ _) as [expected|] eqn:Epart; [|done].
  destruct (check (_ =? _)%nat _) as [[]|] eqn:El; [|done]. apply check_Ok, Nat.eqb_eq in El.
  destruct (verify_probes _ _ _ _ _) as [files|]; [|done].
  destruct (reduce_shards _ _ _ _ _ _ _) as [st|] eqn:Er; [|done].
  destruct (context (checked_count _) _) as [trusted|] eqn:Et; [|done].
  destruct (check (_ =? trusted) _) as [[]|] eqn:Ek; [|done]. apply check_Ok, Z.eqb_eq in Ek.
  destruct (check _ _); [|done]. destruct (write_invalid_blocks _ _ _ _); [|done].
  intros [= <- <-]. exists bytes, res, resolved. simpl.
  assert (Hplan : plan_ok (gp_selection plan) (gr_observed res)
    (gp_target_blocks_per_shard plan) (gp_max_shards plan) (gp_max_concurrency plan) resolved).
  { unfold check_manifest in Ec. repeat (destruct (check _ _); [|done]).
    destruct (resolve_execution_plan _ _ _ _ _) eqn:Ere; [|done].
    destruct (check _ _); [|done]. injection Ec as ->.
    by apply resolve_execution_plan_ok. }
  destruct (partition_spec (re_range resolved) (re_shard_count resolved))
    as (shards & Eq & _ & Hidx & _);
    [destruct (po_range _ _ _ _ _ _ Hplan); lia | destruct (po_shards _ _ _ _ _ _ Hplan); lia |].
  assert (shards = expected) as -> by congruence.
  assert (Hin : Forall (fun e => 0 <= sr_index e < re_shard_count resolved) expected).
  { apply Forall_forall. intros e He.
    assert (sr_index e ∈ map sr_index expected) as Hi by (apply list_elem_of_fmap; eauto).
    rewrite Hidx in Hi. apply elem_of_seqZ in Hi. lia. }
  edestruct reduce_shards_st as [[Hv Hf] Hn];
    [by apply Forall_combine_r with (P := fun e => 0 <= sr_index e < re_shard_count resolved)
    | exact Er | by split; [|constructor] |].
  simpl in Hn. rewrite existsb_combine in Hn by (by rewrite sort_shards_perm).
  rewrite (existsb_perm _ _ _ (sort_shards_perm _)) in Hn.
  unfold context, ok_or in Et.
  destruct (checked_count (re_range resolved)) as [t|]; [|done]. injection Et as ->.
  split_and!; try done; congruence || (by rewrite Hv, negb_involutive).
Qed.

Lemma validate_result_of_plan payload sel obs target ms mc plan res :
  plan_ok sel obs target ms mc plan -> bv_selection payload = sel ->
  oi_pre_nakamoto_count obs + oi_nakamoto_count obs <= I64_MAX ->
  br_observed res = obs -> br_resolved_range res = re_range plan ->
  br_segments res = re_segments plan ->
  checked_count (re_range plan) = Some (br_checked_blocks res) ->
  Forall (fun b => 0 <= ib_shard b < br_shard_count res) (br_invalid_blocks res) ->
  validate_block_validation_result payload res = Ok tt.
Proof.
  intros Hp Hsel Htot Hobs Hr Hs Hc Hf.
  destruct Hp as [Hpre Hnaka Ht64 Hrg Hrec Hexp Hseg Hsh Htg Hcc].
  unfold validate_block_validation_result. rewrite Hobs, Hr, Hs.
  rewrite (proj2 (Z.eqb_neq _ 0)), (proj2 (Z.eqb_neq _ 0)) by lia. simpl.
  rewrite (proj2 (checked_add_u64_Some _ _ _)) by (split; [reflexivity | lia]). simpl.
  rewrite (proj2 (Z.ltb_ge _ _)) by lia. simpl.
  rewrite Hexp by done. rewrite bool_decide_eq_true_2 by done. simpl.
  rewrite Hseg. rewrite bool_decide_eq_true_2 by done. simpl.
  unfold checked_count in Hc. destruct (checked_sub_u64 _ _) as [span|]; [|done].
  rewrite Hc. simpl. rewrite Z.eqb_refl. simpl.
  apply reject_if_Ok, existsb_false_Forall. eapply Forall_impl; [exact Hf|].
  intros b Hb. cbv beta in Hb. apply Z.leb_gt. lia.
Qed.

(** Text the protocol carries: not empty, bounded, without control characters. *)
Definition printable (max : Z) (s : rstr) : Prop :=
  s <> [] /\ str_len s <= max /\ Forall (fun c => Char.is_control c = false) s.
Definition reportable (b : InvalidBlock) : Prop := printable 512 (ib_block b) /\ printable 4096 (ib_reason b).
Lemma bounded_printable field s max : bounded field s max false = Ok tt <-> printable max s.
Proof. rewrite bounded_Ok. unfold printable. naive_solver. Qed.
Lemma invalid_block_reportable (b : InvalidBlock) : validate b = Ok tt <-> reportable b.
Proof.
  unfold reportable. rewrite <- (bounded_printable "invalid_block.block"), <- (bounded_printable "invalid_block.reason").
  cbn [validate InvalidBlock_Validate]. unfold validate, InvalidBlock_Validate.
  destruct (bounded "invalid_block.block" _ _ _) as [[]|]; [|split; [done | by intros []]].
  split; [done | by intros []].
Qed.
Lemma invalid_blocks_reportable (l : list InvalidBlock) : for_each validate l = Ok tt <-> Forall reportable l.
Proof. rewrite for_each_Ok. apply Forall_iff. intros b. apply invalid_block_reportable. Qed.

Lemma segments_valid range pre :
  0 < pre -> 0 <= ir_start range <= ir_end range -> ir_end range <= I64_MAX ->
  for_each (fun s => validate (vs_global_range s) ;? validate (vs_local_range s)) (expected_segments range pre) = Ok tt
  /\ (length (expected_segments range pre) =? 0)%nat || (2 <? length (expected_segments range pre))%nat = false.
Proof.
  intros Hpre Hr Hmax.
  assert (Hv : forall r, ir_start r <= ir_end r <= I64_MAX -> validate r = Ok tt).
  { intros r Hle. unfold validate, InclusiveRange_Validate, reject_if.
    rewrite (proj2 (Z.ltb_ge (ir_end r) (ir_start r))), (proj2 (Z.ltb_ge I64_MAX (ir_end r))) by lia. done. }
  unfold expected_segments. destruct (Z.ltb_spec (ir_start range) pre), (Z.leb_spec pre (ir_end range)); try lia;
    cbn [app for_each vs_global_range vs_local_range]; rewrite !Hv by (cbn [ir_start ir_end]; lia); done.
Qed.
(** The completion check of a result that follows the plan. *)
Lemma completed_of_plan sel obs target ms mc plan res :
  plan_ok sel obs target ms mc plan -> ms <= MAX_VALIDATION_SHARDS -> mc <= MAX_VALIDATION_CONCURRENCY ->
  oi_pre_nakamoto_count obs + oi_nakamoto_count obs <= I64_MAX ->
  printable 512 (br_chainstate_origin res) -> br_observed res = obs ->
  br_resolved_range res = re_range plan -> br_segments res = re_segments plan ->
  br_shard_count res = re_shard_count plan -> br_max_concurrency res = re_max_concurrency plan ->
  checked_count (re_range plan) = Some (br_checked_blocks res) ->
  br_valid res = bool_decide (br_invalid_blocks res = []) ->
  validate_completed_block res = Ok tt <->
  Z.of_nat (length (br_invalid_blocks res)) <= MAX_INVALID_BLOCKS /\ Forall reportable (br_invalid_blocks res).
Proof.
  intros [Hpre Hnaka _ Hrg _ _ Hseg Hsh _ Hcc] Hms Hmc Htot Ho Hobs Hr Hs Hsc Hmx Hc Hv.
  destruct (segments_valid (re_range plan) (oi_pre_nakamoto_count obs)) as [Hfe Hlen]; [lia|lia|lia|].
  assert (Hchk : br_checked_blocks res <= I64_MAX).
  { unfold checked_count in Hc. destruct (checked_sub_u64 _ _) as [span|] eqn:E; [|done].
    apply checked_sub_u64_Some in E as [-> ?]. apply checked_add_u64_Some in Hc as [-> _]. lia. }
  unfold validate_completed_block. rewrite (proj2 (bounded_printable _ _ _) Ho), Hobs, Hr, Hs, Hsc, Hmx, Hseg, Hfe.
  unfold validate at 1, InclusiveRange_Validate, reject_if. rewrite Hlen, Hv, eqb_reflx.
  rewrite (proj2 (Z.ltb_ge (ir_end _) (ir_start _))), (proj2 (Z.ltb_ge I64_MAX (ir_end _))),
    !(proj2 (Z.eqb_neq _ 0)), (proj2 (Z.ltb_ge MAX_VALIDATION_SHARDS _)), (proj2 (Z.ltb_ge MAX_VALIDATION_CONCURRENCY _)),
    (proj2 (Z.ltb_ge (re_shard_count _) _)), (proj2 (Z.ltb_ge I64_MAX (br_checked_blocks _))) by lia.
  cbn [orb negb]. destruct (Z.ltb_spec MAX_INVALID_BLOCKS (Z.of_nat (length (br_invalid_blocks res)))) as [Hgt|Hle].
  - split; [done|]. intros [? _]. lia.
  - rewrite invalid_blocks_reportable. tauto.
Qed.
End ReduceTheory.

(** ** Properties *)
Section Properties.
Variable canonicalize : Fs -> rstr -> option (list rstr).
Variable parse_manifest : list Z -> option GuestResult.
Variable pretty_json : list InvalidBlock -> list Z.

(** C38: What the daemon makes of a reduced result.  Every result the worker reduces
    from guest output for the assigned selector passes the daemon's check against that
    selector, as long as the observed chain length fits the durable signed range.  If
    also the origin's name and the local ceilings are those the protocol carries, the
    result passes the validation of the completion exactly when it lists at most
    [MAX_INVALID_BLOCKS] invalid blocks and the name and the reason of each are
    non-empty, bounded and free of control characters; so a positive result always
    passes.  The reducer checks none of this: a guest that reports a block
    without a reason, or with one that is too long, yields a negative result that the
    daemon refuses. *)
Theorem reduced_result_accepted payload fs path dir plan r fs' :
  bv_selection payload = gp_selection plan ->
  (forall range, gp_selection plan = Sel_Range range -> 0 <= ir_start range) ->
  reduce_result canonicalize parse_manifest pretty_json fs path dir plan = Ok (r, fs') ->
  oi_pre_nakamoto_count (br_observed (rb_output r))
    + oi_nakamoto_count (br_observed (rb_output r)) <= I64_MAX ->
  validate_block_validation_result payload (rb_output r) = Ok tt
  /\ (printable 512 (gp_chainstate_origin plan) ->
      gp_max_shards plan <= MAX_VALIDATION_SHARDS -> gp_max_concurrency plan <= MAX_VALIDATION_CONCURRENCY ->
      let invalid := br_invalid_blocks (rb_output r) in
      (validate_completed_block (rb_output r) = Ok tt <->
       Z.of_nat (length invalid) <= MAX_INVALID_BLOCKS /\ Forall reportable invalid)
      /\ (br_valid (rb_output r) = true -> validate_completed_block (rb_output r) = Ok tt)).
Proof.
  intros Hsel Hrange Hr Htot.
  destruct (reduce_result_Ok _ _ _ _ _ _ _ _ _ Hrange Hr)
    as (bytes & res & resolved & _ & _ & Hp & _ & Hv & Hf & Hc & Ho & Hrr & Hs & Hsc & Hmx & Hor).
  rewrite Ho in Htot. split; [rewrite <- Hsc in Hf; by eapply validate_result_of_plan|].
  intros Hpr Hms Hmc invalid. rewrite <- Hor in Hpr.
  assert (Hiff : validate_completed_block (rb_output r) = Ok tt <->
    Z.of_nat (length invalid) <= MAX_INVALID_BLOCKS /\ Forall reportable invalid) by by eapply completed_of_plan.
  split; [exact Hiff|]. intros Hval. apply Hiff. rewrite Hval in Hv. symmetry in Hv.
  apply bool_decide_eq_true in Hv. unfold invalid. rewrite Hv. by split.
Qed.

(** reduction fails closed.  A reduced result is positive exactly when
    every command of every shard of the guest manifest exited with zero, and
    exactly when no invalid block is reported; its counts cover the trusted
    range, and its shard count stays within the plan's ceiling. *)
Theorem reduced_verdict_faithful fs path dir plan r fs' :
  (forall range, gp_selection plan = Sel_Range range -> 0 <= ir_start range) ->
  reduce_result canonicalize parse_manifest pretty_json fs path dir plan = Ok (r, fs') ->
  exists bytes res,
    read_bounded fs path MAX_RESULT_MANIFEST_BYTES = Ok bytes
    /\ parse_manifest bytes = Some res
    /\ (br_valid (rb_output r) = true <->
        Forall (fun s => Forall (fun c => gc_exit_code c = 0) (gs_commands s)) (gr_shards res))
    /\ (br_valid (rb_output r) = true <-> br_invalid_blocks (rb_output r) = [])
    /\ br_checked_blocks (rb_output r)
       = Z.of_nat (length (blocks (br_resolved_range (rb_output r))))
    /\ 1 <= br_shard_count (rb_output r) <= gp_max_shards plan.
Proof.
  intros Hrange Hr. destruct (reduce_result_Ok _ _ _ _ _ _ _ _ _ Hrange Hr)
    as (bytes & res & resolved & Hb & Hm & Hp & Hv & Hv' & _ & Hc & _ & Hrr & _ & Hsc & _).
  exists bytes, res. split_and!; try done.
  - rewrite Hv, negb_true_iff, existsb_false_Forall. apply Forall_iff. intros s.
    unfold shard_failed. rewrite existsb_false_Forall. apply Forall_iff. intros c.
    unfold command_failed. rewrite negb_false_iff. lia.
  - rewrite Hv'. apply bool_decide_eq_true.
  - unfold checked_count in Hc. destruct (checked_sub_u64 _ _) as [span|] eqn:E; [|done].
    apply checked_sub_u64_Some in E as [-> ?]. apply checked_add_u64_Some in Hc as [Hc _].
    rewrite Hrr, Hc. unfold blocks. rewrite length_seqZ. lia.
  - rewrite Hsc. apply (po_shards _ _ _ _ _ _ Hp).
  - rewrite Hsc. apply (po_shards _ _ _ _ _ _ Hp).
Qed.

(** a shard command that reports exit code 1 and complete progress, but
    prints no explicit block failure, drives the reducer into its
    [unreachable!] arm: the guest's output panics the worker task where every
    other malformed output is rejected with an error. *)
Theorem ambiguous_negative_panics fs dir shard command expected st po pe out err count :
  command_matches command expected = true ->
  safe_result_file canonicalize fs dir (gc_stdout_file command) = Ok po ->
  safe_result_file canonicalize fs dir (gc_stderr_file command) = Ok pe ->
  read_to_string_bounded fs po MAX_SHARD_DIAGNOSTIC_BYTES = Ok out ->
  read_to_string_bounded fs pe MAX_SHARD_DIAGNOSTIC_BYTES = Ok err ->
  gc_exit_code command = 1 ->
  checked_sub_u64 (gc_end_exclusive command) (gc_start command) = Some count ->
  parse_terminal_progress_count out = Ok count ->
  explicit_validation_failure out err = false ->
  reduce_command canonicalize fs dir shard command expected st
  = Err (Panicked "non-validation exit codes are rejected above").
Proof.
  intros Hm Hpo Hpe Ho He Hx Hc Hp Hf. unfold reduce_command.
  rewrite Hm, Hpo, Hpe. simpl. rewrite Ho, He. simpl. rewrite Hx, Hc. simpl.
  rewrite Hp. simpl. rewrite Z.eqb_refl. simpl. by rewrite Hf.
Qed.
End Properties.

(** ** A concrete run

    A plan for the two most recent blocks over a coverage of 5 + 6 blocks, a
    share with the manifest, two probes and one shard command. *)
Section Witnesses.
Let dir : rstr := lit "/r".
Let root_of (_ : Fs) (path : rstr) : option (list rstr) := Some (split_char 47 path).
Let print_nothing (_ : list InvalidBlock) : list Z := lit "[]".

Let sample_plan : BlockGuestPlan := {|
  gp_schema_version := 3; gp_job_id := lit "j"; gp_attempt_id := lit "a";
  gp_fencing_generation := 1; gp_commit := lit "c"; gp_chainstate_origin := lit "o";
  gp_selection := Sel_Recent 2; gp_target_blocks_per_shard := 10; gp_max_shards := 4;
  gp_max_concurrency := 2; gp_timeout_secs := 60; gp_mount_options := [];
  gp_devices := [{| pd_shard := 0; pd_serial := lit "s"; pd_mountpoint := lit "/m" |}] |}.
Let observed := {| oi_pre_nakamoto_count := 5; oi_nakamoto_count := 6 |}.
Let range := {| ir_start := 9; ir_end := 10 |}.

Let sample_probe (ordinal : Z) (kind : ValidationCommandKind) : GuestProbe := {|
  gb_ordinal := ordinal; gb_kind := kind; gb_argv := inspect_argv (lit "/m/mainnet") kind;
  gb_exit_code := 0;
  gb_stdout_file := lit "probe-" ++ ValidationCommandKind_as_str kind ++ lit ".stdout.log";
  gb_stderr_file := lit "probe-" ++ ValidationCommandKind_as_str kind ++ lit ".stderr.log" |}.
Let sample_command (exit_code : Z) : GuestCommand := {|
  gc_ordinal := 0; gc_kind := Last; gc_start := 4; gc_end_exclusive := 6;
  gc_argv := inspect_argv (lit "/m/mainnet") Last ++ [lit "2"]; gc_exit_code := exit_code;
  gc_stdout_file := lit "shard-0-command-0.stdout.log";
  gc_stderr_file := lit "shard-0-command-0.stderr.log" |}.
Let sample_result (exit_code : Z) : GuestResult := {|
  gr_schema_version := 3; gr_job_id := lit "j"; gr_attempt_id := lit "a";
  gr_fencing_generation := 1; gr_chainstate_origin := lit "o"; gr_selection := Sel_Recent 2;
  gr_observed := observed; gr_resolved_range := range;
  gr_segments := [{| vs_epoch := Nakamoto; vs_global_range := range;
                     vs_local_range := {| ir_start := 4; ir_end := 5 |} |}];
  gr_shard_count := 1; gr_max_concurrency := 1;
  gr_probes := [sample_probe 0 IndexRange; sample_probe 1 NakaIndexRange];
  gr_shards := [{| gs_index := 0; gs_start := 9; gs_end := 10;
                   gs_commands := [sample_command exit_code] |}] |}.
(** The manifest's bytes stand for themselves: the exit code as one byte. *)
Let manifest (content : list Z) : option GuestResult :=
  match content with [code] => Some (sample_result code) | _ => None end.

Let share (code : Z) (out err : rstr) : Fs := {| fs_nodes :=
  [(lit "/r/result.json", Regular [code]);
   (lit "/r/probe-index-range.stdout.log", Regular (lit "blocks: 5"));
   (lit "/r/probe-index-range.stderr.log", Regular []);
   (lit "/r/probe-naka-index-range.stdout.log", Regular (lit "blocks: 6"));
   (lit "/r/probe-naka-index-range.stderr.log", Regular []);
   (lit "/r/shard-0-command-0.stdout.log", Regular out);
   (lit "/r/shard-0-command-0.stderr.log", Regular err)] |}.
Let progress : rstr := lit "Validating: 100% (2/2)".
Let good := share 0 (progress ++ [10] ++ lit "Finished validating 2 blocks in 3s") [].
Let bad := share 1 progress (lit "Failed processing block! block = 7f, error = bad root").
Let ambiguous := share 1 progress (lit "killed").

(** A guest that names a block without a reason: reduced, and refused. *)
Let reasonless := share 1 progress (lit "Failed processing block 7f:").
Lemma reduced_result_accepted_witness :
  exists r fs' r' fs'',
    reduce_result root_of manifest print_nothing good (lit "/r/result.json") dir sample_plan
    = Ok (r, fs')
    /\ validate_completed_block (rb_output r) = Ok tt
    /\ reduce_result root_of manifest print_nothing reasonless (lit "/r/result.json") dir sample_plan
    = Ok (r', fs'')
    /\ validate_block_validation_result
         {| bv_selection := Sel_Recent 2; bv_timeout_secs := 60 |} (rb_output r') = Ok tt
    /\ ~ validate_completed_block (rb_output r') = Ok tt.
Proof.
  eexists _, _, _, _. split; [vm_compute; reflexivity|]. split; [|split; [vm_compute; reflexivity|]].
  - edestruct (reduced_result_accepted root_of manifest print_nothing
                 {| bv_selection := Sel_Recent 2; bv_timeout_secs := 60 |} good
                 (lit "/r/result.json") dir sample_plan) as [_ Hc];
      [reflexivity | done | vm_compute; reflexivity | vm_compute; done |].
    apply Hc; [split_and!; [done | vm_compute; congruence | by repeat constructor] | vm_compute; congruence | vm_compute; congruence | reflexivity].
  - edestruct (reduced_result_accepted root_of manifest print_nothing
                 {| bv_selection := Sel_Recent 2; bv_timeout_secs := 60 |} reasonless
                 (lit "/r/result.json") dir sample_plan) as [Hsel Hc];
      [reflexivity | done | vm_compute; reflexivity | vm_compute; done |].
    split; [exact Hsel|]. intros Hok. apply Hc in Hok as [_ Hall];
      [|split_and!; [done | vm_compute; congruence | by repeat constructor] | vm_compute; congruence | vm_compute; congruence].
    apply Forall_cons in Hall as [[_ [Hne _]] _]. apply Hne. reflexivity.
Defined.

Lemma reduced_verdict_faithful_witness :
  exists r fs',
    reduce_result root_of manifest print_nothing bad (lit "/r/result.json") dir sample_plan
    = Ok (r, fs')
    /\ br_invalid_blocks (rb_output r)
       = [{| ib_shard := 0; ib_block := lit "7f"; ib_reason := lit "bad root" |}]
    /\ exists bytes res,
      read_bounded bad (lit "/r/result.json") MAX_RESULT_MANIFEST_BYTES = Ok bytes
      /\ manifest bytes = Some res
      /\ (br_valid (rb_output r) = true <->
          Forall (fun s => Forall (fun c => gc_exit_code c = 0) (gs_commands s)) (gr_shards res))
      /\ (br_valid (rb_output r) = true <-> br_invalid_blocks (rb_output r) = [])
      /\ br_checked_blocks (rb_output r)
         = Z.of_nat (length (blocks (br_resolved_range (rb_output r))))
      /\ 1 <= br_shard_count (rb_output r) <= gp_max_shards sample_plan.
Proof.
  eexists _, _. split; [vm_compute; reflexivity|]. split; [reflexivity|].
  eapply (reduced_verdict_faithful root_of manifest print_nothing bad
            (lit "/r/result.json") dir sample_plan); [done | vm_compute; reflexivity].
Defined.

Lemma ambiguous_negative_panics_witness :
  reduce_command root_of ambiguous dir 0 (sample_command 1)
    {| ec_ordinal := 0; ec_kind := Last; ec_start := 4; ec_end_exclusive := 6;
       ec_argv := inspect_argv (lit "/m/mainnet") Last ++ [lit "2"];
       ec_stdout_file := lit "shard-0-command-0.stdout.log";
       ec_stderr_file := lit "shard-0-command-0.stderr.log" |}
    {| rd_invalid := []; rd_checked := 0; rd_negative := false; rd_artifacts := [] |}
  = Err (Panicked "non-validation exit codes are rejected above").
Proof.
  apply (ambiguous_negative_panics root_of ambiguous dir) with
    (po := lit "/r/shard-0-command-0.stdout.log") (pe := lit "/r/shard-0-command-0.stderr.log")
    (out := progress) (err := lit "killed") (count := 2); vm_compute; reflexivity.
Defined.
End Witnesses.
