(* ===== verification/FleetDb.v ===== *)
(** * The fleet database

    The rows the store crates/sbgh-postgres/src/stores/fleet.rs keeps in
    PostgreSQL, one record per table, and the database as finite maps.  Columns
    that no statement updates are grouped in an inner record ([SessionRow],
    [AttemptRow], [JobRow]), so an update can only touch the others.  The audit
    column [updated_at] and [worker_registry.created_at] are not modelled.  Of the
    schema's constraints the model enforces those a statement of the store can
    meet: the [CHECK] and the live-session index of [worker_session], and the
    unique keys and indexes of [worker_attempt] ([insert_attempt] in
    FleetScheduling).

    The numbers of a request that the code casts with [as i64] are cast with
    [as_i64]; the database's own counters (generations, fences, ids) are unbounded
    integers, where PostgreSQL would refuse the increment past [BIGINT].

    A transaction is a function from the database to [result (A * FleetDb)]: a
    rollback returns the database unchanged, an error leaves it unchanged.  The
    transaction's clocks and the rows that a concurrent transaction holds locked
    (those [SKIP LOCKED] passes over) are its environment [TxEnv]. *)
From stdpp Require Import base list strings gmap.
From Stdlib Require Import ZArith Lia.
From S2P Require Import Prelude RustStr Json FleetModel Negotiation Validate.

Local Open Scope Z_scope.

(** ** Statuses *)
Inductive JobStatus := J_Queued | J_Claimed | J_Running | J_Completed | J_Failed | J_Cancelled.
Global Instance JobStatus_eq_dec : EqDecision JobStatus.
Proof. solve_decision. Defined.

Inductive SessionStatus :=
| S_Registered | S_Idle | S_Offered | S_Running | S_Draining | S_Offline | S_Deregistered.
Global Instance SessionStatus_eq_dec : EqDecision SessionStatus.
Proof. solve_decision. Defined.

Inductive AttemptStatus :=
| A_Offered | A_Running | A_CancelRequested | A_Completed | A_Failed | A_Cancelled
| A_Expired | A_Fenced.
Global Instance AttemptStatus_eq_dec : EqDecision AttemptStatus.
Proof. solve_decision. Defined.

Inductive StagingStatus := G_Granted | G_Uploaded | G_Verified | G_Promoted | G_Rejected | G_Reaped.
Global Instance StagingStatus_eq_dec : EqDecision StagingStatus.
Proof. solve_decision. Defined.

Inductive CleanupStatus := C_Pending | C_Completed | C_Abandoned.
Global Instance CleanupStatus_eq_dec : EqDecision CleanupStatus.
Proof. solve_decision. Defined.

(** models.rs: the axes of a job that scheduling reads. *)
Inductive JobSource :=
| Src_GithubWebhook | Src_GithubComment | Src_Slack | Src_Cli | Src_Scheduler | Src_Daemon.
Global Instance JobSource_eq_dec : EqDecision JobSource.
Proof. solve_decision. Defined.
Inductive TaskKind := Kind_Benchmark | Kind_BlockValidation | Kind_BuildOnly.
Global Instance TaskKind_eq_dec : EqDecision TaskKind.
Proof. solve_decision. Defined.
Definition required_capability (k : TaskKind) : WorkerCapability :=
  match k with
  | Kind_Benchmark => Cap_Benchmark
  | Kind_BlockValidation => Cap_BlockValidation
  | Kind_BuildOnly => Cap_BuildOnly
  end.

(** The job events the fleet store writes, and the two kinds that recovery
    copies. *)
Inductive JobEventKind :=
| Ev_Queued | Ev_PlanMessageSent | Ev_Claimed | Ev_PhaseFinished | Ev_Completed | Ev_Failed
| Ev_Cancelled.
Global Instance JobEventKind_eq_dec : EqDecision JobEventKind.
Proof. solve_decision. Defined.
Record JobEvent := {
  je_job : Uuid;
  je_kind : JobEventKind;
  je_success : bool;
  je_remark : option rstr;
  je_detail : option Value
}.

(** Sets of statuses the statements name. *)
Definition attempt_active (s : AttemptStatus) : bool :=
  match s with A_Offered | A_Running | A_CancelRequested => true | _ => false end.
Definition attempt_executing (s : AttemptStatus) : bool :=
  match s with A_Running | A_CancelRequested => true | _ => false end.
Definition attempt_terminal (s : AttemptStatus) : bool :=
  match s with A_Completed | A_Failed | A_Cancelled => true | _ => false end.
Definition session_live (s : SessionStatus) : bool :=
  match s with S_Offline | S_Deregistered => false | _ => true end.
Definition job_terminal (s : JobStatus) : bool :=
  match s with J_Completed | J_Failed | J_Cancelled => true | _ => false end.

(** ** Rows *)
Record Worker := {
  wk_display_name : rstr;
  wk_allowed : gset WorkerCapability;
  wk_profile : option rstr;
  wk_enabled : bool;
  wk_draining : bool;
  wk_shutdown_session : option Uuid;
  wk_lifecycle_generation : Z
}.

Record IdentityKey := { ik_worker : Uuid; ik_revoked_at : option Z }.

Record SessionRow := {
  sr_worker : Uuid;
  sr_protocol_version : Z;
  sr_software_version : rstr;
  sr_advertised : gset WorkerCapability;
  sr_resources : ResourceFacts;
  sr_started_at : Z;
  sr_identity : rstr;
  sr_offer : option ProtocolOffer;
  sr_contract : ProtocolContract;
  sr_preflight : option PreflightReport
}.
Record Session := {
  ws_row : SessionRow;
  ws_status : SessionStatus;
  ws_effective : gset WorkerCapability;
  ws_buffer_len : Z;
  ws_last_heartbeat : Z;
  ws_expires_at : Z;
  ws_ended_at : option Z
}.

Record Submission := {
  sb_required_worker : option Uuid;
  sb_required_profile : option rstr;
  sb_recovery_of : option Uuid;
  sb_execution_generation : Z;
  sb_assigned_worker : option Uuid;
  sb_assigned_profile : option rstr;
  sb_fencing_generation : Z;
  (** The row of [task_submission_slack], when there is one, with its
      [report_message_ts]. *)
  sb_slack : option (option rstr)
}.

Record JobRow := {
  jr_submission : Uuid;
  jr_spec : Uuid;
  jr_run_index : Z;
  jr_capability : WorkerCapability;
  jr_source : JobSource;
  jr_task_kind : TaskKind;
  jr_created_at : Z;
  jr_installation_id : Z;
  jr_repo_id : Z;
  jr_repository : rstr
}.
Record Job := {
  jb_row : JobRow;
  jb_status : JobStatus;
  jb_claim_token : option Uuid;
  jb_claimed_at : option Z;
  jb_commit : option rstr;
  (** [execution_payload] with [execution_payload_hash]: all or none. *)
  jb_payload : option (TaskPayload * rstr)
}.

Record AttemptRow := {
  ar_job : Uuid;
  ar_submission : Uuid;
  ar_worker : Uuid;
  ar_session : Uuid;
  ar_fence : Z;
  ar_execution_generation : Z;
  ar_claim_token : Uuid;
  ar_trace : Uuid;
  ar_capability : WorkerCapability;
  ar_payload_hash : rstr;
  ar_scheduler_generation : Z;
  ar_created_at : Z
}.
(** The terminal columns, null together. *)
Record TerminalRow := {
  tr_reliable_seq : Z;
  tr_payload_digest : rstr;
  tr_outcome : TerminalOutcome;
  tr_artifacts : list ArtifactDescriptor;
  tr_at : Z
}.
Record Attempt := {
  at_row : AttemptRow;
  at_status : AttemptStatus;
  at_offer_expires : Z;
  at_lease_expires : Z;
  at_accepted_at : option Z;
  at_contiguous : Z;
  at_projected : Z;
  at_terminal : option TerminalRow
}.

Record AttemptEvent := {
  ae_trace : Uuid;
  ae_payload : ReliableEventPayload;
  ae_digest : rstr;
  ae_worker_timestamp : Z;
  ae_received_at : Z;
  ae_projected_at : option Z;
  ae_discarded : option rstr
}.

Record AttemptProgress := {
  ap_trace : Uuid;
  ap_update : ProgressUpdate;
  ap_received_at : Z;
  ap_projected_at : option Z;
  ap_discarded : option rstr
}.

(** A staging row; the table's key is the attempt and the object key. *)
Record Staging := {
  sg_logical_key : rstr;
  sg_status : StagingStatus;
  sg_size : option Z;
  sg_sha256 : option rstr;
  sg_grant_expires : Z;
  sg_verified_at : option Z;
  sg_promoted_at : option Z;
  sg_created_at : Z
}.

Record Obligation := {
  ob_worker : Uuid;
  ob_session : Uuid;
  ob_attempt : Uuid;
  ob_job : Uuid;
  ob_status : CleanupStatus;
  ob_requeue : bool;
  ob_reason : rstr;
  ob_created_at : Z;
  ob_completed_at : option Z
}.

(** sbgh-core db/scheduler.rs *)
Record SchedulerPolicy := {
  sp_paused : bool;
  sp_generation : Z;
  sp_actor : rstr;
  sp_reason : rstr;
  sp_changed_at : Z
}.
Record SchedulerChange := {
  sc_request_id : Uuid;
  sc_paused : bool;
  sc_actor : rstr;
  sc_reason : rstr
}.
(** [scheduler_administration_audit]: the request and the policy it produced. *)
Record SchedulerAudit := { sa_change : SchedulerChange; sa_policy : SchedulerPolicy }.

(** sbgh-core db/fleet_abort.rs *)
Inductive FleetAbortScope := Scope_Active | Scope_AllPending.
Global Instance FleetAbortScope_eq_dec : EqDecision FleetAbortScope.
Proof. solve_decision. Defined.
Record FleetAbortRequest := {
  fa_request_id : Uuid;
  fa_scope : FleetAbortScope;
  fa_scheduler_generation : Z;
  fa_actor : rstr;
  fa_reason : rstr
}.
(** The request is part of the receipt. *)
Record FleetAbortReceipt := {
  fr_request : FleetAbortRequest;
  fr_recorded_at : Z;
  fr_selected : list Uuid;
  fr_accepted : list Uuid
}.

(** [task_spec]: the columns that scheduling and recovery use. *)
Record TaskSpec := {
  sx_submission : Uuid;
  sx_index : Z;
  sx_task_kind : TaskKind;
  sx_commit : option rstr;
  sx_calibration : option Z
}.

(** sbgh-core db/worker_lifecycle.rs *)
Inductive WorkerLifecycleAction := Act_Cordon | Act_Uncordon | Act_ShutdownAfterIdle.
Global Instance WorkerLifecycleAction_eq_dec : EqDecision WorkerLifecycleAction.
Proof. solve_decision. Defined.
Record WorkerLifecycleReceipt := {
  lr_worker : Uuid;
  lr_action : WorkerLifecycleAction;
  lr_generation : Z;
  lr_target_session : option Uuid;
  lr_actor : rstr;
  lr_reason : rstr;
  lr_recorded_at : Z
}.

(** sbgh-core db/protocol.rs *)
Record ProtocolPolicy := {
  pp_minimum_revision : Z;
  pp_generation : Z;
  pp_actor : rstr;
  pp_reason : rstr;
  pp_rollback_evidence : rstr;
  pp_changed_at : Z
}.
Record ProtocolPolicyChange := {
  pch_request_id : Uuid;
  pch_minimum_revision : Z;
  pch_actor : rstr;
  pch_reason : rstr;
  pch_rollback_evidence : rstr
}.
Record ProtocolAudit := { pa_change : ProtocolPolicyChange; pa_receipt : ProtocolPolicy }.

(** [job_result] and [block_validation_result]. *)
Record JobResult := { rs_run_json : option Value; rs_archive_dir : rstr }.

Record JobMetric := {
  jm_envelope_duration_us : Z; jm_replay_duration_us : Z; jm_total_duration_us : Z;
  jm_setup_duration_us : Z; jm_execution_duration_us : Z; jm_commit_duration_us : Z;
  jm_clarity_runtime : Z; jm_transactions : Z; jm_read_length : Z; jm_write_length : Z;
  jm_measured_blocks : Z; jm_warmup_blocks : Z
}.

(** ** The database *)
Record FleetDb := {
  db_workers : gmap Uuid Worker;
  db_identities : gmap rstr IdentityKey;
  db_sessions : gmap Uuid Session;
  db_submissions : gmap Uuid Submission;
  db_specs : gmap Uuid TaskSpec;
  db_jobs : gmap Uuid Job;
  db_attempts : gmap Uuid Attempt;
  db_events : gmap (Uuid * Z) AttemptEvent;
  db_progress : gmap (Uuid * Z) AttemptProgress;
  db_staging : gmap (Uuid * rstr) Staging;
  db_obligations : gmap Z Obligation;
  db_next_obligation : Z;
  db_job_events : list JobEvent;
  db_results : gmap Uuid JobResult;
  db_metrics : gmap Uuid JobMetric;
  db_block_results : gmap Uuid (Uuid * BlockValidationResult * list ArtifactDescriptor);
  db_scheduler : SchedulerPolicy;
  db_scheduler_audit : gmap Uuid SchedulerAudit;
  db_abort_audit : gmap Uuid FleetAbortReceipt;
  db_lifecycle_audit : gmap Uuid WorkerLifecycleReceipt;
  db_protocol : ProtocolPolicy;
  db_protocol_audit : gmap Uuid ProtocolAudit
}.

(** Functional updates, one per table. *)
Definition with_workers f db := {|
  db_workers := f (db_workers db); db_identities := db_identities db;
  db_sessions := db_sessions db; db_submissions := db_submissions db; db_specs := db_specs db;
  db_jobs := db_jobs db; db_attempts := db_attempts db; db_events := db_events db;
  db_progress := db_progress db; db_staging := db_staging db; db_obligations := db_obligations db;
  db_next_obligation := db_next_obligation db; db_job_events := db_job_events db;
  db_results := db_results db; db_metrics := db_metrics db;
  db_block_results := db_block_results db; db_scheduler := db_scheduler db;
  db_scheduler_audit := db_scheduler_audit db; db_abort_audit := db_abort_audit db;
  db_lifecycle_audit := db_lifecycle_audit db; db_protocol := db_protocol db;
  db_protocol_audit := db_protocol_audit db |}.
Definition with_identities f db := {|
  db_workers := db_workers db; db_identities := f (db_identities db);
  db_sessions := db_sessions db; db_submissions := db_submissions db; db_specs := db_specs db;
  db_jobs := db_jobs db; db_attempts := db_attempts db; db_events := db_events db;
  db_progress := db_progress db; db_staging := db_staging db; db_obligations := db_obligations db;
  db_next_obligation := db_next_obligation db; db_job_events := db_job_events db;
  db_results := db_results db; db_metrics := db_metrics db;
  db_block_results := db_block_results db; db_scheduler := db_scheduler db;
  db_scheduler_audit := db_scheduler_audit db; db_abort_audit := db_abort_audit db;
  db_lifecycle_audit := db_lifecycle_audit db; db_protocol := db_protocol db;
  db_protocol_audit := db_protocol_audit db |}.
Definition with_sessions f db := {|
  db_workers := db_workers db; db_identities := db_identities db;
  db_sessions := f (db_sessions db); db_submissions := db_submissions db; db_specs := db_specs db;
  db_jobs := db_jobs db; db_attempts := db_attempts db; db_events := db_events db;
  db_progress := db_progress db; db_staging := db_staging db; db_obligations := db_obligations db;
  db_next_obligation := db_next_obligation db; db_job_events := db_job_events db;
  db_results := db_results db; db_metrics := db_metrics db;
  db_block_results := db_block_results db; db_scheduler := db_scheduler db;
  db_scheduler_audit := db_scheduler_audit db; db_abort_audit := db_abort_audit db;
  db_lifecycle_audit := db_lifecycle_audit db; db_protocol := db_protocol db;
  db_protocol_audit := db_protocol_audit db |}.
Definition with_submissions f db := {|
  db_workers := db_workers db; db_identities := db_identities db; db_sessions := db_sessions db;
  db_submissions := f (db_submissions db); db_specs := db_specs db; db_jobs := db_jobs db;
  db_attempts := db_attempts db; db_events := db_events db; db_progress := db_progress db;
  db_staging := db_staging db; db_obligations := db_obligations db;
  db_next_obligation := db_next_obligation db; db_job_events := db_job_events db;
  db_results := db_results db; db_metrics := db_metrics db;
  db_block_results := db_block_results db; db_scheduler := db_scheduler db;
  db_scheduler_audit := db_scheduler_audit db; db_abort_audit := db_abort_audit db;
  db_lifecycle_audit := db_lifecycle_audit db; db_protocol := db_protocol db;
  db_protocol_audit := db_protocol_audit db |}.
Definition with_specs f db := {|
  db_workers := db_workers db; db_identities := db_identities db; db_sessions := db_sessions db;
  db_submissions := db_submissions db; db_specs := f (db_specs db); db_jobs := db_jobs db;
  db_attempts := db_attempts db; db_events := db_events db; db_progress := db_progress db;
  db_staging := db_staging db; db_obligations := db_obligations db;
  db_next_obligation := db_next_obligation db; db_job_events := db_job_events db;
  db_results := db_results db; db_metrics := db_metrics db;
  db_block_results := db_block_results db; db_scheduler := db_scheduler db;
  db_scheduler_audit := db_scheduler_audit db; db_abort_audit := db_abort_audit db;
  db_lifecycle_audit := db_lifecycle_audit db; db_protocol := db_protocol db;
  db_protocol_audit := db_protocol_audit db |}.
Definition with_jobs f db := {|
  db_workers := db_workers db; db_identities := db_identities db; db_sessions := db_sessions db;
  db_submissions := db_submissions db; db_specs := db_specs db; db_jobs := f (db_jobs db);
  db_attempts := db_attempts db; db_events := db_events db; db_progress := db_progress db;
  db_staging := db_staging db; db_obligations := db_obligations db;
  db_next_obligation := db_next_obligation db; db_job_events := db_job_events db;
  db_results := db_results db; db_metrics := db_metrics db;
  db_block_results := db_block_results db; db_scheduler := db_scheduler db;
  db_scheduler_audit := db_scheduler_audit db; db_abort_audit := db_abort_audit db;
  db_lifecycle_audit := db_lifecycle_audit db; db_protocol := db_protocol db;
  db_protocol_audit := db_protocol_audit db |}.
Definition with_attempts f db := {|
  db_workers := db_workers db; db_identities := db_identities db; db_sessions := db_sessions db;
  db_submissions := db_submissions db; db_specs := db_specs db; db_jobs := db_jobs db;
  db_attempts := f (db_attempts db); db_events := db_events db; db_progress := db_progress db;
  db_staging := db_staging db; db_obligations := db_obligations db;
  db_next_obligation := db_next_obligation db; db_job_events := db_job_events db;
  db_results := db_results db; db_metrics := db_metrics db;
  db_block_results := db_block_results db; db_scheduler := db_scheduler db;
  db_scheduler_audit := db_scheduler_audit db; db_abort_audit := db_abort_audit db;
  db_lifecycle_audit := db_lifecycle_audit db; db_protocol := db_protocol db;
  db_protocol_audit := db_protocol_audit db |}.
Definition with_events f db := {|
  db_workers := db_workers db; db_identities := db_identities db; db_sessions := db_sessions db;
  db_submissions := db_submissions db; db_specs := db_specs db; db_jobs := db_jobs db;
  db_attempts := db_attempts db; db_events := f (db_events db); db_progress := db_progress db;
  db_staging := db_staging db; db_obligations := db_obligations db;
  db_next_obligation := db_next_obligation db; db_job_events := db_job_events db;
  db_results := db_results db; db_metrics := db_metrics db;
  db_block_results := db_block_results db; db_scheduler := db_scheduler db;
  db_scheduler_audit := db_scheduler_audit db; db_abort_audit := db_abort_audit db;
  db_lifecycle_audit := db_lifecycle_audit db; db_protocol := db_protocol db;
  db_protocol_audit := db_protocol_audit db |}.
Definition with_progress f db := {|
  db_workers := db_workers db; db_identities := db_identities db; db_sessions := db_sessions db;
  db_submissions := db_submissions db; db_specs := db_specs db; db_jobs := db_jobs db;
  db_attempts := db_attempts db; db_events := db_events db; db_progress := f (db_progress db);
  db_staging := db_staging db; db_obligations := db_obligations db;
  db_next_obligation := db_next_obligation db; db_job_events := db_job_events db;
  db_results := db_results db; db_metrics := db_metrics db;
  db_block_results := db_block_results db; db_scheduler := db_scheduler db;
  db_scheduler_audit := db_scheduler_audit db; db_abort_audit := db_abort_audit db;
  db_lifecycle_audit := db_lifecycle_audit db; db_protocol := db_protocol db;
  db_protocol_audit := db_protocol_audit db |}.
Definition with_staging f db := {|
  db_workers := db_workers db; db_identities := db_identities db; db_sessions := db_sessions db;
  db_submissions := db_submissions db; db_specs := db_specs db; db_jobs := db_jobs db;
  db_attempts := db_attempts db; db_events := db_events db; db_progress := db_progress db;
  db_staging := f (db_staging db); db_obligations := db_obligations db;
  db_next_obligation := db_next_obligation db; db_job_events := db_job_events db;
  db_results := db_results db; db_metrics := db_metrics db;
  db_block_results := db_block_results db; db_scheduler := db_scheduler db;
  db_scheduler_audit := db_scheduler_audit db; db_abort_audit := db_abort_audit db;
  db_lifecycle_audit := db_lifecycle_audit db; db_protocol := db_protocol db;
  db_protocol_audit := db_protocol_audit db |}.
Definition with_obligations f db := {|
  db_workers := db_workers db; db_identities := db_identities db; db_sessions := db_sessions db;
  db_submissions := db_submissions db; db_specs := db_specs db; db_jobs := db_jobs db;
  db_attempts := db_attempts db; db_events := db_events db; db_progress := db_progress db;
  db_staging := db_staging db; db_obligations := f (db_obligations db);
  db_next_obligation := db_next_obligation db; db_job_events := db_job_events db;
  db_results := db_results db; db_metrics := db_metrics db;
  db_block_results := db_block_results db; db_scheduler := db_scheduler db;
  db_scheduler_audit := db_scheduler_audit db; db_abort_audit := db_abort_audit db;
  db_lifecycle_audit := db_lifecycle_audit db; db_protocol := db_protocol db;
  db_protocol_audit := db_protocol_audit db |}.
Definition with_next_obligation f db := {|
  db_workers := db_workers db; db_identities := db_identities db; db_sessions := db_sessions db;
  db_submissions := db_submissions db; db_specs := db_specs db; db_jobs := db_jobs db;
  db_attempts := db_attempts db; db_events := db_events db; db_progress := db_progress db;
  db_staging := db_staging db; db_obligations := db_obligations db;
  db_next_obligation := f (db_next_obligation db); db_job_events := db_job_events db;
  db_results := db_results db; db_metrics := db_metrics db;
  db_block_results := db_block_results db; db_scheduler := db_scheduler db;
  db_scheduler_audit := db_scheduler_audit db; db_abort_audit := db_abort_audit db;
  db_lifecycle_audit := db_lifecycle_audit db; db_protocol := db_protocol db;
  db_protocol_audit := db_protocol_audit db |}.
Definition with_job_events f db := {|
  db_workers := db_workers db; db_identities := db_identities db; db_sessions := db_sessions db;
  db_submissions := db_submissions db; db_specs := db_specs db; db_jobs := db_jobs db;
  db_attempts := db_attempts db; db_events := db_events db; db_progress := db_progress db;
  db_staging := db_staging db; db_obligations := db_obligations db;
  db_next_obligation := db_next_obligation db; db_job_events := f (db_job_events db);
  db_results := db_results db; db_metrics := db_metrics db;
  db_block_results := db_block_results db; db_scheduler := db_scheduler db;
  db_scheduler_audit := db_scheduler_audit db; db_abort_audit := db_abort_audit db;
  db_lifecycle_audit := db_lifecycle_audit db; db_protocol := db_protocol db;
  db_protocol_audit := db_protocol_audit db |}.
Definition with_results f db := {|
  db_workers := db_workers db; db_identities := db_identities db; db_sessions := db_sessions db;
  db_submissions := db_submissions db; db_specs := db_specs db; db_jobs := db_jobs db;
  db_attempts := db_attempts db; db_events := db_events db; db_progress := db_progress db;
  db_staging := db_staging db; db_obligations := db_obligations db;
  db_next_obligation := db_next_obligation db; db_job_events := db_job_events db;
  db_results := f (db_results db); db_metrics := db_metrics db;
  db_block_results := db_block_results db; db_scheduler := db_scheduler db;
  db_scheduler_audit := db_scheduler_audit db; db_abort_audit := db_abort_audit db;
  db_lifecycle_audit := db_lifecycle_audit db; db_protocol := db_protocol db;
  db_protocol_audit := db_protocol_audit db |}.
Definition with_metrics f db := {|
  db_workers := db_workers db; db_identities := db_identities db; db_sessions := db_sessions db;
  db_submissions := db_submissions db; db_specs := db_specs db; db_jobs := db_jobs db;
  db_attempts := db_attempts db; db_events := db_events db; db_progress := db_progress db;
  db_staging := db_staging db; db_obligations := db_obligations db;
  db_next_obligation := db_next_obligation db; db_job_events := db_job_events db;
  db_results := db_results db; db_metrics := f (db_metrics db);
  db_block_results := db_block_results db; db_scheduler := db_scheduler db;
  db_scheduler_audit := db_scheduler_audit db; db_abort_audit := db_abort_audit db;
  db_lifecycle_audit := db_lifecycle_audit db; db_protocol := db_protocol db;
  db_protocol_audit := db_protocol_audit db |}.
Definition with_block_results f db := {|
  db_workers := db_workers db; db_identities := db_identities db; db_sessions := db_sessions db;
  db_submissions := db_submissions db; db_specs := db_specs db; db_jobs := db_jobs db;
  db_attempts := db_attempts db; db_events := db_events db; db_progress := db_progress db;
  db_staging := db_staging db; db_obligations := db_obligations db;
  db_next_obligation := db_next_obligation db; db_job_events := db_job_events db;
  db_results := db_results db; db_metrics := db_metrics db;
  db_block_results := f (db_block_results db); db_scheduler := db_scheduler db;
  db_scheduler_audit := db_scheduler_audit db; db_abort_audit := db_abort_audit db;
  db_lifecycle_audit := db_lifecycle_audit db; db_protocol := db_protocol db;
  db_protocol_audit := db_protocol_audit db |}.
Definition with_scheduler f db := {|
  db_workers := db_workers db; db_identities := db_identities db; db_sessions := db_sessions db;
  db_submissions := db_submissions db; db_specs := db_specs db; db_jobs := db_jobs db;
  db_attempts := db_attempts db; db_events := db_events db; db_progress := db_progress db;
  db_staging := db_staging db; db_obligations := db_obligations db;
  db_next_obligation := db_next_obligation db; db_job_events := db_job_events db;
  db_results := db_results db; db_metrics := db_metrics db;
  db_block_results := db_block_results db; db_scheduler := f (db_scheduler db);
  db_scheduler_audit := db_scheduler_audit db; db_abort_audit := db_abort_audit db;
  db_lifecycle_audit := db_lifecycle_audit db; db_protocol := db_protocol db;
  db_protocol_audit := db_protocol_audit db |}.
Definition with_scheduler_audit f db := {|
  db_workers := db_workers db; db_identities := db_identities db; db_sessions := db_sessions db;
  db_submissions := db_submissions db; db_specs := db_specs db; db_jobs := db_jobs db;
  db_attempts := db_attempts db; db_events := db_events db; db_progress := db_progress db;
  db_staging := db_staging db; db_obligations := db_obligations db;
  db_next_obligation := db_next_obligation db; db_job_events := db_job_events db;
  db_results := db_results db; db_metrics := db_metrics db;
  db_block_results := db_block_results db; db_scheduler := db_scheduler db;
  db_scheduler_audit := f (db_scheduler_audit db); db_abort_audit := db_abort_audit db;
  db_lifecycle_audit := db_lifecycle_audit db; db_protocol := db_protocol db;
  db_protocol_audit := db_protocol_audit db |}.
Definition with_abort_audit f db := {|
  db_workers := db_workers db; db_identities := db_identities db; db_sessions := db_sessions db;
  db_submissions := db_submissions db; db_specs := db_specs db; db_jobs := db_jobs db;
  db_attempts := db_attempts db; db_events := db_events db; db_progress := db_progress db;
  db_staging := db_staging db; db_obligations := db_obligations db;
  db_next_obligation := db_next_obligation db; db_job_events := db_job_events db;
  db_results := db_results db; db_metrics := db_metrics db;
  db_block_results := db_block_results db; db_scheduler := db_scheduler db;
  db_scheduler_audit := db_scheduler_audit db; db_abort_audit := f (db_abort_audit db);
  db_lifecycle_audit := db_lifecycle_audit db; db_protocol := db_protocol db;
  db_protocol_audit := db_protocol_audit db |}.
Definition with_lifecycle_audit f db := {|
  db_workers := db_workers db; db_identities := db_identities db; db_sessions := db_sessions db;
  db_submissions := db_submissions db; db_specs := db_specs db; db_jobs := db_jobs db;
  db_attempts := db_attempts db; db_events := db_events db; db_progress := db_progress db;
  db_staging := db_staging db; db_obligations := db_obligations db;
  db_next_obligation := db_next_obligation db; db_job_events := db_job_events db;
  db_results := db_results db; db_metrics := db_metrics db;
  db_block_results := db_block_results db; db_scheduler := db_scheduler db;
  db_scheduler_audit := db_scheduler_audit db; db_abort_audit := db_abort_audit db;
  db_lifecycle_audit := f (db_lifecycle_audit db); db_protocol := db_protocol db;
  db_protocol_audit := db_protocol_audit db |}.
Definition with_protocol f db := {|
  db_workers := db_workers db; db_identities := db_identities db; db_sessions := db_sessions db;
  db_submissions := db_submissions db; db_specs := db_specs db; db_jobs := db_jobs db;
  db_attempts := db_attempts db; db_events := db_events db; db_progress := db_progress db;
  db_staging := db_staging db; db_obligations := db_obligations db;
  db_next_obligation := db_next_obligation db; db_job_events := db_job_events db;
  db_results := db_results db; db_metrics := db_metrics db;
  db_block_results := db_block_results db; db_scheduler := db_scheduler db;
  db_scheduler_audit := db_scheduler_audit db; db_abort_audit := db_abort_audit db;
  db_lifecycle_audit := db_lifecycle_audit db; db_protocol := f (db_protocol db);
  db_protocol_audit := db_protocol_audit db |}.
Definition with_protocol_audit f db := {|
  db_workers := db_workers db; db_identities := db_identities db; db_sessions := db_sessions db;
  db_submissions := db_submissions db; db_specs := db_specs db; db_jobs := db_jobs db;
  db_attempts := db_attempts db; db_events := db_events db; db_progress := db_progress db;
  db_staging := db_staging db; db_obligations := db_obligations db;
  db_next_obligation := db_next_obligation db; db_job_events := db_job_events db;
  db_results := db_results db; db_metrics := db_metrics db;
  db_block_results := db_block_results db; db_scheduler := db_scheduler db;
  db_scheduler_audit := db_scheduler_audit db; db_abort_audit := db_abort_audit db;
  db_lifecycle_audit := db_lifecycle_audit db; db_protocol := db_protocol db;
  db_protocol_audit := f (db_protocol_audit db) |}.

(** Functional updates of the mutable columns of a row. *)
Definition with_session_status (st : SessionStatus) (s : Session) : Session :=
  {| ws_row := ws_row s; ws_status := st; ws_effective := ws_effective s;
     ws_buffer_len := ws_buffer_len s; ws_last_heartbeat := ws_last_heartbeat s;
     ws_expires_at := ws_expires_at s; ws_ended_at := ws_ended_at s |}.
Definition with_session_ended (at_ : option Z) (s : Session) : Session :=
  {| ws_row := ws_row s; ws_status := ws_status s; ws_effective := ws_effective s;
     ws_buffer_len := ws_buffer_len s; ws_last_heartbeat := ws_last_heartbeat s;
     ws_expires_at := ws_expires_at s; ws_ended_at := at_ |}.
Definition with_session_heartbeat (now : Z) (s : Session) : Session :=
  {| ws_row := ws_row s; ws_status := ws_status s; ws_effective := ws_effective s;
     ws_buffer_len := ws_buffer_len s; ws_last_heartbeat := now;
     ws_expires_at := ws_expires_at s; ws_ended_at := ws_ended_at s |}.
Definition with_session_expiry (expires_at : Z) (s : Session) : Session :=
  {| ws_row := ws_row s; ws_status := ws_status s; ws_effective := ws_effective s;
     ws_buffer_len := ws_buffer_len s; ws_last_heartbeat := ws_last_heartbeat s;
     ws_expires_at := expires_at; ws_ended_at := ws_ended_at s |}.
Definition with_session_buffer (len : Z) (s : Session) : Session :=
  {| ws_row := ws_row s; ws_status := ws_status s; ws_effective := ws_effective s;
     ws_buffer_len := len; ws_last_heartbeat := ws_last_heartbeat s;
     ws_expires_at := ws_expires_at s; ws_ended_at := ws_ended_at s |}.
Definition with_session_effective (caps : gset WorkerCapability) (s : Session) : Session :=
  {| ws_row := ws_row s; ws_status := ws_status s; ws_effective := caps;
     ws_buffer_len := ws_buffer_len s; ws_last_heartbeat := ws_last_heartbeat s;
     ws_expires_at := ws_expires_at s; ws_ended_at := ws_ended_at s |}.

Definition with_job_status (st : JobStatus) (j : Job) : Job :=
  {| jb_row := jb_row j; jb_status := st; jb_claim_token := jb_claim_token j;
     jb_claimed_at := jb_claimed_at j; jb_commit := jb_commit j; jb_payload := jb_payload j |}.
Definition with_job_claim (token : option Uuid) (at_ : option Z) (j : Job) : Job :=
  {| jb_row := jb_row j; jb_status := jb_status j; jb_claim_token := token;
     jb_claimed_at := at_; jb_commit := jb_commit j; jb_payload := jb_payload j |}.
Definition with_job_payload (commit : rstr) (payload : TaskPayload) (hash : rstr) (j : Job) : Job :=
  {| jb_row := jb_row j; jb_status := jb_status j; jb_claim_token := jb_claim_token j;
     jb_claimed_at := jb_claimed_at j; jb_commit := Some commit;
     jb_payload := Some (payload, hash) |}.

Definition with_attempt_status (st : AttemptStatus) (a : Attempt) : Attempt :=
  {| at_row := at_row a; at_status := st; at_offer_expires := at_offer_expires a;
     at_lease_expires := at_lease_expires a; at_accepted_at := at_accepted_at a;
     at_contiguous := at_contiguous a; at_projected := at_projected a;
     at_terminal := at_terminal a |}.
Definition with_attempt_lease (expires : Z) (a : Attempt) : Attempt :=
  {| at_row := at_row a; at_status := at_status a; at_offer_expires := at_offer_expires a;
     at_lease_expires := expires; at_accepted_at := at_accepted_at a;
     at_contiguous := at_contiguous a; at_projected := at_projected a;
     at_terminal := at_terminal a |}.
Definition with_attempt_accepted (now expires : Z) (a : Attempt) : Attempt :=
  {| at_row := at_row a; at_status := A_Running; at_offer_expires := at_offer_expires a;
     at_lease_expires := expires; at_accepted_at := Some now;
     at_contiguous := at_contiguous a; at_projected := at_projected a;
     at_terminal := at_terminal a |}.
Definition with_attempt_expiry (offer lease : Z) (a : Attempt) : Attempt :=
  {| at_row := at_row a; at_status := at_status a; at_offer_expires := offer;
     at_lease_expires := lease; at_accepted_at := at_accepted_at a;
     at_contiguous := at_contiguous a; at_projected := at_projected a;
     at_terminal := at_terminal a |}.
Definition with_attempt_contiguous (seq : Z) (a : Attempt) : Attempt :=
  {| at_row := at_row a; at_status := at_status a; at_offer_expires := at_offer_expires a;
     at_lease_expires := at_lease_expires a; at_accepted_at := at_accepted_at a;
     at_contiguous := seq; at_projected := at_projected a; at_terminal := at_terminal a |}.
Definition with_attempt_projected (seq : Z) (a : Attempt) : Attempt :=
  {| at_row := at_row a; at_status := at_status a; at_offer_expires := at_offer_expires a;
     at_lease_expires := at_lease_expires a; at_accepted_at := at_accepted_at a;
     at_contiguous := at_contiguous a; at_projected := seq; at_terminal := at_terminal a |}.
Definition with_attempt_terminal (st : AttemptStatus) (t : TerminalRow) (a : Attempt) : Attempt :=
  {| at_row := at_row a; at_status := st; at_offer_expires := at_offer_expires a;
     at_lease_expires := at_lease_expires a; at_accepted_at := at_accepted_at a;
     at_contiguous := at_contiguous a; at_projected := at_projected a; at_terminal := Some t |}.

Definition with_obligation_status (st : CleanupStatus) (now : Z) (o : Obligation) : Obligation :=
  {| ob_worker := ob_worker o; ob_session := ob_session o; ob_attempt := ob_attempt o;
     ob_job := ob_job o; ob_status := st; ob_requeue := ob_requeue o; ob_reason := ob_reason o;
     ob_created_at := ob_created_at o; ob_completed_at := Some now |}.
Definition with_obligation_requeue (requeue : bool) (o : Obligation) : Obligation :=
  {| ob_worker := ob_worker o; ob_session := ob_session o; ob_attempt := ob_attempt o;
     ob_job := ob_job o; ob_status := ob_status o; ob_requeue := requeue; ob_reason := ob_reason o;
     ob_created_at := ob_created_at o; ob_completed_at := ob_completed_at o |}.

(** ** Transactions *)
Inductive SessionRegistrationError :=
| Superseded | FactsChanged | RecoveryPending | ProtocolIncompatible.
(** [InvalidRequest] and [Negotiation] are the [Error::Config] built from the
    text of a request's validation or negotiation error; they keep the error
    itself. *)
Inductive StoreError :=
| Config (message : string)
| InvalidRequest (error : ProtocolError)
| Negotiation (error : NegotiationError)
| Registration (error : SessionRegistrationError)
| FleetSessionInactive
| Constraint (name : string)    (** PostgreSQL refuses the row *)
| Database.                     (** the connection fails *)

(** [NOW()] (the start of the transaction), [clock_timestamp()], the daemon's
    own [Utc::now()], all in milliseconds, and the rows locked by concurrent
    transactions. *)
Record TxEnv := {
  tx_now : Z;
  tx_clock : Z;
  tx_utc : Z;
  tx_locked : gset Uuid
}.

Definition Tx (A : Type) : Type := FleetDb -> result (A * FleetDb) StoreError.

(** [duration_seconds]: a positive interval, in milliseconds. *)
Definition duration_ms (d : Z) : Z := Z.max d 1.

(** [insert_job_event]. *)
Definition insert_job_event (job : Uuid) (kind : JobEventKind) (success : bool)
    (remark : option rstr) (detail : option Value) (db : FleetDb) : FleetDb :=
  with_job_events (fun es => es ++ [{| je_job := job; je_kind := kind; je_success := success;
                                       je_remark := remark; je_detail := detail |}]) db.

(** The rows of a table that satisfy a predicate, and updates of them. *)
Definition rows {K A} `{Countable K} (p : K -> A -> bool) (m : gmap K A) : list (K * A) :=
  List.filter (fun e => p e.1 e.2) (map_to_list m).
Definition exists_row {K A} `{Countable K} (p : K -> A -> bool) (m : gmap K A) : bool :=
  existsb (fun e => p e.1 e.2) (map_to_list m).
Definition update_where {K A} `{Countable K} (p : K -> A -> bool) (f : A -> A) (m : gmap K A)
  : gmap K A := map_imap (fun k a => Some (if p k a then f a else a)) m.

(** The [CHECK] of [worker_session] and its unique index of live sessions. *)
Definition session_check (s : Session) : bool :=
  Bool.eqb (negb (session_live (ws_status s)))
           (match ws_ended_at s with Some _ => true | None => false end).
Definition put_session (id : Uuid) (s : Session) (db : FleetDb) : result FleetDb StoreError :=
  if negb (session_check s) then Err (Constraint "worker_session_check")
  else if session_live (ws_status s)
          && exists_row (fun k t => negb (k =? id) && (sr_worker (ws_row t) =? sr_worker (ws_row s))
                                    && session_live (ws_status t)) (db_sessions db)
  then Err (Constraint "worker_one_live_session_idx")
  else Ok (with_sessions <[id := s]> db).

(** [has_pending_cleanup]. *)
Definition has_pending_cleanup (worker : Uuid) (db : FleetDb) : bool :=
  exists_row (fun _ o => (ob_worker o =? worker) && bool_decide (ob_status o = C_Pending))
    (db_obligations db).

(** An attempt of the worker is offered or executing. *)
Definition has_active_attempt (worker : Uuid) (db : FleetDb) : bool :=
  exists_row (fun _ a => (ar_worker (at_row a) =? worker) && attempt_active (at_status a))
    (db_attempts db).

(** The registry still authorizes the worker for the attempt's capability. *)
Definition authorized (a : Attempt) (db : FleetDb) : bool :=
  match db_workers db !! ar_worker (at_row a) with
  | Some w => wk_enabled w && bool_decide (ar_capability (at_row a) ∈ wk_allowed w)
  | None => false
  end.

(** The attempt row an identity names: attempt, worker, session and fence. *)
Definition find_attempt (worker : Uuid) (i : AttemptIdentity) (db : FleetDb) : option Attempt :=
  match db_attempts db !! ai_attempt_id i with
  | Some a =>
      if (ar_worker (at_row a) =? worker) && (ar_session (at_row a) =? ai_worker_session_id i)
         && (ar_fence (at_row a) =? as_i64 (ai_fencing_generation i))
      then Some a else None
  | None => None
  end.

(** ** Transitions several operations share *)

(** [discard_attempt_projection]. *)
Definition discard_event (now : Z) (reason : rstr) (e : AttemptEvent) : AttemptEvent :=
  {| ae_trace := ae_trace e; ae_payload := ae_payload e; ae_digest := ae_digest e;
     ae_worker_timestamp := ae_worker_timestamp e; ae_received_at := ae_received_at e;
     ae_projected_at := Some now; ae_discarded := Some reason |}.
Definition discard_progress (now : Z) (reason : rstr) (p : AttemptProgress) : AttemptProgress :=
  {| ap_trace := ap_trace p; ap_update := ap_update p; ap_received_at := ap_received_at p;
     ap_projected_at := Some now; ap_discarded := Some reason |}.
Definition discard_attempt_projection (env : TxEnv) (attempt : Uuid) (reason : rstr)
    (db : FleetDb) : FleetDb :=
  let db := with_events (update_where
      (fun k e => (k.1 =? attempt) && bool_decide (ae_projected_at e = None))
      (discard_event (tx_now env) reason)) db in
  let db := with_progress (update_where
      (fun k p => (k.1 =? attempt) && bool_decide (ap_projected_at p = None))
      (discard_progress (tx_now env) reason)) db in
  with_attempts (alter (fun a => with_attempt_projected (at_contiguous a) a) attempt) db.

(** A claimed job goes back to the queue. *)
Definition requeue_job (from : JobStatus) (job : Uuid) (db : FleetDb) : FleetDb :=
  with_jobs (alter (fun j =>
    if decide (jb_status j = from) then with_job_claim None None (with_job_status J_Queued j)
    else j) job) db.

(** [INSERT INTO worker_cleanup_obligation ... ON CONFLICT (attempt_id) DO
    NOTHING]; the sequence advances in either case. *)
Definition insert_obligation (env : TxEnv) (worker session attempt job : Uuid) (requeue : bool)
    (reason : rstr) (db : FleetDb) : FleetDb :=
  let id := db_next_obligation db in
  let db := with_next_obligation (fun n => n + 1) db in
  if exists_row (fun _ o => ob_attempt o =? attempt) (db_obligations db) then db
  else with_obligations <[id := {| ob_worker := worker; ob_session := session;
         ob_attempt := attempt; ob_job := job; ob_status := C_Pending; ob_requeue := requeue;
         ob_reason := reason; ob_created_at := tx_now env; ob_completed_at := None |}]> db.

(** An active attempt loses its authority: its unprojected events are discarded,
    an offer releases its claimed job, an execution leaves a cleanup obligation
    that holds the job.  The body of the loops of [register_session] (which
    fences the attempts of a predecessor session) and [expire_stale_attempts]. *)
Definition retire_attempt (env : TxEnv) (to : AttemptStatus) (discard_reason reason : rstr)
    (id : Uuid) (a : Attempt) (db : FleetDb) : FleetDb :=
  let db := discard_attempt_projection env id discard_reason db in
  let db := with_attempts (alter (with_attempt_status to) id) db in
  if decide (at_status a = A_Offered) then requeue_job J_Claimed (ar_job (at_row a)) db
  else insert_obligation env (ar_worker (at_row a)) (ar_session (at_row a)) id (ar_job (at_row a))
         (bool_decide (at_status a = A_Running)) reason db.

(** ** Lemmas on tables *)
Section TableLemmas.
Context {K A : Type} `{Countable K}.
Implicit Types (m : gmap K A) (p : K -> A -> bool).

Lemma exists_row_true p m : exists_row p m = true <-> exists k a, m !! k = Some a /\ p k a = true.
Proof.
  unfold exists_row. rewrite existsb_exists. split.
  - intros ([k a] & Hin & Hp). exists k, a. split; [|done].
    by apply elem_of_map_to_list, list_elem_of_In.
  - intros (k & a & Hm & Hp). exists (k, a). split; [|done].
    by apply list_elem_of_In, elem_of_map_to_list.
Qed.
Lemma exists_row_false p m : exists_row p m = false <-> forall k a, m !! k = Some a -> p k a = false.
Proof.
  destruct (exists_row p m) eqn:E; split; try done.
  - apply exists_row_true in E as (k & a & Hm & Hp). intros Hf. specialize (Hf k a Hm). congruence.
  - intros _ k a Hm. destruct (p k a) eqn:Hp; [|done].
    assert (exists_row p m = true) by (apply exists_row_true; eauto). congruence.
Qed.

Lemma elem_of_rows p m k a : (k, a) ∈ rows p m <-> m !! k = Some a /\ p k a = true.
Proof.
  unfold rows. rewrite <- elem_of_map_to_list, !list_elem_of_In, filter_In. done.
Qed.

Lemma rows_NoDup p m : NoDup (map fst (rows p m)).
Proof.
  unfold rows. assert (Hn : NoDup (map fst (map_to_list m))) by apply NoDup_fst_map_to_list.
  induction (map_to_list m) as [|[k x] l IH]; simpl; [done|].
  inversion Hn as [|? ? Hni Hnd]; subst. destruct (p k x); simpl; [|by apply IH].
  constructor; [|by apply IH]. intros Hin. apply Hni.
  apply list_elem_of_fmap in Hin as ([k' x'] & Hk & Hin). simpl in Hk. subst k'.
  apply list_elem_of_In, filter_In in Hin as [Hin _].
  apply list_elem_of_fmap. exists (k, x'). split; [done|]. by apply list_elem_of_In.
Qed.

Lemma rows_nil p m :
  (forall k a, m !! k = Some a -> p k a = false) -> rows p m = [].
Proof.
  intros Hn. destruct (rows p m) as [|[k a] l] eqn:E; [done|].
  assert (Hin : (k, a) ∈ rows p m) by (rewrite E; left).
  apply elem_of_rows in Hin as [Hk Hp]. rewrite (Hn k a Hk) in Hp. done.
Qed.

Lemma rows_single p m k a :
  m !! k = Some a -> p k a = true ->
  (forall k' a', m !! k' = Some a' -> p k' a' = true -> k' = k) -> rows p m = [(k, a)].
Proof.
  intros Hk Hp Hu.
  assert (Hin : (k, a) ∈ rows p m) by (by apply elem_of_rows).
  pose proof (rows_NoDup p m) as Hnd.
  assert (Hall : Forall (fun e => e = (k, a)) (rows p m)).
  { apply Forall_forall. intros [k' a'] Hin'. apply elem_of_rows in Hin' as [Hk' Hp'].
    pose proof (Hu k' a' Hk' Hp') as ->. congruence. }
  destruct (rows p m) as [|e l]; [by apply not_elem_of_nil in Hin|].
  apply Forall_cons in Hall as [-> Hall].
  destruct l as [|e l]; [done|]. apply Forall_cons in Hall as [-> _].
  inversion Hnd as [|? ? Hni _]. exfalso. apply Hni. left.
Qed.

Lemma lookup_update_where p f m k :
  update_where p f m !! k = (fun a => if p k a then f a else a) <$> m !! k.
Proof. unfold update_where. rewrite map_lookup_imap. by destruct (m !! k). Qed.

(** Updating the selected rows one by one. *)
Lemma insert_rows_lookup (f : A -> A) (l : list (K * A)) m k :
  NoDup (map fst l) ->
  foldl (fun m '(k, a) => <[k := f a]> m) m l !! k =
  match list_find (fun e => e.1 = k) l with Some (_, (_, a)) => Some (f a) | None => m !! k end.
Proof.
  revert m. induction l as [|[k' a] l IH]; intros m Hnd; simpl; [done|].
  inversion Hnd as [|? ? Hni Hnd']; subst. rewrite IH by done. case_decide as Hk.
  - simpl in Hk. subst k'. destruct (list_find _ l) as [[i [k' b]]|] eqn:E; simpl.
    + apply list_find_Some in E as (Hl & Hk & _). simpl in Hk. subst k'.
      exfalso. apply Hni, list_elem_of_fmap. exists (k, b). split; [done|].
      by eapply list_elem_of_lookup_2.
    + by rewrite lookup_insert_eq.
  - destruct (list_find _ l) as [[i [k'' b]]|]; simpl; [done|]. by rewrite lookup_insert_ne.
Qed.
Lemma insert_rows (p : K -> A -> bool) (f : A -> A) m :
  foldl (fun m '(k, a) => <[k := f a]> m) m (rows p m) = update_where p f m.
Proof.
  apply map_eq. intros k. rewrite insert_rows_lookup by apply rows_NoDup.
  rewrite lookup_update_where. destruct (list_find _ _) as [[i [k' a]]|] eqn:E.
  - apply list_find_Some in E as (Hl & Hk & _). simpl in Hk. subst k'.
    apply list_elem_of_lookup_2, elem_of_rows in Hl as [Ha Hp]. rewrite Ha. simpl. by rewrite Hp.
  - apply list_find_None in E. destruct (m !! k) as [a|] eqn:Ha; [|done]. simpl.
    case_match eqn:Hp; [|done]. rewrite Forall_forall in E. destruct (E (k, a)); [|done].
    by apply elem_of_rows.
Qed.
End TableLemmas.

#[export] Hint Rewrite @lookup_update_where : fleet.

(** ** Ordered rows

    [ORDER BY]: insertion sort. *)
Fixpoint insert_by {A} (lt : A -> A -> bool) (x : A) (l : list A) : list A :=
  match l with
  | [] => [x]
  | y :: rest => if lt y x then y :: insert_by lt x rest else x :: l
  end.
Definition sort_by {A} (lt : A -> A -> bool) (l : list A) : list A := foldr (insert_by lt) [] l.
Lemma insert_by_perm {A} (lt : A -> A -> bool) x l : Permutation (insert_by lt x l) (x :: l).
Proof.
  induction l as [|y l IH]; simpl; [done|]. destruct (lt y x); [|done].
  rewrite IH. apply perm_swap.
Qed.
Lemma sort_by_perm {A} (lt : A -> A -> bool) l : Permutation (sort_by lt l) l.
Proof. induction l as [|x l IH]; simpl; [done|]. by rewrite insert_by_perm, IH. Qed.
