(* ===== verification/FleetSessions.v ===== *)
(** * Worker registry and sessions

    The [WorkerRegistryStore] half of
    crates/sbgh-postgres/src/stores/fleet.rs (workers, identity keys, emergency
    controls) and the session operations of its [FleetStore] half
    ([register_session], [deregister_session], [idle_worker_control],
    [session_is_active]). *)
From stdpp Require Import base list strings gmap.
From Stdlib Require Import ZArith Lia.
From S2P Require Import Prelude RustStr Json FleetModel Negotiation Validate FleetDb.

Local Open Scope Z_scope.

(** ** Registry *)
Inductive WorkerRegistryMutation :=
| M_Applied | M_Unchanged | M_NotFound | M_Busy | M_MissingIdentity | M_Conflict.

Record WorkerRegistration := {
  wg_worker_id : Uuid;
  wg_display_name : rstr;
  wg_allowed : gset WorkerCapability;
  wg_profile : option rstr;
  wg_enabled : bool;
  wg_draining : bool
}.

Record WorkerPolicyPatch := {
  wp_display_name : option rstr;
  wp_allowed : option (gset WorkerCapability);
  wp_profile : option (option rstr);
  wp_enabled : option bool
}.

(** The [CHECK]s of [worker_registry]: a capability, and a profile of 1 to 128
    characters. *)
Definition worker_check (w : Worker) : bool :=
  negb (bool_decide (wk_allowed w = ∅))
  && match wk_profile w with
     | Some profile => (1 <=? length profile)%nat && (length profile <=? 128)%nat
     | None => true
     end.
Definition put_worker (id : Uuid) (w : Worker) (db : FleetDb) : result FleetDb StoreError :=
  if worker_check w then Ok (with_workers <[id := w]> db)
  else Err (Constraint "worker_registry_check").

(** [protocol::lock_policy]: an unknown floor fails closed. *)
Definition lock_protocol_policy (db : FleetDb) : result Z StoreError :=
  if in_window (pp_minimum_revision (db_protocol db)) then Ok (pp_minimum_revision (db_protocol db))
  else Err (Config "protocol floor is outside the supported rolling window").

(** [create_worker]. *)
Definition create_worker (r : WorkerRegistration) : Tx WorkerRegistryMutation := fun db =>
  let? floor := lock_protocol_policy db in
  match db_workers db !! wg_worker_id r with
  | None =>
      let? db := put_worker (wg_worker_id r)
        {| wk_display_name := wg_display_name r; wk_allowed := wg_allowed r;
           wk_profile := wg_profile r; wk_enabled := wg_enabled r; wk_draining := wg_draining r;
           wk_shutdown_session := None; wk_lifecycle_generation := 0 |} db in
      Ok (M_Applied, db)
  | Some w =>
      let exact_retry :=
        rstr_eqb (wk_display_name w) (wg_display_name r)
        && bool_decide (wk_allowed w = wg_allowed r)
        && bool_decide (wk_profile w = wg_profile r)
        && Bool.eqb (wk_enabled w) (wg_enabled r)
        && Bool.eqb (wk_draining w) (wg_draining r) in
      Ok (if exact_retry then M_Unchanged else M_Conflict, db)
  end.

(** The worker has an active attempt or owes cleanup. *)
Definition worker_busy (worker : Uuid) (db : FleetDb) : bool :=
  has_active_attempt worker db || has_pending_cleanup worker db.

Definition end_sessions (now : Z) (p : Uuid -> Session -> bool) (db : FleetDb) : FleetDb :=
  with_sessions (update_where p
    (fun s => with_session_ended (Some now) (with_session_status S_Offline s))) db.

Definition session_idle (s : SessionStatus) : bool :=
  match s with S_Registered | S_Idle | S_Draining => true | _ => false end.

(** [update_worker]. *)
Definition update_worker (env : TxEnv) (worker : Uuid) (patch : WorkerPolicyPatch)
  : Tx WorkerRegistryMutation := fun db =>
  let? floor := lock_protocol_policy db in
  match db_workers db !! worker with
  | None => Ok (M_NotFound, db)
  | Some w =>
      let next_allowed := default (wk_allowed w) (wp_allowed patch) in
      let next_profile := default (wk_profile w) (wp_profile patch) in
      if bool_decide (Cap_Benchmark ∈ next_allowed)
         && negb (match next_profile with Some p => negb (is_empty p) | None => false end)
      then Ok (M_Conflict, db)
      else
        let next_enabled := default (wk_enabled w) (wp_enabled patch) in
        let sensitive := negb (bool_decide (next_allowed = wk_allowed w))
                         || negb (bool_decide (next_profile = wk_profile w))
                         || negb (Bool.eqb next_enabled (wk_enabled w)) in
        if sensitive && (negb (wk_draining w) || worker_busy worker db) then Ok (M_Busy, db)
        else if next_enabled
                && negb (exists_row (fun _ k => (ik_worker k =? worker)
                                     && bool_decide (ik_revoked_at k = None)) (db_identities db))
        then Ok (M_MissingIdentity, db)
        else
          let? db := put_worker worker
            {| wk_display_name := default (wk_display_name w) (wp_display_name patch);
               wk_allowed := next_allowed; wk_profile := next_profile;
               wk_enabled := next_enabled; wk_draining := wk_draining w;
               wk_shutdown_session := wk_shutdown_session w;
               wk_lifecycle_generation := wk_lifecycle_generation w |} db in
          let db := if sensitive then
              end_sessions (tx_now env) (fun _ s => (sr_worker (ws_row s) =? worker)
                                                   && session_idle (ws_status s)) db
            else db in
          Ok (M_Applied, db)
  end.

(** [authorize_identity]. *)
Definition authorize_identity (worker : Uuid) (key : rstr) : Tx WorkerRegistryMutation := fun db =>
  match db_workers db !! worker with
  | None => Ok (M_NotFound, db)
  | Some _ =>
      match db_identities db !! key with
      | None =>
          Ok (M_Applied, with_identities
                <[key := {| ik_worker := worker; ik_revoked_at := None |}]> db)
      | Some existing =>
          Ok (if (ik_worker existing =? worker) && bool_decide (ik_revoked_at existing = None)
              then M_Unchanged else M_Conflict, db)
      end
  end.

Definition revoke_key (now : Z) (key : rstr) (db : FleetDb) : FleetDb :=
  with_identities (alter (fun k => {| ik_worker := ik_worker k; ik_revoked_at := Some now |}) key) db.

(** [revoke_identity]. *)
Definition revoke_identity (env : TxEnv) (worker : Uuid) (key : rstr)
  : Tx WorkerRegistryMutation := fun db =>
  match db_identities db !! key, db_workers db !! worker with
  | Some k, Some w =>
      if negb (ik_worker k =? worker) then Ok (M_NotFound, db)
      else if negb (bool_decide (ik_revoked_at k = None)) then Ok (M_Unchanged, db)
      else
        let uses s := (sr_worker (ws_row s) =? worker) && rstr_eqb (sr_identity (ws_row s)) key in
        let used_by_live_session :=
          exists_row (fun _ s => uses s && session_live (ws_status s)) (db_sessions db) in
        let active_identity_count :=
          length (rows (fun _ k => (ik_worker k =? worker)
                          && bool_decide (ik_revoked_at k = None)) (db_identities db)) in
        let final := (active_identity_count =? 1)%nat && wk_enabled w in
        if used_by_live_session || final then
          if negb (wk_draining w) || worker_busy worker db then Ok (M_Busy, db)
          else
            let db := if used_by_live_session then
                end_sessions (tx_now env) (fun _ s => uses s && session_idle (ws_status s)) db
              else db in
            Ok (M_Applied, revoke_key (tx_now env) key db)
        else Ok (M_Applied, revoke_key (tx_now env) key db)
  | _, _ => Ok (M_NotFound, db)
  end.

(** [expire_worker_leases]: clamp the deadlines of the worker's active attempts
    and live sessions, restricted to one identity key when given. *)
Definition expire_worker_leases (env : TxEnv) (worker : Uuid) (key : option rstr) (db : FleetDb)
  : FleetDb :=
  let keyed s := match key with Some k => rstr_eqb (sr_identity (ws_row s)) k | None => true end in
  let of_session id := match db_sessions db !! id with Some s => keyed s | None => false end in
  let db := with_attempts (update_where
      (fun _ a => of_session (ar_session (at_row a)) && (ar_worker (at_row a) =? worker)
                  && attempt_active (at_status a))
      (fun a => with_attempt_expiry (Z.min (at_offer_expires a) (tx_now env))
                                    (Z.min (at_lease_expires a) (tx_now env)) a)) db in
  with_sessions (update_where
    (fun _ s => (sr_worker (ws_row s) =? worker) && keyed s && session_live (ws_status s))
    (fun s => with_session_expiry (Z.min (ws_expires_at s) (tx_now env))
                (with_session_status
                   (if session_idle (ws_status s) then S_Draining else ws_status s) s))) db.

(** [emergency_disable_worker]. *)
Definition emergency_disable_worker (env : TxEnv) (worker : Uuid)
  : Tx WorkerRegistryMutation := fun db =>
  match db_workers db !! worker with
  | None => Ok (M_NotFound, db)
  | Some w =>
      let db := with_workers <[worker := {| wk_display_name := wk_display_name w;
          wk_allowed := wk_allowed w; wk_profile := wk_profile w; wk_enabled := false;
          wk_draining := true; wk_shutdown_session := wk_shutdown_session w;
          wk_lifecycle_generation := wk_lifecycle_generation w |}]> db in
      Ok (M_Applied, expire_worker_leases env worker None db)
  end.

(** [emergency_revoke_identity]. *)
Definition emergency_revoke_identity (env : TxEnv) (worker : Uuid) (key : rstr)
  : Tx WorkerRegistryMutation := fun db =>
  match db_identities db !! key with
  | Some k =>
      if negb (ik_worker k =? worker) then Ok (M_NotFound, db)
      else if bool_decide (ik_revoked_at k = None) then
        Ok (M_Applied, expire_worker_leases env worker (Some key)
                         (revoke_key (tx_now env) key db))
      else Ok (M_Unchanged, db)
  | None => Ok (M_NotFound, db)
  end.

Record WorkerAuthorization := {
  wa_worker_id : Uuid;
  wa_allowed : gset WorkerCapability;
  wa_profile : option rstr;
  wa_draining : bool
}.

(** [authorize_worker]. *)
Definition authorize_worker (key : rstr) (db : FleetDb) : option WorkerAuthorization :=
  match db_identities db !! key with
  | Some k =>
      match db_workers db !! ik_worker k with
      | Some w =>
          if bool_decide (ik_revoked_at k = None) && wk_enabled w then
            Some {| wa_worker_id := ik_worker k; wa_allowed := wk_allowed w;
                    wa_profile := wk_profile w; wa_draining := wk_draining w |}
          else None
      | None => None
      end
  | None => None
  end.

(** ** Sessions *)
Record AuthorizedSession := {
  au_contract : ProtocolContract;
  au_worker_id : Uuid;
  au_session_id : Uuid;
  au_effective : gset WorkerCapability;
  au_profile : option rstr;
  au_draining : bool;
  au_expires_at : Z
}.

Definition authorized_session (contract : ProtocolContract) (worker session : Uuid)
    (effective : gset WorkerCapability) (w : Worker) (expires_at : Z) : AuthorizedSession :=
  {| au_contract := contract; au_worker_id := worker; au_session_id := session;
     au_effective := effective; au_profile := wk_profile w; au_draining := wk_draining w;
     au_expires_at := expires_at |}.

(** The row of the registry for a worker that presents an active identity key. *)
Definition registered_worker (worker : Uuid) (key : rstr) (db : FleetDb) : option Worker :=
  match db_workers db !! worker, db_identities db !! key with
  | Some w, Some k =>
      if (ik_worker k =? worker) && bool_decide (ik_revoked_at k = None) then Some w else None
  | _, _ => None
  end.

(** The registration facts of a session are those of the request. *)
Definition same_facts (r : RegisterSessionRequest) (key : rstr) (s : SessionRow) : bool :=
  (sr_protocol_version s =? rs_protocol_version r)
  && bool_decide (sr_offer s = rs_protocol_offer r)
  && bool_decide (sr_preflight s = rs_preflight r)
  && rstr_eqb (sr_software_version s) (rs_software_version r)
  && bool_decide (sr_advertised s = rs_advertised_capabilities r)
  && bool_decide (sr_resources s = rs_resources r)
  && rstr_eqb (sr_identity s) key.

(** Another session of the worker started no earlier, or is still running. *)
Definition superseded (now : Z) (worker session : Uuid) (s : Session) (db : FleetDb) : bool :=
  exists_row (fun id other =>
      (sr_worker (ws_row other) =? worker) && negb (id =? session)
      && ((sr_started_at (ws_row s) <=? sr_started_at (ws_row other))
          || (bool_decide (ws_ended_at other = None) && (now <? ws_expires_at other))))
    (db_sessions db).

(** The branch of [register_session] for a session UUID that exists. *)
Definition register_existing (env : TxEnv) (worker : Uuid) (key : rstr)
    (r : RegisterSessionRequest) (offer : ProtocolOffer) (floor : Z) (w : Worker)
    (effective : gset WorkerCapability) (expires_at : Z) (s : Session)
  : Tx AuthorizedSession := fun db =>
  let session := rs_worker_session_id r in
  if negb (same_facts r key (ws_row s)) then Err (Registration FactsChanged)
  else
    let persisted := sr_contract (ws_row s) in
    map_err Negotiation (validate_selection offer persisted) ;?
    if pc_revision persisted <? floor then Err (Registration ProtocolIncompatible)
    else if bool_decide (ws_status s = S_Deregistered)
            || superseded (tx_now env) worker session s db
    then Err (Registration Superseded)
    else
      let recovering := bool_decide (ws_status s = S_Offline)
                        || (ws_expires_at s <=? tx_now env) in
      if recovering && has_active_attempt worker db then Err (Registration RecoveryPending)
      else
        let status := if wk_draining w then S_Draining
                      else if recovering then S_Idle else ws_status s in
        let? db := put_session session
          {| ws_row := ws_row s; ws_status := status; ws_effective := effective;
             ws_buffer_len := ws_buffer_len s; ws_last_heartbeat := tx_now env;
             ws_expires_at := expires_at; ws_ended_at := None |} db in
        Ok (authorized_session persisted worker session effective w expires_at, db).

(** The active attempts of the worker's other sessions. *)
Definition predecessor_attempts (worker session : Uuid) (db : FleetDb) : list (Uuid * Attempt) :=
  rows (fun _ a => (ar_worker (at_row a) =? worker) && negb (ar_session (at_row a) =? session)
                   && attempt_active (at_status a)) (db_attempts db).

Definition fence_attempts (env : TxEnv) (attempts : list (Uuid * Attempt)) (db : FleetDb)
  : FleetDb :=
  foldl (fun db '(id, a) =>
    retire_attempt env A_Fenced (lit "predecessor worker session was fenced")
      (lit "worker process registered a successor session") id a db) db attempts.

(** The branch for a new session UUID: end the predecessors, fence their
    attempts, insert the session. *)
Definition register_new (env : TxEnv) (worker : Uuid) (key : rstr)
    (r : RegisterSessionRequest) (contract : ProtocolContract) (w : Worker)
    (effective : gset WorkerCapability) (expires_at : Z) : Tx AuthorizedSession := fun db =>
  let session := rs_worker_session_id r in
  let db := end_sessions (tx_now env) (fun _ s => (sr_worker (ws_row s) =? worker)
                && session_live (ws_status s) && (ws_expires_at s <=? tx_now env)) db in
  let db := fence_attempts env (predecessor_attempts worker session db) db in
  let db := end_sessions (tx_now env) (fun id s => (sr_worker (ws_row s) =? worker)
                && negb (id =? session) && session_live (ws_status s)) db in
  match db_sessions db !! session with
  | Some _ => Err (Constraint "worker_session_pkey")
  | None =>
      let? db := put_session session
        {| ws_row := {| sr_worker := worker; sr_protocol_version := rs_protocol_version r;
             sr_software_version := rs_software_version r;
             sr_advertised := rs_advertised_capabilities r; sr_resources := rs_resources r;
             sr_started_at := tx_now env; sr_identity := key; sr_offer := rs_protocol_offer r;
             sr_contract := contract; sr_preflight := rs_preflight r |};
           ws_status := if wk_draining w then S_Draining else S_Registered;
           ws_effective := effective; ws_buffer_len := 0; ws_last_heartbeat := tx_now env;
           ws_expires_at := expires_at; ws_ended_at := None |} db in
      Ok (authorized_session contract worker session effective w expires_at, db)
  end.

(** [register_session]. *)
Definition register_session (env : TxEnv) (worker : Uuid) (key : rstr)
    (r : RegisterSessionRequest) (session_ttl : Z) : Tx AuthorizedSession := fun db =>
  map_err InvalidRequest (validate r) ;?
  let? offer := map_err Negotiation
                  (ProtocolOffer_registration (rs_protocol_version r) (rs_protocol_offer r)) in
  let? floor := lock_protocol_policy db in
  let? contract := map_err (fun _ => Registration ProtocolIncompatible) (negotiate offer floor) in
  let? w := ok_or (registered_worker worker key db) (Config "worker is not registered") in
  if negb (wk_enabled w) then Err (Config "worker identity is disabled")
  else
    let effective := rs_advertised_capabilities r ∩ wk_allowed w in
    if bool_decide (effective = ∅)
    then Err (Config "worker advertises no server-authorized capability")
    else
      let expires_at := tx_utc env + session_ttl in
      match db_sessions db !! rs_worker_session_id r with
      | Some s =>
          if sr_worker (ws_row s) =? worker
          then register_existing env worker key r offer floor w effective expires_at s db
          else register_new env worker key r contract w effective expires_at db
      | None => register_new env worker key r contract w effective expires_at db
      end.

(** [deregister_session]. *)
Definition deregister_session (env : TxEnv) (worker session : Uuid) : Tx bool := fun db =>
  match db_sessions db !! session with
  | Some s =>
      if (sr_worker (ws_row s) =? worker)
         && (session_idle (ws_status s) || negb (session_live (ws_status s)))
         && negb (exists_row (fun _ a => (ar_session (at_row a) =? session)
                                && attempt_active (at_status a)) (db_attempts db))
         && negb (has_pending_cleanup worker db)
      then Ok (true, with_sessions <[session :=
             with_session_ended (Some (default (tx_now env) (ws_ended_at s)))
               (with_session_status S_Deregistered s)]> db)
      else Ok (false, db)
  | None => Ok (false, db)
  end.

Inductive IdleWorkerControl := Ctl_Poll | Ctl_LegacyDrain | Ctl_ShutdownAfterIdle.

(** The session and registry rows of an authorized session: the registry is
    enabled and shares a capability with the session. *)
Definition authorized_rows (worker session : Uuid) (db : FleetDb) : option (Session * Worker) :=
  match db_sessions db !! session, db_workers db !! worker with
  | Some s, Some w =>
      if (sr_worker (ws_row s) =? worker) && wk_enabled w
         && negb (bool_decide (sr_advertised (ws_row s) ∩ wk_allowed w = ∅))
      then Some (s, w) else None
  | _, _ => None
  end.

(** [idle_worker_control]. *)
Definition idle_worker_control (env : TxEnv) (worker session : Uuid) (db : FleetDb)
  : result IdleWorkerControl StoreError :=
  match authorized_rows worker session db with
  | Some (s, w) =>
      if bool_decide (ws_ended_at s = None) && (tx_clock env <? ws_expires_at s) then
        if worker_busy worker db then Ok Ctl_Poll
        else
          let features := pc_features (sr_contract (ws_row s)) in
          if bool_decide (wk_shutdown_session w = Some session)
             && bool_decide (ShutdownAfterIdle ∈ features)
          then Ok Ctl_ShutdownAfterIdle
          else if wk_draining w && negb (bool_decide (ResidentCordon ∈ features))
          then Ok Ctl_LegacyDrain
          else Ok Ctl_Poll
      else Err FleetSessionInactive
  | None => Err FleetSessionInactive
  end.

(** [session_is_active]. *)
Definition session_is_active (env : TxEnv) (worker session : Uuid) (db : FleetDb) : bool :=
  match authorized_rows worker session db with
  | Some (s, _) => session_live (ws_status s) && (tx_now env <? ws_expires_at s)
  | None => false
  end.
