(* ===== verification/FleetScheduling.v ===== *)
(** * Scheduling: preparation, offers, acceptance, leases

    The scheduling operations of crates/sbgh-postgres/src/stores/fleet.rs
    ([prepare_execution], [poll_offer], [accept_offer], [heartbeat_attempt],
    [expire_stale_attempts]), cancellation (fleet/cancellation.rs) and scheduler
    maintenance (fleet/scheduler.rs). *)
From stdpp Require Import base list strings gmap.
From Stdlib Require Import ZArith Lia.
From S2P Require Import Prelude RustStr Json FleetModel Negotiation Validate FleetDb.
From S2P Require Import FleetSessions.

Local Open Scope Z_scope.

(** ** Preparation *)
Record PreparedExecution := {
  px_scheduler_generation : Z;
  px_job : Uuid;
  px_commit : rstr;
  px_payload : TaskPayload;
  px_payload_hash : rstr
}.

(** The [CHECK] on [execution_payload_hash]: 64 lowercase hexadecimal digits. *)
Definition payload_hash_check (hash : rstr) : bool := lowercase_hex_digest hash.

(** [prepare_execution]. *)
Definition prepare_execution (p : PreparedExecution) : Tx bool := fun db =>
  if sp_paused (db_scheduler db)
     || negb (sp_generation (db_scheduler db) =? px_scheduler_generation p) then Ok (false, db)
  else
    match db_jobs db !! px_job p with
    | Some j =>
        if bool_decide (jb_status j = J_Queued) && bool_decide (jb_payload j = None) then
          if payload_hash_check (px_payload_hash p)
          then Ok (true, with_jobs
                 <[px_job p := with_job_payload (px_commit p) (px_payload p)
                                 (px_payload_hash p) j]> db)
          else Err (Constraint "job_execution_payload_all_or_none")
        else Ok (false, db)
    | None => Ok (false, db)
    end.

(** ** Offers *)
Record OfferedAssignment := {
  oa_offer : WorkOffer;
  oa_repository : rstr;
  oa_commit : rstr;
  oa_installation_id : Z;
  oa_repo_id : Z;
  oa_payload : TaskPayload;
  oa_vcpu_cpuset : option rstr;
  oa_profile : option rstr
}.

(** [offer_from_row] on the join [OFFER_SELECT] of an attempt with its job and
    submission; the lease token is filled in by the daemon. *)
Definition offer_of_attempt (id : Uuid) (a : Attempt) (db : FleetDb)
  : result OfferedAssignment StoreError :=
  match db_jobs db !! ar_job (at_row a), db_submissions db !! ar_submission (at_row a) with
  | Some j, Some sub =>
      match jb_payload j, jb_commit j with
      | Some (payload, _), Some commit =>
          Ok {| oa_offer := {|
                  wo_identity := {| ai_worker_session_id := ar_session (at_row a);
                     ai_attempt_id := id; ai_fencing_generation := ar_fence (at_row a);
                     ai_lease_token := [] |};
                  wo_job_id := ar_job (at_row a); wo_trace_id := ar_trace (at_row a);
                  wo_capability := ar_capability (at_row a);
                  wo_requirements := OfferRequirements_from payload;
                  wo_payload_hash := ar_payload_hash (at_row a);
                  wo_offer_expires_at_ms := at_offer_expires a |};
                oa_repository := jr_repository (jb_row j); oa_commit := commit;
                oa_installation_id := jr_installation_id (jb_row j);
                oa_repo_id := jr_repo_id (jb_row j); oa_payload := payload;
                oa_vcpu_cpuset := None; oa_profile := sb_assigned_profile sub |}
      | _, _ => Err (Config "column is null")
      end
  | _, _ => Err (Config "no such row")
  end.

(** The minimum of a list in a strict order: [ORDER BY ... LIMIT 1]. *)
Fixpoint first_by {A} (lt : A -> A -> bool) (l : list A) : option A :=
  match l with
  | [] => None
  | x :: rest =>
      match first_by lt rest with
      | Some y => Some (if lt y x then y else x)
      | None => Some x
      end
  end.

(** The worker's current unexpired offer. *)
Definition existing_offer (env : TxEnv) (worker session : Uuid) (db : FleetDb)
  : option (Uuid * Attempt) :=
  first_by (fun x y => ar_created_at (at_row x.2) <? ar_created_at (at_row y.2))
    (rows (fun _ a => (ar_worker (at_row a) =? worker) && (ar_session (at_row a) =? session)
             && bool_decide (at_status a = A_Offered) && (tx_now env <? at_offer_expires a))
       (db_attempts db)).

Definition opt_allows {A} `{EqDecision A} (o : option A) (x : A) : bool :=
  match o with Some y => bool_decide (y = x) | None => true end.

(** The [WHERE] clause of the scheduling query for one job. *)
Definition schedulable (worker : Uuid) (profile : option rstr)
    (capabilities : gset WorkerCapability) (db : FleetDb) (j : Job) : bool :=
  match db_submissions db !! jr_submission (jb_row j) with
  | None => false
  | Some sub =>
      let benchmark := bool_decide (jr_task_kind (jb_row j) = Kind_Benchmark) in
      bool_decide (jb_status j = J_Queued)
      && match jb_payload j with Some _ => true | None => false end
      && match jb_commit j with Some _ => true | None => false end
      && (negb (bool_decide (jr_source (jb_row j) = Src_Slack))
          || match sb_slack sub with Some (Some _) => true | _ => false end)
      && bool_decide (jr_capability (jb_row j) ∈ capabilities)
      && opt_allows (sb_required_worker sub) worker
      && opt_allows (sb_assigned_worker sub) worker
      && (negb benchmark || bool_decide (sb_required_profile sub = None)
          || bool_decide (sb_required_profile sub = profile))
      && (negb benchmark || bool_decide (sb_assigned_profile sub = None)
          || bool_decide (sb_assigned_profile sub = profile))
      && negb (exists_row (fun _ a => (ar_submission (at_row a) =? jr_submission (jb_row j))
                              && attempt_active (at_status a)) (db_attempts db))
  end.

(** [ORDER BY j.created_at, j.id ... SKIP LOCKED LIMIT 1]. *)
Definition job_before (x y : Uuid * Job) : bool :=
  (jr_created_at (jb_row x.2) <? jr_created_at (jb_row y.2))
  || ((jr_created_at (jb_row x.2) =? jr_created_at (jb_row y.2)) && (x.1 <? y.1)).
Definition next_job (env : TxEnv) (worker : Uuid) (profile : option rstr)
    (capabilities : gset WorkerCapability) (db : FleetDb) : option (Uuid * Job) :=
  first_by job_before
    (rows (fun id j => negb (bool_decide (id ∈ tx_locked env))
             && negb (bool_decide (jr_submission (jb_row j) ∈ tx_locked env))
             && schedulable worker profile capabilities db j) (db_jobs db)).

(** The constraints of [worker_attempt] on insertion. *)
Definition insert_attempt (id : Uuid) (a : Attempt) (db : FleetDb) : result FleetDb StoreError :=
  let same f := exists_row (fun _ b => f b) (db_attempts db) in
  if match db_attempts db !! id with Some _ => true | None => false end
  then Err (Constraint "worker_attempt_pkey")
  else if same (fun b => ar_trace (at_row b) =? ar_trace (at_row a))
  then Err (Constraint "worker_attempt_trace_id_key")
  else if same (fun b => (ar_job (at_row b) =? ar_job (at_row a))
                         && (ar_fence (at_row b) =? ar_fence (at_row a)))
  then Err (Constraint "worker_attempt_job_id_fencing_generation_key")
  else if same (fun b => (ar_job (at_row b) =? ar_job (at_row a)) && attempt_active (at_status b))
  then Err (Constraint "worker_attempt_one_active_job_idx")
  else if same (fun b => (ar_submission (at_row b) =? ar_submission (at_row a))
                         && attempt_active (at_status b))
  then Err (Constraint "worker_attempt_one_active_unit_idx")
  else Ok (with_attempts <[id := a]> db).

(** The UUIDs a poll draws. *)
Record PollIds := { pi_claim : Uuid; pi_attempt : Uuid; pi_trace : Uuid }.

Definition set_session_status (now : Z) (st : SessionStatus) (session : Uuid) (db : FleetDb)
  : FleetDb :=
  with_sessions (alter (fun s => with_session_heartbeat now (with_session_status st s)) session) db.

(** The second half of [poll_offer]: place the submission on the worker, advance
    its fence, claim the job and insert the attempt.  The placement and claim
    updates repeat conditions that the query for the job has just established
    under its row locks. *)
Definition make_offer (env : TxEnv) (ids : PollIds) (worker session : Uuid)
    (offer_ttl lease_ttl : Z) (profile : option rstr) (job : Uuid) (j : Job)
    (payload : TaskPayload) (hash commit : rstr) (db : FleetDb)
  : result (option OfferedAssignment * FleetDb) StoreError :=
  match db_submissions db !! jr_submission (jb_row j) with
  | None => Err (Config "no such row")
  | Some sub =>
      let fence := sb_fencing_generation sub + 1 in
      let offer_expires := tx_utc env + offer_ttl in
      let profile_for_submission :=
        if decide (jr_capability (jb_row j) = Cap_Benchmark) then profile else None in
      let sub' := {| sb_required_worker := sb_required_worker sub;
          sb_required_profile := sb_required_profile sub;
          sb_recovery_of := sb_recovery_of sub;
          sb_execution_generation := sb_execution_generation sub;
          sb_assigned_worker := Some (default worker (sb_assigned_worker sub));
          sb_assigned_profile := match sb_assigned_profile sub with
                                 | None => profile_for_submission | Some p => Some p end;
          sb_fencing_generation := fence; sb_slack := sb_slack sub |} in
      let a := {| at_row := {| ar_job := job; ar_submission := jr_submission (jb_row j);
            ar_worker := worker; ar_session := session; ar_fence := fence;
            ar_execution_generation := sb_execution_generation sub; ar_claim_token := pi_claim ids;
            ar_trace := pi_trace ids; ar_capability := jr_capability (jb_row j);
            ar_payload_hash := hash;
            ar_scheduler_generation := sp_generation (db_scheduler db);
            ar_created_at := tx_now env |};
          at_status := A_Offered; at_offer_expires := offer_expires;
          at_lease_expires := tx_utc env + lease_ttl; at_accepted_at := None;
          at_contiguous := 0; at_projected := 0; at_terminal := None |} in
      let db := with_submissions <[jr_submission (jb_row j) := sub']> db in
      let db := with_jobs <[job := with_job_claim (Some (pi_claim ids)) (Some (tx_now env))
                                     (with_job_status J_Claimed j)]> db in
      let? db := insert_attempt (pi_attempt ids) a db in
      Ok (Some {| oa_offer := {|
             wo_identity := {| ai_worker_session_id := session; ai_attempt_id := pi_attempt ids;
                               ai_fencing_generation := fence; ai_lease_token := [] |};
             wo_job_id := job; wo_trace_id := pi_trace ids;
             wo_capability := jr_capability (jb_row j);
             wo_requirements := OfferRequirements_from payload; wo_payload_hash := hash;
             wo_offer_expires_at_ms := offer_expires |};
           oa_repository := jr_repository (jb_row j); oa_commit := commit;
           oa_installation_id := jr_installation_id (jb_row j);
           oa_repo_id := jr_repo_id (jb_row j); oa_payload := payload; oa_vcpu_cpuset := None;
           oa_profile := profile_for_submission |},
          set_session_status (tx_now env) S_Offered session db)
  end.

Definition session_polls (s : SessionStatus) : bool :=
  match s with S_Registered | S_Idle | S_Offered | S_Draining => true | _ => false end.

(** [poll_offer]. *)
Definition poll_offer (env : TxEnv) (ids : PollIds) (worker session : Uuid)
    (offer_ttl lease_ttl : Z) : Tx (option OfferedAssignment) := fun db =>
  let? floor := lock_protocol_policy db in
  match authorized_rows worker session db with
  | Some (s, w) =>
      if negb ((tx_now env <? ws_expires_at s) && session_polls (ws_status s)) then Ok (None, db)
      else
        let renewed := with_sessions (alter (fun s =>
            with_session_heartbeat (tx_now env)
              (with_session_expiry (tx_now env + duration_ms (lease_ttl * 2)) s)) session) db in
        let contract := sr_contract (ws_row s) in
        map_err Negotiation (validate_selection ProtocolOffer_current contract) ;?
        if pc_revision contract <? floor then Err (Registration ProtocolIncompatible)
        else if wk_draining w || bool_decide (wk_shutdown_session w = Some session) then
          Ok (None, with_sessions (alter (with_session_status S_Draining) session) renewed)
        else if sp_paused (db_scheduler db) || has_pending_cleanup worker db then
          Ok (None, renewed)
        else
          match existing_offer env worker session db with
          | Some (id, a) =>
              if negb (ar_scheduler_generation (at_row a) =? sp_generation (db_scheduler db))
              then Ok (None, renewed)
              else
                let? offered := offer_of_attempt id a db in
                Ok (if supports_payload contract (oa_payload offered) then Some offered else None,
                    renewed)
          | None =>
              let capabilities :=
                filter (fun c => supports_capability contract c = true)
                  (sr_advertised (ws_row s) ∩ wk_allowed w) in
              match next_job env worker (wk_profile w) capabilities db with
              | None => Ok (None, set_session_status (tx_now env) S_Idle session renewed)
              | Some (job, j) =>
                  match jb_payload j, jb_commit j with
                  | Some (payload, hash), Some commit =>
                      if negb (supports_payload contract payload) then Ok (None, db)
                      else make_offer env ids worker session offer_ttl lease_ttl (wk_profile w)
                             job j payload hash commit renewed
                  | _, _ => Err (Config "column is null")
                  end
              end
          end
  | None => Ok (None, db)
  end.

(** [offered_assignment]. *)
Definition offered_assignment (env : TxEnv) (worker : Uuid) (i : AttemptIdentity) (db : FleetDb)
  : result (option OfferedAssignment) StoreError :=
  match find_attempt worker i db with
  | Some a =>
      if attempt_active (at_status a) && (tx_now env <? at_lease_expires a) && authorized a db
         && match db_sessions db !! ar_session (at_row a) with
            | Some s => (tx_now env <? ws_expires_at s) && session_live (ws_status s)
            | None => false
            end
      then let? o := offer_of_attempt (ai_attempt_id i) a db in Ok (Some o)
      else Ok None
  | None => Ok None
  end.

(** [completion_assignment]. *)
Definition completion_assignment (worker : Uuid) (i : AttemptIdentity) (db : FleetDb)
  : result (option OfferedAssignment) StoreError :=
  match find_attempt worker i db with
  | Some a =>
      if (attempt_executing (at_status a) || attempt_terminal (at_status a)) && authorized a db
      then let? o := offer_of_attempt (ai_attempt_id i) a db in Ok (Some o)
      else Ok None
  | None => Ok None
  end.

(** ** Acceptance *)

(** The guard of [accept_offer] on an offered attempt. *)
Definition may_accept (w : Worker) (worker session : Uuid) (a : Attempt) (db : FleetDb) : bool :=
  negb (negb (bool_decide (at_status a = A_Offered))
        || negb (wk_enabled w) || wk_draining w
        || bool_decide (wk_shutdown_session w = Some session)
        || sp_paused (db_scheduler db)
        || has_pending_cleanup worker db
        || negb (ar_scheduler_generation (at_row a) =? sp_generation (db_scheduler db))).

(** The detail of the [claimed] event. *)
Definition claimed_detail (i : AttemptIdentity) (worker : Uuid) : Value :=
  jobj [("attempt_id", juuid (ai_attempt_id i));
        ("fencing_generation", jint (ai_fencing_generation i)); ("worker_id", juuid worker)].

(** [accept_offer]. *)
Definition accept_offer (env : TxEnv) (worker : Uuid) (i : AttemptIdentity) (lease_ttl : Z)
  : Tx bool := fun db =>
  let? floor := lock_protocol_policy db in
  match db_workers db !! worker, find_attempt worker i db with
  | Some w, Some a =>
      if attempt_executing (at_status a) then Ok (true, db)
      else if negb (may_accept w worker (ai_worker_session_id i) a db) then Ok (false, db)
      else
        match db_sessions db !! ai_worker_session_id i with
        | Some s =>
            if negb ((sr_worker (ws_row s) =? worker)
                     && (floor <=? pc_revision (sr_contract (ws_row s))))
            then Err (Registration ProtocolIncompatible)
            else
              match db_jobs db !! ar_job (at_row a) with
              | Some j =>
                  if negb (bool_decide (jb_claim_token j = Some (ar_claim_token (at_row a)))
                           && bool_decide (jb_status j = J_Claimed))
                     || negb (tx_now env <? at_offer_expires a)
                  then Ok (false, db)
                  else
                    let db := with_jobs <[ar_job (at_row a) := with_job_status J_Running j]> db in
                    let db := with_attempts <[ai_attempt_id i :=
                        with_attempt_accepted (tx_now env)
                          (tx_now env + duration_ms lease_ttl) a]> db in
                    let? db := put_session (ai_worker_session_id i)
                        (with_session_heartbeat (tx_now env) (with_session_status S_Running s)) db in
                    Ok (true, insert_job_event (ar_job (at_row a)) Ev_Claimed true None
                                (Some (claimed_detail i worker)) db)
              | None => Ok (false, db)
              end
        | None => Err (Registration ProtocolIncompatible)
        end
  | _, _ => Ok (false, db)
  end.

(** ** Heartbeats *)
Record AttemptHeartbeat := {
  ah_desired_state : DesiredState;
  ah_lease_expires_at : Z;
  ah_contiguous : Z
}.

(** [heartbeat_attempt]. *)
Definition heartbeat_attempt (env : TxEnv) (worker : Uuid) (i : AttemptIdentity) (lease_ttl : Z)
    (reliable_buffer_len : option Z) : Tx (option AttemptHeartbeat) := fun db =>
  match find_attempt worker i db with
  | Some a =>
      match db_workers db !! worker, db_sessions db !! ar_session (at_row a) with
      | Some w, Some s =>
          if authorized a db && attempt_executing (at_status a)
             && (tx_now env <? at_lease_expires a)
          then if match reliable_buffer_len with
                  | Some n => negb (n <=? 4096) | None => false end
          then Err (Constraint "worker_session_reliable_buffer_len_check")
          else
            let lease := tx_now env + duration_ms lease_ttl in
            let db := with_attempts <[ai_attempt_id i := with_attempt_lease lease a]> db in
            let db := with_sessions (alter (fun s =>
                with_session_buffer (default (ws_buffer_len s) reliable_buffer_len)
                  (with_session_heartbeat (tx_now env)
                     (with_session_expiry (tx_now env + duration_ms (lease_ttl * 2)) s)))
                (ai_worker_session_id i)) db in
            let desired :=
              if decide (at_status a = A_CancelRequested) then DS_Cancel
              else if wk_draining w
                      && negb (bool_decide (ResidentCordon ∈ pc_features (sr_contract (ws_row s))))
              then DS_Drain else DS_Continue in
            Ok (Some {| ah_desired_state := desired; ah_lease_expires_at := lease;
                        ah_contiguous := at_contiguous a |}, db)
          else Ok (None, db)
      | _, _ => Ok (None, db)
      end
  | None => Ok (None, db)
  end.

(** ** Cancellation (fleet/cancellation.rs) *)

(** The job's active attempt; the unique index allows at most one. *)
Definition active_attempt_of (job : Uuid) (db : FleetDb) : option (Uuid * Attempt) :=
  head (rows (fun _ a => (ar_job (at_row a) =? job) && attempt_active (at_status a))
          (db_attempts db)).

Definition job_pending_cleanup (job : Uuid) (o : Obligation) : bool :=
  (ob_job o =? job) && bool_decide (ob_status o = C_Pending).

(** The final statement of [cancellation::request]: cancel a job that has not
    started. *)
Definition cancel_unstarted (job : Uuid) (j : Job) (db : FleetDb) : bool * FleetDb :=
  match jb_status j with
  | J_Queued | J_Claimed =>
      (true, insert_job_event job Ev_Cancelled true
               (Some (lit "cancelled before worker execution started")) None
               (with_jobs <[job := with_job_claim None None (with_job_status J_Cancelled j)]> db))
  | _ => (false, db)
  end.

(** The part after the attempt was handled: a running job that waits for cleanup
    is no longer requeued; otherwise the job is cancelled if it has not
    started. *)
Definition cancel_job (job : Uuid) (j : Job) (db : FleetDb) : bool * FleetDb :=
  if exists_row (fun _ o => job_pending_cleanup job o) (db_obligations db)
     && bool_decide (jb_status j = J_Running)
  then (true, with_obligations (update_where (fun _ o => job_pending_cleanup job o)
                                  (with_obligation_requeue false)) db)
  else cancel_unstarted job j db.

(** Fence an offer that is being cancelled. *)
Definition fence_offer (env : TxEnv) (id : Uuid) (a : Attempt) (db : FleetDb) : FleetDb :=
  let db := discard_attempt_projection env id (lit "offered work was cancelled") db in
  let db := with_attempts (alter (with_attempt_status A_Fenced) id) db in
  with_sessions (alter (fun s =>
      if decide (ws_status s = S_Offered)
      then with_session_heartbeat (tx_now env) (with_session_status S_Idle s) else s)
    (ar_session (at_row a))) db.

(** [cancellation::request]. *)
Definition cancellation_request (env : TxEnv) (job : Uuid) (db : FleetDb) : bool * FleetDb :=
  match db_jobs db !! job with
  | None => (false, db)
  | Some j =>
      if decide (jb_status j = J_Cancelled) then (true, db)
      else
        match active_attempt_of job db with
        | Some (id, a) =>
            if attempt_executing (at_status a)
            then (true, with_attempts (alter (with_attempt_status A_CancelRequested) id) db)
            else cancel_job job j (fence_offer env id a db)
        | None => cancel_job job j db
        end
  end.

(** [request_cancel]. *)
Definition request_cancel (env : TxEnv) (job : Uuid) : Tx bool := fun db =>
  Ok (cancellation_request env job db).

(** ** Lease expiry *)

(** The deadline an attempt is swept at. *)
Definition attempt_deadline (a : Attempt) : Z :=
  if decide (at_status a = A_Offered) then at_offer_expires a else at_lease_expires a.

Definition stale_attempts (env : TxEnv) (db : FleetDb) : list (Uuid * Attempt) :=
  rows (fun id a => attempt_active (at_status a) && (attempt_deadline a <=? tx_now env)
                    && negb (bool_decide (id ∈ tx_locked env))) (db_attempts db).

Definition end_session (env : TxEnv) (session : Uuid) (db : FleetDb) : FleetDb :=
  with_sessions (alter (fun s =>
    if session_live (ws_status s)
    then with_session_ended (Some (tx_now env)) (with_session_status S_Offline s) else s) session) db.

(** The loop body of [expire_stale_attempts]. *)
Definition expire_attempt (env : TxEnv) (id : Uuid) (a : Attempt) (db : FleetDb) : FleetDb :=
  end_session env (ar_session (at_row a))
    (retire_attempt env A_Expired (lit "attempt lease expired before report projection")
       (lit "lease expired while local execution may exist") id a db).

(** [expire_stale_attempts]. *)
Definition expire_stale_attempts (env : TxEnv) : Tx nat := fun db =>
  let stale := stale_attempts env db in
  Ok (length stale, foldl (fun db '(id, a) => expire_attempt env id a db) db stale).

(** ** Slack admission *)

(** [fail_locked_queued_jobs]: the jobs that were failed. *)
Fixpoint fail_locked_queued_jobs (jobs : list Uuid) (remark : rstr) (db : FleetDb)
  : list Uuid * FleetDb :=
  match jobs with
  | [] => ([], db)
  | job :: rest =>
      match db_jobs db !! job with
      | Some j =>
          if decide (jb_status j = J_Queued) then
            let '(failed, db') := fail_locked_queued_jobs rest remark
              (insert_job_event job Ev_Failed false (Some remark) None
                 (with_jobs <[job := with_job_status J_Failed j]> db)) in
            (job :: failed, db')
          else fail_locked_queued_jobs rest remark db
      | None => fail_locked_queued_jobs rest remark db
      end
  end.

(** The rows in queue order: [ORDER BY created_at, id]. *)
Definition queued_slack_jobs (env : TxEnv) (p : Job -> option (option rstr) -> bool) (db : FleetDb)
  : list Uuid :=
  map fst (sort_by job_before
    (rows (fun id j => bool_decide (jr_source (jb_row j) = Src_Slack)
             && bool_decide (jb_status j = J_Queued)
             && negb (bool_decide (id ∈ tx_locked env))
             && p j (match db_submissions db !! jr_submission (jb_row j) with
                     | Some sub => sb_slack sub | None => None end)) (db_jobs db))).

(** [expire_unreported_slack_jobs]: Slack jobs that stayed unreported, then those
    without Slack provenance. *)
Definition expire_unreported_slack_jobs (env : TxEnv) (admission_timeout : Z) (remark : rstr)
  : Tx (list Uuid) := fun db =>
  let old j := jr_created_at (jb_row j) <=? tx_now env - Z.max admission_timeout 0 in
  let unreported := queued_slack_jobs env
    (fun j slack => match slack with Some None => old j | _ => false end) db in
  let malformed := queued_slack_jobs env
    (fun j slack => match slack with None => old j | _ => false end) db in
  Ok (fail_locked_queued_jobs (unreported ++ malformed) remark db).

(** [fail_queued_slack_jobs_without_connector]. *)
Definition fail_queued_slack_jobs_without_connector (env : TxEnv) (remark : rstr)
  : Tx (list Uuid) := fun db =>
  Ok (fail_locked_queued_jobs (queued_slack_jobs env (fun _ _ => true) db) remark db).

(** ** Scheduler maintenance (fleet/scheduler.rs) *)
Inductive SchedulerChangeOutcome := Change_Applied (p : SchedulerPolicy) | Change_Conflict.

(** Actor and reason are non-blank and bounded in characters. *)
Definition bounded_text (text : rstr) (limit : nat) : bool :=
  negb (is_empty (trim text)) && (length text <=? limit)%nat.

(** Expire the offers that satisfy [p] and return their claimed jobs to the
    queue. *)
Definition offers_where (p : Attempt -> bool) (db : FleetDb) : list (Uuid * Attempt) :=
  rows (fun _ a => bool_decide (at_status a = A_Offered) && p a) (db_attempts db).
Definition expire_offers (p : Attempt -> bool) (db : FleetDb) : FleetDb :=
  let offered := offers_where p db in
  let db := with_attempts (update_where
      (fun _ a => bool_decide (at_status a = A_Offered) && p a)
      (with_attempt_status A_Expired)) db in
  with_jobs (update_where
    (fun id j => existsb (fun e => (ar_job (at_row e.2) =? id)
                   && bool_decide (jb_claim_token j = Some (ar_claim_token (at_row e.2)))) offered
                 && bool_decide (jb_status j = J_Claimed))
    (fun j => with_job_claim None None (with_job_status J_Queued j))) db.

(** Withdraw every offer: the sessions holding one go back to idle or draining,
    the offers expire, their claimed jobs return to the queue. *)
Definition withdraw_offers (db : FleetDb) : FleetDb :=
  let holds id := existsb (fun e => ar_session (at_row e.2) =? id)
                    (offers_where (fun _ => true) db) in
  let draining id s := match db_workers db !! sr_worker (ws_row s) with
                       | Some w => wk_draining w
                                   || bool_decide (wk_shutdown_session w = Some id)
                       | None => false end in
  let db := with_sessions (map_imap (fun id s => Some (
      if bool_decide (ws_status s = S_Offered) && holds id
      then with_session_status (if draining id s then S_Draining else S_Idle) s else s))) db in
  expire_offers (fun _ => true) db.

(** [change_scheduler]. *)
Definition change_scheduler (env : TxEnv) (c : SchedulerChange)
  : Tx SchedulerChangeOutcome := fun db =>
  if negb (bounded_text (sc_actor c) 128 && bounded_text (sc_reason c) 1024)
  then Err (Config "scheduler actor and reason must be nonempty and bounded")
  else
    match db_scheduler_audit db !! sc_request_id c with
    | Some audit =>
        if negb (Bool.eqb (sc_paused (sa_change audit)) (sc_paused c)
                 && rstr_eqb (sc_actor (sa_change audit)) (sc_actor c)
                 && rstr_eqb (sc_reason (sa_change audit)) (sc_reason c))
        then Ok (Change_Conflict, db)
        else Ok (Change_Applied (sa_policy audit), db)
    | None =>
        let current := db_scheduler db in
        let changed := negb (Bool.eqb (sp_paused current) (sc_paused c)) in
        let policy :=
          if changed then {| sp_paused := sc_paused c; sp_generation := sp_generation current + 1;
                             sp_actor := sc_actor c; sp_reason := sc_reason c;
                             sp_changed_at := tx_clock env |}
          else current in
        let db := with_scheduler (fun _ => policy) db in
        let db := if changed && sc_paused c then withdraw_offers db else db in
        Ok (Change_Applied policy, with_scheduler_audit
              <[sc_request_id c := {| sa_change := c; sa_policy := policy |}]> db)
    end.

(** ** Fleet abort (fleet/abort.rs) *)
(** The jobs an abort selects, in order of their identifiers. *)
Definition abort_selection (scope : FleetAbortScope) (db : FleetDb) : list Uuid :=
  sort_by Z.ltb (map fst (rows (fun _ j =>
    match jb_status j with
    | J_Running => true
    | J_Queued | J_Claimed => bool_decide (scope = Scope_AllPending)
    | _ => false
    end) (db_jobs db))).

(** The loop over the selection: the jobs that accepted the cancellation. *)
Fixpoint cancel_all (env : TxEnv) (jobs : list Uuid) (db : FleetDb) : list Uuid * FleetDb :=
  match jobs with
  | [] => ([], db)
  | job :: rest =>
      let '(ok, db1) := cancellation_request env job db in
      let '(accepted, db2) := cancel_all env rest db1 in
      (if ok then job :: accepted else accepted, db2)
  end.

Inductive FleetAbortOutcome :=
| Abort_Applied (r : FleetAbortReceipt) | Abort_Conflict | Abort_MaintenanceRequired.

(** [abort_fleet]. *)
Definition abort_fleet (env : TxEnv) (r : FleetAbortRequest) : Tx FleetAbortOutcome := fun db =>
  if is_nil (fa_request_id r) || (fa_scheduler_generation r <? 0)
     || negb (bounded_text (fa_actor r) 128) || negb (bounded_text (fa_reason r) 1024)
  then Err (Config "fleet abort requires a non-nil UUID and bounded actor and reason")
  else
    match db_abort_audit db !! fa_request_id r with
    | Some receipt =>
        let q := fr_request receipt in
        Ok (if bool_decide (fa_scope q = fa_scope r)
               && (fa_scheduler_generation q =? fa_scheduler_generation r)
               && rstr_eqb (fa_actor q) (fa_actor r) && rstr_eqb (fa_reason q) (fa_reason r)
            then Abort_Applied receipt else Abort_Conflict, db)
    | None =>
        if negb (sp_paused (db_scheduler db))
           || negb (sp_generation (db_scheduler db) =? fa_scheduler_generation r)
        then Ok (Abort_MaintenanceRequired, db)
        else
          let selected := abort_selection (fa_scope r) db in
          let '(accepted, db) := cancel_all env selected db in
          let receipt := {| fr_request := r; fr_recorded_at := tx_clock env;
                            fr_selected := selected; fr_accepted := accepted |} in
          Ok (Abort_Applied receipt,
              with_abort_audit <[fa_request_id r := receipt]> db)
    end.
