(* ===== verification/FleetEvents.v ===== *)
(** * Events, artifacts, completion and cleanup

    The data plane of crates/sbgh-postgres/src/stores/fleet.rs: the reliable
    event ledger and its projection, progress, artifact staging, the terminal
    saga [accept_terminal], and cleanup obligations. *)
From stdpp Require Import base list strings gmap.
From Stdlib Require Import ZArith Lia.
From S2P Require Import Prelude RustStr Json FleetModel Negotiation Validate FleetDb.
From S2P Require Import FleetSessions FleetScheduling.

Local Open Scope Z_scope.

(** ** Reliable events *)
Inductive EventIngest := Ing_Inserted | Ing_Duplicate | Ing_Stale | Ing_Conflict.

(** The loop that advances the contiguous prefix: at most one iteration per
    stored event of the attempt, so the number of events is enough fuel. *)
Fixpoint advance_contiguous (fuel : nat) (events : gmap (Uuid * Z) AttemptEvent) (attempt : Uuid)
    (contiguous : Z) : Z :=
  match fuel with
  | O => contiguous
  | S fuel' =>
      match events !! (attempt, contiguous + 1) with
      | Some _ => advance_contiguous fuel' events attempt (contiguous + 1)
      | None => contiguous
      end
  end.

(** The attempt an event or progress report belongs to: executing, authorized,
    within its lease, with the reported trace. *)
Definition reporting_attempt (env : TxEnv) (worker : Uuid) (i : AttemptIdentity) (trace : Uuid)
    (db : FleetDb) : option Attempt :=
  match find_attempt worker i db with
  | Some a =>
      if (ar_trace (at_row a) =? trace) && attempt_executing (at_status a)
         && (tx_now env <? at_lease_expires a) && authorized a db
      then Some a else None
  | None => None
  end.

(** [ingest_reliable_event]. *)
Definition ingest_reliable_event (env : TxEnv) (worker : Uuid) (e : ReliableEventEnvelope)
  : Tx EventIngest := fun db =>
  let id := ai_attempt_id (ev_identity e) in
  let seq := as_i64 (ev_reliable_seq e) in
  match reporting_attempt env worker (ev_identity e) (ev_trace_id e) db with
  | None => Ok (Ing_Stale, db)
  | Some a =>
      let finish outcome db :=
        Ok (outcome, with_attempts <[id := with_attempt_contiguous
              (advance_contiguous (size (db_events db)) (db_events db) id (at_contiguous a)) a]> db) in
      if negb ((0 <? seq) && lowercase_hex_digest (ev_payload_digest e))
      then Err (Constraint "worker_attempt_event_check")
      else
        match db_events db !! (id, seq) with
        | Some existing =>
            if negb (bool_decide (ae_payload existing = ev_payload e)
                     && rstr_eqb (ae_digest existing) (ev_payload_digest e)
                     && (ae_trace existing =? ev_trace_id e))
            then Ok (Ing_Conflict, db)
            else finish Ing_Duplicate db
        | None =>
            finish Ing_Inserted (with_events <[(id, seq) :=
              {| ae_trace := ev_trace_id e; ae_payload := ev_payload e;
                 ae_digest := ev_payload_digest e;
                 ae_worker_timestamp := ev_worker_timestamp_ms e; ae_received_at := tx_now env;
                 ae_projected_at := None; ae_discarded := None |}]> db)
        end
  end.

(** An attempt whose events may still be projected: terminal, or executing
    within its lease. *)
Definition projection_authoritative (env : TxEnv) (a : Attempt) : bool :=
  attempt_terminal (at_status a)
  || (attempt_executing (at_status a) && (tx_now env <? at_lease_expires a)).

(** [attempt_projection_is_authoritative]. *)
Definition attempt_projection_is_authoritative (env : TxEnv) (attempt : Uuid) (db : FleetDb)
  : bool :=
  match db_attempts db !! attempt with
  | Some a => projection_authoritative env a
  | None => false
  end.

(** The [WHERE] clause of [unprojected_events] for one event. *)
Definition projectable (env : TxEnv) (db : FleetDb) (k : Uuid * Z) (e : AttemptEvent) : bool :=
  match db_attempts db !! k.1 with
  | Some a =>
      bool_decide (ae_projected_at e = None) && (k.2 =? at_projected a + 1)
      && (k.2 <=? at_contiguous a) && projection_authoritative env a
  | None => false
  end.
Definition event_before (x y : (Uuid * Z) * AttemptEvent) : bool :=
  (ae_received_at x.2 <? ae_received_at y.2)
  || ((ae_received_at x.2 =? ae_received_at y.2)
      && ((x.1.1 <? y.1.1) || ((x.1.1 =? y.1.1) && (x.1.2 <? y.1.2)))).

(** [unprojected_events]. *)
Definition unprojected_events (env : TxEnv) (limit : nat) (db : FleetDb)
  : list ((Uuid * Z) * AttemptEvent) :=
  take limit (sort_by event_before (rows (projectable env db) (db_events db))).

Definition phase_detail (attempt : Uuid) (seq elapsed_ms : Z) : Value :=
  jobj [("attempt_id", juuid attempt); ("reliable_seq", jint seq); ("elapsed_ms", jint elapsed_ms)].

(** [mark_event_projected]. *)
Definition mark_event_projected (env : TxEnv) (attempt : Uuid) (reliable_seq : Z) : Tx bool :=
  fun db =>
  let seq := as_i64 reliable_seq in
  match db_attempts db !! attempt, db_events db !! (attempt, seq) with
  | Some a, Some e =>
      if (at_projected a + 1 =? seq) && (seq <=? at_contiguous a) then
        let db := match ae_payload e with
          | Event_Phase label elapsed_ms =>
              insert_job_event (ar_job (at_row a)) Ev_PhaseFinished true (Some label)
                (Some (phase_detail attempt reliable_seq elapsed_ms)) db
          | Event_Terminal _ => db
          end in
        let db := with_attempts <[attempt := with_attempt_projected seq a]> db in
        Ok (true, with_events <[(attempt, seq) :=
              {| ae_trace := ae_trace e; ae_payload := ae_payload e; ae_digest := ae_digest e;
                 ae_worker_timestamp := ae_worker_timestamp e; ae_received_at := ae_received_at e;
                 ae_projected_at := Some (tx_now env); ae_discarded := ae_discarded e |}]> db)
      else Ok (false, db)
  | _, _ => Ok (false, db)
  end.

(** [ingest_progress]. *)
Definition ingest_progress (env : TxEnv) (worker : Uuid) (p : ProgressRequest) : Tx bool := fun db =>
  let key := (ai_attempt_id (pq_identity p), as_i64 (pq_progress_seq p)) in
  match db_progress db !! key with
  | Some existing =>
      if (ap_trace existing =? pq_trace_id p) && bool_decide (ap_update existing = pq_update p)
      then Ok (false, db)
      else Err (Config "conflicting progress update reused an existing sequence")
  | None =>
      match reporting_attempt env worker (pq_identity p) (pq_trace_id p) db with
      | Some a =>
          if 0 <? as_i64 (pq_progress_seq p) then
            Ok (true, with_progress <[key :=
                  {| ap_trace := ar_trace (at_row a); ap_update := pq_update p;
                     ap_received_at := tx_now env; ap_projected_at := None;
                     ap_discarded := None |}]> db)
          else Err (Constraint "worker_attempt_progress_check")
      | None => Err (Config "stale or unauthorized progress update")
      end
  end.

(** ** Artifacts *)
Record ArtifactGrantRecord := {
  gt_attempt : Uuid;
  gt_object_key : rstr;
  gt_logical_key : rstr;
  gt_size : option Z;
  gt_sha256 : option rstr;
  gt_expires_at : Z
}.

(** The row with a logical key: the [UNIQUE (attempt_id, logical_key)] target. *)
Definition staged_logical (attempt : Uuid) (logical_key : rstr) (db : FleetDb)
  : option (rstr * Staging) :=
  match rows (fun k s => (k.1 =? attempt) && rstr_eqb (sg_logical_key s) logical_key)
          (db_staging db) with
  | (k, s) :: _ => Some (k.2, s)
  | [] => None
  end.

(** [record_artifact_grant]. *)
Definition record_artifact_grant (env : TxEnv) (g : ArtifactGrantRecord) : Tx bool := fun db =>
  let live := match db_attempts db !! gt_attempt g with
    | Some a => attempt_executing (at_status a) && (tx_now env <? at_lease_expires a)
    | None => false end in
  let size := as_i64 <$> gt_size g in
  if negb live then Ok (false, db)
  else if negb (match gt_sha256 g with Some d => lowercase_hex_digest d | None => true end
                && match size with Some n => 0 <=? n | None => true end
                && negb (starts_with [47] (gt_object_key g))
                && negb (starts_with [47] (gt_logical_key g)))
  then Err (Constraint "worker_artifact_staging_check")
  else
    match staged_logical (gt_attempt g) (gt_logical_key g) db with
    | Some (object_key, s) =>
        if rstr_eqb object_key (gt_object_key g)
           && bool_decide (sg_size s = size) && bool_decide (sg_sha256 s = gt_sha256 g)
           && bool_decide (sg_status s = G_Granted)
        then Ok (true, with_staging <[(gt_attempt g, object_key) :=
               {| sg_logical_key := sg_logical_key s; sg_status := sg_status s;
                  sg_size := sg_size s; sg_sha256 := sg_sha256 s;
                  sg_grant_expires := gt_expires_at g; sg_verified_at := sg_verified_at s;
                  sg_promoted_at := sg_promoted_at s; sg_created_at := sg_created_at s |}]> db)
        else Ok (false, db)
    | None =>
        match db_staging db !! (gt_attempt g, gt_object_key g) with
        | Some _ => Err (Constraint "worker_artifact_staging_pkey")
        | None =>
            Ok (true, with_staging <[(gt_attempt g, gt_object_key g) :=
                  {| sg_logical_key := gt_logical_key g; sg_status := G_Granted;
                     sg_size := size; sg_sha256 := gt_sha256 g;
                     sg_grant_expires := gt_expires_at g; sg_verified_at := None;
                     sg_promoted_at := None; sg_created_at := tx_now env |}]> db)
        end
    end.

(** [verify_artifact]. *)
Definition verify_artifact (env : TxEnv) (i : AttemptIdentity) (d : ArtifactDescriptor)
  : Tx bool := fun db =>
  let key := (ai_attempt_id i, ad_key d) in
  match db_staging db !! key, db_attempts db !! ai_attempt_id i with
  | Some s, Some a =>
      if (ar_session (at_row a) =? ai_worker_session_id i)
         && (ar_fence (at_row a) =? as_i64 (ai_fencing_generation i))
         && (attempt_executing (at_status a) || attempt_terminal (at_status a))
         && (attempt_terminal (at_status a) || (tx_now env <? sg_grant_expires s))
         && opt_allows (sg_size s) (as_i64 (ad_size d)) && opt_allows (sg_sha256 s) (ad_sha256 d)
         && rstr_eqb (sg_logical_key s) (ad_logical_key d)
      then
        if lowercase_hex_digest (ad_sha256 d) && (0 <=? as_i64 (ad_size d)) then
          Ok (true, with_staging <[key :=
                {| sg_logical_key := sg_logical_key s;
                   sg_status := if decide (sg_status s = G_Promoted) then G_Promoted
                                else G_Verified;
                   sg_size := Some (as_i64 (ad_size d)); sg_sha256 := Some (ad_sha256 d);
                   sg_grant_expires := sg_grant_expires s; sg_verified_at := Some (tx_now env);
                   sg_promoted_at := sg_promoted_at s; sg_created_at := sg_created_at s |}]> db)
        else Err (Constraint "worker_artifact_staging_check")
      else Ok (false, db)
  | _, _ => Ok (false, db)
  end.

(** A staging row that holds exactly the described artifact. *)
Definition staged_as (d : ArtifactDescriptor) (s : Staging) : bool :=
  bool_decide (sg_size s = Some (as_i64 (ad_size d))) && bool_decide (sg_sha256 s = Some (ad_sha256 d))
  && rstr_eqb (sg_logical_key s) (ad_logical_key d).

(** The loop of [mark_artifacts_promoted]. *)
Fixpoint promote_artifacts (env : TxEnv) (attempt : Uuid) (artifacts : list ArtifactDescriptor)
    (db : FleetDb) : option FleetDb :=
  match artifacts with
  | [] => Some db
  | d :: rest =>
      match db_staging db !! (attempt, ad_key d) with
      | Some s =>
          if staged_as d s && (bool_decide (sg_status s = G_Verified)
                               || bool_decide (sg_status s = G_Promoted))
          then promote_artifacts env attempt rest (with_staging <[(attempt, ad_key d) :=
                 {| sg_logical_key := sg_logical_key s; sg_status := G_Promoted;
                    sg_size := sg_size s; sg_sha256 := sg_sha256 s;
                    sg_grant_expires := sg_grant_expires s; sg_verified_at := sg_verified_at s;
                    sg_promoted_at := Some (default (tx_now env) (sg_promoted_at s));
                    sg_created_at := sg_created_at s |}]> db)
          else None
      | None => None
      end
  end.

(** [mark_artifacts_promoted]. *)
Definition mark_artifacts_promoted (env : TxEnv) (attempt : Uuid)
    (artifacts : list ArtifactDescriptor) : Tx bool := fun db =>
  match db_attempts db !! attempt with
  | Some a =>
      match at_terminal a with
      | Some t =>
          if attempt_terminal (at_status a) && bool_decide (tr_artifacts t = artifacts) then
            match promote_artifacts env attempt artifacts db with
            | Some db' => Ok (true, db')
            | None => Ok (false, db)
            end
          else Ok (false, db)
      | None => Ok (false, db)
      end
  | None => Ok (false, db)
  end.

(** The staged object may be garbage-collected: its attempt lost authority, or
    finished without listing it. *)
Definition reapable (k : Uuid * rstr) (s : Staging) (db : FleetDb) : bool :=
  match sg_status s with
  | G_Granted | G_Uploaded | G_Verified | G_Rejected =>
      match db_attempts db !! k.1 with
      | Some a =>
          match at_status a with
          | A_Expired | A_Fenced => true
          | A_Completed | A_Failed | A_Cancelled =>
              negb (existsb (fun d => rstr_eqb (ad_key d) k.2)
                      (match at_terminal a with Some t => tr_artifacts t | None => [] end))
          | _ => false
          end
      | None => false
      end
  | _ => false
  end.

(** [staged_artifacts_due_for_reap]: the oldest 128 of them. *)
Definition staged_artifacts_due_for_reap (older_than : Z) (db : FleetDb) : list rstr :=
  take 128 (map (fun e => e.1.2)
    (sort_by (fun x y => (sg_created_at x.2 <? sg_created_at y.2)
                || ((sg_created_at x.2 =? sg_created_at y.2) && negb (str_leb y.1.2 x.1.2)))
      (rows (fun k s => reapable k s db && (sg_created_at s <? older_than)) (db_staging db)))).

(** [mark_staged_artifact_reaped]: true when exactly one row was reaped. *)
Definition mark_staged_artifact_reaped (object_key : rstr) : Tx bool := fun db =>
  let p k s := rstr_eqb k.2 object_key && reapable k s db in
  Ok ((length (rows p (db_staging db)) =? 1)%nat,
      with_staging (update_where p (fun s =>
        {| sg_logical_key := sg_logical_key s; sg_status := G_Reaped; sg_size := sg_size s;
           sg_sha256 := sg_sha256 s; sg_grant_expires := sg_grant_expires s;
           sg_verified_at := sg_verified_at s; sg_promoted_at := sg_promoted_at s;
           sg_created_at := sg_created_at s |})) db).

(** ** Completion *)
Record FleetCompletion := {
  fc_result : JobResult;
  fc_metric : option JobMetric;
  fc_baseline_calibration_id : option Z;
  fc_event_detail : option Value;
  fc_block_validation : option BlockValidationResult;
  fc_artifact_manifest : list ArtifactDescriptor
}.
Record FleetFailure := {
  ff_result : option JobResult;
  ff_remark : rstr;
  ff_event_detail : option Value
}.
Inductive FleetTerminalWrite :=
| Write_Completed (c : FleetCompletion)
| Write_Failed (f : FleetFailure)
| Write_Cancelled (remark : rstr).
Record FleetTerminalSubmission := {
  ts_reliable_seq : Z;
  ts_payload_digest : rstr;
  ts_outcome : TerminalOutcome;
  ts_artifacts : list ArtifactDescriptor;
  ts_write : FleetTerminalWrite
}.
Inductive TerminalAcceptance := T_Accepted | T_Duplicate | T_Stale.

Definition insert_result (job : Uuid) (r : JobResult) (db : FleetDb) : result FleetDb StoreError :=
  match db_results db !! job with
  | Some _ => Err (Constraint "job_result_pkey")
  | None => Ok (with_results <[job := r]> db)
  end.

(** [persist_block_result]: the counts must fit [BIGINT] and [INTEGER]. *)
Definition I32_MAX : Z := 2 ^ 31 - 1.
Definition persist_block_result (job attempt : Uuid) (r : BlockValidationResult)
    (artifacts : list ArtifactDescriptor) (db : FleetDb) : result FleetDb StoreError :=
  let fits := forallb (fun v => v <=? I64_MAX)
    [oi_pre_nakamoto_count (br_observed r); oi_nakamoto_count (br_observed r);
     ir_start (br_resolved_range r); ir_end (br_resolved_range r); br_checked_blocks r] in
  if negb fits then Err (Config "count exceeds PostgreSQL BIGINT")
  else if negb ((br_shard_count r <=? I32_MAX) && (br_max_concurrency r <=? I32_MAX))
  then Err (Config "shard_count exceeds INTEGER")
  else if match db_block_results db !! job with Some _ => true | None => false end
          || exists_row (fun _ row => row.1.1 =? attempt) (db_block_results db)
  then Err (Constraint "block_validation_result_pkey")
  else Ok (with_block_results <[job := (attempt, r, artifacts)]> db).

(** [persist_completion]. *)
Definition persist_completion (job attempt : Uuid) (spec : Uuid) (c : FleetCompletion)
    (db : FleetDb) : result FleetDb StoreError :=
  let? db := insert_result job (fc_result c) db in
  let? db :=
    match fc_metric c with
    | Some metric =>
        match db_metrics db !! job with
        | Some _ => Err (Constraint "job_metric_pkey")
        | None => Ok (with_metrics <[job := metric]> db)
        end
    | None => Ok db
    end in
  let db := match fc_baseline_calibration_id c with
            | Some calibration =>
                with_specs (alter (fun x => {| sx_submission := sx_submission x;
                  sx_index := sx_index x; sx_task_kind := sx_task_kind x; sx_commit := sx_commit x;
                  sx_calibration := Some calibration |}) spec) db
            | None => db end in
  let? db :=
    match fc_block_validation c with
    | Some r => persist_block_result job attempt r (fc_artifact_manifest c) db
    | None => Ok db
    end in
  Ok (insert_job_event job Ev_Completed true None (fc_event_detail c) db).

(** [persist_failure]. *)
Definition persist_failure (job : Uuid) (f : FleetFailure) (db : FleetDb)
  : result FleetDb StoreError :=
  let? db := match ff_result f with Some r => insert_result job r db | None => Ok db end in
  Ok (insert_job_event job Ev_Failed false (Some (ff_remark f)) (ff_event_detail f) db).

Definition is_cancelled_outcome (o : TerminalOutcome) : bool :=
  match o with Outcome_Cancelled _ => true | _ => false end.
Definition outcome_matches (o : TerminalOutcome) (w : FleetTerminalWrite) : bool :=
  match o, w with
  | Outcome_Completed _ _, Write_Completed _ | Outcome_Failed _ _ _, Write_Failed _
  | Outcome_Cancelled _, Write_Cancelled _ => true
  | _, _ => false
  end.
Definition write_statuses (w : FleetTerminalWrite) : AttemptStatus * JobStatus :=
  match w with
  | Write_Completed _ => (A_Completed, J_Completed)
  | Write_Failed _ => (A_Failed, J_Failed)
  | Write_Cancelled _ => (A_Cancelled, J_Cancelled)
  end.

(** The same terminal submission as the stored one. *)
Definition same_terminal (t : TerminalRow) (s : FleetTerminalSubmission) : bool :=
  (tr_reliable_seq t =? as_i64 (ts_reliable_seq s))
  && rstr_eqb (tr_payload_digest t) (ts_payload_digest s)
  && value_eqb (to_value (tr_outcome t)) (to_value (ts_outcome s))
  && bool_decide (tr_artifacts t = ts_artifacts s).

Section Terminal.
Context `{DigestEnv}.

(** The submission is bound to the durable terminal event. *)
Definition check_terminal_event (attempt : Uuid) (a : Attempt) (s : FleetTerminalSubmission)
    (db : FleetDb) : result unit StoreError :=
  if at_contiguous a <? as_i64 (ts_reliable_seq s)
  then Err (Config "terminal reliable event is not in the contiguous durable prefix")
  else
    match db_events db !! (attempt, as_i64 (ts_reliable_seq s)) with
    | Some e =>
        match ae_payload e with
        | Event_Terminal outcome_digest =>
            if negb (rstr_eqb (ae_digest e) (ts_payload_digest s))
            then Err (Config "terminal event digest does not match completion")
            else if negb (rstr_eqb outcome_digest (payload_digest (ts_outcome s)))
            then Err (Config "terminal outcome does not match its committed reliable event")
            else Ok tt
        | Event_Phase _ _ => Err (Config "terminal event is missing from durable event ledger")
        end
    | None => Err (Config "terminal event is missing from durable event ledger")
    end.

(** Every listed artifact is verified, and no verified artifact is omitted. *)
Definition check_artifacts (attempt : Uuid) (artifacts : list ArtifactDescriptor) (db : FleetDb)
  : result unit StoreError :=
  for_each (fun d =>
      match db_staging db !! (attempt, ad_key d) with
      | Some s => ensure (bool_decide (sg_status s = G_Verified) && staged_as d s)
                    (Config "artifact is not verified for this attempt")
      | None => Err (Config "artifact is not verified for this attempt")
      end) artifacts ;?
  ensure (Nat.eqb (length (rows (fun k s => (k.1 =? attempt)
                                   && bool_decide (sg_status s = G_Verified)) (db_staging db)))
            (length artifacts))
    (Config "terminal manifest omits a verified attempt artifact").

(** The outcome's rows. *)
Definition persist_write (job attempt spec : Uuid) (w : FleetTerminalWrite) (db : FleetDb)
  : result FleetDb StoreError :=
  match w with
  | Write_Completed c => persist_completion job attempt spec c db
  | Write_Failed f => persist_failure job f db
  | Write_Cancelled remark =>
      Ok (insert_job_event job Ev_Cancelled true (Some remark) None db)
  end.

(** The attempt may submit a terminal outcome. *)
Definition may_terminate (env : TxEnv) (a : Attempt) (s : FleetTerminalSubmission) (db : FleetDb)
  : bool :=
  attempt_executing (at_status a) && authorized a db && (tx_now env <? at_lease_expires a)
  && (negb (bool_decide (at_status a = A_CancelRequested)) || is_cancelled_outcome (ts_outcome s)).

(** [accept_terminal]. *)
Definition accept_terminal (env : TxEnv) (worker : Uuid) (i : AttemptIdentity)
    (s : FleetTerminalSubmission) : Tx TerminalAcceptance := fun db =>
  let id := ai_attempt_id i in
  match find_attempt worker i db with
  | None => Ok (T_Stale, db)
  | Some a =>
      if attempt_terminal (at_status a) then
        Ok (match at_terminal a with
            | Some t => if same_terminal t s then T_Duplicate else T_Stale
            | None => T_Stale end, db)
      else if negb (may_terminate env a s db) then Ok (T_Stale, db)
      else
        check_terminal_event id a s db ;?
        check_artifacts id (ts_artifacts s) db ;?
        if negb (outcome_matches (ts_outcome s) (ts_write s))
        then Err (Config "terminal persistence write does not match protocol outcome")
        else
          let job := ar_job (at_row a) in
          match db_jobs db !! job with
          | Some j =>
              if negb (bool_decide (jb_claim_token j = Some (ar_claim_token (at_row a)))
                       && bool_decide (jb_status j = J_Running))
              then Ok (T_Stale, db)
              else
                let '(attempt_status, job_status) := write_statuses (ts_write s) in
                let db := with_jobs <[job := with_job_status job_status j]> db in
                let? db := persist_write job id (jr_spec (jb_row j)) (ts_write s) db in
                let db := with_attempts <[id := with_attempt_terminal attempt_status
                    {| tr_reliable_seq := as_i64 (ts_reliable_seq s);
                       tr_payload_digest := ts_payload_digest s; tr_outcome := ts_outcome s;
                       tr_artifacts := ts_artifacts s; tr_at := tx_now env |} a]> db in
                let draining := match db_workers db !! worker with
                                | Some w => wk_draining w | None => false end in
                match db_sessions db !! ai_worker_session_id i with
                | Some session =>
                    let? db := put_session (ai_worker_session_id i)
                      (with_session_heartbeat (tx_now env) (with_session_status
                         (if draining then S_Draining else S_Idle) session)) db in
                    Ok (T_Accepted, db)
                | None => Ok (T_Accepted, db)
                end
          | None => Ok (T_Stale, db)
          end
  end.
End Terminal.

(** ** Cleanup *)

(** The worker's session is live and unexpired. *)
Definition session_current (env : TxEnv) (worker session : Uuid) (db : FleetDb) : bool :=
  match db_sessions db !! session with
  | Some s => (sr_worker (ws_row s) =? worker) && session_live (ws_status s)
              && (tx_now env <? ws_expires_at s)
  | None => false
  end.

(** [cleanup_obligations]. *)
Definition cleanup_obligations (env : TxEnv) (worker session : Uuid) (db : FleetDb)
  : list (Z * Obligation) :=
  if session_current env worker session db then
    sort_by (fun x y => ob_created_at x.2 <? ob_created_at y.2)
      (rows (fun _ o => (ob_worker o =? worker) && bool_decide (ob_status o = C_Pending))
         (db_obligations db))
  else [].

(** A running job that was waiting for cleanup is cancelled. *)
Definition cancel_running (job : Uuid) (remark : rstr) (db : FleetDb) : FleetDb :=
  match db_jobs db !! job with
  | Some j =>
      if decide (jb_status j = J_Running) then
        insert_job_event job Ev_Cancelled true (Some remark) None
          (with_jobs <[job := with_job_status J_Cancelled j]> db)
      else db
  | None => db
  end.

(** [complete_cleanup]. *)
Definition complete_cleanup (env : TxEnv) (worker session : Uuid) (obligation : Z)
  : Tx bool := fun db =>
  let active := session_current env worker session db in
  match db_obligations db !! obligation with
  | Some o =>
      if (ob_worker o =? worker) && bool_decide (ob_status o = C_Pending) && active then
        let db := with_obligations
                    <[obligation := with_obligation_status C_Completed (tx_now env) o]> db in
        Ok (true, if ob_requeue o then requeue_job J_Running (ob_job o) db
                  else cancel_running (ob_job o)
                         (lit "cancelled attempt was fenced after its lease expired") db)
      else if negb active then Err FleetSessionInactive
      else Ok ((ob_worker o =? worker) && bool_decide (ob_status o = C_Completed), db)
  | None => if negb active then Err FleetSessionInactive else Ok (false, db)
  end.
