(* ===== verification/FleetAdmin.v ===== *)
(** * Administration

    Worker lifecycle (fleet/lifecycle.rs), the compatibility floor
    (fleet/protocol.rs), the maintenance counters (fleet/quiescence.rs) with the
    scheduler snapshot (fleet/scheduler.rs), the admission verdict of
    sbgh-core db/worker_lifecycle.rs, and the source freeze of a submission
    ([freeze_submission_sources] of fleet.rs). *)
From stdpp Require Import base list strings gmap.
From Stdlib Require Import ZArith Lia.
From S2P Require Import Prelude RustStr Json FleetModel Negotiation Validate FleetDb.
From S2P Require Import FleetSessions FleetScheduling FleetEvents.

Local Open Scope Z_scope.

(** ** Maintenance counters (fleet/quiescence.rs) *)

(** The staging row's attempt is active, or finished with the object in its
    manifest. *)
Definition staging_required (k : Uuid * rstr) (db : FleetDb) : bool :=
  match db_attempts db !! k.1 with
  | Some a =>
      attempt_active (at_status a)
      || (attempt_terminal (at_status a)
          && existsb (fun d => rstr_eqb (ad_key d) k.2)
               (match at_terminal a with Some t => tr_artifacts t | None => [] end))
  | None => false
  end.
Definition staging_open (st : StagingStatus) : bool :=
  match st with G_Granted | G_Uploaded | G_Verified | G_Rejected => true | _ => false end.

Definition count {K A} `{Countable K} (p : K -> A -> bool) (m : gmap K A) : Z :=
  Z.of_nat (length (rows p m)).

Record Counters := {
  ct_active_attempts : Z;
  ct_pending_cleanup : Z;
  ct_pending_projection : Z;
  ct_pending_artifacts : Z;
  ct_garbage_artifacts : Z
}.

(** [COUNTERS_SQL]. *)
Definition counters (db : FleetDb) : Counters :=
  {| ct_active_attempts := count (fun _ a => attempt_active (at_status a)) (db_attempts db);
     ct_pending_cleanup :=
       count (fun _ o => bool_decide (ob_status o = C_Pending)) (db_obligations db);
     ct_pending_projection := count (fun _ a => at_projected a <? at_contiguous a) (db_attempts db);
     ct_pending_artifacts :=
       count (fun k s => staging_open (sg_status s) && staging_required k db
                         && negb (bool_decide (sg_status s = G_Rejected))) (db_staging db);
     ct_garbage_artifacts :=
       count (fun k s => staging_open (sg_status s) && negb (staging_required k db)
                         && match db_attempts db !! k.1 with Some _ => true | None => false end)
         (db_staging db) |}.

(** [scheduler_snapshot]. *)
Record SchedulerSnapshot := { ss_policy : SchedulerPolicy; ss_counters : Counters }.
Definition scheduler_snapshot (db : FleetDb) : SchedulerSnapshot :=
  {| ss_policy := db_scheduler db; ss_counters := counters db |}.

(** The condition under which the floor may move. *)
Definition busy (db : FleetDb) : bool :=
  let c := counters db in
  negb (ct_active_attempts c =? 0) || negb (ct_pending_cleanup c =? 0)
  || negb (ct_pending_projection c =? 0) || negb (ct_pending_artifacts c =? 0).

(** ** Worker lifecycle (fleet/lifecycle.rs) *)
Record WorkerLifecycleChange := {
  wl_request_id : Uuid;
  wl_worker : Uuid;
  wl_action : WorkerLifecycleAction;
  wl_actor : rstr;
  wl_reason : rstr
}.
Inductive WorkerLifecycleOutcome :=
| Life_Applied (r : WorkerLifecycleReceipt) | Life_NotFound | Life_Conflict
| Life_UnsupportedSession.

(** [ORDER BY started_at DESC LIMIT 1] over the worker's sessions. *)
Definition latest_session (p : Session -> bool) (worker : Uuid) (db : FleetDb)
  : option (Uuid * Session) :=
  first_by (fun x y => sr_started_at (ws_row y.2) <? sr_started_at (ws_row x.2))
    (rows (fun _ s => (sr_worker (ws_row s) =? worker) && p s) (db_sessions db)).

(** The session a shutdown targets: live, unexpired, and able to honour it. *)
Definition shutdown_target (env : TxEnv) (worker : Uuid) (db : FleetDb) : option Uuid :=
  match latest_session (fun s => bool_decide (ws_ended_at s = None)
                                 && (tx_clock env <? ws_expires_at s)) worker db with
  | Some (id, s) =>
      if bool_decide (ShutdownAfterIdle ∈ pc_features (sr_contract (ws_row s)))
      then Some id else None
  | None => None
  end.

(** The state changes of [change_worker_lifecycle]: the registry, the unaccepted
    offers of the worker unless it is uncordoned, and its sessions. *)
Definition apply_lifecycle (env : TxEnv) (worker : Uuid) (w : Worker)
    (action : WorkerLifecycleAction) (draining : bool) (shutdown : option Uuid) (generation : Z)
    (db : FleetDb) : FleetDb :=
  let db := with_workers <[worker := {| wk_display_name := wk_display_name w;
      wk_allowed := wk_allowed w; wk_profile := wk_profile w; wk_enabled := wk_enabled w;
      wk_draining := draining; wk_shutdown_session := shutdown;
      wk_lifecycle_generation := generation |}]> db in
  let db := if decide (action = Act_Uncordon) then db
            else expire_offers (fun a => ar_worker (at_row a) =? worker) db in
  with_sessions (update_where
    (fun _ s => (sr_worker (ws_row s) =? worker) && session_polls (ws_status s)
                && (tx_clock env <? ws_expires_at s))
    (with_session_status (if draining then S_Draining else S_Idle))) db.

(** [change_worker_lifecycle]. *)
Definition change_worker_lifecycle (env : TxEnv) (c : WorkerLifecycleChange)
  : Tx WorkerLifecycleOutcome := fun db =>
  if negb (bounded_text (wl_actor c) 128 && bounded_text (wl_reason c) 1024)
  then Err (Config "worker lifecycle actor/reason must be nonempty and bounded")
  else
    match db_lifecycle_audit db !! wl_request_id c with
    | Some r =>
        Ok (if (lr_worker r =? wl_worker c) && bool_decide (lr_action r = wl_action c)
               && rstr_eqb (lr_actor r) (wl_actor c) && rstr_eqb (lr_reason r) (wl_reason c)
            then Life_Applied r else Life_Conflict, db)
    | None =>
        match db_workers db !! wl_worker c with
        | None => Ok (Life_NotFound, db)
        | Some w =>
            let shutting_down := bool_decide (wl_action c = Act_ShutdownAfterIdle) in
            let target := if shutting_down then shutdown_target env (wl_worker c) db else None in
            if shutting_down && bool_decide (target = None)
            then Ok (Life_UnsupportedSession, db)
            else
              let desired_draining := match wl_action c with
                | Act_Cordon => true
                | Act_Uncordon => false
                | Act_ShutdownAfterIdle => wk_draining w
                end in
              let desired_shutdown := match target with
                | Some t => Some t | None => wk_shutdown_session w end in
              let changed := negb (Bool.eqb desired_draining (wk_draining w))
                             || negb (bool_decide (desired_shutdown = wk_shutdown_session w)) in
              let generation := wk_lifecycle_generation w + (if changed then 1 else 0) in
              let receipt := {| lr_worker := wl_worker c; lr_action := wl_action c;
                lr_generation := generation; lr_target_session := target;
                lr_actor := wl_actor c; lr_reason := wl_reason c;
                lr_recorded_at := tx_clock env |} in
              Ok (Life_Applied receipt,
                  with_lifecycle_audit <[wl_request_id c := receipt]>
                    (apply_lifecycle env (wl_worker c) w (wl_action c) desired_draining
                       desired_shutdown generation db))
        end
    end.

(** [set_worker_draining], with the request UUID it draws. *)
Definition set_worker_draining (env : TxEnv) (request worker : Uuid) (draining : bool)
  : Tx WorkerRegistryMutation := fun db =>
  let? (outcome, db') := change_worker_lifecycle env
    {| wl_request_id := request; wl_worker := worker;
       wl_action := if draining then Act_Cordon else Act_Uncordon;
       wl_actor := lit "legacy:drain"; wl_reason := lit "legacy worker drain control" |} db in
  Ok (match outcome with
      | Life_Applied _ => M_Applied
      | Life_NotFound => M_NotFound
      | Life_Conflict | Life_UnsupportedSession => M_Conflict
      end, db').

(** *** Admission *)
Record WorkerMaintenanceSnapshot := {
  mt_worker : Uuid;
  mt_enabled : bool;
  mt_scheduler_paused : bool;
  mt_identity_authorized : bool;
  mt_protocol_compatible : bool;
  mt_effective : gset WorkerCapability;
  mt_profile : option rstr;
  mt_generation : Z;
  mt_cordoned : bool;
  mt_session : option Uuid;
  mt_session_status : option SessionStatus;
  mt_session_live : bool;
  mt_protocol : option ProtocolContract;
  mt_preflight : option PreflightReport;
  mt_shutdown_session : option Uuid;
  mt_active_attempts : Z;
  mt_pending_cleanup : Z
}.

(** [worker_maintenance_snapshot]; [tx_clock] is [statement_timestamp()]. *)
Definition worker_maintenance_snapshot (env : TxEnv) (worker : Uuid) (db : FleetDb)
  : option WorkerMaintenanceSnapshot :=
  match db_workers db !! worker with
  | None => None
  | Some w =>
      let session := latest_session (fun _ => true) worker db in
      let contract := sr_contract ∘ ws_row ∘ snd <$> session in
      let of_session {A} (dflt : A) (f : Session -> A) :=
        match session with Some (_, s) => f s | None => dflt end in
      Some {|
        mt_worker := worker; mt_enabled := wk_enabled w;
        mt_scheduler_paused := sp_paused (db_scheduler db);
        mt_identity_authorized := of_session false (fun s =>
          match db_identities db !! sr_identity (ws_row s) with
          | Some k => (ik_worker k =? worker) && bool_decide (ik_revoked_at k = None)
          | None => false
          end);
        mt_protocol_compatible := match contract with
          | Some c => (pp_minimum_revision (db_protocol db) <=? pc_revision c)
                      && is_ok (validate_selection ProtocolOffer_current c)
          | None => false
          end;
        mt_effective := of_session ∅ (fun s =>
          filter (fun c => supports_capability (sr_contract (ws_row s)) c = true)
            (sr_advertised (ws_row s) ∩ wk_allowed w));
        mt_profile := wk_profile w; mt_generation := wk_lifecycle_generation w;
        mt_cordoned := wk_draining w; mt_session := fst <$> session;
        mt_session_status := ws_status ∘ snd <$> session;
        mt_session_live := of_session false (fun s =>
          bool_decide (ws_ended_at s = None) && (tx_clock env <? ws_expires_at s));
        mt_protocol := contract;
        mt_preflight := of_session None (fun s => sr_preflight (ws_row s));
        mt_shutdown_session := wk_shutdown_session w;
        mt_active_attempts := count (fun _ a => (ar_worker (at_row a) =? worker)
                                                && attempt_active (at_status a)) (db_attempts db);
        mt_pending_cleanup := count (fun _ o => (ob_worker o =? worker)
                                && bool_decide (ob_status o = C_Pending)) (db_obligations db) |}
  end.

Inductive WorkerAdmissionBlocker :=
| B_Disabled | B_Cordoned | B_SchedulerPaused | B_SessionInactive | B_SessionNotIdle
| B_IdentityUnauthorized | B_ProtocolIncompatible | B_NoEffectiveCapabilities
| B_ShutdownRequested | B_ActiveAttempt | B_PendingCleanup.

(** [admission_blockers]. *)
Definition admission_blockers (m : WorkerMaintenanceSnapshot) : list WorkerAdmissionBlocker :=
  omap (fun '(blocked, reason) => if blocked : bool then Some reason else None)
    [ (negb (mt_enabled m), B_Disabled);
      (mt_cordoned m, B_Cordoned);
      (mt_scheduler_paused m, B_SchedulerPaused);
      (negb (mt_session_live m), B_SessionInactive);
      (negb (match mt_session_status m with
             | Some (S_Registered | S_Idle | S_Draining) => true | _ => false end),
       B_SessionNotIdle);
      (negb (mt_identity_authorized m), B_IdentityUnauthorized);
      (negb (mt_protocol_compatible m), B_ProtocolIncompatible);
      (bool_decide (mt_effective m = ∅), B_NoEffectiveCapabilities);
      (match mt_session m with Some _ => true | None => false end
       && bool_decide (mt_session m = mt_shutdown_session m), B_ShutdownRequested);
      (negb (mt_active_attempts m =? 0), B_ActiveAttempt);
      (negb (mt_pending_cleanup m =? 0), B_PendingCleanup) ].

(** ** The compatibility floor (fleet/protocol.rs) *)
Inductive ProtocolPolicyChangeOutcome :=
| Floor_Applied (p : ProtocolPolicy) | Floor_Conflict | Floor_MaintenanceRequired
| Floor_WorkersNotConverged (missing : list Uuid).

(** The enabled workers without a live session at the requested revision. *)
Definition not_converged (env : TxEnv) (revision : Z) (db : FleetDb) : list Uuid :=
  sort_by Z.ltb (map fst (rows (fun id w =>
    wk_enabled w && negb (exists_row (fun _ s => (sr_worker (ws_row s) =? id)
        && bool_decide (ws_ended_at s = None) && (tx_clock env <? ws_expires_at s)
        && session_live (ws_status s) && (revision <=? pc_revision (sr_contract (ws_row s))))
      (db_sessions db))) (db_workers db))).

(** [change_protocol_policy]. *)
Definition change_protocol_policy (env : TxEnv) (c : ProtocolPolicyChange)
  : Tx ProtocolPolicyChangeOutcome := fun db =>
  let outside := Config "protocol floor is outside the supported rolling window" in
  ensure (in_window (pch_minimum_revision c)) outside ;?
  ensure (bounded_text (pch_actor c) 128 && bounded_text (pch_reason c) 1024
          && bounded_text (pch_rollback_evidence c) 2048)
    (Config "protocol policy actor, reason and rollback evidence must be nonempty and bounded") ;?
  let current := db_protocol db in
  ensure (in_window (pp_minimum_revision current)) outside ;?
  match db_protocol_audit db !! pch_request_id c with
  | Some audit =>
      let q := pa_change audit in
      Ok (if (pch_minimum_revision q =? pch_minimum_revision c)
             && rstr_eqb (pch_actor q) (pch_actor c) && rstr_eqb (pch_reason q) (pch_reason c)
             && rstr_eqb (pch_rollback_evidence q) (pch_rollback_evidence c)
          then Floor_Applied (pa_receipt audit) else Floor_Conflict, db)
  | None =>
      let changed := negb (pp_minimum_revision current =? pch_minimum_revision c) in
      let missing := if pp_minimum_revision current <? pch_minimum_revision c
                     then not_converged env (pch_minimum_revision c) db else [] in
      if changed && (negb (sp_paused (db_scheduler db)) || busy db)
      then Ok (Floor_MaintenanceRequired, db)
      else if changed && negb (match missing with [] => true | _ => false end)
      then Ok (Floor_WorkersNotConverged missing, db)
      else
        let receipt :=
          if changed then {| pp_minimum_revision := pch_minimum_revision c;
            pp_generation := pp_generation current + 1; pp_actor := pch_actor c;
            pp_reason := pch_reason c; pp_rollback_evidence := pch_rollback_evidence c;
            pp_changed_at := tx_clock env |}
          else current in
        Ok (Floor_Applied receipt,
            with_protocol_audit <[pch_request_id c := {| pa_change := c; pa_receipt := receipt |}]>
              (with_protocol (fun _ => receipt) db))
  end.

(** ** Source freeze *)
Record ResolvedSpecSource := { rv_spec_id : Uuid; rv_commit : rstr }.

Definition eq_ignore_ascii_case (a b : rstr) : bool :=
  rstr_eqb (map Char.to_ascii_lowercase a) (map Char.to_ascii_lowercase b).

(** The map of the resolved commits: every commit immutable, no spec twice. *)
Fixpoint resolved_sources (sources : list ResolvedSpecSource) (resolved : gmap Uuid rstr)
  : option (gmap Uuid rstr) :=
  match sources with
  | [] => Some resolved
  | x :: rest =>
      if negb (immutable_commit (rv_commit x))
         || match resolved !! rv_spec_id x with Some _ => true | None => false end
      then None
      else resolved_sources rest (<[rv_spec_id x := rv_commit x]> resolved)
  end.

Definition with_job_commit (commit : rstr) (j : Job) : Job :=
  {| jb_row := jb_row j; jb_status := jb_status j; jb_claim_token := jb_claim_token j;
     jb_claimed_at := jb_claimed_at j; jb_commit := Some commit; jb_payload := jb_payload j |}.

(** The loop over the submission's specs: [None] when one is not resolved. *)
Fixpoint freeze_specs (specs : list (Uuid * TaskSpec)) (resolved : gmap Uuid rstr) (db : FleetDb)
  : result (option FleetDb) StoreError :=
  match specs with
  | [] => Ok (Some db)
  | (id, x) :: rest =>
      match resolved !! id with
      | None => Ok None
      | Some commit =>
          let frozen_elsewhere := match sx_commit x with
            | Some c => negb (eq_ignore_ascii_case c commit) | None => false end in
          let conflicting := exists_row (fun _ j => (jr_spec (jb_row j) =? id)
            && match jb_commit j with
               | Some c => negb (eq_ignore_ascii_case c commit) | None => false end) (db_jobs db) in
          if frozen_elsewhere
          then Err (Config "benchmark spec is already frozen to a different commit")
          else if conflicting
          then Err (Config "benchmark spec has a job at a different commit")
          else
            let db := with_specs <[id := {| sx_submission := sx_submission x;
                sx_index := sx_index x; sx_task_kind := sx_task_kind x; sx_commit := Some commit;
                sx_calibration := sx_calibration x |}]> db in
            let db := with_jobs (update_where (fun _ j => (jr_spec (jb_row j) =? id)
                && bool_decide (jb_status j = J_Queued) && bool_decide (jb_commit j = None))
              (with_job_commit commit)) db in
            freeze_specs rest resolved db
      end
  end.

(** [freeze_submission_sources]. *)
Definition freeze_submission_sources (submission : Uuid) (sources : list ResolvedSpecSource)
    (scheduler_generation : Z) : Tx bool := fun db =>
  match resolved_sources sources ∅ with
  | None =>
      Err (Config "group source resolutions must contain unique specs and immutable commits")
  | Some resolved =>
      if sp_paused (db_scheduler db)
         || negb (sp_generation (db_scheduler db) =? scheduler_generation)
      then Ok (false, db)
      else
        let specs := sort_by (fun x y => sx_index x.2 <? sx_index y.2)
          (rows (fun _ x => sx_submission x =? submission) (db_specs db)) in
        if match specs with [] => true | _ => false end
           || negb (length specs =? size resolved)%nat
        then Ok (false, db)
        else
          let? out := freeze_specs specs resolved db in
          Ok (match out with Some db' => (true, db') | None => (false, db) end)
  end.

(** ** Projection reads and progress *)

(** [unprojected_progress]. *)
Definition progress_before (x y : (Uuid * Z) * AttemptProgress) : bool :=
  (ap_received_at x.2 <? ap_received_at y.2)
  || ((ap_received_at x.2 =? ap_received_at y.2)
      && ((x.1.1 <? y.1.1) || ((x.1.1 =? y.1.1) && (x.1.2 <? y.1.2)))).
Definition unprojected_progress (env : TxEnv) (limit : nat) (db : FleetDb)
  : list ((Uuid * Z) * AttemptProgress) :=
  take limit (sort_by progress_before
    (rows (fun k p => bool_decide (ap_projected_at p = None)
             && attempt_projection_is_authoritative env k.1 db) (db_progress db))).

(** [mark_progress_projected]. *)
Definition mark_progress_projected (env : TxEnv) (attempt : Uuid) (progress_seq : Z) : Tx bool :=
  fun db =>
  let seq := as_i64 progress_seq in
  match db_progress db !! (attempt, seq) with
  | Some p =>
      if bool_decide (ap_projected_at p = None) then
        Ok (true, with_progress <[(attempt, seq) :=
              {| ap_trace := ap_trace p; ap_update := ap_update p;
                 ap_received_at := ap_received_at p; ap_projected_at := Some (tx_now env);
                 ap_discarded := ap_discarded p |}]> db)
      else Ok (false, db)
  | None => Ok (false, db)
  end.

Definition has_verified_staging (attempt : Uuid) (db : FleetDb) : bool :=
  exists_row (fun k s => (k.1 =? attempt) && bool_decide (sg_status s = G_Verified)) (db_staging db).

(** [attempt_terminal_outcome]: published once the manifest is promoted. *)
Definition attempt_terminal_outcome (attempt : Uuid) (db : FleetDb) : option TerminalOutcome :=
  match db_attempts db !! attempt with
  | Some a => if attempt_terminal (at_status a) && negb (has_verified_staging attempt db)
              then tr_outcome <$> at_terminal a else None
  | None => None
  end.

(** [accepted_terminal_manifest]. *)
Definition accepted_terminal_manifest (attempt : Uuid) (db : FleetDb)
  : option (list ArtifactDescriptor) :=
  match db_attempts db !! attempt with
  | Some a => if attempt_terminal (at_status a) then tr_artifacts <$> at_terminal a else None
  | None => None
  end.

(** [pending_artifact_promotions]. *)
Definition pending_artifact_promotions (limit : nat) (db : FleetDb)
  : list (Uuid * list ArtifactDescriptor) :=
  take limit (omap (fun e => match at_terminal e.2 with
                             | Some t => Some (e.1, tr_artifacts t) | None => None end)
    (sort_by (fun x y =>
        let at_ e := match at_terminal e.2 with Some t => tr_at t | None => 0 end in
        (at_ x <? at_ y) || ((at_ x =? at_ y) && (x.1 <? y.1)))
      (rows (fun id a => attempt_terminal (at_status a) && has_verified_staging id db)
         (db_attempts db)))).
