(* ===== verification/FleetRecovery.v ===== *)
(** * Recovery of a benchmark submission

    [recover_submission] of crates/sbgh-postgres/src/stores/fleet.rs: an operator
    gives up the cleanup that a lost host still owes and starts the comparison
    again as a new submission, from its first spec and run.  Its copies of the
    workflow steps, the provenance and the GitHub row of the submission, which no
    operation of the fleet store reads, are in SubmissionRecovery. *)
From stdpp Require Import base list strings gmap.
From Stdlib Require Import ZArith Lia.
From S2P Require Import Prelude RustStr Json FleetModel Negotiation Validate FleetDb.
From S2P Require Import FleetSessions FleetScheduling FleetEvents FleetAdmin.

Local Open Scope Z_scope.

Record SubmissionRecovery := {
  sv_prior_submission : Uuid;
  sv_new_submission : Uuid;
  sv_first_job : Uuid;
  sv_execution_generation : Z
}.

(** The UUIDs that are drawn: for the submission, for the copy of the spec with a
    given index, for the first job. *)
Record RecoveryIds := {
  rc_submission : Uuid;
  rc_spec : Z -> Uuid;
  rc_job : Uuid
}.

(** The recovery target is an enabled, non-draining benchmark worker. *)
Definition recovery_target (worker : Uuid) (db : FleetDb) : bool :=
  match db_workers db !! worker with
  | Some w => wk_enabled w && negb (wk_draining w)
              && bool_decide (Cap_Benchmark ∈ wk_allowed w)
  | None => false
  end.

(** The submission has specs, all of them benchmarks. *)
Definition benchmark_submission (submission : Uuid) (db : FleetDb) : bool :=
  exists_row (fun _ x => sx_submission x =? submission) (db_specs db)
  && negb (exists_row (fun _ x => (sx_submission x =? submission)
             && negb (bool_decide (sx_task_kind x = Kind_Benchmark))) (db_specs db)).

(** A pending obligation of a job of the submission. *)
Definition owed (submission : Uuid) (db : FleetDb) (o : Obligation) : bool :=
  bool_decide (ob_status o = C_Pending)
  && match db_jobs db !! ob_job o with
     | Some j => jr_submission (jb_row j) =? submission
     | None => false
     end.

(** The body of the loop over the abandoned obligations. *)
Definition abandon_job (submission : Uuid) (reason : rstr) (job : Uuid) (db : FleetDb) : FleetDb :=
  match db_jobs db !! job with
  | Some j =>
      if decide (jb_status j = J_Running) then
        insert_job_event job Ev_Cancelled true (Some reason)
          (Some (jobj [("recovery", jstr (lit "operator_abandoned_remote_cleanup"));
                       ("prior_submission_id", juuid submission)]))
          (with_jobs <[job := with_job_status J_Cancelled j]> db)
      else db
  | None => db
  end.
Definition abandon_cleanup (env : TxEnv) (submission : Uuid) (reason : rstr) (db : FleetDb)
  : FleetDb :=
  let abandoned := rows (fun _ o => owed submission db o) (db_obligations db) in
  foldl (fun db '(_, o) => abandon_job submission reason (ob_job o) db)
    (with_obligations (update_where (fun _ o => owed submission db o)
       (with_obligation_status C_Abandoned (tx_now env))) db) abandoned.

(** [INSERT INTO task_submission ... SELECT]: the next generation. *)
Definition next_generation (id : Uuid) (target : option Uuid) (sub : Submission) : Submission :=
  {| sb_required_worker := target; sb_required_profile := sb_required_profile sub;
     sb_recovery_of := Some (default id (sb_recovery_of sub));
     sb_execution_generation := sb_execution_generation sub + 1;
     sb_assigned_worker := None; sb_assigned_profile := None;
     sb_fencing_generation := sb_fencing_generation sub + 1; sb_slack := None |}.
Definition insert_submission (id : Uuid) (sub : Submission) (db : FleetDb)
  : result FleetDb StoreError :=
  match db_submissions db !! id with
  | Some _ => Err (Constraint "task_submission_pkey")
  | None => Ok (with_submissions <[id := sub]> db)
  end.

(** [INSERT INTO task_spec ... SELECT ... ORDER BY spec_index]. *)
Fixpoint copy_specs (ids : RecoveryIds) (specs : list TaskSpec) (db : FleetDb)
  : result FleetDb StoreError :=
  match specs with
  | [] => Ok db
  | x :: rest =>
      match db_specs db !! rc_spec ids (sx_index x) with
      | Some _ => Err (Constraint "task_spec_pkey")
      | None =>
          copy_specs ids rest (with_specs <[rc_spec ids (sx_index x) :=
            {| sx_submission := rc_submission ids; sx_index := sx_index x;
               sx_task_kind := sx_task_kind x; sx_commit := sx_commit x;
               sx_calibration := sx_calibration x |}]> db)
      end
  end.
Definition submission_specs (submission : Uuid) (db : FleetDb) : list TaskSpec :=
  map snd (sort_by (fun x y => sx_index x.2 <? sx_index y.2)
    (rows (fun _ x => sx_submission x =? submission) (db_specs db))).

(** The first job of a submission: spec 0, run 0, the oldest. *)
Definition first_job (submission : Uuid) (db : FleetDb) : option (Uuid * Job) :=
  first_by job_before
    (rows (fun _ j => (jr_run_index (jb_row j) =? 0)
             && match db_specs db !! jr_spec (jb_row j) with
                | Some x => (sx_submission x =? submission) && (sx_index x =? 0)
                | None => false
                end) (db_jobs db)).

(** The job of the new generation, queued by the column defaults. *)
Definition copied_job (env : TxEnv) (ids : RecoveryIds) (old : Job) : Job :=
  let r := jb_row old in
  {| jb_row := {| jr_submission := rc_submission ids; jr_spec := rc_spec ids 0;
       jr_run_index := 0; jr_capability := jr_capability r; jr_source := jr_source r;
       jr_task_kind := jr_task_kind r; jr_created_at := tx_now env;
       jr_installation_id := jr_installation_id r; jr_repo_id := jr_repo_id r;
       jr_repository := jr_repository r |};
     jb_status := J_Queued; jb_claim_token := None; jb_claimed_at := None;
     jb_commit := jb_commit old; jb_payload := jb_payload old |}.
Definition insert_job (id : Uuid) (j : Job) (db : FleetDb) : result FleetDb StoreError :=
  match db_jobs db !! id with
  | Some _ => Err (Constraint "job_pkey")
  | None => Ok (with_jobs <[id := j]> db)
  end.

(** The announcing events of the old job, newest first, under the new one. *)
Definition copied_events (old new : Uuid) (reason : rstr) (events : list JobEvent)
  : list JobEvent :=
  map (fun e => {| je_job := new; je_kind := je_kind e; je_success := je_success e;
         je_remark := if decide (je_kind e = Ev_Queued) then Some reason else je_remark e;
         je_detail := je_detail e |})
    (rev (List.filter (fun e => (je_job e =? old)
        && (bool_decide (je_kind e = Ev_Queued) || bool_decide (je_kind e = Ev_PlanMessageSent)))
      events)).

(** The Slack row follows the new generation. *)
Definition with_slack (slack : option (option rstr)) (sub : Submission) : Submission :=
  {| sb_required_worker := sb_required_worker sub; sb_required_profile := sb_required_profile sub;
     sb_recovery_of := sb_recovery_of sub;
     sb_execution_generation := sb_execution_generation sub;
     sb_assigned_worker := sb_assigned_worker sub; sb_assigned_profile := sb_assigned_profile sub;
     sb_fencing_generation := sb_fencing_generation sub; sb_slack := slack |}.
Definition move_slack (old new : Uuid) (slack : option (option rstr)) (db : FleetDb) : FleetDb :=
  match slack with
  | Some _ => with_submissions (fun m =>
                alter (with_slack slack) new (alter (with_slack None) old m)) db
  | None => db
  end.

(** [recover_submission]. *)
Definition recover_submission (env : TxEnv) (ids : RecoveryIds) (submission : Uuid)
    (target : option Uuid) (reason : rstr) : Tx SubmissionRecovery := fun db =>
  ensure (negb (is_empty (trim reason)) && (str_len reason <=? 1024))
    (Config "submission recovery requires a concise operator reason") ;?
  ensure (match target with Some worker => recovery_target worker db | None => true end)
    (Config "recovery target is not an enabled, non-draining benchmark worker") ;?
  match db_submissions db !! submission with
  | Some prior =>
      ensure (benchmark_submission submission db)
        (Config "submission does not exist or is not a benchmark comparison generation") ;?
      ensure (negb (exists_row (fun _ a => (ar_submission (at_row a) =? submission)
                      && attempt_active (at_status a)) (db_attempts db)))
        (Config "benchmark submission still has active work") ;?
      let db := abandon_cleanup env submission reason db in
      let? db := insert_submission (rc_submission ids)
                   (next_generation submission target prior) db in
      let? db := copy_specs ids (submission_specs submission db) db in
      match first_job submission db with
      | None => Err (Config "no such row")
      | Some (old, j) =>
          let? db := insert_job (rc_job ids) (copied_job env ids j) db in
          let db := with_job_events (fun es => es ++ copied_events old (rc_job ids) reason es) db in
          Ok ({| sv_prior_submission := submission; sv_new_submission := rc_submission ids;
                 sv_first_job := rc_job ids;
                 sv_execution_generation := sb_execution_generation prior + 1 |},
              move_slack submission (rc_submission ids) (sb_slack prior) db)
      end
  | None => Err (Config "submission does not exist or is not a benchmark comparison generation")
  end.
