(* ===== verification/PolicyDb.v ===== *)
(** * Installations, policies, repositories, users and pull requests

    The stores installation.rs, policy.rs, repo.rs, user.rs and pull_request.rs of
    crates/sbgh-postgres/src/stores and the allowlist of admin/installer.rs: the
    tables that decide which webhook of GitHub may lead to work.  Columns that are only
    displayed (notes, creation times) are left out. *)
From stdpp Require Import base list strings gmap.
From Stdlib Require Import ZArith Lia.
From S2P Require Import Prelude RustStr Json FleetModel FleetDb.

Local Open Scope Z_scope.

(** ** Rows *)
Inductive GithubAccountType := Acct_User | Acct_Organization | Acct_Bot.
Inductive UserRole := Role_Admin | Role_TriggerPrBenchmark | Role_TriggerBlockValidation | Role_ViewResults.
#[global] Instance UserRole_eq_dec : EqDecision UserRole.
Proof. solve_decision. Defined.
Inductive TriggerKind :=
| Trig_PrComment | Trig_BranchPush | Trig_TagCreated | Trig_SlackAdhoc | Trig_Scheduled | Trig_Manual.
#[global] Instance TriggerKind_eq_dec : EqDecision TriggerKind.
Proof. solve_decision. Defined.
Record AllowedInstaller := { ai_login : rstr; ai_type : GithubAccountType; ai_is_enabled : bool }.
Record GithubInstallation := {
  gi_account_id : Z;
  gi_account_login : rstr;
  gi_account_type : GithubAccountType;
  gi_suspended_at : option Z;
  gi_deleted_at : option Z
}.
Record GithubInstallationRepo := { mb_granted_at : Z; mb_revoked_at : option Z }.
Record GithubRepo := {
  gr_owner : rstr;
  gr_name : rstr;
  gr_default_branch : option rstr;
  gr_is_fork : option bool;
  gr_parent : option Z;
  gr_fork_root : option Z;
  gr_lineage_checked_at : option Z
}.
Record TriggerPolicy := {
  tp_installation_id : Z;
  tp_repo_id : Z;
  tp_kind : TriggerKind;
  tp_match_spec : Value;
  tp_bench_args : option rstr;
  tp_is_enabled : bool;
  tp_pinned : bool;
  tp_pinned_until : option Z
}.
Record GithubUser := { gu_login : rstr; gu_type : GithubAccountType }.
Record GithubUserRole := {
  ur_user_id : Z;
  ur_installation_id : Z;
  ur_repo_id : option Z;
  ur_role : UserRole;
  ur_revoked_at : option Z
}.
Record GithubPullRequest := {
  pr_target_repo_id : Z;
  pr_source_repo_id : Z;
  pr_pr_number : Z;
  pr_title : rstr;
  pr_author_id : Z;
  pr_closed_at : option Z
}.
Record PolicyDb := {
  pd_allowed : gmap Z AllowedInstaller;
  pd_installations : gmap Z GithubInstallation;
  pd_memberships : gmap (Z * Z) GithubInstallationRepo;
  pd_repos : gmap Z GithubRepo;
  pd_roots : gmap Z bool;
  pd_targets : gmap (Z * Z) bool;
  pd_sources : gmap (Z * Z) bool;
  pd_triggers : gmap Z TriggerPolicy;
  pd_users : gmap Z GithubUser;
  pd_roles : gmap Z GithubUserRole;
  pd_pulls : gmap Z GithubPullRequest
}.

Definition with_allowed f db := {| pd_allowed := f (pd_allowed db); pd_installations := pd_installations db; pd_memberships := pd_memberships db; pd_repos := pd_repos db; pd_roots := pd_roots db; pd_targets := pd_targets db; pd_sources := pd_sources db; pd_triggers := pd_triggers db; pd_users := pd_users db; pd_roles := pd_roles db; pd_pulls := pd_pulls db |}.
Definition with_installations f db := {| pd_allowed := pd_allowed db; pd_installations := f (pd_installations db); pd_memberships := pd_memberships db; pd_repos := pd_repos db; pd_roots := pd_roots db; pd_targets := pd_targets db; pd_sources := pd_sources db; pd_triggers := pd_triggers db; pd_users := pd_users db; pd_roles := pd_roles db; pd_pulls := pd_pulls db |}.
Definition with_memberships f db := {| pd_allowed := pd_allowed db; pd_installations := pd_installations db; pd_memberships := f (pd_memberships db); pd_repos := pd_repos db; pd_roots := pd_roots db; pd_targets := pd_targets db; pd_sources := pd_sources db; pd_triggers := pd_triggers db; pd_users := pd_users db; pd_roles := pd_roles db; pd_pulls := pd_pulls db |}.
Definition with_repos f db := {| pd_allowed := pd_allowed db; pd_installations := pd_installations db; pd_memberships := pd_memberships db; pd_repos := f (pd_repos db); pd_roots := pd_roots db; pd_targets := pd_targets db; pd_sources := pd_sources db; pd_triggers := pd_triggers db; pd_users := pd_users db; pd_roles := pd_roles db; pd_pulls := pd_pulls db |}.
Definition with_roots f db := {| pd_allowed := pd_allowed db; pd_installations := pd_installations db; pd_memberships := pd_memberships db; pd_repos := pd_repos db; pd_roots := f (pd_roots db); pd_targets := pd_targets db; pd_sources := pd_sources db; pd_triggers := pd_triggers db; pd_users := pd_users db; pd_roles := pd_roles db; pd_pulls := pd_pulls db |}.
Definition with_targets f db := {| pd_allowed := pd_allowed db; pd_installations := pd_installations db; pd_memberships := pd_memberships db; pd_repos := pd_repos db; pd_roots := pd_roots db; pd_targets := f (pd_targets db); pd_sources := pd_sources db; pd_triggers := pd_triggers db; pd_users := pd_users db; pd_roles := pd_roles db; pd_pulls := pd_pulls db |}.
Definition with_sources f db := {| pd_allowed := pd_allowed db; pd_installations := pd_installations db; pd_memberships := pd_memberships db; pd_repos := pd_repos db; pd_roots := pd_roots db; pd_targets := pd_targets db; pd_sources := f (pd_sources db); pd_triggers := pd_triggers db; pd_users := pd_users db; pd_roles := pd_roles db; pd_pulls := pd_pulls db |}.
Definition with_triggers f db := {| pd_allowed := pd_allowed db; pd_installations := pd_installations db; pd_memberships := pd_memberships db; pd_repos := pd_repos db; pd_roots := pd_roots db; pd_targets := pd_targets db; pd_sources := pd_sources db; pd_triggers := f (pd_triggers db); pd_users := pd_users db; pd_roles := pd_roles db; pd_pulls := pd_pulls db |}.
Definition with_users f db := {| pd_allowed := pd_allowed db; pd_installations := pd_installations db; pd_memberships := pd_memberships db; pd_repos := pd_repos db; pd_roots := pd_roots db; pd_targets := pd_targets db; pd_sources := pd_sources db; pd_triggers := pd_triggers db; pd_users := f (pd_users db); pd_roles := pd_roles db; pd_pulls := pd_pulls db |}.
Definition with_roles f db := {| pd_allowed := pd_allowed db; pd_installations := pd_installations db; pd_memberships := pd_memberships db; pd_repos := pd_repos db; pd_roots := pd_roots db; pd_targets := pd_targets db; pd_sources := pd_sources db; pd_triggers := pd_triggers db; pd_users := pd_users db; pd_roles := f (pd_roles db); pd_pulls := pd_pulls db |}.
Definition with_pulls f db := {| pd_allowed := pd_allowed db; pd_installations := pd_installations db; pd_memberships := pd_memberships db; pd_repos := pd_repos db; pd_roots := pd_roots db; pd_targets := pd_targets db; pd_sources := pd_sources db; pd_triggers := pd_triggers db; pd_users := pd_users db; pd_roles := pd_roles db; pd_pulls := f (pd_pulls db) |}.

(** A statement that a constraint refuses. *)
Inductive ConstraintError := Violates (constraint : string).
Abbreviation pres A := (result (A * PolicyDb) ConstraintError).
Definition exists_ {A} `{Countable K} (k : K) (m : gmap K A) : bool := match m !! k with Some _ => true | None => false end.

(** ** The allowlist of installers *)
Definition lookup_allowed (account : Z) (db : PolicyDb) : option AllowedInstaller := pd_allowed db !! account.
Definition allow_installer (account : Z) (login : rstr) (t : GithubAccountType) (db : PolicyDb) : PolicyDb :=
  with_allowed (insert account {| ai_login := login; ai_type := t; ai_is_enabled := true |}) db.
Definition disable_installer (account : Z) (db : PolicyDb) : PolicyDb :=
  with_allowed (alter (fun a => {| ai_login := ai_login a; ai_type := ai_type a; ai_is_enabled := false |}) account) db.

(** ** Installations *)
Definition upsert_installation (id account : Z) (login : rstr) (t : GithubAccountType) (db : PolicyDb)
  : pres GithubInstallation :=
  let? row := match pd_installations db !! id with
    | Some i => Ok {| gi_account_id := gi_account_id i; gi_account_login := login; gi_account_type := t;
                      gi_suspended_at := gi_suspended_at i; gi_deleted_at := gi_deleted_at i |}
    | None =>
        ensure (exists_ account (pd_allowed db)) (Violates "github_installation_github_account_id_fkey") ;?
        Ok {| gi_account_id := account; gi_account_login := login; gi_account_type := t;
              gi_suspended_at := None; gi_deleted_at := None |}
    end in
  Ok (row, with_installations (insert id row) db).
Definition set_suspended (id : Z) (at_ : option Z) (db : PolicyDb) : option GithubInstallation * PolicyDb :=
  match pd_installations db !! id with
  | None => (None, db)
  | Some i =>
      let row := {| gi_account_id := gi_account_id i; gi_account_login := gi_account_login i;
                    gi_account_type := gi_account_type i; gi_suspended_at := at_;
                    gi_deleted_at := gi_deleted_at i |} in
      (Some row, with_installations (insert id row) db)
  end.
Definition revoke_row (now : Z) (m : GithubInstallationRepo) : GithubInstallationRepo :=
  {| mb_granted_at := mb_granted_at m;
     mb_revoked_at := match mb_revoked_at m with Some t => Some t | None => Some now end |}.
Definition revoke_role_row (now : Z) (r : GithubUserRole) : GithubUserRole :=
  {| ur_user_id := ur_user_id r; ur_installation_id := ur_installation_id r; ur_repo_id := ur_repo_id r;
     ur_role := ur_role r; ur_revoked_at := match ur_revoked_at r with Some t => Some t | None => Some now end |}.
Definition disable_trigger_row (t : TriggerPolicy) : TriggerPolicy :=
  {| tp_installation_id := tp_installation_id t; tp_repo_id := tp_repo_id t; tp_kind := tp_kind t;
     tp_match_spec := tp_match_spec t; tp_bench_args := tp_bench_args t; tp_is_enabled := false;
     tp_pinned := tp_pinned t; tp_pinned_until := tp_pinned_until t |}.
Definition active_membership (m : GithubInstallationRepo) : bool :=
  match mb_revoked_at m with None => true | Some _ => false end.
Definition delete_installation (now id : Z) (db : PolicyDb) : (bool * Z) * PolicyDb :=
  match pd_installations db !! id with
  | None => ((false, 0), db)
  | Some i =>
      let here (k : Z * Z) := k.1 =? id in
      let revoked := Z.of_nat (length (rows (fun k m => here k && active_membership m) (pd_memberships db))) in
      let db := with_installations (insert id
        {| gi_account_id := gi_account_id i; gi_account_login := gi_account_login i;
           gi_account_type := gi_account_type i; gi_suspended_at := gi_suspended_at i;
           gi_deleted_at := match gi_deleted_at i with Some t => Some t | None => Some now end |}) db in
      let db := with_memberships (update_where (fun k _ => here k) (revoke_row now)) db in
      let db := with_triggers (update_where (fun _ t => tp_installation_id t =? id) disable_trigger_row) db in
      let db := with_targets (update_where (fun k _ => here k) (fun _ => false)) db in
      let db := with_sources (update_where (fun k _ => here k) (fun _ => false)) db in
      let db := with_roles (update_where (fun _ r => ur_installation_id r =? id) (revoke_role_row now)) db in
      ((true, revoked), db)
  end.

(** ** Memberships *)
Definition installation_live (i : GithubInstallation) : bool :=
  match gi_deleted_at i with None => true | Some _ => false end.
Definition add_or_restore_membership (now installation repo : Z) (db : PolicyDb)
  : pres (option GithubInstallationRepo) :=
  match pd_installations db !! installation with
  | Some i =>
      if negb (installation_live i) then Ok (None, db)
      else
        let? row := match pd_memberships db !! (installation, repo) with
          | Some m => Ok {| mb_granted_at := mb_granted_at m; mb_revoked_at := None |}
          | None =>
              ensure (exists_ repo (pd_repos db)) (Violates "github_installation_repo_github_repo_id_fkey") ;?
              Ok {| mb_granted_at := now; mb_revoked_at := None |}
          end in
        Ok (Some row, with_memberships (insert (installation, repo) row) db)
  | None => Ok (None, db)
  end.
Definition is_membership_active (installation repo : Z) (db : PolicyDb) : bool :=
  match pd_installations db !! installation, pd_memberships db !! (installation, repo) with
  | Some i, Some m =>
      installation_live i && match gi_suspended_at i with None => true | Some _ => false end
      && active_membership m
  | _, _ => false
  end.
Definition revoke_membership (now installation repo : Z) (db : PolicyDb) : option GithubInstallationRepo * PolicyDb :=
  match pd_memberships db !! (installation, repo) with
  | Some m =>
      if active_membership m
      then (Some (revoke_row now m), with_memberships (insert (installation, repo) (revoke_row now m)) db)
      else (None, db)
  | None => (None, db)
  end.

(** ** Repositories *)
Record NewRepoIdentity := { ri_id : Z; ri_owner : rstr; ri_name : rstr; ri_default_branch : option rstr }.
Record NewRepoLineage := {
  rl_repo : NewRepoIdentity;
  rl_is_fork : bool;
  rl_parent : option NewRepoIdentity;
  rl_source : option NewRepoIdentity
}.
Definition lower (s : rstr) : rstr := map Char.to_ascii_lowercase s.
Definition or_else {A} (o p : option A) : option A := match o with Some _ => o | None => p end.
(** The unique index on the lower-cased owner and name. *)
Definition repo_name_free (id : Z) (owner name : rstr) (repos : gmap Z GithubRepo) : bool :=
  negb (exists_row (fun k r => negb (k =? id) && rstr_eqb (lower (gr_owner r)) (lower owner)
                               && rstr_eqb (lower (gr_name r)) (lower name)) repos).
Definition upsert_repo_identity (r : NewRepoIdentity) (db : PolicyDb) : pres GithubRepo :=
  ensure (repo_name_free (ri_id r) (ri_owner r) (ri_name r) (pd_repos db))
    (Violates "github_repo_owner_name_lower_uniq") ;?
  let row := match pd_repos db !! ri_id r with
    | Some g => {| gr_owner := ri_owner r; gr_name := ri_name r;
                   gr_default_branch := or_else (ri_default_branch r) (gr_default_branch g);
                   gr_is_fork := gr_is_fork g; gr_parent := gr_parent g; gr_fork_root := gr_fork_root g;
                   gr_lineage_checked_at := gr_lineage_checked_at g |}
    | None => {| gr_owner := ri_owner r; gr_name := ri_name r; gr_default_branch := ri_default_branch r;
                 gr_is_fork := None; gr_parent := None; gr_fork_root := None; gr_lineage_checked_at := None |}
    end in
  Ok (row, with_repos (insert (ri_id r) row) db).
Definition upsert_repo_lineage (now : Z) (l : NewRepoLineage) (db : PolicyDb) : pres GithubRepo :=
  let? after_source := match rl_source l with
    | Some src => let? out := upsert_repo_identity src db in Ok (Some (ri_id src), out.2)
    | None => Ok (None, db)
    end in
  let source_id := after_source.1 in
  let? after_parent := match rl_parent l with
    | Some par =>
        if bool_decide (Some (ri_id par) = source_id) then Ok (Some (ri_id par), after_source.2)
        else let? out := upsert_repo_identity par after_source.2 in Ok (Some (ri_id par), out.2)
    | None => Ok (None, after_source.2)
    end in
  let db := after_parent.2 in
  let r := rl_repo l in
  ensure (repo_name_free (ri_id r) (ri_owner r) (ri_name r) (pd_repos db))
    (Violates "github_repo_owner_name_lower_uniq") ;?
  let row := {| gr_owner := ri_owner r; gr_name := ri_name r;
                gr_default_branch := or_else (ri_default_branch r) (pd_repos db !! ri_id r ≫= gr_default_branch);
                gr_is_fork := Some (rl_is_fork l); gr_parent := after_parent.1; gr_fork_root := source_id;
                gr_lineage_checked_at := Some now |} in
  Ok (row, with_repos (insert (ri_id r) row) db).
Definition root_enabled (repo : Z) (db : PolicyDb) : bool := default false (pd_roots db !! repo).
Definition is_supported_lineage (repo : Z) (db : PolicyDb) : bool :=
  match pd_repos db !! repo with
  | None => false
  | Some r => root_enabled repo db || match gr_fork_root r with Some root => root_enabled root db | None => false end
  end.
Definition upsert_supported_root (repo : Z) (db : PolicyDb) : pres unit :=
  ensure (exists_ repo (pd_repos db)) (Violates "supported_repo_root_github_repo_id_fkey") ;?
  Ok (tt, with_roots (insert repo true) db).
Definition disable_supported_root (repo : Z) (db : PolicyDb) : PolicyDb := with_roots (alter (fun _ => false) repo) db.

(** ** Policies *)
Definition lookup_target_policy (installation repo : Z) (db : PolicyDb) : option bool :=
  pd_targets db !! (installation, repo).
Definition lookup_source_policy (installation repo : Z) (db : PolicyDb) : option bool :=
  pd_sources db !! (installation, repo).
Definition upsert_target_policy (installation repo : Z) (db : PolicyDb) : pres unit :=
  ensure (exists_ (installation, repo) (pd_targets db) || exists_ (installation, repo) (pd_memberships db))
    (Violates "target_repo_policy_fkey") ;?
  Ok (tt, with_targets (insert (installation, repo) true) db).
Definition disable_target_policy (installation repo : Z) (db : PolicyDb) : PolicyDb :=
  with_targets (alter (fun _ => false) (installation, repo)) db.
Definition upsert_source_policy (installation repo : Z) (db : PolicyDb) : pres unit :=
  ensure (exists_ (installation, repo) (pd_sources db)
          || exists_ installation (pd_installations db) && exists_ repo (pd_repos db))
    (Violates "source_repo_policy_fkey") ;?
  Ok (tt, with_sources (insert (installation, repo) true) db).
Definition disable_source_policy (installation repo : Z) (db : PolicyDb) : PolicyDb :=
  with_sources (alter (fun _ => false) (installation, repo)) db.
(** [ORDER BY t.id]. *)
Definition list_enabled_triggers (installation repo : Z) (kind : TriggerKind) (db : PolicyDb)
  : list (Z * TriggerPolicy) :=
  if default false (lookup_target_policy installation repo db)
  then sort_by (fun a b => a.1 <? b.1)
         (rows (fun _ t => (tp_installation_id t =? installation) && (tp_repo_id t =? repo)
                           && bool_decide (tp_kind t = kind) && tp_is_enabled t) (pd_triggers db))
  else [].
Definition add_trigger_policy (id installation repo : Z) (kind : TriggerKind) (spec : Value)
    (bench_args : option rstr) (db : PolicyDb) : pres unit :=
  ensure (negb (exists_ id (pd_triggers db))) (Violates "trigger_policy_pkey") ;?
  ensure (exists_ (installation, repo) (pd_targets db)) (Violates "trigger_policy_fkey") ;?
  Ok (tt, with_triggers (insert id
    {| tp_installation_id := installation; tp_repo_id := repo; tp_kind := kind; tp_match_spec := spec;
       tp_bench_args := bench_args; tp_is_enabled := true; tp_pinned := false; tp_pinned_until := None |}) db).
Definition disable_trigger_policy (id : Z) (db : PolicyDb) : PolicyDb :=
  with_triggers (alter disable_trigger_row id) db.
(** [pin_trigger_policy] of the administration: a policy that is not pinned has no expiry. *)
Definition pin_trigger_row (pinned : bool) (until : option Z) (t : TriggerPolicy) : TriggerPolicy :=
  {| tp_installation_id := tp_installation_id t; tp_repo_id := tp_repo_id t; tp_kind := tp_kind t;
     tp_match_spec := tp_match_spec t; tp_bench_args := tp_bench_args t; tp_is_enabled := tp_is_enabled t;
     tp_pinned := pinned; tp_pinned_until := if pinned then until else None |}.
Definition pin_trigger_policy (id : Z) (pinned : bool) (until : option Z) (db : PolicyDb) : PolicyDb :=
  with_triggers (alter (pin_trigger_row pinned until) id) db.
(** [ORDER BY t.id]; a pin that has expired is still listed. *)
Definition list_pinned_triggers (db : PolicyDb) : list (Z * TriggerPolicy) :=
  sort_by (fun a b => a.1 <? b.1)
    (rows (fun _ t => tp_is_enabled t && tp_pinned t
                      && default false (lookup_target_policy (tp_installation_id t) (tp_repo_id t) db))
       (pd_triggers db)).
Definition disable_target_and_triggers (installation repo : Z) (db : PolicyDb) : PolicyDb :=
  let db := with_triggers (update_where (fun _ t => (tp_installation_id t =? installation) && (tp_repo_id t =? repo))
                             disable_trigger_row) db in
  disable_target_policy installation repo db.

(** ** Users and roles *)
Definition login_free (id : Z) (login : rstr) (users : gmap Z GithubUser) : bool :=
  negb (exists_row (fun k u => negb (k =? id) && rstr_eqb (lower (gu_login u)) (lower login)) users).
Definition upsert_user (id : Z) (login : rstr) (t : GithubAccountType) (db : PolicyDb) : pres unit :=
  ensure (login_free id login (pd_users db)) (Violates "github_user_login_lower_uniq") ;?
  Ok (tt, with_users (insert id {| gu_login := login; gu_type := t |}) db).
(** The unique index, in which a missing repository is a value. *)
Definition same_grant (user installation : Z) (repo : option Z) (role : UserRole) (r : GithubUserRole) : bool :=
  (ur_user_id r =? user) && (ur_installation_id r =? installation) && bool_decide (ur_repo_id r = repo)
  && bool_decide (ur_role r = role).
Definition grant_role (id user installation : Z) (repo : option Z) (role : UserRole) (db : PolicyDb) : pres bool :=
  let same := fun _ r => same_grant user installation repo role r in
  if exists_row same (pd_roles db)
  then Ok (false, with_roles (update_where same (fun r =>
         {| ur_user_id := ur_user_id r; ur_installation_id := ur_installation_id r; ur_repo_id := ur_repo_id r;
            ur_role := ur_role r; ur_revoked_at := None |})) db)
  else
    ensure (negb (exists_ id (pd_roles db))) (Violates "github_user_role_pkey") ;?
    ensure (exists_ user (pd_users db) && exists_ installation (pd_installations db)
            && match repo with Some x => exists_ x (pd_repos db) | None => true end)
      (Violates "github_user_role_fkey") ;?
    Ok (true, with_roles (insert id {| ur_user_id := user; ur_installation_id := installation; ur_repo_id := repo;
                                       ur_role := role; ur_revoked_at := None |}) db).
Definition revoke_role (now user installation : Z) (repo : option Z) (role : UserRole) (db : PolicyDb) : PolicyDb :=
  with_roles (update_where (fun _ r => same_grant user installation repo role r) (revoke_role_row now)) db.
Definition revoke_repo_scoped_grants (now installation repo : Z) (db : PolicyDb) : PolicyDb :=
  with_roles (update_where (fun _ r => (ur_installation_id r =? installation) && bool_decide (ur_repo_id r = Some repo))
                (revoke_role_row now)) db.
Definition grants (user installation repo : Z) (role : UserRole) (r : GithubUserRole) : bool :=
  (ur_user_id r =? user) && (ur_installation_id r =? installation)
  && (bool_decide (ur_role r = role) || bool_decide (ur_role r = Role_Admin))
  && match ur_repo_id r with None => true | Some x => x =? repo end
  && match ur_revoked_at r with None => true | Some _ => false end.
Definition has_role (user installation repo : Z) (role : UserRole) (db : PolicyDb) : bool :=
  exists_row (fun _ r => grants user installation repo role r) (pd_roles db).

(** ** Pull requests *)
Definition find_pull (target number : Z) (db : PolicyDb) : option (Z * GithubPullRequest) :=
  List.find (fun kv => (pr_target_repo_id kv.2 =? target) && (pr_pr_number kv.2 =? number)) (map_to_list (pd_pulls db)).
Definition upsert_pull_request (id target source number : Z) (title : rstr) (author : Z) (db : PolicyDb)
  : pres (Z * GithubPullRequest) :=
  match find_pull target number db with
  | Some (k, p) =>
      let row := {| pr_target_repo_id := pr_target_repo_id p; pr_source_repo_id := pr_source_repo_id p;
                    pr_pr_number := pr_pr_number p; pr_title := title; pr_author_id := pr_author_id p;
                    pr_closed_at := pr_closed_at p |} in
      Ok ((k, row), with_pulls (insert k row) db)
  | None =>
      ensure (negb (exists_ id (pd_pulls db))) (Violates "github_pull_request_pkey") ;?
      ensure (exists_ target (pd_repos db) && exists_ source (pd_repos db) && exists_ author (pd_users db))
        (Violates "github_pull_request_fkey") ;?
      let row := {| pr_target_repo_id := target; pr_source_repo_id := source; pr_pr_number := number;
                    pr_title := title; pr_author_id := author; pr_closed_at := None |} in
      Ok ((id, row), with_pulls (insert id row) db)
  end.
Definition set_closed_at (target number : Z) (at_ : option Z) (db : PolicyDb) : PolicyDb :=
  match find_pull target number db with
  | Some (k, p) =>
      with_pulls (insert k {| pr_target_repo_id := pr_target_repo_id p; pr_source_repo_id := pr_source_repo_id p;
                              pr_pr_number := pr_pr_number p; pr_title := pr_title p; pr_author_id := pr_author_id p;
                              pr_closed_at := at_ |}) db
  | None => db
  end.

(** ** Transactions

    Every change that the daemon, its webhook handlers and an operator make of these tables. *)
Inductive policy_step (db : PolicyDb) : PolicyDb -> Prop :=
| Ps_allow account login t : policy_step db (allow_installer account login t db)
| Ps_disable account : policy_step db (disable_installer account db)
| Ps_install id account login t row db' :
    upsert_installation id account login t db = Ok (row, db') -> policy_step db db'
| Ps_suspend id at_ : policy_step db (set_suspended id at_ db).2
| Ps_delete now id : policy_step db (delete_installation now id db).2
| Ps_member now installation repo row db' :
    add_or_restore_membership now installation repo db = Ok (row, db') -> policy_step db db'
| Ps_revoke now installation repo : policy_step db (revoke_membership now installation repo db).2
| Ps_identity r row db' : upsert_repo_identity r db = Ok (row, db') -> policy_step db db'
| Ps_lineage now l row db' : upsert_repo_lineage now l db = Ok (row, db') -> policy_step db db'
| Ps_root repo u db' : upsert_supported_root repo db = Ok (u, db') -> policy_step db db'
| Ps_root_off repo : policy_step db (disable_supported_root repo db)
| Ps_target installation repo u db' : upsert_target_policy installation repo db = Ok (u, db') -> policy_step db db'
| Ps_target_off installation repo : policy_step db (disable_target_policy installation repo db)
| Ps_source installation repo u db' : upsert_source_policy installation repo db = Ok (u, db') -> policy_step db db'
| Ps_source_off installation repo : policy_step db (disable_source_policy installation repo db)
| Ps_trigger id installation repo kind spec args u db' :
    add_trigger_policy id installation repo kind spec args db = Ok (u, db') -> policy_step db db'
| Ps_trigger_off id : policy_step db (disable_trigger_policy id db)
| Ps_trigger_pin id pinned until : policy_step db (pin_trigger_policy id pinned until db)
| Ps_removed installation repo : policy_step db (disable_target_and_triggers installation repo db)
| Ps_user id login t u db' : upsert_user id login t db = Ok (u, db') -> policy_step db db'
| Ps_grant id user installation repo role made db' :
    grant_role id user installation repo role db = Ok (made, db') -> policy_step db db'
| Ps_revoke_role now user installation repo role : policy_step db (revoke_role now user installation repo role db)
| Ps_revoke_grants now installation repo : policy_step db (revoke_repo_scoped_grants now installation repo db)
| Ps_pull id target source number title author row db' :
    upsert_pull_request id target source number title author db = Ok (row, db') -> policy_step db db'
| Ps_closed target number at_ : policy_step db (set_closed_at target number at_ db).

(** An installation that was deleted: no later transaction brings it back. *)
Definition gone (installation : Z) (db : PolicyDb) : Prop :=
  exists row, pd_installations db !! installation = Some row /\ installation_live row = false.
Lemma gone_inactive installation repo db : gone installation db -> is_membership_active installation repo db = false.
Proof.
  intros (row & Hr & Hl). unfold is_membership_active. rewrite Hr. destruct (pd_memberships db !! _); [|done].
  by rewrite Hl.
Qed.
(** The operations that leave the installations alone. *)
Ltac same_installations :=
  repeat match goal with
  | H : Ok _ = Ok _ |- _ => injection H as <- <-
  | H : Err _ = Ok _ |- _ => discriminate H
  | H : context [ensure ?b ?e] |- _ => destruct (ensure b e) as [[]|]
  | H : context [match ?x with _ => _ end] |- _ => destruct x eqn:?; simplify_eq/=
  end; try done.
Lemma identity_installations r row db db' :
  upsert_repo_identity r db = Ok (row, db') -> pd_installations db' = pd_installations db.
Proof. unfold upsert_repo_identity. intros H. same_installations. Qed.
Lemma lineage_installations now l row db db' :
  upsert_repo_lineage now l db = Ok (row, db') -> pd_installations db' = pd_installations db.
Proof.
  unfold upsert_repo_lineage. intros H.
  destruct (match rl_source l with Some src => _ | None => _ end) as [[sid d1]|] eqn:E1; [|done].
  assert (H1 : pd_installations d1 = pd_installations db).
  { destruct (rl_source l) as [src|]; [|by injection E1 as <- <-].
    destruct (upsert_repo_identity src db) as [[row1 d]|] eqn:E; [|done].
    injection E1 as <- <-. by apply (identity_installations src row1). }
  cbn in H. destruct (match rl_parent l with Some par => _ | None => _ end) as [[pid d2]|] eqn:E2; [|done].
  assert (H2 : pd_installations d2 = pd_installations d1).
  { destruct (rl_parent l) as [par|]; [|by injection E2 as <- <-].
    destruct (bool_decide _); [by injection E2 as <- <-|].
    destruct (upsert_repo_identity par d1) as [[row1 d]|] eqn:E; [|done].
    injection E2 as <- <-. by apply (identity_installations par row1). }
  cbn in H. rewrite <- H1, <- H2. clear -H. same_installations.
Qed.
Lemma gone_step installation db db' : policy_step db db' -> gone installation db -> gone installation db'.
Proof.
  intros Hs (row & Hr & Hl).
  assert (Hsame : pd_installations db' = pd_installations db -> gone installation db').
  { intros E. exists row. by rewrite E. }
  assert (Hins : forall id row', (id = installation -> installation_live row' = false) ->
    pd_installations db' = <[id := row']> (pd_installations db) -> gone installation db').
  { intros id row' Hid E. unfold gone. rewrite E. destruct (decide (id = installation)) as [->|Hne].
    - exists row'. split; [apply lookup_insert_eq|by apply Hid].
    - exists row. by rewrite lookup_insert_ne. }
  destruct Hs; try (by apply Hsame).
  - unfold upsert_installation in H. destruct (pd_installations db !! id) as [i|] eqn:E.
    + injection H as <- <-. eapply Hins; [|done]. intros ->. rewrite E in Hr. injection Hr as ->. exact Hl.
    + destruct (ensure _ _); [|done]. injection H as <- <-. eapply Hins; [|done]. congruence.
  - unfold set_suspended in *. destruct (pd_installations db !! id) as [i|] eqn:E; [|by apply Hsame].
    eapply Hins; [|done]. intros ->. rewrite E in Hr. injection Hr as ->. exact Hl.
  - unfold delete_installation in *. destruct (pd_installations db !! id) as [i|] eqn:E; [|by apply Hsame].
    eapply Hins; [|done]. intros _. unfold installation_live. simpl. by destruct (gi_deleted_at i).
  - apply Hsame. unfold add_or_restore_membership in H. same_installations.
  - apply Hsame. unfold revoke_membership. by repeat case_match.
  - apply Hsame. by apply (identity_installations r row0).
  - apply Hsame. by apply (lineage_installations now l row0).
  - apply Hsame. unfold upsert_supported_root in H. same_installations.
  - apply Hsame. unfold upsert_target_policy in H. same_installations.
  - apply Hsame. unfold upsert_source_policy in H. same_installations.
  - apply Hsame. unfold add_trigger_policy in H. same_installations.
  - apply Hsame. unfold upsert_user in H. same_installations.
  - apply Hsame. unfold grant_role in H. same_installations.
  - apply Hsame. unfold upsert_pull_request in H. same_installations.
  - apply Hsame. unfold set_closed_at. by repeat case_match.
Qed.
Lemma gone_steps installation db db' : rtc policy_step db db' -> gone installation db -> gone installation db'.
Proof. induction 1; [done|]. intros Hg. apply IHrtc. by eapply gone_step. Qed.

(** A deletion closes every gate of the installation in its transaction. *)
Lemma delete_closes_gates now id db :
  is_Some (pd_installations db !! id) ->
  gone id (delete_installation now id db).2
  /\ forall repo, default false (lookup_target_policy id repo (delete_installation now id db).2) = false
     /\ default false (lookup_source_policy id repo (delete_installation now id db).2) = false
     /\ (forall kind, list_enabled_triggers id repo kind (delete_installation now id db).2 = [])
     /\ forall user role, has_role user id repo role (delete_installation now id db).2 = false.
Proof.
  intros [i Hi]. unfold delete_installation. rewrite Hi. split.
  - eexists. split; [apply lookup_insert_eq|]. unfold installation_live. simpl. by destruct (gi_deleted_at i).
  - intros repo.
    assert (Hoff : forall m : gmap (Z * Z) bool,
      default false (update_where (fun k _ => k.1 =? id) (fun _ => false) m !! (id, repo)) = false).
    { intros m. rewrite lookup_update_where. destruct (m !! (id, repo)); [|done]. simpl. by rewrite Z.eqb_refl. }
    unfold list_enabled_triggers, lookup_target_policy, lookup_source_policy. cbn -[update_where].
    rewrite !Hoff. split_and!; try done. intros user role. unfold has_role. apply exists_row_false.
    intros k r. cbn -[update_where]. rewrite lookup_update_where. destruct (pd_roles db !! k) as [r0|]; [|done].
    simpl. intros [= <-]. unfold grants. destruct (Z.eqb_spec (ur_installation_id r0) id) as [He|He].
    + simpl. destruct (ur_revoked_at r0); by rewrite andb_false_r.
    + rewrite (proj2 (Z.eqb_neq _ _) He). by rewrite andb_false_r.
Qed.
