(* ===== verification/WebhookInbox.v ===== *)
(** * The webhook inbox

    crates/sbgh-postgres/src/stores/ingest.rs and webhook.rs, the table of received
    webhooks, and the processor of crates/sbgh-daemon/src/webhook_processor.rs that
    claims them, classifies them and records the outcome, with retries.  Several
    processors may run, fail between the claim and the record, or be overtaken by the
    sweep of stuck claims; the theorems say that this costs no correctness. *)
From stdpp Require Import base list strings gmap.
From Stdlib Require Import ZArith Lia.
From S2P Require Import Prelude RustStr Json FleetModel FleetDb.

Local Open Scope Z_scope.

(** ** Rows *)
Inductive WebhookStatus :=
| Wh_Received | Wh_Processing | Wh_Processed | Wh_Ignored | Wh_Denied | Wh_RetryableError | Wh_Failed.
#[global] Instance WebhookStatus_eq_dec : EqDecision WebhookStatus.
Proof. solve_decision. Defined.
Inductive WebhookOutcome :=
| Wo_EnqueuedJob | Wo_WouldEnqueueJob | Wo_ProcessedInstallation | Wo_ProcessedPullRequest
| Wo_IgnoredAction | Wo_IgnoredNoCommand | Wo_IgnoredUnknownInstallation | Wo_IgnoredUnsupportedLineage
| Wo_DeniedInstallAllowlist | Wo_DeniedTargetPolicy | Wo_DeniedSourcePolicy | Wo_DeniedUnauthorized
| Wo_Error.
Definition terminal_status (o : WebhookOutcome) : WebhookStatus :=
  match o with
  | Wo_EnqueuedJob | Wo_WouldEnqueueJob | Wo_ProcessedInstallation | Wo_ProcessedPullRequest => Wh_Processed
  | Wo_IgnoredAction | Wo_IgnoredNoCommand | Wo_IgnoredUnknownInstallation | Wo_IgnoredUnsupportedLineage => Wh_Ignored
  | Wo_DeniedInstallAllowlist | Wo_DeniedTargetPolicy | Wo_DeniedSourcePolicy | Wo_DeniedUnauthorized => Wh_Denied
  | Wo_Error => Wh_Failed
  end.
Definition webhook_terminal (s : WebhookStatus) : bool :=
  match s with Wh_Processed | Wh_Ignored | Wh_Denied | Wh_Failed => true | _ => false end.
Record NewWebhook := {
  nw_delivery_id : rstr;
  nw_event_type : rstr;
  nw_action : option rstr;
  nw_payload_installation_id : option Z;
  nw_payload : option Value;
  nw_payload_size_bytes : Z
}.
(** The part of a row that never changes, and the part that does. *)
Record WebhookRow := {
  wh_new : NewWebhook;
  wh_received_at : Z;
  wh_payload : option Value;
  wh_status : WebhookStatus;
  wh_outcome : option WebhookOutcome;
  wh_claimed_at : option Z;
  wh_claim_token : option Uuid;
  wh_next_attempt_at : Z;
  wh_attempts : Z;
  wh_last_error : option rstr;
  wh_processed_at : option Z
}.
Abbreviation Inbox := (gmap Z WebhookRow).
Record ClaimedWebhook := {
  cw_id : Z;
  cw_claim_token : Uuid;
  cw_delivery_id : rstr;
  cw_event_type : rstr;
  cw_action : option rstr;
  cw_payload_installation_id : option Z;
  cw_payload : option Value;
  cw_payload_size_bytes : Z;
  cw_attempts : Z;
  cw_received_at : Z
}.

(** ** Store operations *)
Inductive IngestOutcome := Ingest_Recorded (webhook_id : Z) | Ingest_Duplicate.
Definition ingest_webhook (now id : Z) (w : NewWebhook) (inbox : Inbox) : IngestOutcome * Inbox :=
  if exists_row (fun _ r => rstr_eqb (nw_delivery_id (wh_new r)) (nw_delivery_id w)) inbox
  then (Ingest_Duplicate, inbox)
  else (Ingest_Recorded id,
        <[id := {| wh_new := w; wh_received_at := now; wh_payload := nw_payload w; wh_status := Wh_Received;
                   wh_outcome := None; wh_claimed_at := None; wh_claim_token := None; wh_next_attempt_at := now;
                   wh_attempts := 0; wh_last_error := None; wh_processed_at := None |}]> inbox).
Definition claimable (now : Z) (event_types : list rstr) (locked : gset Z) (id : Z) (r : WebhookRow) : bool :=
  (bool_decide (wh_status r = Wh_Received) || bool_decide (wh_status r = Wh_RetryableError))
  && (wh_next_attempt_at r <=? now)
  && existsb (rstr_eqb (nw_event_type (wh_new r))) event_types
  && negb (bool_decide (id ∈ locked)).
(** [ORDER BY next_attempt_at, id]. *)
Definition due_before (a b : Z * WebhookRow) : bool :=
  (wh_next_attempt_at a.2 <? wh_next_attempt_at b.2)
  || (wh_next_attempt_at a.2 =? wh_next_attempt_at b.2) && (a.1 <? b.1).
Definition claim_row (now : Z) (token : Uuid) (r : WebhookRow) : WebhookRow :=
  {| wh_new := wh_new r; wh_received_at := wh_received_at r; wh_payload := wh_payload r;
     wh_status := Wh_Processing; wh_outcome := wh_outcome r; wh_claimed_at := Some now;
     wh_claim_token := Some token; wh_next_attempt_at := wh_next_attempt_at r; wh_attempts := wh_attempts r;
     wh_last_error := wh_last_error r; wh_processed_at := wh_processed_at r |}.
Definition claimed_of (id : Z) (token : Uuid) (r : WebhookRow) : ClaimedWebhook :=
  {| cw_id := id; cw_claim_token := token; cw_delivery_id := nw_delivery_id (wh_new r);
     cw_event_type := nw_event_type (wh_new r); cw_action := nw_action (wh_new r);
     cw_payload_installation_id := nw_payload_installation_id (wh_new r); cw_payload := wh_payload r;
     cw_payload_size_bytes := nw_payload_size_bytes (wh_new r); cw_attempts := wh_attempts r;
     cw_received_at := wh_received_at r |}.
Definition claim_next (now : Z) (token : Uuid) (event_types : list rstr) (locked : gset Z) (inbox : Inbox)
  : option ClaimedWebhook * Inbox :=
  match event_types with
  | [] => (None, inbox)
  | _ :: _ =>
      match sort_by due_before (rows (claimable now event_types locked) inbox) with
      | [] => (None, inbox)
      | (id, r) :: _ => (Some (claimed_of id token r), <[id := claim_row now token r]> inbox)
      end
  end.
(** [WHERE id = $ AND claim_token = $ AND status = 'processing']. *)
Definition holds_claim (token : Uuid) (r : WebhookRow) : bool :=
  bool_decide (wh_claim_token r = Some token) && bool_decide (wh_status r = Wh_Processing).
Definition update_claimed (id : Z) (token : Uuid) (f : WebhookRow -> WebhookRow) (inbox : Inbox) : Inbox :=
  alter (fun r => if holds_claim token r then f r else r) id inbox.
Definition complete_row (now : Z) (outcome : WebhookOutcome) (r : WebhookRow) : WebhookRow :=
  {| wh_new := wh_new r; wh_received_at := wh_received_at r; wh_payload := wh_payload r;
     wh_status := terminal_status outcome; wh_outcome := Some outcome; wh_claimed_at := None;
     wh_claim_token := None; wh_next_attempt_at := wh_next_attempt_at r; wh_attempts := wh_attempts r;
     wh_last_error := None; wh_processed_at := Some now |}.
Definition complete_webhook (now id : Z) (token : Uuid) (outcome : WebhookOutcome) (inbox : Inbox) : Inbox :=
  update_claimed id token (complete_row now outcome) inbox.
Definition retry_row (error : rstr) (next_attempt_at : Z) (r : WebhookRow) : WebhookRow :=
  {| wh_new := wh_new r; wh_received_at := wh_received_at r; wh_payload := wh_payload r;
     wh_status := Wh_RetryableError; wh_outcome := wh_outcome r; wh_claimed_at := None;
     wh_claim_token := None; wh_next_attempt_at := next_attempt_at; wh_attempts := wh_attempts r + 1;
     wh_last_error := Some error; wh_processed_at := wh_processed_at r |}.
Definition record_retryable_error (id : Z) (token : Uuid) (error : rstr) (next_attempt_at : Z) (inbox : Inbox)
  : Inbox := update_claimed id token (retry_row error next_attempt_at) inbox.
Definition fail_row (now : Z) (error : rstr) (r : WebhookRow) : WebhookRow :=
  {| wh_new := wh_new r; wh_received_at := wh_received_at r; wh_payload := wh_payload r;
     wh_status := Wh_Failed; wh_outcome := Some Wo_Error; wh_claimed_at := None; wh_claim_token := None;
     wh_next_attempt_at := wh_next_attempt_at r; wh_attempts := wh_attempts r + 1;
     wh_last_error := Some error; wh_processed_at := Some now |}.
Definition record_permanent_failure (now id : Z) (token : Uuid) (error : rstr) (inbox : Inbox) : Inbox :=
  update_claimed id token (fail_row now error) inbox.
Definition with_payload (p : option Value) (r : WebhookRow) : WebhookRow :=
  {| wh_new := wh_new r; wh_received_at := wh_received_at r; wh_payload := p; wh_status := wh_status r;
     wh_outcome := wh_outcome r; wh_claimed_at := wh_claimed_at r; wh_claim_token := wh_claim_token r;
     wh_next_attempt_at := wh_next_attempt_at r; wh_attempts := wh_attempts r; wh_last_error := wh_last_error r;
     wh_processed_at := wh_processed_at r |}.
Definition clear_terminal_payloads (now retention : Z) (inbox : Inbox) : Inbox :=
  update_where (fun _ r =>
      match wh_status r with Wh_Ignored | Wh_Denied | Wh_Failed => true | _ => false end
      && match wh_payload r with Some _ => true | None => false end
      && match wh_processed_at r with Some t => t <? now - retention | None => false end)
    (with_payload None) inbox.
Definition stuck (now lease : Z) (r : WebhookRow) : bool :=
  bool_decide (wh_status r = Wh_Processing) && match wh_claimed_at r with Some t => t <? now - lease | None => false end.
Definition reclaim_row (r : WebhookRow) : WebhookRow :=
  {| wh_new := wh_new r; wh_received_at := wh_received_at r; wh_payload := wh_payload r;
     wh_status := Wh_RetryableError; wh_outcome := wh_outcome r; wh_claimed_at := None; wh_claim_token := None;
     wh_next_attempt_at := wh_next_attempt_at r; wh_attempts := wh_attempts r;
     wh_last_error := Some (default [] (wh_last_error r) ++ lit " [reclaimed by stuck-claim sweep]");
     wh_processed_at := wh_processed_at r |}.
Definition sweep_stuck_claims (now lease : Z) (inbox : Inbox) : Inbox :=
  update_where (fun _ r => stuck now lease r) reclaim_row inbox.

(** ** The processor

    Durations are in seconds. *)
Inductive ClassifyOutcome := Classify_Terminal (o : WebhookOutcome) | Classify_Retryable (error : rstr).
Record ProcessorConfig := {
  pc_max_attempts : Z;
  pc_backoff_base : Z;
  pc_backoff_max : Z;
  pc_claim_lease : Z;
  pc_payload_retention : Z;
  pc_max_consecutive_errors : Z
}.
Definition ProcessorConfig_default : ProcessorConfig :=
  {| pc_max_attempts := 5; pc_backoff_base := 30; pc_backoff_max := 15 * 60; pc_claim_lease := 5 * 60;
     pc_payload_retention := 24 * 3600; pc_max_consecutive_errors := 10 |}.
Definition I32_MAX : Z := 2 ^ 31 - 1.
Definition saturating_i32 (z : Z) : Z := Z.max (- 2 ^ 31) (Z.min I32_MAX z).
Definition saturating_mul_i64 (a b : Z) : Z := Z.max (- 2 ^ 63) (Z.min I64_MAX (a * b)).
Definition clamp (lo hi z : Z) : Z := Z.max lo (Z.min hi z).
(** chrono's [Duration::seconds] panics outside these bounds. *)
Definition MAX_SECONDS : Z := I64_MAX / 1000.
Definition duration_seconds (s : Z) : option Z :=
  if (- MAX_SECONDS <=? s) && (s <=? MAX_SECONDS) then Some s else None.
Definition backoff_delay (attempt base max : Z) : option Z :=
  let exp := clamp 0 30 (saturating_i32 (attempt - 1)) in
  let factor := Z.shiftl 1 exp in
  let scaled_secs := saturating_mul_i64 base factor in
  raw ← duration_seconds scaled_secs;
  Some (if max <? raw then max else raw).

(** The end of [process_one], for a claimed row and the classifier's answer; [None] when it
    panics before the outcome is recorded. *)
Definition finish_one (cfg : ProcessorConfig) (now : Z) (c : ClaimedWebhook) (outcome : ClassifyOutcome)
    (inbox : Inbox) : option Inbox :=
  match outcome with
  | Classify_Terminal o => Some (complete_webhook now (cw_id c) (cw_claim_token c) o inbox)
  | Classify_Retryable err =>
      let next_attempts := saturating_i32 (cw_attempts c + 1) in
      if pc_max_attempts cfg <=? next_attempts
      then Some (record_permanent_failure now (cw_id c) (cw_claim_token c) err inbox)
      else
        delay ← backoff_delay next_attempts (pc_backoff_base cfg) (pc_backoff_max cfg);
        Some (record_retryable_error (cw_id c) (cw_claim_token c) err (now + delay) inbox)
  end.
(** [process_one] of a processor that nothing disturbs: the database's clock at the claim,
    the drawn token and the clock at the record; whether a row was processed. *)
Record Tick := { tk_claim : Z; tk_token : Uuid; tk_finish : Z }.
Definition process_one (cfg : ProcessorConfig) (types : list rstr) (classify : ClaimedWebhook -> ClassifyOutcome)
    (t : Tick) (inbox : Inbox) : option (bool * Inbox) :=
  match claim_next (tk_claim t) (tk_token t) types ∅ inbox with
  | (None, inbox') => Some (false, inbox')
  | (Some c, inbox') => out ← finish_one cfg (tk_finish t) c (classify c) inbox'; Some (true, out)
  end.

(** The counters of [run]: it stops when either kind of error repeats. *)
Inductive IterationResult := It_Ok | It_Err.
Record RunCounters := { rc_process : Z; rc_sweep : Z }.
Definition run_iteration (cfg : ProcessorConfig) (swept : option (IterationResult * IterationResult))
    (processed : IterationResult) (c : RunCounters) : RunCounters + RunCounters :=
  let sweep := match swept with
    | None => rc_sweep c
    | Some (stuck, cleared) =>
        let s := match stuck with It_Ok => 0 | It_Err => rc_sweep c + 1 end in
        match cleared with It_Ok => s | It_Err => s + 1 end
    end in
  let process := match processed with It_Ok => 0 | It_Err => rc_process c + 1 end in
  let c' := {| rc_process := process; rc_sweep := sweep |} in
  if (pc_max_consecutive_errors cfg <=? process) || (pc_max_consecutive_errors cfg <=? sweep)
  then inr c' else inl c'.

(** ** The inbox with its processors

    Any number of processors run; each draws a fresh token for a claim, and may record its
    outcome at any later time, more than once (when an answer was lost) or never.  Clocks
    need not agree.  [ib_recorded] lists the webhook of every record that took effect. *)
Record InboxState := {
  ib_inbox : Inbox;
  ib_claims : list ClaimedWebhook;
  ib_recorded : list Z
}.
Definition inbox_init : InboxState := {| ib_inbox := ∅; ib_claims := []; ib_recorded := [] |}.
Definition holds (c : ClaimedWebhook) (inbox : Inbox) : bool :=
  match inbox !! cw_id c with Some r => holds_claim (cw_claim_token c) r | None => false end.
Definition is_fresh (token : Uuid) (claims : list ClaimedWebhook) : bool :=
  forallb (fun c => negb (bool_decide (cw_claim_token c = token))) claims.
Inductive inbox_step (cfg : ProcessorConfig) : InboxState -> InboxState -> Prop :=
| Step_ingest now id w out inbox s :
    ib_inbox s !! id = None -> ingest_webhook now id w (ib_inbox s) = (out, inbox) ->
    inbox_step cfg s {| ib_inbox := inbox; ib_claims := ib_claims s; ib_recorded := ib_recorded s |}
| Step_claim now token types locked c inbox s :
    is_fresh token (ib_claims s) = true -> claim_next now token types locked (ib_inbox s) = (Some c, inbox) ->
    inbox_step cfg s {| ib_inbox := inbox; ib_claims := c :: ib_claims s; ib_recorded := ib_recorded s |}
| Step_finish now c outcome inbox s :
    c ∈ ib_claims s -> finish_one cfg now c outcome (ib_inbox s) = Some inbox ->
    inbox_step cfg s {| ib_inbox := inbox; ib_claims := ib_claims s;
                        ib_recorded := if holds c (ib_inbox s) then cw_id c :: ib_recorded s else ib_recorded s |}
| Step_sweep now s :
    inbox_step cfg s {| ib_inbox := sweep_stuck_claims now (pc_claim_lease cfg) (ib_inbox s);
                        ib_claims := ib_claims s; ib_recorded := ib_recorded s |}
| Step_clear now s :
    inbox_step cfg s {| ib_inbox := clear_terminal_payloads now (pc_payload_retention cfg) (ib_inbox s);
                        ib_claims := ib_claims s; ib_recorded := ib_recorded s |}.
Abbreviation inbox_reachable cfg s := (rtc (inbox_step cfg) inbox_init s).

(** *** The invariant *)
Definition completed (r : WebhookRow) : bool :=
  webhook_terminal (wh_status r) && match wh_last_error r with None => true | Some _ => false end.
Record row_inv (max : Z) (s : InboxState) (id : Z) (r : WebhookRow) : Prop := {
  ri_claimed : wh_status r = Wh_Processing -> exists c, c ∈ ib_claims s /\ cw_id c = id
    /\ wh_claim_token r = Some (cw_claim_token c) /\ cw_attempts c = wh_attempts r;
  ri_attempts : 0 <= wh_attempts r <= max;
  ri_open : webhook_terminal (wh_status r) = false -> wh_attempts r < max;
  ri_completed : completed r = true -> wh_attempts r < max;
  ri_count : Z.of_nat (count_occ Z.eq_dec (ib_recorded s) id) = wh_attempts r + Z.b2z (completed r)
}.
Record inbox_inv (max : Z) (s : InboxState) : Prop := {
  ii_tokens : NoDup (map cw_claim_token (ib_claims s));
  ii_rows : forall id r, ib_inbox s !! id = Some r -> row_inv max s id r;
  ii_known : forall id, ib_inbox s !! id = None -> count_occ Z.eq_dec (ib_recorded s) id = 0%nat;
  ii_delivery : forall i j r t, ib_inbox s !! i = Some r -> ib_inbox s !! j = Some t ->
    nw_delivery_id (wh_new r) = nw_delivery_id (wh_new t) -> i = j
}.

(** *** Lemmas on the operations *)
Lemma terminal_status_terminal o : webhook_terminal (terminal_status o) = true.
Proof. by destruct o. Qed.
Lemma holds_claim_spec token r :
  holds_claim token r = true <-> wh_claim_token r = Some token /\ wh_status r = Wh_Processing.
Proof. unfold holds_claim. by rewrite andb_true_iff, !bool_decide_eq_true. Qed.
Lemma is_fresh_spec token claims : is_fresh token claims = true <-> token ∉ map cw_claim_token claims.
Proof.
  unfold is_fresh. rewrite forallb_forall. setoid_rewrite negb_true_iff. setoid_rewrite bool_decide_eq_false.
  rewrite list_elem_of_In, in_map_iff. split.
  - intros H (c & Hc & Hin). by apply (H c).
  - intros H c Hin Hc. apply H. eauto.
Qed.
Lemma claim_next_some now token types locked inbox c inbox' :
  claim_next now token types locked inbox = (Some c, inbox') ->
  exists id r, inbox !! id = Some r /\ claimable now types locked id r = true
    /\ c = claimed_of id token r /\ inbox' = <[id := claim_row now token r]> inbox
    /\ head (sort_by due_before (rows (claimable now types locked) inbox)) = Some (id, r).
Proof.
  unfold claim_next. destruct types as [|ty types]; [done|]. destruct (sort_by _ _) as [|[id r] rest] eqn:E; [done|].
  intros [= <- <-]. exists id, r.
  assert (Hin : (id, r) ∈ rows (claimable now (ty :: types) locked) inbox)
    by (eapply elem_of_Permutation_proper; [symmetry; apply (sort_by_perm due_before)|rewrite E; left]).
  apply elem_of_rows in Hin as [Hl Hc]. done.
Qed.
Lemma claimable_open now types locked id r :
  claimable now types locked id r = true ->
  webhook_terminal (wh_status r) = false /\ wh_status r <> Wh_Processing.
Proof. unfold claimable. by destruct (wh_status r). Qed.
(** A record is an update of the claimed row, or of nothing. *)
Definition finished_row (cfg : ProcessorConfig) (now : Z) (c : ClaimedWebhook) (outcome : ClassifyOutcome)
    (r : WebhookRow) : option WebhookRow :=
  match outcome with
  | Classify_Terminal o => Some (complete_row now o r)
  | Classify_Retryable err =>
      if pc_max_attempts cfg <=? saturating_i32 (cw_attempts c + 1) then Some (fail_row now err r)
      else delay ← backoff_delay (saturating_i32 (cw_attempts c + 1)) (pc_backoff_base cfg) (pc_backoff_max cfg);
           Some (retry_row err (now + delay) r)
  end.
Lemma update_claimed_lookup id token f inbox k :
  update_claimed id token f inbox !! k =
  (fun r => if (k =? id) && holds_claim token r then f r else r) <$> inbox !! k.
Proof.
  unfold update_claimed. destruct (Z.eqb_spec k id) as [->|Hne].
  - rewrite lookup_alter_eq. done.
  - rewrite lookup_alter_ne by done. simpl. by destruct (inbox !! k).
Qed.
Lemma finish_one_held cfg now c outcome inbox r :
  inbox !! cw_id c = Some r -> holds_claim (cw_claim_token c) r = true ->
  finish_one cfg now c outcome inbox = (fun r' => <[cw_id c := r']> inbox) <$> finished_row cfg now c outcome r.
Proof.
  intros Hr Hh.
  assert (Hup : forall f, update_claimed (cw_id c) (cw_claim_token c) f inbox = <[cw_id c := f r]> inbox).
  { intros f. apply map_eq. intros k. rewrite update_claimed_lookup. destruct (Z.eqb_spec k (cw_id c)) as [->|Hne].
    - rewrite Hr, lookup_insert_eq. simpl. by rewrite Hh.
    - rewrite lookup_insert_ne by done. simpl. by destruct (inbox !! k). }
  unfold finish_one, finished_row, complete_webhook, record_permanent_failure, record_retryable_error.
  destruct outcome as [o|err]; [by rewrite Hup|]. destruct (_ <=? _); [by rewrite Hup|].
  destruct (backoff_delay _ _ _); [|done]. simpl. by rewrite Hup.
Qed.
Lemma finish_one_lookup cfg now c outcome inbox inbox' k :
  finish_one cfg now c outcome inbox = Some inbox' ->
  inbox' !! k = inbox !! k
  /\ ~ (k = cw_id c /\ holds c inbox = true)
  \/ exists r r', k = cw_id c /\ inbox !! k = Some r /\ holds_claim (cw_claim_token c) r = true
     /\ finished_row cfg now c outcome r = Some r' /\ inbox' !! k = Some r'.
Proof.
  assert (Hup : forall f, update_claimed (cw_id c) (cw_claim_token c) f inbox !! k = inbox !! k
      /\ ~ (k = cw_id c /\ holds c inbox = true)
    \/ exists r, k = cw_id c /\ inbox !! k = Some r /\ holds_claim (cw_claim_token c) r = true
       /\ update_claimed (cw_id c) (cw_claim_token c) f inbox !! k = Some (f r)).
  { intros f. rewrite update_claimed_lookup. unfold holds. destruct (Z.eqb_spec k (cw_id c)) as [->|Hne].
    - destruct (inbox !! cw_id c) as [r|] eqn:Er; simpl; [|left; naive_solver].
      destruct (holds_claim _ r) eqn:Eh; [right; exists r; by rewrite Eh|left]. naive_solver.
    - left. simpl. destruct (inbox !! k); naive_solver. }
  unfold finish_one. destruct outcome as [o|err].
  - intros [= <-]. destruct (Hup (complete_row now o)) as [?|(r & ? & ? & ? & ?)]; [by left|right].
    by exists r, (complete_row now o r).
  - destruct (_ <=? _) eqn:Em.
    + intros [= <-]. destruct (Hup (fail_row now err)) as [?|(r & ? & ? & ? & ?)]; [by left|right].
      exists r, (fail_row now err r). simpl. by rewrite Em.
    + destruct (backoff_delay _ _ _) as [d|] eqn:Ed; [|done]. intros [= <-].
      destruct (Hup (retry_row err (now + d))) as [?|(r & ? & ? & ? & ?)]; [by left|right].
      exists r, (retry_row err (now + d) r). simpl. rewrite Em, Ed. done.
Qed.

(** *** Preservation *)
Section invariant.
Context (cfg : ProcessorConfig) (Hmax : 1 <= pc_max_attempts cfg <= I32_MAX).
Abbreviation inv := (inbox_inv (pc_max_attempts cfg)).

Lemma claims_token_inj s c d :
  inv s -> c ∈ ib_claims s -> d ∈ ib_claims s -> cw_claim_token c = cw_claim_token d -> c = d.
Proof.
  intros Hi Hc Hd Ht. apply list_elem_of_lookup in Hc as [i Hc]. apply list_elem_of_lookup in Hd as [j Hd].
  assert (i = j) as ->; [|congruence].
  apply (proj1 (NoDup_alt _) (ii_tokens _ _ Hi) i j (cw_claim_token c)); rewrite list_lookup_fmap.
  - by rewrite Hc.
  - rewrite Hd. simpl. by rewrite Ht.
Qed.
(** The claim that holds a row read the row's number of attempts. *)
Lemma holder_attempts s c r :
  inv s -> c ∈ ib_claims s -> ib_inbox s !! cw_id c = Some r -> holds_claim (cw_claim_token c) r = true ->
  cw_attempts c = wh_attempts r.
Proof.
  intros Hi Hc Hr [Ht Hs]%holds_claim_spec. destruct (ri_claimed _ _ _ _ (ii_rows _ _ Hi _ _ Hr) Hs) as (d & Hd & _ & Hdt & <-).
  rewrite Ht in Hdt. injection Hdt as Hdt. by rewrite (claims_token_inj s c d).
Qed.
(** What a record writes: one more attempt or a completion, within the limit. *)
Lemma finished_row_spec now c outcome r r' :
  0 <= wh_attempts r < pc_max_attempts cfg -> cw_attempts c = wh_attempts r ->
  webhook_terminal (wh_status r) = false -> finished_row cfg now c outcome r = Some r' ->
  wh_status r' <> Wh_Processing /\ wh_new r' = wh_new r
  /\ wh_attempts r' + Z.b2z (completed r') = wh_attempts r + 1
  /\ (webhook_terminal (wh_status r') = false -> wh_attempts r' < pc_max_attempts cfg)
  /\ (completed r' = true -> wh_attempts r' = wh_attempts r)
  /\ wh_attempts r <= wh_attempts r' <= pc_max_attempts cfg.
Proof.
  intros Hr Hc Ht. unfold finished_row, completed. rewrite Hc. unfold saturating_i32.
  rewrite Z.min_r, Z.max_r by (unfold I32_MAX in *; lia). destruct outcome as [o|err].
  - intros [= <-]. simpl. rewrite terminal_status_terminal. simpl. split_and!; try done; try lia.
    destruct o; done.
  - destruct (Z.leb_spec (pc_max_attempts cfg) (wh_attempts r + 1)).
    + intros [= <-]. simpl. split_and!; try done; try lia.
    + destruct (backoff_delay _ _ _) as [d|]; [|done]. intros [= <-]. simpl. split_and!; try done; try lia.
Qed.
(** A step leaves the claims and the rows it does not touch in order. *)
Lemma row_inv_mono s s' id r :
  row_inv (pc_max_attempts cfg) s id r -> ib_claims s ⊆ ib_claims s' ->
  count_occ Z.eq_dec (ib_recorded s') id = count_occ Z.eq_dec (ib_recorded s) id ->
  row_inv (pc_max_attempts cfg) s' id r.
Proof.
  intros [H1 H2 H3 H4 H5] Hsub Hn. constructor; try done; [|by rewrite Hn].
  intros Hp. destruct (H1 Hp) as (c & Hc & ?). exists c. split; [by apply Hsub|done].
Qed.
(** Rows that keep what the invariant speaks of. *)
Definition same_standing (r r' : WebhookRow) : Prop :=
  wh_new r' = wh_new r /\ wh_attempts r' = wh_attempts r
  /\ webhook_terminal (wh_status r') = webhook_terminal (wh_status r) /\ completed r' = completed r
  /\ (wh_status r' = Wh_Processing -> wh_status r = Wh_Processing /\ wh_claim_token r' = wh_claim_token r).
Lemma inv_update s p f :
  inv s -> (forall k r, p k r = true -> same_standing r (f r)) ->
  inv {| ib_inbox := update_where p f (ib_inbox s); ib_claims := ib_claims s; ib_recorded := ib_recorded s |}.
Proof.
  intros [H1 H2 H3 H4] Hf.
  assert (Hrow : forall k r', update_where p f (ib_inbox s) !! k = Some r' ->
    exists r, ib_inbox s !! k = Some r /\ same_standing r r').
  { intros k r'. rewrite lookup_update_where. destruct (ib_inbox s !! k) as [r|] eqn:Er; [|done].
    simpl. intros [= <-]. exists r. split; [done|]. destruct (p k r) eqn:Ep; [by apply Hf with k|done]. }
  constructor; simpl; [done| | |].
  - intros k r' Hr'. destruct (Hrow k r' Hr') as (r & Hr & Hn & Ha & Ht & Hc & Hp).
    destruct (H2 k r Hr) as [K1 K2 K3 K4 K5]. constructor; simpl; rewrite ?Ha, ?Ht, ?Hc; try done.
    intros Hs. destruct (Hp Hs) as [Hs' ->]. by apply K1.
  - intros k Hk. apply H3. rewrite lookup_update_where in Hk. by destruct (ib_inbox s !! k).
  - intros i j r t Hi Hj. destruct (Hrow i r Hi) as (r0 & Hr0 & -> & _), (Hrow j t Hj) as (t0 & Ht0 & -> & _).
    by apply H4.
Qed.

Lemma inv_init : inv inbox_init.
Proof. constructor; simpl; try done. by constructor. Qed.
Lemma inv_ingest now id w out inbox s :
  inv s -> ib_inbox s !! id = None -> ingest_webhook now id w (ib_inbox s) = (out, inbox) ->
  inv {| ib_inbox := inbox; ib_claims := ib_claims s; ib_recorded := ib_recorded s |}.
Proof.
  intros [H1 H2 H3 H4] Hid. unfold ingest_webhook. destruct (exists_row _ _) eqn:Ex; intros [= <- <-].
  { by destruct s. }
  rewrite exists_row_false in Ex.
  assert (Hnew : forall j t, ib_inbox s !! j = Some t -> nw_delivery_id (wh_new t) <> nw_delivery_id w).
  { intros j t Ht Heq. specialize (Ex j t Ht). simpl in Ex. rewrite Heq in Ex. unfold rstr_eqb in Ex. by rewrite bool_decide_eq_false in Ex. }
  constructor; simpl; [done| | |].
  - intros k r [[<- <-]|[Hne Hr]]%lookup_insert_Some; [|by apply (row_inv_mono s); [apply H2|done|done]].
    constructor; simpl; try done; try lia. rewrite (H3 id Hid). unfold completed. simpl. lia.
  - intros k [Hk _]%lookup_insert_None. by apply H3.
  - intros i j r t [[<- <-]|[? Hr]]%lookup_insert_Some [[<- <-]|[? Ht]]%lookup_insert_Some; simpl; intros Hd; try done.
    + by destruct (Hnew j t Ht).
    + by destruct (Hnew i r Hr).
    + by apply (H4 i j r t).
Qed.
Lemma inv_claim now token types locked c inbox s :
  inv s -> is_fresh token (ib_claims s) = true -> claim_next now token types locked (ib_inbox s) = (Some c, inbox) ->
  inv {| ib_inbox := inbox; ib_claims := c :: ib_claims s; ib_recorded := ib_recorded s |}.
Proof.
  intros [H1 H2 H3 H4] Hf (id & r & Hr & [Ho Hp]%claimable_open & -> & -> & _)%claim_next_some.
  constructor; simpl.
  - constructor; [by apply is_fresh_spec|done].
  - intros k r' [[<- <-]|[Hne Hr']]%lookup_insert_Some.
    + destruct (H2 id r Hr) as [K1 K2 K3 K4 K5]. constructor; simpl; try done.
      * intros _. exists (claimed_of id token r). split_and!; [left|done..].
      * intros _. by apply K3.
      * rewrite K5. unfold completed. simpl. by rewrite Ho.
    + apply (row_inv_mono s); [by apply H2|set_solver|done].
  - intros k [Hk _]%lookup_insert_None. by apply H3.
  - intros i j a b [[<- <-]|[? Ha]]%lookup_insert_Some [[<- <-]|[? Hb]]%lookup_insert_Some; simpl; try done.
    + by apply (H4 _ _ r b).
    + by apply (H4 _ _ a r).
    + by apply (H4 i j a b).
Qed.
Lemma inv_finish now c outcome inbox s :
  inv s -> c ∈ ib_claims s -> finish_one cfg now c outcome (ib_inbox s) = Some inbox ->
  inv {| ib_inbox := inbox; ib_claims := ib_claims s;
         ib_recorded := if holds c (ib_inbox s) then cw_id c :: ib_recorded s else ib_recorded s |}.
Proof.
  intros Hi Hc Hf. pose proof Hi as [H1 H2 H3 H4].
  assert (Hcnt : forall k, count_occ Z.eq_dec (if holds c (ib_inbox s) then cw_id c :: ib_recorded s else ib_recorded s) k
    = (count_occ Z.eq_dec (ib_recorded s) k + if decide (k = cw_id c /\ holds c (ib_inbox s) = true) then 1 else 0)%nat).
  { intros k. destruct (holds c (ib_inbox s)); [|case_decide; [naive_solver|lia]].
    destruct (decide (k = cw_id c)) as [->|Hne].
    - rewrite count_occ_cons_eq by done. rewrite decide_True by done. lia.
    - rewrite count_occ_cons_neq by done. rewrite decide_False by naive_solver. lia. }
  assert (Hnew : forall k r', inbox !! k = Some r' -> exists r, ib_inbox s !! k = Some r /\ wh_new r' = wh_new r
    /\ row_inv (pc_max_attempts cfg) {| ib_inbox := inbox; ib_claims := ib_claims s;
         ib_recorded := if holds c (ib_inbox s) then cw_id c :: ib_recorded s else ib_recorded s |} k r').
  { intros k r' Hr'. destruct (finish_one_lookup _ _ _ _ _ _ k Hf) as [[Hk Hn]|(r & r1 & -> & Hr & Hh & Hfin & Hr1)].
    - rewrite Hk in Hr'. exists r'. split_and!; try done. apply (row_inv_mono s); [by apply H2|done|].
      simpl. rewrite Hcnt, decide_False by done. lia.
    - rewrite Hr1 in Hr'. injection Hr' as ->. exists r.
      destruct (H2 _ _ Hr) as [K1 K2 K3 K4 K5]. pose proof (proj1 (holds_claim_spec _ _) Hh) as [_ Hs].
      assert (Ht : webhook_terminal (wh_status r) = false) by by rewrite Hs.
      destruct (finished_row_spec now c outcome r r') as (F1 & F2 & F3 & F4 & F5 & F6); try done.
      { split; [lia|by apply K3]. }
      { by apply (holder_attempts s). }
      split_and!; [done|done|]. constructor; simpl; try done; try lia.
      + intros Hcm. rewrite (F5 Hcm). by apply K3.
      + rewrite Hcnt, decide_True by (unfold holds; by rewrite Hr). rewrite F3, Nat2Z.inj_add, K5.
        unfold completed. rewrite Ht. simpl. lia. }
  constructor; simpl; [done| | |].
  - intros k r' Hr'. by destruct (Hnew k r' Hr') as (r & _ & _ & ?).
  - intros k Hk. destruct (finish_one_lookup _ _ _ _ _ _ k Hf) as [[Hl Hn]|(r & r1 & -> & Hr & Hh & Hfin & Hr1)]; [|congruence].
    rewrite Hcnt, decide_False by done. rewrite H3 by congruence. lia.
  - intros i j r' t' Hr' Ht'. destruct (Hnew i r' Hr') as (r & Hr & -> & _), (Hnew j t' Ht') as (t & Ht & -> & _).
    by apply H4.
Qed.
Lemma inv_step s s' : inbox_step cfg s s' -> inv s -> inv s'.
Proof.
  intros [now id w out inbox s0 Hid Hw | now token types locked c inbox s0 Hf Hc | now c outcome inbox s0 Hc Hf | now s0 | now s0] Hi.
  - by apply (inv_ingest now id w out).
  - by apply (inv_claim now token types locked).
  - by apply (inv_finish now c outcome).
  - apply inv_update; [done|]. intros _ r Hs. unfold stuck in Hs. apply andb_true_iff in Hs as [Hs%bool_decide_eq_true _].
    unfold same_standing, completed. simpl. by rewrite Hs.
  - apply inv_update; [done|]. by intros.
Qed.
Lemma reachable_inv s : inbox_reachable cfg s -> inv s.
Proof.
  intros Hr. assert (H : forall a b, rtc (inbox_step cfg) a b -> inv a -> inv b).
  { induction 1 as [|a b d Hab _ IH]; [done|]. intros Ha. apply IH. by apply (inv_step a). }
  by apply (H inbox_init); [|apply inv_init].
Qed.
End invariant.

(** *** Terminal rows are final *)
Lemma terminal_step cfg s s' id r :
  inbox_step cfg s s' -> ib_inbox s !! id = Some r -> webhook_terminal (wh_status r) = true ->
  ib_inbox s' !! id = Some r \/ ib_inbox s' !! id = Some (with_payload None r).
Proof.
  intros [now k w out inbox s0 Hid Hw | now token types locked c inbox s0 Hf Hc | now c outcome inbox s0 Hc Hf | now s0 | now s0] Hr Ht; simpl.
  - left. unfold ingest_webhook in Hw. destruct (exists_row _ _); injection Hw as <- <-; [done|].
    rewrite lookup_insert_ne by congruence. done.
  - left. apply claim_next_some in Hc as (k & r0 & Hk & [Ho _]%claimable_open & -> & -> & _).
    rewrite lookup_insert_ne by congruence. done.
  - left. destruct (finish_one_lookup _ _ _ _ _ _ id Hf) as [[-> _]|(r0 & r1 & -> & Hr0 & [_ Hs]%holds_claim_spec & _)]; [done|].
    rewrite Hr in Hr0. injection Hr0 as <-. by rewrite Hs in Ht.
  - left. unfold sweep_stuck_claims. rewrite lookup_update_where, Hr. simpl. unfold stuck.
    by destruct (wh_status r).
  - unfold clear_terminal_payloads. rewrite lookup_update_where, Hr. simpl.
    destruct (_ && _ && _); [by right|by left].
Qed.
Lemma terminal_final cfg s s' id r :
  rtc (inbox_step cfg) s s' -> ib_inbox s !! id = Some r -> webhook_terminal (wh_status r) = true ->
  ib_inbox s' !! id = Some r \/ ib_inbox s' !! id = Some (with_payload None r).
Proof.
  intros Hs. revert r. induction Hs as [|a b d Hab _ IH]; intros r Hr Ht; [by left|].
  destruct (terminal_step _ _ _ _ _ Hab Hr Ht) as [Hb|Hb]; [by apply IH|].
  destruct (IH _ Hb Ht); by right.
Qed.
Lemma stale_finish cfg now c outcome inbox inbox' :
  finish_one cfg now c outcome inbox = Some inbox' -> holds c inbox = false -> inbox' = inbox.
Proof.
  intros Hf Hh. apply map_eq. intros k.
  destruct (finish_one_lookup _ _ _ _ _ _ k Hf) as [[-> _]|(r & r1 & -> & Hr & Hc & _)]; [done|].
  unfold holds in Hh. rewrite Hr in Hh. congruence.
Qed.

(** C12: However many processors run, crash, or answer late, and whatever the sweeps do: at most
    one claim holds a webhook at a time, the record of a claim that lost its webhook changes
    nothing, a webhook that reached a terminal status keeps its whole row for ever (its
    payload may be cleared), and a delivery identifier is stored once. *)
Theorem inbox_fenced cfg s :
  1 <= pc_max_attempts cfg <= I32_MAX -> inbox_reachable cfg s ->
  (forall c d, c ∈ ib_claims s -> d ∈ ib_claims s -> cw_id c = cw_id d ->
     holds c (ib_inbox s) = true -> holds d (ib_inbox s) = true -> c = d)
  /\ (forall c now outcome inbox', holds c (ib_inbox s) = false ->
        finish_one cfg now c outcome (ib_inbox s) = Some inbox' -> inbox' = ib_inbox s)
  /\ (forall id r s', ib_inbox s !! id = Some r -> webhook_terminal (wh_status r) = true ->
        rtc (inbox_step cfg) s s' ->
        ib_inbox s' !! id = Some r \/ ib_inbox s' !! id = Some (with_payload None r))
  /\ (forall i j r t, ib_inbox s !! i = Some r -> ib_inbox s !! j = Some t ->
        nw_delivery_id (wh_new r) = nw_delivery_id (wh_new t) -> i = j).
Proof.
  intros Hmax Hs. pose proof (reachable_inv cfg Hmax s Hs) as Hi. split_and!.
  - intros c d Hc Hd Hid. unfold holds. rewrite <- Hid. destruct (ib_inbox s !! cw_id c) as [r|]; [|done].
    intros [H1 _]%holds_claim_spec [H2 _]%holds_claim_spec. apply (claims_token_inj cfg s); congruence.
  - intros c now outcome inbox' Hh Hf. by apply (stale_finish cfg now c outcome).
  - intros id r s' Hr Ht Hs'. by apply (terminal_final cfg s).
  - apply (ii_delivery _ _ Hi).
Qed.

(** *** Attempts and delays *)
Lemma backoff_delay_eq attempt base max :
  1 <= attempt <= I32_MAX -> 0 <= base -> base * 2 ^ 30 <= MAX_SECONDS ->
  backoff_delay attempt base max = Some (Z.min max (base * 2 ^ Z.min (attempt - 1) 30)).
Proof.
  intros Ha Hb Hm. unfold backoff_delay, saturating_i32, clamp. unfold I32_MAX in *.
  rewrite (Z.min_r (2 ^ 31 - 1)), (Z.max_r (- 2 ^ 31)), Z.max_r, (Z.min_comm 30) by lia.
  set (e := Z.min (attempt - 1) 30). assert (He : 0 <= e <= 30) by lia.
  rewrite Z.shiftl_mul_pow2, Z.mul_1_l by lia.
  assert (Hp : 1 <= 2 ^ e <= 2 ^ 30) by (split; [apply (Z.pow_le_mono_r 2 0)|apply Z.pow_le_mono_r]; lia).
  assert (Hs : 0 <= base * 2 ^ e <= MAX_SECONDS) by nia.
  assert (HM : 0 < MAX_SECONDS < I64_MAX) by (by vm_compute).
  unfold saturating_mul_i64. rewrite Z.min_r, Z.max_r by lia. unfold duration_seconds.
  rewrite (proj2 (Z.leb_le (- MAX_SECONDS) _)), (proj2 (Z.leb_le _ MAX_SECONDS)) by lia. simpl.
  destruct (Z.ltb_spec max (base * 2 ^ e)); f_equal; lia.
Qed.
(** C17: A webhook is recorded at most [max_attempts] times however often it is claimed, an open
    webhook always has an attempt left, and the claim that holds a webhook decides its
    retry exactly: the last attempt fails it for good, an earlier one puts it off by
    the base delay doubled for each failed attempt, at most the configured maximum. *)
Theorem attempts_bounded cfg s id r :
  1 <= pc_max_attempts cfg <= I32_MAX -> 0 <= pc_backoff_base cfg ->
  pc_backoff_base cfg * 2 ^ 30 <= MAX_SECONDS ->
  inbox_reachable cfg s -> ib_inbox s !! id = Some r ->
  Z.of_nat (count_occ Z.eq_dec (ib_recorded s) id) <= pc_max_attempts cfg
  /\ wh_attempts r <= pc_max_attempts cfg
  /\ (webhook_terminal (wh_status r) = false -> wh_attempts r < pc_max_attempts cfg)
  /\ (forall c now err, c ∈ ib_claims s -> cw_id c = id -> holds c (ib_inbox s) = true ->
        finish_one cfg now c (Classify_Retryable err) (ib_inbox s)
        = Some (<[id := if wh_attempts r + 1 =? pc_max_attempts cfg then fail_row now err r
                        else retry_row err (now + Z.min (pc_backoff_max cfg)
                               (pc_backoff_base cfg * 2 ^ Z.min (wh_attempts r) 30)) r]> (ib_inbox s))).
Proof.
  intros Hmax Hb Hm Hs Hr. pose proof (reachable_inv cfg Hmax s Hs) as Hi.
  destruct (ii_rows _ _ Hi id r Hr) as [K1 K2 K3 K4 K5]. split_and!; [|lia|done|].
  - rewrite K5. destruct (completed r) eqn:E; simpl; [specialize (K4 eq_refl)|]; lia.
  - intros c now err Hc <- Hh. unfold holds in Hh. rewrite Hr in Hh.
    pose proof (holder_attempts cfg s c r Hi Hc Hr Hh) as Ha.
    assert (Hlt : wh_attempts r < pc_max_attempts cfg)
      by (apply K3; apply holds_claim_spec in Hh as [_ ->]; done).
    rewrite (finish_one_held cfg now c _ _ r) by done. unfold finished_row, saturating_i32. rewrite Ha.
    rewrite Z.min_r, Z.max_r by (unfold I32_MAX in *; lia).
    destruct (Z.eqb_spec (wh_attempts r + 1) (pc_max_attempts cfg)) as [He|He].
    + by rewrite (proj2 (Z.leb_le _ _)) by lia.
    + rewrite (proj2 (Z.leb_gt _ _)) by lia. rewrite backoff_delay_eq by lia. simpl.
      by replace (wh_attempts r + 1 - 1) with (wh_attempts r) by lia.
Qed.

(** ** Draining the inbox

    A processor that is alone, with ticks far enough apart for every delay to have passed. *)
Definition kind_supported (types : list rstr) (r : WebhookRow) : bool :=
  existsb (rstr_eqb (nw_event_type (wh_new r))) types.
Fixpoint process_all (cfg : ProcessorConfig) (types : list rstr) (classify : ClaimedWebhook -> ClassifyOutcome)
    (ticks : list Tick) (inbox : Inbox) : option Inbox :=
  match ticks with
  | [] => Some inbox
  | t :: ticks => out ← process_one cfg types classify t inbox; process_all cfg types classify ticks out.2
  end.
Fixpoint spaced (gap from : Z) (ticks : list Tick) : Prop :=
  match ticks with
  | [] => True
  | t :: ticks => from <= tk_claim t <= tk_finish t /\ spaced gap (tk_finish t + gap) ticks
  end.
Definition row_work (max : Z) (types : list rstr) (r : WebhookRow) : Z :=
  if kind_supported types r && negb (webhook_terminal (wh_status r)) then max - wh_attempts r else 0.
Definition work (max : Z) (types : list rstr) (inbox : Inbox) : Z :=
  map_fold (fun _ r acc => row_work max types r + acc) 0 inbox.
(** Every open row is unclaimed, due by [now], and has attempts left. *)
Definition open_ready (max now : Z) (r : WebhookRow) : Prop :=
  webhook_terminal (wh_status r) = false ->
  wh_status r <> Wh_Processing /\ 0 <= wh_attempts r < max /\ wh_next_attempt_at r <= now.
Definition all_ready (max now : Z) (inbox : Inbox) : Prop :=
  forall id r, inbox !! id = Some r -> open_ready max now r.

Lemma work_insert max types inbox id r r' :
  inbox !! id = Some r ->
  work max types (<[id := r']> inbox) = work max types inbox - row_work max types r + row_work max types r'.
Proof.
  intros Hr. unfold work. rewrite (map_fold_delete_L _ _ id r inbox) by (try done; intros; lia).
  rewrite <- insert_delete_eq, map_fold_insert_L by (try apply lookup_delete_eq; intros; lia). lia.
Qed.
Lemma row_work_nonneg max types now r : open_ready max now r -> 0 <= row_work max types r.
Proof.
  unfold row_work, open_ready. intros H. destruct (kind_supported _ _); [|done].
  destruct (webhook_terminal _); [done|]. destruct (H eq_refl) as (_ & ? & _). simpl. lia.
Qed.
Lemma work_nonneg max types now inbox : all_ready max now inbox -> 0 <= work max types inbox.
Proof.
  unfold work, all_ready. induction inbox as [|i r inbox Hi Hf IH] using map_first_key_ind; [by rewrite map_fold_empty|].
  intros H. rewrite map_fold_insert_L by (try done; intros; lia).
  pose proof (row_work_nonneg max types now r (H i r (lookup_insert_eq _ _ _))).
  assert (0 <= map_fold (fun _ r acc => row_work max types r + acc) 0 inbox); [|lia].
  apply IH. intros k t Hk. apply (H k). rewrite lookup_insert_ne; [done|congruence].
Qed.
Lemma work_lookup max types now inbox id r :
  all_ready max now inbox -> inbox !! id = Some r -> row_work max types r <= work max types inbox.
Proof.
  intros H Hr. unfold work. rewrite (map_fold_delete_L _ _ id r inbox) by (try done; intros; lia).
  pose proof (work_nonneg max types now (delete id inbox)) as Hn. unfold work in Hn.
  assert (all_ready max now (delete id inbox)); [|specialize (Hn ltac:(done)); lia].
  intros k t [_ Hk]%lookup_delete_Some. by apply (H k).
Qed.
Lemma claim_next_none now token types locked inbox inbox' :
  claim_next now token types locked inbox = (None, inbox') ->
  inbox' = inbox /\ forall id r, inbox !! id = Some r -> claimable now types locked id r = false.
Proof.
  unfold claim_next. destruct types as [|ty types].
  - intros [= <-]. split; [done|]. intros id r _. unfold claimable. simpl. by rewrite andb_false_r.
  - destruct (sort_by _ _) as [|[id r] rest] eqn:E; [|done]. intros [= <-]. split; [done|]. intros id r Hr.
    destruct (claimable _ _ _ _ _) eqn:Ec; [|done].
    assert (Hin : (id, r) ∈ rows (claimable now (ty :: types) locked) inbox) by by apply elem_of_rows.
    pose proof (sort_by_perm due_before (rows (claimable now (ty :: types) locked) inbox)) as Hp. rewrite E in Hp.
    apply Permutation_nil in Hp. rewrite Hp in Hin. by apply not_elem_of_nil in Hin.
Qed.
Lemma ready_claimable max now types id r :
  open_ready max now r -> webhook_terminal (wh_status r) = false -> kind_supported types r = true ->
  claimable now types ∅ id r = true.
Proof.
  intros H Ht Hs. destruct (H Ht) as (Hp & _ & Hn). unfold claimable. unfold kind_supported in Hs. rewrite Hs.
  rewrite (proj2 (Z.leb_le _ _)) by done. rewrite (bool_decide_eq_false_2 (id ∈ ∅)) by set_solver.
  by destruct (wh_status r).
Qed.
Section drain.
Context (cfg : ProcessorConfig) (types : list rstr) (classify : ClaimedWebhook -> ClassifyOutcome).
Context (Hmax : 1 <= pc_max_attempts cfg <= I32_MAX) (Hbase : 0 <= pc_backoff_base cfg)
        (Hfits : pc_backoff_base cfg * 2 ^ 30 <= MAX_SECONDS).
Abbreviation max := (pc_max_attempts cfg).
Abbreviation gap := (Z.max 0 (pc_backoff_max cfg)).

Lemma finished_ready t id r :
  open_ready max (tk_claim t) r -> webhook_terminal (wh_status r) = false ->
  exists r', finished_row cfg (tk_finish t) (claimed_of id (tk_token t) r)
               (classify (claimed_of id (tk_token t) r)) (claim_row (tk_claim t) (tk_token t) r) = Some r'
    /\ wh_new r' = wh_new r /\ open_ready max (tk_finish t + gap) r'
    /\ (webhook_terminal (wh_status r') = true \/ wh_attempts r' = wh_attempts r + 1).
Proof.
  intros Hr Ht. destruct (Hr Ht) as (_ & Ha & _). unfold finished_row. simpl.
  destruct (classify _) as [o|err].
  - eexists. split_and!; [done|done| |left; apply terminal_status_terminal].
    intros Ht'. simpl in Ht'. by rewrite terminal_status_terminal in Ht'.
  - unfold saturating_i32. rewrite Z.min_r, Z.max_r by (unfold I32_MAX in *; lia).
    destruct (Z.leb_spec max (wh_attempts r + 1)).
    + eexists. split_and!; [done|done|by intros [=]|by left].
    + rewrite backoff_delay_eq by (unfold I32_MAX in *; lia). eexists. split_and!; [done|done| |by right].
      intros _. simpl. split_and!; [done|lia|lia|lia].
Qed.
(** One tick: nothing is left to do, or one webhook is closer to its end. *)
Lemma process_one_spec t inbox :
  all_ready max (tk_claim t) inbox -> tk_claim t <= tk_finish t ->
  process_one cfg types classify t inbox = Some (false, inbox)
  /\ (forall id r, inbox !! id = Some r -> kind_supported types r = true -> webhook_terminal (wh_status r) = true)
  \/ exists id r r', inbox !! id = Some r /\ kind_supported types r = true /\ webhook_terminal (wh_status r) = false
     /\ process_one cfg types classify t inbox = Some (true, <[id := r']> inbox)
     /\ wh_new r' = wh_new r /\ open_ready max (tk_finish t + gap) r'
     /\ (webhook_terminal (wh_status r') = true \/ wh_attempts r' = wh_attempts r + 1).
Proof.
  intros Hall Hle. unfold process_one. destruct (claim_next _ _ _ _ _) as [[c|] inbox'] eqn:Ec.
  - apply claim_next_some in Ec as (id & r & Hr & Hcl & -> & -> & _). right.
    destruct (claimable_open _ _ _ _ _ Hcl) as [Ho _].
    assert (Hs : kind_supported types r = true).
    { unfold claimable in Hcl. apply andb_true_iff in Hcl as [[_ ?]%andb_true_iff _]. done. }
    destruct (finished_ready t id r (Hall id r Hr) Ho) as (r' & Hf & Hn & Hrd & Hend).
    exists id, r, r'. split_and!; try done.
    rewrite (finish_one_held cfg _ _ _ _ (claim_row (tk_claim t) (tk_token t) r)).
    + rewrite Hf. simpl. by rewrite insert_insert_eq.
    + apply lookup_insert_eq.
    + by apply holds_claim_spec.
  - apply claim_next_none in Ec as [-> Hn]. left. split; [done|]. intros id r Hr Hs.
    destruct (webhook_terminal (wh_status r)) eqn:Ht; [done|]. specialize (Hn id r Hr).
    by rewrite (ready_claimable max) in Hn by (try done; by apply (Hall id)).
Qed.
Lemma all_ready_later now now' inbox : all_ready max now inbox -> now <= now' -> all_ready max now' inbox.
Proof. intros H Hle id r Hr Ht. destruct (H id r Hr Ht) as (? & ? & ?). split_and!; try done; lia. Qed.

Lemma drain_step ticks : forall from inbox,
  all_ready max from inbox -> spaced gap from ticks -> work max types inbox <= Z.of_nat (length ticks) ->
  exists inbox', process_all cfg types classify ticks inbox = Some inbox' /\
    forall id r, inbox !! id = Some r -> exists r', inbox' !! id = Some r' /\ wh_new r' = wh_new r
      /\ if kind_supported types r then webhook_terminal (wh_status r') = true else r' = r.
Proof.
  induction ticks as [|t ticks IH]; intros from inbox Hall Hsp Hw; simpl in *.
  - exists inbox. split; [done|]. intros id r Hr. exists r. split_and!; [done..|].
    destruct (kind_supported types r) eqn:Hs; [|done]. destruct (webhook_terminal (wh_status r)) eqn:Ht; [done|].
    pose proof (work_lookup max types from inbox id r Hall Hr) as Hle. unfold row_work in Hle.
    rewrite Hs, Ht in Hle. simpl in Hle. destruct (Hall id r Hr Ht) as (_ & ? & _). lia.
  - destruct Hsp as [Ht Hsp].
    assert (Hnow : all_ready max (tk_claim t) inbox) by (apply (all_ready_later from); [done|lia]).
    destruct (process_one_spec t inbox Hnow) as [[-> Hdone]|(id & r & r' & Hr & Hs & Ho & -> & Hn & Hrd & Hend)];
      [lia| |]; simpl.
    + apply (IH (tk_finish t + gap)); [apply (all_ready_later from); [done|lia]|done|].
      assert (work max types inbox = 0) as ->; [|lia].
      unfold work. clear -Hdone. induction inbox as [|i a m Hi Hf IHm] using map_first_key_ind; [done|].
      rewrite map_fold_insert_L by (try done; intros; lia). rewrite IHm.
      * unfold row_work. specialize (Hdone i a (lookup_insert_eq _ _ _)). destruct (kind_supported types a); [|done].
        by rewrite Hdone.
      * intros k b Hk. apply (Hdone k). rewrite lookup_insert_ne; [done|congruence].
    + assert (Hs' : kind_supported types r' = kind_supported types r) by (unfold kind_supported; by rewrite Hn).
      destruct (IH (tk_finish t + gap) (<[id := r']> inbox)) as (inbox' & Hp & Hfin); [|done| |].
      * intros k a [[<- <-]|[Hne Ha]]%lookup_insert_Some; [done|]. apply (all_ready_later from (tk_finish t + gap) inbox Hall ltac:(lia) k a Ha).
      * rewrite (work_insert _ _ _ _ r) by done. unfold row_work. rewrite Hs', Hs, Ho. simpl.
        destruct (Hall id r Hr Ho) as (_ & ? & _). destruct Hend as [->|He]; simpl; [lia|].
        destruct (webhook_terminal (wh_status r')); simpl; lia.
      * exists inbox'. split; [done|]. intros k a Ha. destruct (decide (k = id)) as [->|Hne].
        -- rewrite Hr in Ha. injection Ha as <-. destruct (Hfin id r' (lookup_insert_eq _ _ _)) as (b & Hb & Hbn & Hbt).
           exists b. rewrite Hs', Hs in Hbt. rewrite Hs. split_and!; [done|congruence|done].
        -- apply Hfin. by rewrite lookup_insert_ne.
Qed.
End drain.

(** C16: The inbox drains: once no claim is outstanding and the clock has passed every due time,
    a processor whose ticks are at least the maximal delay apart brings every webhook of a
    supported kind to a terminal status, whatever the classifier answers, within as many
    ticks as the webhooks have attempts left; it never panics, and it leaves the webhooks
    of other kinds as they are. *)
Theorem inbox_drains cfg types classify ticks from inbox :
  1 <= pc_max_attempts cfg <= I32_MAX -> 0 <= pc_backoff_base cfg ->
  pc_backoff_base cfg * 2 ^ 30 <= MAX_SECONDS ->
  all_ready (pc_max_attempts cfg) from inbox ->
  spaced (Z.max 0 (pc_backoff_max cfg)) from ticks ->
  work (pc_max_attempts cfg) types inbox <= Z.of_nat (length ticks) ->
  exists inbox', process_all cfg types classify ticks inbox = Some inbox' /\
    forall id r, inbox !! id = Some r -> exists r', inbox' !! id = Some r' /\ wh_new r' = wh_new r
      /\ if kind_supported types r then webhook_terminal (wh_status r') = true else r' = r.
Proof. intros. by apply (drain_step cfg types classify) with (from := from). Qed.

(** ** The processor's loop stops on persistent errors *)
Record Iteration := { it_swept : option (IterationResult * IterationResult); it_processed : IterationResult }.
Fixpoint run_loop (cfg : ProcessorConfig) (its : list Iteration) (c : RunCounters) : RunCounters + RunCounters :=
  match its with
  | [] => inl c
  | i :: its =>
      match run_iteration cfg (it_swept i) (it_processed i) c with
      | inl c' => run_loop cfg its c'
      | inr c' => inr c'
      end
  end.
Definition run_start : RunCounters := {| rc_process := 0; rc_sweep := 0 |}.
Definition process_fails (i : Iteration) : Prop := it_processed i = It_Err.
(** The sweep runs only when its interval has passed ([it_swept] is [None] otherwise). *)
Definition swept (i : Iteration) : bool := bool_decide (it_swept i <> None).
Definition sweep_fails_if_due (i : Iteration) : Prop :=
  match it_swept i with None => True | Some (stuck, _) => stuck = It_Err end.
Definition sweep_works_if_due (i : Iteration) : Prop :=
  match it_swept i with None => True | Some outcome => outcome = (It_Ok, It_Ok) end.
Definition only_clear_fails (i : Iteration) : Prop :=
  it_processed i = It_Ok /\ match it_swept i with None => True | Some outcome => outcome = (It_Ok, It_Err) end.
Definition sweeps (its : list Iteration) : Z := Z.of_nat (length (filter (fun i => swept i = true) its)).

Lemma run_loop_process cfg its c :
  Forall process_fails its -> pc_max_consecutive_errors cfg <= rc_process c + Z.of_nat (length its) ->
  its <> [] -> exists c', run_loop cfg its c = inr c'.
Proof.
  intros Hf. revert c. induction Hf as [|i its Hi Hf IH]; intros c Hc Hne; [done|]. simpl in *.
  unfold run_iteration. rewrite Hi. destruct (_ || _) eqn:E; [eauto|]. apply orb_false_iff in E as [E%Z.leb_gt _].
  apply IH; [simpl; lia|]. intros ->. simpl in *. lia.
Qed.
Lemma run_loop_sweep cfg its c :
  Forall sweep_fails_if_due its -> rc_sweep c < pc_max_consecutive_errors cfg ->
  pc_max_consecutive_errors cfg <= rc_sweep c + sweeps its -> exists c', run_loop cfg its c = inr c'.
Proof.
  intros Hf. revert c. induction Hf as [|i its Hi Hf IH]; intros c Hlt Hc; [unfold sweeps in Hc; simpl in Hc; lia|].
  simpl. unfold run_iteration. destruct (_ || _) eqn:E; [eauto|]. apply orb_false_iff in E as [_ E%Z.leb_gt].
  unfold sweep_fails_if_due in Hi. unfold sweeps in *.
  destruct (it_swept i) as [[stuck cleared]|] eqn:Es; simpl in E |- *.
  - subst stuck. rewrite filter_cons_True in Hc by (unfold swept; by rewrite Es). simpl in Hc.
    apply IH; simpl; destruct cleared; lia.
  - rewrite filter_cons_False in Hc by (unfold swept; by rewrite Es). by apply IH.
Qed.
Lemma run_loop_masked cfg its c :
  2 <= pc_max_consecutive_errors cfg -> Forall only_clear_fails its -> rc_sweep c <= 1 -> rc_process c = 0 ->
  exists c', run_loop cfg its c = inl c' /\ rc_sweep c' <= 1.
Proof.
  intros Hm Hf. revert c. induction Hf as [|i its [Hp Hi] Hf IH]; intros c Hc Hz; simpl; [eauto|].
  unfold run_iteration. rewrite Hp. destruct (it_swept i) as [outcome|]; [subst outcome|];
    (destruct (_ || _) eqn:E; [|by apply IH]; apply orb_true_iff in E as [E%Z.leb_le|E%Z.leb_le]; lia).
Qed.
(** The trailing failures of the rows so far are those of the counter. *)
Lemma run_loop_continues cfg its before failed c :
  1 <= pc_max_consecutive_errors cfg -> Forall sweep_works_if_due its -> rc_sweep c = 0 ->
  Forall process_fails failed -> rc_process c = Z.of_nat (length failed) ->
  rc_process c < pc_max_consecutive_errors cfg ->
  (forall l during r, before ++ failed ++ its = l ++ during ++ r ->
     Z.of_nat (length during) = pc_max_consecutive_errors cfg -> ~ Forall process_fails during) ->
  exists c', run_loop cfg its c = inl c'.
Proof.
  intros Hm Hw. revert before failed c. induction Hw as [|i its Hi Hw IH]; intros before failed c Hs Hf Hp Hlt Hno; [by exists c|].
  simpl. unfold run_iteration.
  assert (Hsweep : match it_swept i with None => rc_sweep c | Some (stuck, cleared) =>
        match cleared with It_Ok => match stuck with It_Ok => 0 | It_Err => rc_sweep c + 1 end
        | It_Err => match stuck with It_Ok => 0 | It_Err => rc_sweep c + 1 end + 1 end end = 0).
  { unfold sweep_works_if_due in Hi. destruct (it_swept i) as [outcome|]; [by subst outcome|done]. }
  rewrite Hsweep, (proj2 (Z.leb_gt (pc_max_consecutive_errors cfg) 0)), orb_false_r by lia. clear Hsweep.
  destruct (it_processed i) eqn:Ep.
  - rewrite (proj2 (Z.leb_gt _ 0)) by lia.
    apply (IH (before ++ failed ++ [i]) []); [done|done|done|simpl; lia|].
    intros l during r Heq. apply (Hno l during r). rewrite <- Heq. simpl. by rewrite <- !app_assoc.
  - assert (Hf' : Forall process_fails (failed ++ [i])) by (apply Forall_app; by split; [|constructor]).
    assert (Hl : Z.of_nat (length (failed ++ [i])) = rc_process c + 1) by (rewrite length_app; simpl; lia).
    destruct (Z.leb_spec (pc_max_consecutive_errors cfg) (rc_process c + 1)) as [Hge|Hlt'].
    + destruct (Hno before (failed ++ [i]) its); [by rewrite <- app_assoc | lia | done].
    + apply (IH before (failed ++ [i])); [done|done|by rewrite Hl|done|].
      intros l during r Heq. apply (Hno l during r). rewrite <- Heq. by rewrite <- app_assoc.
Qed.

(** C33: The processor's loop and persistent errors.  From whatever counters of a running
    loop, it ends when the rows fail [max_consecutive_errors] times in a row, and when the
    sweep of stuck claims fails in that many sweeps in a row, however many iterations
    without a sweep lie between them.  It goes on as long as the sweeps work and no
    [max_consecutive_errors] iterations in a row fail.  A clearing of payloads that always
    fails is counted on the counter of the sweeps but never ends the loop: the sweep
    before it succeeds and resets the counter in every round, so that it stays at one for
    ever. *)
Theorem persistent_errors_noticed cfg its :
  2 <= pc_max_consecutive_errors cfg ->
  (forall c, rc_process c < pc_max_consecutive_errors cfg -> rc_sweep c < pc_max_consecutive_errors cfg ->
     0 <= rc_process c -> 0 <= rc_sweep c ->
     (Forall process_fails its /\ pc_max_consecutive_errors cfg <= Z.of_nat (length its))
     \/ (Forall sweep_fails_if_due its /\ pc_max_consecutive_errors cfg <= sweeps its) ->
     exists c', run_loop cfg its c = inr c')
  /\ (Forall sweep_works_if_due its ->
      (forall l during r, its = l ++ during ++ r ->
         Z.of_nat (length during) = pc_max_consecutive_errors cfg -> ~ Forall process_fails during) ->
      exists c, run_loop cfg its run_start = inl c)
  /\ (Forall only_clear_fails its -> exists c, run_loop cfg its run_start = inl c /\ rc_sweep c <= 1).
Proof.
  intros Hm. split_and!.
  - intros c Hp Hs Hp0 Hs0 [[Hf Hl]|[Hf Hl]].
    + apply run_loop_process; [done|lia|]. intros ->. simpl in Hl. lia.
    + apply run_loop_sweep; [done|done|lia].
  - intros Hw Hno. apply (run_loop_continues cfg its [] []); try done; simpl; lia.
  - intros Hf. by apply run_loop_masked.
Qed.
(** Ten failing sweeps with iterations between them that do not sweep. *)
Definition rare_sweeps : list Iteration :=
  concat (repeat [{| it_swept := None; it_processed := It_Ok |};
                  {| it_swept := Some (It_Err, It_Ok); it_processed := It_Ok |};
                  {| it_swept := None; it_processed := It_Ok |}] 10).
Lemma persistent_errors_noticed_witness :
  let its := repeat {| it_swept := Some (It_Ok, It_Err); it_processed := It_Ok |} 100 in
  (exists c, run_loop ProcessorConfig_default its run_start = inl c /\ rc_sweep c <= 1)
  /\ exists c, run_loop ProcessorConfig_default rare_sweeps run_start = inr c.
Proof.
  split.
  - apply (persistent_errors_noticed ProcessorConfig_default
      (repeat {| it_swept := Some (It_Ok, It_Err); it_processed := It_Ok |} 100)); [simpl; lia|].
    apply Forall_forall. intros i Hi. apply list_elem_of_In, repeat_spec in Hi. by subst i.
  - apply (persistent_errors_noticed ProcessorConfig_default rare_sweeps); [simpl; lia..|].
    right. split; [repeat constructor|]. vm_compute. congruence.
Defined.

(** ** Witnesses *)
Definition demo_webhook (delivery : string) : NewWebhook :=
  {| nw_delivery_id := lit delivery; nw_event_type := lit "push"; nw_action := None;
     nw_payload_installation_id := Some 7; nw_payload := Some (VScalar SNull); nw_payload_size_bytes := 4 |}.
Definition demo_types : list rstr := [lit "push"].
Definition demo_inbox1 : Inbox := (ingest_webhook 100 1 (demo_webhook "d-1") ∅).2.
Definition demo_claim1 := claim_next 100 1 demo_types ∅ demo_inbox1.
Definition demo_claimed : ClaimedWebhook :=
  {| cw_id := 1; cw_claim_token := 1; cw_delivery_id := lit "d-1"; cw_event_type := lit "push"; cw_action := None;
     cw_payload_installation_id := Some 7; cw_payload := Some (VScalar SNull); cw_payload_size_bytes := 4; cw_attempts := 0;
     cw_received_at := 100 |}.
(** A processor claims the webhook and stalls; the sweep frees it. *)
Definition demo_swept : InboxState :=
  {| ib_inbox := sweep_stuck_claims 1000 300 demo_claim1.2; ib_claims := [demo_claimed]; ib_recorded := [] |}.
Lemma demo_claimed_reachable :
  inbox_reachable ProcessorConfig_default
    {| ib_inbox := demo_claim1.2; ib_claims := [demo_claimed]; ib_recorded := [] |}.
Proof.
  eapply rtc_l; [by eapply (Step_ingest _ 100 1 (demo_webhook "d-1"))|].
  eapply rtc_l; [|apply rtc_refl].
  eapply (Step_claim _ 100 1 demo_types ∅ demo_claimed demo_claim1.2); exact eq_refl.
Qed.
Lemma demo_swept_reachable : inbox_reachable ProcessorConfig_default demo_swept.
Proof.
  eapply rtc_r; [apply demo_claimed_reachable|].
  apply (Step_sweep ProcessorConfig_default 1000).
Qed.
(** The stalled processor answers after the sweep, in vain. *)
Lemma inbox_fenced_witness :
  holds demo_claimed (ib_inbox demo_swept) = false
  /\ forall inbox', finish_one ProcessorConfig_default 1001 demo_claimed (Classify_Terminal Wo_EnqueuedJob)
       (ib_inbox demo_swept) = Some inbox' -> inbox' = ib_inbox demo_swept.
Proof.
  split; [exact eq_refl|]. intros inbox'.
  apply (inbox_fenced ProcessorConfig_default demo_swept); [by vm_compute|apply demo_swept_reachable|exact eq_refl].
Defined.
Definition demo_row : WebhookRow :=
  {| wh_new := demo_webhook "d-1"; wh_received_at := 100; wh_payload := Some (VScalar SNull);
     wh_status := Wh_Processing; wh_outcome := None; wh_claimed_at := Some 100; wh_claim_token := Some 1;
     wh_next_attempt_at := 100; wh_attempts := 0; wh_last_error := None; wh_processed_at := None |}.
Lemma attempts_bounded_witness :
  finish_one ProcessorConfig_default 101 demo_claimed (Classify_Retryable (lit "down")) demo_claim1.2
  = Some (<[1 := retry_row (lit "down") 131 demo_row]> demo_claim1.2).
Proof.
  destruct (attempts_bounded ProcessorConfig_default
    {| ib_inbox := demo_claim1.2; ib_claims := [demo_claimed]; ib_recorded := [] |} 1 demo_row)
    as (_ & _ & _ & H); [by vm_compute|by vm_compute|by vm_compute|apply demo_claimed_reachable|exact eq_refl|].
  exact (H demo_claimed 101 (lit "down") (list_elem_of_here _ _) eq_refl eq_refl).
Defined.
(** A classifier that never succeeds. *)
Definition demo_ticks : list Tick :=
  map (fun i => {| tk_claim := 1000 * i; tk_token := i; tk_finish := 1000 * i + 1 |}) [1; 2; 3; 4; 5].
Lemma inbox_drains_witness :
  exists inbox', process_all ProcessorConfig_default demo_types (fun _ => Classify_Retryable (lit "down"))
      demo_ticks demo_inbox1 = Some inbox' /\
    forall id r, demo_inbox1 !! id = Some r -> exists r', inbox' !! id = Some r' /\ wh_new r' = wh_new r
      /\ if kind_supported demo_types r then webhook_terminal (wh_status r') = true else r' = r.
Proof.
  apply (inbox_drains ProcessorConfig_default demo_types _ demo_ticks 1000 demo_inbox1);
    [by vm_compute|by vm_compute|by vm_compute| |by vm_compute|by vm_compute].
  assert (E : demo_inbox1 = <[1 := (fun o => match o with Some r => r | None => demo_row end) (demo_inbox1 !! 1)]> ∅)
    by exact eq_refl.
  intros id r Hr. rewrite E in Hr. apply lookup_insert_Some in Hr as [[_ <-]|[_ Hr]]; [|by rewrite lookup_empty in Hr].
  intros _. split_and!; by vm_compute.
Defined.
