(* ===== verification/Workload.v ===== *)
(** * Workloads and their arguments

    crates/sbgh-core/src/workload.rs and bench_args.rs, with the axes of a job and
    the enqueue provenance of models.rs: the requests that a connector validates,
    the arguments they render, and the resolution of a job's effective arguments
    with the key that identifies its workload.  The main results are that the
    normalization of stored arguments is idempotent, so that arguments resolved at
    enqueue are found again unchanged, and how far this holds for arguments that
    were rendered but never normalized. *)
From stdpp Require Import base list strings.
From Stdlib Require Import ZArith Lia.
From S2P Require Import Prelude RustStr Json JsonText FleetModel FleetDb.

Local Open Scope Z_scope.

(** ** Axes of a job (models.rs) *)
Inductive JobIntent :=
| Intent_AdhocBenchmark | Intent_BaselineBenchmark | Intent_BlockValidation | Intent_CacheWarm.
Global Instance JobIntent_eq_dec : EqDecision JobIntent.
Proof. solve_decision. Defined.
Inductive BuildTarget := Target_StacksBench | Target_StacksInspect.
Global Instance BuildTarget_eq_dec : EqDecision BuildTarget.
Proof. solve_decision. Defined.
Inductive GitRefKind := Ref_Branch | Ref_Tag | Ref_Commit.
Global Instance GitRefKind_eq_dec : EqDecision GitRefKind.
Proof. solve_decision. Defined.

Definition supports_shared_calibration (k : TaskKind) (t : BuildTarget) : bool :=
  bool_decide (k = Kind_Benchmark) && bool_decide (t = Target_StacksBench).
Definition uses_shared_calibration (k : TaskKind) (t : BuildTarget) (measured_run_count : Z) : bool :=
  supports_shared_calibration k t && (1 <? measured_run_count).
Definition measured_run_count (k : TaskKind) (requested_run_count : Z) : Z :=
  if decide (k = Kind_BuildOnly) then 0 else Z.max requested_run_count 1.

(** ** Enqueue provenance *)
Inductive QueuedEventDetail :=
| Queued_PrComment (sender_id : Z) (sender_login : rstr) (comment_id pr_number : Z)
    (subcommand : option rstr) (bench_args : list rstr)
| Queued_BranchPush (branch : rstr) (trigger_id : Z) (bench_args : option rstr)
| Queued_TagCreated (tag : rstr) (trigger_id : Z) (bench_args : option rstr)
| Queued_SlackAdhoc (channel message_ts : rstr) (reporting_identity : option rstr)
    (bench_args : list rstr) (clean_repetitions : Z)
| Queued_CacheWarm (trigger_id : Z) (git_ref commit : rstr) (build_target : BuildTarget)
| Queued_BlockValidation (selection : BlockValidationSelection).

(** The JSON of a detail ([#[serde(tag = "trigger")]]). *)
Definition jstrs (l : list rstr) : Value := VArray (map jstr l).
Definition BuildTarget_as_str (t : BuildTarget) : string :=
  match t with Target_StacksBench => "stacks_bench" | Target_StacksInspect => "stacks_inspect" end.
Global Instance QueuedEventDetail_Serialize : Serialize QueuedEventDetail := fun d =>
  match d with
  | Queued_PrComment sender_id sender_login comment_id pr_number subcommand bench_args =>
      jobj [("trigger", jstr (lit "pr_comment")); ("sender_id", jint sender_id);
            ("sender_login", jstr sender_login); ("comment_id", jint comment_id);
            ("pr_number", jint pr_number); ("subcommand", jopt jstr subcommand);
            ("bench_args", jstrs bench_args)]
  | Queued_BranchPush branch trigger_id bench_args =>
      jobj [("trigger", jstr (lit "branch_push")); ("branch", jstr branch);
            ("trigger_id", jint trigger_id); ("bench_args", jopt jstr bench_args)]
  | Queued_TagCreated tag trigger_id bench_args =>
      jobj [("trigger", jstr (lit "tag_created")); ("tag", jstr tag);
            ("trigger_id", jint trigger_id); ("bench_args", jopt jstr bench_args)]
  | Queued_SlackAdhoc channel message_ts reporting_identity bench_args clean_repetitions =>
      jobj [("trigger", jstr (lit "slack_adhoc")); ("channel", jstr channel);
            ("message_ts", jstr message_ts);
            ("reporting_identity", jopt jstr reporting_identity);
            ("bench_args", jstrs bench_args); ("clean_repetitions", jint clean_repetitions)]
  | Queued_CacheWarm trigger_id git_ref commit build_target =>
      jobj [("trigger", jstr (lit "cache_warm")); ("trigger_id", jint trigger_id);
            ("git_ref", jstr git_ref); ("commit", jstr commit);
            ("build_target", jstr (lit (BuildTarget_as_str build_target)))]
  | Queued_BlockValidation selection =>
      jobj [("trigger", jstr (lit "block_validation")); ("selection", to_value selection)]
  end.

(** Reading it back, as serde's derived deserializer does: fields by name, unknown
    fields ignored, an absent optional field is [None]. *)
Definition value_as_u64 (v : Value) : option Z :=
  match v with
  | VScalar (SNumber (JInt z)) => if Char.between 0 U64_MAX z then Some z else None
  | _ => None
  end.
Definition value_as_u32 (v : Value) : option Z :=
  match v with
  | VScalar (SNumber (JInt z)) => if Char.between 0 U32_MAX z then Some z else None
  | _ => None
  end.
Definition value_as_strings (v : Value) : option (list rstr) :=
  match v with VArray vs => mapM as_str vs | _ => None end.
Definition field {A} (key : string) (read : Value -> option A) (v : Value) : option A :=
  value_get key v ≫= read.
Definition optional_field {A} (key : string) (read : Value -> option A) (v : Value)
  : option (option A) :=
  match value_get key v with
  | None | Some (VScalar SNull) => Some None
  | Some x => Some <$> read x
  end.
Definition default_field {A} (key : string) (read : Value -> option A) (otherwise : A) (v : Value)
  : option A :=
  match value_get key v with None => Some otherwise | Some x => read x end.
Definition range_of_value (v : Value) : option InclusiveRange :=
  s ← field "start" value_as_u64 v; e ← field "end" value_as_u64 v;
  Some {| ir_start := s; ir_end := e |}.
Definition selection_of_value (v : Value) : option BlockValidationSelection :=
  k ← field "kind" as_str v;
  if rstr_eqb k (lit "recent") then Sel_Recent <$> field "block_count" value_as_u64 v
  else if rstr_eqb k (lit "full") then Some Sel_Full
  else if rstr_eqb k (lit "range") then Sel_Range <$> field "range" range_of_value v
  else None.
Definition build_target_of_value (v : Value) : option BuildTarget :=
  s ← as_str v;
  if rstr_eqb s (lit "stacks_bench") then Some Target_StacksBench
  else if rstr_eqb s (lit "stacks_inspect") then Some Target_StacksInspect
  else None.
Definition queued_detail_of_value (v : Value) : option QueuedEventDetail :=
  k ← field "trigger" as_str v;
  if rstr_eqb k (lit "pr_comment") then
    sender_id ← field "sender_id" value_as_i64 v; sender_login ← field "sender_login" as_str v;
    comment_id ← field "comment_id" value_as_i64 v; pr_number ← field "pr_number" value_as_i64 v;
    subcommand ← optional_field "subcommand" as_str v;
    bench_args ← field "bench_args" value_as_strings v;
    Some (Queued_PrComment sender_id sender_login comment_id pr_number subcommand bench_args)
  else if rstr_eqb k (lit "branch_push") then
    branch ← field "branch" as_str v; trigger_id ← field "trigger_id" value_as_i64 v;
    bench_args ← optional_field "bench_args" as_str v;
    Some (Queued_BranchPush branch trigger_id bench_args)
  else if rstr_eqb k (lit "tag_created") then
    tag ← field "tag" as_str v; trigger_id ← field "trigger_id" value_as_i64 v;
    bench_args ← optional_field "bench_args" as_str v;
    Some (Queued_TagCreated tag trigger_id bench_args)
  else if rstr_eqb k (lit "slack_adhoc") then
    channel ← field "channel" as_str v; message_ts ← field "message_ts" as_str v;
    reporting_identity ← optional_field "reporting_identity" as_str v;
    bench_args ← field "bench_args" value_as_strings v;
    clean_repetitions ← default_field "clean_repetitions" value_as_u32 1 v;
    Some (Queued_SlackAdhoc channel message_ts reporting_identity bench_args clean_repetitions)
  else if rstr_eqb k (lit "cache_warm") then
    trigger_id ← field "trigger_id" value_as_i64 v; git_ref ← field "git_ref" as_str v;
    commit ← field "commit" as_str v;
    build_target ← field "build_target" build_target_of_value v;
    Some (Queued_CacheWarm trigger_id git_ref commit build_target)
  else if rstr_eqb k (lit "block_validation") then
    Queued_BlockValidation <$> field "selection" selection_of_value v
  else None.

(** ** Arguments (bench_args.rs) *)
Record ResolvedBenchArgs := { ra_effective_args : list rstr; ra_workload_key : rstr }.

Definition has_flag (args : list rstr) (flag : rstr) : bool :=
  existsb (fun arg => rstr_eqb arg flag || starts_with (flag ++ lit "=") arg) args.
Definition is_range_mode (args : list rstr) : bool :=
  let has_start := has_flag args (lit "--start-at") in
  let has_range_end := has_flag args (lit "--count") || has_flag args (lit "--end-at") in
  let has_target_selector := has_flag args (lit "--block") || has_flag args (lit "--txid") in
  has_start && has_range_end && negb has_target_selector.

(** The loop of [normalize_in_process_repetitions]: whether a repetition flag was
    seen, and the other arguments. *)
Fixpoint strip_repetitions (args : list rstr) : bool * list rstr :=
  match args with
  | [] => (false, [])
  | arg :: rest =>
      if rstr_eqb arg (lit "--repetitions") then
        match rest with
        | next :: rest' =>
            (true, if starts_with (lit "-") next then (strip_repetitions rest).2
                   else (strip_repetitions rest').2)
        | [] => (true, [])
        end
      else if starts_with (lit "--repetitions=") arg then (true, (strip_repetitions rest).2)
      else let '(saw, out) := strip_repetitions rest in (saw, arg :: out)
  end.
Definition normalize_in_process_repetitions (args : list rstr) : list rstr :=
  let '(saw_repetitions, out) := strip_repetitions args in
  if saw_repetitions && negb (is_range_mode out) then out ++ [lit "--repetitions"; lit "1"] else out.

Definition normalize_stored (d : QueuedEventDetail) : list rstr :=
  match d with
  | Queued_PrComment _ _ _ _ _ args | Queued_SlackAdhoc _ _ _ args _ =>
      normalize_in_process_repetitions args
  | Queued_BranchPush _ _ args | Queued_TagCreated _ _ args =>
      match args with
      | Some s => normalize_in_process_repetitions (split_whitespace s)
      | None => []
      end
  | Queued_CacheWarm _ _ _ _ | Queued_BlockValidation _ => []
  end.

(** [try_normalize_stored_value] and [normalize_stored_value]. *)
Definition try_normalize_stored_value (detail : Value) : option (list rstr) :=
  match value_get "effective_args" detail with
  | Some snapshot => normalize_in_process_repetitions <$> value_as_strings snapshot
  | None => normalize_stored <$> queued_detail_of_value detail
  end.
Definition normalize_stored_value (detail : Value) : list rstr :=
  default [] (try_normalize_stored_value detail).

Definition effective_arg_tokens (stored : list rstr) (default_args : rstr) : list rstr :=
  normalize_in_process_repetitions
    (match stored with [] => split_whitespace default_args | _ => stored end).
Definition effective_arg_string (stored : list rstr) (default_args : rstr) : rstr :=
  join (lit " ") (effective_arg_tokens stored default_args).

Section Keys.
Context `{DigestEnv}.

(** serde_json's compact form of a list of strings, and its SHA-256. *)
Definition workload_key (effective_args : list rstr) : rstr :=
  sha256_hex (write_compact (jstrs effective_args)).
Definition resolve_bench_args (stored : list rstr) (default_args : rstr) : ResolvedBenchArgs :=
  let effective_args := effective_arg_tokens stored default_args in
  {| ra_effective_args := effective_args; ra_workload_key := workload_key effective_args |}.
End Keys.

(** ** Requests (workload.rs) *)
Inductive BlockSelector := Sel_Height (h : Z) | Sel_Hash (h : rstr).
Definition as_bench_arg (s : BlockSelector) : rstr :=
  match s with Sel_Height h => show h | Sel_Hash h => h end.
Inductive WorkloadTarget :=
| Wt_Txids (txids : list rstr)
| Wt_Blocks (blocks : list BlockSelector)
| Wt_BlockRange (start end_ : Z).
Record WorkloadSpec := {
  wl_target : WorkloadTarget;
  wl_clean_repetitions : Z;
  wl_warmup : option Z;
  wl_repository : option rstr;
  wl_rev : option rstr
}.

(** The arguments that select the target, and whether an in-process repetition
    follows them. *)
Definition target_args (t : WorkloadTarget) : list rstr * bool :=
  match t with
  | Wt_Txids txids => (concat (map (fun t => [lit "--txid"; t]) txids), true)
  | Wt_Blocks blocks => (concat (map (fun b => [lit "--block"; as_bench_arg b]) blocks), true)
  | Wt_BlockRange start end_ =>
      ([lit "--start-at"; show start; lit "--count"; show ((end_ - start + 1) mod 2 ^ 64)], false)
  end.
Definition to_bench_args (spec : WorkloadSpec) : list rstr :=
  let '(args, include_in_process_repetition) := target_args (wl_target spec) in
  args ++ (if include_in_process_repetition then [lit "--repetitions"; lit "1"] else [])
  ++ match wl_warmup spec with Some w => [lit "--warmup"; show w] | None => [] end.

Record ComparisonRequest := { cr_workload : WorkloadSpec; cr_variants : list rstr }.
Inductive BenchmarkRequest := Br_Single (s : WorkloadSpec) | Br_Comparison (c : ComparisonRequest).
Definition clean_repetitions (r : BenchmarkRequest) : Z :=
  match r with
  | Br_Single s => wl_clean_repetitions s
  | Br_Comparison c => wl_clean_repetitions (cr_workload c)
  end.

Record RequestLimits := {
  rl_max_clean_repetitions : Z;
  rl_max_variants : Z;
  rl_max_comparison_lifecycles : Z
}.
Definition RequestLimits_new (max_clean_repetitions max_variants max_comparison_lifecycles : Z)
  : RequestLimits :=
  {| rl_max_clean_repetitions := Z.max max_clean_repetitions 1;
     rl_max_variants := Z.max max_variants 1;
     rl_max_comparison_lifecycles := Z.max max_comparison_lifecycles 1 |}.
Definition RequestLimits_default : RequestLimits := RequestLimits_new 5 2 10.

Inductive RequestValidationError :=
| Rv_TooManyCleanRepetitions (requested max : Z)
| Rv_TooFewVariants (requested : Z)
| Rv_TooManyVariants (requested max : Z)
| Rv_TooManyComparisonLifecycles (requested max : Z)
| Rv_EmptyVariantRef
| Rv_DuplicateVariantRef (rev : rstr)
| Rv_ComparisonWorkloadCarriesRev.

(** [Display]; 8212 is the dash. *)
Definition request_error_display (e : RequestValidationError) : rstr :=
  let dash := [32; 8212; 32] in
  match e with
  | Rv_TooManyCleanRepetitions requested max =>
      lit "too many clean repetitions" ++ dash ++ lit "requested " ++ show requested
      ++ lit ", max is " ++ show max
  | Rv_TooFewVariants requested =>
      lit "comparison requests need at least two refs" ++ dash ++ lit "got " ++ show requested
  | Rv_TooManyVariants requested max =>
      lit "too many comparison refs" ++ dash ++ lit "requested " ++ show requested
      ++ lit ", max is " ++ show max
  | Rv_TooManyComparisonLifecycles requested max =>
      lit "comparison request is too large" ++ dash ++ lit "requested " ++ show requested
      ++ lit " VM runs, max is " ++ show max
  | Rv_EmptyVariantRef => lit "comparison refs must be non-empty"
  | Rv_DuplicateVariantRef rev => lit "comparison ref `" ++ rev ++ lit "` is duplicated"
  | Rv_ComparisonWorkloadCarriesRev =>
      lit "comparison refs must live in variants, not workload rev"
  end.

(** The loop over the variants; [seen] holds the earlier references. *)
Fixpoint trim_variants (seen variants : list rstr) : result (list rstr) RequestValidationError :=
  match variants with
  | [] => Ok []
  | v :: rest =>
      let rev := trim v in
      if is_empty rev then Err Rv_EmptyVariantRef
      else if existsb (rstr_eqb rev) seen then Err (Rv_DuplicateVariantRef rev)
      else let? out := trim_variants (rev :: seen) rest in Ok (rev :: out)
  end.
Definition validate_benchmark_request (r : BenchmarkRequest) (limits : RequestLimits)
  : result BenchmarkRequest RequestValidationError :=
  if rl_max_clean_repetitions limits <? clean_repetitions r
  then Err (Rv_TooManyCleanRepetitions (clean_repetitions r) (rl_max_clean_repetitions limits))
  else
    match r with
    | Br_Single s => Ok (Br_Single s)
    | Br_Comparison c =>
        let n := Z.of_nat (length (cr_variants c)) in
        match wl_rev (cr_workload c) with
        | Some _ => Err Rv_ComparisonWorkloadCarriesRev
        | None =>
            if n <? 2 then Err (Rv_TooFewVariants n)
            else if rl_max_variants limits <? n
            then Err (Rv_TooManyVariants n (rl_max_variants limits))
            else
              let lifecycles := saturating_mul_u32 (n mod 2 ^ 32) (clean_repetitions r) in
              if rl_max_comparison_lifecycles limits <? lifecycles
              then Err (Rv_TooManyComparisonLifecycles lifecycles
                          (rl_max_comparison_lifecycles limits))
              else
                let? variants := trim_variants [] (cr_variants c) in
                Ok (Br_Comparison {| cr_workload := cr_workload c; cr_variants := variants |})
        end
    end.

(** ** Reading back a stored detail *)
Lemma strings_read l : value_as_strings (jstrs l) = Some l.
Proof. induction l as [|s l IH]; [done|]. simpl in *. by rewrite IH. Qed.

Definition detail_typed (d : QueuedEventDetail) : Prop :=
  let i64 z := - 2 ^ 63 <= z <= I64_MAX in
  match d with
  | Queued_PrComment s _ c p _ _ => i64 s /\ i64 c /\ i64 p
  | Queued_BranchPush _ t _ | Queued_TagCreated _ t _ | Queued_CacheWarm t _ _ _ => i64 t
  | Queued_SlackAdhoc _ _ _ _ n => in_u32 n
  | Queued_BlockValidation (Sel_Recent n) => in_u64 n
  | Queued_BlockValidation (Sel_Range r) => in_u64 (ir_start r) /\ in_u64 (ir_end r)
  | Queued_BlockValidation Sel_Full => True
  end.
Lemma between_true lo hi z : lo <= z <= hi -> Char.between lo hi z = true.
Proof. unfold Char.between. intros. apply andb_true_iff. split; apply Z.leb_le; lia. Qed.

Lemma queued_detail_roundtrip d : detail_typed d -> queued_detail_of_value (to_value d) = Some d.
Proof.
  unfold in_u64, in_u32, detail_typed. intros Ht.
  destruct d as [s login c p [sub|] args|b t [args|]|tag t [args|]|ch ts [id|] args n|t r c []|[n| |[rs re]]];
    cbv -[Char.between I64_MAX U64_MAX U32_MAX Z.pow Z.opp value_as_strings jstrs];
    rewrite ?strings_read;
    simpl in *; unfold in_u64, in_u32 in *; repeat match goal with Hx : _ /\ _ |- _ => destruct Hx end;
    by repeat (rewrite between_true by (split; assumption)).
Qed.

(** ** Normalization *)
Section Normalize.
#[local] Arguments lit _ : simpl never.
(** No argument is a repetition flag. *)
Definition plain (arg : rstr) : bool :=
  negb (rstr_eqb arg (lit "--repetitions") || starts_with (lit "--repetitions=") arg).

Lemma strip_cons arg rest :
  plain arg = true -> strip_repetitions (arg :: rest)
  = ((strip_repetitions rest).1, arg :: (strip_repetitions rest).2).
Proof.
  unfold plain. intros Hp. apply negb_true_iff, orb_false_iff in Hp as [H1 H2].
  cbn [strip_repetitions]. rewrite H1, H2. by destruct (strip_repetitions rest).
Qed.
Lemma strip_app out rest :
  Forall (fun a => plain a = true) out ->
  strip_repetitions (out ++ rest) = ((strip_repetitions rest).1, out ++ (strip_repetitions rest).2).
Proof.
  induction 1 as [|a out Ha _ IH]; simpl app; [by destruct (strip_repetitions rest)|].
  by rewrite strip_cons, IH.
Qed.

(** What is left has no repetition flag. *)
Lemma strip_plain args : Forall (fun a => plain a = true) (strip_repetitions args).2.
Proof.
  remember (length args) as n eqn:Hn. assert (Hle : (length args <= n)%nat) by lia. clear Hn.
  revert args Hle. induction n as [|n IH]; intros [|arg rest] Hle; simpl in Hle; try lia; try by constructor.
  cbn [strip_repetitions]. destruct (rstr_eqb arg _) eqn:E1.
  - destruct rest as [|next rest']; [by constructor|]. simpl in Hle.
    cbn [snd]. destruct (starts_with _ next); apply IH; simpl; lia.
  - destruct (starts_with _ arg) eqn:E2; [apply IH; lia|].
    pose proof (IH rest ltac:(lia)) as Hr. destruct (strip_repetitions rest) as [saw out].
    simpl in *. constructor; [|done]. unfold plain. by rewrite E1, E2.
Qed.

Lemma strip_nothing out :
  Forall (fun a => plain a = true) out -> strip_repetitions out = (false, out).
Proof. intros Hp. rewrite <- (app_nil_r out) at 1. rewrite strip_app by done. by rewrite app_nil_r. Qed.

Notation one_repetition := [lit "--repetitions"; lit "1"].

(** The flag at the end is found again, and nothing else. *)
Lemma normalize_idempotent args :
  normalize_in_process_repetitions (normalize_in_process_repetitions args)
  = normalize_in_process_repetitions args.
Proof.
  unfold normalize_in_process_repetitions at 2 3. pose proof (strip_plain args) as Hp.
  destruct (strip_repetitions args) as [saw out]. simpl in Hp.
  unfold normalize_in_process_repetitions. destruct (saw && _) eqn:E.
  - rewrite strip_app by done. cbn [strip_repetitions fst snd]. rewrite app_nil_r.
    change (rstr_eqb (lit "--repetitions") (lit "--repetitions")) with true.
    apply andb_true_iff in E as [_ E]. by rewrite E.
  - by rewrite strip_nothing.
Qed.

Lemma normalize_empty args : normalize_in_process_repetitions [] = [] /\
  (normalize_in_process_repetitions args = [] -> (strip_repetitions args).2 = []).
Proof.
  split; [done|]. unfold normalize_in_process_repetitions.
  destruct (strip_repetitions args) as [saw out]. simpl. case_match; [|done].
  intros H0. by apply app_eq_nil in H0 as [_ ?].
Qed.
End Normalize.

(** ** Rendered arguments *)
Section Rendered.
#[local] Arguments lit _ : simpl never.

(** A value that does not start with a dash is not a flag. *)
Definition dash_free (s : rstr) : bool := negb (starts_with (lit "-") s).
Lemma dash_free_plain s : dash_free s = true -> plain s = true.
Proof.
  unfold dash_free, plain. intros Hd. apply negb_true_iff in Hd.
  destruct s as [|c s]; [done|]. destruct (Z.eq_dec c 45) as [->|Hc]; [done|].
  apply negb_true_iff, orb_false_iff. split.
  - apply bool_decide_eq_false_2. intros Heq. by injection Heq as ->.
  - unfold starts_with. change (lit "--repetitions=") with (45 :: lit "-repetitions=").
    cbn [strip_prefix]. by rewrite (proj2 (Z.eqb_neq 45 c)) by congruence.
Qed.

Lemma show_dash_free z : 0 <= z -> dash_free (show z) = true.
Proof.
  intros Hz. destruct (show_digits_head 40 z [] Hz ltac:(lia)) as (d & rest & Hs & Hd).
  unfold show, dash_free. rewrite Hs. apply negb_true_iff.
  change (lit "-") with [45]. unfold starts_with. cbn [strip_prefix].
  by rewrite (proj2 (Z.eqb_neq 45 d)) by lia.
Qed.

(** The targets of a validated request: something is selected, heights are
    numbers and hashes are not flags. *)
Definition selector_ok (b : BlockSelector) : Prop :=
  match b with Sel_Height h => in_u64 h | Sel_Hash h => dash_free h = true end.
Definition target_ok (t : WorkloadTarget) : Prop :=
  match t with
  | Wt_Txids txids => txids <> [] /\ Forall (fun x => dash_free x = true) txids
  | Wt_Blocks blocks => blocks <> [] /\ Forall selector_ok blocks
  | Wt_BlockRange start end_ => in_u64 start /\ in_u64 end_ /\ start <= end_
  end.
Definition spec_ok (spec : WorkloadSpec) : Prop :=
  target_ok (wl_target spec) /\ match wl_warmup spec with Some w => in_u32 w | None => True end.
Definition is_range (t : WorkloadTarget) : bool :=
  match t with Wt_BlockRange _ _ => true | _ => false end.
Definition warmup_args (spec : WorkloadSpec) : list rstr :=
  match wl_warmup spec with Some w => [lit "--warmup"; show w] | None => [] end.

Lemma selector_dash_free b : selector_ok b -> dash_free (as_bench_arg b) = true.
Proof. destruct b; simpl; [|done]. unfold in_u64. intros ?. apply show_dash_free. lia. Qed.
Lemma flagged_plain {A} (flag : rstr) (f : A -> rstr) (l : list A) :
  plain flag = true -> Forall (fun x => dash_free (f x) = true) l ->
  Forall (fun a => plain a = true) (concat (map (fun x => [flag; f x]) l)).
Proof.
  intros Hf. induction 1 as [|x l Hx _ IH]; simpl; [constructor|].
  constructor; [done|]. constructor; [by apply dash_free_plain | done].
Qed.
Lemma target_args_plain t : target_ok t -> Forall (fun a => plain a = true) (target_args t).1.
Proof.
  destruct t as [txids|blocks|start end_]; cbn [target_args fst].
  - intros [_ Hall]. by apply (flagged_plain _ (fun x => x)).
  - intros [_ Hall]. apply flagged_plain; [done|].
    eapply Forall_impl; [exact Hall|]. apply selector_dash_free.
  - intros (Hs & _ & _). unfold in_u64 in Hs.
    pose proof (Z.mod_pos_bound (end_ - start + 1) (2 ^ 64) ltac:(lia)).
    by repeat constructor; apply dash_free_plain, show_dash_free; lia.
Qed.
Lemma warmup_args_plain spec : spec_ok spec -> Forall (fun a => plain a = true) (warmup_args spec).
Proof.
  intros [_ Hw]. unfold warmup_args. destruct (wl_warmup spec) as [w|]; [|constructor].
  unfold in_u32 in Hw. by repeat constructor; apply dash_free_plain, show_dash_free; lia.
Qed.

(** A selected transaction or block is visible to the mode test. *)
Lemma selected_not_range t rest :
  target_ok t -> is_range t = false -> is_range_mode ((target_args t).1 ++ rest) = false.
Proof.
  intros Hok Hr.
  assert (Hsel : has_flag ((target_args t).1 ++ rest) (lit "--block") = true
                 \/ has_flag ((target_args t).1 ++ rest) (lit "--txid") = true).
  { destruct t as [[|x l]|[|x l]|]; [by destruct Hok | by right | by destruct Hok | by left | done]. }
  unfold is_range_mode. apply andb_false_intro2.
  destruct Hsel as [-> | ->]; by rewrite ?orb_true_r.
Qed.

(** The arguments of a request after normalization: the in-process repetition of a
    selection moves behind everything else. *)
Lemma normalize_rendered spec :
  spec_ok spec ->
  normalize_in_process_repetitions (to_bench_args spec)
  = (target_args (wl_target spec)).1 ++ warmup_args spec
    ++ (if is_range (wl_target spec) then [] else [lit "--repetitions"; lit "1"]).
Proof.
  intros Hok. pose proof (target_args_plain _ (proj1 Hok)) as Ht.
  pose proof (warmup_args_plain _ Hok) as Hw. pose proof (proj1 Hok) as Htarget.
  unfold normalize_in_process_repetitions, to_bench_args. fold (warmup_args spec).
  destruct (target_args (wl_target spec)) as [args include] eqn:E. cbn [fst] in *.
  assert (Hi : include = negb (is_range (wl_target spec)))
    by (destruct (wl_target spec); by injection E as _ <-).
  rewrite strip_app by done. subst include.
  destruct (is_range (wl_target spec)) eqn:Er; cbn [negb].
  - simpl app. rewrite strip_nothing by done. cbn [fst snd andb]. by rewrite app_nil_r.
  - change ([lit "--repetitions"; lit "1"] ++ warmup_args spec)
      with (lit "--repetitions" :: lit "1" :: warmup_args spec).
    assert (strip_repetitions (lit "--repetitions" :: lit "1" :: warmup_args spec)
            = (true, warmup_args spec)) as ->.
    { cbn [strip_repetitions].
      change (rstr_eqb (lit "--repetitions") (lit "--repetitions")) with true.
      change (starts_with (lit "-") (lit "1")) with false. cbn iota.
      by rewrite strip_nothing. }
    cbn [fst snd]. replace args with (target_args (wl_target spec)).1 by (by rewrite E).
    rewrite selected_not_range by done. cbn [negb andb]. by rewrite <- app_assoc.
Qed.

(** So the rendered form is its own normal form for a range and without warm-up
    blocks, and only then. *)
Lemma rendered_normal spec :
  spec_ok spec ->
  normalize_in_process_repetitions (to_bench_args spec) = to_bench_args spec
  <-> is_range (wl_target spec) = true \/ wl_warmup spec = None.
Proof.
  intros Hok. rewrite normalize_rendered by done. unfold to_bench_args, warmup_args.
  destruct (wl_target spec) eqn:Et, (wl_warmup spec) as [w|] eqn:Ew;
    cbn [target_args is_range fst]; rewrite ?app_nil_r; (split; [|naive_solver]); try naive_solver;
    intros Heq; apply app_inv_head in Heq; discriminate.
Qed.
End Rendered.

(** ** Resolved arguments *)
Section Resolved.
Context `{DigestEnv}.

Lemma strings_exact l : exact (jstrs l) = true.
Proof. induction l; [done|]. simpl. done. Qed.
Lemma jstrs_inj l l' : jstrs l = jstrs l' -> l = l'.
Proof. intros Heq. apply (f_equal value_as_strings) in Heq. rewrite !strings_read in Heq. by injection Heq. Qed.
(** Equal keys: equal arguments, or a collision of the hash.  The hash is a parameter: a
    theorem up to a collision holds for every hash, and for an injective one without the
    exception. *)
Definition collision : Prop := exists a b : list Z, a <> b /\ sha256_hex a = sha256_hex b.
Lemma workload_key_inj `{!ScalarText} args args' :
  workload_key args = workload_key args' -> args = args' \/ collision.
Proof.
  intros Heq. apply compact_digest in Heq as [Heq|[Hne Heq]]; [| |apply strings_exact ..].
  - left. by apply jstrs_inj.
  - right. by eexists _, _.
Qed.

Lemma effective_normal stored default_args :
  normalize_in_process_repetitions (effective_arg_tokens stored default_args)
  = effective_arg_tokens stored default_args.
Proof. apply normalize_idempotent. Qed.

(** A resolution is found again whatever the default has become, unless it is
    empty. *)
Lemma resolve_frozen args default_args :
  normalize_in_process_repetitions args = args -> args <> [] ->
  resolve_bench_args args default_args
  = {| ra_effective_args := args; ra_workload_key := workload_key args |}.
Proof.
  intros Hn Hne. unfold resolve_bench_args, effective_arg_tokens.
  destruct args as [|a args]; [done|]. by rewrite Hn.
Qed.
End Resolved.

(** ** Accepted requests *)
Definition trimmed (s : rstr) : Prop := exists raw, s = trim raw.
Lemma trim_variants_spec variants : forall seen out,
  trim_variants seen variants = Ok out ->
  out = map trim variants /\ Forall (fun r => r <> []) out /\ NoDup out
  /\ Forall (fun r => r ∉ seen) out.
Proof.
  induction variants as [|v rest IH]; intros seen out; cbn [trim_variants].
  { intros Heq. injection Heq as <-. by repeat constructor. }
  destruct (is_empty (trim v)) eqn:He; [done|].
  destruct (existsb _ seen) eqn:Hs; [done|].
  destruct (trim_variants (trim v :: seen) rest) as [out'|e] eqn:Ht; [|done].
  intros Heq. injection Heq as <-. destruct (IH _ _ Ht) as (-> & Hne & Hnd & Hout).
  assert (Hseen : trim v ∉ seen).
  { rewrite list_elem_of_In. intros Hin. apply not_true_iff_false in Hs. apply Hs, existsb_exists.
    exists (trim v). split; [done|]. by apply bool_decide_eq_true_2. }
  split; [done|]. split_and!.
  - constructor; [|done]. by destruct (trim v).
  - constructor; [|done]. intros Hin. rewrite Forall_forall in Hout.
    apply (Hout _ Hin). by left.
  - constructor; [done|]. eapply Forall_impl; [exact Hout|].
    intros x Hx Hin. apply Hx. by right.
Qed.

(** What a connector may enqueue: within the limits, and the variants of a
    comparison are distinct references. *)
Definition request_within (limits : RequestLimits) (r : BenchmarkRequest) : Prop :=
  clean_repetitions r <= rl_max_clean_repetitions limits /\
  match r with
  | Br_Single _ => True
  | Br_Comparison c =>
      let n := Z.of_nat (length (cr_variants c)) in
      wl_rev (cr_workload c) = None
      /\ 2 <= n <= rl_max_variants limits
      /\ n * clean_repetitions r <= rl_max_comparison_lifecycles limits
      /\ Forall (fun v => v <> []) (cr_variants c) /\ NoDup (cr_variants c)
  end.
Definition limits_typed (l : RequestLimits) : Prop :=
  in_u32 (rl_max_variants l) /\ 0 <= rl_max_comparison_lifecycles l < U32_MAX.

Lemma validated_within r limits r' :
  limits_typed limits -> in_u32 (clean_repetitions r) ->
  validate_benchmark_request r limits = Ok r' ->
  request_within limits r' /\ clean_repetitions r' = clean_repetitions r.
Proof.
  intros [Hv Hl] Hu. unfold validate_benchmark_request, request_within.
  destruct (_ <? clean_repetitions r) eqn:Er; [done|]. apply Z.ltb_ge in Er.
  destruct r as [s|c]; [intros Heq; injection Heq as <-; done|]. cbn zeta.
  destruct (wl_rev (cr_workload c)) eqn:Erev; [done|].
  destruct (_ <? 2) eqn:E2; [done|]. destruct (rl_max_variants limits <? _) eqn:Em; [done|].
  apply Z.ltb_ge in E2, Em. unfold in_u32 in *.
  rewrite Z.mod_small by (unfold_bounds; lia).
  destruct (_ <? saturating_mul_u32 _ _) eqn:Ec; [done|]. apply Z.ltb_ge in Ec.
  destruct (trim_variants [] (cr_variants c)) as [vs|e] eqn:Et; [|done].
  intros Heq. injection Heq as <-. destruct (trim_variants_spec _ _ _ Et) as (-> & Hne & Hnd & _).
  cbn [cr_workload cr_variants clean_repetitions] in *. rewrite length_map.
  unfold saturating_mul_u32 in Ec. repeat split; try done; lia.
Qed.
