(* ===== verification/Intent.v ===== *)
(** * Resolution of intents

    crates/sbgh-intent/src/intent.rs: the answer of the language model, as data of
    its fixed schema, and its validation into the request that the connectors
    consume.  The main results say what a resolved intent guarantees: exactly the
    fields of its task, targets in normal form, positive counts, ordered ranges. *)
From stdpp Require Import base list strings.
From Stdlib Require Import ZArith Lia.
From S2P Require Import Prelude RustStr Json FleetModel FleetDb Workload.

Local Open Scope Z_scope.

Definition MAX_INVALID_REASON_CHARS : nat := 512.
Definition MAX_INVALID_ISSUES : nat := 7.
Definition MAX_INVALID_ISSUE_MESSAGE_CHARS : nat := 256.

(** ** The schema *)
Inductive ResolutionStatus := St_Resolved | St_Invalid.
Inductive CreationTaskKind := Create_Benchmark | Create_BlockValidation.
Inductive TargetKind := Tk_Block | Tk_BlockRange | Tk_Txids.
Inductive BlockSelectorKind := Bk_Height | Bk_Hash.
Inductive IntentIssueField :=
| If_Task | If_Target | If_Block | If_BlockRange | If_Txids | If_Repetitions | If_Warmup
| If_Rev | If_VariantRefs | If_Repository | If_ValidationSelection
| If_ValidationBlockCount | If_ValidationRange.
Inductive IntentIssueCode := Ic_Missing | Ic_Invalid | Ic_Ambiguous | Ic_Unsupported | Ic_NeedsContext.
Record IntentIssueJson := {
  ii_field : IntentIssueField;
  ii_code : IntentIssueCode;
  ii_message : rstr
}.
Record IntentBlockSelectorJson := {
  ib_kind : BlockSelectorKind;
  ib_height : option Z;
  ib_hash : option rstr
}.
Record IntentBlockRangeJson := { ibr_start : Z; ibr_end : Z }.
Inductive ValidationSelectionKind := Vk_Recent | Vk_Full | Vk_Range.
Record IntentResolutionJson := {
  in_status : ResolutionStatus;
  in_task_kind : option CreationTaskKind;
  in_target_kind : option TargetKind;
  in_block : option (list IntentBlockSelectorJson);
  in_block_range : option IntentBlockRangeJson;
  in_txids : option (list rstr);
  in_repetitions : option Z;
  in_warmup : option Z;
  in_rev : option rstr;
  in_variant_refs : option (list rstr);
  in_repository : option rstr;
  in_validation_selection : option ValidationSelectionKind;
  in_validation_block_count : option Z;
  in_validation_start : option Z;
  in_validation_end : option Z;
  in_reason : option rstr;
  in_issues : option (list IntentIssueJson)
}.

(** ** Intents *)
Record RequestedSource := { rq_repository : option rstr; rq_revision : option rstr }.
Inductive ValidationSelection :=
| Vs_Recent (block_count : option Z)
| Vs_Full
| Vs_Range (start end_ : Z).
Record BlockValidationIntent := {
  bi_source : RequestedSource;
  bi_selection : ValidationSelection
}.
Inductive TaskCreationIntent :=
| Ti_Benchmark (r : BenchmarkRequest)
| Ti_BlockValidation (i : BlockValidationIntent).
Record IntentInvalid := { iv_reason : rstr; iv_issues : list IntentIssueJson }.
(** [UserIntent] has one constructor. *)
Inductive IntentOutcome :=
| Io_Resolved (create : TaskCreationIntent)
| Io_Invalid (i : IntentInvalid).
Inductive IntentValidationError :=
| Ie_InvalidShape (message : rstr)
| Ie_InvalidValue (field value reason : rstr).

Definition issue_label (f : IntentIssueField) : rstr :=
  lit match f with
      | If_Task => "task"
      | If_Target => "target"
      | If_Block => "block"
      | If_BlockRange => "block range"
      | If_Txids => "txids"
      | If_Repetitions => "repetitions"
      | If_Warmup => "warmup"
      | If_Rev => "rev"
      | If_VariantRefs => "variant refs"
      | If_Repository => "repository"
      | If_ValidationSelection => "validation selection"
      | If_ValidationBlockCount => "validation block count"
      | If_ValidationRange => "validation range"
      end.
(** The loop of [user_message]; 10, 8226, 32 are a line feed, a bullet, a space. *)
Definition issue_line (i : IntentIssueJson) : rstr :=
  [10; 8226; 32] ++ issue_label (ii_field i) ++ lit ": " ++ trim (ii_message i).
Definition user_message (i : IntentInvalid) : rstr :=
  match iv_issues i with
  | [] => iv_reason i
  | issues => iv_reason i ++ concat (map issue_line issues)
  end.

(** ** Helpers *)
Definition required {A} (value : option A) (field : string) : result A IntentValidationError :=
  ok_or value (Ie_InvalidShape (lit field ++ lit " is required")).
Definition require_absent {A} (value : option A) (field : string)
  : result unit IntentValidationError :=
  match value with
  | Some _ => Err (Ie_InvalidShape (lit field ++ lit " must be null"))
  | None => Ok tt
  end.
Definition non_empty (value : option rstr) (field : string) : result rstr IntentValidationError :=
  let? value := required value field in
  if is_empty (trim value) then Err (Ie_InvalidShape (lit field ++ lit " must be non-empty"))
  else Ok (trim value).
Definition normalize_optional_text (value : option rstr) : option rstr :=
  v ← value; if is_empty (trim v) then None else Some (trim v).
Fixpoint collect_refs (values : list rstr) : result (list rstr) IntentValidationError :=
  match values with
  | [] => Ok []
  | v :: rest =>
      if is_empty (trim v)
      then Err (Ie_InvalidShape (lit "variant_refs entries must be non-empty"))
      else let? out := collect_refs rest in Ok (trim v :: out)
  end.
Definition normalize_variant_refs (value : option (list rstr))
  : result (option (list rstr)) IntentValidationError :=
  match value with
  | None => Ok None
  | Some values =>
      if (length values <? 2)%nat
      then Err (Ie_InvalidShape (lit "variant_refs needs at least two refs"))
      else let? variants := collect_refs values in Ok (Some variants)
  end.
Definition normalize_bounded_selector (value : option rstr) (field : string)
  : result (option rstr) IntentValidationError :=
  match value with
  | None => Ok None
  | Some value =>
      let value := trim value in
      if is_empty value
      then Err (Ie_InvalidValue (lit field) [] (lit "must be non-empty when provided"))
      else if (255 <? length value)%nat
      then Err (Ie_InvalidValue (lit field) (lit "<overlong>")
                  (lit "must be at most 255 characters"))
      else Ok (Some value)
  end.
(** 8230 is the ellipsis. *)
Definition truncate_chars (s : rstr) (limit : nat) : rstr :=
  if (length s <=? limit)%nat then s else take (limit - 1) s ++ [8230].
Fixpoint collect_issues (issues : list IntentIssueJson)
  : result (list IntentIssueJson) IntentValidationError :=
  match issues with
  | [] => Ok []
  | issue :: rest =>
      if is_empty (trim (ii_message issue))
      then Err (Ie_InvalidShape (lit "issue.message must be non-empty"))
      else
        let message := truncate_chars (trim (ii_message issue)) MAX_INVALID_ISSUE_MESSAGE_CHARS in
        let? out := collect_issues rest in
        Ok ({| ii_field := ii_field issue; ii_code := ii_code issue; ii_message := message |} :: out)
  end.
Definition validate_issues (issues : option (list IntentIssueJson))
  : result (list IntentIssueJson) IntentValidationError :=
  collect_issues (take MAX_INVALID_ISSUES (default [] issues)).
Definition strip_hex_prefix (raw : rstr) : rstr :=
  match strip_prefix (lit "0x") raw with
  | Some r => r
  | None => default raw (strip_prefix (lit "0X") raw)
  end.
Definition normalize_32_byte_hex (field : string) (value : rstr) (label : string)
  : result rstr IntentValidationError :=
  let hex := strip_hex_prefix (trim value) in
  if negb (str_len hex =? 64)
  then Err (Ie_InvalidValue (lit field) value (lit "expected a 64-character hex " ++ lit label))
  else if negb (all_bytes Char.is_ascii_hexdigit hex)
  then Err (Ie_InvalidValue (lit field) value (lit "expected hex digits"))
  else Ok (map Char.to_ascii_lowercase hex).
Definition validate_block_selector (s : IntentBlockSelectorJson)
  : result BlockSelector IntentValidationError :=
  match ib_kind s with
  | Bk_Height =>
      let? height := required (ib_height s) "block.height" in
      require_absent (ib_hash s) "block.hash" ;?
      Ok (Sel_Height height)
  | Bk_Hash =>
      require_absent (ib_height s) "block.height" ;?
      let? hash := required (ib_hash s) "block.hash" in
      let? hash := normalize_32_byte_hex "block.hash" hash "block hash" in
      Ok (Sel_Hash hash)
  end.

(** ** Validation *)
Definition isSome {A} (o : option A) : bool := match o with Some _ => true | None => false end.
Definition validate_invalid_intent (i : IntentResolutionJson)
  : result IntentOutcome IntentValidationError :=
  if isSome (in_task_kind i) || isSome (in_target_kind i) || isSome (in_block i)
     || isSome (in_block_range i) || isSome (in_txids i) || isSome (in_repetitions i)
     || isSome (in_warmup i) || isSome (in_rev i) || isSome (in_variant_refs i)
     || isSome (in_repository i) || isSome (in_validation_selection i)
     || isSome (in_validation_block_count i) || isSome (in_validation_start i)
     || isSome (in_validation_end i)
  then Err (Ie_InvalidShape (lit "invalid status must not carry target or run fields"))
  else
    let? reason := non_empty (in_reason i) "reason" in
    let reason := truncate_chars reason MAX_INVALID_REASON_CHARS in
    let? issues := validate_issues (in_issues i) in
    Ok (Io_Invalid {| iv_reason := reason; iv_issues := issues |}).

(** The target of a benchmark. *)
Definition validate_target (i : IntentResolutionJson) (k : TargetKind)
  : result WorkloadTarget IntentValidationError :=
  match k with
  | Tk_Block =>
      require_absent (in_block_range i) "block_range" ;?
      require_absent (in_txids i) "txids" ;?
      let? selectors := required (in_block i) "block" in
      match selectors with
      | [] => Err (Ie_InvalidShape (lit "block target needs at least one selector"))
      | _ =>
          let? blocks := collect (map validate_block_selector selectors) in
          Ok (Wt_Blocks blocks)
      end
  | Tk_BlockRange =>
      require_absent (in_block i) "block" ;?
      require_absent (in_txids i) "txids" ;?
      let? range := required (in_block_range i) "block_range" in
      if ibr_end range <? ibr_start range
      then Err (Ie_InvalidValue (lit "block_range")
                  (show (ibr_start range) ++ lit ".." ++ show (ibr_end range))
                  (lit "start must be <= end"))
      else Ok (Wt_BlockRange (ibr_start range) (ibr_end range))
  | Tk_Txids =>
      require_absent (in_block i) "block" ;?
      require_absent (in_block_range i) "block_range" ;?
      let? txids := required (in_txids i) "txids" in
      match txids with
      | [] => Err (Ie_InvalidShape (lit "txids target needs at least one txid"))
      | _ =>
          let? txids := collect (map (fun t => normalize_32_byte_hex "txids" t "txid") txids) in
          Ok (Wt_Txids txids)
      end
  end.
Definition validate_resolved_benchmark (i : IntentResolutionJson)
  : result IntentOutcome IntentValidationError :=
  require_absent (in_validation_selection i) "validation_selection" ;?
  require_absent (in_validation_block_count i) "validation_block_count" ;?
  require_absent (in_validation_start i) "validation_start" ;?
  require_absent (in_validation_end i) "validation_end" ;?
  let? target_kind :=
    ok_or (in_target_kind i) (Ie_InvalidShape (lit "resolved status needs target_kind")) in
  let? repetitions := required (in_repetitions i) "repetitions" in
  if repetitions =? 0
  then Err (Ie_InvalidValue (lit "repetitions") (show repetitions) (lit "must be at least 1"))
  else
    let? warmup := required (in_warmup i) "warmup" in
    let rev := normalize_optional_text (in_rev i) in
    let? repository := normalize_bounded_selector (in_repository i) "repository" in
    let? variant_refs := normalize_variant_refs (in_variant_refs i) in
    let? target := validate_target i target_kind in
    let workload :=
      {| wl_target := target; wl_clean_repetitions := repetitions; wl_warmup := Some warmup;
         wl_repository := repository; wl_rev := rev |} in
    match variant_refs with
    | Some variants =>
        match wl_rev workload with
        | Some _ =>
            Err (Ie_InvalidShape (lit "comparison requests must use variant_refs instead of rev"))
        | None =>
            Ok (Io_Resolved (Ti_Benchmark
              (Br_Comparison {| cr_workload := workload; cr_variants := variants |})))
        end
    | None => Ok (Io_Resolved (Ti_Benchmark (Br_Single workload)))
    end.
Definition validate_resolved_block_validation (i : IntentResolutionJson)
  : result IntentOutcome IntentValidationError :=
  require_absent (in_target_kind i) "target_kind" ;?
  require_absent (in_block i) "block" ;?
  require_absent (in_block_range i) "block_range" ;?
  require_absent (in_txids i) "txids" ;?
  require_absent (in_repetitions i) "repetitions" ;?
  require_absent (in_warmup i) "warmup" ;?
  require_absent (in_variant_refs i) "variant_refs" ;?
  let? repository := normalize_bounded_selector (in_repository i) "repository" in
  let? revision := normalize_bounded_selector (in_rev i) "rev" in
  let? kind := required (in_validation_selection i) "validation_selection" in
  let? selection :=
    match kind, in_validation_block_count i, in_validation_start i, in_validation_end i with
    | Vk_Recent, block_count, None, None =>
        if bool_decide (block_count = Some 0)
        then Err (Ie_InvalidValue (lit "validation_block_count") (lit "0")
                    (lit "must be at least 1"))
        else Ok (Vs_Recent block_count)
    | Vk_Full, None, None, None => Ok Vs_Full
    | Vk_Range, None, Some start, Some end_ =>
        if end_ <? start
        then Err (Ie_InvalidValue (lit "validation_range") (show start ++ lit ".." ++ show end_)
                    (lit "start must be <= end"))
        else Ok (Vs_Range start end_)
    | _, _, _, _ =>
        Err (Ie_InvalidShape
          (lit "validation selector fields do not match the selected recent/full/range mode"))
    end in
  Ok (Io_Resolved (Ti_BlockValidation
    {| bi_source := {| rq_repository := repository; rq_revision := revision |};
       bi_selection := selection |})).
Definition validate_resolved_intent (i : IntentResolutionJson)
  : result IntentOutcome IntentValidationError :=
  let? task_kind := required (in_task_kind i) "task_kind" in
  match task_kind with
  | Create_Benchmark => validate_resolved_benchmark i
  | Create_BlockValidation => validate_resolved_block_validation i
  end.
Definition validate_intent_resolution (i : IntentResolutionJson)
  : result IntentOutcome IntentValidationError :=
  match in_status i with
  | St_Invalid => validate_invalid_intent i
  | St_Resolved => validate_resolved_intent i
  end.

(** ** Trimmed strings *)
Section Trimmed.
Definition starts_tight (s : rstr) : Prop :=
  match s with [] => True | c :: _ => Char.is_whitespace c = false end.
Definition tight (s : rstr) : Prop := starts_tight s /\ starts_tight (rev s).

Lemma trim_start_tight s : starts_tight (trim_start_matches Char.is_whitespace s).
Proof.
  induction s as [|c s IH]; simpl; [done|].
  destruct (Char.is_whitespace c) eqn:E; [done | exact E].
Qed.
Lemma trim_start_id s : starts_tight s -> trim_start_matches Char.is_whitespace s = s.
Proof. destruct s as [|c s]; [done|]. simpl. by intros ->. Qed.
Lemma starts_tight_prefix s t : starts_tight (s ++ t) -> starts_tight s.
Proof. by destruct s. Qed.

Lemma trim_id s : tight s -> trim s = s.
Proof.
  intros [Hs Hr]. unfold trim, trim_end_matches.
  by rewrite (trim_start_id s), (trim_start_id (rev s)), rev_involutive.
Qed.
Lemma trim_tight s : tight (trim s).
Proof.
  unfold trim, trim_end_matches. set (t := trim_start_matches _ s).
  split; [|rewrite rev_involutive; apply trim_start_tight].
  destruct (trim_start_suffix Char.is_whitespace (rev t)) as [pre Hpre].
  apply (starts_tight_prefix _ (rev pre)). rewrite <- rev_app_distr, <- Hpre, rev_involutive.
  apply trim_start_tight.
Qed.
Lemma tight_ends c t : Char.is_whitespace c = false -> starts_tight t -> t <> [] -> tight (t ++ [c]).
Proof. intros Hc Ht Hne. split; [by destruct t|]. by rewrite rev_app_distr. Qed.
End Trimmed.

(** ** Well-formed outcomes *)
Definition text_ok (limit : option nat) (s : rstr) : Prop :=
  s <> [] /\ tight s /\ match limit with Some n => (length s <= n)%nat | None => True end.
Definition opt_ok {A} (P : A -> Prop) (o : option A) : Prop :=
  match o with Some x => P x | None => True end.
Definition lower_hex (c : Z) : Prop := Char.is_ascii_digit c || Char.between 97 102 c = true.
Definition hash_ok (s : rstr) : Prop := length s = 64%nat /\ Forall lower_hex s.
Definition block_ok (b : BlockSelector) : Prop :=
  match b with Sel_Height h => in_u64 h | Sel_Hash h => hash_ok h end.
Definition resolved_target_ok (t : WorkloadTarget) : Prop :=
  match t with
  | Wt_Txids txids => txids <> [] /\ Forall hash_ok txids
  | Wt_Blocks blocks => blocks <> [] /\ Forall block_ok blocks
  | Wt_BlockRange start end_ => in_u64 start /\ in_u64 end_ /\ start <= end_
  end.
Definition workload_ok (w : WorkloadSpec) : Prop :=
  resolved_target_ok (wl_target w)
  /\ (in_u32 (wl_clean_repetitions w) /\ 1 <= wl_clean_repetitions w)
  /\ (exists n, wl_warmup w = Some n /\ in_u32 n)
  /\ opt_ok (text_ok (Some 255%nat)) (wl_repository w) /\ opt_ok (text_ok None) (wl_rev w).
Definition creation_ok (c : TaskCreationIntent) : Prop :=
  match c with
  | Ti_Benchmark (Br_Single w) => workload_ok w
  | Ti_Benchmark (Br_Comparison r) =>
      workload_ok (cr_workload r) /\ wl_rev (cr_workload r) = None
      /\ (2 <= length (cr_variants r))%nat /\ Forall (text_ok None) (cr_variants r)
  | Ti_BlockValidation i =>
      opt_ok (text_ok (Some 255%nat)) (rq_repository (bi_source i))
      /\ opt_ok (text_ok (Some 255%nat)) (rq_revision (bi_source i))
      /\ match bi_selection i with
         | Vs_Recent n => opt_ok (fun n => in_u64 n /\ 1 <= n) n
         | Vs_Full => True
         | Vs_Range s e => in_u64 s /\ in_u64 e /\ s <= e
         end
  end.
Definition outcome_ok (o : IntentOutcome) : Prop :=
  match o with
  | Io_Resolved c => creation_ok c
  | Io_Invalid i =>
      text_ok (Some MAX_INVALID_REASON_CHARS) (iv_reason i)
      /\ (length (iv_issues i) <= MAX_INVALID_ISSUES)%nat
      /\ Forall (fun x => text_ok (Some MAX_INVALID_ISSUE_MESSAGE_CHARS) (ii_message x)) (iv_issues i)
  end.

(** The widths of the schema's numbers. *)
Definition json_typed (i : IntentResolutionJson) : Prop :=
  opt_ok (Forall (fun b => opt_ok in_u64 (ib_height b))) (in_block i)
  /\ opt_ok (fun r => in_u64 (ibr_start r) /\ in_u64 (ibr_end r)) (in_block_range i)
  /\ opt_ok in_u32 (in_repetitions i) /\ opt_ok in_u32 (in_warmup i)
  /\ opt_ok in_u64 (in_validation_block_count i)
  /\ opt_ok in_u64 (in_validation_start i) /\ opt_ok in_u64 (in_validation_end i).

(** ** What the helpers return *)
Section Helpers.
#[local] Arguments lit _ : simpl never.

Lemma trimmed_ok v : is_empty (trim v) = false -> text_ok None (trim v).
Proof. intros He. split; [by destruct (trim v)|]. split; [apply trim_tight | done]. Qed.
Lemma text_not_empty n s : text_ok n s -> is_empty s = false /\ trim s = s.
Proof. intros (Hne & Ht & _). split; [by destruct s | by apply trim_id]. Qed.

Lemma optional_text v : opt_ok (text_ok None) (normalize_optional_text v).
Proof.
  destruct v as [v|]; simpl; [|done]. destruct (is_empty (trim v)) eqn:E; simpl; [done|].
  by apply trimmed_ok.
Qed.
Lemma optional_text_id v : opt_ok (text_ok None) v -> normalize_optional_text v = v.
Proof. destruct v as [v|]; [|done]. simpl. intros Hv. destruct (text_not_empty _ _ Hv) as [He Ht].
  simpl. by rewrite Ht, He. Qed.

Lemma bounded_selector v field r :
  normalize_bounded_selector v field = Ok r -> opt_ok (text_ok (Some 255%nat)) r.
Proof.
  destruct v as [v|]; simpl; [|intros [= <-]; done].
  destruct (is_empty (trim v)) eqn:He; [done|]. destruct (_ <? _)%nat eqn:Hl; [done|].
  intros [= <-]. apply Nat.ltb_ge in Hl. destruct (trimmed_ok _ He) as (? & ? & _). done.
Qed.
Lemma bounded_selector_id v field :
  opt_ok (text_ok (Some 255%nat)) v -> normalize_bounded_selector v field = Ok v.
Proof.
  destruct v as [v|]; [|done]. simpl. intros Hv. destruct (text_not_empty _ _ Hv) as [He Ht].
  destruct Hv as (_ & _ & Hl). unfold normalize_bounded_selector. rewrite Ht, He.
  by rewrite (proj2 (Nat.ltb_ge 255 (length v)) Hl).
Qed.

Lemma collect_refs_ok vs : forall out,
  collect_refs vs = Ok out -> length out = length vs /\ Forall (text_ok None) out.
Proof.
  induction vs as [|v vs IH]; intros out; cbn [collect_refs]; [by intros [= <-]|].
  destruct (is_empty (trim v)) eqn:He; [done|].
  destruct (collect_refs vs) as [o|e]; [|done]. intros [= <-].
  destruct (IH _ eq_refl) as [Hl Ho]. simpl. split; [lia|]. constructor; [by apply trimmed_ok | done].
Qed.
Lemma collect_refs_id vs : Forall (text_ok None) vs -> collect_refs vs = Ok vs.
Proof.
  induction 1 as [|v vs Hv _ IH]; [done|]. destruct (text_not_empty _ _ Hv) as [He Ht].
  cbn [collect_refs]. by rewrite Ht, He, IH.
Qed.

Lemma truncate_ok s n : (1 < n)%nat -> text_ok None s -> text_ok (Some n) (truncate_chars s n).
Proof.
  intros Hn (Hne & Ht & _). unfold truncate_chars.
  destruct (_ <=? _)%nat eqn:E; [apply Nat.leb_le in E; done|]. apply Nat.leb_gt in E.
  assert (Htake : take (n - 1) s <> []).
  { intros H0. apply (f_equal length) in H0. rewrite length_take in H0. simpl in H0. lia. }
  split_and!.
  - by destruct (take (n - 1) s).
  - apply tight_ends; [done | | done].
    apply (starts_tight_prefix _ (drop (n - 1) s)). rewrite take_drop. apply Ht.
  - rewrite length_app, length_take. simpl. lia.
Qed.
Lemma truncate_id s n : (length s <= n)%nat -> truncate_chars s n = s.
Proof. intros Hl. unfold truncate_chars. by rewrite (proj2 (Nat.leb_le _ _) Hl). Qed.

Lemma collect_issues_ok l : forall out,
  collect_issues l = Ok out ->
  length out = length l
  /\ Forall (fun x => text_ok (Some MAX_INVALID_ISSUE_MESSAGE_CHARS) (ii_message x)) out.
Proof.
  induction l as [|i l IH]; intros out; cbn [collect_issues]; [by intros [= <-]|].
  destruct (is_empty (trim _)) eqn:He; [done|].
  destruct (collect_issues l) as [o|e]; [|done]. intros [= <-].
  destruct (IH _ eq_refl) as [Hl Ho]. cbn [length]. split; [lia|]. constructor; [|done].
  cbn [ii_message]. apply truncate_ok; [unfold MAX_INVALID_ISSUE_MESSAGE_CHARS; lia|].
  by apply trimmed_ok.
Qed.
Lemma collect_issues_id l :
  Forall (fun x => text_ok (Some MAX_INVALID_ISSUE_MESSAGE_CHARS) (ii_message x)) l ->
  collect_issues l = Ok l.
Proof.
  induction 1 as [|i l Hi _ IH]; [done|]. destruct (text_not_empty _ _ Hi) as [He Ht].
  destruct Hi as (_ & _ & Hl). cbn [collect_issues]. rewrite Ht, He, IH.
  rewrite truncate_id by done. by destruct i.
Qed.

Lemma non_empty_ok v field r : non_empty v field = Ok r -> text_ok None r.
Proof.
  unfold non_empty, required. destruct v as [v|]; simpl; [|done].
  destruct (is_empty (trim v)) eqn:He; [done|]. intros [= <-]. by apply trimmed_ok.
Qed.
Lemma non_empty_id v field n : text_ok n v -> non_empty (Some v) field = Ok v.
Proof. intros Hv. destruct (text_not_empty _ _ Hv) as [He Ht]. unfold non_empty. simpl. by rewrite Ht, He. Qed.

Lemma require_absent_Ok {A} (v : option A) field u :
  require_absent v field = Ok u -> v = None.
Proof. by destruct v. Qed.
End Helpers.

Section Hashes.
#[local] Arguments lit _ : simpl never.

Ltac char_cases :=
  unfold Char.is_ascii_hexdigit, Char.is_ascii_digit, Char.to_ascii_lowercase,
    Char.is_ascii_uppercase, Char.between in *.

Lemma hexdigit_ascii b : Char.is_ascii_hexdigit b = true -> 0 <= b < 0x80.
Proof. char_cases. lia. Qed.
Lemma lower_hexdigit c : lower_hex c -> Char.is_ascii_hexdigit c = true /\ Char.to_ascii_lowercase c = c.
Proof. unfold lower_hex. char_cases. intros Hc. split; [lia|].
  destruct ((65 <=? c) && (c <=? 90)) eqn:E; lia. Qed.
Lemma to_lower_hex c : Char.is_ascii_hexdigit c = true -> lower_hex (Char.to_ascii_lowercase c).
Proof. unfold lower_hex. char_cases. intros Hc. destruct ((65 <=? c) && (c <=? 90)) eqn:E; lia. Qed.
Lemma lower_hex_not c d : lower_hex c -> (d = 88 \/ d = 120 \/ d = 45) -> c <> d.
Proof. unfold lower_hex. char_cases. lia. Qed.
Lemma lower_hex_tight c : lower_hex c -> Char.is_whitespace c = false.
Proof.
  unfold lower_hex, Char.is_whitespace. char_cases. intros Hc.
  repeat match goal with |- context [?a =? ?b] => destruct (Z.eqb_spec a b); try lia end; lia.
Qed.

Lemma ascii_length s : Forall (fun c => Char.is_ascii_hexdigit c = true) s ->
  str_len s = Z.of_nat (length s).
Proof.
  induction 1 as [|c s Hc _ IH]; [done|]. rewrite str_len_cons, IH, length_cons.
  apply hexdigit_ascii in Hc. unfold Char.len_utf8.
  rewrite (proj2 (Z.ltb_lt c 0x80)) by lia. lia.
Qed.

Lemma normalized_hash field v label h : normalize_32_byte_hex field v label = Ok h -> hash_ok h.
Proof.
  unfold normalize_32_byte_hex. set (hex := strip_hex_prefix (trim v)).
  destruct (str_len hex =? 64) eqn:El; [|done].
  destruct (all_bytes _ hex) eqn:Ea; [|done]. intros [= <-].
  apply (all_bytes_ascii _ _ hexdigit_ascii) in Ea. apply Z.eqb_eq in El.
  rewrite ascii_length in El by done. split; [rewrite length_map; lia|].
  apply Forall_map. eapply Forall_impl; [exact Ea|]. intros c Hc. by apply to_lower_hex.
Qed.

Lemma hash_tight h : Forall lower_hex h -> tight h.
Proof.
  assert (Hs : forall s, Forall lower_hex s -> starts_tight s).
  { intros [|c s] Hs; [done|]. inversion Hs; subst. by apply lower_hex_tight. }
  intros Hh. split; apply Hs; [done | by apply Forall_rev].
Qed.
Lemma hash_no_prefix h x : (x = 88 \/ x = 120) -> Forall lower_hex h -> strip_prefix [48; x] h = None.
Proof.
  intros Hx Hh. destruct h as [|c [|d h]]; [done | cbn [strip_prefix]; by destruct (48 =? c) |].
  cbn [strip_prefix]. destruct (48 =? c); [|done].
  inversion Hh as [|? ? _ Hh']; subst. inversion Hh' as [|? ? Hd _]; subst.
  rewrite (proj2 (Z.eqb_neq x d)); [done|].
  intros ->. apply (lower_hex_not d d Hd); [naive_solver | done].
Qed.
Lemma hash_normal field h label : hash_ok h -> normalize_32_byte_hex field h label = Ok h.
Proof.
  intros [Hl Hh]. unfold normalize_32_byte_hex, strip_hex_prefix.
  rewrite (trim_id h) by (by apply hash_tight).
  change (lit "0x") with [48; 120]. change (lit "0X") with [48; 88].
  rewrite !hash_no_prefix by (tauto || done). cbn [default].
  assert (Hd : Forall (fun c => Char.is_ascii_hexdigit c = true) h)
    by (eapply Forall_impl; [exact Hh|]; intros c Hc; by apply lower_hexdigit).
  change (default h None) with h.
  rewrite ascii_length, Hl by done. change (Z.of_nat 64 =? 64) with true.
  rewrite (proj2 (all_bytes_ascii _ h hexdigit_ascii) Hd). cbn [negb].
  f_equal. rewrite <- (map_id h) at 2. apply map_ext_Forall.
  eapply Forall_impl; [exact Hh|]. intros c Hc. by apply lower_hexdigit.
Qed.

Lemma collect_hashes field label l r :
  collect (map (fun t => normalize_32_byte_hex field t label) l) = Ok r ->
  length r = length l /\ Forall hash_ok r.
Proof.
  rewrite collect_Ok. intros Hall. apply Forall2_fmap_l in Hall.
  split; [symmetry; by eapply Forall2_length|].
  eapply Forall2_Forall_r; [exact Hall|]. apply Forall_forall. intros t _ h.
  apply normalized_hash.
Qed.
Lemma collect_map_id {A E} (f : A -> result A E) l :
  Forall (fun x => f x = Ok x) l -> collect (map f l) = Ok l.
Proof. induction 1 as [|x l Hx _ IH]; [done|]. simpl. by rewrite Hx, IH. Qed.

Lemma block_selector s b :
  opt_ok in_u64 (ib_height s) -> validate_block_selector s = Ok b -> block_ok b.
Proof.
  intros Ht. unfold validate_block_selector. destruct s as [[] h x]; simpl in *.
  - destruct h as [h|]; [|done]. destruct x; [done|]. simpl. by intros [= <-].
  - destruct h; [done|]. destruct x as [x|]; [|done]. simpl.
    destruct (normalize_32_byte_hex _ x _) eqn:E; [|done]. intros [= <-]. by eapply normalized_hash.
Qed.
(** The schema's form of a selector. *)
Definition selector_json (b : BlockSelector) : IntentBlockSelectorJson :=
  match b with
  | Sel_Height h => {| ib_kind := Bk_Height; ib_height := Some h; ib_hash := None |}
  | Sel_Hash h => {| ib_kind := Bk_Hash; ib_height := None; ib_hash := Some h |}
  end.
Lemma selector_json_read b : block_ok b -> validate_block_selector (selector_json b) = Ok b.
Proof. destruct b as [h|h]; intros Hb; [done|]. unfold validate_block_selector. simpl. by rewrite hash_normal. Qed.
End Hashes.

(** ** Validation is exact *)
Section Exact.
#[local] Arguments lit _ : simpl never.

Lemma target_sound i k t :
  json_typed i -> validate_target i k = Ok t -> resolved_target_ok t.
Proof.
  intros (Hb & Hr & _). destruct k; unfold validate_target; intros Hv.
  - destruct (in_block_range i), (in_txids i), (in_block i) as [[|s0 l0]|]; try discriminate Hv.
    cbn [require_absent required ok_or] in Hv.
    destruct (collect _) as [blocks|] eqn:E; [|discriminate Hv]. injection Hv as <-.
    apply collect_Ok, Forall2_fmap_l in E. split; [by inversion E|].
    simpl in Hb. eapply Forall2_Forall_r; [exact E|].
    eapply Forall_impl; [exact Hb|]. intros x Hx y. by apply block_selector.
  - destruct (in_block i), (in_txids i), (in_block_range i) as [r|]; try discriminate Hv.
    cbn [require_absent required ok_or] in Hv.
    destruct (_ <? _) eqn:E; [discriminate Hv|]. injection Hv as <-.
    apply Z.ltb_ge in E. simpl in *. tauto.
  - destruct (in_block i), (in_block_range i), (in_txids i) as [[|s0 l0]|]; try discriminate Hv.
    cbn [require_absent required ok_or] in Hv.
    destruct (collect _) as [txids|] eqn:E; [|discriminate Hv]. injection Hv as <-.
    apply collect_hashes in E as [Hl Hh]. split; [by destruct txids | done].
Qed.

Lemma variant_refs_sound v r :
  normalize_variant_refs v = Ok (Some r) -> (2 <= length r)%nat /\ Forall (text_ok None) r.
Proof.
  destruct v as [v|]; [|done]. unfold normalize_variant_refs.
  destruct (_ <? 2)%nat eqn:E; [done|]. apply Nat.ltb_ge in E.
  destruct (collect_refs v) as [o|] eqn:Ec; [|done]. intros [= <-].
  apply collect_refs_ok in Ec as [Hl Ho]. split; [lia | done].
Qed.

Lemma benchmark_sound i o :
  json_typed i -> validate_resolved_benchmark i = Ok o -> outcome_ok o.
Proof.
  intros Ht. pose proof (optional_text (in_rev i)) as Hrev. unfold validate_resolved_benchmark.
  destruct (in_validation_selection i), (in_validation_block_count i), (in_validation_start i),
    (in_validation_end i), (in_target_kind i) as [k|], (in_repetitions i) as [n|] eqn:En;
    try discriminate 1.
  cbn [require_absent required ok_or]. destruct (n =? 0) eqn:E0; [discriminate 1|].
  destruct (in_warmup i) as [w|] eqn:Ew; [|discriminate 1]. cbn [ok_or].
  destruct (normalize_bounded_selector _ _) as [repo|] eqn:Er; [|discriminate 1].
  destruct (normalize_variant_refs _) as [refs|] eqn:Ev; [|discriminate 1].
  destruct (validate_target i k) as [t|] eqn:Et; [|discriminate 1].
  apply bounded_selector in Er. apply (target_sound _ _ _ Ht) in Et.
  destruct Ht as (_ & _ & Hn & Hw & _). rewrite En in Hn. rewrite Ew in Hw. simpl in Hn, Hw.
  apply Z.eqb_neq in E0.
  assert (Hok : forall r, opt_ok (text_ok None) r -> workload_ok
    {| wl_target := t; wl_clean_repetitions := n; wl_warmup := Some w;
       wl_repository := repo; wl_rev := r |}).
  { intros r Hr. unfold workload_ok, in_u32 in *. simpl. split_and!; eauto; lia. }
  destruct refs as [refs|]; cbn [wl_rev].
  - destruct (normalize_optional_text _) eqn:Eo; [discriminate 1|]. intros [= <-].
    apply variant_refs_sound in Ev. simpl. split_and!; [by apply Hok | done | tauto | tauto].
  - intros [= <-]. by apply Hok.
Qed.

Lemma block_validation_sound i o :
  json_typed i -> validate_resolved_block_validation i = Ok o -> outcome_ok o.
Proof.
  intros (_ & _ & _ & _ & Hc & Hs & He). unfold validate_resolved_block_validation.
  destruct (in_target_kind i), (in_block i), (in_block_range i), (in_txids i),
    (in_repetitions i), (in_warmup i), (in_variant_refs i); try discriminate 1.
  cbn [require_absent].
  destruct (normalize_bounded_selector (in_repository i) _) as [repo|] eqn:Er; [|discriminate 1].
  destruct (normalize_bounded_selector (in_rev i) _) as [rev|] eqn:Ev; [|discriminate 1].
  destruct (in_validation_selection i) as [k|]; [|discriminate 1]. cbn [required ok_or].
  apply bounded_selector in Er, Ev.
  match goal with |- context [let? selection := ?c in _] => destruct c as [sel|] eqn:E end;
    [|discriminate 1].
  intros [= <-]. simpl. split_and!; [done | done|].
  destruct k, (in_validation_block_count i) as [n|], (in_validation_start i) as [s|],
    (in_validation_end i) as [e|]; simpl in Hc, Hs, He; try discriminate E;
    [| |by injection E as <-|].
  - destruct (bool_decide _) eqn:En; [discriminate E|]. injection E as <-. bool_hyps. simpl.
    assert (n <> 0) by congruence. unfold_bounds. lia.
  - by injection E as <-.
  - destruct (e <? s) eqn:En; [discriminate E|]. injection E as <-. apply Z.ltb_ge in En. done.
Qed.

Lemma invalid_sound i o : validate_invalid_intent i = Ok o -> outcome_ok o.
Proof.
  unfold validate_invalid_intent. case_match; [done|].
  destruct (non_empty _ _) as [reason|] eqn:En; [|done]. cbn zeta.
  destruct (validate_issues _) as [issues|] eqn:Ei; [|done]. intros [= <-].
  unfold validate_issues in Ei. apply collect_issues_ok in Ei as [Hl Hi]. simpl. split_and!.
  - apply truncate_ok; [unfold MAX_INVALID_REASON_CHARS; lia|]. by eapply non_empty_ok.
  - rewrite Hl, length_take. lia.
  - done.
Qed.

(** The schema's form of an outcome. *)
Definition target_kind_of (t : WorkloadTarget) : TargetKind :=
  match t with Wt_Txids _ => Tk_Txids | Wt_Blocks _ => Tk_Block | Wt_BlockRange _ _ => Tk_BlockRange end.
Definition workload_json (w : WorkloadSpec) (variants : option (list rstr)) : IntentResolutionJson :=
  {| in_status := St_Resolved; in_task_kind := Some Create_Benchmark;
     in_target_kind := Some (target_kind_of (wl_target w));
     in_block := match wl_target w with Wt_Blocks l => Some (map selector_json l) | _ => None end;
     in_block_range :=
       match wl_target w with
       | Wt_BlockRange s e => Some {| ibr_start := s; ibr_end := e |}
       | _ => None
       end;
     in_txids := match wl_target w with Wt_Txids l => Some l | _ => None end;
     in_repetitions := Some (wl_clean_repetitions w); in_warmup := wl_warmup w;
     in_rev := wl_rev w; in_variant_refs := variants; in_repository := wl_repository w;
     in_validation_selection := None; in_validation_block_count := None;
     in_validation_start := None; in_validation_end := None; in_reason := None;
     in_issues := None |}.
Definition validation_json (i : BlockValidationIntent) : IntentResolutionJson :=
  {| in_status := St_Resolved; in_task_kind := Some Create_BlockValidation;
     in_target_kind := None; in_block := None; in_block_range := None; in_txids := None;
     in_repetitions := None; in_warmup := None; in_rev := rq_revision (bi_source i);
     in_variant_refs := None; in_repository := rq_repository (bi_source i);
     in_validation_selection :=
       Some (match bi_selection i with
             | Vs_Recent _ => Vk_Recent | Vs_Full => Vk_Full | Vs_Range _ _ => Vk_Range end);
     in_validation_block_count := match bi_selection i with Vs_Recent n => n | _ => None end;
     in_validation_start := match bi_selection i with Vs_Range s _ => Some s | _ => None end;
     in_validation_end := match bi_selection i with Vs_Range _ e => Some e | _ => None end;
     in_reason := None; in_issues := None |}.
Definition invalid_json (i : IntentInvalid) : IntentResolutionJson :=
  {| in_status := St_Invalid; in_task_kind := None; in_target_kind := None; in_block := None;
     in_block_range := None; in_txids := None; in_repetitions := None; in_warmup := None;
     in_rev := None; in_variant_refs := None; in_repository := None;
     in_validation_selection := None; in_validation_block_count := None;
     in_validation_start := None; in_validation_end := None;
     in_reason := Some (iv_reason i); in_issues := Some (iv_issues i) |}.
Definition outcome_json (o : IntentOutcome) : IntentResolutionJson :=
  match o with
  | Io_Resolved (Ti_Benchmark (Br_Single w)) => workload_json w None
  | Io_Resolved (Ti_Benchmark (Br_Comparison r)) => workload_json (cr_workload r) (Some (cr_variants r))
  | Io_Resolved (Ti_BlockValidation i) => validation_json i
  | Io_Invalid i => invalid_json i
  end.

Lemma target_complete w v :
  resolved_target_ok (wl_target w) ->
  validate_target (workload_json w v) (target_kind_of (wl_target w)) = Ok (wl_target w).
Proof.
  unfold validate_target, workload_json.
  destruct (wl_target w) as [txids|blocks|s e]; cbn; intros Hok.
  - destruct Hok as [Hne Hh]. rewrite collect_map_id; [by destruct txids|].
    eapply Forall_impl; [exact Hh|]. intros h. apply hash_normal.
  - destruct Hok as [Hne Hb].
    assert (collect (map validate_block_selector (map selector_json blocks)) = Ok blocks) as Hc.
    { rewrite map_map. apply collect_map_id. eapply Forall_impl; [exact Hb|].
      apply selector_json_read. }
    rewrite Hc. by destruct blocks.
  - destruct Hok as (_ & _ & Hle). by rewrite (proj2 (Z.ltb_ge e s)).
Qed.
Lemma workload_typed w v : workload_ok w -> json_typed (workload_json w v).
Proof.
  intros (Ht & (Hn & _) & (k & Hw & Hk) & _). unfold json_typed, workload_json. simpl.
  rewrite Hw. destruct (wl_target w) as [txids|blocks|s e]; simpl in *; split_and!; try done; try tauto.
  apply Forall_map. destruct Ht as [_ Hb]. eapply Forall_impl; [exact Hb|]. by intros [].
Qed.
Lemma workload_complete w v :
  workload_ok w ->
  match v with
  | Some refs => wl_rev w = None /\ (2 <= length refs)%nat /\ Forall (text_ok None) refs
  | None => True
  end ->
  validate_intent_resolution (workload_json w v)
  = Ok (Io_Resolved (Ti_Benchmark
      match v with
      | Some refs => Br_Comparison {| cr_workload := w; cr_variants := refs |}
      | None => Br_Single w
      end)).
Proof.
  intros (Ht & (Hn & Hn1) & (k & Hw & Hk) & Hrepo & Hrev) Hv.
  unfold validate_intent_resolution. cbn [in_status workload_json].
  unfold validate_resolved_intent, validate_resolved_benchmark.
  cbn [in_task_kind in_validation_selection in_validation_block_count in_validation_start
       in_validation_end in_target_kind in_repetitions in_warmup in_rev in_repository
       in_variant_refs workload_json required ok_or require_absent].
  rewrite (proj2 (Z.eqb_neq _ 0)) by lia. rewrite Hw. cbn [ok_or].
  rewrite bounded_selector_id, optional_text_id by done.
  assert (normalize_variant_refs v = Ok v) as ->.
  { destruct v as [refs|]; [|done]. unfold normalize_variant_refs.
    rewrite (proj2 (Nat.ltb_ge _ 2)) by tauto. by rewrite collect_refs_id by tauto. }
  fold (workload_json w v). rewrite target_complete by done.
  destruct w as [t n wu repo rev]; simpl in *; subst wu.
  destruct v as [refs|]; [|done]. by destruct Hv as [-> _].
Qed.
Lemma validation_complete i :
  creation_ok (Ti_BlockValidation i) ->
  json_typed (validation_json i)
  /\ validate_intent_resolution (validation_json i) = Ok (Io_Resolved (Ti_BlockValidation i)).
Proof.
  intros (Hrepo & Hrev & Hs). destruct i as [[repo rev] sel]. simpl in Hrepo, Hrev, Hs. split.
  { unfold json_typed, validation_json. simpl.
    destruct sel as [[n|]| |s e]; simpl in *; tauto. }
  unfold validate_intent_resolution. cbn [in_status validation_json].
  unfold validate_resolved_intent, validate_resolved_block_validation.
  cbn [in_task_kind in_target_kind in_block in_block_range in_txids in_repetitions in_warmup
       in_variant_refs in_repository in_rev validation_json required ok_or require_absent
       bi_source rq_repository rq_revision].
  rewrite !bounded_selector_id by done.
  cbn [in_validation_selection in_validation_block_count in_validation_start in_validation_end
       validation_json bi_selection ok_or].
  destruct sel as [n| |s e]; [|done|].
  - rewrite bool_decide_eq_false_2; [done|]. intros ->. simpl in Hs. lia.
  - by rewrite (proj2 (Z.ltb_ge e s)) by tauto.
Qed.
Lemma invalid_complete i :
  outcome_ok (Io_Invalid i) ->
  json_typed (invalid_json i) /\ validate_intent_resolution (invalid_json i) = Ok (Io_Invalid i).
Proof.
  intros (Hr & Hl & Hi). split; [done|].
  unfold validate_intent_resolution. cbn [in_status invalid_json].
  unfold validate_invalid_intent, invalid_json. cbn -[non_empty validate_issues truncate_chars].
  rewrite (non_empty_id _ _ _ Hr). destruct Hr as (_ & _ & Hlen).
  rewrite truncate_id by done. unfold validate_issues. cbn [default].
  change (default [] (Some (iv_issues i))) with (iv_issues i).
  rewrite take_ge by done. rewrite collect_issues_id by done. by destruct i.
Qed.

Lemma validation_sound i o : json_typed i -> validate_intent_resolution i = Ok o -> outcome_ok o.
Proof.
  intros Ht. unfold validate_intent_resolution, validate_resolved_intent.
  destruct (in_status i); [|apply invalid_sound].
  destruct (in_task_kind i) as [[]|]; [| |discriminate 1]; cbn [required ok_or].
  - by apply benchmark_sound.
  - by apply block_validation_sound.
Qed.

(** C36: Validation of the language model's answer is exact: the outcomes it produces
    from answers of the schema are the well-formed ones, all of them.  A resolved
    benchmark names at least one target, transactions and blocks are 64 lower-case
    hexadecimal digits, ranges are ordered, repetitions are positive, warm-up is
    always decided, and the references of a comparison are at least two trimmed
    non-empty strings used in place of a single revision; a resolved validation has a
    positive count or an ordered range; a refusal has a bounded reason and at most
    seven bounded issues. *)
Theorem intent_validation_exact o :
  outcome_ok o <-> exists i, json_typed i /\ validate_intent_resolution i = Ok o.
Proof.
  split.
  - intros Ho. exists (outcome_json o).
    destruct o as [[[w|[w refs]]|i]|i]; cbn [outcome_json cr_workload cr_variants].
    + split; [by apply workload_typed | by apply (workload_complete w None)].
    + destruct Ho as (Hw & Hrest).
      split; [by apply workload_typed | by apply (workload_complete w (Some refs))].
    + by apply validation_complete.
    + by apply invalid_complete.
  - intros (i & Ht & Hv). by eapply validation_sound.
Qed.
End Exact.
