(* ===== verification/Submission.v ===== *)
(** * Submissions

    crates/sbgh-core/src/submission.rs and the application boundary of
    crates/sbgh-daemon/src/submission.rs: the plans that a producer hands over, their
    validation against the recorded provenance, and the digest that identifies the
    demand; with the policy of crates/sbgh-daemon/src/block_validation_submission.rs.
    The main results are that an accepted command is well formed, that the digest
    is a function of the demand alone, and what the validation policy admits. *)
From stdpp Require Import base list strings.
From Stdlib Require Import ZArith Lia.
From S2P Require Import Prelude RustStr Json JsonText FleetModel Negotiation Validate FleetDb Workload Intent.

Local Open Scope Z_scope.

Definition SUBMISSION_CONTRACT_VERSION : Z := 1.

(** ** Commands *)
Record ProducerKey := { pk_namespace : rstr; pk_key : rstr }.
Inductive SubmissionActor :=
| Actor_System
| Actor_GithubUser (user_id : Z)
| Actor_SlackUser (team_id user_id : rstr).
Record SchedulingConstraints := {
  cs_required_worker_id : option Uuid;
  cs_required_measurement_profile : option rstr
}.
Definition SchedulingConstraints_default : SchedulingConstraints :=
  {| cs_required_worker_id := None; cs_required_measurement_profile := None |}.
Record ResolvedTaskSource := {
  rts_github_installation_id : Z;
  rts_github_repo_id : Z;
  rts_source : JobSource;
  rts_intent : JobIntent;
  rts_task_kind : TaskKind;
  rts_build_target : BuildTarget;
  rts_git_ref_kind : GitRefKind;
  rts_git_ref_display : rstr;
  rts_commit : rstr;
  rts_committed_at : option Z;
  rts_workload_key : option rstr
}.
Record BenchmarkVariant := {
  bvr_source : ResolvedTaskSource;
  bvr_requested_run_count : Z;
  bvr_baseline_calibration_id : option Z
}.
Record BenchmarkPlan := { bpl_variants : list BenchmarkVariant; bpl_effective_args : list rstr }.
Record BlockValidationPlan := { bvp_source : ResolvedTaskSource; bvp_payload : BlockValidationPayload }.
(** [BuildOnlyPlan] has only its source. *)
Inductive TaskPlan :=
| Plan_Benchmark (plan : BenchmarkPlan)
| Plan_BuildOnly (source : ResolvedTaskSource)
| Plan_BlockValidation (plan : BlockValidationPlan).
Definition plan_required_capability (t : TaskPlan) : WorkerCapability :=
  match t with
  | Plan_Benchmark _ => required_capability Kind_Benchmark
  | Plan_BuildOnly _ => required_capability Kind_BuildOnly
  | Plan_BlockValidation _ => required_capability Kind_BlockValidation
  end.
Definition first_source (t : TaskPlan) : option ResolvedTaskSource :=
  match t with
  | Plan_Benchmark plan => bvr_source <$> head (bpl_variants plan)
  | Plan_BuildOnly source => Some source
  | Plan_BlockValidation plan => Some (bvp_source plan)
  end.
Record GithubSubmissionProvenance := {
  gp_webhook_id : Z;
  gp_triggering_user_id : option Z;
  gp_pull_request_id : option Z;
  gp_triggering_comment_id : option Z
}.
Record SlackSubmissionProvenance := {
  slp_team_id : rstr;
  slp_channel_id : rstr;
  slp_request_message_ts : rstr;
  slp_reporting_identity : rstr;
  slp_report_message_ts : option rstr
}.
Record SubmissionProvenance := {
  pv_queued_event_detail : Value;
  pv_github : option GithubSubmissionProvenance;
  pv_slack : option SlackSubmissionProvenance
}.
Record SubmissionCommand := {
  cmd_actor : SubmissionActor;
  cmd_producer_key : ProducerKey;
  cmd_constraints : SchedulingConstraints;
  cmd_task : TaskPlan;
  cmd_provenance : SubmissionProvenance
}.
Record PreparedSubmission := {
  ps_command : SubmissionCommand;
  ps_contract_version : Z;
  ps_request_digest : rstr
}.
Inductive SubmissionDisposition := Disp_Created | Disp_AlreadySubmitted.
Record SubmissionReceipt := {
  sbr_submission_id : Uuid;
  sbr_disposition : SubmissionDisposition;
  sbr_initial_job_ids : list Uuid
}.
Inductive SubmissionError :=
| Sub_Invalid (message : rstr)
| Sub_Conflict (namespace key : rstr)
| Sub_Persistence (message : rstr).

(** ** Validation *)
Definition sub_invalid (message : string) : SubmissionError := Sub_Invalid (lit message).
Definition valid_key (value : rstr) (max : Z) : bool :=
  negb (is_empty (trim value)) && (str_len value <=? max) && negb (any_char Char.is_control value).
Definition validate_source (s : ResolvedTaskSource) : result unit SubmissionError :=
  ensure (negb ((rts_github_installation_id s <=? 0) || (rts_github_repo_id s <=? 0)))
    (sub_invalid "GitHub installation and repository ids must be positive") ;?
  ensure (negb (is_empty (trim (rts_commit s))))
    (sub_invalid "task source must contain an immutable commit") ;?
  ensure (negb (is_empty (trim (rts_git_ref_display s))))
    (sub_invalid "task source must contain a display ref").
(** [ProtocolError]'s [Display]. *)
Definition ProtocolError_display (e : ProtocolError) : rstr :=
  match e with
  | Version actual expected =>
      lit "unsupported protocol version " ++ show actual ++ lit "; expected " ++ show expected
  | Invalid field reason => lit "invalid " ++ lit field ++ lit ": " ++ reason
  | Serialization message => lit "serialization failed: " ++ message
  end.

Section Submissions.
Context `{DigestEnv}.

Definition validate_variant (first : ResolvedTaskSource) (expected_workload_key : rstr)
    (v : BenchmarkVariant) : result unit SubmissionError :=
  let s := bvr_source v in
  validate_source s ;?
  ensure (bool_decide (rts_task_kind s = Kind_Benchmark)
          && bool_decide (rts_build_target s = Target_StacksBench))
    (sub_invalid "benchmark variant has an unsupported task/build target") ;?
  ensure ((rts_github_installation_id s =? rts_github_installation_id first)
          && bool_decide (rts_source s = rts_source first)
          && bool_decide (rts_intent s = rts_intent first))
    (sub_invalid "benchmark variants must share installation, source, and intent") ;?
  ensure (bool_decide (rts_workload_key s = Some expected_workload_key))
    (sub_invalid "benchmark workload key differs from its frozen effective arguments") ;?
  ensure (negb (bvr_requested_run_count v <=? 0))
    (sub_invalid "benchmark run count must be positive").
Definition validate_task (queued : QueuedEventDetail) (detail : Value) (t : TaskPlan)
  : result unit SubmissionError :=
  match t with
  | Plan_Benchmark plan =>
      ensure (match queued with
              | Queued_CacheWarm _ _ _ _ | Queued_BlockValidation _ => false
              | _ => true end)
        (sub_invalid "benchmark plan has non-benchmark queued provenance") ;?
      match bpl_variants plan with
      | [] => Err (sub_invalid "benchmark plan must contain at least one variant")
      | first :: _ =>
          let expected_workload_key := workload_key (bpl_effective_args plan) in
          let? queued_args :=
            ok_or (value_get "effective_args" detail ≫= value_as_strings)
              (sub_invalid "benchmark queued provenance must contain effective_args") in
          ensure (bool_decide (queued_args = bpl_effective_args plan))
            (sub_invalid "queued effective_args differ from the immutable benchmark plan") ;?
          for_each (validate_variant (bvr_source first) expected_workload_key) (bpl_variants plan)
      end
  | Plan_BuildOnly source =>
      ensure (match queued with Queued_CacheWarm _ _ _ _ => true | _ => false end)
        (sub_invalid "build-only plan has non-build queued provenance") ;?
      validate_source source ;?
      ensure (bool_decide (rts_task_kind source = Kind_BuildOnly)
              && bool_decide (rts_build_target source = Target_StacksBench))
        (sub_invalid "build-only plan has an unsupported task/build target")
  | Plan_BlockValidation plan =>
      ensure (match queued with Queued_BlockValidation _ => true | _ => false end)
        (sub_invalid "validation plan has non-validation queued provenance") ;?
      validate_source (bvp_source plan) ;?
      ensure (bool_decide (rts_task_kind (bvp_source plan) = Kind_BlockValidation)
              && bool_decide (rts_build_target (bvp_source plan) = Target_StacksInspect))
        (sub_invalid "validation plan has an unsupported task/build target") ;?
      map_err (fun e => Sub_Invalid (ProtocolError_display e))
        (validate (Task_BlockValidation (bvp_payload plan)))
  end.
Definition actor_agrees (a : SubmissionActor) (p : SubmissionProvenance) : bool :=
  match a, pv_github p, pv_slack p with
  | Actor_GithubUser user_id, Some github, None =>
      bool_decide (gp_triggering_user_id github = Some user_id)
  | Actor_SlackUser team_id user_id, None, Some slack =>
      rstr_eqb (slp_team_id slack) team_id && negb (is_empty (trim user_id))
  | Actor_System, _, None => true
  | _, _, _ => false
  end.
(** serde's error text is not modelled; it is the parameter of the message. *)
Definition validate_command (serde_error : rstr) (c : SubmissionCommand) : result unit SubmissionError :=
  ensure (valid_key (pk_namespace (cmd_producer_key c)) 64
          && valid_key (pk_key (cmd_producer_key c)) 512)
    (sub_invalid "producer namespace/key is empty, oversized, or contains control characters") ;?
  ensure (match cs_required_measurement_profile (cmd_constraints c) with
          | Some profile => valid_key profile 128
          | None => true end)
    (sub_invalid "required measurement profile is invalid") ;?
  ensure (match cmd_task c, cs_required_measurement_profile (cmd_constraints c) with
          | Plan_Benchmark _, _ | _, None => true
          | _, Some _ => false end)
    (sub_invalid "measurement-profile constraints apply only to benchmark submissions") ;?
  let? queued :=
    ok_or (queued_detail_of_value (pv_queued_event_detail (cmd_provenance c)))
      (Sub_Invalid (lit "queued-event provenance is invalid: " ++ serde_error)) in
  validate_task queued (pv_queued_event_detail (cmd_provenance c)) (cmd_task c) ;?
  ensure (actor_agrees (cmd_actor c) (cmd_provenance c))
    (sub_invalid "actor and source provenance disagree").

(** ** The digest of the demand *)

Definition TaskKind_as_str (k : TaskKind) : string :=
  match k with
  | Kind_Benchmark => "benchmark" | Kind_BlockValidation => "block_validation"
  | Kind_BuildOnly => "build_only" end.
Definition constraints_value (c : SchedulingConstraints) : Value :=
  jobj [("required_worker_id", jopt juuid (cs_required_worker_id c));
        ("required_measurement_profile", jopt jstr (cs_required_measurement_profile c))].
Definition digest_source (s : ResolvedTaskSource) : Value :=
  jobj [("github_installation_id", jint (rts_github_installation_id s));
        ("github_repo_id", jint (rts_github_repo_id s));
        ("task_kind", jstr (lit (TaskKind_as_str (rts_task_kind s))));
        ("build_target", jstr (lit (BuildTarget_as_str (rts_build_target s))));
        ("commit", jstr (rts_commit s));
        ("workload_key", jopt jstr (rts_workload_key s))].
Definition digest_variant (v : BenchmarkVariant) : Value :=
  jobj [("source", digest_source (bvr_source v));
        ("requested_run_count", jint (bvr_requested_run_count v));
        ("baseline_calibration_id", jopt jint (bvr_baseline_calibration_id v))].
Definition payload_value (p : BlockValidationPayload) : Value :=
  jobj [("selection", to_value (bv_selection p)); ("timeout_secs", jint (bv_timeout_secs p))].
Definition digest_task (t : TaskPlan) : Value :=
  match t with
  | Plan_Benchmark plan =>
      jobj [jkind "benchmark"; ("variants", VArray (map digest_variant (bpl_variants plan)));
            ("effective_args", jstrs (bpl_effective_args plan))]
  | Plan_BuildOnly source => jobj [jkind "build_only"; ("source", digest_source source)]
  | Plan_BlockValidation plan =>
      jobj [jkind "block_validation"; ("source", digest_source (bvp_source plan));
            ("payload", payload_value (bvp_payload plan))]
  end.
Definition digest_material (c : SubmissionCommand) : Value :=
  jobj [("contract_version", jint SUBMISSION_CONTRACT_VERSION);
        ("constraints", constraints_value (cmd_constraints c));
        ("task", digest_task (cmd_task c))].
Definition prepare (serde_error : rstr) (c : SubmissionCommand)
  : result PreparedSubmission SubmissionError :=
  validate_command serde_error c ;?
  Ok {| ps_command := c; ps_contract_version := SUBMISSION_CONTRACT_VERSION;
        ps_request_digest := sha256_hex (write_compact (digest_material c)) |}.
End Submissions.

(** ** Block validation (block_validation_submission.rs) *)
Record BlockValidationTaskConfig := {
  btc_default_recent_blocks : Z;
  btc_max_recent_blocks : Z;
  btc_timeout_secs : Z;
  btc_allow_full_validation : bool;
  btc_allow_range_override : bool
}.
Inductive BlockValidationSelectionError :=
| Bse_RecentCountOutOfBounds (max : Z)
| Bse_FullDisabled
| Bse_RangeDisabled
| Bse_ReversedRange
| Bse_RangeOutOfBounds.
Definition selection_error_display (e : BlockValidationSelectionError) : rstr :=
  match e with
  | Bse_RecentCountOutOfBounds max =>
      lit "requested recent block count must be within 1..=" ++ show max
  | Bse_FullDisabled => lit "full block validation is disabled"
  | Bse_RangeDisabled => lit "block-validation range overrides are disabled"
  | Bse_ReversedRange => lit "block-validation range is reversed"
  | Bse_RangeOutOfBounds => lit "block-validation range exceeds the durable integer range"
  end.
Definition resolve_user_selection (policy : BlockValidationTaskConfig) (s : ValidationSelection)
  : result BlockValidationSelection BlockValidationSelectionError :=
  match s with
  | Vs_Recent block_count =>
      let block_count := default (btc_default_recent_blocks policy) block_count in
      if (block_count =? 0) || (btc_max_recent_blocks policy <? block_count)
      then Err (Bse_RecentCountOutOfBounds (btc_max_recent_blocks policy))
      else Ok (Sel_Recent block_count)
  | Vs_Full => if btc_allow_full_validation policy then Ok Sel_Full else Err Bse_FullDisabled
  | Vs_Range start end_ =>
      if negb (btc_allow_range_override policy) then Err Bse_RangeDisabled
      else if end_ <? start then Err Bse_ReversedRange
      else if I64_MAX <=? end_ then Err Bse_RangeOutOfBounds
      else Ok (Sel_Range {| ir_start := start; ir_end := end_ |})
  end.
Record BlockValidationSubmission := {
  bs_source : ResolvedTaskSource;
  bs_selection : BlockValidationSelection;
  bs_constraints : SchedulingConstraints;
  bs_actor : SubmissionActor;
  bs_producer_key : ProducerKey;
  bs_provenance : SubmissionProvenance
}.
(** [BlockValidationSubmissionService::submit], up to the call of [submit]. *)
Definition block_validation_command (policy : BlockValidationTaskConfig)
    (r : BlockValidationSubmission) : result SubmissionCommand SubmissionError :=
  ensure (bool_decide (rts_task_kind (bs_source r) = Kind_BlockValidation))
    (sub_invalid "block-validation submission received a non-validation source") ;?
  let payload := {| bv_selection := bs_selection r; bv_timeout_secs := btc_timeout_secs policy |} in
  map_err (fun e => Sub_Invalid (ProtocolError_display e)) (validate (Task_BlockValidation payload)) ;?
  Ok {| cmd_actor := bs_actor r; cmd_producer_key := bs_producer_key r;
        cmd_constraints := bs_constraints r;
        cmd_task := Plan_BlockValidation {| bvp_source := bs_source r; bvp_payload := payload |};
        cmd_provenance := bs_provenance r |}.
Definition queued_validation_detail (s : BlockValidationSelection) : Value :=
  to_value (Queued_BlockValidation s).

(** ** Accepted commands *)
Section Accepted.
Context `{DigestEnv}.
#[local] Arguments lit _ : simpl never.

Definition source_ok (s : ResolvedTaskSource) : Prop :=
  0 < rts_github_installation_id s /\ 0 < rts_github_repo_id s
  /\ trim (rts_commit s) <> [] /\ trim (rts_git_ref_display s) <> [].
Definition variant_ok (first : ResolvedTaskSource) (key : rstr) (v : BenchmarkVariant) : Prop :=
  source_ok (bvr_source v)
  /\ rts_task_kind (bvr_source v) = Kind_Benchmark
  /\ rts_build_target (bvr_source v) = Target_StacksBench
  /\ rts_github_installation_id (bvr_source v) = rts_github_installation_id first
  /\ rts_source (bvr_source v) = rts_source first /\ rts_intent (bvr_source v) = rts_intent first
  /\ rts_workload_key (bvr_source v) = Some key
  /\ 0 < bvr_requested_run_count v.
Definition plan_ok (detail : Value) (t : TaskPlan) : Prop :=
  match t with
  | Plan_Benchmark plan =>
      value_get "effective_args" detail ≫= value_as_strings = Some (bpl_effective_args plan)
      /\ exists first rest, bpl_variants plan = first :: rest
         /\ Forall (variant_ok (bvr_source first) (workload_key (bpl_effective_args plan)))
              (bpl_variants plan)
  | Plan_BuildOnly s =>
      source_ok s /\ rts_task_kind s = Kind_BuildOnly /\ rts_build_target s = Target_StacksBench
  | Plan_BlockValidation plan =>
      source_ok (bvp_source plan) /\ rts_task_kind (bvp_source plan) = Kind_BlockValidation
      /\ rts_build_target (bvp_source plan) = Target_StacksInspect
      /\ validate (Task_BlockValidation (bvp_payload plan)) = Ok tt
  end.

(** The guards a result has passed. *)
Ltac guards H :=
  repeat match type of H with
  | (match ensure ?b ?e with _ => _ end) = Ok _ =>
      let G := fresh "G" in destruct (ensure b e) as [[]|] eqn:G; [|discriminate H];
      apply ensure_Ok in G
  | (match validate_source ?s with _ => _ end) = Ok _ =>
      let G := fresh "G" in destruct (validate_source s) as [[]|] eqn:G; [|discriminate H]
  | ensure _ _ = Ok ?u => destruct u; apply ensure_Ok in H
  end.

Lemma not_empty_trim s : is_empty (trim s) = false -> trim s <> [].
Proof. by destruct (trim s). Qed.
Lemma validate_source_ok s u : validate_source s = Ok u -> source_ok s.
Proof.
  unfold validate_source. intros Hv. guards Hv. bool_hyps. unfold source_ok.
  split_and!; try lia; by apply not_empty_trim.
Qed.
Lemma validate_variant_ok first key v u : validate_variant first key v = Ok u -> variant_ok first key v.
Proof.
  unfold validate_variant. intros Hv. guards Hv. apply validate_source_ok in G. bool_hyps.
  unfold variant_ok. split; [exact G|]. split_and!; try done; lia.
Qed.
Lemma validate_task_ok queued detail t u : validate_task queued detail t = Ok u -> plan_ok detail t.
Proof.
  destruct t as [plan|s|plan]; cbn [validate_task plan_ok]; intros Hv; guards Hv.
  - destruct (bpl_variants plan) as [|first rest]; [done|].
    destruct (_ ≫= _) as [args|]; [|done]. cbn [ok_or] in Hv. guards Hv. bool_hyps. subst args.
    split; [done|]. exists first, rest. split; [done|].
    destruct u. apply for_each_Ok in Hv. eapply Forall_impl; [exact Hv|].
    intros v Hx. exact (validate_variant_ok _ _ _ _ Hx).
  - apply validate_source_ok in G0. by bool_hyps.
  - apply validate_source_ok in G0. bool_hyps. split_and!; try done.
    destruct (validate _) as [[]|]; [done | discriminate Hv].
Qed.

Lemma prepare_ok e c p :
  prepare e c = Ok p ->
  ps_command p = c /\ ps_contract_version p = SUBMISSION_CONTRACT_VERSION
  /\ ps_request_digest p = sha256_hex (write_compact (digest_material c))
  /\ plan_ok (pv_queued_event_detail (cmd_provenance c)) (cmd_task c)
  /\ actor_agrees (cmd_actor c) (cmd_provenance c) = true.
Proof.
  unfold prepare. destruct (validate_command e c) as [[]|] eqn:Hv; [|done]. intros [= <-].
  unfold validate_command in Hv. guards Hv.
  destruct (queued_detail_of_value _) as [queued|]; [|done]. cbn [ok_or] in Hv.
  destruct (validate_task _ _ _) as [u|] eqn:Ht; [|done]. apply validate_task_ok in Ht.
  guards Hv. done.
Qed.
End Accepted.

(** ** The digest identifies the demand *)
Section Demand.
Context `{DigestEnv}.
#[local] Arguments lit _ : simpl never.

(** What a submission asks for, without where it came from and how its source was
    named. *)
Record SourceDemand := {
  sd_installation : Z; sd_repo : Z; sd_task_kind : TaskKind; sd_build_target : BuildTarget;
  sd_commit : rstr; sd_workload_key : option rstr
}.
Inductive TaskDemand :=
| Demand_Benchmark (variants : list (SourceDemand * Z * option Z)) (effective_args : list rstr)
| Demand_BuildOnly (source : SourceDemand)
| Demand_BlockValidation (source : SourceDemand) (payload : BlockValidationPayload).
Definition source_demand (s : ResolvedTaskSource) : SourceDemand :=
  {| sd_installation := rts_github_installation_id s; sd_repo := rts_github_repo_id s;
     sd_task_kind := rts_task_kind s; sd_build_target := rts_build_target s;
     sd_commit := rts_commit s; sd_workload_key := rts_workload_key s |}.
Definition variant_demand (v : BenchmarkVariant) : SourceDemand * Z * option Z :=
  (source_demand (bvr_source v), bvr_requested_run_count v, bvr_baseline_calibration_id v).
Definition task_demand (t : TaskPlan) : TaskDemand :=
  match t with
  | Plan_Benchmark plan =>
      Demand_Benchmark (map variant_demand (bpl_variants plan)) (bpl_effective_args plan)
  | Plan_BuildOnly s => Demand_BuildOnly (source_demand s)
  | Plan_BlockValidation plan =>
      Demand_BlockValidation (source_demand (bvp_source plan)) (bvp_payload plan)
  end.
Definition demand (c : SubmissionCommand) : SchedulingConstraints * TaskDemand :=
  (cmd_constraints c, task_demand (cmd_task c)).
Definition constraints_typed (c : SubmissionCommand) : Prop :=
  opt_ok (fun u => 0 <= u < 2 ^ 128) (cs_required_worker_id (cmd_constraints c)).

(** Injectivity of the serialization, type by type. *)
Lemma jopt_str_inj o o' : jopt jstr o = jopt jstr o' -> o = o'.
Proof. by destruct o, o'; simpl; try discriminate 1; [intros [= ->]|]. Qed.
Lemma jopt_int_inj o o' : jopt jint o = jopt jint o' -> o = o'.
Proof. by destruct o, o'; simpl; try discriminate 1; [intros [= ->]|]. Qed.
Lemma jopt_uuid_inj o o' :
  opt_ok (fun u => 0 <= u < 2 ^ 128) o -> opt_ok (fun u => 0 <= u < 2 ^ 128) o' ->
  jopt juuid o = jopt juuid o' -> o = o'.
Proof.
  destruct o as [u|], o' as [v|]; simpl; intros Hu Hv; try discriminate 1; [|done].
  intros Heq. f_equal. apply uuid_string_inj; [done ..|]. unfold juuid, jstr in Heq. congruence.
Qed.
Lemma task_kind_inj k k' : jstr (lit (TaskKind_as_str k)) = jstr (lit (TaskKind_as_str k')) -> k = k'.
Proof. by destruct k, k'; try done; intros Heq; vm_compute in Heq. Qed.
Lemma build_target_inj t t' :
  jstr (lit (BuildTarget_as_str t)) = jstr (lit (BuildTarget_as_str t')) -> t = t'.
Proof. by destruct t, t'; try done; intros Heq; vm_compute in Heq. Qed.
Lemma jobj_inj es es' : map fst es = map fst es' -> jobj es = jobj es' -> map snd es = map snd es'.
Proof.
  intros Hk [= Heq]. apply (f_equal (map snd)) in Heq. by rewrite !map_map in Heq.
Qed.

Lemma digest_source_inj s s' : digest_source s = digest_source s' -> source_demand s = source_demand s'.
Proof.
  intros Heq. apply jobj_inj in Heq; [|done]. cbn [map snd] in Heq.
  injection Heq as Hi Hr Hk Ht Hc Hw.
  apply (f_equal jstr) in Hk, Ht. apply task_kind_inj in Hk. apply build_target_inj in Ht.
  apply jopt_str_inj in Hw. unfold source_demand. congruence.
Qed.
Lemma digest_variant_inj v v' : digest_variant v = digest_variant v' -> variant_demand v = variant_demand v'.
Proof.
  intros Heq. apply jobj_inj in Heq; [|done]. cbn [map snd] in Heq.
  assert (Hs : digest_source (bvr_source v) = digest_source (bvr_source v')) by congruence.
  assert (Hn : jint (bvr_requested_run_count v) = jint (bvr_requested_run_count v')) by congruence.
  assert (Hb : jopt jint (bvr_baseline_calibration_id v) = jopt jint (bvr_baseline_calibration_id v'))
    by congruence.
  apply digest_source_inj in Hs. apply jopt_int_inj in Hb. injection Hn as Hn.
  unfold variant_demand. congruence.
Qed.
Lemma payload_value_inj p p' : payload_value p = payload_value p' -> p = p'.
Proof.
  intros Heq. destruct p as [[n| |[s e]] t], p' as [[n'| |[s' e']] t']; cbv -[lit] in Heq;
    (congruence || (vm_compute in Heq; discriminate Heq)).
Qed.
Lemma map_digest_inj vs vs' :
  map digest_variant vs = map digest_variant vs' -> map variant_demand vs = map variant_demand vs'.
Proof.
  revert vs'. induction vs as [|v vs IH]; intros [|v' vs']; simpl; try discriminate 1; [done|].
  intros Heq. f_equal; [apply digest_variant_inj | apply IH]; congruence.
Qed.
Lemma digest_task_inj t t' : digest_task t = digest_task t' -> task_demand t = task_demand t'.
Proof.
  destruct t as [p|s|p], t' as [p'|s'|p']; simpl; intros Heq;
    try discriminate Heq; unfold jobj in Heq; simpl in Heq.
  - assert (Hv : map digest_variant (bpl_variants p) = map digest_variant (bpl_variants p')) by congruence.
    assert (Ha : jstrs (bpl_effective_args p) = jstrs (bpl_effective_args p')) by congruence.
    apply map_digest_inj in Hv. apply jstrs_inj in Ha. congruence.
  - assert (Hs : digest_source s = digest_source s') by congruence.
    apply digest_source_inj in Hs. congruence.
  - assert (Hs : digest_source (bvp_source p) = digest_source (bvp_source p')) by congruence.
    assert (Hp : payload_value (bvp_payload p) = payload_value (bvp_payload p')) by congruence.
    apply digest_source_inj in Hs. apply payload_value_inj in Hp. congruence.
Qed.
Lemma digest_material_inj c c' :
  constraints_typed c -> constraints_typed c' ->
  digest_material c = digest_material c' -> demand c = demand c'.
Proof.
  intros Hc Hc' Heq. unfold digest_material, jobj in Heq. simpl in Heq.
  assert (Hk : constraints_value (cmd_constraints c) = constraints_value (cmd_constraints c')) by congruence.
  assert (Ht : digest_task (cmd_task c) = digest_task (cmd_task c')) by congruence.
  apply digest_task_inj in Ht. unfold constraints_value, jobj in Hk. simpl in Hk.
  assert (Hw : jopt juuid (cs_required_worker_id (cmd_constraints c))
               = jopt juuid (cs_required_worker_id (cmd_constraints c'))) by congruence.
  assert (Hp : jopt jstr (cs_required_measurement_profile (cmd_constraints c))
               = jopt jstr (cs_required_measurement_profile (cmd_constraints c'))) by congruence.
  apply jopt_uuid_inj in Hw; [|done ..]. apply jopt_str_inj in Hp. unfold demand.
  destruct (cmd_constraints c), (cmd_constraints c'); simpl in *. congruence.
Qed.

(** The other direction: equal demands are serialized alike. *)
Lemma digest_source_demand s s' : source_demand s = source_demand s' -> digest_source s = digest_source s'.
Proof. unfold source_demand, digest_source. intros [= -> -> -> -> -> ->]. done. Qed.
Lemma map_digest_demand vs vs' :
  map variant_demand vs = map variant_demand vs' -> map digest_variant vs = map digest_variant vs'.
Proof.
  revert vs'. induction vs as [|v vs IH]; intros [|v' vs'] Heq; try discriminate Heq; [done|].
  cbn [map] in *. f_equal; [|apply IH; congruence]. unfold variant_demand in Heq.
  assert (Hs : source_demand (bvr_source v) = source_demand (bvr_source v')) by congruence.
  assert (Hn : bvr_requested_run_count v = bvr_requested_run_count v') by congruence.
  assert (Hb : bvr_baseline_calibration_id v = bvr_baseline_calibration_id v') by congruence.
  unfold digest_variant. by rewrite Hn, Hb, (digest_source_demand _ _ Hs).
Qed.
Lemma digest_material_demand c c' : demand c = demand c' -> digest_material c = digest_material c'.
Proof.
  unfold demand, digest_material. intros Heq. injection Heq as Hc Ht. rewrite Hc.
  assert (digest_task (cmd_task c) = digest_task (cmd_task c')) as ->; [|done].
  destruct (cmd_task c) as [p|s|p], (cmd_task c') as [p'|s'|p']; cbn [task_demand] in Ht;
    try discriminate Ht; cbn [digest_task].
  - injection Ht as Hv Ha. apply map_digest_demand in Hv. by rewrite Hv, Ha.
  - assert (Hs : source_demand s = source_demand s') by congruence.
    by rewrite (digest_source_demand _ _ Hs).
  - assert (Hs : source_demand (bvp_source p) = source_demand (bvp_source p')) by congruence.
    assert (Hp : bvp_payload p = bvp_payload p') by congruence.
    by rewrite (digest_source_demand _ _ Hs), Hp.
Qed.

(** Every part of the material has one text. *)
Lemma exact_jobj es : forallb (fun e => exact e.2) es = true -> exact (jobj es) = true.
Proof.
  induction es as [|e es IH]; [done|]. simpl. intros He. apply andb_true_iff in He as [He Hes].
  rewrite He. exact (IH Hes).
Qed.
Lemma exact_jopt {A} (f : A -> Value) o : (forall a, exact (f a) = true) -> exact (jopt f o) = true.
Proof. destruct o; simpl; auto. Qed.
Lemma exact_source s : exact (digest_source s) = true.
Proof. apply exact_jobj. cbn [forallb snd]. by rewrite exact_jopt. Qed.
Lemma exact_material c : exact (digest_material c) = true.
Proof.
  assert (Hv : forall v, exact (digest_variant v) = true).
  { intros v. apply exact_jobj. cbn [forallb snd]. by rewrite exact_source, exact_jopt. }
  apply exact_jobj. cbn [forallb snd]. apply andb_true_iff. split; [done|].
  apply andb_true_iff. split.
  - apply exact_jobj. cbn [forallb snd]. by rewrite !exact_jopt.
  - rewrite andb_true_r. destruct (cmd_task c) as [p|s|p]; apply exact_jobj; cbn [forallb snd jkind].
    + rewrite strings_exact. cbn. rewrite andb_true_r. apply forallb_forall.
      intros x Hx. apply in_map_iff in Hx as (v & <- & _). apply Hv.
    + by rewrite exact_source.
    + rewrite exact_source. by destruct (bvp_payload p) as [[]].
Qed.

(** C30: The digest identifies the demand.  Two accepted commands have the same digest
    whenever they ask for the same work under the same placement, whoever asks, under
    whichever key and however the commits were named; and commands with the same
    digest ask for the same work, or two different texts collide under SHA-256.  So a
    repeated submission is recognised, and a different one under the same key is a
    conflict. *)
Theorem digest_identifies_demand `{!ScalarText} e e' c c' p p' :
  constraints_typed c -> constraints_typed c' ->
  prepare e c = Ok p -> prepare e' c' = Ok p' ->
  (demand c = demand c' -> ps_request_digest p = ps_request_digest p')
  /\ (ps_request_digest p = ps_request_digest p' -> demand c = demand c' \/ collision).
Proof.
  intros Hc Hc' Hp Hp'. apply prepare_ok in Hp as (_ & _ & -> & _). apply prepare_ok in Hp' as (_ & _ & -> & _).
  split; intros Heq; [by rewrite (digest_material_demand c c')|].
  apply compact_digest in Heq as [Heq|[Hne Heq]]; [| |apply exact_material ..].
  - left. by apply digest_material_inj.
  - right. by eexists _, _.
Qed.
End Demand.

(** ** Demonstration *)
Section Demo.
#[local] Existing Instance unary_digest.
Definition demo_source (display : rstr) (key : option rstr) (k : TaskKind) : ResolvedTaskSource :=
  {| rts_github_installation_id := 1; rts_github_repo_id := 2; rts_source := Src_Daemon;
     rts_intent := Intent_CacheWarm; rts_task_kind := k; rts_build_target := Target_StacksBench;
     rts_git_ref_kind := Ref_Branch; rts_git_ref_display := display; rts_commit := lit "c0ffee";
     rts_committed_at := None; rts_workload_key := key |}.
Definition demo_build (display : rstr) (key : rstr) : SubmissionCommand :=
  {| cmd_actor := Actor_System;
     cmd_producer_key := {| pk_namespace := lit "cache_warm"; pk_key := key |};
     cmd_constraints := SchedulingConstraints_default;
     cmd_task := Plan_BuildOnly (demo_source display None Kind_BuildOnly);
     cmd_provenance :=
       {| pv_queued_event_detail :=
            to_value (Queued_CacheWarm 1 display (lit "c0ffee") Target_StacksBench);
          pv_github := None; pv_slack := None |} |}.
Definition prepared_of (c : SubmissionCommand) : PreparedSubmission :=
  match prepare [] c with
  | Ok p => p
  | Err _ => {| ps_command := c; ps_contract_version := 0; ps_request_digest := [] |}
  end.

Lemma digest_identifies_demand_witness :
  let c := demo_build (lit "main") (lit "a") in
  let c' := demo_build (lit "release") (lit "b") in
  demand c = demand c' /\ ps_request_digest (prepared_of c) = ps_request_digest (prepared_of c').
Proof.
  intros c c'. split; [reflexivity|].
  refine (proj1 (@digest_identifies_demand unary_digest unary_text [] [] c c' (prepared_of c)
                   (prepared_of c') I I _ _) eq_refl); vm_compute; reflexivity.
Defined.
End Demo.
