(* ===== verification/SubmissionStore.v ===== *)
(** * The submission store

    crates/sbgh-postgres/src/stores/submissions.rs and the run chain of
    crates/sbgh-postgres/src/stores/jobs.rs: the rows a submission writes in one
    transaction, the recognition of repeated submissions, and the lazy creation of
    the next run of a submission when one completes.  The main results are that a
    producer key names one submission for ever, and that the runs of a submission
    are created one by one in the order of its plan, each with the plan's data.

    Rows are those of the tables the two files write; foreign keys into the tables of
    installations, repositories, users and webhooks are taken to be satisfied. *)
From stdpp Require Import base list strings gmap.
From Stdlib Require Import ZArith Lia.
From S2P Require Import Prelude RustStr Json JsonText FleetModel Negotiation Validate FleetDb Workload Intent Submission.

Local Open Scope Z_scope.

(** ** Rows *)
Record TaskSubmissionRow := {
  tsr_installation : Z;
  tsr_repo : Z;
  tsr_source : JobSource;
  tsr_intent : JobIntent;
  tsr_artifact_prefix : rstr;
  tsr_contract_version : Z;
  tsr_request_digest : rstr;
  tsr_required_worker : option Uuid;
  tsr_required_profile : option rstr
}.
Record SubmissionSpec := {
  ss_submission : Uuid;
  ss_index : Z;
  ss_requested_run_count : Z;
  ss_calibration : option Z;
  ss_repo : Z;
  ss_task_kind : TaskKind;
  ss_build_target : BuildTarget;
  ss_ref_kind : GitRefKind;
  ss_ref_display : rstr;
  ss_commit : option rstr;
  ss_committed_at : option Z;
  ss_workload_key : option rstr
}.
Inductive SubmissionStepKind := Step_Build | Step_Calibrate | Step_Run.
Record WorkflowStepRow := {
  wsr_submission : Uuid;
  wsr_index : Z;
  wsr_kind : SubmissionStepKind;
  wsr_spec : Uuid
}.
Record RunRow := {
  rr_submission : Uuid;
  rr_spec : Uuid;
  rr_run_index : Z;
  rr_installation : Z;
  rr_repo : Z;
  rr_ref_kind : GitRefKind;
  rr_ref_display : rstr;
  rr_commit : option rstr;
  rr_committed_at : option Z;
  rr_workload_key : option rstr;
  rr_source : JobSource;
  rr_intent : JobIntent;
  rr_task_kind : TaskKind;
  rr_build_target : BuildTarget;
  rr_capability : WorkerCapability;
  rr_payload : option (TaskPayload * rstr)
}.
Record Run := { run_row : RunRow; run_status : JobStatus }.
Record IdempotencyRow := {
  idr_submission : Uuid;
  idr_contract_version : option Z;
  idr_request_digest : option rstr;
  idr_initial_job_ids : list Uuid
}.
Record ProvenanceRow := {
  pvr_actor_kind : rstr;
  pvr_actor_identity : option rstr;
  pvr_detail : Value
}.
(** The GitHub row of a submission; a recovered one names no webhook. *)
Record GithubRow := {
  ghr_webhook_id : option Z;
  ghr_triggering_user_id : option Z;
  ghr_pull_request_id : option Z;
  ghr_triggering_comment_id : option Z
}.
Definition github_row (p : GithubSubmissionProvenance) : GithubRow :=
  {| ghr_webhook_id := Some (gp_webhook_id p); ghr_triggering_user_id := gp_triggering_user_id p;
     ghr_pull_request_id := gp_pull_request_id p;
     ghr_triggering_comment_id := gp_triggering_comment_id p |}.
Record SubmissionDb := {
  su_submissions : gmap Uuid TaskSubmissionRow;
  su_specs : gmap Uuid SubmissionSpec;
  su_steps : list WorkflowStepRow;
  su_runs : gmap Uuid Run;
  su_events : list JobEvent;
  su_provenance : gmap Uuid ProvenanceRow;
  su_github : gmap Uuid GithubRow;
  su_slack : gmap Uuid SlackSubmissionProvenance;
  su_idempotency : gmap (rstr * rstr) IdempotencyRow
}.

(** [i64::to_string]. *)
Definition show_i64 (z : Z) : rstr := if z <? 0 then 45 :: show (- z) else show z.

(** ** Inserts *)
Definition persistence (message : string) : SubmissionError := Sub_Persistence (lit message).
(** A primary key admits one row. *)
Definition insert_row `{Countable K} {A} (k : K) (row : A) (m : gmap K A) : result (gmap K A) SubmissionError :=
  match m !! k with
  | Some _ => Err (persistence "duplicate key value")
  | None => Ok (<[k := row]> m)
  end.
(** The rows of one submission. *)
Definition submission_row (id : Uuid) (source : ResolvedTaskSource) (p : PreparedSubmission) : TaskSubmissionRow :=
  {| tsr_installation := rts_github_installation_id source; tsr_repo := rts_github_repo_id source;
     tsr_source := rts_source source; tsr_intent := rts_intent source;
     tsr_artifact_prefix := uuid_string id; tsr_contract_version := ps_contract_version p;
     tsr_request_digest := ps_request_digest p;
     tsr_required_worker := cs_required_worker_id (cmd_constraints (ps_command p));
     tsr_required_profile := cs_required_measurement_profile (cmd_constraints (ps_command p)) |}.
(** Each variant with its run count, its calibration and whether it has a run step. *)
Definition plan_variants (t : TaskPlan) : list (ResolvedTaskSource * Z * option Z * bool) :=
  match t with
  | Plan_Benchmark plan =>
      map (fun v => (bvr_source v, bvr_requested_run_count v, bvr_baseline_calibration_id v, true))
        (bpl_variants plan)
  | Plan_BuildOnly source => [(source, 1, None, false)]
  | Plan_BlockValidation plan => [(bvp_source plan, 1, None, true)]
  end.
Definition spec_row (submission : Uuid) (index : Z) (v : ResolvedTaskSource * Z * option Z * bool)
  : SubmissionSpec :=
  let '(source, requested_runs, calibration, _) := v in
  {| ss_submission := submission; ss_index := index; ss_requested_run_count := requested_runs;
     ss_calibration := calibration; ss_repo := rts_github_repo_id source;
     ss_task_kind := rts_task_kind source; ss_build_target := rts_build_target source;
     ss_ref_kind := rts_git_ref_kind source; ss_ref_display := rts_git_ref_display source;
     ss_commit := Some (rts_commit source); ss_committed_at := rts_committed_at source;
     ss_workload_key := rts_workload_key source |}.
(** [sum::<i32>] wraps. *)
Definition wrap_i32 (z : Z) : Z := (z + 2 ^ 31) mod 2 ^ 32 - 2 ^ 31.
Definition measured_runs (vs : list (ResolvedTaskSource * Z * option Z * bool)) : Z :=
  foldl (fun sum v => wrap_i32 (sum + measured_run_count (rts_task_kind v.1.1.1) v.1.1.2)) 0 vs.
(** The steps of a variant. *)
Definition variant_steps (measured : Z) (v : ResolvedTaskSource * Z * option Z * bool)
  : list SubmissionStepKind :=
  let '(source, _, _, has_run) := v in
  [Step_Build]
  ++ (if uses_shared_calibration (rts_task_kind source) (rts_build_target source) measured
      then [Step_Calibrate] else [])
  ++ (if has_run : bool then [Step_Run] else []).
(** The loop over the variants: [index] and [next_step] count up, [new_spec] draws the
    identifiers. *)
Fixpoint insert_specs (submission : Uuid) (new_spec : nat -> Uuid) (measured : Z) (index : nat)
    (next_step : Z) (vs : list (ResolvedTaskSource * Z * option Z * bool))
    (specs : gmap Uuid SubmissionSpec) (steps : list WorkflowStepRow)
  : result (gmap Uuid SubmissionSpec * list WorkflowStepRow) SubmissionError :=
  match vs with
  | [] => Ok (specs, steps)
  | v :: rest =>
      let spec_id := new_spec index in
      ensure (1 <=? v.1.1.2) (persistence "violates check constraint") ;?
      let? specs := insert_row spec_id (spec_row submission (Z.of_nat index) v) specs in
      let kinds := variant_steps measured v in
      let rows := imap (fun i k => {| wsr_submission := submission;
                                      wsr_index := next_step + Z.of_nat i;
                                      wsr_kind := k; wsr_spec := spec_id |}) kinds in
      insert_specs submission new_spec measured (S index) (next_step + Z.of_nat (length kinds)) rest
        specs (steps ++ rows)
  end.
Definition actor_columns (a : SubmissionActor) : rstr * option rstr :=
  match a with
  | Actor_System => (lit "system", None)
  | Actor_GithubUser user_id => (lit "github_user", Some (show_i64 user_id))
  | Actor_SlackUser team_id user_id => (lit "slack_user", Some (team_id ++ lit ":" ++ user_id))
  end.

(** The CHECK constraints of the provenance tables. *)
Definition length_within (lo hi : nat) (s : rstr) : bool := (lo <=? length s)%nat && (length s <=? hi)%nat.
Definition slack_row_ok (row : SlackSubmissionProvenance) (others : gmap Uuid SlackSubmissionProvenance) : bool :=
  length_within 1 64 (slp_team_id row) && length_within 1 64 (slp_channel_id row)
  && length_within 1 64 (slp_request_message_ts row)
  && length_within 1 128 (slp_reporting_identity row)
  && match slp_report_message_ts row with Some ts => length_within 1 64 ts | None => true end
  && negb (existsb (fun kv : Uuid * SlackSubmissionProvenance =>
             rstr_eqb (slp_reporting_identity kv.2) (slp_reporting_identity row)) (map_to_list others)).
Definition github_row_ok (row : GithubSubmissionProvenance) (others : gmap Uuid GithubRow) : bool :=
  match gp_pull_request_id row, gp_triggering_comment_id row with None, Some _ => false | _, _ => true end
  && negb (existsb (fun kv : Uuid * GithubRow =>
             bool_decide (ghr_webhook_id kv.2 = Some (gp_webhook_id row))) (map_to_list others)).
Definition lower_hex_digit (c : Z) : bool := Char.is_ascii_digit c || Char.between 97 102 c.
Definition idempotency_row_ok (namespace key : rstr) (version : Z) (digest : rstr) : bool :=
  length_within 1 64 namespace && length_within 1 512 key && (0 <? version)
  && (length digest =? 64)%nat && forallb lower_hex_digit digest.

Section Persist.
Context `{DigestEnv}.

(** [existing_receipt]. *)
Definition existing_receipt (p : PreparedSubmission) (db : SubmissionDb)
  : result (option SubmissionReceipt) SubmissionError :=
  let key := cmd_producer_key (ps_command p) in
  match su_idempotency db !! (pk_namespace key, pk_key key) with
  | None => Ok None
  | Some row =>
      match idr_contract_version row, idr_request_digest row with
      | Some version, Some digest =>
          if negb (version =? ps_contract_version p) || negb (rstr_eqb digest (ps_request_digest p))
          then Err (Sub_Conflict (pk_namespace key) (pk_key key))
          else Ok (Some {| sbr_submission_id := idr_submission row;
                           sbr_disposition := Disp_AlreadySubmitted;
                           sbr_initial_job_ids := idr_initial_job_ids row |})
      | _, _ => Ok (Some {| sbr_submission_id := idr_submission row;
                            sbr_disposition := Disp_AlreadySubmitted;
                            sbr_initial_job_ids := idr_initial_job_ids row |})
      end
  end.

(** The identifiers drawn by [Uuid::new_v4]. *)
Record NewIds := { ni_submission : Uuid; ni_job : Uuid; ni_spec : nat -> Uuid }.

(** The first run of a submission. *)
Definition execution_columns (t : TaskPlan) : option (TaskPayload * rstr) :=
  match t with
  | Plan_BlockValidation plan =>
      let payload := Task_BlockValidation (bvp_payload plan) in Some (payload, payload_digest payload)
  | Plan_Benchmark _ | Plan_BuildOnly _ => None
  end.
Definition initial_run (ids : NewIds) (source : ResolvedTaskSource) (t : TaskPlan) : Run :=
  {| run_row :=
       {| rr_submission := ni_submission ids; rr_spec := ni_spec ids 0; rr_run_index := 0;
          rr_installation := rts_github_installation_id source; rr_repo := rts_github_repo_id source;
          rr_ref_kind := rts_git_ref_kind source; rr_ref_display := rts_git_ref_display source;
          rr_commit := Some (rts_commit source); rr_committed_at := rts_committed_at source;
          rr_workload_key := rts_workload_key source; rr_source := rts_source source;
          rr_intent := rts_intent source; rr_task_kind := rts_task_kind source;
          rr_build_target := rts_build_target source; rr_capability := plan_required_capability t;
          rr_payload := execution_columns t |};
     run_status := J_Queued |}.
Definition queued_event (job : Uuid) (detail : Value) : JobEvent :=
  {| je_job := job; je_kind := Ev_Queued; je_success := true; je_remark := None; je_detail := Some detail |}.
Definition plan_message_event (job : Uuid) (ts : rstr) : JobEvent :=
  {| je_job := job; je_kind := Ev_PlanMessageSent; je_success := true; je_remark := None;
     je_detail := Some (jobj [("plan_message_ts", jstr ts)]) |}.

(** The transaction up to the election: the rows of the submission are written. *)
Definition write_submission (ids : NewIds) (p : PreparedSubmission) (source : ResolvedTaskSource)
    (db : SubmissionDb) : result SubmissionDb SubmissionError :=
  let c := ps_command p in
  let detail := pv_queued_event_detail (cmd_provenance c) in
  let? submissions := insert_row (ni_submission ids) (submission_row (ni_submission ids) source p)
                        (su_submissions db) in
  let vs := plan_variants (cmd_task c) in
  let? planned := insert_specs (ni_submission ids) (ni_spec ids) (measured_runs vs) 0 0 vs
                    (su_specs db) (su_steps db) in
  let '(specs, steps) := planned in
  let? runs := insert_row (ni_job ids) (initial_run ids source (cmd_task c)) (su_runs db) in
  let '(actor_kind, actor_identity) := actor_columns (cmd_actor c) in
  let? provenance := insert_row (ni_submission ids)
      {| pvr_actor_kind := actor_kind; pvr_actor_identity := actor_identity; pvr_detail := detail |}
      (su_provenance db) in
  let? github :=
    match pv_github (cmd_provenance c) with
    | None => Ok (su_github db)
    | Some row =>
        ensure (github_row_ok row (su_github db)) (persistence "violates a constraint") ;?
        insert_row (ni_submission ids) (github_row row) (su_github db)
    end in
  let? slack :=
    match pv_slack (cmd_provenance c) with
    | None => Ok (su_slack db)
    | Some row =>
        ensure (slack_row_ok row (su_slack db)) (persistence "violates a constraint") ;?
        insert_row (ni_submission ids) row (su_slack db)
    end in
  let reported := match pv_slack (cmd_provenance c) with
                  | Some row => slp_report_message_ts row
                  | None => None end in
  Ok {| su_submissions := submissions; su_specs := specs; su_steps := steps; su_runs := runs;
        su_events := su_events db ++ [queued_event (ni_job ids) detail]
                     ++ match reported with
                        | Some ts => [plan_message_event (ni_job ids) ts]
                        | None => [] end;
        su_provenance := provenance; su_github := github; su_slack := slack;
        su_idempotency := su_idempotency db |}.

(** [persist_submission]: the first look-up sees [db]; the transaction runs when
    other writers have brought the database to [now]. *)
Definition persist_submission (ids : NewIds) (p : PreparedSubmission) (db now : SubmissionDb)
  : result SubmissionReceipt SubmissionError * SubmissionDb :=
  match existing_receipt p db with
  | Err e => (Err e, now)
  | Ok (Some receipt) => (Ok receipt, now)
  | Ok None =>
      match first_source (cmd_task (ps_command p)) with
      | None => (Err (Sub_Invalid (lit "a task plan must contain at least one source")), now)
      | Some source =>
          match write_submission ids p source now with
          | Err e => (Err e, now)
          | Ok written =>
              let key := cmd_producer_key (ps_command p) in
              if negb (idempotency_row_ok (pk_namespace key) (pk_key key) (ps_contract_version p)
                         (ps_request_digest p))
              then (Err (persistence "violates check constraint"), now)
              else
                match su_idempotency now !! (pk_namespace key, pk_key key) with
                | Some _ =>
                    (match existing_receipt p now with
                     | Ok (Some receipt) => Ok receipt
                     | Ok None => Err (persistence "idempotency winner disappeared")
                     | Err e => Err e
                     end, now)
                | None =>
                    let row := {| idr_submission := ni_submission ids;
                                  idr_contract_version := Some (ps_contract_version p);
                                  idr_request_digest := Some (ps_request_digest p);
                                  idr_initial_job_ids := [ni_job ids] |} in
                    (Ok {| sbr_submission_id := ni_submission ids; sbr_disposition := Disp_Created;
                           sbr_initial_job_ids := [ni_job ids] |},
                     {| su_submissions := su_submissions written; su_specs := su_specs written;
                        su_steps := su_steps written; su_runs := su_runs written;
                        su_events := su_events written; su_provenance := su_provenance written;
                        su_github := su_github written; su_slack := su_slack written;
                        su_idempotency := <[(pk_namespace key, pk_key key) := row]> (su_idempotency written) |})
                end
          end
      end
  end.
End Persist.

(** ** The run chain (jobs.rs) *)
Definition is_nil_list {A} (l : list A) : bool := match l with [] => true | _ => false end.
Definition run_active (s : JobStatus) : bool :=
  match s with J_Queued | J_Claimed | J_Running => true | _ => false end.
Definition runs_where (p : Run -> bool) (db : SubmissionDb) : list (Uuid * Run) :=
  filter (fun kv => p kv.2 = true) (map_to_list (su_runs db)).
Definition active_runs (submission : Uuid) (db : SubmissionDb) : Z :=
  Z.of_nat (length (runs_where (fun r => (rr_submission (run_row r) =? submission)
                                         && run_active (run_status r)) db)).
Definition max_run_index (spec : Uuid) (db : SubmissionDb) : option Z :=
  match runs_where (fun r => rr_spec (run_row r) =? spec) db with
  | [] => None
  | kv :: rest => Some (foldr (fun kv acc => Z.max (rr_run_index (run_row kv.2)) acc)
                          (rr_run_index (run_row kv.2)) rest)
  end.
(** [ORDER BY spec_index ASC LIMIT 1]: the first spec after [index]. *)
Definition later_specs (submission : Uuid) (index : Z) (db : SubmissionDb)
  : list (Uuid * SubmissionSpec) :=
  filter (fun kv => (ss_submission kv.2 =? submission) && (index <? ss_index kv.2) = true)
    (map_to_list (su_specs db)).
Definition least_spec (l : list (Uuid * SubmissionSpec)) : option (Uuid * SubmissionSpec) :=
  foldr (fun kv acc => match acc with
                       | Some best => if ss_index best.2 <? ss_index kv.2 then Some best else Some kv
                       | None => Some kv end) None l.
Definition next_spec (submission : Uuid) (index : Z) (db : SubmissionDb) : option (Uuid * SubmissionSpec) :=
  least_spec (later_specs submission index db).

(** The events of a job and kind in the order they occurred, the latest of them
    ([ORDER BY occurred_at DESC LIMIT 1]) and the first queued one. *)
Definition events_of (job : Uuid) (kind : JobEventKind) (events : list JobEvent) : list JobEvent :=
  filter (fun e => je_job e = job /\ je_kind e = kind) events.
Definition latest_event (job : Uuid) (kind : JobEventKind) (events : list JobEvent) : option JobEvent :=
  last (events_of job kind events).
Definition job_queued_event (job : Uuid) (db : SubmissionDb) : option JobEvent :=
  head (events_of job Ev_Queued (su_events db)).
Definition copy_event (job prior : Uuid) (kind : JobEventKind) (events : list JobEvent) : list JobEvent :=
  match latest_event prior kind events with
  | None => events
  | Some e => events ++ [{| je_job := job; je_kind := kind; je_success := je_success e;
                            je_remark := je_remark e; je_detail := je_detail e |}]
  end.
Definition copy_run_provenance_events (job prior : Uuid) (events : list JobEvent) : list JobEvent :=
  copy_event job prior Ev_PlanMessageSent (copy_event job prior Ev_Queued events).

(** A run is inserted under its primary key and the unique pair of spec and index. *)
Definition insert_run (id : Uuid) (row : RunRow) (prior : Uuid) (db : SubmissionDb)
  : result SubmissionDb SubmissionError :=
  let taken := negb (is_nil_list (runs_where (fun r => (rr_spec (run_row r) =? rr_spec row)
                                      && (rr_run_index (run_row r) =? rr_run_index row)) db)) in
  ensure (negb taken) (persistence "duplicate key value") ;?
  let? runs := insert_row id {| run_row := row; run_status := J_Queued |} (su_runs db) in
  Ok {| su_submissions := su_submissions db; su_specs := su_specs db; su_steps := su_steps db;
        su_runs := runs; su_events := copy_run_provenance_events id prior (su_events db);
        su_provenance := su_provenance db; su_github := su_github db; su_slack := su_slack db;
        su_idempotency := su_idempotency db |}.
Definition next_run_row (prior : RunRow) (next_index : Z) : RunRow :=
  {| rr_submission := rr_submission prior; rr_spec := rr_spec prior; rr_run_index := next_index;
     rr_installation := rr_installation prior; rr_repo := rr_repo prior;
     rr_ref_kind := rr_ref_kind prior; rr_ref_display := rr_ref_display prior;
     rr_commit := rr_commit prior; rr_committed_at := rr_committed_at prior;
     rr_workload_key := rr_workload_key prior; rr_source := rr_source prior;
     rr_intent := rr_intent prior; rr_task_kind := rr_task_kind prior;
     rr_build_target := rr_build_target prior;
     rr_capability := required_capability (rr_task_kind prior); rr_payload := None |}.
Definition initial_run_row (submission : Uuid) (sub : TaskSubmissionRow) (id : Uuid) (spec : SubmissionSpec)
  : RunRow :=
  {| rr_submission := submission; rr_spec := id; rr_run_index := 0;
     rr_installation := tsr_installation sub; rr_repo := ss_repo spec;
     rr_ref_kind := ss_ref_kind spec; rr_ref_display := ss_ref_display spec;
     rr_commit := ss_commit spec; rr_committed_at := ss_committed_at spec;
     rr_workload_key := ss_workload_key spec; rr_source := tsr_source sub;
     rr_intent := tsr_intent sub; rr_task_kind := ss_task_kind spec;
     rr_build_target := ss_build_target spec;
     rr_capability := required_capability (ss_task_kind spec); rr_payload := None |}.

(** [append_next_benchmark_run], in one transaction; [new_id] is the new run's. *)
Definition append_next_benchmark_run (new_id completed : Uuid) (db : SubmissionDb)
  : result (option Uuid * SubmissionDb) SubmissionError :=
  match su_runs db !! completed with
  | None => Ok (None, db)
  | Some prior =>
      match su_specs db !! rr_spec (run_row prior) with
      | None => Ok (None, db)
      | Some spec =>
          let row := run_row prior in
          if negb (bool_decide (run_status prior = J_Completed))
             || bool_decide (rr_task_kind row = Kind_BuildOnly)
          then Ok (None, db)
          else if 0 <? active_runs (rr_submission row) db then Ok (None, db)
          else
            let max_index := default 0 (max_run_index (rr_spec row) db) in
            if negb (max_index =? rr_run_index row) then Ok (None, db)
            else
              let next_index := max_index + 1 in
              if next_index <? ss_requested_run_count spec then
                let? db' := insert_run new_id (next_run_row row next_index) completed db in
                Ok (Some new_id, db')
              else
                match next_spec (rr_submission row) (ss_index spec) db with
                | None => Ok (None, db)
                | Some next =>
                    if negb (is_nil_list (runs_where (fun r => rr_spec (run_row r) =? next.1) db))
                    then Ok (None, db)
                    else
                      match su_submissions db !! rr_submission row with
                      | None => Err (persistence "no rows returned")
                      | Some sub =>
                          let? db' := insert_run new_id
                              (initial_run_row (rr_submission row) sub next.1 next.2) completed db in
                          Ok (Some new_id, db')
                      end
                end
      end
  end.

(** ** Queries *)
Section Queries.
Lemma elem_runs_where p db id r :
  (id, r) ∈ runs_where p db <-> su_runs db !! id = Some r /\ p r = true.
Proof. unfold runs_where. rewrite list_elem_of_filter, elem_of_map_to_list. simpl. tauto. Qed.
Lemma no_runs_where p db :
  is_nil_list (runs_where p db) = true -> forall id r, su_runs db !! id = Some r -> p r = false.
Proof.
  destruct (runs_where p db) as [|kv l] eqn:E; [|done]. intros _ id r Hr.
  destruct (p r) eqn:Hp; [|done]. assert (Hin : (id, r) ∈ runs_where p db) by (by apply elem_runs_where).
  rewrite E in Hin. by apply not_elem_of_nil in Hin.
Qed.
Lemma runs_where_nil p db :
  (forall id r, su_runs db !! id = Some r -> p r = false) -> runs_where p db = [].
Proof.
  intros Hno. destruct (runs_where p db) as [|[id r] l] eqn:E; [done|].
  assert (Hin : (id, r) ∈ runs_where p db) by (rewrite E; by left).
  apply elem_runs_where in Hin as [Hr Hp]. by rewrite (Hno _ _ Hr) in Hp.
Qed.

Lemma foldr_max (l : list (Uuid * Run)) (m0 : Z) :
  let f (kv : Uuid * Run) := rr_run_index (run_row kv.2) in
  let m := foldr (fun kv acc => Z.max (f kv) acc) m0 l in
  m0 <= m /\ Forall (fun kv => f kv <= m) l /\ (m = m0 \/ Exists (fun kv => m = f kv) l).
Proof.
  intros f m. subst m. induction l as [|kv l (IH1 & IH2 & IH3)]; simpl; [by split_and!; [lia|constructor|left]|].
  set (m := foldr _ m0 l) in *. split_and!; [lia| |].
  - constructor; [lia|]. eapply Forall_impl; [exact IH2|]. simpl. lia.
  - destruct (Z.max_spec (f kv) m) as [[_ ->]|[_ ->]]; [|by right; left].
    destruct IH3 as [IH3|IH3]; [by left | right; by right].
Qed.
Lemma max_run_index_spec spec db id r :
  su_runs db !! id = Some r -> rr_spec (run_row r) = spec ->
  exists m, max_run_index spec db = Some m /\ rr_run_index (run_row r) <= m
  /\ exists id' r', su_runs db !! id' = Some r' /\ rr_spec (run_row r') = spec
                    /\ rr_run_index (run_row r') = m.
Proof.
  intros Hr Hs. unfold max_run_index.
  assert (Hin : (id, r) ∈ runs_where (fun r => rr_spec (run_row r) =? spec) db)
    by (apply elem_runs_where; split; [done | by apply Z.eqb_eq]).
  assert (Hall : Forall (fun kv => su_runs db !! kv.1 = Some kv.2 /\ rr_spec (run_row kv.2) = spec)
                   (runs_where (fun r => rr_spec (run_row r) =? spec) db)).
  { apply Forall_forall. intros [i x] Hx. apply elem_runs_where in Hx as [Hx He].
    apply Z.eqb_eq in He. done. }
  destruct (runs_where _ db) as [|kv l]; [by apply not_elem_of_nil in Hin|].
  destruct (foldr_max l (rr_run_index (run_row kv.2))) as (H1 & H2 & H3). simpl in H1, H2, H3.
  eexists. split; [done|]. inversion Hall as [|? ? Hkv Hl]; subst. split.
  - apply elem_of_cons in Hin as [<-|Hin]; [done|]. rewrite Forall_forall in H2. by apply (H2 (id, r)).
  - destruct H3 as [->|H3]; [by exists kv.1, kv.2; destruct Hkv|].
    apply Exists_exists in H3 as (kv' & Hin' & ->). rewrite Forall_forall in Hl.
    destruct (Hl _ Hin'). by exists kv'.1, kv'.2.
Qed.

Lemma elem_later_specs S i db id spec :
  (id, spec) ∈ later_specs S i db <->
  su_specs db !! id = Some spec /\ ss_submission spec = S /\ i < ss_index spec.
Proof.
  unfold later_specs. rewrite list_elem_of_filter, elem_of_map_to_list. simpl.
  rewrite andb_true_iff, Z.eqb_eq, Z.ltb_lt. tauto.
Qed.
Lemma least_spec_Some l kv :
  least_spec l = Some kv -> kv ∈ l /\ Forall (fun kv' => ss_index kv.2 <= ss_index kv'.2) l.
Proof.
  revert kv. induction l as [|x l IH]; intros kv; [done|]. cbn [least_spec foldr].
  fold (least_spec l). destruct (least_spec l) as [best|] eqn:E.
  - destruct (IH best eq_refl) as [Hin Hall]. destruct (Z.ltb_spec (ss_index best.2) (ss_index x.2));
      intros [= <-].
    + split; [by right|]. constructor; [lia | done].
    + split; [by left|]. constructor; [lia|]. eapply Forall_impl; [exact Hall|]. simpl. lia.
  - intros [= <-]. split; [by left|]. constructor; [lia|].
    destruct l as [|y l]; [constructor|]. cbn [least_spec foldr] in E. by repeat case_match.
Qed.
Lemma least_spec_None l : least_spec l = None -> l = [].
Proof. destruct l as [|x l]; [done|]. cbn [least_spec foldr]. by repeat case_match. Qed.

Lemma next_spec_Some S i db id spec :
  next_spec S i db = Some (id, spec) ->
  su_specs db !! id = Some spec /\ ss_submission spec = S /\ i < ss_index spec
  /\ forall id' spec', su_specs db !! id' = Some spec' -> ss_submission spec' = S ->
       i < ss_index spec' -> ss_index spec <= ss_index spec'.
Proof.
  intros Hn. apply least_spec_Some in Hn as [Hin Hall]. apply elem_later_specs in Hin as (H1 & H2 & H3).
  split_and!; try done. intros id' spec' H1' H2' H3'. rewrite Forall_forall in Hall.
  apply (Hall (id', spec')). by apply elem_later_specs.
Qed.
Lemma next_spec_None S i db :
  next_spec S i db = None ->
  forall id spec, su_specs db !! id = Some spec -> ss_submission spec = S -> ss_index spec <= i.
Proof.
  intros Hn id spec H1 H2. apply least_spec_None in Hn. destruct (Z.leb_spec (ss_index spec) i); [done|].
  assert (Hin : (id, spec) ∈ later_specs S i db) by (by apply elem_later_specs).
  rewrite Hn in Hin. by apply not_elem_of_nil in Hin.
Qed.

Lemma events_of_app job kind es es' : events_of job kind (es ++ es') = events_of job kind es ++ events_of job kind es'.
Proof. apply filter_app. Qed.
Lemma events_of_other job kind es :
  Forall (fun e => je_job e <> job \/ je_kind e <> kind) es -> events_of job kind es = [].
Proof.
  unfold events_of. induction 1 as [|e es He _ IH]; [done|]. rewrite filter_cons_False; [done|]. tauto.
Qed.
Lemma events_of_one job kind e : je_job e = job -> je_kind e = kind -> events_of job kind [e] = [e].
Proof. intros H1 H2. unfold events_of. by rewrite filter_cons_True, filter_nil. Qed.
(** Copied events belong to the new job. *)
Lemma copy_event_spec job prior kind es :
  exists more, copy_event job prior kind es = es ++ more
    /\ Forall (fun e => je_job e = job /\ je_kind e = kind) more.
Proof.
  unfold copy_event. destruct (latest_event prior kind es) as [e|]; [|exists []; by rewrite app_nil_r].
  eexists. split; [done|]. by apply Forall_singleton.
Qed.
Lemma events_of_copy job prior kind kind' id es :
  id <> job \/ kind' <> kind -> events_of id kind' (copy_event job prior kind es) = events_of id kind' es.
Proof.
  intros Hne. destruct (copy_event_spec job prior kind es) as (more & -> & Hm).
  rewrite events_of_app, (events_of_other id kind' more), app_nil_r; [done|].
  eapply Forall_impl; [exact Hm|]. naive_solver.
Qed.
Lemma queued_copied job prior es e :
  events_of prior Ev_Queued es = [e] -> events_of job Ev_Queued es = [] ->
  exists e', events_of job Ev_Queued (copy_run_provenance_events job prior es) = [e']
             /\ je_detail e' = je_detail e.
Proof.
  intros He Hno. unfold copy_run_provenance_events. rewrite events_of_copy by (right; discriminate).
  unfold copy_event, latest_event. rewrite He. cbn [last].
  rewrite events_of_app, Hno, events_of_one by done. by eexists.
Qed.
Lemma copied_events job prior es e :
  e ∈ copy_run_provenance_events job prior es -> e ∈ es \/ je_job e = job.
Proof.
  unfold copy_run_provenance_events.
  destruct (copy_event_spec job prior Ev_Queued es) as (m1 & -> & H1).
  destruct (copy_event_spec job prior Ev_PlanMessageSent (es ++ m1)) as (m2 & -> & H2).
  rewrite Forall_forall in H1, H2. rewrite !elem_of_app. naive_solver.
Qed.
End Queries.
