(* ===== verification/SubmissionRecovery.v ===== *)
(** * What the fleet store writes in the rows of a submission

    Three transactions of crates/sbgh-postgres/src/stores/fleet.rs change the tables
    of SubmissionStore: the freezing of a submission's sources
    ([freeze_submission_sources]), the preparation of a queued run
    ([prepare_execution]) and the recovery of a benchmark as a new submission
    ([recover_submission]).  FleetAdmin, FleetScheduling and FleetRecovery have their
    effect on the tables of the fleet; here is their effect on the tables of
    submissions.  What they read of the fleet's tables is an argument: [admitted] is
    the answer of the scheduler policy, [target_ok] and [active] those of the checks on
    the target worker and on attempts, [owing] the jobs with a pending cleanup. *)
From stdpp Require Import base list strings gmap.
From Stdlib Require Import ZArith Lia.
From S2P Require Import Prelude RustStr Json JsonText FleetModel Negotiation Validate FleetDb FleetScheduling FleetAdmin FleetRecovery.
From S2P Require Import Workload Intent Submission SubmissionStore.

Local Open Scope Z_scope.

Definition set_runs (f : gmap Uuid Run -> gmap Uuid Run) (db : SubmissionDb) : SubmissionDb :=
  {| su_submissions := su_submissions db; su_specs := su_specs db; su_steps := su_steps db;
     su_runs := f (su_runs db); su_events := su_events db; su_provenance := su_provenance db;
     su_github := su_github db; su_slack := su_slack db; su_idempotency := su_idempotency db |}.
Definition set_specs (f : gmap Uuid SubmissionSpec -> gmap Uuid SubmissionSpec) (db : SubmissionDb)
  : SubmissionDb :=
  {| su_submissions := su_submissions db; su_specs := f (su_specs db); su_steps := su_steps db;
     su_runs := su_runs db; su_events := su_events db; su_provenance := su_provenance db;
     su_github := su_github db; su_slack := su_slack db; su_idempotency := su_idempotency db |}.
Definition add_event (e : JobEvent) (db : SubmissionDb) : SubmissionDb :=
  {| su_submissions := su_submissions db; su_specs := su_specs db; su_steps := su_steps db;
     su_runs := su_runs db; su_events := su_events db ++ [e]; su_provenance := su_provenance db;
     su_github := su_github db; su_slack := su_slack db; su_idempotency := su_idempotency db |}.

(** ** Freezing and preparation *)
Definition with_run_commit (commit : rstr) (payload : option (TaskPayload * rstr)) (r : Run) : Run :=
  let row := run_row r in
  {| run_row :=
       {| rr_submission := rr_submission row; rr_spec := rr_spec row;
          rr_run_index := rr_run_index row; rr_installation := rr_installation row;
          rr_repo := rr_repo row; rr_ref_kind := rr_ref_kind row;
          rr_ref_display := rr_ref_display row; rr_commit := Some commit;
          rr_committed_at := rr_committed_at row; rr_workload_key := rr_workload_key row;
          rr_source := rr_source row; rr_intent := rr_intent row;
          rr_task_kind := rr_task_kind row; rr_build_target := rr_build_target row;
          rr_capability := rr_capability row; rr_payload := payload |};
     run_status := run_status r |}.
Definition with_spec_commit (commit : rstr) (x : SubmissionSpec) : SubmissionSpec :=
  {| ss_submission := ss_submission x; ss_index := ss_index x;
     ss_requested_run_count := ss_requested_run_count x; ss_calibration := ss_calibration x;
     ss_repo := ss_repo x; ss_task_kind := ss_task_kind x; ss_build_target := ss_build_target x;
     ss_ref_kind := ss_ref_kind x; ss_ref_display := ss_ref_display x;
     ss_commit := Some commit; ss_committed_at := ss_committed_at x;
     ss_workload_key := ss_workload_key x |}.
Definition spec_rows (submission : Uuid) (db : SubmissionDb) : list (Uuid * SubmissionSpec) :=
  sort_by (fun x y => ss_index x.2 <? ss_index y.2)
    (rows (fun _ x => ss_submission x =? submission) (su_specs db)).

(** A commit other than the one given, up to case. *)
Definition other_commit (commit : rstr) (c : option rstr) : bool :=
  match c with Some c => negb (eq_ignore_ascii_case c commit) | None => false end.
(** The loop over the specs of the submission: [None] when one is not resolved. *)
Fixpoint freeze_rows (specs : list (Uuid * SubmissionSpec)) (resolved : gmap Uuid rstr)
    (db : SubmissionDb) : result (option SubmissionDb) StoreError :=
  match specs with
  | [] => Ok (Some db)
  | (id, x) :: rest =>
      match resolved !! id with
      | None => Ok None
      | Some commit =>
          if other_commit commit (ss_commit x)
          then Err (Config "benchmark spec is already frozen to a different commit")
          else if exists_row (fun _ r => (rr_spec (run_row r) =? id)
                    && other_commit commit (rr_commit (run_row r))) (su_runs db)
          then Err (Config "benchmark spec has a job at a different commit")
          else
            let db := set_specs <[id := with_spec_commit commit x]> db in
            let db := set_runs (update_where (fun _ r => (rr_spec (run_row r) =? id)
                && bool_decide (run_status r = J_Queued)
                && bool_decide (rr_commit (run_row r) = None))
              (fun r => with_run_commit commit (rr_payload (run_row r)) r)) db in
            freeze_rows rest resolved db
      end
  end.
(** [freeze_submission_sources]. *)
Definition freeze_sources (admitted : bool) (submission : Uuid) (sources : list ResolvedSpecSource)
    (db : SubmissionDb) : result (bool * SubmissionDb) StoreError :=
  match resolved_sources sources ∅ with
  | None =>
      Err (Config "group source resolutions must contain unique specs and immutable commits")
  | Some resolved =>
      if negb admitted then Ok (false, db)
      else
        let specs := spec_rows submission db in
        if is_nil_list specs || negb (length specs =? size resolved)%nat then Ok (false, db)
        else
          let? out := freeze_rows specs resolved db in
          Ok (match out with Some db' => (true, db') | None => (false, db) end)
  end.

(** [prepare_execution]. *)
Definition prepare_run (admitted : bool) (p : PreparedExecution) (db : SubmissionDb)
  : result (bool * SubmissionDb) StoreError :=
  if negb admitted then Ok (false, db)
  else
    match su_runs db !! px_job p with
    | Some r =>
        if bool_decide (run_status r = J_Queued) && bool_decide (rr_payload (run_row r) = None) then
          if payload_hash_check (px_payload_hash p)
          then Ok (true, set_runs <[px_job p := with_run_commit (px_commit p)
                     (Some (px_payload p, px_payload_hash p)) r]> db)
          else Err (Constraint "job_execution_payload_all_or_none")
        else Ok (false, db)
    | None => Ok (false, db)
    end.

(** ** Recovery *)

(** The body of the loop over the abandoned obligations. *)
Definition abandon_run (submission : Uuid) (reason : rstr) (db : SubmissionDb) (job : Uuid)
  : SubmissionDb :=
  match su_runs db !! job with
  | Some r =>
      if decide (run_status r = J_Running) then
        add_event {| je_job := job; je_kind := Ev_Cancelled; je_success := true;
            je_remark := Some reason;
            je_detail := Some (jobj [("recovery", jstr (lit "operator_abandoned_remote_cleanup"));
                                     ("prior_submission_id", juuid submission)]) |}
          (set_runs <[job := {| run_row := run_row r; run_status := J_Cancelled |}]> db)
      else db
  | None => db
  end.
Definition recovered_submission (id : Uuid) (target : option Uuid) (prior : TaskSubmissionRow)
  : TaskSubmissionRow :=
  {| tsr_installation := tsr_installation prior; tsr_repo := tsr_repo prior;
     tsr_source := tsr_source prior; tsr_intent := tsr_intent prior;
     tsr_artifact_prefix := uuid_string id; tsr_contract_version := tsr_contract_version prior;
     tsr_request_digest := tsr_request_digest prior; tsr_required_worker := target;
     tsr_required_profile := tsr_required_profile prior |}.
Definition recovered_spec (submission : Uuid) (x : SubmissionSpec) : SubmissionSpec :=
  {| ss_submission := submission; ss_index := ss_index x;
     ss_requested_run_count := ss_requested_run_count x; ss_calibration := ss_calibration x;
     ss_repo := ss_repo x; ss_task_kind := ss_task_kind x; ss_build_target := ss_build_target x;
     ss_ref_kind := ss_ref_kind x; ss_ref_display := ss_ref_display x; ss_commit := ss_commit x;
     ss_committed_at := ss_committed_at x; ss_workload_key := ss_workload_key x |}.
(** The identifier drawn for the copy of the spec with this index. *)
Definition copy_id (ids : NewIds) (x : SubmissionSpec) : Uuid := ni_spec ids (Z.to_nat (ss_index x)).
Fixpoint copy_spec_rows (ids : NewIds) (specs : list (Uuid * SubmissionSpec))
    (m : gmap Uuid SubmissionSpec) : result (gmap Uuid SubmissionSpec) SubmissionError :=
  match specs with
  | [] => Ok m
  | (_, x) :: rest =>
      let? m := insert_row (copy_id ids x) (recovered_spec (ni_submission ids) x) m in
      copy_spec_rows ids rest m
  end.
(** The steps, each with the copy of its spec. *)
Definition recovered_steps (ids : NewIds) (submission : Uuid) (db : SubmissionDb)
  : list WorkflowStepRow :=
  omap (fun w => x ← su_specs db !! wsr_spec w;
                 Some {| wsr_submission := ni_submission ids; wsr_index := wsr_index w;
                         wsr_kind := wsr_kind w; wsr_spec := copy_id ids x |})
    (sort_by (fun x y => wsr_index x <? wsr_index y)
       (List.filter (fun w => wsr_submission w =? submission) (su_steps db))).
(** The first run of the submission; the unique pair of spec and index leaves one. *)
Definition first_run (submission : Uuid) (db : SubmissionDb) : option (Uuid * Run) :=
  head (rows (fun _ r => (rr_run_index (run_row r) =? 0)
                && match su_specs db !! rr_spec (run_row r) with
                   | Some x => (ss_submission x =? submission) && (ss_index x =? 0)
                   | None => false
                   end) (su_runs db)).
Definition recovered_run (ids : NewIds) (old : Run) : Run :=
  let row := run_row old in
  {| run_row :=
       {| rr_submission := ni_submission ids; rr_spec := ni_spec ids 0; rr_run_index := 0;
          rr_installation := rr_installation row; rr_repo := rr_repo row;
          rr_ref_kind := rr_ref_kind row; rr_ref_display := rr_ref_display row;
          rr_commit := rr_commit row; rr_committed_at := rr_committed_at row;
          rr_workload_key := rr_workload_key row; rr_source := rr_source row;
          rr_intent := rr_intent row; rr_task_kind := rr_task_kind row;
          rr_build_target := rr_build_target row; rr_capability := rr_capability row;
          rr_payload := rr_payload row |};
     run_status := J_Queued |}.
Definition recovered_github (row : GithubRow) : GithubRow :=
  {| ghr_webhook_id := None; ghr_triggering_user_id := ghr_triggering_user_id row;
     ghr_pull_request_id := ghr_pull_request_id row;
     ghr_triggering_comment_id := ghr_triggering_comment_id row |}.
(** [INSERT ... SELECT] of at most one row, and the Slack row that moves. *)
Definition copy_row {A} (f : A -> A) (old new : Uuid) (m : gmap Uuid A) : gmap Uuid A :=
  match m !! old with Some row => <[new := f row]> m | None => m end.
Definition move_row {A} (old new : Uuid) (m : gmap Uuid A) : gmap Uuid A :=
  match m !! old with Some row => <[new := row]> (delete old m) | None => m end.
Definition job_of (submission : Uuid) (db : SubmissionDb) (job : Uuid) : bool :=
  match su_runs db !! job with
  | Some r => rr_submission (run_row r) =? submission
  | None => false
  end.

(** The rows of the new generation, once the prior one is given up. *)
Definition add_generation (ids : NewIds) (submission : Uuid) (target : option Uuid)
    (reason : rstr) (prior : TaskSubmissionRow) (db : SubmissionDb)
  : result SubmissionDb StoreError :=
  let constraint (_ : SubmissionError) := Constraint "duplicate key value" in
  let? submissions := map_err constraint (insert_row (ni_submission ids)
      (recovered_submission (ni_submission ids) target prior) (su_submissions db)) in
  let? specs := map_err constraint (copy_spec_rows ids (spec_rows submission db) (su_specs db)) in
  match first_run submission db with
  | None => Err (Config "no such row")
  | Some (old, r) =>
      let? runs := map_err constraint (insert_row (ni_job ids) (recovered_run ids r) (su_runs db)) in
      Ok {| su_submissions := submissions; su_specs := specs;
            su_steps := su_steps db ++ recovered_steps ids submission db; su_runs := runs;
            su_events := su_events db
                         ++ FleetRecovery.copied_events old (ni_job ids) reason (su_events db);
            su_provenance := copy_row id submission (ni_submission ids) (su_provenance db);
            su_github := copy_row recovered_github submission (ni_submission ids) (su_github db);
            su_slack := move_row submission (ni_submission ids) (su_slack db);
            su_idempotency := su_idempotency db |}
  end.
(** [recover_submission]. *)
Definition recover_rows (ids : NewIds) (submission : Uuid) (target : option Uuid) (reason : rstr)
    (target_ok active : bool) (owing : list Uuid) (db : SubmissionDb) : result SubmissionDb StoreError :=
  ensure (negb (is_empty (trim reason)) && (str_len reason <=? 1024))
    (Config "submission recovery requires a concise operator reason") ;?
  ensure (match target with Some _ => target_ok | None => true end)
    (Config "recovery target is not an enabled, non-draining benchmark worker") ;?
  match su_submissions db !! submission with
  | Some prior =>
      ensure (negb (is_nil_list (spec_rows submission db))
              && forallb (fun kv => bool_decide (ss_task_kind kv.2 = Kind_Benchmark))
                   (spec_rows submission db))
        (Config "submission does not exist or is not a benchmark comparison generation") ;?
      ensure (negb active) (Config "benchmark submission still has active work") ;?
      add_generation ids submission target reason prior
        (foldl (abandon_run submission reason) db (List.filter (job_of submission db) owing))
  | None => Err (Config "submission does not exist or is not a benchmark comparison generation")
  end.
