(* ===== verification/RunChain.v ===== *)
(** * The runs of a submission

    The tables of submissions as a transition system: submissions are persisted, runs
    change status, completed runs ask for the next one, sources are frozen, runs are
    prepared, and submissions are recovered as new ones.  The invariant of its
    reachable states says that the runs of a submission are a prefix of its plan, in
    order and without repetition, and that each run carries the data of its spec and
    the provenance of its submission.  The file also has the composition with the
    preparation of payloads. *)
From stdpp Require Import base list strings gmap.
From Stdlib Require Import ZArith Lia.
From S2P Require Import Prelude RustStr Json JsonText FleetModel Negotiation Validate FleetDb FleetScheduling FleetAdmin FleetRecovery Workload Intent Submission SubmissionStore SubmissionRecovery.

Local Open Scope Z_scope.

Definition empty_store : SubmissionDb :=
  {| su_submissions := ∅; su_specs := ∅; su_steps := []; su_runs := ∅; su_events := [];
     su_provenance := ∅; su_github := ∅; su_slack := ∅; su_idempotency := ∅ |}.
(** A run that is not terminal may be claimed, started, requeued or ended by the
    other statements on [job]; they leave the columns of its row alone. *)
Definition set_run_status (id : Uuid) (s : JobStatus) (db : SubmissionDb) : SubmissionDb :=
  match su_runs db !! id with
  | Some r =>
      if job_terminal (run_status r) then db
      else {| su_submissions := su_submissions db; su_specs := su_specs db; su_steps := su_steps db;
              su_runs := <[id := {| run_row := run_row r; run_status := s |}]> (su_runs db);
              su_events := su_events db; su_provenance := su_provenance db;
              su_github := su_github db; su_slack := su_slack db;
              su_idempotency := su_idempotency db |}
  | None => db
  end.

Section Steps.
Context `{DigestEnv}.

(** The coordinator prepares a run with the commit it has frozen the run's spec to
    (coordinator.rs, [prepare_job]). *)
Definition prepares_frozen (commit : rstr) (r : Run) (db : SubmissionDb) : Prop :=
  exists spec c, su_specs db !! rr_spec (run_row r) = Some spec /\ ss_commit spec = Some c
    /\ eq_ignore_ascii_case commit c = true.

(** The transactions on the tables of submissions: creation, the next run, every
    change of a run's status, and those of the fleet store. *)
Inductive store_step : SubmissionDb -> SubmissionDb -> Prop :=
| step_persist e c ids p seen db :
    prepare e c = Ok p -> store_step db (persist_submission ids p seen db).2
| step_append new_id completed made db db' :
    append_next_benchmark_run new_id completed db = Ok (made, db') -> store_step db db'
| step_status id s db : store_step db (set_run_status id s db)
| step_freeze admitted submission sources frozen db db' :
    freeze_sources admitted submission sources db = Ok (frozen, db') -> store_step db db'
| step_prepare admitted p prepared db db' :
    (forall r, su_runs db !! px_job p = Some r -> prepares_frozen (px_commit p) r db) ->
    prepare_run admitted p db = Ok (prepared, db') -> store_step db db'
| step_recover ids submission target reason target_ok active owing db db' :
    recover_rows ids submission target reason target_ok active owing db = Ok db' ->
    store_step db db'.
Definition store_reachable : SubmissionDb -> Prop := rtc store_step empty_store.

(** ** The invariant *)
Definition before (i j i' j' : Z) : Prop := i < i' \/ (i = i' /\ j < j').
(** One commit, up to the case of its digits. *)
Definition same_commit (c c' : option rstr) : Prop :=
  exists x y, c = Some x /\ c' = Some y /\ eq_ignore_ascii_case x y = true.
Lemma eq_case_refl a : eq_ignore_ascii_case a a = true.
Proof. unfold eq_ignore_ascii_case, rstr_eqb. by apply bool_decide_eq_true. Qed.
Lemma eq_case_sym a b : eq_ignore_ascii_case a b = true -> eq_ignore_ascii_case b a = true.
Proof. unfold eq_ignore_ascii_case, rstr_eqb. rewrite !bool_decide_eq_true. by intros. Qed.
Lemma eq_case_trans a b c :
  eq_ignore_ascii_case a b = true -> eq_ignore_ascii_case b c = true -> eq_ignore_ascii_case a c = true.
Proof. unfold eq_ignore_ascii_case, rstr_eqb. rewrite !bool_decide_eq_true. by intros -> ->. Qed.
(** A run repeats the columns of its spec. *)
Definition run_matches (r : RunRow) (spec : SubmissionSpec) : Prop :=
  rr_submission r = ss_submission spec /\ rr_repo r = ss_repo spec
  /\ rr_task_kind r = ss_task_kind spec /\ rr_build_target r = ss_build_target spec
  /\ rr_ref_kind r = ss_ref_kind spec /\ rr_ref_display r = ss_ref_display spec
  /\ same_commit (rr_commit r) (ss_commit spec) /\ rr_committed_at r = ss_committed_at spec
  /\ rr_workload_key r = ss_workload_key spec.
Record run_ok (db : SubmissionDb) (id : Uuid) (r : Run) : Prop := {
  ro_spec : exists spec, su_specs db !! rr_spec (run_row r) = Some spec
    /\ run_matches (run_row r) spec
    /\ 0 <= rr_run_index (run_row r) < ss_requested_run_count spec;
  ro_queued : exists pv e, su_provenance db !! rr_submission (run_row r) = Some pv
    /\ events_of id Ev_Queued (su_events db) = [e] /\ je_detail e = Some (pvr_detail pv)
}.
(** Every position of the plan before a run's has a completed run. *)
Definition earlier_done (db : SubmissionDb) (S i j : Z) : Prop :=
  forall sid spec j', su_specs db !! sid = Some spec -> ss_submission spec = S ->
    0 <= j' < ss_requested_run_count spec -> before (ss_index spec) j' i j ->
    exists id r, su_runs db !! id = Some r /\ rr_spec (run_row r) = sid
      /\ rr_run_index (run_row r) = j' /\ run_status r = J_Completed.
Record store_wf (db : SubmissionDb) : Prop := {
  wf_run : forall id r, su_runs db !! id = Some r -> run_ok db id r;
  wf_unique : forall id id' r r', su_runs db !! id = Some r -> su_runs db !! id' = Some r' ->
    rr_spec (run_row r) = rr_spec (run_row r') -> rr_run_index (run_row r) = rr_run_index (run_row r') ->
    id = id';
  wf_chain : forall id r spec, su_runs db !! id = Some r ->
    su_specs db !! rr_spec (run_row r) = Some spec ->
    earlier_done db (rr_submission (run_row r)) (ss_index spec) (rr_run_index (run_row r));
  wf_spec : forall sid spec, su_specs db !! sid = Some spec ->
    0 <= ss_index spec /\ 1 <= ss_requested_run_count spec
    /\ is_Some (su_submissions db !! ss_submission spec) /\ is_Some (ss_commit spec);
  wf_spec_unique : forall sid sid' spec spec', su_specs db !! sid = Some spec ->
    su_specs db !! sid' = Some spec' -> ss_submission spec = ss_submission spec' ->
    ss_index spec = ss_index spec' -> sid = sid';
  wf_dense : forall sid spec k, su_specs db !! sid = Some spec -> 0 <= k < ss_index spec ->
    exists sid' spec', su_specs db !! sid' = Some spec' /\ ss_submission spec' = ss_submission spec
      /\ ss_index spec' = k;
  wf_first : forall S row, su_submissions db !! S = Some row ->
    exists id r spec, su_runs db !! id = Some r /\ rr_submission (run_row r) = S
      /\ rr_run_index (run_row r) = 0 /\ su_specs db !! rr_spec (run_row r) = Some spec
      /\ ss_index spec = 0;
  wf_events : forall e, e ∈ su_events db -> is_Some (su_runs db !! je_job e)
}.
Lemma no_events db id kind : store_wf db -> su_runs db !! id = None -> events_of id kind (su_events db) = [].
Proof.
  intros Hwf Hn. apply events_of_other. apply Forall_forall. intros e He. left. intros <-.
  destruct (wf_events _ Hwf _ He) as [r Hr]. congruence.
Qed.

(** ** New runs *)
Lemma insert_run_Ok id row prior db db' :
  insert_run id row prior db = Ok db' ->
  su_runs db !! id = None
  /\ (forall i r, su_runs db !! i = Some r ->
        ~ (rr_spec (run_row r) = rr_spec row /\ rr_run_index (run_row r) = rr_run_index row))
  /\ db' = {| su_submissions := su_submissions db; su_specs := su_specs db; su_steps := su_steps db;
              su_runs := <[id := {| run_row := row; run_status := J_Queued |}]> (su_runs db);
              su_events := copy_run_provenance_events id prior (su_events db);
              su_provenance := su_provenance db; su_github := su_github db; su_slack := su_slack db;
              su_idempotency := su_idempotency db |}.
Proof.
  unfold insert_run. intros Hi. destruct (ensure _ _) as [[]|] eqn:E; [|done].
  apply ensure_Ok in E. rewrite negb_involutive in E. unfold insert_row in Hi.
  destruct (su_runs db !! id) eqn:En; [done|]. injection Hi as <-. split_and!; try done.
  intros i r Hr [H1 H2]. pose proof (no_runs_where _ _ E i r Hr) as Hf. simpl in Hf. lia.
Qed.

Lemma insert_run_wf id row prior p spec db db' :
  store_wf db -> insert_run id row prior db = Ok db' ->
  su_runs db !! prior = Some p -> rr_submission (run_row p) = rr_submission row ->
  su_specs db !! rr_spec row = Some spec -> run_matches row spec ->
  0 <= rr_run_index row < ss_requested_run_count spec ->
  earlier_done db (rr_submission row) (ss_index spec) (rr_run_index row) ->
  store_wf db'.
Proof.
  intros Hwf Hi Hp Hsub Hspec Hm Hj Hdone. destruct (insert_run_Ok _ _ _ _ _ Hi) as (Hnew & Hfree & ->).
  assert (Hmono : forall S i j, earlier_done db S i j -> earlier_done
    {| su_submissions := su_submissions db; su_specs := su_specs db; su_steps := su_steps db;
       su_runs := <[id := {| run_row := row; run_status := J_Queued |}]> (su_runs db);
       su_events := copy_run_provenance_events id prior (su_events db);
       su_provenance := su_provenance db; su_github := su_github db; su_slack := su_slack db;
       su_idempotency := su_idempotency db |} S i j).
  { intros S i j Hd sid sp j' H1 H2 H3 H4. destruct (Hd sid sp j' H1 H2 H3 H4) as (x & r & Hx & Hr).
    exists x, r. split; [|done]. simpl. rewrite lookup_insert_ne; [done|]. congruence. }
  split; cbn [su_runs su_specs su_submissions su_events su_provenance].
  - intros x r Hx. apply lookup_insert_Some in Hx as [[<- <-]|[Hne Hx]]; split;
      cbn [su_specs su_provenance su_events run_row].
    + by exists spec.
    + destruct (ro_queued _ _ _ (wf_run _ Hwf _ _ Hp)) as (pv & e & Hpv & He & Hd).
      destruct (queued_copied id prior _ _ He (no_events _ _ _ Hwf Hnew)) as (e' & He' & Hd').
      exists pv, e'. rewrite <- Hsub. split_and!; [done | done | congruence].
    + apply (ro_spec _ _ _ (wf_run _ Hwf _ _ Hx)).
    + destruct (ro_queued _ _ _ (wf_run _ Hwf _ _ Hx)) as (pv & e & Hpv & He & Hd).
      exists pv, e. unfold copy_run_provenance_events. rewrite !events_of_copy by (left; done). done.
  - intros x y r r' Hx Hy Hs Hr.
    apply lookup_insert_Some in Hx as [[<- <-]|[Hnx Hx]], Hy as [[<- <-]|[Hny Hy]]; [done| | |].
    + by destruct (Hfree _ _ Hy).
    + by destruct (Hfree _ _ Hx).
    + by apply (wf_unique _ Hwf x y r r').
  - intros x r sp Hx Hsp. apply Hmono.
    apply lookup_insert_Some in Hx as [[<- <-]|[Hne Hx]]; simpl in *.
    + rewrite Hspec in Hsp. injection Hsp as <-. done.
    + by apply (wf_chain _ Hwf x).
  - apply (wf_spec _ Hwf).
  - apply (wf_spec_unique _ Hwf).
  - apply (wf_dense _ Hwf).
  - intros S rw HS. destruct (wf_first _ Hwf S rw HS) as (x & r & sp & Hx & Hr).
    exists x, r, sp. split; [|done]. rewrite lookup_insert_ne; [done|]. congruence.
  - intros e He. destruct (copied_events _ _ _ _ He) as [Ho| ->].
    + apply lookup_insert_is_Some'. right. by apply (wf_events _ Hwf).
    + rewrite lookup_insert, decide_True by done. by eexists.
Qed.

(** Completing a run extends the finished prefix by its position. *)
Lemma earlier_done_next db id r spec i j :
  store_wf db -> su_runs db !! id = Some r -> run_status r = J_Completed ->
  su_specs db !! rr_spec (run_row r) = Some spec ->
  (forall sid sp j', su_specs db !! sid = Some sp -> ss_submission sp = rr_submission (run_row r) ->
     0 <= j' < ss_requested_run_count sp -> before (ss_index sp) j' i j ->
     before (ss_index sp) j' (ss_index spec) (rr_run_index (run_row r))
     \/ (ss_index sp = ss_index spec /\ j' = rr_run_index (run_row r))) ->
  earlier_done db (rr_submission (run_row r)) i j.
Proof.
  intros Hwf Hr Hc Hspec Hpos sid sp j' Hsp Hsub Hj Hb.
  destruct (Hpos _ _ _ Hsp Hsub Hj Hb) as [Hb'|[Hi ->]].
  - by apply (wf_chain _ Hwf id r spec Hr Hspec sid sp).
  - destruct (ro_spec _ _ _ (wf_run _ Hwf _ _ Hr)) as (spec' & Hs' & (Hm & _) & _).
    rewrite Hspec in Hs'. injection Hs' as <-.
    assert (sid = rr_spec (run_row r)) as ->
      by (apply (wf_spec_unique _ Hwf _ _ sp spec); congruence).
    by exists id, r.
Qed.

Lemma append_wf new_id completed made db db' :
  store_wf db -> append_next_benchmark_run new_id completed db = Ok (made, db') -> store_wf db'.
Proof.
  intros Hwf. unfold append_next_benchmark_run.
  destruct (su_runs db !! completed) as [p|] eqn:Hp; [|by intros [= _ <-]].
  destruct (su_specs db !! rr_spec (run_row p)) as [spec|] eqn:Hspec; [|by intros [= _ <-]].
  destruct (negb _ || _) eqn:Eg; [by intros [= _ <-]|]. bool_hyps.
  destruct (0 <? active_runs _ _); [by intros [= _ <-]|].
  destruct (max_run_index_spec _ _ _ _ Hp eq_refl) as (mx & -> & Hle & _). cbn [default from_option id].
  destruct (mx =? rr_run_index (run_row p)) eqn:Em; cbn [negb]; [|by intros [= _ <-]].
  apply Z.eqb_eq in Em. subst mx.
  destruct (ro_spec _ _ _ (wf_run _ Hwf _ _ Hp)) as (spec' & Hs' & Hm & Hj).
  rewrite Hspec in Hs'. injection Hs' as <-.
  destruct (Z.ltb_spec (rr_run_index (run_row p) + 1) (ss_requested_run_count spec)) as [Hlt|Hge].
  - destruct (insert_run _ _ _ _) as [d|] eqn:Hi; [|done]. intros [= _ <-].
    apply (insert_run_wf _ _ _ p spec _ _ Hwf Hi Hp); try done; cbn [next_run_row rr_run_index rr_submission];
      [lia|]. eapply earlier_done_next; [done .. |]. unfold before. intros; lia.
  - destruct (next_spec _ _ _) as [[sid nxt]|] eqn:Hn; [|by intros [= _ <-]].
    destruct (negb _) ; [by intros [= _ <-]|].
    destruct (su_submissions db !! rr_submission (run_row p)) as [sub|] eqn:Hsub; [|done].
    cbn [fst snd] in *.
    destruct (insert_run _ _ _ _) as [d|] eqn:Hi; [|done]. intros [= _ <-].
    apply next_spec_Some in Hn as (Hnx & Hns & Hgt & Hmin).
    apply (insert_run_wf _ _ _ p nxt _ _ Hwf Hi Hp); try done;
      cbn [initial_run_row rr_run_index rr_submission rr_spec].
    + destruct (wf_spec _ Hwf _ _ Hnx) as (_ & _ & _ & [c Hc]). split_and!; try done.
      exists c, c. split_and!; try done. apply eq_case_refl.
    + pose proof (wf_spec _ Hwf _ _ Hnx). lia.
    + eapply earlier_done_next; [done ..|]. unfold before. intros k sp j' Hsp Hss Hj' Hb.
      assert (ss_index sp < ss_index nxt \/ ss_index sp = ss_index nxt) as [Hk|Hk] by lia; [|lia].
      destruct (Z.ltb_spec (ss_index spec) (ss_index sp)) as [Hl|Hl]; [|].
      * pose proof (Hmin _ _ Hsp Hss Hl). lia.
      * assert (Hcase : ss_index sp = ss_index spec \/ ss_index sp < ss_index spec) by lia.
        destruct Hcase as [He|He]; [|lia].
        assert (k = rr_spec (run_row p)) as ->
          by (apply (wf_spec_unique _ Hwf _ _ sp spec); [done|done| |done]; destruct Hm; congruence).
        rewrite Hspec in Hsp. injection Hsp as <-. lia.
Qed.

(** *** Changes of rows in place *)

(** A run keeps its place and, once completed, its status; a spec keeps its place in
    the plan. *)
Definition run_kept_place (r r' : Run) : Prop :=
  rr_submission (run_row r) = rr_submission (run_row r') /\ rr_spec (run_row r) = rr_spec (run_row r')
  /\ rr_run_index (run_row r) = rr_run_index (run_row r')
  /\ (run_status r = J_Completed -> run_status r' = J_Completed).
Definition spec_kept_place (x x' : SubmissionSpec) : Prop :=
  ss_submission x = ss_submission x' /\ ss_index x = ss_index x'
  /\ ss_requested_run_count x = ss_requested_run_count x'.
Record reshaped (db db' : SubmissionDb) : Prop := {
  rs_runs : forall id, option_Forall2 run_kept_place (su_runs db !! id) (su_runs db' !! id);
  rs_specs : forall sid, option_Forall2 spec_kept_place (su_specs db !! sid) (su_specs db' !! sid);
  rs_commits : forall sid x, su_specs db' !! sid = Some x -> is_Some (ss_commit x);
  rs_match : forall id r x, su_runs db' !! id = Some r ->
    su_specs db' !! rr_spec (run_row r) = Some x -> run_matches (run_row r) x;
  rs_submissions : su_submissions db' = su_submissions db;
  rs_provenance : su_provenance db' = su_provenance db;
  rs_events : exists more, su_events db' = su_events db ++ more
    /\ Forall (fun e => je_kind e <> Ev_Queued /\ is_Some (su_runs db !! je_job e)) more
}.
Section Reshaped.
Context (db db' : SubmissionDb).
Hypothesis Hwf : store_wf db.
Hypothesis Hre : reshaped db db'.

Lemma run_back id r' : su_runs db' !! id = Some r' -> exists r, su_runs db !! id = Some r /\ run_kept_place r r'.
Proof. intros H'. pose proof (rs_runs _ _ Hre id) as Hf. rewrite H' in Hf. inversion Hf. eauto. Qed.
Lemma run_forth id r : su_runs db !! id = Some r -> exists r', su_runs db' !! id = Some r' /\ run_kept_place r r'.
Proof. intros H'. pose proof (rs_runs _ _ Hre id) as Hf. rewrite H' in Hf. inversion Hf. eauto. Qed.
Lemma spec_back sid x' : su_specs db' !! sid = Some x' -> exists x, su_specs db !! sid = Some x /\ spec_kept_place x x'.
Proof. intros H'. pose proof (rs_specs _ _ Hre sid) as Hf. rewrite H' in Hf. inversion Hf. eauto. Qed.
Lemma spec_forth sid x : su_specs db !! sid = Some x -> exists x', su_specs db' !! sid = Some x' /\ spec_kept_place x x'.
Proof. intros H'. pose proof (rs_specs _ _ Hre sid) as Hf. rewrite H' in Hf. inversion Hf. eauto. Qed.

Lemma reshaped_run_ok id r : su_runs db' !! id = Some r -> run_ok db' id r.
Proof.
  intros Hr. destruct (run_back _ _ Hr) as (r0 & Hr0 & Hsub & Hsp & Hi & _).
  destruct (wf_run _ Hwf _ _ Hr0) as [(x & Hx & _ & Hidx) (pv & e & Hpv & He & Hd)]. split.
  - destruct (spec_forth _ _ Hx) as (x' & Hx' & _ & _ & Hc). rewrite Hsp in Hx'. exists x'.
    split_and!; [done| |lia|lia]. by apply (rs_match _ _ Hre id).
  - exists pv, e. rewrite (rs_provenance _ _ Hre), <- Hsub. split_and!; [done| |done].
    destruct (rs_events _ _ Hre) as (more & -> & Hmore).
    rewrite events_of_app, He, (events_of_other _ _ more); [done|].
    eapply Forall_impl; [exact Hmore|]. intros z [Hz _]. by right.
Qed.
Lemma reshaped_wf : store_wf db'.
Proof.
  split.
  - apply reshaped_run_ok.
  - intros id id' r r' Hr Hr' Hs Hi.
    destruct (run_back _ _ Hr) as (q & Hq & _ & H1 & H2 & _), (run_back _ _ Hr') as (q' & Hq' & _ & H3 & H4 & _).
    apply (wf_unique _ Hwf id id' q q' Hq Hq'); congruence.
  - intros id r x' Hr Hx' sid y' j Hy' Hsub Hj Hb.
    destruct (run_back _ _ Hr) as (q & Hq & H1 & H2 & H3 & _). rewrite <- H2 in Hx'.
    destruct (spec_back _ _ Hx') as (x & Hx & _ & H4 & _), (spec_back _ _ Hy') as (y & Hy & H5 & H6 & H7).
    destruct (wf_chain _ Hwf id q x Hq Hx sid y j Hy) as (d & rd & Hd & Hds & Hdi & Hdc);
      [congruence | lia | unfold before in *; lia |].
    destruct (run_forth _ _ Hd) as (rd' & Hd' & _ & H8 & H9 & H10). exists d, rd'.
    split_and!; [done|congruence|congruence|by apply H10].
  - intros sid x' Hx'. destruct (spec_back _ _ Hx') as (x & Hx & H1 & H2 & H3).
    destruct (wf_spec _ Hwf _ _ Hx) as (H4 & H5 & H6 & _). rewrite (rs_submissions _ _ Hre).
    split_and!; [lia | lia | congruence | by apply (rs_commits _ _ Hre sid)].
  - intros sid sid' x y Hx Hy Hs Hi.
    destruct (spec_back _ _ Hx) as (x0 & Hx0 & ? & ? & _), (spec_back _ _ Hy) as (y0 & Hy0 & ? & ? & _).
    apply (wf_spec_unique _ Hwf sid sid' x0 y0 Hx0 Hy0); congruence.
  - intros sid x' k Hx' Hk. destruct (spec_back _ _ Hx') as (x & Hx & H1 & H2 & _).
    destruct (wf_dense _ Hwf sid x k Hx ltac:(lia)) as (sid' & y & Hy & H3 & H4).
    destruct (spec_forth _ _ Hy) as (y' & Hy' & H5 & H6 & _). exists sid', y'. split_and!; congruence.
  - intros S row. rewrite (rs_submissions _ _ Hre). intros HS.
    destruct (wf_first _ Hwf S row HS) as (id & r & x & Hr & Hs & Hi & Hx & Hxi).
    destruct (run_forth _ _ Hr) as (r' & Hr' & H1 & H2 & H3 & _), (spec_forth _ _ Hx) as (x' & Hx' & _ & H4 & _).
    exists id, r', x'. split_and!; congruence.
  - intros e He. destruct (rs_events _ _ Hre) as (more & Hev & Hmore). rewrite Hev in He.
    assert (Hold : is_Some (su_runs db !! je_job e)).
    { apply elem_of_app in He as [He|He]; [by apply (wf_events _ Hwf)|].
      rewrite Forall_forall in Hmore. by apply Hmore. }
    destruct Hold as [r Hr]. destruct (run_forth _ _ Hr) as (r' & Hr' & _). by eexists.
Qed.
End Reshaped.

Lemma spec_place_refl (o : option SubmissionSpec) : option_Forall2 spec_kept_place o o.
Proof. destruct o; constructor. by split_and!. Qed.
Lemma run_place_refl (o : option Run) : option_Forall2 run_kept_place o o.
Proof. destruct o; constructor. by split_and!. Qed.
Lemma wf_matches db id r x :
  store_wf db -> su_runs db !! id = Some r -> su_specs db !! rr_spec (run_row r) = Some x ->
  run_matches (run_row r) x.
Proof. intros Hwf Hr Hx. destruct (ro_spec _ _ _ (wf_run _ Hwf _ _ Hr)) as (y & Hy & Hm & _). congruence. Qed.

(** One run is rewritten in its place. *)
Lemma replace_run_reshaped id r r' more db db' :
  store_wf db -> su_runs db !! id = Some r -> run_kept_place r r' ->
  (forall x, su_specs db !! rr_spec (run_row r') = Some x -> run_matches (run_row r') x) ->
  Forall (fun e => je_kind e <> Ev_Queued /\ is_Some (su_runs db !! je_job e)) more ->
  su_runs db' = <[id := r']> (su_runs db) -> su_specs db' = su_specs db ->
  su_submissions db' = su_submissions db -> su_provenance db' = su_provenance db ->
  su_events db' = su_events db ++ more -> reshaped db db'.
Proof.
  intros Hwf Hr Hkept Hm Hmore Hruns Hspecs Hsubs Hprov Hev. split; try done.
  - intros i. rewrite Hruns. destruct (decide (id = i)) as [<-|Hne].
    + rewrite lookup_insert, decide_True, Hr by done. by constructor.
    + rewrite lookup_insert_ne by done. apply run_place_refl.
  - intros sid. rewrite Hspecs. apply spec_place_refl.
  - intros sid x. rewrite Hspecs. intros Hx. apply (wf_spec _ Hwf _ _ Hx).
  - intros i q x Hq. rewrite Hruns in Hq. rewrite Hspecs.
    apply lookup_insert_Some in Hq as [[<- <-]|[_ Hq]]; [apply Hm|]. by apply (wf_matches _ i).
  - by exists more.
Qed.

Lemma reshaped_refl db : store_wf db -> reshaped db db.
Proof.
  intros Hwf. split; try done; [intros; apply run_place_refl | intros; apply spec_place_refl | | |].
  - intros sid x Hx. apply (wf_spec _ Hwf _ _ Hx).
  - intros i q x Hq. by apply (wf_matches _ i).
  - exists []. by rewrite app_nil_r.
Qed.
Lemma status_reshaped id s db : store_wf db -> reshaped db (set_run_status id s db).
Proof.
  intros Hwf. unfold set_run_status.
  destruct (su_runs db !! id) as [r|] eqn:Hr; [|by apply reshaped_refl].
  destruct (job_terminal _) eqn:Ht; [by apply reshaped_refl|].
  apply (replace_run_reshaped id r {| run_row := run_row r; run_status := s |} []); try done.
  - split_and!; try done. intros Hc. by rewrite Hc in Ht.
  - intros x. by apply (wf_matches _ id r).
  - by rewrite app_nil_r.
Qed.
Lemma status_wf id s db : store_wf db -> store_wf (set_run_status id s db).
Proof. intros Hwf. eapply reshaped_wf; [done|]. by apply status_reshaped. Qed.

(** ** New submissions *)
Lemma insert_row_Ok `{Countable K} {A} (k : K) (row : A) m m' :
  insert_row k row m = Ok m' -> m !! k = None /\ m' = <[k := row]> m.
Proof. unfold insert_row. destruct (m !! k); [done|]. by intros [= <-]. Qed.

Record specs_added (sub : Uuid) (new : nat -> Uuid) (index : nat)
    (vs : list (ResolvedTaskSource * Z * option Z * bool)) (specs specs' : gmap Uuid SubmissionSpec) : Prop := {
  sa_kept : forall sid spec, specs !! sid = Some spec -> specs' !! sid = Some spec;
  sa_new : forall n v, vs !! n = Some v ->
    specs !! new (index + n)%nat = None
    /\ specs' !! new (index + n)%nat = Some (spec_row sub (Z.of_nat (index + n)) v) /\ 1 <= v.1.1.2;
  sa_only : forall sid spec, specs' !! sid = Some spec ->
    specs !! sid = Some spec
    \/ exists n v, vs !! n = Some v /\ sid = new (index + n)%nat
                   /\ spec = spec_row sub (Z.of_nat (index + n)) v
}.
Lemma insert_specs_added sub new m vs : forall index step specs steps specs' steps',
  insert_specs sub new m index step vs specs steps = Ok (specs', steps') ->
  specs_added sub new index vs specs specs'.
Proof.
  induction vs as [|v vs IH]; intros index step specs steps specs' steps'; cbn [insert_specs].
  { intros [= <- _]. split; [done|done|]. intros sid spec Hs. by left. }
  destruct (ensure _ _) as [[]|] eqn:Ec; [|done]. apply ensure_Ok, Z.leb_le in Ec.
  destruct (insert_row _ _ specs) as [specs1|] eqn:Ei; [|done].
  apply insert_row_Ok in Ei as [Hnone ->]. intros Hrest. apply IH in Hrest as [Hk Hn Ho].
  assert (Hkeep : forall sid spec, specs !! sid = Some spec -> specs' !! sid = Some spec).
  { intros sid spec Hs. apply Hk. rewrite lookup_insert_ne; [done|]. congruence. }
  split; [done| |].
  - intros [|n] x Hx.
    + injection Hx as <-. rewrite Nat.add_0_r. split_and!; [done| |done].
      apply Hk. by rewrite lookup_insert, decide_True.
    + destruct (Hn n x Hx) as (H1 & H2 & H3). replace (index + S n)%nat with (S index + n)%nat by lia.
      split_and!; [|done|done].
      apply lookup_insert_None in H1 as [H1 _]. done.
  - intros sid spec Hs. destruct (Ho _ _ Hs) as [Hs'|(n & x & Hx & -> & ->)].
    + apply lookup_insert_Some in Hs' as [[<- <-]|[_ Hs']]; [|by left].
      right. exists 0%nat, v. by rewrite Nat.add_0_r.
    + right. exists (S n), x. by replace (index + S n)%nat with (S index + n)%nat by lia.
Qed.

Lemma first_source_variant t source :
  first_source t = Some source ->
  exists n c h rest, plan_variants t = (source, n, c, h) :: rest.
Proof.
  destruct t as [[[|v vs] args]|s|p]; simpl; try done; intros [= <-]; by eexists _, _, _, _.
Qed.

(** What a creation adds to the database. *)
Record submission_added (ids : NewIds) (p : PreparedSubmission) (db db' : SubmissionDb) : Prop := {
  ad_source : exists source, first_source (cmd_task (ps_command p)) = Some source
    /\ su_submissions db' = <[ni_submission ids := submission_row (ni_submission ids) source p]> (su_submissions db)
    /\ su_runs db' = <[ni_job ids := initial_run ids source (cmd_task (ps_command p))]> (su_runs db);
  ad_fresh : su_submissions db !! ni_submission ids = None /\ su_runs db !! ni_job ids = None;
  ad_specs : specs_added (ni_submission ids) (ni_spec ids) 0 (plan_variants (cmd_task (ps_command p)))
               (su_specs db) (su_specs db');
  ad_provenance : exists kind identity, su_provenance db' = <[ni_submission ids :=
      {| pvr_actor_kind := kind; pvr_actor_identity := identity;
         pvr_detail := pv_queued_event_detail (cmd_provenance (ps_command p)) |}]> (su_provenance db);
  ad_events : exists more, su_events db' = su_events db
      ++ [queued_event (ni_job ids) (pv_queued_event_detail (cmd_provenance (ps_command p)))] ++ more
    /\ Forall (fun e => je_job e = ni_job ids /\ je_kind e = Ev_PlanMessageSent) more
}.
Lemma write_submission_Ok ids p source db db' :
  first_source (cmd_task (ps_command p)) = Some source ->
  write_submission ids p source db = Ok db' -> submission_added ids p db db'.
Proof.
  intros Hsrc Hw. unfold write_submission in Hw. cbv zeta in Hw.
  head_case Hw E1; [|discriminate Hw]. head_case Hw E2; [|discriminate Hw].
  match type of E2 with _ = Ok ?planned => destruct planned as [specs steps] end.
  head_case Hw E3; [|discriminate Hw].
  destruct (actor_columns _) as [kind identity]. head_case Hw E4; [|discriminate Hw].
  head_case Hw E5; [|discriminate Hw]. head_case Hw E6; [|discriminate Hw]. injection Hw as <-.
  apply insert_row_Ok in E1 as [? ->], E3 as [? ->], E4 as [_ ->].
  apply insert_specs_added in E2. split; simpl; [by exists source | done | done | by eexists _, _|].
  eexists. split; [done|].
  destruct (pv_slack _) as [row|]; [destruct (slp_report_message_ts row)|];
    [apply Forall_singleton; done | apply Forall_nil_2 ..].
Qed.
Lemma persist_cases ids p seen db :
  let out := persist_submission ids p seen db in
  out.2 = db
  \/ (submission_added ids p db out.2
      /\ out.1 = Ok {| sbr_submission_id := ni_submission ids; sbr_disposition := Disp_Created;
                       sbr_initial_job_ids := [ni_job ids] |}).
Proof.
  cbv zeta. unfold persist_submission. destruct (existing_receipt p seen) as [[r|]|]; [by left| |by left].
  destruct (first_source _) as [source|] eqn:Hs; [|by left].
  destruct (write_submission _ _ _ _) as [w|] eqn:Hw; [|by left].
  destruct (negb _); [by left|]. destruct (su_idempotency db !! _); [by left|].
  right. split; [|done]. apply write_submission_Ok in Hw as [H1 H2 H3 H4 H5]; [|done]. by split.
Qed.
Lemma existing_disposition p db r :
  existing_receipt p db = Ok (Some r) -> sbr_disposition r = Disp_AlreadySubmitted.
Proof.
  unfold existing_receipt. cbv zeta. destruct (su_idempotency db !! _); [|done].
  intros Hr. repeat case_match; simplify_eq; done.
Qed.
Lemma persist_created ids p seen db r db' :
  persist_submission ids p seen db = (Ok r, db') -> sbr_disposition r = Disp_Created ->
  sbr_submission_id r = ni_submission ids /\ submission_added ids p db db'.
Proof.
  intros Hp Hd. unfold persist_submission in Hp.
  destruct (existing_receipt p seen) as [[x|]|] eqn:E1; [|clear E1|done].
  { injection Hp as <- _. by rewrite (existing_disposition _ _ _ E1) in Hd. }
  destruct (first_source _) as [source|] eqn:Hs; [|done].
  destruct (write_submission _ _ _ _) as [w|] eqn:Hw; [|done]. destruct (negb _); [done|].
  destruct (su_idempotency db !! _).
  - destruct (existing_receipt p db) as [[x|]|] eqn:E3; [|done|done].
    injection Hp as <- _. by rewrite (existing_disposition _ _ _ E3) in Hd.
  - injection Hp as <- <-. split; [done|].
    apply write_submission_Ok in Hw as [H1 H2 H3 H4 H5]; [|done]. by split.
Qed.

(** *** A new generation of runs *)

(** A submission [sub] is added with the specs of [plan] under [new] and its first
    run [job]. *)
Record generation (sub job : Uuid) (new : nat -> Uuid) (plan : nat -> SubmissionSpec -> Prop)
    (db db' : SubmissionDb) : Prop := {
  ge_submission : exists row, su_submissions db' = <[sub := row]> (su_submissions db);
  ge_fresh : su_submissions db !! sub = None /\ su_runs db !! job = None;
  ge_kept : forall sid x, su_specs db !! sid = Some x -> su_specs db' !! sid = Some x;
  ge_plan : forall n x, plan n x -> su_specs db !! new n = None /\ su_specs db' !! new n = Some x
    /\ ss_submission x = sub /\ ss_index x = Z.of_nat n /\ 1 <= ss_requested_run_count x
    /\ is_Some (ss_commit x);
  ge_only : forall sid x, su_specs db' !! sid = Some x ->
    su_specs db !! sid = Some x \/ exists n, plan n x /\ sid = new n;
  ge_dense : forall n x k, plan n x -> (k < n)%nat -> exists y, plan k y;
  ge_run : exists r x, su_runs db' = <[job := r]> (su_runs db) /\ plan 0%nat x
    /\ run_matches (run_row r) x /\ rr_spec (run_row r) = new 0%nat /\ rr_run_index (run_row r) = 0;
  ge_provenance : exists pv e more, su_provenance db' = <[sub := pv]> (su_provenance db)
    /\ su_events db' = su_events db ++ more /\ events_of job Ev_Queued more = [e]
    /\ je_detail e = Some (pvr_detail pv) /\ Forall (fun e => je_job e = job) more
}.

Section Generation.
Context (sub job : Uuid) (new : nat -> Uuid) (plan : nat -> SubmissionSpec -> Prop) (db db' : SubmissionDb).
Hypothesis Hwf : store_wf db.
Hypothesis Hge : generation sub job new plan db db'.

Lemma old_spec_other sid x : su_specs db !! sid = Some x -> ss_submission x <> sub.
Proof.
  intros Hs Heq. destruct (wf_spec _ Hwf _ _ Hs) as (_ & _ & [row Hrow] & _).
  rewrite Heq, (proj1 (ge_fresh _ _ _ _ _ _ Hge)) in Hrow. done.
Qed.
Lemma old_run_other id r : su_runs db !! id = Some r -> rr_submission (run_row r) <> sub.
Proof.
  intros Hr. destruct (ro_spec _ _ _ (wf_run _ Hwf _ _ Hr)) as (x & Hs & (-> & _) & _).
  by apply (old_spec_other _ _ Hs).
Qed.
Lemma first_run_row r :
  su_runs db' !! job = Some r ->
  exists x, su_specs db' !! rr_spec (run_row r) = Some x /\ run_matches (run_row r) x
    /\ rr_submission (run_row r) = sub /\ rr_run_index (run_row r) = 0
    /\ ss_index x = 0 /\ rr_spec (run_row r) = new 0%nat /\ 1 <= ss_requested_run_count x.
Proof.
  destruct (ge_run _ _ _ _ _ _ Hge) as (r0 & x & -> & Hx & Hm & Hsp & Hi).
  rewrite lookup_insert, decide_True by done. intros [= <-].
  destruct (ge_plan _ _ _ _ _ _ Hge _ _ Hx) as (_ & Hs & Hsub & Hidx & Hc & _).
  exists x. rewrite Hsp. split_and!; try done. destruct Hm as (-> & _). done.
Qed.
Lemma new_run_inv id r :
  su_runs db' !! id = Some r -> (id = job) \/ (id <> job /\ su_runs db !! id = Some r).
Proof.
  destruct (ge_run _ _ _ _ _ _ Hge) as (r0 & x & -> & _).
  intros Hr. apply lookup_insert_Some in Hr as [[<- _]|[Hne Hr]]; [by left | by right].
Qed.
Lemma old_run_kept id r : su_runs db !! id = Some r -> su_runs db' !! id = Some r.
Proof.
  destruct (ge_run _ _ _ _ _ _ Hge) as (r0 & x & -> & _). intros Hr.
  rewrite lookup_insert_ne; [done|]. intros <-. by rewrite (proj2 (ge_fresh _ _ _ _ _ _ Hge)) in Hr.
Qed.
(** No old run uses the spec of the first run. *)
Lemma new_spec_unused r id r' :
  su_runs db' !! job = Some r -> su_runs db !! id = Some r' ->
  rr_spec (run_row r) <> rr_spec (run_row r').
Proof.
  intros Hr Hr'. destruct (first_run_row _ Hr) as (_ & _ & _ & _ & _ & _ & -> & _).
  destruct (ro_spec _ _ _ (wf_run _ Hwf _ _ Hr')) as (x & Hx & _).
  destruct (ge_run _ _ _ _ _ _ Hge) as (_ & y & _ & Hy & _).
  destruct (ge_plan _ _ _ _ _ _ Hge _ _ Hy) as (Hnone & _). congruence.
Qed.
Lemma generation_earlier_done S i j : S <> sub -> earlier_done db S i j -> earlier_done db' S i j.
Proof.
  intros Hne Hd sid x j' Hs Hsub Hj Hb.
  destruct (ge_only _ _ _ _ _ _ Hge _ _ Hs) as [Hs'|(n & Hn & _)].
  - destruct (Hd _ _ _ Hs' Hsub Hj Hb) as (id & r & Hr & Hrest). exists id, r.
    split; [by apply old_run_kept | done].
  - destruct (ge_plan _ _ _ _ _ _ Hge _ _ Hn) as (_ & _ & Heq & _). congruence.
Qed.

Lemma generation_run_ok id r : su_runs db' !! id = Some r -> run_ok db' id r.
Proof.
  destruct (ge_provenance _ _ _ _ _ _ Hge) as (pv & e & more & Hprov & Hev & He & Hd & Hmore).
  intros Hr. destruct (new_run_inv _ _ Hr) as [->|[Hne Hold]].
  - destruct (first_run_row _ Hr) as (x & Hs & Hm & Hsub & Hidx & _ & _ & Hc). split.
    + exists x. split_and!; try done; lia.
    + rewrite Hsub, Hprov, lookup_insert, decide_True by done. exists pv, e. split; [done|].
      by rewrite Hev, events_of_app, (no_events _ _ _ Hwf (proj2 (ge_fresh _ _ _ _ _ _ Hge))).
  - destruct (wf_run _ Hwf _ _ Hold) as [(x & Hs & Hrest) (pv' & e' & Hpv & He' & Hd')]. split.
    + exists x. split; [|done]. by apply (ge_kept _ _ _ _ _ _ Hge).
    + exists pv', e'. rewrite Hprov, Hev, events_of_app, (events_of_other _ _ more), app_nil_r.
      * rewrite lookup_insert_ne; [done|]. apply not_eq_sym. by apply (old_run_other id).
      * eapply Forall_impl; [exact Hmore|]. intros z ->. by left.
Qed.

Lemma generation_specs :
  (forall sid x, su_specs db' !! sid = Some x ->
     0 <= ss_index x /\ 1 <= ss_requested_run_count x
     /\ is_Some (su_submissions db' !! ss_submission x) /\ is_Some (ss_commit x))
  /\ (forall sid sid' x x', su_specs db' !! sid = Some x -> su_specs db' !! sid' = Some x' ->
     ss_submission x = ss_submission x' -> ss_index x = ss_index x' -> sid = sid')
  /\ (forall sid x k, su_specs db' !! sid = Some x -> 0 <= k < ss_index x ->
     exists sid' x', su_specs db' !! sid' = Some x' /\ ss_submission x' = ss_submission x
       /\ ss_index x' = k).
Proof.
  pose proof (ge_plan _ _ _ _ _ _ Hge) as Hplan. split_and!.
  - intros sid x Hs. destruct (ge_submission _ _ _ _ _ _ Hge) as (row & ->).
    destruct (ge_only _ _ _ _ _ _ Hge _ _ Hs) as [Ho|(n & Hn & _)].
    + destruct (wf_spec _ Hwf _ _ Ho) as (H1 & H2 & H3 & H4). split_and!; [done|done| |done].
      rewrite lookup_insert_ne; [done|]. apply not_eq_sym. by apply (old_spec_other sid).
    + destruct (Hplan _ _ Hn) as (_ & _ & -> & -> & Hc & Hcom). split_and!; [lia|done| |done].
      rewrite lookup_insert, decide_True by done. by eexists.
  - intros sid sid' x x' Hs Hs' Hsub Hi.
    destruct (ge_only _ _ _ _ _ _ Hge _ _ Hs) as [Ho|(n & Hn & ->)],
      (ge_only _ _ _ _ _ _ Hge _ _ Hs') as [Ho'|(n' & Hn' & ->)].
    + by apply (wf_spec_unique _ Hwf sid sid' x x').
    + destruct (old_spec_other _ _ Ho). rewrite Hsub. apply (Hplan _ _ Hn').
    + destruct (old_spec_other _ _ Ho'). rewrite <- Hsub. apply (Hplan _ _ Hn).
    + destruct (Hplan _ _ Hn) as (_ & _ & _ & H1 & _), (Hplan _ _ Hn') as (_ & _ & _ & H2 & _).
      f_equal. lia.
  - intros sid x k Hs Hk. destruct (ge_only _ _ _ _ _ _ Hge _ _ Hs) as [Ho|(n & Hn & ->)].
    + destruct (wf_dense _ Hwf _ _ _ Ho Hk) as (y & z & Hy & Hrest). exists y, z.
      split; [by apply (ge_kept _ _ _ _ _ _ Hge) | done].
    + destruct (Hplan _ _ Hn) as (_ & _ & Hsub & Hidx & _).
      destruct (ge_dense _ _ _ _ _ _ Hge n x (Z.to_nat k) Hn ltac:(lia)) as (y & Hy).
      destruct (Hplan _ _ Hy) as (_ & Hy' & Hys & Hyi & _). exists (new (Z.to_nat k)), y.
      split_and!; [done | congruence | lia].
Qed.

Lemma generation_wf : store_wf db'.
Proof.
  destruct generation_specs as (Hspecs & Huniq & Hdense). split; try done.
  - apply generation_run_ok.
  - intros id id' r r' Hr Hr' Hs Hi.
    destruct (new_run_inv _ _ Hr) as [->|[Hne Hold]], (new_run_inv _ _ Hr') as [->|[Hne' Hold']]; [done| | |].
    + destruct (new_spec_unused _ _ _ Hr Hold'). congruence.
    + destruct (new_spec_unused _ _ _ Hr' Hold). congruence.
    + by apply (wf_unique _ Hwf id id' r r').
  - intros id r x Hr Hs. destruct (new_run_inv _ _ Hr) as [->|[Hne Hold]].
    + destruct (first_run_row _ Hr) as (x' & Hs' & _ & -> & -> & Hi & _).
      rewrite Hs in Hs'. injection Hs' as <-. rewrite Hi.
      intros sid y j' Hy Hsub Hj Hb. pose proof (Hspecs _ _ Hy). unfold before in Hb. lia.
    + apply generation_earlier_done; [by apply (old_run_other id)|].
      destruct (ro_spec _ _ _ (wf_run _ Hwf _ _ Hold)) as (y & Hy & _).
      assert (x = y) as ->.
      { apply (ge_kept _ _ _ _ _ _ Hge) in Hy. congruence. }
      by apply (wf_chain _ Hwf id r).
  - intros S row HS. destruct (ge_submission _ _ _ _ _ _ Hge) as (row' & Hsubs). rewrite Hsubs in HS.
    apply lookup_insert_Some in HS as [[<- _]|[_ HS]].
    + exists job. destruct (su_runs db' !! job) as [r|] eqn:Hr.
      * destruct (first_run_row _ Hr) as (x & Hs & _ & Hsub & Hi & Hx & _). by exists r, x.
      * destruct (ge_run _ _ _ _ _ _ Hge) as (r0 & x & Hruns & _).
        by rewrite Hruns, lookup_insert, decide_True in Hr.
    + destruct (wf_first _ Hwf S row HS) as (id & r & x & Hr & Hsub & Hi & Hs & Hx). exists id, r, x.
      split_and!; try done; [by apply old_run_kept|]. by apply (ge_kept _ _ _ _ _ _ Hge).
  - intros e He. destruct (ge_provenance _ _ _ _ _ _ Hge) as (pv & q & more & _ & Hev & _ & _ & Hmore).
    destruct (ge_run _ _ _ _ _ _ Hge) as (r0 & x & -> & _). apply lookup_insert_is_Some'.
    rewrite Hev in He. apply elem_of_app in He as [He|He]; [right; by apply (wf_events _ Hwf)|].
    rewrite Forall_forall in Hmore. left. symmetry. by apply Hmore.
Qed.
End Generation.

Section Added.
Context (ids : NewIds) (p : PreparedSubmission) (db db' : SubmissionDb).
Hypothesis Hwf : store_wf db.
Hypothesis Hadd : submission_added ids p db db'.

Lemma spec_of_other sid spec :
  su_specs db !! sid = Some spec -> ss_submission spec <> ni_submission ids.
Proof.
  intros Hs Heq. destruct (wf_spec _ Hwf _ _ Hs) as (_ & _ & [x Hx] & _).
  rewrite Heq, (proj1 (ad_fresh _ _ _ _ Hadd)) in Hx. done.
Qed.
(** The specs of the new submission. *)
Lemma new_spec_inv sid spec :
  su_specs db' !! sid = Some spec ->
  su_specs db !! sid = Some spec
  \/ exists n v, plan_variants (cmd_task (ps_command p)) !! n = Some v /\ sid = ni_spec ids n
       /\ spec = spec_row (ni_submission ids) (Z.of_nat n) v /\ 1 <= v.1.1.2.
Proof.
  intros Hs. destruct (sa_only _ _ _ _ _ _ (ad_specs _ _ _ _ Hadd) _ _ Hs) as [|(n & v & Hv & -> & ->)];
    [by left|]. right. exists n, v. split_and!; try done.
  apply (sa_new _ _ _ _ _ _ (ad_specs _ _ _ _ Hadd) _ _ Hv).
Qed.
Lemma added_generation :
  generation (ni_submission ids) (ni_job ids) (ni_spec ids)
    (fun n x => exists v, plan_variants (cmd_task (ps_command p)) !! n = Some v
                /\ x = spec_row (ni_submission ids) (Z.of_nat n) v) db db'.
Proof.
  destruct (ad_source _ _ _ _ Hadd) as (source & Hsrc & Hsubs & Hruns).
  destruct (ad_provenance _ _ _ _ Hadd) as (kind & identity & Hprov).
  destruct (ad_events _ _ _ _ Hadd) as (more & Hev & Hmore). split.
  - by eexists.
  - apply (ad_fresh _ _ _ _ Hadd).
  - apply (sa_kept _ _ _ _ _ _ (ad_specs _ _ _ _ Hadd)).
  - intros n x ([[[src c] k] h] & Hv & ->).
    destruct (sa_new _ _ _ _ _ _ (ad_specs _ _ _ _ Hadd) _ _ Hv) as (H1 & H2 & H3).
    split_and!; try done.
  - intros sid x Hx. destruct (new_spec_inv _ _ Hx) as [|(n & v & Hv & -> & -> & _)]; [by left|].
    right. exists n. split; [by exists v | done].
  - intros n x k (v & Hv & _) Hk.
    destruct (lookup_lt_is_Some_2 (plan_variants (cmd_task (ps_command p))) k) as [w Hw].
    { apply lookup_lt_Some in Hv. lia. }
    by eexists _, w.
  - destruct (first_source_variant _ _ Hsrc) as (n & c & h & rest & Hv).
    eexists _, _. split; [exact Hruns|]. split; [exists (source, n, c, h); by rewrite Hv|].
    unfold run_matches. split_and!; try done. eexists _, _. split_and!; [done|done|apply eq_case_refl].
  - eexists _, (queued_event (ni_job ids) _), _. split_and!; [exact Hprov | exact Hev | | done |].
    + rewrite events_of_app, events_of_one, (events_of_other _ _ more); [done| |done|done].
      eapply Forall_impl; [exact Hmore|]. intros e [_ ->]. by right.
    + constructor; [done|]. eapply Forall_impl; [exact Hmore|]. by intros e [-> _].
Qed.
Lemma added_wf : store_wf db'.
Proof. by eapply generation_wf, added_generation. Qed.
End Added.

(** *** The transactions of the fleet store *)

(** What freezing, preparation and the abandonment of cleanup leave alone: the
    submissions, their provenance and idempotency rows, and every spec but for its
    commit. *)
Record in_place (db db' : SubmissionDb) : Prop := {
  ip_wf : store_wf db';
  ip_submissions : su_submissions db' = su_submissions db;
  ip_provenance : su_provenance db' = su_provenance db;
  ip_idempotency : su_idempotency db' = su_idempotency db;
  ip_specs : forall sid x', su_specs db' !! sid = Some x' ->
    exists x c, su_specs db !! sid = Some x /\ x' = with_spec_commit c x
}.
Lemma same_spec_commit x : is_Some (ss_commit x) -> exists c, x = with_spec_commit c x.
Proof. intros [c Hc]. exists c. destruct x; simpl in *. by rewrite Hc. Qed.
Lemma in_place_same db db' :
  store_wf db' -> su_submissions db' = su_submissions db -> su_provenance db' = su_provenance db ->
  su_idempotency db' = su_idempotency db -> su_specs db' = su_specs db -> in_place db db'.
Proof.
  intros Hwf H1 H2 H3 H4. split; try done. intros sid x' Hx'.
  destruct (same_spec_commit x') as [c Hc]; [apply (wf_spec _ Hwf _ _ Hx')|].
  exists x', c. split; [|done]. by rewrite <- H4.
Qed.
Lemma in_place_trans a b c : in_place a b -> in_place b c -> in_place a c.
Proof.
  intros [_ S1 P1 I1 H1] [Hwf S2 P2 I2 H2]. split; [done|congruence..|].
  intros sid x' Hx'. destruct (H2 _ _ Hx') as (y & c1 & Hy & ->).
  destruct (H1 _ _ Hy) as (x & c2 & Hx & ->). by exists x, c1.
Qed.

Lemma prepare_in_place admitted p prepared db db' :
  store_wf db -> (forall r, su_runs db !! px_job p = Some r -> prepares_frozen (px_commit p) r db) ->
  prepare_run admitted p db = Ok (prepared, db') -> in_place db db'.
Proof.
  intros Hwf Hfrozen. unfold prepare_run. destruct (negb admitted); [intros [= _ <-]; by apply in_place_same|].
  destruct (su_runs db !! px_job p) as [r|] eqn:Hr; [|intros [= _ <-]; by apply in_place_same].
  destruct (_ && _); [|intros [= _ <-]; by apply in_place_same].
  destruct (payload_hash_check _); [|done]. intros [= _ <-]. apply in_place_same; try done.
  destruct (Hfrozen r eq_refl) as (x & c & Hx & Hc & Heq).
  eapply reshaped_wf; [exact Hwf|]. eapply (replace_run_reshaped _ r _ []); [done | exact Hr | | | | done..|].
  - by split_and!.
  - simpl. intros y Hy. destruct (wf_matches _ _ _ _ Hwf Hr Hy) as (H1 & H2 & H3 & H4 & H5 & H6 & _ & H8 & H9).
    unfold run_matches. split_and!; try done. assert (x = y) as -> by congruence. by exists (px_commit p), c.
  - done.
  - by rewrite app_nil_r.
Qed.

(** One spec of a freeze. *)
Lemma freeze_one_in_place id x commit db :
  store_wf db -> su_specs db !! id = Some x -> other_commit commit (ss_commit x) = false ->
  in_place db (set_runs (update_where (fun _ r => (rr_spec (run_row r) =? id)
                && bool_decide (run_status r = J_Queued)
                && bool_decide (rr_commit (run_row r) = None))
              (fun r => with_run_commit commit (rr_payload (run_row r)) r))
            (set_specs <[id := with_spec_commit commit x]> db)).
Proof.
  intros Hwf Hx Hc. destruct (wf_spec _ Hwf _ _ Hx) as (_ & _ & _ & [c Ec]).
  rewrite Ec in Hc. apply negb_false_iff in Hc.
  assert (Hnone : forall i r, su_runs db !! i = Some r -> is_Some (rr_commit (run_row r))).
  { intros i r Hr. destruct (wf_run _ Hwf _ _ Hr) as [(y & _ & Hm & _) _].
    destruct Hm as (_ & _ & _ & _ & _ & _ & (a & b & -> & _) & _). by eexists. }
  match goal with |- context [update_where ?P ?F] =>
    assert (Hruns : update_where P F (su_runs db) = su_runs db) end.
  { apply map_eq. intros i. rewrite lookup_update_where. destruct (su_runs db !! i) as [r|] eqn:Hr; [|done].
    simpl. destruct (Hnone _ _ Hr) as [a Ha]. rewrite Ha, (bool_decide_eq_false_2 (Some a = None)) by done.
    by rewrite andb_false_r. }
  assert (Hre : reshaped db (set_runs (fun _ => su_runs db) (set_specs <[id := with_spec_commit commit x]> db))).
  { split; try done; cbn [su_runs su_specs set_runs set_specs].
    - intros i. apply run_place_refl.
    - intros sid. destruct (decide (id = sid)) as [<-|Hne].
      + rewrite lookup_insert, decide_True, Hx by done. constructor. by split_and!.
      + rewrite lookup_insert_ne by done. apply spec_place_refl.
    - intros sid y Hy. apply lookup_insert_Some in Hy as [[<- <-]|[_ Hy]]; [by eexists|].
      apply (wf_spec _ Hwf _ _ Hy).
    - intros i r y Hr Hy. apply lookup_insert_Some in Hy as [[Hid <-]|[_ Hy]]; [|by apply (wf_matches db i)].
      subst id. destruct (wf_matches _ _ _ _ Hwf Hr Hx) as (H1 & H2 & H3 & H4 & H5 & H6 & (a & b & Ha & Hb & Hab) & H8 & H9).
      unfold run_matches. split_and!; try done. exists a, commit. split_and!; [done|done|].
      apply (eq_case_trans a b); [done|]. congruence.
    - exists []. by rewrite app_nil_r. }
  unfold set_runs at 1. cbn [su_runs set_specs]. rewrite Hruns. split; try done.
  - eapply reshaped_wf; [exact Hwf | exact Hre].
  - cbn [su_specs set_specs]. intros sid y Hy. apply lookup_insert_Some in Hy as [[<- <-]|[_ Hy]]; [by eexists _, _|].
    destruct (same_spec_commit y) as [d Hd]; [apply (wf_spec _ Hwf _ _ Hy)|]. by exists y, d.
Qed.
Lemma freeze_rows_in_place resolved specs : forall db db',
  store_wf db -> Forall (fun kv => su_specs db !! kv.1 = Some kv.2) specs -> NoDup specs.*1 ->
  freeze_rows specs resolved db = Ok (Some db') -> in_place db db'.
Proof.
  induction specs as [|[id x] specs IH]; intros db db' Hwf Hall Hnd; cbn [freeze_rows].
  { intros [= <-]. by apply in_place_same. }
  apply Forall_cons in Hall as [Hx Hall]. cbn [fst snd] in Hx. rewrite fmap_cons in Hnd.
  apply NoDup_cons in Hnd as [Hni Hnd].
  destruct (resolved !! id) as [commit|]; [|done]. destruct (other_commit _ _) eqn:Ho; [done|].
  destruct (exists_row _ _); [done|]. cbv zeta. intros Hf.
  pose proof (freeze_one_in_place id x commit db Hwf Hx Ho) as Hone.
  eapply in_place_trans; [exact Hone|]. eapply IH; [apply (ip_wf _ _ Hone) | | exact Hnd | exact Hf].
  apply Forall_forall. intros kv Hin. cbn [su_specs set_runs set_specs].
  rewrite Forall_forall in Hall. rewrite lookup_insert_ne; [by apply Hall|].
  intros ->. apply Hni. apply list_elem_of_fmap. by exists kv.
Qed.
Lemma spec_rows_rows sub db kv :
  kv ∈ spec_rows sub db <-> su_specs db !! kv.1 = Some kv.2 /\ ss_submission kv.2 = sub.
Proof.
  unfold spec_rows. rewrite sort_by_perm. destruct kv as [k x]. rewrite elem_of_rows, Z.eqb_eq. done.
Qed.
Lemma freeze_in_place admitted submission sources frozen db db' :
  store_wf db -> freeze_sources admitted submission sources db = Ok (frozen, db') -> in_place db db'.
Proof.
  intros Hwf. unfold freeze_sources. destruct (resolved_sources _ _) as [resolved|]; [|done].
  destruct (negb admitted); [intros [= _ <-]; by apply in_place_same|].
  destruct (_ || _); [intros [= _ <-]; by apply in_place_same|].
  destruct (freeze_rows _ _ _) as [[d|]|] eqn:Hf; [| |done]; intros [= _ <-]; [|by apply in_place_same].
  eapply freeze_rows_in_place; [done| | |exact Hf].
  - apply Forall_forall. intros kv Hin. by apply spec_rows_rows in Hin as [? _].
  - unfold spec_rows. rewrite sort_by_perm. apply rows_NoDup.
Qed.

(** The abandoned runs of a recovery. *)
Lemma abandon_in_place submission reason jobs : forall db,
  store_wf db -> in_place db (foldl (abandon_run submission reason) db jobs).
Proof.
  induction jobs as [|job jobs IH]; intros db Hwf; cbn [foldl]; [by apply in_place_same|].
  assert (Hone : in_place db (abandon_run submission reason db job)).
  { unfold abandon_run. destruct (su_runs db !! job) as [r|] eqn:Hr; [|by apply in_place_same].
    destruct (decide _) as [Hrun|]; [|by apply in_place_same]. apply in_place_same; try done.
    eapply reshaped_wf; [exact Hwf|].
    eapply (replace_run_reshaped _ r {| run_row := run_row r; run_status := J_Cancelled |});
      [done | exact Hr | | | | done..].
    - split_and!; try done. by rewrite Hrun.
    - intros x. by apply (wf_matches _ job r).
    - apply Forall_singleton. simpl. rewrite Hr. by split. }
  eapply in_place_trans; [exact Hone|]. apply IH, (ip_wf _ _ Hone).
Qed.

(** The copies of the specs. *)
Lemma copy_spec_rows_Ok ids specs : forall m m',
  copy_spec_rows ids specs m = Ok m' ->
  (forall sid x, m !! sid = Some x -> m' !! sid = Some x)
  /\ (forall kv, kv ∈ specs -> m !! copy_id ids kv.2 = None
        /\ m' !! copy_id ids kv.2 = Some (recovered_spec (ni_submission ids) kv.2))
  /\ (forall sid x, m' !! sid = Some x -> m !! sid = Some x
        \/ exists kv, kv ∈ specs /\ sid = copy_id ids kv.2 /\ x = recovered_spec (ni_submission ids) kv.2).
Proof.
  induction specs as [|[k y] specs IH]; intros m m'; cbn [copy_spec_rows].
  { intros [= <-]. split_and!; [done | by intros ? ?%not_elem_of_nil | by left]. }
  destruct (insert_row _ _ m) as [m1|] eqn:Ei; [|done]. apply insert_row_Ok in Ei as [Hnone ->].
  intros Hc. destruct (IH _ _ Hc) as (Hk & Hn & Ho). split_and!.
  - intros sid x Hx. apply Hk. rewrite lookup_insert_ne; [done|]. congruence.
  - intros kv Hin. apply elem_of_cons in Hin as [->|Hin].
    + split; [done|]. apply Hk. by rewrite lookup_insert, decide_True.
    + destruct (Hn _ Hin) as [H1 H2]. split; [|done]. by apply lookup_insert_None in H1 as [? _].
  - intros sid x Hx. destruct (Ho _ _ Hx) as [Hx'|(kv & Hin & -> & ->)].
    + apply lookup_insert_Some in Hx' as [[<- <-]|[_ Hx']]; [|by left].
      right. exists (k, y). split_and!; [by left|done|done].
    + right. exists kv. split_and!; [by right|done|done].
Qed.

Lemma copied_queued old job reason es e :
  events_of old Ev_Queued es = [e] -> exists e', events_of job Ev_Queued (FleetRecovery.copied_events old job reason es) = [e']
    /\ je_detail e' = je_detail e.
Proof.
  intros He. set (copy := fun e => {| je_job := job; je_kind := je_kind e; je_success := je_success e;
         je_remark := if decide (je_kind e = Ev_Queued) then Some reason else je_remark e;
         je_detail := je_detail e |}).
  exists (copy e). split; [|done]. unfold FleetRecovery.copied_events. fold copy.
  assert (Hrev : forall l, events_of job Ev_Queued (map copy (rev l))
                   = rev (map copy (filter (fun e => je_kind e = Ev_Queued) l))).
  { intros l. unfold events_of. induction l as [|x l IH]; [done|]. cbn [rev].
    rewrite map_app, filter_app, IH. cbn [map]. destruct (decide (je_kind x = Ev_Queued)) as [Hx|Hx].
    - rewrite (filter_cons_True _ _ l), filter_cons_True, filter_nil by done. done.
    - rewrite (filter_cons_False _ _ l), filter_cons_False, filter_nil, app_nil_r by (try done; by intros []). done. }
  rewrite Hrev. assert (Hf : filter (fun e => je_kind e = Ev_Queued)
    (List.filter (fun e => (je_job e =? old) && (bool_decide (je_kind e = Ev_Queued)
        || bool_decide (je_kind e = Ev_PlanMessageSent))) es) = events_of old Ev_Queued es).
  { unfold events_of. clear He. induction es as [|x es IH]; [done|]. cbn [List.filter].
    destruct (decide (je_job x = old /\ je_kind x = Ev_Queued)) as [[Hj Hq]|Hn].
    - destruct (_ && _) eqn:E; [rewrite !filter_cons_True by done; f_equal; exact IH|].
      by rewrite Hj, Hq, Z.eqb_refl in E.
    - rewrite (filter_cons_False _ _ es) by done. destruct (_ && _) eqn:E; [|done].
      rewrite filter_cons_False; [done|]. intros Hq. apply Hn. bool_hyps. by apply Z.eqb_eq in H0. }
  by rewrite Hf, He.
Qed.
Lemma copied_events_job old job reason es :
  Forall (fun e => je_job e = job) (FleetRecovery.copied_events old job reason es).
Proof.
  unfold FleetRecovery.copied_events. apply Forall_forall. intros e He.
  by apply list_elem_of_fmap in He as (x & -> & _).
Qed.
Lemma first_run_Some sub db old r :
  first_run sub db = Some (old, r) ->
  su_runs db !! old = Some r /\ rr_run_index (run_row r) = 0
  /\ exists x, su_specs db !! rr_spec (run_row r) = Some x /\ ss_submission x = sub /\ ss_index x = 0.
Proof.
  unfold first_run. intros Hh. apply head_Some_elem_of, elem_of_rows in Hh as [Hr Hp].
  apply andb_true_iff in Hp as [Hi%Z.eqb_eq Hx]. split_and!; [done..|].
  destruct (su_specs db !! _) as [x|]; [|done]. apply andb_true_iff in Hx as [?%Z.eqb_eq ?%Z.eqb_eq].
  by exists x.
Qed.

(** The specs of a recovered submission are those of the prior one. *)
Definition recovered_plan (ids : NewIds) (submission : Uuid) (db : SubmissionDb) (n : nat) (x : SubmissionSpec)
  : Prop :=
  exists sid y, su_specs db !! sid = Some y /\ ss_submission y = submission
    /\ ss_index y = Z.of_nat n /\ x = recovered_spec (ni_submission ids) y.
Lemma recovered_generation ids submission target reason prior db db' :
  store_wf db -> add_generation ids submission target reason prior db = Ok db' ->
  generation (ni_submission ids) (ni_job ids) (ni_spec ids) (recovered_plan ids submission db) db db'
  /\ su_idempotency db' = su_idempotency db
  /\ su_provenance db' = copy_row id submission (ni_submission ids) (su_provenance db).
Proof.
  intros Hwf. unfold add_generation. cbv zeta.
  destruct (insert_row _ _ (su_submissions db)) as [subs|] eqn:Es; [|done]. cbn [map_err].
  destruct (copy_spec_rows _ _ _) as [specs|] eqn:Ec; [|done]. cbn [map_err].
  destruct (first_run _ _) as [[old r]|] eqn:Ef; [|done].
  destruct (insert_row _ _ (su_runs db)) as [runs|] eqn:Er; [|done]. cbn [map_err]. intros [= <-].
  apply insert_row_Ok in Es as [Hns ->], Er as [Hnr ->].
  apply first_run_Some in Ef as (Hold & Hidx & x & Hx & Hxs & Hxi).
  destruct (wf_run _ Hwf _ _ Hold) as [(x' & Hx' & Hm & _) (pv & e & Hpv & He & Hd)].
  rewrite Hx in Hx'. injection Hx' as <-.
  assert (Hsub : rr_submission (run_row r) = submission) by (destruct Hm as (-> & _); done).
  rewrite Hsub in Hpv. destruct (copied_queued old (ni_job ids) reason _ _ He) as (e' & He' & Hd').
  destruct (copy_spec_rows_Ok _ _ _ _ Ec) as (Hk & Hn & Ho). split; [|done]. split; simpl.
  - by eexists.
  - done.
  - exact Hk.
  - intros n y (sid & z & Hz & Hzs & Hzi & ->).
    destruct (Hn (sid, z)) as [H1 H2]; [by apply spec_rows_rows|]. unfold copy_id in H1, H2.
    cbn [snd] in H1, H2. rewrite Hzi, Nat2Z.id in H1, H2.
    destruct (wf_spec _ Hwf _ _ Hz) as (_ & Hc & _ & Hcom). by split_and!.
  - intros sid y Hy. destruct (Ho _ _ Hy) as [|([k z] & Hin & -> & ->)]; [by left|]. right.
    apply spec_rows_rows in Hin as [Hz Hzs]. cbn [fst snd] in *. exists (Z.to_nat (ss_index z)).
    split; [|done]. exists k, z. split_and!; try done. pose proof (wf_spec _ Hwf _ _ Hz). lia.
  - intros n y k (sid & z & Hz & Hzs & Hzi & ->) Hlt.
    destruct (wf_dense _ Hwf sid z (Z.of_nat k) Hz ltac:(lia)) as (sid' & z' & Hz' & H1 & H2).
    eexists. exists sid', z'. split_and!; [done | congruence | done | done].
  - eexists _, _. split; [done|]. split; [by exists (rr_spec (run_row r)), x|].
    destruct Hm as (_ & H2 & H3 & H4 & H5 & H6 & H7 & H8 & H9). by unfold run_matches; split_and!.
  - exists pv, e', (FleetRecovery.copied_events old (ni_job ids) reason (su_events db)).
    unfold copy_row. rewrite Hpv. split_and!; [done|done|done|congruence|apply copied_events_job].
Qed.

(** A recovery: the prior generation is given up in place, and a new one added. *)
Lemma recover_steps ids submission target reason target_ok active owing db db' :
  store_wf db -> recover_rows ids submission target reason target_ok active owing db = Ok db' ->
  exists mid, in_place db mid /\ su_specs mid = su_specs db
  /\ generation (ni_submission ids) (ni_job ids) (ni_spec ids) (recovered_plan ids submission mid) mid db'
  /\ su_idempotency db' = su_idempotency mid
  /\ su_provenance db' = copy_row id submission (ni_submission ids) (su_provenance mid).
Proof.
  intros Hwf. unfold recover_rows. destruct (ensure _ _) as [[]|]; [|done].
  destruct (ensure _ _) as [[]|]; [|done]. destruct (su_submissions db !! submission) as [prior|]; [|done].
  destruct (ensure _ _) as [[]|]; [|done]. destruct (ensure _ _) as [[]|]; [|done].
  set (mid := foldl _ _ _). intros Hg. exists mid.
  pose proof (abandon_in_place submission reason (List.filter (job_of submission db) owing) db Hwf) as Hmid.
  fold mid in Hmid. split; [done|]. split; [|by eapply recovered_generation, Hg; apply (ip_wf _ _ Hmid)].
  subst mid. clear. generalize (List.filter (job_of submission db) owing). intros jobs.
  revert db. induction jobs as [|j jobs IH]; intros db; [done|]. cbn [foldl]. rewrite IH.
  unfold abandon_run. destruct (su_runs db !! j); [|done]. by destruct (decide _).
Qed.

Lemma store_step_wf db db' : store_wf db -> store_step db db' -> store_wf db'.
Proof.
  intros Hwf Hs. destruct Hs.
  - match goal with |- store_wf (persist_submission ?i ?p ?s ?d).2 =>
      destruct (persist_cases i p s d) as [->|[Hadd _]]; [done|] end. by eapply added_wf.
  - by eapply append_wf.
  - by apply status_wf.
  - by eapply ip_wf, freeze_in_place.
  - by eapply ip_wf, prepare_in_place.
  - edestruct recover_steps as (mid & Hmid & _ & Hge & _); [done..|].
    eapply generation_wf; [apply (ip_wf _ _ Hmid) | exact Hge].
Qed.
Lemma reachable_wf db : store_reachable db -> store_wf db.
Proof.
  unfold store_reachable. intros Hr. refine (rtc_ind_r store_wf empty_store _ _ db Hr).
  - split; intros *; cbn; rewrite ?lookup_empty; try discriminate 1. intros He. by apply not_elem_of_nil in He.
  - intros d d' _ Hs Hwf. by eapply store_step_wf.
Qed.
End Steps.

(** ** The claims *)
Section Claims.
Context `{DigestEnv}.

(** Two unfinished runs of one submission are the same run. *)
Lemma one_unfinished db id id' r r' :
  store_wf db -> su_runs db !! id = Some r -> su_runs db !! id' = Some r' ->
  rr_submission (run_row r) = rr_submission (run_row r') ->
  run_status r <> J_Completed -> run_status r' <> J_Completed -> id = id'.
Proof.
  intros Hwf Hr Hr' Hsub Hn Hn'.
  destruct (wf_run _ Hwf _ _ Hr) as [(spec & Hs & (Hm & _) & Hi) _].
  destruct (wf_run _ Hwf _ _ Hr') as [(spec' & Hs' & (Hm' & _) & Hi') _].
  assert (Hpos : forall x y sx sy idx idy, su_runs db !! idx = Some x -> su_runs db !! idy = Some y ->
    su_specs db !! rr_spec (run_row x) = Some sx -> su_specs db !! rr_spec (run_row y) = Some sy ->
    ss_submission sx = rr_submission (run_row y) ->
    0 <= rr_run_index (run_row x) < ss_requested_run_count sx -> run_status x <> J_Completed ->
    ~ before (ss_index sx) (rr_run_index (run_row x)) (ss_index sy) (rr_run_index (run_row y))).
  { intros x y sx sy idx idy Hx Hy Hsx Hsy Hss Hix Hst Hb.
    destruct (wf_chain _ Hwf _ _ _ Hy Hsy _ _ _ Hsx Hss Hix Hb) as (z & q & Hq & Hqs & Hqi & Hqc).
    rewrite (wf_unique _ Hwf z idx q x Hq Hx Hqs Hqi) in Hq. congruence. }
  pose proof (Hpos _ _ _ _ _ _ Hr Hr' Hs Hs' ltac:(congruence) Hi Hn) as H1.
  pose proof (Hpos _ _ _ _ _ _ Hr' Hr Hs' Hs ltac:(congruence) Hi' Hn') as H2. unfold before in *.
  assert (Hidx : ss_index spec = ss_index spec') by lia.
  apply (wf_unique _ Hwf id id' r r' Hr Hr'); [|lia].
  apply (wf_spec_unique _ Hwf _ _ spec spec' Hs Hs'); congruence.
Qed.

(** C9: The runs of a submission follow its plan.  In every state of the store that
    creations, requests for the next run, changes of status, the freezing of sources,
    preparations with the frozen commit and recoveries reach, a run carries the
    repository, commit (up to the case of its digits), reference, kind and workload
    key of its spec and the provenance its submission was accepted with, its index is
    within the spec's count, every position of the plan before it (an earlier spec,
    or the same spec with a smaller index) is held by a completed run, its own
    position by no other run, and if it is not completed no other run of its
    submission is uncompleted. *)
Theorem runs_follow_plan db id r :
  store_reachable db -> su_runs db !! id = Some r ->
  exists spec, su_specs db !! rr_spec (run_row r) = Some spec
  /\ run_matches (run_row r) spec
  /\ 0 <= rr_run_index (run_row r) < ss_requested_run_count spec
  /\ (exists pv e, su_provenance db !! rr_submission (run_row r) = Some pv
        /\ events_of id Ev_Queued (su_events db) = [e] /\ je_detail e = Some (pvr_detail pv))
  /\ (forall sid spec' j, su_specs db !! sid = Some spec' ->
        ss_submission spec' = rr_submission (run_row r) -> 0 <= j < ss_requested_run_count spec' ->
        before (ss_index spec') j (ss_index spec) (rr_run_index (run_row r)) ->
        exists id' r', su_runs db !! id' = Some r' /\ rr_spec (run_row r') = sid
          /\ rr_run_index (run_row r') = j /\ run_status r' = J_Completed)
  /\ (forall id' r', su_runs db !! id' = Some r' -> rr_spec (run_row r') = rr_spec (run_row r) ->
        rr_run_index (run_row r') = rr_run_index (run_row r) -> id' = id)
  /\ (run_status r <> J_Completed -> forall id' r', su_runs db !! id' = Some r' ->
        rr_submission (run_row r') = rr_submission (run_row r) -> run_status r' <> J_Completed ->
        id' = id).
Proof.
  intros Hr Hrun. apply reachable_wf in Hr as Hwf.
  destruct (wf_run _ Hwf _ _ Hrun) as [(spec & Hs & Hm & Hi) Hq]. exists spec. split_and!; try done; try lia.
  - by apply (wf_chain _ Hwf id r spec).
  - intros id' r' Hr' Hsp Hx. by apply (wf_unique _ Hwf id' id r' r).
  - intros Hn id' r' Hr' Hsub Hn'. by apply (one_unfinished db id' id r' r).
Qed.

(** The position after a run's in the plan. *)
Definition successor (db : SubmissionDb) (r : RunRow) (spec : SubmissionSpec) (sid : Uuid) (j : Z) : Prop :=
  (rr_run_index r + 1 < ss_requested_run_count spec /\ sid = rr_spec r /\ j = rr_run_index r + 1)
  \/ (ss_requested_run_count spec <= rr_run_index r + 1 /\ j = 0
      /\ exists spec', su_specs db !! sid = Some spec' /\ ss_submission spec' = rr_submission r
          /\ ss_index spec' = ss_index spec + 1).
(** No run of the submission is further. *)
Definition furthest (db : SubmissionDb) (r : RunRow) (spec : SubmissionSpec) : Prop :=
  forall id' r' spec', su_runs db !! id' = Some r' -> rr_submission (run_row r') = rr_submission r ->
    su_specs db !! rr_spec (run_row r') = Some spec' ->
    ~ before (ss_index spec) (rr_run_index r) (ss_index spec') (rr_run_index (run_row r')).

Lemma furthest_quiet db id r spec :
  store_wf db -> su_runs db !! id = Some r -> run_status r = J_Completed ->
  su_specs db !! rr_spec (run_row r) = Some spec -> furthest db (run_row r) spec ->
  active_runs (rr_submission (run_row r)) db = 0
  /\ max_run_index (rr_spec (run_row r)) db = Some (rr_run_index (run_row r)).
Proof.
  intros Hwf Hr Hc Hs Hf. split.
  - unfold active_runs. rewrite runs_where_nil; [done|]. intros x q Hq.
    destruct (rr_submission (run_row q) =? _) eqn:E; [|done]. apply Z.eqb_eq in E. simpl.
    destruct (wf_run _ Hwf _ _ Hq) as [(sq & Hsq & (Hm & _) & Hi) _].
    pose proof (Hf _ _ _ Hq E Hsq) as Hnb.
    destruct (wf_run _ Hwf _ _ Hr) as [(sp & Hsp & (Hmr & _) & Hir) _]. rewrite Hs in Hsp. injection Hsp as <-.
    assert (before (ss_index sq) (rr_run_index (run_row q)) (ss_index spec) (rr_run_index (run_row r))
            \/ (ss_index sq = ss_index spec /\ rr_run_index (run_row q) = rr_run_index (run_row r)))
      as [Hb|[Hix Hjx]] by (unfold before in *; lia).
    + destruct (wf_chain _ Hwf _ _ _ Hr Hs _ _ _ Hsq ltac:(congruence) Hi Hb) as (y & z & Hz & Hzs & Hzi & Hzc).
      rewrite (wf_unique _ Hwf y x z q Hz Hq Hzs Hzi) in Hz. rewrite Hq in Hz. injection Hz as ->.
      by rewrite Hzc.
    + assert (Hsid : rr_spec (run_row q) = rr_spec (run_row r))
        by (apply (wf_spec_unique _ Hwf _ _ sq spec Hsq Hs); congruence).
      rewrite (wf_unique _ Hwf x id q r Hq Hr Hsid Hjx) in Hq. rewrite Hr in Hq. injection Hq as <-.
      by rewrite Hc.
  - destruct (max_run_index_spec _ _ _ _ Hr eq_refl) as (m & Hm & Hle & y & q & Hq & Hqs & Hqi).
    rewrite Hm. f_equal. destruct (wf_run _ Hwf _ _ Hq) as [(sq & Hsq & (Hmq & _) & _) _].
    destruct (wf_run _ Hwf _ _ Hr) as [(sp & Hsp & (Hmr & _) & _) _].
    assert (sq = spec) by congruence. assert (sp = spec) by congruence. subst sq sp.
    pose proof (Hf _ _ _ Hq ltac:(congruence) Hsq) as Hnb. unfold before in Hnb. lia.
Qed.

Lemma insert_run_succeeds id row prior db :
  su_runs db !! id = None ->
  (forall i r, su_runs db !! i = Some r -> rr_spec (run_row r) = rr_spec row ->
     rr_run_index (run_row r) <> rr_run_index row) ->
  exists db', insert_run id row prior db = Ok db'
  /\ su_runs db' !! id = Some {| run_row := row; run_status := J_Queued |}.
Proof.
  intros Hn Hfree. unfold insert_run. rewrite runs_where_nil.
  - cbn [is_nil_list negb ensure]. unfold insert_row. rewrite Hn. eexists. split; [done|]. simpl.
    by rewrite lookup_insert, decide_True.
  - intros i r Hr. destruct (rr_spec (run_row r) =? rr_spec row) eqn:E; [|done]. apply Z.eqb_eq in E.
    simpl. apply Z.eqb_neq. by apply (Hfree i).
Qed.

(** A completed run is followed by the next one.  When the furthest run of a
    submission is completed and is not a build, asking for the next run creates it at
    the next position of the plan, in the queue, if the plan has one (the next index of
    its spec, or the first run of the next spec), and otherwise changes nothing. *)
Theorem next_run_created new_id id db r spec :
  store_reachable db -> su_runs db !! id = Some r -> run_status r = J_Completed ->
  rr_task_kind (run_row r) <> Kind_BuildOnly ->
  su_specs db !! rr_spec (run_row r) = Some spec -> furthest db (run_row r) spec ->
  su_runs db !! new_id = None ->
  (exists sid j db' q, successor db (run_row r) spec sid j
     /\ append_next_benchmark_run new_id id db = Ok (Some new_id, db')
     /\ su_runs db' !! new_id = Some q /\ rr_submission (run_row q) = rr_submission (run_row r)
     /\ rr_spec (run_row q) = sid /\ rr_run_index (run_row q) = j /\ run_status q = J_Queued)
  \/ ((forall sid j, ~ successor db (run_row r) spec sid j)
      /\ append_next_benchmark_run new_id id db = Ok (None, db)).
Proof.
  intros Hreach Hr Hc Hk Hs Hf Hnew. pose proof (reachable_wf _ Hreach) as Hwf.
  destruct (furthest_quiet _ _ _ _ Hwf Hr Hc Hs Hf) as [Ha Hm].
  destruct (ro_spec _ _ _ (wf_run _ Hwf _ _ Hr)) as (sp & Hsp & (Hsub & _) & Hi).
  rewrite Hs in Hsp. injection Hsp as <-.
  unfold append_next_benchmark_run. rewrite Hr, Hs, Ha, Hm. simpl default.
  rewrite bool_decide_eq_true_2, bool_decide_eq_false_2 by done. cbn [negb orb].
  change (0 <? 0) with false. rewrite Z.eqb_refl. cbn [negb].
  destruct (Z.ltb_spec (rr_run_index (run_row r) + 1) (ss_requested_run_count spec)) as [Hlt|Hge].
  - left. destruct (insert_run_succeeds new_id (next_run_row (run_row r) (rr_run_index (run_row r) + 1)) id db)
      as (db' & Hins & Hq); [done| |].
    { intros i q Hq Hqs Hqi. simpl in Hqs, Hqi.
      apply (Hf _ _ spec Hq); [|congruence|unfold before; lia].
      destruct (ro_spec _ _ _ (wf_run _ Hwf _ _ Hq)) as (sq & Hsq & (Hx & _) & _). congruence. }
    rewrite Hins. eexists _, _, db', _. split; [left; by split_and!|]. done.
  - destruct (next_spec _ _ _) as [[sid nxt]|] eqn:Hn.
    + left. apply next_spec_Some in Hn as (Hnx & Hns & Hgt & Hmin). cbn [fst snd].
      destruct (wf_spec _ Hwf _ _ Hnx) as (_ & Hcount & [sub Hsubrow] & _).
      assert (Hidx : ss_index nxt = ss_index spec + 1).
      { pose proof (wf_spec _ Hwf _ _ Hs).
        destruct (Z.eq_dec (ss_index nxt) (ss_index spec + 1)) as [|Hne]; [done|].
        destruct (wf_dense _ Hwf _ _ (ss_index spec + 1) Hnx ltac:(lia)) as (x & sx & Hx & Hxs & Hxi).
        pose proof (Hmin _ _ Hx ltac:(congruence) ltac:(lia)). lia. }
      assert (Hnone : forall i q, su_runs db !! i = Some q -> rr_spec (run_row q) <> sid).
      { intros i q Hq Hqs. destruct (ro_spec _ _ _ (wf_run _ Hwf _ _ Hq)) as (sq & Hsq & (Hx & _) & _).
        rewrite Hqs, Hnx in Hsq. injection Hsq as <-. apply (Hf _ _ nxt Hq); [congruence|congruence|].
        left. lia. }
      rewrite runs_where_nil by (intros i q Hq; apply Z.eqb_neq; by apply (Hnone i)). cbn [is_nil_list negb].
      rewrite Hns in Hsubrow. rewrite Hsubrow.
      destruct (insert_run_succeeds new_id (initial_run_row (rr_submission (run_row r)) sub sid nxt) id db)
        as (db' & Hins & Hq); [done| |].
      { intros i q Hq Hqs. by destruct (Hnone _ _ Hq). }
      rewrite Hins. eexists _, _, db', _. split; [|done]. right. split_and!; [done|done|]. by exists nxt.
    + right. split; [|done]. intros sid j [(Hl & _)|(_ & _ & nxt & Hx & Hxs & Hxi)]; [lia|].
      pose proof (next_spec_None _ _ _ Hn _ _ Hx Hxs). lia.
Qed.

(** Only creation writes idempotency rows. *)
Lemma step_same_idempotency db db' :
  store_wf db -> store_step db db' ->
  (exists e c ids p seen, prepare e c = Ok p /\ db' = (persist_submission ids p seen db).2)
  \/ su_idempotency db' = su_idempotency db.
Proof.
  intros Hwf Hs. destruct Hs as [| new_id completed made d d' Ha | | | |].
  - left. by eexists _, _, _, _, _.
  - right. unfold append_next_benchmark_run in Ha. ok_inv Ha; try done;
      match goal with Hi : insert_run _ _ _ _ = Ok _ |- _ =>
        apply insert_run_Ok in Hi as (_ & _ & ->); done end.
  - right. unfold set_run_status. destruct (su_runs _ !! _) as [r|]; [|done]. by destruct (job_terminal _).
  - right. by eapply ip_idempotency, freeze_in_place.
  - right. by eapply ip_idempotency, prepare_in_place.
  - right. edestruct recover_steps as (mid & Hmid & _ & _ & -> & _); [done..|]. apply (ip_idempotency _ _ Hmid).
Qed.
(** Idempotency rows are written once. *)
Lemma step_idempotency db db' k row :
  store_wf db -> store_step db db' -> su_idempotency db !! k = Some row -> su_idempotency db' !! k = Some row.
Proof.
  intros Hwf Hs Hk. destruct (step_same_idempotency _ _ Hwf Hs) as [(e & c & ids & p & seen & Hprep & ->)| ->]; [|done].
  unfold persist_submission. destruct (existing_receipt p seen) as [[x|]|]; [done| |done].
  destruct (first_source _) as [source|]; [|done].
  destruct (write_submission _ _ _ _) as [w|] eqn:Hw; [|done]. destruct (negb _); [done|].
  destruct (su_idempotency db !! (_, _)) eqn:Hnone; [done|]. simpl.
  assert (su_idempotency w = su_idempotency db) as ->.
  { unfold write_submission in Hw. cbv zeta in Hw. ok_inv Hw. done. }
  rewrite lookup_insert_ne; [done|]. intros <-. congruence.
Qed.
Lemma steps_idempotency db db' k row :
  store_wf db -> rtc store_step db db' -> su_idempotency db !! k = Some row -> su_idempotency db' !! k = Some row.
Proof.
  intros Hwf Hr. revert Hwf. induction Hr as [|x y z Hxy _ IH]; [done|]. intros Hwf Hk.
  apply IH; [by eapply store_step_wf | by eapply step_idempotency].
Qed.

Definition key_of (p : PreparedSubmission) : rstr * rstr :=
  (pk_namespace (cmd_producer_key (ps_command p)), pk_key (cmd_producer_key (ps_command p))).
Definition demand_row (p : PreparedSubmission) (r : SubmissionReceipt) : IdempotencyRow :=
  {| idr_submission := sbr_submission_id r; idr_contract_version := Some (ps_contract_version p);
     idr_request_digest := Some (ps_request_digest p); idr_initial_job_ids := sbr_initial_job_ids r |}.

(** The rows of a reachable store name their demand. *)
Definition rows_full (db : SubmissionDb) : Prop :=
  forall k row, su_idempotency db !! k = Some row ->
    is_Some (idr_contract_version row) /\ is_Some (idr_request_digest row).
Lemma persist_idempotency ids p seen db :
  let out := persist_submission ids p seen db in
  su_idempotency out.2 = su_idempotency db
  \/ exists r, out.1 = Ok r /\ su_idempotency out.2 = <[key_of p := demand_row p r]> (su_idempotency db).
Proof.
  cbv zeta. unfold persist_submission. destruct (existing_receipt p seen) as [[x|]|]; [by left| |by left].
  destruct (first_source _) as [source|]; [|by left].
  destruct (write_submission _ _ _ _) as [w|] eqn:Hw; [|by left]. destruct (negb _); [by left|].
  destruct (su_idempotency db !! (_, _)); [by left|]. right. eexists. split; [done|]. simpl.
  assert (su_idempotency w = su_idempotency db) as ->; [|done].
  unfold write_submission in Hw. cbv zeta in Hw. ok_inv Hw. done.
Qed.
Lemma reachable_full db : store_reachable db -> rows_full db.
Proof.
  unfold store_reachable. intros Hr. refine (rtc_ind_r rows_full empty_store _ _ db Hr).
  { intros k row. cbn. by rewrite lookup_empty. }
  intros d d' Hd Hs Hf.
  destruct (step_same_idempotency _ _ (reachable_wf _ Hd) Hs) as [(e & c & ids & p & seen & _ & ->)|Heq].
  - destruct (persist_idempotency ids p seen d) as [Heq|(r & _ & Heq)]; intros k row; rewrite Heq; [apply Hf|].
    intros Hk. apply lookup_insert_Some in Hk as [[_ <-]|[_ Hk]]; [by split; eexists | by eapply Hf].
  - intros k row. rewrite Heq. apply Hf.
Qed.

(** A receipt stands for a row under the producer's key. *)
Lemma existing_receipt_row p db r :
  rows_full db -> existing_receipt p db = Ok (Some r) -> su_idempotency db !! key_of p = Some (demand_row p r).
Proof.
  intros Hf. unfold existing_receipt, key_of. destruct (su_idempotency db !! _) as [row|] eqn:E; [|done].
  destruct (Hf _ _ E) as [[v Hv] [g Hg]]. rewrite Hv, Hg.
  destruct (negb _ || _) eqn:Ec; [done|]. intros [= <-]. bool_hyps. apply Z.eqb_eq in H0.
  unfold demand_row. simpl. destruct row; simpl in *. unfold rstr_eqb in H1. bool_hyps. by subst.
Qed.
Lemma existing_receipt_read p q r db :
  su_idempotency db !! key_of p = Some (demand_row q r) ->
  existing_receipt p db
  = if (ps_contract_version q =? ps_contract_version p) && rstr_eqb (ps_request_digest q) (ps_request_digest p)
    then Ok (Some {| sbr_submission_id := sbr_submission_id r; sbr_disposition := Disp_AlreadySubmitted;
                     sbr_initial_job_ids := sbr_initial_job_ids r |})
    else Err (Sub_Conflict (key_of p).1 (key_of p).2).
Proof.
  unfold existing_receipt, key_of. cbv zeta. intros ->. cbn [demand_row idr_contract_version idr_request_digest].
  by destruct (_ =? _), (rstr_eqb _ _).
Qed.

(** A producer key names one submission for ever.  Once a submission has been
    answered with a receipt, created or recognised, every later submission under the
    same producer key, whatever the store did in between and whichever state its own
    look-up sees, changes nothing and is answered with the same submission and first
    run if it asks for the same demand (contract version and digest), and with a
    conflict otherwise. *)
Theorem producer_key_settled ids p seen db r db' ids' p' seen' now :
  store_reachable seen -> rtc store_step seen db ->
  persist_submission ids p seen db = (Ok r, db') ->
  rtc store_step db' seen' -> key_of p' = key_of p ->
  persist_submission ids' p' seen' now
  = (if (ps_contract_version p =? ps_contract_version p') && rstr_eqb (ps_request_digest p) (ps_request_digest p')
     then Ok {| sbr_submission_id := sbr_submission_id r; sbr_disposition := Disp_AlreadySubmitted;
                sbr_initial_job_ids := sbr_initial_job_ids r |}
     else Err (Sub_Conflict (key_of p).1 (key_of p).2), now).
Proof.
  intros Hseen Hdb Hp Hlater Hkey.
  assert (Hrow : su_idempotency db' !! key_of p = Some (demand_row p r)).
  { pose proof (persist_idempotency ids p seen db) as Hout. rewrite Hp in Hout. simpl in Hout.
    destruct Hout as [Heq|(x & Hx & Heq)].
    - rewrite Heq. unfold persist_submission in Hp.
      destruct (existing_receipt p seen) as [[y|]|] eqn:He; [| |done].
      + injection Hp as -> <-. eapply steps_idempotency; [by apply reachable_wf | exact Hdb |].
        apply existing_receipt_row; [by apply reachable_full | done].
      + destruct (first_source _) as [source|]; [|done].
        destruct (write_submission _ _ _ _) as [w|] eqn:Hw; [|done]. destruct (negb _); [done|].
        destruct (su_idempotency db !! (_, _)) as [row|] eqn:Hnone.
        * destruct (existing_receipt p db) as [[y|]|] eqn:Hy; [|done|done]. injection Hp as -> <-.
          apply existing_receipt_row; [|done]. apply reachable_full. unfold store_reachable. by transitivity seen.
        * injection Hp as <- <-. simpl in Heq. rewrite <- Heq. by rewrite lookup_insert, decide_True.
    - injection Hx as <-. rewrite Heq. by rewrite lookup_insert, decide_True. }
  assert (Hwf : store_wf db').
  { assert (Hd : store_reachable db) by (unfold store_reachable; by transitivity seen).
    destruct (persist_cases ids p seen db) as [Heq|[Hadd _]]; rewrite Hp in *; simpl in *.
    - rewrite Heq. by apply reachable_wf.
    - eapply added_wf; [by apply reachable_wf | exact Hadd]. }
  eapply steps_idempotency in Hrow; [|exact Hwf|exact Hlater].
  unfold persist_submission. rewrite (existing_receipt_read p' p r) by (by rewrite Hkey).
  rewrite Hkey. by destruct (_ && _).
Qed.

(** The race that the election does not settle: the second of two concurrent
    submissions of one Slack request fails on the unique reporting identity before it
    reaches the election, and is answered with an error instead of the receipt. *)
Lemma concurrent_slack_fails ids p seen now row x other :
  existing_receipt p seen = Ok None -> pv_slack (cmd_provenance (ps_command p)) = Some row ->
  su_slack now !! x = Some other -> slp_reporting_identity other = slp_reporting_identity row ->
  exists e, persist_submission ids p seen now = (Err e, now).
Proof.
  intros He Hrow Hx Hid. unfold persist_submission. rewrite He.
  destruct (first_source _) as [source|]; [|by eexists].
  destruct (write_submission ids p source now) as [w|e] eqn:Hw; [|by eexists]. exfalso.
  unfold write_submission in Hw. cbv zeta in Hw. rewrite Hrow in Hw.
  assert (Hbad : slack_row_ok row (su_slack now) = false).
  { unfold slack_row_ok. apply andb_false_intro2. apply negb_false_iff, existsb_exists.
    exists (x, other). split; [by apply list_elem_of_In, elem_of_map_to_list|]. simpl.
    by apply bool_decide_eq_true_2. }
  rewrite Hbad in Hw. cbn [ensure] in Hw. ok_inv Hw.
Qed.
End Claims.

(** ** Demonstration: a comparison of two variants, two runs and one run. *)
Section Demo.
#[local] Instance demo_hash : DigestEnv :=
  {| scalar_bytes := unary_scalar; sha256_hex := fun _ => repeat 97 64 |}.
Definition demo_args : list rstr := [lit "--start-at"; lit "1"; lit "--count"; lit "5"].
Definition demo_variant (rev : rstr) (runs : Z) : BenchmarkVariant :=
  {| bvr_source := demo_source rev (Some (workload_key demo_args)) Kind_Benchmark;
     bvr_requested_run_count := runs; bvr_baseline_calibration_id := None |}.
Definition demo_benchmark : SubmissionCommand :=
  {| cmd_actor := Actor_System;
     cmd_producer_key := {| pk_namespace := lit "github_webhook"; pk_key := lit "7" |};
     cmd_constraints := SchedulingConstraints_default;
     cmd_task := Plan_Benchmark
       {| bpl_variants := [demo_variant (lit "main") 2; demo_variant (lit "fix") 1];
          bpl_effective_args := demo_args |};
     cmd_provenance :=
       {| pv_queued_event_detail :=
            object_insert "effective_args" (jstrs demo_args)
              (to_value (Queued_BranchPush (lit "main") 1 (Some (lit "--start-at 1 --count 5"))));
          pv_github := None; pv_slack := None |} |}.
Definition demo_prepared : PreparedSubmission :=
  match prepare [] demo_benchmark with
  | Ok p => p
  | Err _ => {| ps_command := demo_benchmark; ps_contract_version := 0; ps_request_digest := [] |}
  end.
Definition demo_ids : NewIds := {| ni_submission := 500; ni_job := 600; ni_spec := fun n => 700 + Z.of_nat n |}.
Definition demo_created : SubmissionDb := (persist_submission demo_ids demo_prepared empty_store empty_store).2.
Definition run_done (id : Uuid) (db : SubmissionDb) : SubmissionDb := set_run_status id J_Completed db.
Definition appended (new_id id : Uuid) (db : SubmissionDb) : SubmissionDb :=
  match append_next_benchmark_run new_id id db with Ok (_, db') => db' | Err _ => db end.
Definition demo_second : SubmissionDb := run_done 601 (appended 601 600 (run_done 600 demo_created)).
Definition demo_third : SubmissionDb := appended 602 601 demo_second.

Lemma demo_created_reachable : store_reachable demo_created.
Proof. apply rtc_once. apply (step_persist [] demo_benchmark). vm_compute. reflexivity. Qed.
Lemma appended_steps start new_id id db :
  rtc store_step start db -> is_ok (append_next_benchmark_run new_id id db) = true ->
  rtc store_step start (appended new_id id db).
Proof.
  intros Hr Hok. unfold appended. destruct (append_next_benchmark_run _ _ _) as [[made db']|] eqn:E; [|done].
  eapply rtc_r; [exact Hr|]. by eapply step_append.
Qed.
Lemma done_steps start id db : rtc store_step start db -> rtc store_step start (run_done id db).
Proof. intros Hr. eapply rtc_r; [exact Hr|]. apply step_status. Qed.
Lemma demo_second_steps : rtc store_step demo_created demo_second.
Proof. apply done_steps, appended_steps; [|vm_compute; reflexivity]. apply done_steps, rtc_refl. Qed.
Lemma demo_third_steps : rtc store_step demo_created demo_third.
Proof. apply appended_steps; [apply demo_second_steps | vm_compute; reflexivity]. Qed.
Lemma demo_second_reachable : store_reachable demo_second.
Proof. unfold store_reachable. transitivity demo_created; [apply demo_created_reachable | apply demo_second_steps]. Qed.
Lemma demo_third_reachable : store_reachable demo_third.
Proof. unfold store_reachable. transitivity demo_created; [apply demo_created_reachable | apply demo_third_steps]. Qed.

Definition get_run (id : Uuid) (db : SubmissionDb) : Run :=
  default (initial_run demo_ids (demo_source [] None Kind_BuildOnly) (cmd_task demo_benchmark)) (su_runs db !! id).
Definition get_spec (id : Uuid) (db : SubmissionDb) : SubmissionSpec :=
  default (spec_row 0 0 (demo_source [] None Kind_BuildOnly, 1, None, false)) (su_specs db !! id).

(** The run of the second variant comes after both runs of the first. *)
Lemma runs_follow_plan_witness :
  rr_spec (run_row (get_run 602 demo_third)) = 701 /\
  exists id r, su_runs demo_third !! id = Some r /\ rr_spec (run_row r) = 700
    /\ rr_run_index (run_row r) = 1 /\ run_status r = J_Completed.
Proof.
  split; [vm_compute; reflexivity|].
  destruct (runs_follow_plan demo_third 602 (get_run 602 demo_third) demo_third_reachable)
    as (spec & Hs & _ & _ & _ & Hearlier & _); [vm_compute; reflexivity|].
  assert (Hspec : spec = get_spec 701 demo_third) by (vm_compute in Hs |- *; congruence). subst spec.
  apply (Hearlier 700 (get_spec 700 demo_third) 1); vm_compute; try reflexivity; [split; congruence|].
  left. reflexivity.
Defined.

(** A recovery starts the comparison again: its first run is queued under a new
    submission, with the commit and arguments of the first one. *)
Definition demo_recovery_rows : NewIds :=
  {| ni_submission := 510; ni_job := 610; ni_spec := fun n => 710 + Z.of_nat n |}.
Definition demo_recovered : SubmissionDb :=
  match recover_rows demo_recovery_rows 500 None (lit "host lost") false false [] demo_third with
  | Ok db => db | Err _ => demo_third end.
Lemma demo_recovered_reachable : store_reachable demo_recovered.
Proof.
  unfold store_reachable. transitivity demo_third; [apply demo_third_reachable|]. apply rtc_once.
  apply (step_recover demo_recovery_rows 500 None (lit "host lost") false false []). vm_compute. reflexivity.
Qed.
Example demo_recovered_run :
  run_status (get_run 610 demo_recovered) = J_Queued
  /\ rr_submission (run_row (get_run 610 demo_recovered)) = 510
  /\ rr_spec (run_row (get_run 610 demo_recovered)) = 710
  /\ rr_commit (run_row (get_run 610 demo_recovered)) = rr_commit (run_row (get_run 600 demo_recovered)).
Proof. vm_compute. done. Qed.

(** The second run of the first variant is followed by the first of the second. *)
Lemma demo_furthest : furthest demo_second (run_row (get_run 601 demo_second)) (get_spec 700 demo_second).
Proof.
  assert (Hall : forall id r, su_runs demo_second !! id = Some r ->
    rr_spec (run_row r) = 700 /\ rr_run_index (run_row r) <= 1).
  { intros id r Hr. apply elem_of_map_to_list in Hr.
    assert (Hf : Forall (fun kv : Uuid * Run => rr_spec (run_row kv.2) = 700 /\ rr_run_index (run_row kv.2) <= 1)
              (map_to_list (su_runs demo_second))).
    { vm_compute. repeat constructor; congruence. }
    rewrite Forall_forall in Hf. apply (Hf _ Hr). }
  intros id r spec Hr _ Hs Hb. destruct (Hall _ _ Hr) as [Hsp Hi]. rewrite Hsp in Hs.
  assert (spec = get_spec 700 demo_second) as -> by (vm_compute in Hs |- *; congruence).
  destruct Hb as [Hb|[_ Hb]]; [by apply Z.lt_irrefl in Hb|].
  assert (Hx : rr_run_index (run_row (get_run 601 demo_second)) = 1) by (vm_compute; reflexivity).
  rewrite Hx in Hb. lia.
Qed.
Lemma next_run_created_witness :
  exists sid j db' q, successor demo_second (run_row (get_run 601 demo_second)) (get_spec 700 demo_second) sid j
    /\ append_next_benchmark_run 602 601 demo_second = Ok (Some 602, db')
    /\ su_runs db' !! 602 = Some q /\ rr_spec (run_row q) = sid.
Proof.
  destruct (next_run_created 602 601 demo_second (get_run 601 demo_second) (get_spec 700 demo_second)
              demo_second_reachable) as [(sid & j & db' & q & H1 & H2 & H3 & H4 & H5 & _)|[_ Hnone]];
    try (vm_compute; reflexivity); [vm_compute; congruence | exact demo_furthest | |].
  - exists sid, j, db', q. auto.
  - vm_compute in Hnone. discriminate Hnone.
Defined.

Lemma producer_key_settled_witness :
  exists r, (persist_submission demo_ids demo_prepared empty_store empty_store).1 = Ok r
  /\ (persist_submission demo_ids demo_prepared demo_third demo_third).1
      = Ok {| sbr_submission_id := sbr_submission_id r; sbr_disposition := Disp_AlreadySubmitted;
              sbr_initial_job_ids := sbr_initial_job_ids r |}.
Proof.
  eexists. split; [vm_compute; reflexivity|].
  rewrite (producer_key_settled demo_ids demo_prepared empty_store empty_store
             {| sbr_submission_id := 500; sbr_disposition := Disp_Created; sbr_initial_job_ids := [600] |}
             demo_created demo_ids demo_prepared demo_third demo_third);
    [vm_compute; reflexivity | apply rtc_refl | apply rtc_refl | vm_compute; reflexivity
    | apply demo_third_steps | reflexivity].
Defined.
End Demo.
