(* ===== verification/Preparation.v ===== *)
(** * Preparation of payloads

    The view of a stored run that the daemon works with (the job assembly of
    crates/sbgh-daemon/src/job_source.rs) and the payload that the coordinator of
    crates/sbgh-daemon/src/fleet/coordinator.rs freezes for it.  The main result
    composes submission, store and preparation: the payload of a benchmark run has the
    arguments and the key that its submission was accepted with, whatever the default
    arguments have become, exactly when these arguments are in normal form. *)
From stdpp Require Import base list strings gmap.
From Stdlib Require Import ZArith Lia.
From S2P Require Import Prelude RustStr Json JsonText FleetModel Negotiation Validate FleetDb Workload Intent Submission SubmissionStore SubmissionRecovery RunChain.

Local Open Scope Z_scope.

(** ** The assembled job *)
Inductive ProgressTarget :=
| Progress_PullRequest (pr_number : Z) (comment_id check_run_id : option Z) (check_run_url : option rstr)
| Progress_CommitCheck (check_run_id : option Z)
| Progress_Slack (channel message_ts reporting_identity : rstr) (plan_message_ts : option rstr)
| Progress_Silent.
Record RunnableJob := {
  rj_id : Uuid;
  rj_task_submission_id : Uuid;
  rj_task_spec_id : Uuid;
  rj_task_run_index : Z;
  rj_requested_run_count : Z;
  rj_submission_requested_run_count : Z;
  rj_submission_run_index : Z;
  rj_baseline_calibration_id : option Z;
  rj_submission_artifact_prefix : rstr;
  rj_repository : rstr;
  rj_commit : rstr;
  rj_git_ref_display : rstr;
  rj_git_ref_kind : GitRefKind;
  rj_installation_id : Z;
  rj_task_kind : TaskKind;
  rj_build_target : BuildTarget;
  rj_workload_key : option rstr;
  rj_bench_args : list rstr;
  rj_progress : ProgressTarget;
  rj_claim_token : option Uuid
}.

(** [lookup_submission_specs]. *)
Definition specs_of (submission : Uuid) (db : SubmissionDb) : list SubmissionSpec :=
  filter (fun spec => ss_submission spec = submission) (map snd (map_to_list (su_specs db))).
Definition spec_measured_run_count (spec : SubmissionSpec) : Z :=
  measured_run_count (ss_task_kind spec) (ss_requested_run_count spec).
Definition sum_i32 (l : list Z) : Z := foldl (fun sum z => wrap_i32 (sum + z)) 0 l.
(** The arguments in the detail of the queued event. *)
Definition stored_bench_args (queued : option JobEvent) : list rstr :=
  match queued ≫= je_detail with Some detail => normalize_stored_value detail | None => [] end.

(** What other tables hold for a run: the repository's name, the pull request it is
    linked to and its number, and the comment and check run it reports to. *)
Record GithubReportIdentity := {
  gri_comment_id : option Z;
  gri_check_run_id : option Z;
  gri_check_run_url : option rstr
}.
Record AssemblyTables := {
  at_repository : option rstr;
  at_github_report : option GithubReportIdentity;
  at_latest_check_run : option (Z * option rstr);
  at_latest_comment_id : option Z;
  at_pull_request_link : option Z;
  at_pull_request_number : Z -> option Z
}.
Inductive AssembleError :=
| Asm_UnknownRepository (job : Uuid) (repo : Z)
| Asm_UnknownSubmission (job submission : Uuid)
| Asm_UnknownSpec (job spec : Uuid)
| Asm_NoSlackProvenance (job : Uuid)
| Asm_UnknownPullRequest (job : Uuid) (pull_request : Z).

(** [latest_plan_message_ts]; the detail is the one [plan_message_event] writes. *)
Definition latest_plan_message_ts (id submission : Uuid) (db : SubmissionDb) : option rstr :=
  match su_slack db !! submission ≫= slp_report_message_ts with
  | Some ts => Some ts
  | None => last (omap (fun e => (je_detail e ≫= value_get "plan_message_ts") ≫= as_str)
                    (events_of id Ev_PlanMessageSent (su_events db)))
  end.

Section Assembly.
Context `{DigestEnv}.

(** [ReportingIdentity::for_request]. *)
Definition identity_bytes (parts : list rstr) : list Z :=
  concat (map (fun part => be_bytes 8 (str_len part) ++ bytes part) parts).
Definition for_request (team_id channel message_ts : rstr) : rstr :=
  sha256_hex (identity_bytes [team_id; channel; message_ts]).

(** The reporting target of a run: a build reports nothing, a Slack request its thread
    (from the submission, or for older rows from the queued event), everything else a
    pull request or a commit. *)
Definition slack_target (id : Uuid) (row : RunRow) (db : SubmissionDb) : result ProgressTarget AssembleError :=
  match su_slack db !! rr_submission row with
  | Some identity =>
      Ok (Progress_Slack (slp_channel_id identity) (slp_request_message_ts identity)
            (slp_reporting_identity identity) (slp_report_message_ts identity))
  | None =>
      match (job_queued_event id db ≫= je_detail) ≫= queued_detail_of_value with
      | Some (Queued_SlackAdhoc channel message_ts reporting_identity _ _) =>
          Ok (Progress_Slack channel message_ts
                (default (for_request [] channel message_ts) reporting_identity)
                (latest_plan_message_ts id (rr_submission row) db))
      | _ => Err (Asm_NoSlackProvenance id)
      end
  end.
Definition github_target (id : Uuid) (tables : AssemblyTables) : result ProgressTarget AssembleError :=
  let check_run := match at_github_report tables with
                   | Some identity => check ← gri_check_run_id identity; Some (check, gri_check_run_url identity)
                   | None => at_latest_check_run tables
                   end in
  match at_pull_request_link tables with
  | Some link =>
      let? number := ok_or (at_pull_request_number tables link) (Asm_UnknownPullRequest id link) in
      let comment_id := match at_github_report tables with
                        | Some identity => gri_comment_id identity
                        | None => at_latest_comment_id tables
                        end in
      Ok (Progress_PullRequest number comment_id (fst <$> check_run) (check_run ≫= snd))
  | None => Ok (Progress_CommitCheck (fst <$> check_run))
  end.
Definition progress_target (id : Uuid) (row : RunRow) (tables : AssemblyTables) (db : SubmissionDb)
  : result ProgressTarget AssembleError :=
  if bool_decide (rr_task_kind row = Kind_BuildOnly) then Ok Progress_Silent
  else if bool_decide (rr_source row = Src_Slack) then slack_target id row db
  else github_target id tables.

(** [assemble_runnable]. *)
Definition assemble_runnable (id : Uuid) (r : Run) (tables : AssemblyTables) (claim_token : option Uuid)
    (db : SubmissionDb) : result RunnableJob AssembleError :=
  let row := run_row r in
  let? repository := ok_or (at_repository tables) (Asm_UnknownRepository id (rr_repo row)) in
  let? submission := ok_or (su_submissions db !! rr_submission row) (Asm_UnknownSubmission id (rr_submission row)) in
  let? spec := ok_or (su_specs db !! rr_spec row) (Asm_UnknownSpec id (rr_spec row)) in
  let specs := specs_of (rr_submission row) db in
  let earlier := filter (fun candidate => ss_index candidate < ss_index spec) specs in
  let? progress := progress_target id row tables db in
  Ok {| rj_id := id; rj_task_submission_id := rr_submission row; rj_task_spec_id := rr_spec row;
        rj_task_run_index := rr_run_index row;
        rj_requested_run_count := ss_requested_run_count spec;
        rj_submission_requested_run_count := sum_i32 (map spec_measured_run_count specs);
        rj_submission_run_index :=
          wrap_i32 (sum_i32 (map spec_measured_run_count earlier) + rr_run_index row);
        rj_baseline_calibration_id := ss_calibration spec;
        rj_submission_artifact_prefix := tsr_artifact_prefix submission;
        rj_repository := repository; rj_commit := default [] (rr_commit row);
        rj_git_ref_display := rr_ref_display row; rj_git_ref_kind := rr_ref_kind row;
        rj_installation_id := rr_installation row; rj_task_kind := rr_task_kind row;
        rj_build_target := rr_build_target row; rj_workload_key := rr_workload_key row;
        rj_bench_args := stored_bench_args (job_queued_event id db); rj_progress := progress;
        rj_claim_token := claim_token |}.

(** [list_queued], in the order of creation; the assembly of any job may fail the listing. *)
Definition queued_before (created_at : Uuid -> Z) (x y : Uuid * Run) : bool :=
  (created_at x.1 <? created_at y.1) || ((created_at x.1 =? created_at y.1) && (x.1 <? y.1)).
Definition queued_jobs_ordered (created_at : Uuid -> Z) (db : SubmissionDb) : list (Uuid * Run) :=
  sort_by (queued_before created_at) (rows (fun _ r => bool_decide (run_status r = J_Queued)) (su_runs db)).
Definition list_queued (created_at : Uuid -> Z) (tables : Uuid -> AssemblyTables) (db : SubmissionDb)
  : result (list RunnableJob) AssembleError :=
  collect (map (fun kv => assemble_runnable kv.1 kv.2 (tables kv.1) None db) (queued_jobs_ordered created_at db)).
Lemma collect_ok {A E} (l : list (result A E)) : is_ok (collect l) = forallb is_ok l.
Proof. induction l as [|[x|e] l IH]; cbn; [done| |done]. destruct (collect l); cbn in *; by rewrite <- IH. Qed.
(** One queued job that cannot be assembled hides the whole queue from the coordinator: the listing succeeds
    exactly when every queued job can be assembled. *)
Theorem list_queued_needs_all created_at tables db :
  is_ok (list_queued created_at tables db) = true <->
  forall id r, su_runs db !! id = Some r -> run_status r = J_Queued -> is_ok (assemble_runnable id r (tables id) None db) = true.
Proof.
  unfold list_queued. rewrite collect_ok, forallb_forall. split.
  - intros Hall id r Hr Hs. apply Hall. apply in_map_iff. exists (id, r). split; [done|].
    apply list_elem_of_In. unfold queued_jobs_ordered. rewrite sort_by_perm. apply elem_of_rows.
    split; [done|]. by apply bool_decide_eq_true_2.
  - intros Hall x Hx. apply in_map_iff in Hx as ([id r] & <- & Hin). apply list_elem_of_In in Hin.
    unfold queued_jobs_ordered in Hin. rewrite sort_by_perm in Hin. apply elem_of_rows in Hin as [Hr Hs].
    apply bool_decide_eq_true_1 in Hs. by apply Hall.
Qed.
End Assembly.

(** ** The payload *)
Definition SUBMISSION_SQLITE_RELATIVE : rstr := lit "shared/stacks-bench.db".
Definition submission_artifact_key (submission_prefix relative : rstr) : rstr :=
  submission_prefix ++ lit "/" ++ relative.
Definition sqlite_seed_key (job : RunnableJob) : option rstr :=
  if uses_shared_calibration (rj_task_kind job) (rj_build_target job) (rj_submission_requested_run_count job)
     && (0 <? rj_submission_run_index job)
  then Some (submission_artifact_key (rj_submission_artifact_prefix job) SUBMISSION_SQLITE_RELATIVE)
  else None.

Section Payload.
Context `{DigestEnv}.

Inductive PrepareError := Prep_KeyMismatch (job : Uuid) | Prep_Unsupported (k : TaskKind) (t : BuildTarget).
Definition resolve_job_args (job : RunnableJob) (default_args : rstr) : ResolvedBenchArgs :=
  let frozen_key := workload_key (rj_bench_args job) in
  if (match rj_bench_args job with [] => true | _ => false end)
     && bool_decide (rj_workload_key job = Some frozen_key)
  then {| ra_effective_args := []; ra_workload_key := frozen_key |}
  else resolve_bench_args (rj_bench_args job) default_args.
Definition payload_for (job : RunnableJob) (default_args : rstr) : result TaskPayload PrepareError :=
  match rj_task_kind job, rj_build_target job with
  | Kind_Benchmark, Target_StacksBench =>
      let resolved := resolve_job_args job default_args in
      ensure (bool_decide (rj_workload_key job = Some (ra_workload_key resolved)))
        (Prep_KeyMismatch (rj_id job)) ;?
      Ok (Task_Benchmark
        {| bp_effective_args := ra_effective_args resolved;
           bp_workload_key := Some (ra_workload_key resolved);
           bp_sqlite_seed_key := sqlite_seed_key job;
           bp_shared_baseline_calibration :=
             uses_shared_calibration (rj_task_kind job) (rj_build_target job)
               (rj_submission_requested_run_count job);
           bp_baseline_calibration_id := rj_baseline_calibration_id job;
           bp_run_index := rj_task_run_index job;
           bp_requested_run_count := rj_requested_run_count job |})
  | Kind_BuildOnly, Target_StacksBench => Ok Task_BuildOnly
  | task, target => Err (Prep_Unsupported task target)
  end.

(** ** Normal arguments *)
Lemma strip_unseen args : (strip_repetitions args).1 = false -> (strip_repetitions args).2 = args.
Proof.
  induction args as [|a args IH]; [done|]. cbn [strip_repetitions].
  destruct (rstr_eqb a _); [by destruct args|]. destruct (starts_with _ a); [done|].
  destruct (strip_repetitions args) as [saw out]. simpl in *. intros ->. by rewrite IH.
Qed.
Lemma normalize_nil args : normalize_in_process_repetitions args = [] -> args = [].
Proof.
  unfold normalize_in_process_repetitions. pose proof (strip_unseen args) as Hu.
  destruct (strip_repetitions args) as [saw out]. simpl in Hu. destruct saw; simpl.
  - destruct (is_range_mode out) eqn:E; simpl; [by intros ->; vm_compute in E|].
    intros Hnil. by apply app_eq_nil in Hnil as [_ ?].
  - intros ->. symmetry. by apply Hu.
Qed.

(** What the coordinator does with arguments frozen under a key. *)
Lemma resolve_frozen_args `{!ScalarText} job args default_args :
  rj_bench_args job = normalize_in_process_repetitions args ->
  rj_workload_key job = Some (workload_key args) ->
  (normalize_in_process_repetitions args = args ->
     resolve_job_args job default_args
     = {| ra_effective_args := args; ra_workload_key := workload_key args |})
  /\ (normalize_in_process_repetitions args <> args ->
      ra_workload_key (resolve_job_args job default_args) = workload_key args -> collision).
Proof.
  intros Hargs Hkey. unfold resolve_job_args. rewrite Hargs, Hkey. split.
  - intros Hn. rewrite Hn. destruct args as [|a args]; [by rewrite (bool_decide_eq_true_2 _ eq_refl)|].
    cbn [andb]. by apply resolve_frozen.
  - intros Hne. pose proof (normalize_nil args) as Hnil.
    destruct (normalize_in_process_repetitions args) as [|b bs] eqn:Hn; [by rewrite Hnil in Hne|].
    cbn [andb]. pose proof (normalize_idempotent args) as Hi. rewrite Hn in Hi.
    rewrite (resolve_frozen (b :: bs)) by done. simpl.
    intros Heq. apply workload_key_inj in Heq as [<-|Hcol]; [by destruct Hne | done].
Qed.
Lemma payload_frozen `{!ScalarText} job args default_args :
  rj_task_kind job = Kind_Benchmark -> rj_build_target job = Target_StacksBench ->
  rj_bench_args job = normalize_in_process_repetitions args ->
  rj_workload_key job = Some (workload_key args) ->
  (normalize_in_process_repetitions args = args ->
     exists p, payload_for job default_args = Ok (Task_Benchmark p) /\ bp_effective_args p = args
       /\ bp_workload_key p = Some (workload_key args) /\ bp_run_index p = rj_task_run_index job
       /\ bp_requested_run_count p = rj_requested_run_count job)
  /\ (normalize_in_process_repetitions args <> args ->
      payload_for job default_args = Err (Prep_KeyMismatch (rj_id job)) \/ collision).
Proof.
  intros Hk Ht Ha Hkey. destruct (resolve_frozen_args job args default_args Ha Hkey) as [Hok Hbad].
  unfold payload_for. rewrite Hk, Ht. cbv zeta. split; intros Hn.
  - rewrite (Hok Hn). simpl. rewrite Hkey, bool_decide_eq_true_2 by done. cbn [ensure]. by eexists.
  - destruct (bool_decide _) eqn:E; [|by left]. right. apply bool_decide_eq_true in E.
    apply (Hbad Hn). congruence.
Qed.
End Payload.

(** ** Runs of accepted benchmarks *)
Section Frozen.
Context `{DigestEnv}.

(** The arguments a submission was accepted with. *)
Definition frozen_args (pv : ProvenanceRow) : option (list rstr) :=
  value_get "effective_args" (pvr_detail pv) ≫= value_as_strings.
Definition frozen_wf (db : SubmissionDb) : Prop :=
  forall sid spec, su_specs db !! sid = Some spec -> ss_task_kind spec = Kind_Benchmark ->
    ss_build_target spec = Target_StacksBench
    /\ exists pv args, su_provenance db !! ss_submission spec = Some pv
       /\ frozen_args pv = Some args /\ ss_workload_key spec = Some (workload_key args).

Lemma prepared_variants e c p n v :
  prepare e c = Ok p -> plan_variants (cmd_task (ps_command p)) !! n = Some v ->
  rts_task_kind v.1.1.1 = Kind_Benchmark ->
  rts_build_target v.1.1.1 = Target_StacksBench
  /\ exists args, value_get "effective_args" (pv_queued_event_detail (cmd_provenance (ps_command p)))
                    ≫= value_as_strings = Some args
     /\ rts_workload_key v.1.1.1 = Some (workload_key args).
Proof.
  intros Hp. apply prepare_ok in Hp as (-> & _ & _ & Hplan & _).
  destruct (cmd_task c) as [plan|s|plan]; cbn [plan_variants plan_ok] in *.
  - destruct Hplan as (Hargs & first & rest & _ & Hall). intros Hv _.
    apply list_lookup_fmap_Some in Hv as (x & -> & Hx). rewrite Forall_lookup in Hall.
    destruct (Hall _ _ Hx) as (_ & _ & Ht & _ & _ & _ & Hk & _). simpl. split; [done|]. by eexists.
  - destruct Hplan as (_ & Hk & _). intros Hv Hb. apply list_lookup_singleton_Some in Hv as [_ <-].
    simpl in Hb. congruence.
  - destruct Hplan as (_ & Hk & _). intros Hv Hb. apply list_lookup_singleton_Some in Hv as [_ <-].
    simpl in Hb. congruence.
Qed.

Lemma append_specs new_id completed made db db' :
  append_next_benchmark_run new_id completed db = Ok (made, db') ->
  su_specs db' = su_specs db /\ su_provenance db' = su_provenance db.
Proof.
  intros Ha. unfold append_next_benchmark_run in Ha. ok_inv Ha; try done;
    match goal with Hi : insert_run _ _ _ _ = Ok _ |- _ =>
      apply insert_run_Ok in Hi as (_ & _ & ->); done end.
Qed.
(** Rows rewritten in place, and the specs of a recovered generation. *)
Lemma frozen_in_place db db' : frozen_wf db -> in_place db db' -> frozen_wf db'.
Proof.
  intros Hf Hip sid x' Hx' Hk. destruct (ip_specs _ _ Hip _ _ Hx') as (x & c & Hx & ->).
  rewrite (ip_provenance _ _ Hip). exact (Hf _ _ Hx Hk).
Qed.
Lemma frozen_recovered ids submission db db' :
  store_wf db -> frozen_wf db ->
  generation (ni_submission ids) (ni_job ids) (ni_spec ids) (recovered_plan ids submission db) db db' ->
  su_provenance db' = copy_row id submission (ni_submission ids) (su_provenance db) -> frozen_wf db'.
Proof.
  intros Hwf Hf Hge Hprov sid x Hx Hk. rewrite Hprov. unfold copy_row.
  destruct (ge_only _ _ _ _ _ _ Hge _ _ Hx) as [Ho|(n & (k & y & Hy & <- & _ & ->) & _)].
  - destruct (Hf _ _ Ho Hk) as (Ht & pv & args & Hpv & Hrest). split; [done|]. exists pv, args.
    split; [|done]. destruct (su_provenance db !! submission); [|done].
    rewrite lookup_insert_ne; [done|]. apply not_eq_sym.
    by apply (old_spec_other _ _ _ _ _ _ Hwf Hge sid).
  - destruct (Hf _ _ Hy Hk) as (Ht & pv & args & Hpv & Hrest). split; [done|]. exists pv, args.
    simpl. by rewrite Hpv, lookup_insert, decide_True.
Qed.
Lemma frozen_step db db' : store_wf db -> frozen_wf db -> store_step db db' -> frozen_wf db'.
Proof.
  intros Hwf Hf Hs. destruct Hs as [e c ids p seen d Hprep|new_id completed made d d' Ha|id s d| | |].
  - destruct (persist_cases ids p seen d) as [->|[Hadd _]]; [done|]. set (d' := (persist_submission ids p seen d).2) in *.
    destruct (ad_provenance _ _ _ _ Hadd) as (kind & identity & Hprov).
    intros sid spec Hspec Hk. rewrite Hprov.
    destruct (new_spec_inv _ _ _ _ Hadd _ _ Hspec) as [Ho|(n & v & Hv & -> & -> & _)].
    + destruct (Hf _ _ Ho Hk) as (Ht & pv & args & Hpv & Hrest). split; [done|]. exists pv, args.
      rewrite lookup_insert_ne; [done|]. apply not_eq_sym. by apply (spec_of_other _ _ _ _ Hwf Hadd sid).
    + destruct v as [[[src k] cal] h]. simpl in Hk.
      destruct (prepared_variants _ _ _ _ _ Hprep Hv Hk) as (Ht & args & Hargs & Hkey). simpl in *.
      split; [done|]. eexists _, args. rewrite lookup_insert, decide_True by done. done.
  - destruct (append_specs _ _ _ _ _ Ha) as [Hs Hp]. unfold frozen_wf. by rewrite Hs, Hp.
  - unfold set_run_status. destruct (su_runs d !! id) as [r|]; [|done]. by destruct (job_terminal _).
  - by eapply frozen_in_place, freeze_in_place.
  - by eapply frozen_in_place, prepare_in_place.
  - edestruct recover_steps as (mid & Hmid & _ & Hge & _ & Hprov); [done..|].
    eapply frozen_recovered; [apply (ip_wf _ _ Hmid) | by eapply frozen_in_place | done | done].
Qed.
Lemma reachable_frozen db : store_reachable db -> frozen_wf db.
Proof.
  unfold store_reachable. intros Hr.
  refine (proj2 (rtc_ind_r (fun d => store_wf d /\ frozen_wf d) empty_store _ _ db Hr)).
  - split; [apply reachable_wf, rtc_refl|]. intros sid spec. cbn. by rewrite lookup_empty.
  - intros d d' _ Hs [Hwf Hf]. split; [by eapply store_step_wf | by eapply frozen_step].
Qed.

(** The job assembled for a run of a submission accepted with these arguments. *)
Lemma assembled_payload `{!ScalarText} db id r pv args tables repository progress token :
  store_reachable db -> su_runs db !! id = Some r -> rr_task_kind (run_row r) = Kind_Benchmark ->
  su_provenance db !! rr_submission (run_row r) = Some pv -> frozen_args pv = Some args ->
  at_repository tables = Some repository -> progress_target id (run_row r) tables db = Ok progress ->
  exists job, assemble_runnable id r tables token db = Ok job
  /\ forall default_args,
     (normalize_in_process_repetitions args = args ->
        exists p, payload_for job default_args = Ok (Task_Benchmark p) /\ bp_effective_args p = args
          /\ bp_workload_key p = Some (workload_key args) /\ bp_run_index p = rr_run_index (run_row r))
     /\ (normalize_in_process_repetitions args <> args ->
         payload_for job default_args = Err (Prep_KeyMismatch id) \/ collision).
Proof.
  intros Hreach Hr Hk Hpv Hargs Hrepo Hprogress. pose proof (reachable_wf _ Hreach) as Hwf.
  destruct (wf_run _ Hwf _ _ Hr) as [(spec & Hspec & Hm & _) (pv0 & e & Hpv0 & He & Hd)].
  rewrite Hpv in Hpv0. injection Hpv0 as <-.
  destruct Hm as (Hsub & _ & Hkind & Htarget & _ & _ & _ & _ & Hkey).
  destruct (reachable_frozen _ Hreach _ _ Hspec ltac:(congruence)) as (Ht & pv' & args' & Hpv' & Hargs' & Hwk).
  rewrite <- Hsub, Hpv in Hpv'. injection Hpv' as <-. rewrite Hargs in Hargs'. injection Hargs' as <-.
  destruct (wf_spec _ Hwf _ _ Hspec) as (_ & _ & [row Hrow] & _). rewrite <- Hsub in Hrow.
  unfold assemble_runnable. rewrite Hrepo, Hrow, Hspec, Hprogress. cbn [ok_or].
  eexists. split; [done|]. intros default_args.
  match goal with |- context [payload_for ?j _] => set (job := j) end.
  assert (Hstored : rj_bench_args job = normalize_in_process_repetitions args).
  { simpl. unfold stored_bench_args, job_queued_event. rewrite He. cbn. rewrite Hd. unfold normalize_stored_value, try_normalize_stored_value.
    unfold frozen_args in Hargs. destruct (value_get _ (pvr_detail pv)) as [v|]; [|done].
    simpl in Hargs. by rewrite Hargs. }
  destruct (payload_frozen job args default_args) as [Hgood Hbad];
    [done | simpl; congruence | done | simpl; congruence|].
  split; [|exact Hbad]. intros Hn. destruct (Hgood Hn) as (p & H1 & H2 & H3 & H4 & _).
  by exists p.
Qed.

(** C13: Frozen arguments reach the worker, exactly when they are in normal form.  In
    every reachable state of the store a run of an accepted benchmark can be
    assembled once its repository and reporting target are found, and whatever the daemon's default arguments are by then, its payload
    has the arguments its submission was accepted with, an empty list included, and
    their key, provided that normalization leaves these arguments as they are; and if
    it does not, preparation fails for every default (or SHA-256 has a collision). *)
Theorem frozen_payload `{!ScalarText} db id r tables repository progress token :
  store_reachable db -> su_runs db !! id = Some r -> rr_task_kind (run_row r) = Kind_Benchmark ->
  at_repository tables = Some repository -> progress_target id (run_row r) tables db = Ok progress ->
  exists job pv args, assemble_runnable id r tables token db = Ok job
  /\ su_provenance db !! rr_submission (run_row r) = Some pv /\ frozen_args pv = Some args
  /\ forall default_args,
     (normalize_in_process_repetitions args = args ->
        exists p, payload_for job default_args = Ok (Task_Benchmark p) /\ bp_effective_args p = args
          /\ bp_workload_key p = Some (workload_key args) /\ bp_run_index p = rr_run_index (run_row r))
     /\ (normalize_in_process_repetitions args <> args ->
         payload_for job default_args = Err (Prep_KeyMismatch id) \/ collision).
Proof.
  intros Hreach Hr Hk Hrepo Hprogress. pose proof (reachable_wf _ Hreach) as Hwf.
  destruct (wf_run _ Hwf _ _ Hr) as [(spec & Hspec & Hm & _) _]. destruct Hm as (Hsub & _ & Hkind & _).
  destruct (reachable_frozen _ Hreach _ _ Hspec ltac:(congruence)) as (_ & pv & args & Hpv & Hargs & _).
  rewrite <- Hsub in Hpv.
  destruct (assembled_payload db id r pv args tables repository progress token Hreach Hr Hk Hpv Hargs Hrepo Hprogress) as (job & Hjob & Hall).
  by exists job, pv, args.
Qed.
End Frozen.

(** The run of the second variant of the demonstration is prepared with the arguments
    of its submission, and not with the defaults of the day. *)
Section Demo.
#[local] Existing Instance demo_hash.
Lemma demo_text : @ScalarText demo_hash.
Proof. destruct unary_text as [H1 H2]. split; [exact H1 | exact H2]. Qed.
Definition demo_tables : AssemblyTables :=
  {| at_repository := Some (lit "o/r"); at_github_report := None; at_latest_check_run := Some (11, None);
     at_latest_comment_id := None; at_pull_request_link := None; at_pull_request_number := fun _ => None |}.
Lemma frozen_payload_witness :
  exists job p, assemble_runnable 602 (get_run 602 demo_third) demo_tables None demo_third = Ok job
  /\ payload_for job (lit "--block 1 --repetitions 9") = Ok (Task_Benchmark p)
  /\ bp_effective_args p = demo_args.
Proof.
  destruct (@frozen_payload demo_hash demo_text demo_third 602 (get_run 602 demo_third) demo_tables (lit "o/r")
              (Progress_CommitCheck (Some 11)) None demo_third_reachable)
    as (job & pv & args & Hjob & Hpv & Hargs & Hall); [vm_compute; reflexivity .. |].
  assert (Ha : su_provenance demo_third !! rr_submission (run_row (get_run 602 demo_third)) ≫= frozen_args
               = Some demo_args) by (vm_compute; reflexivity).
  rewrite Hpv in Ha. cbn [mbind option_bind] in Ha. rewrite Hargs in Ha.
  assert (Heq : args = demo_args) by congruence. clear Ha Hargs. revert Hall. rewrite Heq. intros Hall.
  destruct (Hall (lit "--block 1 --repetitions 9")) as [Hgood _].
  destruct Hgood as (p & H1 & H2 & _); [vm_compute; reflexivity|].
  exists job, p. split; [exact Hjob|]. split; [exact H1 | exact H2].
Defined.
End Demo.
