(* ===== verification/SlackIntake.v ===== *)
(** * Slack intake

    crates/sbgh-slack/src/connector.rs and the daemon's adapter
    crates/sbgh-daemon/src/slack_queue.rs: the handling of a mention, from the
    allowlists and the rate limit over the resolved intent to the submission, with the
    calls it makes on Slack in order.  The main results are that nothing is submitted
    without authorization and within the limits, that a user cannot exceed the rate of
    calls on the language model, and which requests the daemon can later prepare. *)
From stdpp Require Import base list strings gmap.
From Stdlib Require Import ZArith Lia.
From S2P Require Import Prelude RustStr Json JsonText FleetModel Negotiation Validate FleetDb Workload Intent Submission SubmissionStore SubmissionRecovery RunChain Preparation.

Local Open Scope Z_scope.

(** ** Events and configuration *)
Record MentionEvent := {
  me_team_id : rstr;
  me_user : rstr;
  me_channel : rstr;
  me_message_ts : rstr;
  me_text : rstr
}.
Record SlackJobTarget := { sjt_installation_id : Z; sjt_repo_id : Z }.
Record SlackConnectorConfig := {
  scc_default_rev : rstr;
  scc_allowed_team_ids : list rstr;
  scc_allowed_user_ids : list rstr;
  scc_block_validation_user_ids : list rstr
}.
Definition SlackConnectorConfig_new (default_rev : rstr) (teams users : list rstr)
    (validation_users : option (list rstr)) : SlackConnectorConfig :=
  {| scc_default_rev := default_rev; scc_allowed_team_ids := teams; scc_allowed_user_ids := users;
     scc_block_validation_user_ids := default users validation_users |}.
Record BenchmarkVariantRequest := {
  bvq_rev : rstr;
  bvq_workload_key : rstr;
  bvq_requested_run_count : Z
}.
Inductive TaskSubmissionRequest :=
| Tsr_Benchmark (repository : option rstr) (variants : list BenchmarkVariantRequest)
    (effective_args : list rstr) (clean_repetitions : Z)
| Tsr_BlockValidation (i : BlockValidationIntent).
Record SlackSubmissionActor := {
  ssa_team_id : rstr;
  ssa_user_id : rstr;
  ssa_channel_id : rstr;
  ssa_request_message_ts : rstr;
  ssa_reporting_identity : rstr
}.
(** The limits and switches of the connector; [sc_intent_resolver] says whether one
    is configured. *)
Record SlackConnector := {
  sc_cfg : SlackConnectorConfig;
  sc_intent_resolver : bool;
  sc_intent_rate_limit_per_minute : Z;
  sc_max_clean_repetitions : Z;
  sc_max_variants : Z;
  sc_max_comparison_lifecycles : Z;
  sc_binary_cache_enabled : bool
}.
Definition SlackConnector_new (cfg : SlackConnectorConfig) : SlackConnector :=
  {| sc_cfg := cfg; sc_intent_resolver := false; sc_intent_rate_limit_per_minute := 0;
     sc_max_clean_repetitions := 5; sc_max_variants := 2; sc_max_comparison_lifecycles := 10;
     sc_binary_cache_enabled := false |}.
Definition with_intent_resolver (rate_limit_per_minute : Z) (c : SlackConnector) : SlackConnector :=
  {| sc_cfg := sc_cfg c; sc_intent_resolver := true;
     sc_intent_rate_limit_per_minute := Z.max rate_limit_per_minute 1;
     sc_max_clean_repetitions := sc_max_clean_repetitions c; sc_max_variants := sc_max_variants c;
     sc_max_comparison_lifecycles := sc_max_comparison_lifecycles c;
     sc_binary_cache_enabled := sc_binary_cache_enabled c |}.
Definition with_limits (max_clean_repetitions max_variants max_comparison_lifecycles : Z) (cache : bool)
    (c : SlackConnector) : SlackConnector :=
  {| sc_cfg := sc_cfg c; sc_intent_resolver := sc_intent_resolver c;
     sc_intent_rate_limit_per_minute := sc_intent_rate_limit_per_minute c;
     sc_max_clean_repetitions := Z.max max_clean_repetitions 1;
     sc_max_variants := Z.max max_variants 1;
     sc_max_comparison_lifecycles := Z.max max_comparison_lifecycles 1;
     sc_binary_cache_enabled := cache |}.

(** ** Guards *)
Definition listed (x : rstr) (l : list rstr) : bool := existsb (rstr_eqb x) l.
Definition is_admitted (cfg : SlackConnectorConfig) (team_id user : rstr) : bool :=
  listed team_id (scc_allowed_team_ids cfg)
  && (listed user (scc_allowed_user_ids cfg) || listed user (scc_block_validation_user_ids cfg)).
Definition is_authorized_for (cfg : SlackConnectorConfig) (user : rstr) (i : TaskCreationIntent) : bool :=
  match i with
  | Ti_Benchmark _ => listed user (scc_allowed_user_ids cfg)
  | Ti_BlockValidation _ => listed user (scc_block_validation_user_ids cfg)
  end.
Definition request_limits (c : SlackConnector) : RequestLimits :=
  RequestLimits_new (sc_max_clean_repetitions c) (sc_max_variants c) (sc_max_comparison_lifecycles c).
Definition strip_leading_mention (text : rstr) : rstr :=
  let t := trim_start_matches Char.is_whitespace text in
  match strip_prefix (lit "<@") t with
  | Some rest =>
      match split_once (lit ">") rest with
      | Some (_, after) => trim_start_matches Char.is_whitespace after
      | None => []
      end
  | None => t
  end.

(** ** The rate limit

    Instants are milliseconds since the clock's origin. *)
Abbreviation IntentCalls := (gmap rstr (list Z)).
Definition WINDOW_MS : Z := 60 * 1000.
Fixpoint pop_before (cutoff : Z) (calls : list Z) : list Z :=
  match calls with
  | t :: rest => if t <? cutoff then pop_before cutoff rest else calls
  | [] => []
  end.
Definition allow_intent_call (rate_limit : Z) (user : rstr) (now : Z) (calls : IntentCalls)
  : bool * IntentCalls :=
  let limit := Z.max rate_limit 1 in
  let user_calls := default [] (calls !! user) in
  let user_calls := if WINDOW_MS <=? now then pop_before (now - WINDOW_MS) user_calls else user_calls in
  if limit <=? Z.of_nat (length user_calls) then (false, <[user := user_calls]> calls)
  else (true, <[user := user_calls ++ [now]]> calls).

(** ** Effects *)
Definition ACK_REACTION : rstr := lit "eyes".
Definition QUEUED_REACTION : rstr := lit "hourglass_flowing_sand".
Inductive SlackEffect :=
| Fx_Ephemeral (reason : rstr)
| Fx_AddReaction (name : rstr)
| Fx_RemoveReaction (name : rstr)
| Fx_Resolve (text : rstr)
| Fx_PostQueued (title reference : rstr) (run : option (Z * Z))
| Fx_Submit (request : TaskSubmissionRequest) (message_ts : option rstr) (actor : SlackSubmissionActor)
| Fx_FailSnapshot.

(** The outside of one mention: the clock, the answer of the language model, the
    timestamp of the posted snapshot when there is one, and the outcome of the
    submission ([Err true] is a refusal for lack of authorization). *)
Record MentionWorld := {
  mw_now : Z;
  mw_resolution : option IntentOutcome;
  mw_posted : option rstr;
  mw_submitted : result SubmissionReceipt bool
}.

Section Intake.
Context `{DigestEnv}.

Definition submission_actor (e : MentionEvent) : SlackSubmissionActor :=
  {| ssa_team_id := me_team_id e; ssa_user_id := me_user e; ssa_channel_id := me_channel e;
     ssa_request_message_ts := me_message_ts e;
     ssa_reporting_identity := for_request (me_team_id e) (me_channel e) (me_message_ts e) |}.

(** [resolve_request_for_event]. *)
Definition resolve_request_for_event (c : SlackConnector) (w : MentionWorld) (e : MentionEvent) (text : rstr)
    (calls : IntentCalls) : result TaskCreationIntent rstr * IntentCalls * list SlackEffect :=
  if existsb (starts_with (lit "--")) (split_whitespace text)
  then (Err (lit "CLI-style flags are not accepted in Slack; describe the task in natural language"), calls, [])
  else if negb (sc_intent_resolver c)
  then (Err (lit "natural-language task resolution is not configured; use an exact supported trigger or the admin API"),
        calls, [])
  else
    let '(allowed, calls) := allow_intent_call (sc_intent_rate_limit_per_minute c) (me_user e) (mw_now w) calls in
    if negb allowed
    then (Err (lit "too many task requests using natural language " ++ [8212] ++ lit " please try again shortly"),
          calls, [])
    else
      (match mw_resolution w with
       | Some (Io_Resolved request) => Ok request
       | Some (Io_Invalid invalid) => Err (user_message invalid)
       | None => Err (lit "couldn't resolve that task request " ++ [8212] ++ lit " please try again")
       end, calls, [Fx_Resolve text]).

(** The submission of a validated benchmark. *)
Definition benchmark_request_parts (c : SlackConnector) (r : BenchmarkRequest)
  : option rstr * rstr * list rstr * Z * list BenchmarkVariantRequest :=
  match r with
  | Br_Single spec =>
      let rev := default (scc_default_rev (sc_cfg c)) (wl_rev spec) in
      let bench_args := to_bench_args spec in
      (wl_repository spec, rev, bench_args, wl_clean_repetitions spec,
       [{| bvq_rev := rev; bvq_workload_key := workload_key bench_args;
           bvq_requested_run_count := wrap_i32 (wl_clean_repetitions spec) |}])
  | Br_Comparison comparison =>
      let spec := cr_workload comparison in
      let bench_args := to_bench_args spec in
      (wl_repository spec, join (lit " vs ") (cr_variants comparison), bench_args,
       wl_clean_repetitions spec,
       map (fun rev => {| bvq_rev := rev; bvq_workload_key := workload_key bench_args;
                          bvq_requested_run_count := wrap_i32 (wl_clean_repetitions spec) |})
         (cr_variants comparison))
  end.
Definition source_label (repository : option rstr) (rev_label : rstr) : rstr :=
  match repository with Some repository => repository ++ lit "@" ++ rev_label | None => rev_label end.

(** The last steps of a submission, accepted or refused. *)
Definition reject_after_ack (reason : rstr) : list SlackEffect :=
  [Fx_RemoveReaction ACK_REACTION; Fx_Ephemeral reason].
Definition finish_submission (submitted : result SubmissionReceipt bool) (unauthorized failed : rstr)
  : list SlackEffect :=
  match submitted with
  | Err no_permission =>
      [Fx_FailSnapshot] ++ reject_after_ack (if no_permission : bool then unauthorized else failed)
  | Ok _ => [Fx_RemoveReaction ACK_REACTION; Fx_AddReaction QUEUED_REACTION]
  end.
Definition handle_benchmark (c : SlackConnector) (w : MentionWorld) (e : MentionEvent) (r : BenchmarkRequest)
  : list SlackEffect :=
  match validate_benchmark_request r (request_limits c) with
  | Err error => reject_after_ack (request_error_display error)
  | Ok request =>
      if (1 <? clean_repetitions request) && negb (sc_binary_cache_enabled c)
      then reject_after_ack (lit "clean repetitions require the binary cache to be enabled")
      else
        let '(repository, rev_label, bench_args, repetitions, specs) := benchmark_request_parts c request in
        [Fx_PostQueued (lit "Benchmark") (source_label repository rev_label)
           (if 1 <? repetitions then Some (1, repetitions) else None);
         Fx_Submit (Tsr_Benchmark repository specs bench_args repetitions) (mw_posted w) (submission_actor e)]
        ++ finish_submission (mw_submitted w)
             (lit "repository is not authorized for Slack benchmarks")
             (lit "couldn't enqueue the benchmark " ++ [8212] ++ lit " please retry")
  end.
Definition handle_block_validation (c : SlackConnector) (w : MentionWorld) (e : MentionEvent)
    (i : BlockValidationIntent) : list SlackEffect :=
  let reference := default (scc_default_rev (sc_cfg c)) (rq_revision (bi_source i)) in
  [Fx_PostQueued (lit "Block validation") (source_label (rq_repository (bi_source i)) reference) None;
   Fx_Submit (Tsr_BlockValidation i) (mw_posted w) (submission_actor e)]
  ++ finish_submission (mw_submitted w)
       (lit "repository is not authorized for Slack block validation")
       (lit "couldn't enqueue block validation " ++ [8212] ++ lit " please retry").
Definition handle_mention (c : SlackConnector) (w : MentionWorld) (e : MentionEvent) (calls : IntentCalls)
  : IntentCalls * list SlackEffect :=
  if negb (is_admitted (sc_cfg c) (me_team_id e) (me_user e))
  then (calls, [Fx_Ephemeral (lit "not authorized to create tasks here")])
  else
    let '(resolved, calls, fx) :=
      resolve_request_for_event c w e (strip_leading_mention (me_text e)) calls in
    (calls,
     [Fx_AddReaction ACK_REACTION] ++ fx ++
     match resolved with
     | Err reason => reject_after_ack reason
     | Ok request =>
         if negb (is_authorized_for (sc_cfg c) (me_user e) request)
         then reject_after_ack (lit "not authorized to create that task")
         else
           match request with
           | Ti_BlockValidation i => handle_block_validation c w e i
           | Ti_Benchmark r => handle_benchmark c w e r
           end
     end).
End Intake.

(** ** The adapter (slack_queue.rs) *)
Inductive CoreError :=
| Core_Unauthorized (message : rstr)
| Core_Config (message : rstr)
| Core_Other (message : rstr).
Record ResolvedCommit := { rc_hash : rstr; rc_committed_at : option Z }.
(** The policy store and GitHub, as the adapter sees them. *)
Record AdapterWorld := {
  aw_resolve : rstr -> result SlackJobTarget CoreError;
  aw_resolve_commit : Z -> rstr -> rstr -> result ResolvedCommit CoreError
}.
Record SlackTaskSubmissionAdapter := {
  sta_validation : option BlockValidationTaskConfig;
  sta_default_repository : rstr;
  sta_default_rev : rstr
}.
Definition slack_provenance (actor : SlackSubmissionActor) (detail : Value) (plan_message_ts : option rstr)
  : SubmissionProvenance :=
  {| pv_queued_event_detail := detail; pv_github := None;
     pv_slack := Some {| slp_team_id := ssa_team_id actor; slp_channel_id := ssa_channel_id actor;
                         slp_request_message_ts := ssa_request_message_ts actor;
                         slp_reporting_identity := ssa_reporting_identity actor;
                         slp_report_message_ts := plan_message_ts |} |}.
Definition producer_key (actor : SlackSubmissionActor) : ProducerKey :=
  {| pk_namespace := lit "slack_request"; pk_key := ssa_reporting_identity actor |}.
Definition slack_actor (actor : SlackSubmissionActor) : SubmissionActor :=
  Actor_SlackUser (ssa_team_id actor) (ssa_user_id actor).
Definition slack_source (target : SlackJobTarget) (intent : JobIntent) (k : TaskKind) (t : BuildTarget)
    (display : rstr) (commit : ResolvedCommit) (key : option rstr) : ResolvedTaskSource :=
  {| rts_github_installation_id := sjt_installation_id target; rts_github_repo_id := sjt_repo_id target;
     rts_source := Src_Slack; rts_intent := intent; rts_task_kind := k; rts_build_target := t;
     rts_git_ref_kind := Ref_Branch; rts_git_ref_display := display; rts_commit := rc_hash commit;
     rts_committed_at := rc_committed_at commit; rts_workload_key := key |}.
(** The loop over the requested variants. *)
Fixpoint slack_variants (w : AdapterWorld) (target : SlackJobTarget) (repository : rstr)
    (vs : list BenchmarkVariantRequest) : result (list BenchmarkVariant) CoreError :=
  match vs with
  | [] => Ok []
  | v :: rest =>
      let? resolved := aw_resolve_commit w (sjt_installation_id target) repository (bvq_rev v) in
      let? variants := slack_variants w target repository rest in
      Ok ({| bvr_source := slack_source target Intent_AdhocBenchmark Kind_Benchmark Target_StacksBench
                             (bvq_rev v) resolved (Some (bvq_workload_key v));
             bvr_requested_run_count := bvq_requested_run_count v;
             bvr_baseline_calibration_id := None |} :: variants)
  end.
Definition slack_detail (actor : SlackSubmissionActor) (effective_args : list rstr) (repetitions : Z) : Value :=
  object_insert "effective_args" (jstrs effective_args)
    (to_value (Queued_SlackAdhoc (ssa_channel_id actor) (ssa_request_message_ts actor)
                 (Some (ssa_reporting_identity actor)) effective_args repetitions)).
(** [TaskSubmissionPort::submit], up to the call of the submission boundary. *)
Definition slack_command (a : SlackTaskSubmissionAdapter) (w : AdapterWorld) (request : TaskSubmissionRequest)
    (plan_message_ts : option rstr) (actor : SlackSubmissionActor) : result SubmissionCommand CoreError :=
  match request with
  | Tsr_Benchmark repository requested effective_args repetitions =>
      let repository := default (sta_default_repository a) repository in
      let? target := aw_resolve w repository in
      let? variants := slack_variants w target repository requested in
      Ok {| cmd_actor := slack_actor actor; cmd_producer_key := producer_key actor;
            cmd_constraints := SchedulingConstraints_default;
            cmd_task := Plan_Benchmark {| bpl_variants := variants; bpl_effective_args := effective_args |};
            cmd_provenance := slack_provenance actor (slack_detail actor effective_args repetitions)
                                plan_message_ts |}
  | Tsr_BlockValidation i =>
      let? policy := ok_or (sta_validation a) (Core_Config (lit "block-validation submission is not configured")) in
      let repository := default (sta_default_repository a) (rq_repository (bi_source i)) in
      let? target := aw_resolve w repository in
      let revision := default (sta_default_rev a) (rq_revision (bi_source i)) in
      let? selection := map_err (fun e => Core_Config (selection_error_display e))
                          (resolve_user_selection policy (bi_selection i)) in
      let? resolved := aw_resolve_commit w (sjt_installation_id target) repository revision in
      map_err (fun e => match e with Sub_Invalid m | Sub_Persistence m => Core_Other m
                                | Sub_Conflict _ _ => Core_Other [] end)
        (block_validation_command policy
           {| bs_source := slack_source target Intent_BlockValidation Kind_BlockValidation
                             Target_StacksInspect revision resolved None;
              bs_selection := selection; bs_constraints := SchedulingConstraints_default;
              bs_actor := slack_actor actor; bs_producer_key := producer_key actor;
              bs_provenance := slack_provenance actor (queued_validation_detail selection) plan_message_ts |})
  end.

(** ** Authorization *)
Section Safety.
Context `{DigestEnv}.

Definition submits (fx : SlackEffect) : bool := match fx with Fx_Submit _ _ _ => true | _ => false end.
Definition resolves (fx : SlackEffect) : bool := match fx with Fx_Resolve _ => true | _ => false end.
(** The acknowledgment is outstanding: it was asked for, and its removal was not asked
    for since.  (Slack may refuse either; the connector does not try again.) *)
Fixpoint ack_outstanding (fx : list SlackEffect) (asked : bool) : bool :=
  match fx with
  | [] => asked
  | Fx_AddReaction n :: rest => ack_outstanding rest (rstr_eqb n ACK_REACTION || asked)
  | Fx_RemoveReaction n :: rest => ack_outstanding rest (negb (rstr_eqb n ACK_REACTION) && asked)
  | _ :: rest => ack_outstanding rest asked
  end.

(** The workload of a request, and what may be submitted for a request. *)
Definition workload_of (r : BenchmarkRequest) : WorkloadSpec :=
  match r with Br_Single s => s | Br_Comparison c => cr_workload c end.
(** The revisions a request asks for, in order: that of a single run or the default,
    those of a comparison. *)
Definition requested_revs (c : SlackConnector) (r : BenchmarkRequest) : list rstr :=
  match r with
  | Br_Single s => [default (scc_default_rev (sc_cfg c)) (wl_rev s)]
  | Br_Comparison cmp => map trim (cr_variants cmp)
  end.
(** The limits on a comparison. *)
Definition comparison_within (c : SlackConnector) (r : BenchmarkRequest)
    (variants : list BenchmarkVariantRequest) (repetitions : Z) : Prop :=
  match r with
  | Br_Single _ => True
  | Br_Comparison _ =>
      NoDup (map bvq_rev variants)
      /\ 2 <= Z.of_nat (length variants) <= Z.max (sc_max_variants c) 1
      /\ Z.of_nat (length variants) * repetitions <= Z.max (sc_max_comparison_lifecycles c) 1
  end.
(** What may be submitted for a request: one variant for each revision it asks for, each
    with the run count and the workload key of the request, within the limits. *)
Definition submission_allowed (c : SlackConnector) (request : TaskCreationIntent) (t : TaskSubmissionRequest) : Prop :=
  match request, t with
  | Ti_Benchmark r, Tsr_Benchmark repository variants args repetitions =>
      args = to_bench_args (workload_of r)
      /\ repository = wl_repository (workload_of r)
      /\ map bvq_rev variants = requested_revs c r
      /\ Forall (fun v => bvq_workload_key v = workload_key args
                          /\ bvq_requested_run_count v = wrap_i32 repetitions) variants
      /\ repetitions = clean_repetitions r /\ repetitions <= Z.max (sc_max_clean_repetitions c) 1
      /\ (1 < repetitions -> sc_binary_cache_enabled c = true)
      /\ (limits_typed (request_limits c) -> in_u32 repetitions ->
          comparison_within c r variants repetitions)
  | Ti_BlockValidation i, Tsr_BlockValidation i' => i' = i
  | _, _ => False
  end.

Lemma validated_request c r limits r' :
  validate_benchmark_request r limits = Ok r' ->
  clean_repetitions r' = clean_repetitions r /\ clean_repetitions r <= rl_max_clean_repetitions limits
  /\ workload_of r' = workload_of r
  /\ match r, r' with
     | Br_Single s, Br_Single s' => s' = s
     | Br_Comparison cmp, Br_Comparison cmp' => cr_variants cmp' = requested_revs c r
     | _, _ => False
     end.
Proof.
  unfold validate_benchmark_request. destruct (_ <? clean_repetitions r) eqn:E; [done|]. apply Z.ltb_ge in E.
  intros Hv. destruct r as [s|cmp]; [by injection Hv as <-|]. ok_inv Hv. split_and!; try done.
  match goal with Ht : trim_variants _ _ = Ok _ |- _ => apply trim_variants_spec in Ht as (-> & _) end. done.
Qed.
Lemma submitted_once label ref run t ts a t' ts' a' submitted m1 m2 :
  Fx_Submit t ts a ∈ [Fx_PostQueued label ref run; Fx_Submit t' ts' a'] ++ finish_submission submitted m1 m2 ->
  t = t' /\ ts = ts' /\ a = a'.
Proof. unfold finish_submission, reject_after_ack. destruct submitted; set_solver. Qed.
Lemma benchmark_effects c w e r t ts a :
  Fx_Submit t ts a ∈ handle_benchmark c w e r ->
  submission_allowed c (Ti_Benchmark r) t /\ a = submission_actor e /\ ts = mw_posted w.
Proof.
  unfold handle_benchmark. destruct (validate_benchmark_request r _) as [r'|err] eqn:Hv; [|set_solver].
  destruct (_ && _) eqn:Ec; [set_solver|]. destruct (validated_request c _ _ _ Hv) as (Hr & Hmax & Hw & Hrevs).
  destruct (benchmark_request_parts c r') as [[[[repo label] args] reps] specs] eqn:Hb. intros Hin.
  apply submitted_once in Hin as (-> & -> & ->). split; [|done].
  assert (repo = wl_repository (workload_of r') /\ reps = clean_repetitions r' /\ args = to_bench_args (workload_of r')
          /\ map bvq_rev specs = requested_revs c r
          /\ Forall (fun v => bvq_workload_key v = workload_key args
                             /\ bvq_requested_run_count v = wrap_i32 reps) specs) as (-> & -> & -> & Hvs & Hk).
  { unfold benchmark_request_parts in Hb. destruct r' as [s|cmp], r as [s0|cmp0]; try done;
      injection Hb as <- <- <- <- <-; (split_and!; [done|done|done| |]).
    - by rewrite Hrevs.
    - by repeat constructor.
    - rewrite map_map, map_id. done.
    - apply Forall_map, Forall_forall. done. }
  rewrite Hw in *. split_and!; try done.
  - by rewrite Hr.
  - intros H1. destruct (sc_binary_cache_enabled c); [done|]. rewrite andb_true_r in Ec. lia.
  - intros Hl Hu. rewrite Hr in Hu. destruct (validated_within _ _ _ Hl Hu Hv) as [[_ Hcmp] _].
    unfold comparison_within. destruct r as [|cmp], r' as [|cmp']; try done.
    destruct Hcmp as (_ & Hn & Hlife & _ & Hnd). rewrite Hvs, <- Hrevs.
    assert (Hlen : length specs = length (cr_variants cmp')) by (by rewrite Hrevs, <- Hvs, length_map).
    rewrite Hlen. done.
Qed.

(** The end of a handled request: at most one submission, and no acknowledgment left. *)
Definition settled (fx : list SlackEffect) : Prop :=
  (length (filter (fun x => submits x = true) fx) <= 1)%nat
  /\ forall asked, ack_outstanding fx asked = false.
Lemma settled_reject reason : settled (reject_after_ack reason).
Proof. by split; [simpl; lia|]. Qed.
Lemma settled_submit label ref run t ts a submitted m1 m2 :
  settled ([Fx_PostQueued label ref run; Fx_Submit t ts a] ++ finish_submission submitted m1 m2).
Proof.
  unfold finish_submission. destruct submitted as [receipt|no]; by split; [simpl; lia|].
Qed.
Lemma settled_benchmark c w e r : settled (handle_benchmark c w e r).
Proof.
  unfold handle_benchmark. destruct (validate_benchmark_request _ _); [|apply settled_reject].
  destruct (_ && _); [apply settled_reject|].
  destruct (benchmark_request_parts _ _) as [[[[repo label] args] reps] specs]. apply settled_submit.
Qed.
Lemma reject_no_submit reason t ts a : Fx_Submit t ts a ∉ reject_after_ack reason.
Proof. unfold reject_after_ack. set_solver. Qed.

Lemma resolve_effects c w e text calls resolved calls' fx :
  resolve_request_for_event c w e text calls = (resolved, calls', fx) ->
  (fx = [] \/ fx = [Fx_Resolve text])
  /\ forall request, resolved = Ok request -> mw_resolution w = Some (Io_Resolved request).
Proof.
  unfold resolve_request_for_event. destruct (existsb _ _); [intros [= <- _ <-]; by split; [left|]|].
  destruct (negb (sc_intent_resolver c)); [intros [= <- _ <-]; by split; [left|]|].
  destruct (allow_intent_call _ _ _ _) as [allowed calls1].
  destruct (negb allowed); [intros [= <- _ <-]; by split; [left|]|].
  intros [= <- _ <-]. split; [by right|]. intros request Hr.
  destruct (mw_resolution w) as [[x|x]|]; [|done|done]. by injection Hr as ->.
Qed.

(** What a mention of an admitted sender leads to. *)
Lemma handled_tail c w e (resolved : result TaskCreationIntent rstr) :
  (forall request, resolved = Ok request -> mw_resolution w = Some (Io_Resolved request)) ->
  let tail := match resolved with
    | Err reason => reject_after_ack reason
    | Ok request =>
        if negb (is_authorized_for (sc_cfg c) (me_user e) request)
        then reject_after_ack (lit "not authorized to create that task")
        else match request with
             | Ti_BlockValidation i => handle_block_validation c w e i
             | Ti_Benchmark r => handle_benchmark c w e r
             end
    end in
  settled tail /\ forall t ts a, Fx_Submit t ts a ∈ tail ->
    exists request, mw_resolution w = Some (Io_Resolved request)
      /\ is_authorized_for (sc_cfg c) (me_user e) request = true
      /\ submission_allowed c request t /\ a = submission_actor e /\ ts = mw_posted w.
Proof.
  intros Hreq tail. subst tail. destruct resolved as [request|reason]; [|split; [apply settled_reject|]].
  2:{ intros t ts a Hin. by apply reject_no_submit in Hin. }
  destruct (is_authorized_for _ _ request) eqn:Hauth; cbn [negb]; [|split; [apply settled_reject|]].
  2:{ intros t ts a Hin. by apply reject_no_submit in Hin. }
  destruct request as [r|i].
  - split; [apply settled_benchmark|]. intros t ts a Hin. exists (Ti_Benchmark r).
    destruct (benchmark_effects _ _ _ _ _ _ _ Hin) as (Hal & Ha & Hts).
    split; [by apply Hreq|]. done.
  - split; [apply settled_submit|]. intros t ts a Hin. exists (Ti_BlockValidation i).
    unfold handle_block_validation in Hin. apply submitted_once in Hin as (-> & -> & ->).
    split; [by apply Hreq|]. done.
Qed.
Lemma submitted_request c w e calls calls' fx t ts a :
  handle_mention c w e calls = (calls', fx) -> Fx_Submit t ts a ∈ fx ->
  exists request, mw_resolution w = Some (Io_Resolved request) /\ submission_allowed c request t.
Proof.
  unfold handle_mention. destruct (negb (is_admitted _ _ _)).
  { intros [= <- <-] Hin. apply list_elem_of_singleton in Hin. done. }
  destruct (resolve_request_for_event _ _ _ _ _) as [[resolved calls1] rfx] eqn:Hres.
  destruct (resolve_effects _ _ _ _ _ _ _ _ Hres) as [Hfx Hreq]. intros Heq Hin. injection Heq as -> <-.
  destruct (handled_tail c w e resolved Hreq) as [_ Hsub].
  destruct (Hsub t ts a) as (request & Hr & _ & Hal & _); [destruct Hfx as [->| ->]; set_solver|]. by exists request.
Qed.

(** C34: Intake is authorized and settled.  A mention from outside the allowlists gets
    one refusal that only its sender sees: no call on the language model, no count
    against the rate, no mark on the channel.  Whatever is submitted was asked for by
    an admitted sender who is entitled to this kind of task and is the task the
    resolver returned, in the sender's name: a benchmark of the request's repository
    and arguments, with exactly one variant for each revision the request names (the
    default one if it names none), each with the request's run count and the workload
    key of its arguments, the repetitions, the number of variants and their product
    within the configured limits (the product for limits below 2^32 - 1), and
    repetitions only when the binary cache is enabled.  There is at most one submission per mention, and whenever the
    acknowledgment is put on the message, its removal is asked for in the end. *)
Theorem intake_authorized c w e calls calls' fx :
  handle_mention c w e calls = (calls', fx) ->
  (is_admitted (sc_cfg c) (me_team_id e) (me_user e) = false ->
     calls' = calls /\ fx = [Fx_Ephemeral (lit "not authorized to create tasks here")])
  /\ (forall t ts a, Fx_Submit t ts a ∈ fx ->
        is_admitted (sc_cfg c) (me_team_id e) (me_user e) = true
        /\ exists request, mw_resolution w = Some (Io_Resolved request)
           /\ is_authorized_for (sc_cfg c) (me_user e) request = true
           /\ submission_allowed c request t /\ a = submission_actor e /\ ts = mw_posted w)
  /\ (length (filter (fun x => submits x = true) fx) <= 1)%nat
  /\ ack_outstanding fx false = false.
Proof.
  unfold handle_mention. destruct (is_admitted _ _ _) eqn:Ha; cbn [negb].
  2:{ intros [= <- <-]. split_and!; [done| |simpl; lia|done].
      intros t ts a Hin. apply list_elem_of_singleton in Hin. done. }
  destruct (resolve_request_for_event _ _ _ _ _) as [[resolved calls1] rfx] eqn:Hres.
  destruct (resolve_effects _ _ _ _ _ _ _ _ Hres) as [Hfx Hreq]. intros Heq. injection Heq as -> <-.
  destruct (handled_tail c w e resolved Hreq) as [[Hcount Hack] Hsub]. split_and!; [done| | |].
  - intros t ts a Hin. split; [done|]. apply Hsub. destruct Hfx as [->| ->]; set_solver.
  - destruct Hfx as [->| ->]; simpl; exact Hcount.
  - destruct Hfx as [->| ->]; simpl; apply Hack.
Qed.
End Safety.

(** ** The rate of calls on the language model *)
Section Rate.
Context `{DigestEnv}.

(** The calls made for a sequence of mentions: who and when. *)
Fixpoint mention_calls (c : SlackConnector) (ms : list (MentionWorld * MentionEvent)) (calls : IntentCalls)
  : list (rstr * Z) :=
  match ms with
  | [] => []
  | (w, e) :: rest =>
      let '(calls', fx) := handle_mention c w e calls in
      (if existsb resolves fx then [(me_user e, mw_now w)] else []) ++ mention_calls c rest calls'
  end.
Fixpoint nondecreasing (t : Z) (ms : list (MentionWorld * MentionEvent)) : Prop :=
  match ms with [] => True | (w, _) :: rest => t <= mw_now w /\ nondecreasing (mw_now w) rest end.
Definition times (user : rstr) (made : list (rstr * Z)) : list Z :=
  map snd (filter (fun kv => kv.1 = user) made).
Definition within (a : Z) (l : list Z) : nat := length (filter (fun t => a <= t <= a + WINDOW_MS) l).

Lemma pop_before_split cutoff l :
  exists popped, l = popped ++ pop_before cutoff l /\ Forall (fun t => t < cutoff) popped.
Proof.
  induction l as [|t l (popped & IH & Hp)]; [by exists []|]. cbn [pop_before].
  destruct (Z.ltb_spec t cutoff); [|by exists []].
  exists (t :: popped). split; [by rewrite IH at 1 | by constructor].
Qed.
Lemma within_app a l l' : within a (l ++ l') = (within a l + within a l')%nat.
Proof. unfold within. by rewrite filter_app, length_app. Qed.
Lemma within_before a l : Forall (fun t => t < a) l -> within a l = 0%nat.
Proof.
  unfold within. induction 1 as [|t l Ht _ IH]; [done|]. rewrite filter_cons_False by lia. done.
Qed.
Lemma within_length a l : (within a l <= length l)%nat.
Proof. apply length_filter. Qed.

(** What the queue of a user remembers of the calls made. *)
Definition remembers (limit now : Z) (made kept : list Z) : Prop :=
  (exists dropped, made = dropped ++ kept /\ Forall (fun t => t < now - WINDOW_MS) dropped)
  /\ forall a, Z.of_nat (within a made) <= limit.
Definition rate_inv (limit now : Z) (made : list (rstr * Z)) (calls : IntentCalls) : Prop :=
  forall user, remembers limit now (times user made) (default [] (calls !! user)).

Lemma remembers_later limit now now' made kept :
  now <= now' -> remembers limit now made kept -> remembers limit now' made kept.
Proof.
  intros Hle [(dropped & -> & Hd) Hb]. split; [|done]. exists dropped. split; [done|].
  eapply Forall_impl; [exact Hd|]. simpl. lia.
Qed.
Lemma remembers_pop limit now made kept :
  remembers limit now made kept ->
  remembers limit now made (if WINDOW_MS <=? now then pop_before (now - WINDOW_MS) kept else kept).
Proof.
  intros [(dropped & -> & Hd) Hb]. destruct (_ <=? _); [|split; [by exists dropped | done]].
  destruct (pop_before_split (now - WINDOW_MS) kept) as (popped & Heq & Hp).
  split; [|done]. exists (dropped ++ popped). rewrite <- app_assoc, <- Heq. split; [done|].
  by apply Forall_app.
Qed.
Lemma remembers_push limit now made kept :
  remembers limit now made kept -> Z.of_nat (length kept) < limit ->
  remembers limit now (made ++ [now]) (kept ++ [now]).
Proof.
  intros [(dropped & -> & Hd) Hb] Hlen. split; [exists dropped; by rewrite app_assoc|].
  intros a. destruct (Z.le_gt_cases (now - WINDOW_MS) a) as [Hle|Hgt].
  - rewrite !within_app. rewrite (within_before a dropped).
    + pose proof (within_length a kept). pose proof (within_length a [now]). simpl in *. lia.
    + eapply Forall_impl; [exact Hd|]. simpl. lia.
  - rewrite within_app. assert (within a [now] = 0%nat) as ->; [|rewrite Nat.add_0_r; apply Hb].
    unfold within. rewrite filter_cons_False; [done|]. lia.
Qed.

Lemma times_app user made made' : times user (made ++ made') = times user made ++ times user made'.
Proof. unfold times. by rewrite filter_app, map_app. Qed.
Lemma rate_allow rate now now' made calls user allowed calls' :
  now <= now' -> rate_inv (Z.max rate 1) now made calls ->
  allow_intent_call rate user now' calls = (allowed, calls') ->
  rate_inv (Z.max rate 1) now' (made ++ (if allowed then [(user, now')] else [])) calls'.
Proof.
  intros Hle Hinv Ha other. specialize (Hinv other) as Hr. apply (remembers_later _ _ now') in Hr; [|done].
  rewrite times_app. unfold allow_intent_call in Ha. cbv zeta in Ha.
  set (kept := if WINDOW_MS <=? now' then _ else _) in Ha.
  destruct (decide (other = user)) as [->|Hne].
  - apply remembers_pop in Hr. fold kept in Hr.
    destruct (_ <=? Z.of_nat (length kept)) eqn:El; injection Ha as <- <-;
      rewrite lookup_insert, decide_True by done; simpl.
    + by rewrite app_nil_r.
    + apply Z.leb_gt in El. unfold times at 2. rewrite filter_cons_True, filter_nil by done. simpl.
      by apply remembers_push.
  - assert (Hnil : times other (if allowed then [(user, now')] else []) = []).
    { destruct allowed; [|done]. unfold times. by rewrite filter_cons_False by (simpl; congruence). }
    rewrite Hnil, app_nil_r. destruct (_ <=? Z.of_nat (length kept)); injection Ha as <- <-;
      by rewrite lookup_insert_ne by congruence.
Qed.

(** What follows the call on the model makes no further call. *)
Lemma reject_no_resolve reason : existsb resolves (reject_after_ack reason) = false.
Proof. done. Qed.
Lemma submit_no_resolve label ref run t ts a submitted m1 m2 :
  existsb resolves ([Fx_PostQueued label ref run; Fx_Submit t ts a] ++ finish_submission submitted m1 m2) = false.
Proof. by destruct submitted. Qed.
Lemma benchmark_no_resolve c w e r : existsb resolves (handle_benchmark c w e r) = false.
Proof.
  unfold handle_benchmark. destruct (validate_benchmark_request _ _); [|done]. destruct (_ && _); [done|].
  destruct (benchmark_request_parts _ _) as [[[[repo label] args] reps] specs]. apply submit_no_resolve.
Qed.
Lemma resolve_calls c w e text now made calls resolved calls' fx :
  now <= mw_now w -> rate_inv (Z.max (sc_intent_rate_limit_per_minute c) 1) now made calls ->
  resolve_request_for_event c w e text calls = (resolved, calls', fx) ->
  rate_inv (Z.max (sc_intent_rate_limit_per_minute c) 1) (mw_now w)
    (made ++ (if existsb resolves fx then [(me_user e, mw_now w)] else [])) calls'.
Proof.
  intros Hle Hinv. assert (Hsame : rate_inv (Z.max (sc_intent_rate_limit_per_minute c) 1) (mw_now w) (made ++ []) calls).
  { intros user. rewrite app_nil_r. by eapply remembers_later. }
  unfold resolve_request_for_event. destruct (existsb (starts_with _) _); [intros [= _ <- <-]; exact Hsame|].
  destruct (negb (sc_intent_resolver c)); [intros [= _ <- <-]; exact Hsame|].
  destruct (allow_intent_call _ _ _ _) as [allowed calls1] eqn:Ha.
  pose proof (rate_allow _ _ _ _ _ _ _ _ Hle Hinv Ha) as Hnext.
  destruct allowed; cbn [negb]; intros [= _ <- <-]; exact Hnext.
Qed.
Lemma mention_rate c w e now made calls calls' fx :
  now <= mw_now w -> rate_inv (Z.max (sc_intent_rate_limit_per_minute c) 1) now made calls ->
  handle_mention c w e calls = (calls', fx) ->
  rate_inv (Z.max (sc_intent_rate_limit_per_minute c) 1) (mw_now w)
    (made ++ (if existsb resolves fx then [(me_user e, mw_now w)] else [])) calls'.
Proof.
  intros Hle Hinv. unfold handle_mention. destruct (negb (is_admitted _ _ _)).
  { intros [= <- <-]. simpl. rewrite app_nil_r. intros user. by eapply remembers_later. }
  destruct (resolve_request_for_event _ _ _ _ _) as [[resolved calls1] rfx] eqn:Hres.
  intros Heq. injection Heq as -> <-. cbn [app existsb resolves orb]. rewrite existsb_app.
  set (tail := match resolved with Ok _ => _ | Err _ => _ end).
  assert (existsb resolves tail = false) as ->.
  { subst tail. destruct resolved as [request|reason]; [|done]. destruct (negb _); [done|].
    destruct request; [apply benchmark_no_resolve | apply submit_no_resolve]. }
  rewrite orb_false_r. by eapply resolve_calls.
Qed.
Lemma mention_calls_bounded c ms now made calls user a :
  rate_inv (Z.max (sc_intent_rate_limit_per_minute c) 1) now made calls -> nondecreasing now ms ->
  Z.of_nat (within a (times user (made ++ mention_calls c ms calls)))
    <= Z.max (sc_intent_rate_limit_per_minute c) 1.
Proof.
  revert now made calls. induction ms as [|[w e] ms IH]; intros now made calls Hinv Hmono.
  { cbn [mention_calls]. rewrite app_nil_r. apply Hinv. }
  destruct Hmono as [Hle Hmono]. cbn [mention_calls].
  destruct (handle_mention c w e calls) as [calls' fx] eqn:Hm.
  rewrite app_assoc. eapply IH; [|exact Hmono]. by eapply mention_rate.
Qed.
Lemma rate_inv_empty limit now : 0 <= limit -> rate_inv limit now [] ∅.
Proof. intros Hl user. rewrite lookup_empty. split; [by exists []|]. intros a.
  assert (within a (times user []) = 0%nat) as -> by done. lia. Qed.

(** The rate of calls on the language model is bounded over every window.  Start
    the connector and let any mentions arrive, from any senders and with any outcome, at
    times that do not decrease: in no interval of one minute, wherever it begins, do the
    calls made for one sender exceed the configured limit (or one, when the limit is
    zero). *)
Theorem intake_rate_limited c ms start user a :
  nondecreasing start ms ->
  Z.of_nat (within a (times user (mention_calls c ms ∅))) <= Z.max (sc_intent_rate_limit_per_minute c) 1.
Proof.
  intros Hmono. apply (mention_calls_bounded c ms start [] ∅ user a); [|exact Hmono].
  apply rate_inv_empty. lia.
Qed.
End Rate.

(** ** From the mention to the worker *)
Section Outcome.
Context `{DigestEnv}.
#[local] Arguments lit _ : simpl never.

(** A submission and its specifications once written: benchmarks under one provenance. *)
Definition benchmark_of (sub : Uuid) (pv : ProvenanceRow) (db : SubmissionDb) : Prop :=
  is_Some (su_submissions db !! sub) /\ su_provenance db !! sub = Some pv
  /\ forall sid spec, su_specs db !! sid = Some spec -> ss_submission spec = sub ->
       ss_task_kind spec = Kind_Benchmark.
Lemma append_submissions new_id completed made db db' :
  append_next_benchmark_run new_id completed db = Ok (made, db') -> su_submissions db' = su_submissions db.
Proof.
  intros Ha. unfold append_next_benchmark_run in Ha. ok_inv Ha; try done;
    match goal with Hi : insert_run _ _ _ _ = Ok _ |- _ =>
      apply insert_run_Ok in Hi as (_ & _ & ->); done end.
Qed.
Lemma benchmark_in_place sub pv db db' : in_place db db' -> benchmark_of sub pv db -> benchmark_of sub pv db'.
Proof.
  intros Hip (Hsub & Hpv & Hspecs). split_and!.
  - by rewrite (ip_submissions _ _ Hip).
  - by rewrite (ip_provenance _ _ Hip).
  - intros sid x' Hx' Heq. destruct (ip_specs _ _ Hip _ _ Hx') as (x & c & Hx & ->). exact (Hspecs sid x Hx Heq).
Qed.
Lemma benchmark_recovered sub pv ids submission db db' :
  generation (ni_submission ids) (ni_job ids) (ni_spec ids) (recovered_plan ids submission db) db db' ->
  su_provenance db' = copy_row id submission (ni_submission ids) (su_provenance db) ->
  benchmark_of sub pv db -> benchmark_of sub pv db'.
Proof.
  intros Hge Hprov (Hsub & Hpv & Hspecs). destruct (ge_fresh _ _ _ _ _ _ Hge) as [Hfresh _].
  assert (Hne : sub <> ni_submission ids) by (intros ->; rewrite Hfresh in Hsub; by destruct Hsub).
  destruct (ge_submission _ _ _ _ _ _ Hge) as (row & Hrow). unfold benchmark_of, copy_row in *.
  rewrite Hrow, Hprov, lookup_insert_ne by done. split_and!; [done| |].
  - destruct (su_provenance db !! submission); [|done]. by rewrite lookup_insert_ne.
  - intros sid x Hx Heq. destruct (ge_only _ _ _ _ _ _ Hge _ _ Hx) as [Ho|(n & Hn & _)]; [by apply (Hspecs sid)|].
    destruct (ge_plan _ _ _ _ _ _ Hge _ _ Hn) as (_ & _ & Hs & _). congruence.
Qed.
Lemma benchmark_of_step sub pv db db' :
  store_wf db -> store_step db db' -> benchmark_of sub pv db -> benchmark_of sub pv db'.
Proof.
  intros Hwf Hs (Hsub & Hpv & Hspecs). destruct Hs as [e c ids p seen d Hprep|new_id completed made d d' Ha|id s d| | |].
  - destruct (persist_cases ids p seen d) as [->|[Hadd _]]; [done|].
    set (d' := (persist_submission ids p seen d).2) in *.
    destruct (ad_source _ _ _ _ Hadd) as (source & _ & Hsubs & _).
    destruct (ad_fresh _ _ _ _ Hadd) as [Hfresh _].
    destruct (ad_provenance _ _ _ _ Hadd) as (kind & identity & Hprov).
    assert (Hne : sub <> ni_submission ids) by (intros ->; rewrite Hfresh in Hsub; by destruct Hsub).
    unfold benchmark_of. rewrite Hsubs, Hprov, !lookup_insert_ne by congruence. split_and!; [done..|].
    intros sid spec Hspec Heq.
    destruct (new_spec_inv _ _ _ _ Hadd _ _ Hspec) as [Ho|(n & v & _ & _ & -> & _)]; [by eapply Hspecs|].
    destruct v as [[[src k] cal] h]. by destruct Hne.
  - destruct (append_specs _ _ _ _ _ Ha) as [Hsp Hp]. unfold benchmark_of.
    by rewrite Hsp, Hp, (append_submissions _ _ _ _ _ Ha).
  - unfold set_run_status. destruct (su_runs d !! id) as [r|]; [|done]. by destruct (job_terminal _).
  - by eapply benchmark_in_place; [eapply freeze_in_place|].
  - by eapply benchmark_in_place; [eapply prepare_in_place|].
  - edestruct recover_steps as (mid & Hmid & _ & Hge & _ & Hprov); [done..|].
    eapply benchmark_recovered; [done | done | by eapply benchmark_in_place].
Qed.
Lemma benchmark_of_steps sub pv db db' :
  store_wf db -> rtc store_step db db' -> benchmark_of sub pv db -> benchmark_of sub pv db'.
Proof.
  intros Hwf Hr. revert Hwf. induction Hr as [|x y z Hxy _ IH]; [done|]. intros Hwf Hb.
  apply IH; [by eapply store_step_wf | by eapply benchmark_of_step].
Qed.

Lemma hash_dash_free h : hash_ok h -> dash_free h = true.
Proof.
  intros [Hl Hh]. destruct h as [|c h]; [done|]. apply Forall_cons in Hh as [Hc _].
  unfold dash_free, starts_with. pose proof (lower_hex_not c 45 Hc ltac:(tauto)) as Hne.
  apply negb_true_iff. change (lit "-") with [45]. cbn [strip_prefix].
  by destruct (Z.eqb_spec 45 c); [congruence|].
Qed.
Lemma workload_spec_ok s : workload_ok s -> spec_ok s.
Proof.
  intros (Ht & _ & (n & Hw & Hn) & _). split; [|by rewrite Hw].
  destruct (wl_target s) as [txids|blocks|start end_]; cbn in *; [| |done].
  - destruct Ht as [Hne Hall]. split; [done|]. eapply Forall_impl; [exact Hall|]. apply hash_dash_free.
  - destruct Ht as [Hne Hall]. split; [done|]. eapply Forall_impl; [exact Hall|].
    intros [h|h]; [done|]. apply hash_dash_free.
Qed.

Lemma creation_workload r : creation_ok (Ti_Benchmark r) -> workload_ok (workload_of r).
Proof. destruct r as [s|c]; simpl; [done|]. tauto. Qed.
Lemma warmup_decided s : workload_ok s -> wl_warmup s <> None.
Proof. intros (_ & _ & (n & -> & _) & _). done. Qed.

(** The command the adapter makes of a benchmark, and its trace in the store. *)
Lemma slack_command_args a aw repository variants args repetitions ts actor cmd :
  slack_command a aw (Tsr_Benchmark repository variants args repetitions) ts actor = Ok cmd ->
  pv_queued_event_detail (cmd_provenance cmd) = slack_detail actor args repetitions
  /\ exists plan, cmd_task cmd = Plan_Benchmark plan.
Proof.
  cbn [slack_command]. destruct (aw_resolve _ _) as [target|]; [|done].
  destruct (slack_variants _ _ _ _) as [vs|]; [|done]. intros [= <-]. split; [done|]. by eexists.
Qed.
Lemma slack_detail_args actor args repetitions :
  value_get "effective_args" (slack_detail actor args repetitions) ≫= value_as_strings = Some args.
Proof. unfold slack_detail. cbn. apply strings_read. Qed.
Lemma created_benchmark serde cmd ids p seen db r db' plan :
  store_wf db -> prepare serde cmd = Ok p -> cmd_task cmd = Plan_Benchmark plan ->
  persist_submission ids p seen db = (Ok r, db') -> sbr_disposition r = Disp_Created ->
  exists pv, benchmark_of (sbr_submission_id r) pv db'
    /\ pvr_detail pv = pv_queued_event_detail (cmd_provenance cmd).
Proof.
  intros Hwf Hprep Htask Hp Hd. apply prepare_ok in Hprep as (Hcmd & _ & _ & Hplan & _).
  destruct (persist_created _ _ _ _ _ _ Hp Hd) as [-> Hadd].
  destruct (ad_source _ _ _ _ Hadd) as (source & _ & Hsubs & _).
  destruct (ad_provenance _ _ _ _ Hadd) as (kind & identity & Hprov).
  rewrite <- Hcmd in *. rewrite Htask in Hplan. destruct Hplan as (_ & first & rest & _ & Hall).
  exists {| pvr_actor_kind := kind; pvr_actor_identity := identity;
            pvr_detail := pv_queued_event_detail (cmd_provenance (ps_command p)) |}. split; [|done].
  unfold benchmark_of. rewrite Hsubs, Hprov, !lookup_insert, !decide_True by done.
  split_and!; [by eexists | done|]. intros sid spec Hspec Heq.
  destruct (new_spec_inv _ _ _ _ Hadd _ _ Hspec) as [Ho|(n & v & Hv & _ & -> & _)].
  - by destruct (spec_of_other _ _ _ _ Hwf Hadd _ _ Ho).
  - rewrite Htask in Hv. cbn [plan_variants] in Hv. apply list_lookup_fmap_Some in Hv as (x & -> & Hx).
    rewrite Forall_lookup in Hall. destruct (Hall _ _ Hx) as (_ & Hk & _). exact Hk.
Qed.

(** C31: Which Slack benchmarks can be run.  Take any answer of the language model that
    validation resolves to a benchmark, the submission the connector makes of it, the
    command the adapter makes of that, and the submission it creates: in every later
    state of the store every run of it can be assembled once its repository and
    reporting target are found.  When the request is for a
    range of blocks the worker gets exactly the rendered arguments of the request,
    whatever the defaults are; when it is for blocks or transactions, every preparation
    is refused because the stored arguments, normalized, no longer have the key they
    were submitted under (or SHA-256 has a collision). *)
Theorem slack_request_prepares `{!ScalarText} i r c w e calls calls' fx t ts actor a aw cmd serde p ids seen db
    receipt db' now id run tables repository progress token :
  json_typed i -> validate_intent_resolution i = Ok (Io_Resolved (Ti_Benchmark r)) ->
  mw_resolution w = Some (Io_Resolved (Ti_Benchmark r)) ->
  handle_mention c w e calls = (calls', fx) -> Fx_Submit t ts actor ∈ fx ->
  slack_command a aw t ts actor = Ok cmd -> prepare serde cmd = Ok p ->
  store_reachable db -> persist_submission ids p seen db = (Ok receipt, db') ->
  sbr_disposition receipt = Disp_Created -> rtc store_step db' now ->
  su_runs now !! id = Some run -> rr_submission (run_row run) = sbr_submission_id receipt ->
  at_repository tables = Some repository -> progress_target id (run_row run) tables now = Ok progress ->
  exists job, assemble_runnable id run tables token now = Ok job
  /\ forall default_args,
     if is_range (wl_target (workload_of r))
     then exists payload, payload_for job default_args = Ok (Task_Benchmark payload)
          /\ bp_effective_args payload = to_bench_args (workload_of r)
     else payload_for job default_args = Err (Prep_KeyMismatch id) \/ collision.
Proof.
  intros Ht Hv Hres Hm Hin Hcmd Hprep Hreach Hp Hd Hlater Hrun Hsub Hrepo Hprogress.
  apply (validation_sound _ _ Ht), creation_workload in Hv as Hok.
  destruct (submitted_request _ _ _ _ _ _ _ _ _ Hm Hin) as (request & Hreq & Hal).
  rewrite Hres in Hreq. injection Hreq as <-.
  destruct t as [repo variants args reps|]; [|done]. destruct Hal as (-> & _).
  apply slack_command_args in Hcmd as (Hdetail & plan & Htask).
  destruct (created_benchmark _ _ _ _ _ _ _ _ _ (reachable_wf _ Hreach) Hprep Htask Hp Hd) as (pv & Hof & Hpvd).
  assert (Hr' : store_reachable now).
  { unfold store_reachable in *. transitivity db; [done|]. eapply rtc_l; [|exact Hlater].
    pose proof (step_persist serde cmd ids p seen db Hprep) as Hstep. by rewrite Hp in Hstep. }
  assert (Hwf' : store_wf db').
  { apply (store_step_wf db); [by apply reachable_wf|].
    pose proof (step_persist serde cmd ids p seen db Hprep) as Hstep. by rewrite Hp in Hstep. }
  apply (benchmark_of_steps _ _ _ _ Hwf' Hlater) in Hof as (_ & Hpv & Hspecs).
  destruct (wf_run _ (reachable_wf _ Hr') _ _ Hrun) as [(spec & Hspec & (Hs & _ & Hkind & _) & _) _].
  destruct (assembled_payload now id run pv (to_bench_args (workload_of r)) tables repository progress token)
    as (job & Hjob & Hall); try done.
  { rewrite Hkind. apply (Hspecs _ _ Hspec). congruence. }
  { by rewrite Hsub. }
  { unfold frozen_args. rewrite Hpvd, Hdetail. apply slack_detail_args. }
  exists job. split; [done|]. intros default_args. destruct (Hall default_args) as [Hgood Hbad].
  pose proof (rendered_normal _ (workload_spec_ok _ Hok)) as Hn.
  destruct (is_range _) eqn:Er.
  - destruct Hgood as (payload & H1 & H2 & _); [apply Hn; by left|]. by exists payload.
  - apply Hbad. intros Heq. apply Hn in Heq as [?|Hw]; [done|]. by apply (warmup_decided _ Hok).
Qed.
End Outcome.

(** ** Demonstration: a request for one block *)
Section Demo.
(** A hash of sixty-four digits that tells some texts apart. *)
Definition short_hash (b : list Z) : rstr := (48 + nth 29 b 0 mod 8) :: repeat 97 63.
#[local] Instance slack_digest : DigestEnv := {| scalar_bytes := unary_scalar; sha256_hex := short_hash |}.
Lemma slack_text : @ScalarText slack_digest.
Proof. destruct unary_text as [H1 H2]. split; [exact H1 | exact H2]. Qed.

Definition demo_connector : SlackConnector :=
  with_intent_resolver 2 (SlackConnector_new
    (SlackConnectorConfig_new (lit "develop") [lit "T1"] [lit "U1"] None)).
Definition block_request : BenchmarkRequest :=
  Br_Single {| wl_target := Wt_Blocks [Sel_Height 5]; wl_clean_repetitions := 1; wl_warmup := Some 0;
               wl_repository := None; wl_rev := None |}.
Definition demo_mention (text : string) : MentionEvent :=
  {| me_team_id := lit "T1"; me_user := lit "U1"; me_channel := lit "C1"; me_message_ts := lit "1.0";
     me_text := lit text |}.
Definition demo_world (now : Z) : MentionWorld :=
  {| mw_now := now; mw_resolution := Some (Io_Resolved (Ti_Benchmark block_request));
     mw_posted := Some (lit "1.1"); mw_submitted := Err false |}.
Definition demo_request : TaskSubmissionRequest :=
  let '(repository, _, args, repetitions, specs) := benchmark_request_parts demo_connector block_request in
  Tsr_Benchmark repository specs args repetitions.
Definition block_mention : MentionEvent := demo_mention "<@UBOT> benchmark block 5".

Lemma intake_authorized_witness :
  let out := handle_mention demo_connector (demo_world 0) block_mention ∅ in
  Fx_Submit demo_request (Some (lit "1.1")) (submission_actor block_mention) ∈ out.2
  /\ submission_allowed demo_connector (Ti_Benchmark block_request) demo_request.
Proof.
  cbv zeta. set (out := handle_mention _ _ _ _).
  assert (Hin : Fx_Submit demo_request (Some (lit "1.1")) (submission_actor block_mention) ∈ out.2).
  { apply list_elem_of_lookup_2 with 3%nat. exact eq_refl. }
  split; [exact Hin|].
  destruct (intake_authorized demo_connector (demo_world 0) block_mention ∅ out.1 out.2) as (_ & Hsub & _);
    [exact (surjective_pairing out)|].
  destruct (Hsub _ _ _ Hin) as (_ & request & Hr & _ & Hal & _).
  injection Hr as <-. exact Hal.
Defined.

(** Of three mentions within a minute, two reach the language model. *)
Definition demo_mentions : list (MentionWorld * MentionEvent) :=
  map (fun now => (demo_world now, block_mention)) [1000; 2000; 61000].
Lemma intake_rate_limited_witness :
  times (lit "U1") (mention_calls demo_connector demo_mentions ∅) = [1000; 2000]
  /\ Z.of_nat (within 1000 (times (lit "U1") (mention_calls demo_connector demo_mentions ∅))) <= 2.
Proof.
  split; [exact eq_refl|].
  apply (intake_rate_limited demo_connector demo_mentions 0 (lit "U1") 1000). cbn. lia.
Defined.

(** The request for a block: accepted, stored, and never prepared. *)
Definition demo_adapter : SlackTaskSubmissionAdapter :=
  {| sta_validation := None; sta_default_repository := lit "o/r"; sta_default_rev := lit "develop" |}.
Definition demo_adapter_world : AdapterWorld :=
  {| aw_resolve := fun _ => Ok {| sjt_installation_id := 1; sjt_repo_id := 2 |};
     aw_resolve_commit := fun _ _ _ => Ok {| rc_hash := lit "abc"; rc_committed_at := None |} |}.
Definition demo_command : SubmissionCommand :=
  match slack_command demo_adapter demo_adapter_world demo_request (Some (lit "1.1"))
          (submission_actor block_mention) with
  | Ok cmd => cmd
  | Err _ => demo_benchmark
  end.
Definition slack_prepared : PreparedSubmission :=
  match prepare [] demo_command with Ok p => p | Err _ => demo_prepared end.
Definition slack_stored : SubmissionDb := (persist_submission demo_ids slack_prepared empty_store empty_store).2.
Definition demo_receipt : SubmissionReceipt :=
  {| sbr_submission_id := 500; sbr_disposition := Disp_Created; sbr_initial_job_ids := [600] |}.

Lemma slack_request_prepares_witness :
  exists job, assemble_runnable 600 (get_run 600 slack_stored) demo_tables None slack_stored = Ok job
  /\ (forall default_args, payload_for job default_args = Err (Prep_KeyMismatch 600) \/ collision)
  /\ payload_for job [] = Err (Prep_KeyMismatch 600).
Proof.
  destruct (@slack_request_prepares slack_digest slack_text
    (outcome_json (Io_Resolved (Ti_Benchmark block_request))) block_request demo_connector (demo_world 0)
    block_mention ∅ (handle_mention demo_connector (demo_world 0) block_mention ∅).1
    (handle_mention demo_connector (demo_world 0) block_mention ∅).2
    demo_request (Some (lit "1.1")) (submission_actor block_mention) demo_adapter demo_adapter_world demo_command []
    slack_prepared demo_ids empty_store empty_store demo_receipt slack_stored slack_stored 600
    (get_run 600 slack_stored) demo_tables (lit "o/r")
    (Progress_Slack (lit "C1") (lit "1.0") (for_request (lit "T1") (lit "C1") (lit "1.0")) (Some (lit "1.1"))) None) as (job & Hjob & Hall).
  - repeat split; try (by repeat constructor); cbn; unfold in_u64, in_u32; lia.
  - exact eq_refl.
  - reflexivity.
  - exact (surjective_pairing _).
  - apply list_elem_of_lookup_2 with 3%nat. exact eq_refl.
  - exact eq_refl.
  - exact eq_refl.
  - apply rtc_refl.
  - exact eq_refl.
  - reflexivity.
  - apply rtc_refl.
  - exact eq_refl.
  - exact eq_refl.
  - reflexivity.
  - exact eq_refl.
  - exists job. split; [exact Hjob|]. split; [exact Hall|].
    assert (Hp : match assemble_runnable 600 (get_run 600 slack_stored) demo_tables None slack_stored with
                 | Ok j => payload_for j [] = Err (Prep_KeyMismatch 600)
                 | Err _ => False end) by exact eq_refl.
    rewrite Hjob in Hp. exact Hp.
Defined.
End Demo.
