(* ===== verification/SlackSnapshot.v ===== *)
(** * The Slack snapshot

    crates/sbgh-slack/src/snapshot.rs: the text of a snapshot ([render_snapshot] and its helpers) and
    the publisher that keeps one Slack message per reporting identity up to date.  Slack is a
    list of messages; what a call answers is a script.  The critical sections of
    [publish], [flush_pending] and [apply] are the steps of a relation, so that publications, timers
    and restarts interleave.  The main results: text of users cannot add markup, there is never more than one message,
    and publications that do not overlap converge. *)
From stdpp Require Import base list strings relations.
From Stdlib Require Import ZArith Lia.
From S2P Require Import Prelude RustStr.

Local Open Scope Z_scope.
#[local] Arguments lit _ : simpl never.

(** ** Text *)
Definition replace_char (c : Z) (by_ : rstr) (s : rstr) : rstr :=
  concat (map (fun x => if x =? c then by_ else [x]) s).
(** [str::replace] of a non-empty pattern: occurrences from the left that do not overlap. *)
Fixpoint replace_fuel (fuel : nat) (p by_ s : rstr) : rstr :=
  match fuel, s with
  | S fuel, c :: rest =>
      match strip_prefix p s with
      | Some after => by_ ++ replace_fuel fuel p by_ after
      | None => c :: replace_fuel fuel p by_ rest
      end
  | _, _ => s
  end.
Definition replace (p by_ s : rstr) : rstr := replace_fuel (length s) p by_ s.
Definition pad_right (width : nat) (s : rstr) : rstr := s ++ List.repeat 32 (width - length s).
(** [str::get(..n)], by bytes. *)
Fixpoint get_to (n : Z) (s : rstr) : option rstr :=
  if n =? 0 then Some [] else
  match s with
  | [] => None
  | c :: rest => if n <? Char.len_utf8 c then None else cons c <$> get_to (n - Char.len_utf8 c) rest
  end.
Definition ln (s : rstr) : rstr := s ++ [10].

Definition BAR_WIDTH : Z := 20.
Definition MAX_PROGRESS_MESSAGE_CHARS : nat := 160.
Definition wide_at (name : rstr) : rstr := 0xFF20 :: name.
Definition literal (value : rstr) : rstr :=
  let value := replace_char 38 [0xFF06] value in
  let value := replace_char 60 [0x2039] value in
  let value := replace_char 62 [0x203A] value in
  let value := replace (lit "@channel") (wide_at (lit "channel")) value in
  let value := replace (lit "@here") (wide_at (lit "here")) value in
  let value := replace (lit "@everyone") (wide_at (lit "everyone")) value in
  let value := replace (lit "```") (lit "'''") value in
  map (fun c => if (c =? 13) || (c =? 10) then 32 else c) value.
Definition literal_code (value : rstr) : rstr := replace_char 96 [39] (literal value).
Definition inline_code (value : rstr) : rstr := replace_char 96 [39] value.
Definition link_label (value : rstr) : rstr := replace_char 124 [0xA6] (literal value).
Definition safe_http_url (value : rstr) : option rstr :=
  if (starts_with (lit "https://") value || starts_with (lit "http://") value)
     && negb (any_char (fun c => Char.is_control c || (c =? 60) || (c =? 62) || (c =? 124)) value)
  then Some value else None.
Definition bounded_progress (current : Z) (total : option Z) : Z * option Z :=
  match total with
  | None => (current, None)
  | Some total => if total =? 0 then (current, None) else (Z.min current total, Some total)
  end.
Definition fixed_label (value : rstr) : rstr :=
  let value := literal_code value in
  let label := take 16 value in
  let label := match drop 16 value with [] => label | _ => take 15 label ++ [0x2026] end in
  pad_right 16 label.
Fixpoint thousands_digits (digits : rstr) : rstr :=
  match digits with
  | [] => []
  | d :: rest => d :: match rest with
                      | [] => []
                      | _ => if (Nat.modulo (length rest) 3 =? 0)%nat then 44 :: thousands_digits rest
                             else thousands_digits rest
                      end
  end.
Definition thousands (value : Z) : rstr := thousands_digits (show value).

Inductive SlackStatus := Slack_Queued | Slack_Preparing | Slack_Running | Slack_Completed | Slack_Failed | Slack_Cancelled.
Global Instance SlackStatus_eq_dec : EqDecision SlackStatus.
Proof. solve_decision. Defined.
Definition status_emoji (s : SlackStatus) : rstr :=
  match s with
  | Slack_Queued => lit ":hourglass_flowing_sand:" | Slack_Preparing => lit ":construction:"
  | Slack_Running => lit ":rocket:" | Slack_Completed => lit ":white_check_mark:"
  | Slack_Failed => lit ":x:" | Slack_Cancelled => lit ":octagonal_sign:"
  end.
Definition status_label (s : SlackStatus) : rstr :=
  match s with
  | Slack_Queued => lit "Queued" | Slack_Preparing => lit "Preparing" | Slack_Running => lit "Running"
  | Slack_Completed => lit "Completed" | Slack_Failed => lit "Failed" | Slack_Cancelled => lit "Cancelled"
  end.
Record SlackProgress := { sp_label : rstr; sp_current : Z; sp_total : option Z; sp_message : option rstr }.
Record RunPosition := { rp_current : Z; rp_total : Z }.
Record SlackProgressView := {
  sv_identity : rstr;
  sv_version : Z;
  sv_status : SlackStatus;
  sv_title : rstr;
  sv_reference : rstr;
  sv_commit : option rstr;
  sv_phase : option rstr;
  sv_progress : option SlackProgress;
  sv_run : option RunPosition;
  sv_details : list rstr;
  sv_links : list (rstr * rstr)
}.
Definition view_queued (identity title reference : rstr) : SlackProgressView :=
  {| sv_identity := identity; sv_version := 0; sv_status := Slack_Queued; sv_title := title;
     sv_reference := reference; sv_commit := None; sv_phase := Some (lit "waiting for a worker");
     sv_progress := None; sv_run := None; sv_details := []; sv_links := [] |}.

Definition bar_filled (current total : Z) : Z :=
  let q := current * BAR_WIDTH / total in Z.min (if q <=? U64_MAX then q else BAR_WIDTH) BAR_WIDTH.
Definition percentage (current total : Z) : Z :=
  let q := current * 100 / total in if q <=? U64_MAX then q else 100.
Definition render_bar (label : rstr) (current : Z) (total : option Z) : rstr :=
  match total with
  | Some total =>
      ln (label ++ lit " [" ++ List.repeat 0x2588 (Z.to_nat (bar_filled current total))
          ++ List.repeat 0x2591 (Z.to_nat (BAR_WIDTH - bar_filled current total)) ++ lit "] "
          ++ thousands current ++ lit "/" ++ thousands total ++ lit " (" ++ show (percentage current total) ++ lit "%)")
  | None => ln (label ++ lit " " ++ thousands current)
  end.
Definition render_progress (p : SlackProgress) : rstr :=
  let '(current, total) := bounded_progress (sp_current p) (sp_total p) in
  render_bar (fixed_label (sp_label p)) current total
  ++ match sp_message p with
     | Some message => ln (pad_right 16 (lit "Detail") ++ lit " " ++ take MAX_PROGRESS_MESSAGE_CHARS (literal_code message))
     | None => []
     end.
Definition render_commit (commit : rstr) : rstr :=
  ln (lit "Commit: `" ++ inline_code (literal (default commit (get_to 8 commit))) ++ lit "`").
Definition render_run (r : RunPosition) : rstr :=
  let top := Z.max (rp_total r) 1 in
  ln (lit "Run: " ++ show (Z.min (Z.max (rp_current r) 1) top) ++ lit "/" ++ show top).
Definition render_state (view : SlackProgressView) : rstr :=
  match sv_progress view, sv_phase view with
  | None, None => []
  | Some p, _ => ln [] ++ ln (lit "```") ++ render_progress p ++ ln (lit "```")
  | None, Some phase => ln [] ++ ln (lit "```") ++ ln (pad_right 16 (lit "Phase") ++ lit " " ++ literal_code phase) ++ ln (lit "```")
  end.
Definition render_link (l : rstr * rstr) : rstr :=
  match safe_http_url l.2 with Some url => ln ([60] ++ url ++ [124] ++ link_label l.1 ++ [62]) | None => [] end.
(** Everything before the links. *)
Definition render_head (view : SlackProgressView) : rstr :=
  ln (status_emoji (sv_status view) ++ lit " *" ++ literal (sv_title view) ++ lit "* " ++ [0x2014; 32] ++ status_label (sv_status view))
  ++ ln (lit "Ref: `" ++ inline_code (literal (sv_reference view)) ++ lit "`")
  ++ match sv_commit view with Some c => render_commit c | None => [] end
  ++ match sv_run view with Some r => render_run r | None => [] end
  ++ render_state view
  ++ match sv_details view with [] => [] | l => ln [] ++ concat (map (fun d => ln ([0x2022; 32] ++ literal d)) l) end
  ++ match sv_links view with [] => [] | _ => ln [] end.
Definition render_body (view : SlackProgressView) : rstr := render_head view ++ concat (map render_link (sv_links view)).
Definition render_snapshot (view : SlackProgressView) : rstr := trim_end_matches Char.is_whitespace (render_body view).

(** ** No markup from users *)
Definition unmarked (s : rstr) : Prop := Forall (fun c => c <> 38 /\ c <> 60 /\ c <> 62) s.
Definition occurs (p s : rstr) : Prop := exists u v, s = u ++ p ++ v.
Lemma Forall_replace_char (P : Z -> Prop) c by_ s :
  Forall P by_ -> Forall (fun x => x = c \/ P x) s -> Forall P (replace_char c by_ s).
Proof.
  intros Hb. unfold replace_char. induction 1 as [|x s Hx _ IH]; cbn; [constructor|].
  apply Forall_app. split; [|done]. destruct (Z.eqb_spec x c); [done|]. repeat constructor. by destruct Hx.
Qed.
Lemma Forall_strip_prefix (P : Z -> Prop) p s r : strip_prefix p s = Some r -> Forall P s -> Forall P r.
Proof. intros Hs. apply strip_prefix_Some in Hs as ->. intros Hf. by apply Forall_app in Hf as [_ ?]. Qed.
Lemma Forall_replace (P : Z -> Prop) p by_ s : Forall P by_ -> Forall P s -> Forall P (replace p by_ s).
Proof.
  intros Hb. unfold replace. generalize (length s) as n. intros n. revert s.
  induction n as [|n IH]; intros s Hs; [done|]. destruct s as [|c s]; [done|]. cbn [replace_fuel].
  destruct (strip_prefix p (c :: s)) as [r|] eqn:E.
  - apply Forall_app. split; [done|]. apply IH. by eapply Forall_strip_prefix.
  - inversion Hs. constructor; auto.
Qed.

(** Replacing creates no occurrence of a pattern, and removes its own. *)
Section Replace.
Context (q by_ : rstr) (b : Z) (tail : rstr) (Hby : by_ = b :: tail).
Lemma replace_prefix n s x v : replace_fuel n q by_ s = x ++ v -> b ∉ x -> exists v', s = x ++ v'.
Proof.
  revert n s. induction x as [|c x IH]; intros n s Heq Hx; [by exists s|].
  destruct n as [|n]; [by exists v|]. destruct s as [|d s]; [done|]. cbn [replace_fuel] in Heq.
  destruct (strip_prefix q (d :: s)) as [r|].
  - rewrite Hby in Heq. injection Heq as -> _. set_solver.
  - injection Heq as -> Heq. destruct (IH n s Heq) as [v' ->]; [set_solver|]. by exists v'.
Qed.
Context (h : Z) (name : rstr).
Lemma skip_by out u v : h ∉ by_ -> by_ ++ out = u ++ (h :: name) ++ v -> occurs (h :: name) out.
Proof.
  intros Hh. revert u. clear Hby. induction by_ as [|c l IH]; intros u Heq; [by exists u, v|].
  destruct u as [|d u]; cbn in Heq; injection Heq as -> Heq; [set_solver|]. apply (IH ltac:(set_solver) u Heq).
Qed.
Lemma occurs_cons (c : Z) s p : occurs p s -> occurs p (c :: s).
Proof. intros (u & v & ->). by exists (c :: u), v. Qed.
Lemma replace_creates_none n s :
  b ∉ h :: name -> h ∉ by_ -> occurs (h :: name) (replace_fuel n q by_ s) -> occurs (h :: name) s.
Proof.
  intros Hb Hh. revert s. induction n as [|n IH]; intros s; [done|]. destruct s as [|c s]; [done|].
  cbn [replace_fuel]. destruct (strip_prefix q (c :: s)) as [r|] eqn:E.
  - intros (u & v & Heq). apply skip_by in Heq; [|done]. apply IH in Heq as (u' & v' & ->).
    apply strip_prefix_Some in E. exists (q ++ u'), v'. by rewrite E, app_assoc.
  - intros ([|d u] & v & Heq); cbn in Heq; injection Heq as -> Heq.
    + apply replace_prefix in Heq as [v' ->]; [|set_solver]. by exists [], v'.
    + apply occurs_cons, IH. by exists u, v.
Qed.
Lemma replace_removes n s :
  q = h :: name -> b ∉ h :: name -> h ∉ by_ -> (length s <= n)%nat -> ~ occurs (h :: name) (replace_fuel n q by_ s).
Proof.
  intros Hq Hb Hh. revert s. induction n as [|n IH]; intros s Hl.
  - destruct s; [|cbn in Hl; lia]. intros (u & v & Heq). by destruct u.
  - destruct s as [|c s]; [intros (u & v & Heq); by destruct u|]. cbn [replace_fuel].
    destruct (strip_prefix q (c :: s)) as [r|] eqn:E.
    + intros (u & v & Heq). apply skip_by in Heq; [|done]. revert Heq. apply IH.
      apply strip_prefix_Some in E. apply (f_equal length) in E. rewrite Hq, length_app in E. cbn in E, Hl. lia.
    + intros ([|d u] & v & Heq); cbn in Heq; injection Heq as -> Heq.
      * apply replace_prefix in Heq as [v' ->]; [|set_solver].
        assert (strip_prefix q (h :: name ++ v') = Some v') by (by apply strip_prefix_Some; rewrite Hq). congruence.
      * apply (IH s); [cbn in Hl; lia|]. by exists u, v.
Qed.
End Replace.
Definition blank_line (c : Z) : Z := if (c =? 13) || (c =? 10) then 32 else c.
Lemma blank_creates_none p s : 32 ∉ p -> occurs p (map blank_line s) -> occurs p s.
Proof.
  intros Hp (u & v & Heq). apply fmap_app_inv in Heq as (u' & r' & -> & Hr & ->).
  apply eq_sym, fmap_app_inv in Hr as (p' & v' & -> & _ & ->). exists u', v'. f_equal. f_equal.
  clear -Hp. induction p' as [|c p' IH]; [done|]. cbn in *. apply not_elem_of_cons in Hp as [Hc Hp].
  f_equal; [|by apply IH]. unfold blank_line in *. by destruct ((c =? 13) || (c =? 10)).
Qed.
Definition pings : list rstr := [lit "@channel"; lit "@here"; lit "@everyone"; lit "```"].
(** The text without the entities, the mentions and the code fences. *)
Lemma literal_steps value : exists escaped,
  Forall (fun c => c <> 38 /\ c <> 60 /\ c <> 62) escaped
  /\ literal value = map blank_line (replace (lit "```") (lit "'''") (replace (lit "@everyone") (wide_at (lit "everyone"))
       (replace (lit "@here") (wide_at (lit "here")) (replace (lit "@channel") (wide_at (lit "channel")) escaped)))).
Proof.
  eexists. split; [|reflexivity].
  apply Forall_replace_char; [by repeat constructor|]. eapply (Forall_impl (fun c => c <> 38 /\ c <> 60)); [|intros; lia].
  apply Forall_replace_char; [by repeat constructor|]. eapply (Forall_impl (fun c => c <> 38)); [|intros; lia].
  apply Forall_replace_char; [by repeat constructor|]. apply Forall_forall. intros. lia.
Qed.
Lemma literal_plain value : unmarked (literal value) /\ 10 ∉ literal value /\ 13 ∉ literal value.
Proof.
  destruct (literal_steps value) as (e & He & ->). split; [|split].
  - unfold unmarked. apply Forall_fmap. apply (Forall_impl (fun c => c <> 38 /\ c <> 60 /\ c <> 62)).
    + do 4 (apply Forall_replace; [vm_compute; repeat (constructor; [lia|]); constructor|]). exact He.
    + intros c Hc. cbn. unfold blank_line. by destruct ((c =? 13) || (c =? 10)).
  - intros Hin. apply list_elem_of_fmap in Hin as (c & Hc & _). unfold blank_line in Hc.
    destruct (Z.eqb_spec c 13), (Z.eqb_spec c 10); cbn in Hc; lia.
  - intros Hin. apply list_elem_of_fmap in Hin as (c & Hc & _). unfold blank_line in Hc.
    destruct (Z.eqb_spec c 13), (Z.eqb_spec c 10); cbn in Hc; lia.
Qed.
(** One replacement after another: an occurrence at the end was one all the way. *)
Ltac outside := apply (bool_decide_unpack _); vm_compute; exact I.
Lemma kept_out q by_ b tail h name s :
  by_ = b :: tail -> b ∉ h :: name -> h ∉ by_ -> ~ occurs (h :: name) s -> ~ occurs (h :: name) (replace q by_ s).
Proof. intros Hby Hb Hh Hs Ho. apply Hs. by eapply replace_creates_none. Qed.
Lemma removed q by_ b tail h name s :
  q = h :: name -> by_ = b :: tail -> b ∉ h :: name -> h ∉ by_ -> ~ occurs q (replace q by_ s).
Proof. intros -> Hby Hb Hh. by eapply replace_removes. Qed.
Lemma literal_silent value p : p ∈ pings -> ~ occurs p (literal value).
Proof.
  destruct (literal_steps value) as (e & _ & ->). intros Hp Ho. apply blank_creates_none in Ho.
  2: { revert Hp. unfold pings. rewrite !elem_of_cons, elem_of_nil. intros [->|[->|[->|[->|[]]]]]; outside. }
  revert Ho. unfold pings in Hp. rewrite !elem_of_cons, elem_of_nil in Hp.
  destruct Hp as [->|[->|[->|[->|[]]]]].
  - do 3 (eapply (kept_out _ _ _ _ 64 (lit "channel")); [reflexivity | outside | outside |]).
    eapply (removed _ _ _ _ 64 (lit "channel")); [reflexivity | reflexivity | outside | outside].
  - do 2 (eapply (kept_out _ _ _ _ 64 (lit "here")); [reflexivity | outside | outside |]).
    eapply (removed _ _ _ _ 64 (lit "here")); [reflexivity | reflexivity | outside | outside].
  - eapply (kept_out _ _ _ _ 64 (lit "everyone")); [reflexivity | outside | outside |].
    eapply (removed _ _ _ _ 64 (lit "everyone")); [reflexivity | reflexivity | outside | outside].
  - eapply (removed _ _ _ _ 96 (lit "``")); [reflexivity | reflexivity | outside | outside].
Qed.

(** ** The whole text *)
Create HintDb snapshot.
Lemma plain_b s : forallb (fun c => negb ((c =? 38) || (c =? 60) || (c =? 62))) s = true -> unmarked s.
Proof. intros Hs. apply Forall_forall. intros c Hc. rewrite forallb_forall in Hs. specialize (Hs c). rewrite <- list_elem_of_In in Hs. specialize (Hs Hc). bool_hyps. lia. Qed.
Lemma plain_app s t : unmarked s -> unmarked t -> unmarked (s ++ t).
Proof. intros. by apply Forall_app. Qed.
Lemma plain_ln s : unmarked s -> unmarked (ln s).
Proof. intros. by apply plain_app, plain_b. Qed.
Lemma plain_repeat c n : unmarked [c] -> unmarked (List.repeat c n).
Proof. intros Hc. induction n; cbn; [constructor|]. inversion Hc. by constructor. Qed.
Lemma plain_pad n s : unmarked s -> unmarked (pad_right n s).
Proof. intros. apply plain_app; [done|]. by apply plain_repeat, plain_b. Qed.
Lemma plain_take n s : unmarked s -> unmarked (take n s).
Proof. apply Forall_take. Qed.
Lemma plain_code s : unmarked s -> unmarked (replace_char 96 [39] s).
Proof. intros Hs. apply Forall_replace_char; [by repeat constructor|]. eapply Forall_impl; [exact Hs|]. auto. Qed.
Lemma plain_literal s : unmarked (literal s).
Proof. apply literal_plain. Qed.
Lemma plain_literal_code s : unmarked (literal_code s).
Proof. apply plain_code, plain_literal. Qed.
Lemma plain_digits s : Forall (fun c => 48 <= c <= 57) s -> unmarked s.
Proof. intros Hs. eapply Forall_impl; [exact Hs|]. cbn. lia. Qed.
Lemma show_digits_range fuel z acc :
  Forall (fun c => 48 <= c <= 57) acc -> Forall (fun c => 48 <= c <= 57) (show_digits fuel z acc).
Proof.
  revert z acc. induction fuel as [|fuel IH]; intros z acc Ha; [done|]. cbn [show_digits].
  assert (Hd : 48 <= 48 + z mod 10 <= 57) by (pose proof (Z.mod_pos_bound z 10 ltac:(lia)); lia).
  case_match; [by constructor|]. apply IH. by constructor.
Qed.
Lemma show_range z : Forall (fun c => 48 <= c <= 57) (show z).
Proof. apply show_digits_range. constructor. Qed.
Lemma plain_show z : unmarked (show z).
Proof. apply plain_digits, show_range. Qed.
Lemma plain_thousands z : unmarked (thousands z).
Proof.
  unfold thousands. pose proof (plain_show z) as Hp. induction Hp as [|c l Hc _ IH]; [constructor|].
  cbn [thousands_digits]. constructor; [done|]. destruct l; [constructor|]. case_match; [constructor; [lia|]|]; exact IH.
Qed.
Lemma plain_concat l : Forall unmarked l -> unmarked (concat l).
Proof. induction 1; cbn; [constructor | by apply plain_app]. Qed.
#[export] Hint Resolve plain_app plain_ln plain_repeat plain_pad plain_take plain_code plain_literal plain_literal_code
  plain_show plain_thousands plain_concat : snapshot.
#[export] Hint Extern 5 (unmarked _) => (apply plain_b; reflexivity) : snapshot.
Lemma plain_label s : unmarked (fixed_label s).
Proof. unfold fixed_label. cbv zeta. apply plain_pad. case_match; solve [auto 20 with snapshot]. Qed.
Lemma plain_progress p : unmarked (render_progress p).
Proof.
  unfold render_progress. destruct (bounded_progress _ _) as [c t]. apply plain_app.
  - unfold render_bar. pose proof (plain_label (sp_label p)). destruct t; solve [auto 20 with snapshot].
  - destruct (sp_message p); solve [auto 20 with snapshot].
Qed.
Lemma plain_head view : unmarked (render_head view).
Proof.
  unfold render_head.
  apply plain_app; [destruct (sv_status view); solve [auto 20 with snapshot]|].
  apply plain_app; [unfold inline_code; solve [auto 20 with snapshot]|].
  apply plain_app; [destruct (sv_commit view); [unfold render_commit, inline_code; solve [auto 20 with snapshot] | constructor]|].
  apply plain_app; [destruct (sv_run view); [unfold render_run; cbv zeta; solve [auto 20 with snapshot] | constructor]|].
  apply plain_app.
  { unfold render_state. pose proof plain_progress. destruct (sv_progress view), (sv_phase view); solve [auto 20 with snapshot]. }
  apply plain_app; [|destruct (sv_links view); solve [auto 20 with snapshot]].
  destruct (sv_details view) as [|d l]; [constructor|]. apply plain_app; [solve [auto 20 with snapshot]|]. apply plain_concat.
  apply Forall_fmap, Forall_forall. intros x _. change (unmarked (ln ([0x2022; 32] ++ literal x))). solve [auto 20 with snapshot].
Qed.
(** A URL of a link cannot leave it. *)
Definition linkable (url : rstr) : Prop :=
  (exists rest, url = lit "https://" ++ rest \/ url = lit "http://" ++ rest)
  /\ Forall (fun c => Char.is_control c = false /\ c <> 60 /\ c <> 62 /\ c <> 124) url.
Lemma safe_http_url_Some value url : safe_http_url value = Some url -> url = value /\ linkable url.
Proof.
  unfold safe_http_url. destruct (_ && _) eqn:E; [|done]. intros [= <-]. split; [done|].
  apply andb_prop in E as [E1 E2]. split.
  - unfold starts_with in E1. destruct (strip_prefix (lit "https://") value) as [r|] eqn:Es.
    + apply strip_prefix_Some in Es. exists r. by left.
    + destruct (strip_prefix (lit "http://") value) as [r|] eqn:Es'; [|done]. apply strip_prefix_Some in Es'. exists r. by right.
  - apply Forall_forall. intros c Hc. apply negb_true_iff in E2. unfold any_char in E2.
    apply not_true_iff_false in E2. rewrite existsb_exists in E2.
    destruct (Char.is_control c || (c =? 60) || (c =? 62) || (c =? 124)) eqn:Ec.
    + exfalso. apply E2. exists c. split; [by apply list_elem_of_In | done].
    + bool_hyps. split_and!; [done | lia..].
Qed.
Lemma plain_link_label s : unmarked (link_label s) /\ 124 ∉ link_label s /\ 10 ∉ link_label s.
Proof.
  unfold link_label. destruct (literal_plain s) as (Hp & Hn & _).
  assert (Hall : Forall (fun c => (c <> 38 /\ c <> 60 /\ c <> 62) /\ c <> 124 /\ c <> 10) (replace_char 124 [0xA6] (literal s))).
  { apply Forall_replace_char; [repeat constructor; lia|]. apply Forall_forall. intros c Hc.
    unfold unmarked in Hp. rewrite Forall_forall in Hp. specialize (Hp c Hc). destruct (Z.eq_dec c 124); [by left|]. right. split; [done|].
    split; [done|]. intros ->. done. }
  split; [eapply Forall_impl; [exact Hall | cbn; tauto]|]. rewrite Forall_forall in Hall. split; intros Hin; specialize (Hall _ Hin); lia.
Qed.

(** C35: A snapshot has no markup but its links.  Whatever the title, reference, commit, phase,
    progress and details are, the text before the links has no entity and no bracket of Slack's
    markup, and each link is left out or is exactly a bracketed http URL without control characters, brackets and
    bars, with a label that cannot close it; and no literal text mentions a channel or opens a
    code block. *)
Theorem snapshot_inert view :
  (exists head, unmarked head
     /\ render_snapshot view = trim_end_matches Char.is_whitespace (head ++ concat (map render_link (sv_links view))))
  /\ (forall l, render_link l = [] \/ exists label, linkable l.2 /\ unmarked label /\ 124 ∉ label /\ 10 ∉ label
        /\ render_link l = [60] ++ l.2 ++ [124] ++ label ++ [62; 10])
  /\ forall value p, p ∈ pings -> ~ occurs p (literal value).
Proof.
  split_and!.
  - exists (render_head view). split; [apply plain_head | done].
  - intros [label url]. unfold render_link. cbn [fst snd]. destruct (safe_http_url url) as [u|] eqn:E; [right|by left].
    apply safe_http_url_Some in E as [-> Hl]. destruct (plain_link_label label) as (H1 & H2 & H3).
    exists (link_label label). split_and!; [done..|]. unfold ln. by rewrite <- !app_assoc.
  - apply literal_silent.
Qed.
(** Grouping adds commas only, and a bar is full exactly at the end. *)
Lemma thousands_reads value : base.filter (fun c => c <> 44) (thousands value) = show value.
Proof.
  unfold thousands. pose proof (show_range value) as Hr. induction Hr as [|c l Hc _ IH]; [done|]. cbn [thousands_digits].
  rewrite filter_cons_True by lia. f_equal. destruct l as [|d l]; [done|]. case_match; [|done].
  rewrite filter_cons_False by (by intros []). done.
Qed.
Theorem progress_bar_exact current total c t :
  in_u64 current -> in_u64 total -> bounded_progress current (Some total) = (c, Some t) ->
  0 <= bar_filled c t <= BAR_WIDTH /\ 0 <= percentage c t <= 100 /\ (bar_filled c t = BAR_WIDTH <-> total <= current).
Proof.
  unfold in_u64, bounded_progress, bar_filled, percentage, BAR_WIDTH. intros Hc Ht.
  destruct (Z.eqb_spec total 0); [done|]. intros [= <- <-].
  assert (Hq : 0 <= Z.min current total * 20 / total <= 20)
    by (split; [apply Z.div_pos; lia | apply Z.div_le_upper_bound; lia]).
  assert (Hp : 0 <= Z.min current total * 100 / total <= 100)
    by (split; [apply Z.div_pos; lia | apply Z.div_le_upper_bound; lia]).
  unfold U64_MAX. rewrite !(proj2 (Z.leb_le _ _)) by lia. split_and!; [lia..|]. rewrite Z.min_l by lia. split; intros H.
  - pose proof (Z.mul_div_le (Z.min current total * 20) total ltac:(lia)). nia.
  - rewrite Z.min_r by lia. rewrite Z.mul_comm. apply Z.div_mul. lia.
Qed.

(** ** Slack

    The messages of the thread; one with metadata of the identity has a version.  Other identities have
    their own messages. *)
Record SlackMessage := { mg_ts : rstr; mg_text : rstr; mg_version : option Z }.
Record SlackWorld := { wd_messages : list SlackMessage; wd_persisted : option rstr }.
(** A call is answered, refused, or carried out without an answer.  A call without an
    answer takes effect before the next one; effects that arrive later are not modelled. *)
Inductive Answer := Ans_ok | Ans_refused | Ans_lost.
Global Instance Answer_eq_dec : EqDecision Answer.
Proof. solve_decision. Defined.
Record FoundMessage := { fm_ts : rstr; fm_text : rstr; fm_version : Z }.
Definition find_messages (messages : list SlackMessage) : list FoundMessage :=
  omap (fun m => (fun v => {| fm_ts := mg_ts m; fm_text := mg_text m; fm_version := v |}) <$> mg_version m) messages.
#[local] Arguments find_messages _ : simpl never.
Definition write_message (ts text : rstr) (version : Z) (m : SlackMessage) : SlackMessage :=
  if rstr_eqb (mg_ts m) ts then {| mg_ts := mg_ts m; mg_text := text; mg_version := Some version |} else m.
Definition update_message (answer : Answer) (ts text : rstr) (version : Z) (messages : list SlackMessage)
  : bool * list SlackMessage :=
  if bool_decide (answer = Ans_refused) || negb (existsb (fun m => rstr_eqb (mg_ts m) ts) messages) then (false, messages)
  else (bool_decide (answer = Ans_ok), map (write_message ts text version) messages).
Definition post_message (answer : Answer) (ts text : rstr) (version : Z) (messages : list SlackMessage)
  : bool * list SlackMessage :=
  if bool_decide (answer = Ans_refused) then (false, messages)
  else (bool_decide (answer = Ans_ok), messages ++ [{| mg_ts := ts; mg_text := text; mg_version := Some version |}]).

(** ** The publisher *)
Definition DEFAULT_UPDATE_INTERVAL : Z := 30000.
Inductive PublishUrgency := Debounced | Immediate.
Global Instance PublishUrgency_eq_dec : EqDecision PublishUrgency.
Proof. solve_decision. Defined.
Record PublisherState := {
  ps_message_ts : option rstr;
  ps_last_version : option Z;
  ps_last_text : option rstr;
  ps_last_update_at : option Z;
  ps_pending : option SlackProgressView;
  ps_timer_generation : Z
}.
Definition new_publisher (message_ts : option rstr) : PublisherState :=
  {| ps_message_ts := message_ts; ps_last_version := None; ps_last_text := None; ps_last_update_at := None;
     ps_pending := None; ps_timer_generation := 0 |}.
Definition with_last_version (v : Z) (s : PublisherState) : PublisherState :=
  {| ps_message_ts := ps_message_ts s; ps_last_version := Some v; ps_last_text := ps_last_text s;
     ps_last_update_at := ps_last_update_at s; ps_pending := ps_pending s; ps_timer_generation := ps_timer_generation s |}.
Definition with_pending (p : option SlackProgressView) (generation : Z) (s : PublisherState) : PublisherState :=
  {| ps_message_ts := ps_message_ts s; ps_last_version := ps_last_version s; ps_last_text := ps_last_text s;
     ps_last_update_at := ps_last_update_at s; ps_pending := p; ps_timer_generation := generation |}.
Definition stale (version : Z) (s : PublisherState) : bool :=
  match ps_last_version s with Some last => version <=? last | None => false end.
Definition next_timer_generation (s : PublisherState) : Z := (ps_timer_generation s + 1) mod 2 ^ 64.

(** The first critical section of [publish]: nothing to do, a timer with the new generation, or a snapshot to apply. *)
Inductive PublishDecision :=
| Dec_mismatch
| Dec_done
| Dec_timer (generation delay : Z)
| Dec_apply (view : SlackProgressView) (rendered : rstr).
Definition publish_decide (identity : rstr) (interval now : Z) (view : SlackProgressView) (urgency : PublishUrgency)
    (s : PublisherState) : PublishDecision * PublisherState :=
  if negb (rstr_eqb (sv_identity view) identity) then (Dec_mismatch, s) else
  if stale (sv_version view) s then (Dec_done, s) else
  let rendered := render_snapshot view in
  if bool_decide (ps_last_text s = Some rendered) then (Dec_done, with_last_version (sv_version view) s) else
  match urgency, ps_last_update_at s with
  | Debounced, Some last =>
      if now - last <? interval then
        let pending := match ps_pending s with
          | Some p => if sv_version p <? sv_version view then Some view else Some p
          | None => Some view
          end in
        (Dec_timer (next_timer_generation s) (Z.max 0 (interval - (now - last))), with_pending pending (next_timer_generation s) s)
      else (Dec_apply view rendered, with_pending None (next_timer_generation s) s)
  | _, _ => (Dec_apply view rendered, with_pending None (next_timer_generation s) s)
  end.
(** The critical section of [flush_pending]. *)
Definition flush_decide (generation : Z) (s : PublisherState) : PublishDecision * PublisherState :=
  if negb (ps_timer_generation s =? generation) then (Dec_done, s) else
  match ps_pending s with
  | None => (Dec_done, s)
  | Some view => (Dec_apply view (render_snapshot view), with_pending None (ps_timer_generation s) s)
  end.

Record AppliedMessage := { am_ts : rstr; am_text : rstr; am_version : Z }.
(** The calls of one [apply]: what they answer, and the timestamp of a message it posts. *)
Record ApplyScript := {
  ac_find : bool;
  ac_call : Answer;
  ac_ts : rstr;
  ac_persist : Answer
}.
Definition persist_message_ts (store : bool) (answer : Answer) (ts : rstr) (w : SlackWorld) : bool * SlackWorld :=
  if negb store then (true, w) else
  if bool_decide (answer = Ans_refused) then (false, w)
  else (bool_decide (answer = Ans_ok), {| wd_messages := wd_messages w; wd_persisted := Some ts |}).
Definition with_messages (l : list SlackMessage) (w : SlackWorld) : SlackWorld :=
  {| wd_messages := l; wd_persisted := wd_persisted w |}.
Definition update_call (sc : ApplyScript) (ts text : rstr) (version : Z) (w : SlackWorld) : option AppliedMessage * SlackWorld :=
  let '(ok, messages) := update_message (ac_call sc) ts text version (wd_messages w) in
  (if ok : bool then Some {| am_ts := ts; am_text := text; am_version := version |} else None, with_messages messages w).
Definition persist_call (store : bool) (sc : ApplyScript) (r : option AppliedMessage * SlackWorld) : option AppliedMessage * SlackWorld :=
  match r with
  | (None, w) => (None, w)
  | (Some a, w) => let '(ok, w) := persist_message_ts store (ac_persist sc) (am_ts a) w in
                   (if ok : bool then Some a else None, w)
  end.
Definition reconcile_found (store : bool) (sc : ApplyScript) (expected : option rstr) (found : FoundMessage)
    (view : SlackProgressView) (rendered : rstr) (w : SlackWorld) : option AppliedMessage * SlackWorld :=
  if match expected with Some e => negb (rstr_eqb e (fm_ts found)) | None => false end then (None, w) else
  let adopt := (Some {| am_ts := fm_ts found; am_text := fm_text found; am_version := fm_version found |}, w) in
  let applied :=
    if fm_version found <? sv_version view then update_call sc (fm_ts found) rendered (sv_version view) w
    else if fm_version found =? sv_version view then
      if rstr_eqb (fm_text found) rendered then adopt else (None, w)
    else if bool_decide (is_Some expected) && negb (rstr_eqb (fm_text found) rendered) then
      update_call sc (fm_ts found) rendered (Z.min (fm_version found + 1) U64_MAX) w
    else adopt in
  match expected with None => persist_call store sc applied | Some _ => applied end.
Definition reconcile_or_create (store : bool) (sc : ApplyScript) (expected : option rstr) (view : SlackProgressView)
    (rendered : rstr) (w : SlackWorld) : option AppliedMessage * SlackWorld :=
  if negb (ac_find sc) then (None, w) else
  match find_messages (wd_messages w), expected with
  | [], None =>
      let '(ok, messages) := post_message (ac_call sc) (ac_ts sc) rendered (sv_version view) (wd_messages w) in
      persist_call store sc
        (if ok : bool then Some {| am_ts := ac_ts sc; am_text := rendered; am_version := sv_version view |} else None,
         with_messages messages w)
  | [], Some ts => update_call sc ts rendered (sv_version view) w
  | [found], _ => reconcile_found store sc expected found view rendered w
  | _, _ => (None, w)
  end.
(** The calls between the critical sections of [apply]. *)
Definition apply_calls (store : bool) (sc : ApplyScript) (view : SlackProgressView) (rendered : rstr)
    (message_ts : option rstr) (last_version : option Z) (w : SlackWorld) : option AppliedMessage * SlackWorld :=
  match message_ts, last_version with
  | Some ts, Some _ => update_call sc ts rendered (sv_version view) w
  | _, _ => reconcile_or_create store sc message_ts view rendered w
  end.
(** The last critical section of [apply]. *)
Definition record_applied (now : Z) (a : AppliedMessage) (s : PublisherState) : PublisherState :=
  if match ps_last_version s with Some last => last <? am_version a | None => true end then
    {| ps_message_ts := Some (am_ts a); ps_last_version := Some (am_version a); ps_last_text := Some (am_text a);
       ps_last_update_at := Some now; ps_pending := ps_pending s; ps_timer_generation := ps_timer_generation s |}
  else s.

(** ** Interleaving

    The lock of [apply] is held from [Stage_calling] to [Stage_applied], so no two applications call Slack at a time; other
    publications and timers may decide in between.  A restart keeps Slack and the stored timestamp. *)
Inductive Stage :=
| Stage_idle
| Stage_calling (view : SlackProgressView) (rendered : rstr) (message_ts : option rstr) (last_version : option Z)
| Stage_applied (a : AppliedMessage).
Record Publisher := {
  pb_state : PublisherState;
  pb_waiting : list (SlackProgressView * rstr);
  pb_stage : Stage;
  pb_timers : list Z;
  pb_world : SlackWorld
}.
Definition decided (d : PublishDecision) (s : PublisherState) (p : Publisher) : Publisher :=
  {| pb_state := s;
     pb_waiting := match d with Dec_apply view rendered => pb_waiting p ++ [(view, rendered)] | _ => pb_waiting p end;
     pb_stage := pb_stage p;
     pb_timers := match d with Dec_timer generation _ => pb_timers p ++ [generation] | _ => pb_timers p end;
     pb_world := pb_world p |}.
Definition at_stage (stage : Stage) (waiting : list (SlackProgressView * rstr)) (s : PublisherState) (w : SlackWorld) (p : Publisher)
  : Publisher :=
  {| pb_state := s; pb_waiting := waiting; pb_stage := stage; pb_timers := pb_timers p; pb_world := w |}.
Definition started_publisher (w : SlackWorld) : Publisher :=
  {| pb_state := new_publisher (wd_persisted w); pb_waiting := []; pb_stage := Stage_idle; pb_timers := []; pb_world := w |}.
Definition fresh_ts (ts : rstr) (w : SlackWorld) : Prop := ts ∉ map mg_ts (wd_messages w).

Section Steps.
Context (identity : rstr) (interval : Z) (store : bool).
Inductive publisher_step : Publisher -> Publisher -> Prop :=
| Step_publish p view urgency now d s :
    publish_decide identity interval now view urgency (pb_state p) = (d, s) -> publisher_step p (decided d s p)
| Step_timer p before after generation d s :
    pb_timers p = before ++ generation :: after -> flush_decide generation (pb_state p) = (d, s) ->
    publisher_step p (decided d s
      {| pb_state := pb_state p; pb_waiting := pb_waiting p; pb_stage := pb_stage p; pb_timers := before ++ after;
         pb_world := pb_world p |})
| Step_start p before after view rendered :
    pb_stage p = Stage_idle -> pb_waiting p = before ++ (view, rendered) :: after ->
    publisher_step p
      (at_stage (if stale (sv_version view) (pb_state p) then Stage_idle
                 else Stage_calling view rendered (ps_message_ts (pb_state p)) (ps_last_version (pb_state p)))
         (before ++ after) (pb_state p) (pb_world p) p)
| Step_calls p sc view rendered ts last r w :
    pb_stage p = Stage_calling view rendered ts last -> fresh_ts (ac_ts sc) (pb_world p) ->
    apply_calls store sc view rendered ts last (pb_world p) = (r, w) ->
    publisher_step p (at_stage (match r with Some a => Stage_applied a | None => Stage_idle end) (pb_waiting p) (pb_state p) w p)
| Step_record p a now :
    pb_stage p = Stage_applied a ->
    publisher_step p (at_stage Stage_idle (pb_waiting p) (record_applied now a (pb_state p)) (pb_world p) p)
| Step_restart p : publisher_step p (started_publisher (pb_world p)).

(** ** One message *)
Definition is_found (ts : rstr) (w : SlackWorld) : Prop := exists text v, find_messages (wd_messages w) = [{| fm_ts := ts; fm_text := text; fm_version := v |}].
Record world_ok (w : SlackWorld) : Prop := {
  wk_unique : NoDup (map mg_ts (wd_messages w));
  wk_single : (length (find_messages (wd_messages w)) <= 1)%nat
}.
Record publisher_ok (p : Publisher) : Prop := {
  bo_world : world_ok (pb_world p);
  bo_state : is_Some (ps_last_version (pb_state p)) ->
    exists ts, ps_message_ts (pb_state p) = Some ts /\ is_found ts (pb_world p);
  bo_text : is_Some (ps_last_text (pb_state p)) -> is_Some (ps_last_version (pb_state p));
  bo_calling : forall view rendered ts last, pb_stage p = Stage_calling view rendered ts last -> is_Some last ->
    exists t, ts = Some t /\ is_found t (pb_world p);
  bo_applied : forall a, pb_stage p = Stage_applied a -> is_found (am_ts a) (pb_world p)
}.
Lemma find_app l1 l2 : find_messages (l1 ++ l2) = find_messages l1 ++ find_messages l2.
Proof. apply omap_app. Qed.
Lemma write_other ts text v l : ts ∉ map mg_ts l -> map (write_message ts text v) l = l.
Proof.
  induction l as [|m l IH]; intros Hn; [done|]. cbn in *. apply not_elem_of_cons in Hn as [Hm Hl]. rewrite IH by done. f_equal.
  unfold write_message, rstr_eqb. rewrite bool_decide_eq_false_2; [done|]. congruence.
Qed.
Lemma write_ts ts text v l : map mg_ts (map (write_message ts text v) l) = map mg_ts l.
Proof. rewrite map_map. apply map_ext. intros m. unfold write_message. by destruct (rstr_eqb _ _). Qed.
(** A message of the thread, and what an update makes of it. *)
Lemma split_message ts l :
  existsb (fun m => rstr_eqb (mg_ts m) ts) l = true -> NoDup (map mg_ts l) ->
  exists l1 m l2, l = l1 ++ m :: l2 /\ mg_ts m = ts
    /\ forall text v, map (write_message ts text v) l
         = l1 ++ {| mg_ts := ts; mg_text := text; mg_version := Some v |} :: l2.
Proof.
  intros Hex Hnd. apply existsb_exists in Hex as (m & Hin & Hts). apply bool_decide_eq_true_1 in Hts.
  apply list_elem_of_In, list_elem_of_split in Hin as (l1 & l2 & ->). exists l1, m, l2. split_and!; [done | done|].
  intros text v. rewrite map_app in Hnd |- *. cbn [map] in Hnd |- *. apply NoDup_app in Hnd as (_ & Hd & Hnd).
  apply NoDup_cons in Hnd as [Hm _]. rewrite Hts in *.
  rewrite !write_other; [|done|intros Hc; specialize (Hd _ Hc); set_solver].
  unfold write_message, rstr_eqb. by rewrite bool_decide_eq_true_2, Hts by done.
Qed.
Definition shows (a : AppliedMessage) (w : SlackWorld) : Prop :=
  find_messages (wd_messages w) = [{| fm_ts := am_ts a; fm_text := am_text a; fm_version := am_version a |}].
Lemma find_ts f l : f ∈ find_messages l -> fm_ts f ∈ map mg_ts l.
Proof.
  intros Hf. apply list_elem_of_omap in Hf as (m & Hm & Hf). destruct (mg_version m) as [v|] eqn:E; [|done].
  cbn in Hf. injection Hf as <-. apply list_elem_of_fmap. eauto.
Qed.
Lemma find_around ts l1 m l2 :
  NoDup (map mg_ts (l1 ++ m :: l2)) -> mg_ts m = ts ->
  (forall f, f ∈ find_messages (l1 ++ m :: l2) -> fm_ts f = ts) -> find_messages l1 = [] /\ find_messages l2 = [].
Proof.
  intros Hnd Hm Hall. rewrite map_app in Hnd. cbn [map] in Hnd. apply NoDup_app in Hnd as (_ & Hd & Hnd).
  apply NoDup_cons in Hnd as [H2 _]. rewrite Hm in *. split; apply elem_of_nil_inv; intros f Hf.
  - apply (Hd ts); [|set_solver]. rewrite <- (Hall f); [by apply find_ts|]. rewrite find_app. set_solver.
  - apply H2. rewrite <- (Hall f); [by apply find_ts|]. rewrite find_app. change (m :: l2) with ([m] ++ l2).
    rewrite find_app. set_solver.
Qed.
(** What the calls may do to the thread: nothing, or leave the applied message as the only one of the identity. *)
Record calls_ok (w w' : SlackWorld) (r : option AppliedMessage) : Prop := {
  co_world : world_ok w';
  co_found : forall t, is_found t w -> is_found t w';
  co_applied : forall a, r = Some a -> shows a w'
}.
Lemma update_call_ok sc ts text v w r w' :
  world_ok w -> (forall f, f ∈ find_messages (wd_messages w) -> fm_ts f = ts) ->
  update_call sc ts text v w = (r, w') ->
  calls_ok w w' r /\ forall a, r = Some a -> a = {| am_ts := ts; am_text := text; am_version := v |}.
Proof.
  intros [Hu Hs] Hall. unfold update_call, update_message. destruct (_ || _) eqn:E.
  - intros [= <- <-]. split; [|done]. split; [by split | by auto | done].
  - apply orb_false_elim in E as [_ E]. apply negb_false_iff in E.
    destruct (split_message _ _ E Hu) as (l1 & m & l2 & Hl & Hm & Hw). rewrite Hl in Hu, Hall.
    destruct (find_around _ _ _ _ Hu Hm Hall) as [H1 H2].
    assert (Hf : find_messages (map (write_message ts text v) (wd_messages w))
                 = [{| fm_ts := ts; fm_text := text; fm_version := v |}]).
    { rewrite Hw, find_app, H1. match goal with |- context [?x :: l2] => change (x :: l2) with ([x] ++ l2) end.
      by rewrite find_app, H2. }
    intros [= <- <-]. split; [|intros a; case_bool_decide; congruence]. split; cbn.
    + split; cbn; [rewrite write_ts, Hl; done|]. rewrite Hf. done.
    + intros t (text0 & v0 & Ht). exists text, v. cbn. rewrite Hf.
      f_equal. f_equal. symmetry. apply (Hall {| fm_ts := t; fm_text := text0; fm_version := v0 |}).
      rewrite <- Hl, Ht. set_solver.
    + intros a Ha. case_bool_decide; [|done]. injection Ha as <-. exact Hf.
Qed.
Lemma persist_call_ok sc w r w1 r' w' :
  calls_ok w w1 r -> persist_call store sc (r, w1) = (r', w') ->
  calls_ok w w' r' /\ (forall a, r' = Some a -> r = Some a).
Proof.
  intros Hc. unfold persist_call, persist_message_ts. destruct r as [a|]; [|intros [= <- <-]; done].
  destruct store; cbn [negb]; [|intros [= <- <-]; done].
  case_bool_decide; intros [= <- <-]; [destruct Hc; by split|]. destruct Hc as [[C1 C2] C3 C4]. split.
  - split; [by split | exact C3|]. intros b Hb. case_bool_decide; [|done]. by apply C4.
  - intros b. by case_bool_decide.
Qed.
(** What an application shows: the snapshot, or a newer one that it found without knowing of it. *)
Definition result_of (expected : option rstr) (view : SlackProgressView) (rendered : rstr) (a : AppliedMessage) : Prop :=
  (am_text a = rendered /\ (sv_version view <= U64_MAX -> sv_version view <= am_version a))
  \/ (expected = None /\ sv_version view < am_version a).
Lemma calls_ok_refl w : world_ok w -> calls_ok w w None.
Proof. intros Hw. by split. Qed.
Lemma reconcile_found_ok sc expected found view rendered w r w' :
  world_ok w -> find_messages (wd_messages w) = [found] ->
  reconcile_found store sc expected found view rendered w = (r, w') ->
  calls_ok w w' r /\ forall a, r = Some a -> result_of expected view rendered a.
Proof.
  intros Hw Hf. assert (Hall : forall f, f ∈ find_messages (wd_messages w) -> fm_ts f = fm_ts found).
  { rewrite Hf. intros f Hin. by apply list_elem_of_singleton in Hin as ->. }
  set (adopt := {| am_ts := fm_ts found; am_text := fm_text found; am_version := fm_version found |}).
  assert (Hadopt : calls_ok w w (Some adopt)).
  { split; [done | done|]. intros a [= <-]. unfold shows. rewrite Hf. by destruct found. }
  unfold reconcile_found. fold adopt. case_match eqn:Hts; [intros [= <- <-]; split; [by apply calls_ok_refl | done]|]. clear Hts.
  match goal with |- context [persist_call store sc ?x] => destruct x as [r1 w1] eqn:Hr1 end.
  assert (H1 : calls_ok w w1 r1 /\ forall a, r1 = Some a -> result_of expected view rendered a).
  { destruct (Z.ltb_spec (fm_version found) (sv_version view)).
    - apply update_call_ok in Hr1 as [H1 H2]; [|done..]. split; [done|]. intros a Ha. rewrite (H2 a Ha). by left.
    - destruct (Z.eqb_spec (fm_version found) (sv_version view)).
      + destruct (rstr_eqb (fm_text found) rendered) eqn:Et; simplify_eq; [|split; [by apply calls_ok_refl | done]].
        apply bool_decide_eq_true_1 in Et. split; [done|]. intros a [= <-]. left. split; [done | cbn; lia].
      + destruct (bool_decide (is_Some expected)) eqn:Ee; cbn [andb] in Hr1.
        * destruct (rstr_eqb (fm_text found) rendered) eqn:Et; cbn [negb] in Hr1.
          -- simplify_eq. apply bool_decide_eq_true_1 in Et. split; [done|]. intros a [= <-]. left. split; [done | cbn; lia].
          -- apply update_call_ok in Hr1 as [H1 H2]; [|done..]. split; [done|]. intros a Ha. rewrite (H2 a Ha). left. cbn. split; [done | lia].
        * simplify_eq. split; [done|]. intros a [= <-]. right. split; [|cbn; lia].
          apply bool_decide_eq_false_1 in Ee. by apply eq_None_not_Some. }
  destruct H1 as [H1 H2]. destruct expected as [e|]; [by intros [= <- <-]|]. intros Hp.
  apply (persist_call_ok _ w) in Hp as [H3 H4]; [|done]. split; [done|]. auto.
Qed.
Lemma post_ok sc w text v r w' :
  world_ok w -> fresh_ts (ac_ts sc) w -> find_messages (wd_messages w) = [] ->
  (let '(ok, messages) := post_message (ac_call sc) (ac_ts sc) text v (wd_messages w) in
   (if ok : bool then Some {| am_ts := ac_ts sc; am_text := text; am_version := v |} else None, with_messages messages w)) = (r, w') ->
  calls_ok w w' r /\ forall a, r = Some a -> a = {| am_ts := ac_ts sc; am_text := text; am_version := v |}.
Proof.
  intros [Hu Hs] Hfresh Hf. unfold post_message.
  case_bool_decide; intros [= <- <-]; [split; [split; [by split | by auto | done] | done]|].
  assert (Hnew : find_messages (wd_messages w ++ [{| mg_ts := ac_ts sc; mg_text := text; mg_version := Some v |}])
                 = [{| fm_ts := ac_ts sc; fm_text := text; fm_version := v |}]) by (by rewrite find_app, Hf).
  split; [|intros a; case_bool_decide; congruence]. split; cbn.
  - split; cbn; [|by rewrite Hnew]. rewrite map_app. apply NoDup_app. split_and!; [done| |apply NoDup_singleton].
    intros x Hx Hx'. apply list_elem_of_singleton in Hx' as ->. done.
  - intros t (? & ? & Ht). unfold is_found in Ht. congruence.
  - intros a Ha. case_bool_decide; [|done]. injection Ha as <-. exact Hnew.
Qed.
Lemma apply_calls_ok sc view rendered ts last w r w' :
  world_ok w -> fresh_ts (ac_ts sc) w -> (is_Some last -> exists t, ts = Some t /\ is_found t w) ->
  apply_calls store sc view rendered ts last w = (r, w') ->
  calls_ok w w' r /\ forall a, r = Some a -> result_of ts view rendered a.
Proof.
  intros Hw Hfresh Hlast. unfold apply_calls.
  assert (Hrec : reconcile_or_create store sc ts view rendered w = (r, w') ->
    calls_ok w w' r /\ forall a, r = Some a -> result_of ts view rendered a).
  { unfold reconcile_or_create. destruct (ac_find sc); cbn [negb]; [|intros [= <- <-]; split; [by apply calls_ok_refl | done]].
    destruct (find_messages (wd_messages w)) as [|found [|f2 rest]] eqn:Hf.
    - destruct ts as [t|].
      + intros Hu. apply update_call_ok in Hu as [H1 H2]; [|done | rewrite Hf; intros f Hin; by apply not_elem_of_nil in Hin].
        split; [done|]. intros a Ha. rewrite (H2 a Ha). by left.
      + destruct (post_message _ _ _ _ _) as [ok messages] eqn:Hp. intros Hc.
        edestruct (post_ok sc w rendered (sv_version view)) as [H1 H2]; [done | done | done | by rewrite Hp|].
        apply (persist_call_ok _ w) in Hc as [H3 H4]; [|exact H1]. split; [done|]. intros a Ha.
        rewrite (H2 a (H4 a Ha)). by left.
    - intros Hr. by eapply reconcile_found_ok in Hr.
    - destruct ts; intros [= <- <-]; (split; [by apply calls_ok_refl | done]). }
  destruct ts as [t|]; [|exact Hrec]. destruct last as [lv|]; [|exact Hrec]. clear Hrec.
  destruct (Hlast ltac:(by eexists)) as (t' & [= <-] & (text & v & Ht)). intros Hu.
  apply update_call_ok in Hu as [H1 H2]; [|done|].
  - split; [done|]. intros a Ha. rewrite (H2 a Ha). by left.
  - rewrite Ht. intros f Hin. by apply list_elem_of_singleton in Hin as ->.
Qed.

(** A decision keeps the recorded message. *)
Record same_message (s s' : PublisherState) : Prop := {
  sa_ts : ps_message_ts s' = ps_message_ts s;
  sa_text : ps_last_text s' = ps_last_text s;
  sa_version : is_Some (ps_last_version s') -> is_Some (ps_last_version s) \/ is_Some (ps_last_text s);
  sa_kept : is_Some (ps_last_version s) -> is_Some (ps_last_version s')
}.
Lemma publish_same now view urgency s d s' :
  publish_decide identity interval now view urgency s = (d, s') -> same_message s s'.
Proof.
  unfold publish_decide. repeat (case_match; try (intros [= <- <-]; by split; cbn; auto)).
  intros [= <- <-]. case_bool_decide; [|done]. split; cbn; eauto.
Qed.
Lemma flush_same generation s d s' : flush_decide generation s = (d, s') -> same_message s s'.
Proof. unfold flush_decide. repeat case_match; intros [= <- <-]; by split; cbn; auto. Qed.
Lemma decided_ok d s p : publisher_ok p -> same_message (pb_state p) s -> publisher_ok (decided d s p).
Proof.
  intros [H1 H2 H3 H4 H5] [S1 S2 S3 S4]. split; cbn; [done| |rewrite S2; auto|done..].
  intros Hv. rewrite S1. apply H2. destruct (S3 Hv); auto.
Qed.
Lemma publisher_step_ok p p' : publisher_ok p -> publisher_step p p' -> publisher_ok p'.
Proof.
  intros Hok Hstep. destruct Hstep as [p view urgency now d s Hd|p before after generation d s Ht Hd
    |p before after view rendered Hi Hw|p sc view rendered ts last r w Hc Hf Ha|p a now Ha|p].
  - apply decided_ok; [done|]. by eapply publish_same.
  - apply decided_ok; [by destruct Hok|]. by eapply flush_same.
  - destruct Hok as [H1 H2 H3 H4 H5]. split; cbn; [done..| |].
    + intros v0 r0 ts last Heq Hl. case_match; simplify_eq. auto.
    + intros a. by case_match.
  - destruct Hok as [H1 H2 H3 H4 H5].
    destruct (apply_calls_ok sc view rendered ts last _ r w H1 Hf (H4 _ _ _ _ Hc) Ha) as [[C1 C2 C3] _].
    split; cbn; [done| |done| |].
    + intros Hv. destruct (H2 Hv) as (t & Ht & Hfound). eauto.
    + intros v0 r0 ts0 last0 Heq. by destruct r.
    + intros a Heq. destruct r as [a'|]; [|done]. injection Heq as ->. specialize (C3 a eq_refl). by eexists _, _.
  - destruct Hok as [H1 H2 H3 H4 H5]. specialize (H5 a Ha). split; cbn; [done| | |done..]; unfold record_applied; case_match; cbn; eauto.
  - destruct Hok as [H1 H2 H3 H4 H5]. split; cbn; [done|by intros [? ?]..|done|done].
Qed.

(** C22: There is one message.  For a publisher and the ones that follow it after restarts, however
    publications, timers, failing and unanswered calls and restarts interleave, at most one message of the
    thread carries the identity, and once the publisher has recorded a version the timestamp it holds is that
    message's. *)
Theorem one_message w p :
  world_ok w -> rtc publisher_step (started_publisher w) p ->
  (length (find_messages (wd_messages (pb_world p))) <= 1)%nat
  /\ (is_Some (ps_last_version (pb_state p)) ->
      exists ts, ps_message_ts (pb_state p) = Some ts /\ is_found ts (pb_world p)).
Proof.
  intros Hw Hr. assert (Hok : publisher_ok p).
  { revert Hr. apply (rtc_ind_r publisher_ok).
    - split; cbn; [done | by intros [? ?].. | done | done].
    - intros p1 p2 _ Hs Hp. by eapply publisher_step_ok. }
  split; [apply Hok | apply (bo_state _ Hok)].
Qed.

(** ** Publications one at a time

    [publish] and [flush_pending] run to their end; [false] is an error. *)
Record Solo := { so_state : PublisherState; so_world : SlackWorld; so_timers : list Z }.
Definition apply_snapshot (now : Z) (sc : ApplyScript) (view : SlackProgressView) (rendered : rstr) (timers : list Z)
    (s : PublisherState) (w : SlackWorld) : bool * Solo :=
  if stale (sv_version view) s then (true, {| so_state := s; so_world := w; so_timers := timers |}) else
  match apply_calls store sc view rendered (ps_message_ts s) (ps_last_version s) w with
  | (Some a, w') => (true, {| so_state := record_applied now a s; so_world := w'; so_timers := timers |})
  | (None, w') => (false, {| so_state := s; so_world := w'; so_timers := timers |})
  end.
Definition carry_out (now : Z) (sc : ApplyScript) (d : PublishDecision) (s : PublisherState) (w : SlackWorld) (timers : list Z)
  : bool * Solo :=
  match d with
  | Dec_mismatch => (false, {| so_state := s; so_world := w; so_timers := timers |})
  | Dec_done => (true, {| so_state := s; so_world := w; so_timers := timers |})
  | Dec_timer generation _ => (true, {| so_state := s; so_world := w; so_timers := timers ++ [generation] |})
  | Dec_apply view rendered => apply_snapshot now sc view rendered timers s w
  end.
Definition publish_snapshot (started now : Z) (sc : ApplyScript) (view : SlackProgressView) (urgency : PublishUrgency) (x : Solo)
  : bool * Solo :=
  let '(d, s) := publish_decide identity interval started view urgency (so_state x) in
  carry_out now sc d s (so_world x) (so_timers x).
Definition flush_pending (now : Z) (sc : ApplyScript) (generation : Z) (timers : list Z) (x : Solo) : bool * Solo :=
  let '(d, s) := flush_decide generation (so_state x) in carry_out now sc d s (so_world x) timers.
Inductive Action :=
| Act_publish (started now : Z) (sc : ApplyScript) (view : SlackProgressView) (urgency : PublishUrgency)
| Act_timer (now : Z) (sc : ApplyScript) (index : nat).
Definition answered (r : bool * Solo) : option Solo := if r.1 then Some r.2 else None.
Definition act (a : Action) (x : Solo) : option Solo :=
  match a with
  | Act_publish started now sc view urgency => answered (publish_snapshot started now sc view urgency x)
  | Act_timer now sc index =>
      match so_timers x !! index with
      | Some generation => answered (flush_pending now sc generation (delete index (so_timers x)) x)
      | None => None
      end
  end.
Fixpoint acts (l : list Action) (x : Solo) : option Solo :=
  match l with [] => Some x | a :: rest => act a x ≫= acts rest end.

(** What Slack shows, as the publisher recorded it. *)
Definition showing (t : rstr) (s : PublisherState) (w : SlackWorld) : Prop :=
  exists ts v, ps_message_ts s = Some ts /\ ps_last_text s = Some t
    /\ find_messages (wd_messages w) = [{| fm_ts := ts; fm_text := t; fm_version := v |}].
(** The latest snapshot is shown, and what is pending is older; or it is pending, with a timer. *)
Record caught_up (latest : SlackProgressView) (x : Solo) : Prop := {
  se_world : world_ok (so_world x);
  se_shows : showing (render_snapshot latest) (so_state x) (so_world x);
  se_version : ps_last_version (so_state x) = Some (sv_version latest);
  se_pending : forall p, ps_pending (so_state x) = Some p -> sv_version p <= sv_version latest
}.
Record deferred (latest : SlackProgressView) (x : Solo) : Prop := {
  df_world : world_ok (so_world x);
  df_shows : exists t, showing t (so_state x) (so_world x);
  df_version : exists v, ps_last_version (so_state x) = Some v /\ v < sv_version latest;
  df_pending : ps_pending (so_state x) = Some latest;
  df_timer : ps_timer_generation (so_state x) ∈ so_timers x
}.
Definition converging (latest : SlackProgressView) (x : Solo) : Prop := caught_up latest x \/ deferred latest x.
(** A newer snapshot applied to the recorded message. *)
Lemma apply_newer now sc view timers t v s w x :
  world_ok w -> showing t s w -> ps_last_version s = Some v -> v < sv_version view -> ps_pending s = None ->
  apply_snapshot now sc view (render_snapshot view) timers s w = (true, x) -> caught_up view x.
Proof.
  intros Hw (ts & v0 & Hts & Ht & Hf) Hv Hlt Hp. unfold apply_snapshot, stale, apply_calls. rewrite Hv, Hts.
  rewrite (proj2 (Z.leb_gt _ _) Hlt). destruct (update_call _ _ _ _ _) as [[a|] w'] eqn:Hu; [|done]. intros [= <-].
  apply update_call_ok in Hu as [[C1 C2 C3] Ha]; [|done|rewrite Hf; intros f Hin; by apply list_elem_of_singleton in Hin as ->].
  rewrite (Ha a eq_refl) in *. specialize (C3 _ eq_refl). unfold record_applied. rewrite Hv. cbn.
  rewrite (proj2 (Z.ltb_lt _ _) Hlt). split; cbn; [done| |done|rewrite Hp; done]. exists ts, (sv_version view). by split_and!.
Qed.
Lemma converging_base latest x : converging latest x ->
  world_ok (so_world x) /\ (exists t, showing t (so_state x) (so_world x))
  /\ (exists v, ps_last_version (so_state x) = Some v /\ v <= sv_version latest)
  /\ (forall p, ps_pending (so_state x) = Some p -> sv_version p <= sv_version latest).
Proof.
  intros [[H1 H2 H3 H4]|[H1 H2 (v & Hv & Hlt) H4 H5]].
  - split_and!; [done | by eexists | exists (sv_version latest); by split | done].
  - split_and!; [done | done | exists v; split; [done | lia]|]. intros p Hp. rewrite H4 in Hp. injection Hp as <-. lia.
Qed.
Lemma publish_converging started now sc view urgency latest x x' :
  converging latest x -> sv_version latest < sv_version view ->
  publish_snapshot started now sc view urgency x = (true, x') -> converging view x'.
Proof.
  intros Hc Hlt. destruct (converging_base _ _ Hc) as (Hw & (t & Hsh) & (v & Hv & Hvl) & Hpend).
  destruct x as [s w timers]. cbn in *. unfold publish_snapshot, publish_decide. cbn [so_state so_world so_timers].
  destruct (rstr_eqb (sv_identity view) identity); cbn [negb]; [|done].
  unfold stale. rewrite Hv, (proj2 (Z.leb_gt (sv_version view) v)) by lia.
  case_bool_decide as Ht.
  - intros [= <-]. left. destruct Hsh as (ts & v0 & H1 & H2 & H3). split; cbn; [done| |done|intros p Hp; specialize (Hpend p Hp); lia].
    exists ts, v0. rewrite H2 in Ht. injection Ht as ->. by split_and!.
  - assert (Happly : forall s', s' = with_pending None (next_timer_generation s) s ->
      carry_out now sc (Dec_apply view (render_snapshot view)) s' w timers = (true, x') -> converging view x').
    { intros s' -> Ha. left. apply (apply_newer now sc view timers t v (with_pending None (next_timer_generation s) s) w); [done | exact Hsh | exact Hv | lia | done | exact Ha]. }
    destruct urgency; [|by apply Happly]. destruct (ps_last_update_at s) as [last|]; [|by apply Happly].
    destruct (started - last <? interval); [|by apply Happly]. intros [= <-]. right.
    split; cbn; [done | by exists t | by exists v; split; [done | lia] | | set_solver].
    destruct (ps_pending s) as [p|] eqn:Hp; [|done]. specialize (Hpend p eq_refl). by rewrite (proj2 (Z.ltb_lt _ _)) by lia.
Qed.
Lemma answered_Some r x : answered r = Some x -> r = (true, x).
Proof. unfold answered. destruct r as [[] y]; cbn; [by intros [= ->] | done]. Qed.
Lemma timer_converging now sc index latest x x' :
  converging latest x -> act (Act_timer now sc index) x = Some x' -> converging latest x'.
Proof.
  intros Hc. destruct (converging_base _ _ Hc) as (Hw & (t & Hsh) & (v & Hv & Hvl) & Hpend).
  unfold act. destruct (so_timers x !! index) as [g|] eqn:Hg; [|done]. intros Hx. apply answered_Some in Hx. revert Hx.
  unfold flush_pending, flush_decide.
  destruct (Z.eqb_spec (ps_timer_generation (so_state x)) g) as [Heq|Hne]; cbn [negb].
  - destruct (ps_pending (so_state x)) as [p|] eqn:Hp.
    + cbn [carry_out]. destruct Hc as [[H1 H2 H3 H4]|[H1 H2 H3 H4 H5]].
      * unfold apply_snapshot, stale. cbn [with_pending ps_last_version]. rewrite H3, (proj2 (Z.leb_le _ _) (H4 p Hp)).
        intros [= <-]. left. by split.
      * rewrite Hp in H4. injection H4 as ->. intros Ha. left. destruct H3 as (v1 & Hv1 & Hlt).
        by apply (apply_newer now sc latest (delete index (so_timers x)) t v1
          (with_pending None (ps_timer_generation (so_state x)) (so_state x)) (so_world x)).
    + cbn [carry_out]. intros [= <-]. destruct Hc as [[H1 H2 H3 H4]|[H1 H2 H3 H4 H5]]; [left; by split | congruence].
  - cbn [carry_out]. intros [= <-]. destruct Hc as [[H1 H2 H3 H4]|[H1 H2 H3 H4 H5]]; [left; by split | right].
    split; cbn; [done..|]. apply list_elem_of_lookup in H5 as [k Hk]. apply list_elem_of_lookup.
    destruct (Nat.lt_trichotomy k index) as [Hlt|[->|Hgt]].
    + exists k. by rewrite list_lookup_delete_lt.
    + congruence.
    + exists (k - 1)%nat. rewrite list_lookup_delete_ge by lia. by replace (S (k - 1)) with k by lia.
Qed.
(** The first publication: messages of the identity that are there are older. *)
Lemma publish_first started now sc view urgency w x' :
  world_ok w -> fresh_ts (ac_ts sc) w -> (forall f, f ∈ find_messages (wd_messages w) -> fm_version f < sv_version view) ->
  publish_snapshot started now sc view urgency {| so_state := new_publisher (wd_persisted w); so_world := w; so_timers := [] |} = (true, x') ->
  caught_up view x'.
Proof.
  intros Hw Hfresh Hold. unfold publish_snapshot, publish_decide. cbn [so_state so_world so_timers].
  destruct (rstr_eqb (sv_identity view) identity); cbn [negb]; [|done]. unfold stale. cbn [new_publisher ps_last_version ps_last_text].
  rewrite bool_decide_eq_false_2 by done.
  assert (Ha : carry_out now sc (Dec_apply view (render_snapshot view)) (with_pending None (next_timer_generation (new_publisher (wd_persisted w)))
                 (new_publisher (wd_persisted w))) w [] = (true, x') -> caught_up view x'); [|by destruct urgency].
  unfold carry_out, apply_snapshot, stale. cbn [new_publisher with_pending ps_last_version ps_message_ts].
  destruct (apply_calls _ _ _ _ _ _ _) as [[a|] w'] eqn:Hc; [|done]. intros [= <-].
  assert (Hex : am_text a = render_snapshot view /\ am_version a = sv_version view).
  { unfold apply_calls in Hc. destruct (wd_persisted w) as [ts|]; cbn in Hc;
      unfold reconcile_or_create in Hc; destruct (ac_find sc); cbn [negb] in Hc; try done.
    - destruct (find_messages (wd_messages w)) as [|f [|f2 rest]] eqn:Hf; [| |done].
      + apply update_call_ok in Hc as [_ Hx]; [|done | rewrite Hf; set_solver]. by rewrite (Hx a eq_refl).
      + unfold reconcile_found in Hc. case_match; [done|]. rewrite (proj2 (Z.ltb_lt _ _) (Hold f ltac:(set_solver))) in Hc.
        apply update_call_ok in Hc as [_ Hx]; [|done | rewrite Hf; set_solver]. by rewrite (Hx a eq_refl).
    - destruct (find_messages (wd_messages w)) as [|f [|f2 rest]] eqn:Hf; [| |done].
      + unfold post_message in Hc. unfold persist_call in Hc. repeat case_match; simplify_eq; done.
      + unfold reconcile_found in Hc. rewrite (proj2 (Z.ltb_lt _ _) (Hold f ltac:(set_solver))) in Hc.
        destruct (update_call _ _ _ _ _) as [r1 w1] eqn:Hu.
        apply update_call_ok in Hu as [_ Hx]; [|done | rewrite Hf; set_solver].
        unfold persist_call in Hc. destruct r1 as [a1|]; [|done]. repeat case_match; simplify_eq. by rewrite (Hx a eq_refl). }
  destruct Hex as [He1 He2].
  apply apply_calls_ok in Hc as [[C1 C2 C3] _]; [|done | done | by intros [? ?]]. specialize (C3 a eq_refl). unfold shows in C3.
  unfold record_applied. cbn. split; cbn; [done | | by rewrite He2 | done]. exists (am_ts a), (am_version a).
  rewrite <- He1. by split_and!.
Qed.
Fixpoint increasing (bound : Z) (l : list Action) : Prop :=
  match l with
  | [] => True
  | Act_publish _ _ _ view _ :: rest => bound < sv_version view /\ increasing (sv_version view) rest
  | Act_timer _ _ _ :: rest => increasing bound rest
  end.
Fixpoint latest_of (latest : option SlackProgressView) (l : list Action) : option SlackProgressView :=
  match l with
  | [] => latest
  | Act_publish _ _ _ view _ :: rest => latest_of (Some view) rest
  | Act_timer _ _ _ :: rest => latest_of latest rest
  end.
Lemma acts_converging l latest x x' :
  converging latest x -> increasing (sv_version latest) l -> acts l x = Some x' ->
  exists view, latest_of (Some latest) l = Some view /\ converging view x'.
Proof.
  revert latest x. induction l as [|a l IH]; intros latest x Hc Hi Ha; cbn in Ha; [simplify_eq; by exists latest|].
  apply bind_Some in Ha as (x1 & Ha & Hrest). destruct a as [started now sc view urgency|now sc index].
  - destruct Hi as [Hlt Hi]. apply answered_Some in Ha. eapply IH; [|exact Hi | done]. by eapply publish_converging.
  - eapply IH; [|exact Hi | done]. by eapply timer_converging.
Qed.

(** C0: Publications converge.  Publications with increasing versions and the timers they leave, run
    one after another in any order, without a failing call, from a thread whose snapshots are older: afterwards Slack
    shows the text of the latest snapshot in the only message of the identity, or that snapshot waits for a
    timer that is outstanding; so once no timer is, Slack shows it. *)
Theorem publisher_converges w l x latest :
  world_ok w ->
  (forall started now sc view urgency rest, l = Act_publish started now sc view urgency :: rest ->
     fresh_ts (ac_ts sc) w /\ forall f, f ∈ find_messages (wd_messages w) -> fm_version f < sv_version view) ->
  increasing (-1) l ->
  acts l {| so_state := new_publisher (wd_persisted w); so_world := w; so_timers := [] |} = Some x ->
  latest_of None l = Some latest ->
  let shown := exists ts v, find_messages (wd_messages (so_world x))
                 = [{| fm_ts := ts; fm_text := render_snapshot latest; fm_version := v |}] in
  (shown \/ (ps_pending (so_state x) = Some latest /\ ps_timer_generation (so_state x) ∈ so_timers x))
  /\ (so_timers x = [] -> shown).
Proof.
  intros Hw Hfirst Hi Ha Hl shown. assert (Hc : converging latest x).
  { destruct l as [|[started now sc view urgency|now sc index] l]; [done| |done]. cbn in Hi, Hl, Ha.
    destruct Hi as [_ Hi]. apply bind_Some in Ha as (x1 & Ha & Hrest). apply answered_Some in Ha.
    destruct (Hfirst _ _ _ _ _ _ eq_refl) as [Hf Ho].
    pose proof (publish_first _ _ _ _ _ _ _ Hw Hf Ho Ha) as Hs.
    destruct (acts_converging l view x1 x (or_introl Hs) Hi Hrest) as (v & Hv & Hc). by simplify_eq. }
  destruct Hc as [[H1 (ts & v & _ & _ & H2) H3 H4]|[H1 H2 H3 H4 H5]].
  - assert (Hsh : shown) by (by exists ts, v). by split; [left|].
  - split; [by right|]. intros Hn. rewrite Hn in H5. by apply not_elem_of_nil in H5.
Qed.
End Steps.

(** ** Overlapping publications

    A publication whose text is the last recorded one is only noted, also while an application of another
    text is under way: Slack then keeps that text although every call was answered and nothing is left to do. *)
Definition demo_view (version : Z) (phase : rstr) : SlackProgressView :=
  {| sv_identity := lit "i"; sv_version := version; sv_status := Slack_Running; sv_title := lit "Benchmark";
     sv_reference := lit "main"; sv_commit := None; sv_phase := Some phase; sv_progress := None; sv_run := None;
     sv_details := []; sv_links := [] |}.
Definition demo_answers (ts : rstr) : ApplyScript := {| ac_find := true; ac_call := Ans_ok; ac_ts := ts; ac_persist := Ans_ok |}.
Definition demo_empty : SlackWorld := {| wd_messages := []; wd_persisted := None |}.
Section Demo.
Notation step := (publisher_step (lit "i") 30000 true).
Definition demo_publish (version : Z) (phase : rstr) (p : Publisher) : Publisher :=
  let r := publish_decide (lit "i") 30000 0 (demo_view version phase) Immediate (pb_state p) in decided r.1 r.2 p.
Definition demo_start (p : Publisher) : Publisher :=
  match pb_waiting p with
  | (view, rendered) :: rest =>
      at_stage (if stale (sv_version view) (pb_state p) then Stage_idle
                else Stage_calling view rendered (ps_message_ts (pb_state p)) (ps_last_version (pb_state p)))
        rest (pb_state p) (pb_world p) p
  | [] => p
  end.
Definition demo_call_slack (ts : rstr) (p : Publisher) : Publisher :=
  match pb_stage p with
  | Stage_calling view rendered expected last =>
      let r := apply_calls true (demo_answers ts) view rendered expected last (pb_world p) in
      at_stage (match r.1 with Some a => Stage_applied a | None => Stage_idle end) (pb_waiting p) (pb_state p) r.2 p
  | _ => p
  end.
Definition demo_record (p : Publisher) : Publisher :=
  match pb_stage p with
  | Stage_applied a => at_stage Stage_idle (pb_waiting p) (record_applied 100 a (pb_state p)) (pb_world p) p
  | _ => p
  end.
Lemma demo_publish_step version phase p : rtc step p (demo_publish version phase p).
Proof. apply rtc_once. eapply Step_publish. apply surjective_pairing. Qed.
Lemma demo_start_step p : pb_stage p = Stage_idle -> rtc step p (demo_start p).
Proof.
  intros Hi. unfold demo_start. destruct (pb_waiting p) as [|[view rendered] rest] eqn:E; [done|].
  apply rtc_once. by apply (Step_start _ _ _ p [] rest view rendered).
Qed.
Lemma demo_calls_step ts p :
  forallb (fun m => negb (rstr_eqb (mg_ts m) ts)) (wd_messages (pb_world p)) = true -> rtc step p (demo_call_slack ts p).
Proof.
  intros Hb. assert (Hf : fresh_ts ts (pb_world p)).
  { intros Hin. apply list_elem_of_fmap in Hin as (m & -> & Hm). rewrite forallb_forall in Hb.
    specialize (Hb m ltac:(by apply list_elem_of_In)). unfold rstr_eqb in Hb. by rewrite bool_decide_eq_true_2 in Hb. }
  unfold demo_call_slack. destruct (pb_stage p) as [|view rendered expected last|a] eqn:E; [done| |done].
  apply rtc_once. eapply (Step_calls _ _ _ p (demo_answers ts)); [done | exact Hf | apply surjective_pairing].
Qed.
Lemma demo_record_step p : rtc step p (demo_record p).
Proof. unfold demo_record. destruct (pb_stage p) eqn:E; [done | done|]. apply rtc_once. by eapply Step_record. Qed.
(** The first snapshot is published; the second is under way when the third, with the text of the first, comes. *)
Definition demo_sent : Publisher := demo_start (demo_publish 1 (lit "a") (started_publisher demo_empty)).
Definition demo_first : Publisher := demo_record (demo_call_slack (lit "1.0") demo_sent).
Definition demo_sending : Publisher := demo_start (demo_publish 2 (lit "b") demo_first).
Definition demo_overtaken : Publisher := demo_call_slack (lit "2.0") demo_sending.
Definition demo_overlap : Publisher := demo_record (demo_publish 3 (lit "a") demo_overtaken).
Lemma demo_sent_reached : rtc step (started_publisher demo_empty) demo_sent.
Proof. transitivity (demo_publish 1 (lit "a") (started_publisher demo_empty)); [apply demo_publish_step | by apply demo_start_step]. Qed.
Lemma demo_first_reached : rtc step (started_publisher demo_empty) demo_first.
Proof.
  transitivity demo_sent; [exact demo_sent_reached|].
  transitivity (demo_call_slack (lit "1.0") demo_sent); [apply demo_calls_step; vm_compute; reflexivity | apply demo_record_step].
Qed.
Lemma demo_sending_reached : rtc step (started_publisher demo_empty) demo_sending.
Proof.
  transitivity demo_first; [exact demo_first_reached|].
  transitivity (demo_publish 2 (lit "b") demo_first); [apply demo_publish_step|]. apply demo_start_step. vm_compute. reflexivity.
Qed.
Lemma demo_overlap_reached : rtc step (started_publisher demo_empty) demo_overlap.
Proof.
  transitivity demo_sending; [exact demo_sending_reached|].
  transitivity demo_overtaken; [apply demo_calls_step; vm_compute; reflexivity|].
  transitivity (demo_publish 3 (lit "a") demo_overtaken); [apply demo_publish_step | apply demo_record_step].
Qed.
Theorem overlap_loses_snapshot : exists p,
  rtc step (started_publisher demo_empty) p
  /\ pb_stage p = Stage_idle /\ pb_waiting p = [] /\ pb_timers p = [] /\ ps_pending (pb_state p) = None
  /\ ps_last_version (pb_state p) = Some 3 /\ ps_last_text (pb_state p) = Some (render_snapshot (demo_view 3 (lit "a")))
  /\ map fm_text (find_messages (wd_messages (pb_world p))) = [render_snapshot (demo_view 2 (lit "b"))]
  /\ render_snapshot (demo_view 2 (lit "b")) <> render_snapshot (demo_view 3 (lit "a")).
Proof.
  exists demo_overlap. split; [exact demo_overlap_reached|]. split_and!; try (vm_compute; reflexivity).
  intros H. vm_compute in H. discriminate H.
Qed.
End Demo.
Lemma one_message_witness :
  (length (find_messages (wd_messages (pb_world demo_overlap))) <= 1)%nat
  /\ exists ts, ps_message_ts (pb_state demo_overlap) = Some ts /\ is_found ts (pb_world demo_overlap).
Proof.
  destruct (one_message (lit "i") 30000 true demo_empty demo_overlap) as [H1 H2].
  - split; [apply NoDup_nil_2 | vm_compute; lia].
  - exact demo_overlap_reached.
  - split; [exact H1|]. apply H2. vm_compute. eexists. reflexivity.
Defined.
