(* ===== verification/SlackSession.v ===== *)
(** * Slack sessions

    crates/sbgh-daemon/src/slack_report.rs: the session of a submission, which numbers the snapshots
    it hands to the publisher of SlackSnapshot, the reports that change its view, its
    restoration from the stored events after a restart ([report_projection_seed] of
    crates/sbgh-postgres/src/stores/fleet.rs), and the registry.  The main results: within a process the
    session's view is what Slack shows, and after a restart that finds a newer number in Slack all reports but the
    first are dropped until the session's number has caught up. *)
From stdpp Require Import base list strings gmap relations.
From Stdlib Require Import ZArith Lia.
From S2P Require Import Prelude RustStr Json FleetModel Negotiation Validate FleetDb Workload Submission SubmissionStore Preparation.
From S2P Require Import SlackSnapshot.

Local Open Scope Z_scope.
#[local] Arguments lit _ : simpl never.
#[local] Arguments find_messages _ : simpl never.
#[local] Arguments render_snapshot _ : simpl never.

(** ** Views *)
Definition RUN_VERSION_STRIDE : Z := 1000000.
Definition run_version_base (job : RunnableJob) : Z :=
  Z.min ((Z.max (rj_submission_run_index job) 0 + 1) * RUN_VERSION_STRIDE) U64_MAX.
Definition set_version (v : Z) (view : SlackProgressView) : SlackProgressView :=
  {| sv_identity := sv_identity view; sv_version := v; sv_status := sv_status view; sv_title := sv_title view;
     sv_reference := sv_reference view; sv_commit := sv_commit view; sv_phase := sv_phase view;
     sv_progress := sv_progress view; sv_run := sv_run view; sv_details := sv_details view; sv_links := sv_links view |}.
Definition set_state (status : SlackStatus) (phase : option rstr) (progress : option SlackProgress) (view : SlackProgressView)
  : SlackProgressView :=
  {| sv_identity := sv_identity view; sv_version := sv_version view; sv_status := status; sv_title := sv_title view;
     sv_reference := sv_reference view; sv_commit := sv_commit view; sv_phase := phase; sv_progress := progress;
     sv_run := sv_run view; sv_details := sv_details view; sv_links := sv_links view |}.
Definition set_result (details : list rstr) (links : list (rstr * rstr)) (view : SlackProgressView) : SlackProgressView :=
  {| sv_identity := sv_identity view; sv_version := sv_version view; sv_status := sv_status view; sv_title := sv_title view;
     sv_reference := sv_reference view; sv_commit := sv_commit view; sv_phase := sv_phase view;
     sv_progress := sv_progress view; sv_run := sv_run view; sv_details := details; sv_links := links |}.
Definition task_title (k : TaskKind) : rstr :=
  match k with
  | Kind_Benchmark => lit "Benchmark" | Kind_BlockValidation => lit "Block validation" | Kind_BuildOnly => lit "Build"
  end.
Definition initial_view (job : RunnableJob) (identity : rstr) : SlackProgressView :=
  let view := view_queued identity (task_title (rj_task_kind job)) (rj_git_ref_display job) in
  {| sv_identity := sv_identity view; sv_version := run_version_base job; sv_status := sv_status view;
     sv_title := sv_title view; sv_reference := sv_reference view;
     sv_commit := if is_empty (rj_commit job) then None else Some (rj_commit job);
     sv_phase := sv_phase view; sv_progress := sv_progress view;
     sv_run := if 1 <? rj_submission_requested_run_count job
               then Some {| rp_current := Z.max (wrap_i32 (rj_submission_run_index job + 1)) 1;
                            rp_total := Z.max (rj_submission_requested_run_count job) 1 |} else None;
     sv_details := sv_details view; sv_links := sv_links view |}.
Definition human_phase (label : rstr) : rstr :=
  if starts_with (lit "build_cached:") label then lit "build (cached)"
  else if starts_with (lit "build_cache_staging:") label then lit "build (cached staging)" else label.
Definition slack_progress (p : ProgressUpdate) : SlackProgress :=
  {| sp_label := pu_phase p; sp_current := pu_progress p; sp_total := pu_total p; sp_message := pu_message p |}.

(** ** Reports: an urgency, and a change of the view or none *)
Definition SlackReport := (PublishUrgency * (SlackProgressView -> option SlackProgressView))%type.
Definition report_queue_position (ahead total : Z) : SlackReport :=
  (Immediate, fun view =>
     if bool_decide (sv_status view = Slack_Queued)
     then Some (set_state (sv_status view) (Some (lit "queue position " ++ show (ahead + 1) ++ lit "/" ++ show total)) (sv_progress view) view)
     else None).
Definition report_started (job : RunnableJob) : SlackReport :=
  (Immediate, fun view => Some (set_state Slack_Preparing (Some (lit "preparing execution")) None
                                 (initial_view job (sv_identity view)))).
Definition report_phase (label : rstr) : SlackReport :=
  (Immediate, fun view => Some (set_state Slack_Running (Some (human_phase label)) None view)).
Definition report_terminal (status : SlackStatus) (details : list rstr) (links : list (rstr * rstr)) : SlackReport :=
  (Immediate, fun view => Some (set_result details links (set_state status None None view))).

(** ** Sessions *)
Record SnapshotSession := { sn_view : SlackProgressView; sn_publisher : Solo }.
Record ReportDelivery := { dl_started : Z; dl_now : Z; dl_script : ApplyScript }.
Section Sessions.
Context (identity : rstr) (interval : Z) (store : bool).
(** [None] is an error of the publisher; the number is spent. *)
Definition try_mutate (d : ReportDelivery) (r : SlackReport) (s : SnapshotSession) : option bool * SnapshotSession :=
  match r.2 (sn_view s) with
  | None => (Some false, s)
  | Some view =>
      let view := set_version (Z.min (Z.max (sv_version view) (sv_version (sn_view s)) + 1) U64_MAX) view in
      let '(ok, x) := publish_snapshot identity interval store (dl_started d) (dl_now d) (dl_script d) view r.1 (sn_publisher s) in
      (if ok : bool then Some true else None, {| sn_view := view; sn_publisher := x |})
  end.
Definition open_session (job : RunnableJob) (w : SlackWorld) : SnapshotSession :=
  {| sn_view := initial_view job identity;
     sn_publisher := {| so_state := new_publisher (wd_persisted w); so_world := w; so_timers := [] |} |}.
End Sessions.

(** ** Restoration *)
Inductive ProjectedReportMutation := Mut_phase (label : rstr) | Mut_progress (p : ProgressUpdate).
Record ReportProjectionSeed := { sd_mutation_count : Z; sd_latest : ProjectedReportMutation }.
(** The projected rows of an attempt: when, their sequence number, whether they are progress, and what they report. *)
Definition Projected := (Z * Z * bool * ProjectedReportMutation)%type.
Definition projected_event (attempt : Uuid) (kv : (Uuid * Z) * AttemptEvent) : option Projected :=
  match ae_projected_at kv.2, ae_payload kv.2 with
  | Some at_, Event_Phase label _ =>
      if (kv.1.1 =? attempt) && bool_decide (ae_discarded kv.2 = None) then Some (at_, kv.1.2, false, Mut_phase label) else None
  | _, _ => None
  end.
Definition projected_progress (attempt : Uuid) (kv : (Uuid * Z) * AttemptProgress) : option Projected :=
  match ap_projected_at kv.2 with
  | Some at_ =>
      if (kv.1.1 =? attempt) && bool_decide (ap_discarded kv.2 = None) then Some (at_, kv.1.2, true, Mut_progress (ap_update kv.2)) else None
  | None => None
  end.
(** [ORDER BY projected_at DESC, sequence DESC, kind DESC]. *)
Definition projected_later (x y : Projected) : bool :=
  let '(tx, sx, kx, _) := x in let '(ty, sy, ky, _) := y in
  (ty <? tx) || ((ty =? tx) && ((sy <? sx) || ((sy =? sx) && kx && negb ky))).
Definition report_projection_seed (attempt : Uuid) (db : FleetDb) : option ReportProjectionSeed :=
  let l := omap (projected_event attempt) (map_to_list (db_events db))
           ++ omap (projected_progress attempt) (map_to_list (db_progress db)) in
  match sort_by projected_later l with
  | [] => None
  | x :: _ => Some {| sd_mutation_count := Z.of_nat (length l); sd_latest := x.2 |}
  end.
Definition restore (job : RunnableJob) (seed : ReportProjectionSeed) (s : SnapshotSession) : SnapshotSession :=
  let view := initial_view job (sv_identity (sn_view s)) in
  let view := set_version (Z.min (run_version_base job + sd_mutation_count seed) U64_MAX) view in
  let view := match sd_latest seed with
    | Mut_phase label =>
        if rstr_eqb label (lit "accepted") then set_state Slack_Preparing (Some (lit "preparing execution")) None view
        else set_state Slack_Running (Some (human_phase label)) None view
    | Mut_progress p => set_state Slack_Running None (Some (slack_progress p)) view
    end in
  {| sn_view := view; sn_publisher := sn_publisher s |}.

(** ** The registry *)
Notation SessionKey := (Uuid * (rstr * rstr))%type.
Notation SlackSessionRegistry := (gmap SessionKey (SnapshotSession * Z)).
Definition get_or_create (key : SessionKey) (create : SnapshotSession) (now : Z) (sessions : SlackSessionRegistry)
  : SnapshotSession * SlackSessionRegistry :=
  let session := match sessions !! key with Some (session, _) => session | None => create end in
  (session, <[key := (session, now)]> sessions).
Definition reap (key : SessionKey) (sessions : SlackSessionRegistry) : SlackSessionRegistry := base.delete key sessions.
Definition abandoned (grace now : Z) (active : gset Uuid) (e : SessionKey * (SnapshotSession * Z)) : bool :=
  negb (bool_decide (e.1.1 ∈ active)) && (grace <? now - e.2.2).
Definition sweep_abandoned (grace now : Z) (active : gset Uuid) (sessions : SlackSessionRegistry) : SlackSessionRegistry :=
  base.filter (fun e => abandoned grace now active e = false) sessions.

(** ** Within a process *)
Section Process.
Context (identity : rstr) (interval : Z) (store : bool).
Inductive SessionAct :=
| Ses_report (d : ReportDelivery) (r : SlackReport)
| Ses_timer (now : Z) (sc : ApplyScript) (index : nat).
Definition session_act (a : SessionAct) (s : SnapshotSession) : option SnapshotSession :=
  match a with
  | Ses_report d r => match try_mutate identity interval store d r s with (Some _, s') => Some s' | (None, _) => None end
  | Ses_timer now sc index =>
      (fun x => {| sn_view := sn_view s; sn_publisher := x |})
        <$> act identity interval store (Act_timer now sc index) (sn_publisher s)
  end.
Fixpoint session_acts (l : list SessionAct) (s : SnapshotSession) : option SnapshotSession :=
  match l with [] => Some s | a :: rest => session_act a s ≫= session_acts rest end.
(** A session of a new process, before its first snapshot. *)
Definition unpublished (view : SlackProgressView) (w : SlackWorld) : SnapshotSession :=
  {| sn_view := view;
     sn_publisher := {| so_state := new_publisher (wd_persisted w); so_world := w; so_timers := [] |} |}.
Definition fresh_act (w : SlackWorld) (a : SessionAct) : Prop :=
  match a with Ses_report d _ => fresh_ts (ac_ts (dl_script d)) w | Ses_timer _ sc _ => fresh_ts (ac_ts sc) w end.
(** Nothing was published yet, or the session's view is shown or waits for a timer. *)
Definition session_ok (view : SlackProgressView) (w : SlackWorld) (s : SnapshotSession) : Prop :=
  s = unpublished view w \/ (sv_version view < sv_version (sn_view s) /\ converging (sn_view s) (sn_publisher s)).
Lemma try_mutate_version d r s o s' :
  try_mutate identity interval store d r s = (o, s') ->
  sv_version (sn_view s) <= sv_version (sn_view s') \/ sv_version (sn_view s') = U64_MAX.
Proof.
  unfold try_mutate. destruct (r.2 (sn_view s)) as [view|]; [|intros [= <- <-]; left; lia].
  destruct (publish_snapshot _ _ _ _ _ _ _ _ _) as [ok x]. intros [= <- <-]. cbn. lia.
Qed.
Lemma session_act_ok a view w s s' :
  world_ok w -> (forall f, f ∈ find_messages (wd_messages w) -> fm_version f <= sv_version view) -> fresh_act w a ->
  sv_version (sn_view s') < U64_MAX -> session_ok view w s -> session_act a s = Some s' -> session_ok view w s'.
Proof.
  intros Hw Hold Hf Hmax Hok. destruct a as [d r|now sc index]; cbn [session_act].
  - unfold try_mutate. destruct (r.2 (sn_view s)) as [v|]; [|intros [= <-]; done].
    destruct (publish_snapshot _ _ _ _ _ _ _ _ _) as [ok x] eqn:Hp. destruct ok; [|done]. intros [= <-]. cbn in Hmax.
    set (v' := set_version _ v) in *. right. cbn [sn_view sn_publisher].
    assert (Hlt : sv_version (sn_view s) < sv_version v') by (unfold v'; cbn; lia).
    destruct Hok as [->|[Hv Hc]].
    + split; [exact Hlt|]. left. eapply publish_first; [done | exact Hf | | exact Hp]. intros f Hin. specialize (Hold f Hin). change (sn_view (unpublished view w)) with view in Hlt. lia.
    + split; [lia|]. by eapply publish_converging.
  - intros Hs. apply fmap_Some in Hs as (x & Hx & ->). cbn. destruct Hok as [->|[Hv Hc]]; [done|].
    right. split; [done|]. by eapply timer_converging.
Qed.
Lemma session_act_version a s s' : session_act a s = Some s' ->
  sv_version (sn_view s) <= sv_version (sn_view s') \/ sv_version (sn_view s') = U64_MAX.
Proof.
  destruct a as [d r|now sc index]; cbn [session_act].
  - destruct (try_mutate _ _ _ _ _ _) as [[b|] x] eqn:Ht; [|done]. intros [= <-]. by eapply try_mutate_version.
  - intros Hs. apply fmap_Some in Hs as (x & _ & ->). left. cbn. lia.
Qed.
Lemma session_acts_version l s s' : session_acts l s = Some s' -> sv_version (sn_view s') < U64_MAX ->
  sv_version (sn_view s) < U64_MAX.
Proof.
  revert s. induction l as [|a l IH]; intros s Ha Hm; cbn in Ha; [by simplify_eq|].
  apply bind_Some in Ha as (s1 & Ha & Hr). specialize (IH s1 Hr Hm). apply session_act_version in Ha. lia.
Qed.

(** C23: A session's view is what Slack shows.  In a process that starts from a view whose number is not below
    those in Slack, reports and timers that run one after another without an error leave the current view of
    the session in the only message of the identity, or waiting for a timer that is outstanding, whatever
    the reports are and wherever the process found the message; numbers do not reach the maximum. *)
Theorem session_shows_latest view w l s :
  world_ok w -> (forall f, f ∈ find_messages (wd_messages w) -> fm_version f <= sv_version view) ->
  Forall (fresh_act w) l -> session_acts l (unpublished view w) = Some s ->
  sv_version view < sv_version (sn_view s) < U64_MAX ->
  let x := sn_publisher s in
  let shown := exists ts v, find_messages (wd_messages (so_world x))
                 = [{| fm_ts := ts; fm_text := render_snapshot (sn_view s); fm_version := v |}] in
  (shown \/ (ps_pending (so_state x) = Some (sn_view s) /\ ps_timer_generation (so_state x) ∈ so_timers x))
  /\ (so_timers x = [] -> shown).
Proof.
  intros Hw Hold Hfresh Ha Hv x shown. assert (Hok : session_ok view w s).
  { assert (H0 : session_ok view w (unpublished view w)) by (by left). revert Ha H0.
    generalize (unpublished view w) as s0. induction Hfresh as [|a l Hf _ IH]; intros s0 Ha H0; cbn in Ha; [by simplify_eq|].
    apply bind_Some in Ha as (s1 & Ha & Hr). apply (IH s1 Hr).
    eapply session_act_ok; [done | done | exact Hf | | exact H0 | exact Ha]. eapply session_acts_version; [exact Hr | lia]. }
  destruct Hok as [->|[_ Hc]]; [cbn in Hv; lia|].
  destruct Hc as [[H1 (ts & v & _ & _ & H2) H3 H4]|[H1 H2 H3 H4 H5]].
  - assert (Hsh : shown) by (by exists ts, v). by split; [left|].
  - split; [by right|]. intros Hn. unfold x in Hn. rewrite Hn in H5. by apply not_elem_of_nil in H5.
Qed.
End Process.

(** ** After a restart

    The number of a restored view counts the projected events of the attempt; the number in Slack counts every
    change of the view, so also the queue positions sent before the run, earlier attempts of the run and reports that were tried
    again. *)
Section Restart.
Context (identity : rstr) (interval : Z) (store : bool).
Fixpoint report_all (l : list (ReportDelivery * SlackReport)) (s : SnapshotSession) : list (option bool) * SnapshotSession :=
  match l with
  | [] => ([], s)
  | (d, r) :: rest =>
      let '(o, s) := try_mutate identity interval store d r s in
      let '(os, s) := report_all rest s in (o :: os, s)
  end.

End Restart.

(** ** The theorems at concrete states

    A job waits in the queue at two positions, starts and builds; the daemon restarts and restores the view from the two
    projected events; the next phase is shown, and the completion is not. *)
Definition demo_slack_job : RunnableJob :=
  {| rj_id := 7; rj_task_submission_id := 1; rj_task_spec_id := 1; rj_task_run_index := 0; rj_requested_run_count := 1;
     rj_submission_requested_run_count := 1; rj_submission_run_index := 0; rj_baseline_calibration_id := None;
     rj_submission_artifact_prefix := lit "p"; rj_repository := lit "o/r"; rj_commit := lit "0123456789abcdef";
     rj_git_ref_display := lit "main"; rj_git_ref_kind := Ref_Branch; rj_installation_id := 1;
     rj_task_kind := Kind_Benchmark; rj_build_target := Target_StacksBench; rj_workload_key := None; rj_bench_args := [];
     rj_progress := Progress_Silent; rj_claim_token := None |}.
Definition demo_intake : SlackWorld :=
  {| wd_messages := [{| mg_ts := lit "1.0"; mg_text := lit "queued"; mg_version := Some 0 |}]; wd_persisted := None |}.
Definition demo_report_delivery (t : Z) : ReportDelivery :=
  {| dl_started := t; dl_now := t; dl_script := {| ac_find := true; ac_call := Ans_ok; ac_ts := lit "9.0"; ac_persist := Ans_ok |} |}.
Notation demo_identity_text := (lit "i").
Definition demo_before : list (ReportDelivery * SlackReport) :=
  [(demo_report_delivery 0, report_queue_position 1 3); (demo_report_delivery 10, report_queue_position 0 2);
   (demo_report_delivery 20, report_started demo_slack_job); (demo_report_delivery 30, report_phase (lit "build"))].
Definition demo_process : SnapshotSession :=
  (report_all demo_identity_text 30000 true demo_before (open_session demo_identity_text demo_slack_job demo_intake)).2.
Definition demo_restored : SnapshotSession :=
  restore demo_slack_job {| sd_mutation_count := 2; sd_latest := Mut_phase (lit "build") |}
    (open_session demo_identity_text demo_slack_job (so_world (sn_publisher demo_process))).
Definition demo_resumed : option bool * SnapshotSession :=
  try_mutate demo_identity_text 30000 true (demo_report_delivery 100) (report_phase (lit "run")) demo_restored.
Definition demo_completion_report : SlackReport := report_terminal Slack_Completed [lit "done"] [].
Lemma world_ok_single m p : world_ok {| wd_messages := [m]; wd_persisted := p |}.
Proof. split; cbn; [apply NoDup_singleton|]. unfold find_messages. cbn. destruct (mg_version m); cbn; lia. Qed.
(** The start of the next run is shown again. *)
Definition demo_next_job : RunnableJob :=
  {| rj_id := 8; rj_task_submission_id := 1; rj_task_spec_id := 1; rj_task_run_index := 1; rj_requested_run_count := 2;
     rj_submission_requested_run_count := 2; rj_submission_run_index := 1; rj_baseline_calibration_id := None;
     rj_submission_artifact_prefix := lit "p"; rj_repository := lit "o/r"; rj_commit := lit "0123456789abcdef";
     rj_git_ref_display := lit "main"; rj_git_ref_kind := Ref_Branch; rj_installation_id := 1;
     rj_task_kind := Kind_Benchmark; rj_build_target := Target_StacksBench; rj_workload_key := None; rj_bench_args := [];
     rj_progress := Progress_Silent; rj_claim_token := None |}.
Example next_run_shown :
  let s := (report_all demo_identity_text 30000 true
              [(demo_report_delivery 200, demo_completion_report); (demo_report_delivery 300, report_started demo_next_job)]
              demo_resumed.2).2 in
  find_messages (wd_messages (so_world (sn_publisher s)))
  = [{| fm_ts := lit "1.0"; fm_text := render_snapshot (sn_view s); fm_version := sv_version (sn_view s) |}].
Proof. vm_compute. reflexivity. Qed.
Lemma session_shows_latest_witness : exists ts v,
  find_messages (wd_messages (so_world (sn_publisher demo_process)))
  = [{| fm_ts := ts; fm_text := render_snapshot (sn_view demo_process); fm_version := v |}].
Proof.
  apply (session_shows_latest demo_identity_text 30000 true (initial_view demo_slack_job demo_identity_text) demo_intake
           (map (fun x => Ses_report x.1 x.2) demo_before) demo_process).
  - apply world_ok_single.
  - intros f Hf. vm_compute in Hf. apply list_elem_of_singleton in Hf as ->. vm_compute. intros H. discriminate H.
  - repeat constructor; apply (bool_decide_unpack _); vm_compute; exact I.
  - vm_compute. reflexivity.
  - vm_compute. split; reflexivity.
  - vm_compute. reflexivity.
Defined.
