(* ===== verification/BinaryCache.v ===== *)
(** * The binary cache

    crates/sbgh-driver/src/cache.rs, the fingerprint that keys a build and the
    environment a pin is scoped to, and crates/sbgh-worker/src/binary_cache.rs, the store
    on disk: lookup, publication, pinning and eviction.  The root directory is a map from
    names to entry directories; the outcome of every call to the file system is an
    argument ([Io]), so that each error path can be run.  The concurrent use of a store is the
    step relation [cache_step]: the operations under the mutex are single steps, and a lookup
    reads outside of it.  The main results are that a lookup serves only bytes that
    were published for its own fingerprint, that eviction removes the shortest least-recently-used prefix that
    makes the store fit, and that publishing makes the entry available.  SHA-256 and
    the scalars of JSON are those of [DigestEnv]; the order in which a directory is listed is a
    parameter. *)
From stdpp Require Import base list strings gmap relations.
From Stdlib Require Import ZArith Lia Sorted.
From S2P Require Import Prelude RustStr Json JsonText FleetModel FleetDb.

Local Open Scope Z_scope.
#[local] Arguments lit _ : simpl never.

(** ** Fingerprints *)
Inductive BuildArtifact := Artifact_StacksBench | Artifact_StacksInspect.
#[global] Instance BuildArtifact_eq_dec : EqDecision BuildArtifact.
Proof. solve_decision. Defined.
Definition executable_name (a : BuildArtifact) : rstr :=
  match a with
  | Artifact_StacksBench => lit "stacks-bench"
  | Artifact_StacksInspect => lit "stacks-inspect"
  end.
(** The serde names of the variants. *)
Definition artifact_value (a : BuildArtifact) : Value :=
  match a with
  | Artifact_StacksBench => jstr (lit "stacks_bench")
  | Artifact_StacksInspect => jstr (lit "stacks_inspect")
  end.
Record BuildFingerprint := {
  fp_artifact : BuildArtifact;
  fp_repository : option rstr;
  fp_commit : rstr;
  fp_toolchain : rstr;
  fp_profile : rstr;
  fp_features : rstr;
  fp_rustflags : rstr;
  fp_target_triple : rstr;
  fp_recipe_version : Z;
  fp_image_id : rstr;
  fp_protocol_version : rstr
}.
Record CacheEnvironment := {
  ce_artifact : BuildArtifact;
  ce_profile : rstr;
  ce_features : rstr;
  ce_rustflags : rstr;
  ce_target_triple : rstr;
  ce_recipe_version : Z;
  ce_image_id : rstr;
  ce_protocol_version : rstr
}.
(** [LegacyBenchmarkFingerprint], in the order of its fields. *)
Definition legacy_value (fp : BuildFingerprint) : Value := jobj
  [("commit", jstr (fp_commit fp)); ("toolchain", jstr (fp_toolchain fp)); ("profile", jstr (fp_profile fp));
   ("features", jstr (fp_features fp)); ("rustflags", jstr (fp_rustflags fp));
   ("target_triple", jstr (fp_target_triple fp)); ("recipe_version", jint (fp_recipe_version fp));
   ("image_id", jstr (fp_image_id fp)); ("protocol_version", jstr (fp_protocol_version fp))].
(** [repository] is skipped when it is absent. *)
Definition fingerprint_value (fp : BuildFingerprint) : Value := jobj
  ([("artifact", artifact_value (fp_artifact fp))]
   ++ match fp_repository fp with Some r => [("repository", jstr r)] | None => [] end
   ++ [("commit", jstr (fp_commit fp)); ("toolchain", jstr (fp_toolchain fp)); ("profile", jstr (fp_profile fp));
       ("features", jstr (fp_features fp)); ("rustflags", jstr (fp_rustflags fp));
       ("target_triple", jstr (fp_target_triple fp)); ("recipe_version", jint (fp_recipe_version fp));
       ("image_id", jstr (fp_image_id fp)); ("protocol_version", jstr (fp_protocol_version fp))]).
Definition key_value (fp : BuildFingerprint) : Value :=
  match fp_artifact fp with
  | Artifact_StacksBench => legacy_value fp
  | Artifact_StacksInspect => fingerprint_value fp
  end.
Definition environment (fp : BuildFingerprint) : CacheEnvironment :=
  {| ce_artifact := fp_artifact fp; ce_profile := fp_profile fp; ce_features := fp_features fp;
     ce_rustflags := fp_rustflags fp; ce_target_triple := fp_target_triple fp;
     ce_recipe_version := fp_recipe_version fp; ce_image_id := fp_image_id fp;
     ce_protocol_version := fp_protocol_version fp |}.
Definition env_matches (e : CacheEnvironment) (fp : BuildFingerprint) : bool :=
  bool_decide (ce_artifact e = fp_artifact fp)
  && rstr_eqb (ce_profile e) (fp_profile fp)
  && rstr_eqb (ce_features e) (fp_features fp)
  && rstr_eqb (ce_rustflags e) (fp_rustflags fp)
  && rstr_eqb (ce_target_triple e) (fp_target_triple fp)
  && (ce_recipe_version e =? fp_recipe_version fp)
  && rstr_eqb (ce_image_id e) (fp_image_id fp)
  && rstr_eqb (ce_protocol_version e) (fp_protocol_version fp).
(** [CacheEnvironment::fingerprint]. *)
Definition env_fingerprint (e : CacheEnvironment) (commit toolchain : rstr) : BuildFingerprint :=
  {| fp_artifact := ce_artifact e; fp_repository := None; fp_commit := commit; fp_toolchain := toolchain;
     fp_profile := ce_profile e; fp_features := ce_features e; fp_rustflags := ce_rustflags e;
     fp_target_triple := ce_target_triple e; fp_recipe_version := ce_recipe_version e;
     fp_image_id := ce_image_id e; fp_protocol_version := ce_protocol_version e |}.

(** ** The store on disk *)
Record CacheMeta := {
  md_fingerprint : BuildFingerprint;
  md_digest : rstr;
  md_sha256 : rstr;
  md_size_bytes : Z;
  md_last_used : Z;
  md_created_at : Z;
  md_pinned : bool
}.
Definition with_last_used (now : Z) (m : CacheMeta) : CacheMeta :=
  {| md_fingerprint := md_fingerprint m; md_digest := md_digest m; md_sha256 := md_sha256 m;
     md_size_bytes := md_size_bytes m; md_last_used := now; md_created_at := md_created_at m;
     md_pinned := md_pinned m |}.
Definition with_pinned (pinned : bool) (m : CacheMeta) : CacheMeta :=
  {| md_fingerprint := md_fingerprint m; md_digest := md_digest m; md_sha256 := md_sha256 m;
     md_size_bytes := md_size_bytes m; md_last_used := md_last_used m; md_created_at := md_created_at m;
     md_pinned := pinned |}.
(** An entry directory: the binary, if it is a file, and what [read_meta] makes of the
    sidecar. *)
Record EntryDir := { ed_binary : option (list Z); ed_meta : option CacheMeta }.
(** The directories under the root, by name. *)
Notation Root := (gmap rstr EntryDir).
Definition TMP_PREFIX : rstr := lit ".staging-".
Definition is_staging (name : rstr) : bool := starts_with TMP_PREFIX name.
Record CachedBinary := {
  cb_path : rstr;
  cb_digest : rstr;
  cb_sha256 : rstr;
  cb_size_bytes : Z;
  cb_last_used : Z;
  cb_pinned : bool
}.

(** What the file system answers, by directory name.  A write that fails may have torn the
    file, a removal that fails may have removed a part, a copy that fails may have left a
    part. *)
Inductive WriteOutcome := Written | Write_failed (torn : bool).
Inductive RemoveOutcome := Removed | Remove_failed (keeps_binary keeps_meta : bool).
Inductive CopyOutcome := Copied | Copy_failed (left_over : option (list Z)).
Record Io := {
  io_lists : rstr -> bool;
  io_hash : rstr -> bool;
  io_create_root : bool;
  io_create : rstr -> bool;
  io_copy : rstr -> CopyOutcome;
  io_write : rstr -> WriteOutcome;
  io_remove : rstr -> RemoveOutcome;
  io_rename : rstr -> bool
}.
(** Nothing fails. *)
Definition io_ok : Io :=
  {| io_lists := fun _ => true; io_hash := fun _ => true; io_create_root := true; io_create := fun _ => true;
     io_copy := fun _ => Copied; io_write := fun _ => Written; io_remove := fun _ => Removed;
     io_rename := fun _ => true |}.
Definition keep_if {A} (b : bool) (o : option A) : option A := if b then o else None.
Definition write_meta (io : Io) (name : rstr) (m : CacheMeta) (r : Root) : bool * Root :=
  match r !! name with
  | None => (false, r)
  | Some e =>
      match io_write io name with
      | Written => (true, <[name := {| ed_binary := ed_binary e; ed_meta := Some m |}]> r)
      | Write_failed torn =>
          (false, <[name := {| ed_binary := ed_binary e; ed_meta := keep_if (negb torn) (ed_meta e) |}]> r)
      end
  end.
Definition remove_dir_all (io : Io) (name : rstr) (r : Root) : bool * Root :=
  match r !! name with
  | None => (false, r)
  | Some e =>
      match io_remove io name with
      | Removed => (true, delete name r)
      | Remove_failed kb km =>
          (false, <[name := {| ed_binary := keep_if kb (ed_binary e); ed_meta := keep_if km (ed_meta e) |}]> r)
      end
  end.
Definition create_dir_all (io : Io) (name : rstr) (r : Root) : bool * Root :=
  match r !! name with
  | Some _ => (true, r)
  | None => if io_create io name then (true, <[name := {| ed_binary := None; ed_meta := None |}]> r)
            else (false, r)
  end.
Definition copy_binary (io : Io) (name : rstr) (bytes : list Z) (r : Root) : bool * Root :=
  match r !! name with
  | None => (false, r)
  | Some e =>
      match io_copy io name with
      | Copied => (true, <[name := {| ed_binary := Some bytes; ed_meta := ed_meta e |}]> r)
      | Copy_failed left_over => (false, <[name := {| ed_binary := left_over; ed_meta := ed_meta e |}]> r)
      end
  end.
(** [rename] of a directory: it fails when the target is not empty. *)
Definition rename (io : Io) (from to : rstr) (r : Root) : bool * Root :=
  match r !! from with
  | Some e =>
      if match r !! to with None | Some {| ed_binary := None; ed_meta := None |} => io_rename io to | _ => false end
      then (true, <[to := e]> (delete from r)) else (false, r)
  | None => (false, r)
  end.
(** Release builds wrap. *)
Definition wrapping_add_u64 (a b : Z) : Z := (a + b) mod 2 ^ 64.
Definition wrapping_sub_u64 (a b : Z) : Z := (a - b) mod 2 ^ 64.

(** The listing of a directory, in an order of its own. *)
Class Listing := {
  read_dir : Root -> list (rstr * EntryDir);
  read_dir_perm : forall r, read_dir r ≡ₚ map_to_list r
}.

Section Store.
Context `{DigestEnv, Listing}.

Definition digest (fp : BuildFingerprint) : rstr := sha256_hex (write_compact (key_value fp)).

(** ** Reading *)
Definition scan_entry (io : Io) (ne : rstr * EntryDir) : option CacheMeta :=
  if io_lists io ne.1 && negb (is_staging ne.1) then ed_meta ne.2 else None.
Definition scan_entries (io : Io) (r : Root) : list CacheMeta := omap (scan_entry io) (read_dir r).
(** [sha256_file] of an entry's binary. *)
Definition sha256_entry (io : Io) (name : rstr) (r : Root) : option rstr :=
  match r !! name with
  | Some {| ed_binary := Some bytes |} => if io_hash io name then Some (sha256_hex bytes) else None
  | _ => None
  end.
(** The four parts of [get]: the file is there, its metadata is read, its bytes are
    hashed; then, under the mutex, the metadata that was read is written back. *)
Definition get_found (fp : BuildFingerprint) (r : Root) : bool :=
  match r !! digest fp with Some {| ed_binary := Some _ |} => true | _ => false end.
Definition get_read (fp : BuildFingerprint) (r : Root) : option CacheMeta := r !! digest fp ≫= ed_meta.
Definition get_verified (io : Io) (fp : BuildFingerprint) (m : CacheMeta) (r : Root) : bool :=
  bool_decide (sha256_entry io (digest fp) r = Some (md_sha256 m)).
Definition cached_binary (fp : BuildFingerprint) (m : CacheMeta) : CachedBinary :=
  {| cb_path := digest fp; cb_digest := md_digest m; cb_sha256 := md_sha256 m; cb_size_bytes := md_size_bytes m;
     cb_last_used := md_last_used m; cb_pinned := md_pinned m |}.
Definition get_finish (io : Io) (fp : BuildFingerprint) (now : Z) (m : CacheMeta) (r : Root) : CachedBinary * Root :=
  let m := with_last_used now m in
  (cached_binary fp m, (write_meta io (digest fp) m r).2).
Definition get (io : Io) (fp : BuildFingerprint) (now : Z) (r : Root) : option CachedBinary * Root :=
  if get_found fp r then
    match get_read fp r with
    | None => (None, r)
    | Some m =>
        if get_verified io fp m r
        then let '(hit, r) := get_finish io fp now m r in (Some hit, r)
        else (None, r)
    end
  else (None, r).

(** ** Eviction *)
Definition total_bytes (es : list CacheMeta) : Z :=
  foldl (fun total e => wrapping_add_u64 total (md_size_bytes e)) 0 es.
Definition older (a b : CacheMeta) : bool := md_last_used a <? md_last_used b.
Fixpoint evict_loop (io : Io) (max_bytes : Z) (protected : list rstr) (total : Z) (es : list CacheMeta) (r : Root)
  : Root :=
  match es with
  | [] => r
  | e :: rest =>
      if total <=? max_bytes then r
      else if md_pinned e || bool_decide (md_digest e ∈ protected)
      then evict_loop io max_bytes protected total rest r
      else let '(removed, r) := remove_dir_all io (md_digest e) r in
           evict_loop io max_bytes protected
             (if removed : bool then wrapping_sub_u64 total (md_size_bytes e) else total) rest r
  end.
Definition evict_locked (io : Io) (max_bytes : Z) (protected : list rstr) (r : Root) : Root :=
  let entries := scan_entries io r in
  let total := total_bytes entries in
  if total <=? max_bytes then r
  else evict_loop io max_bytes protected total (sort_by older entries) r.
Definition evict_to_budget (io : Io) (max_bytes : Z) (r : Root) : Root := evict_locked io max_bytes [] r.

(** ** Publication

    [src] is the file's content, when it can be read.  The source opens the file once to
    hash it and again to measure and to copy it; a file that changes in between is not
    modelled. *)
Inductive IoError := Io_error.
Definition cache_publish (io : Io) (max_bytes : Z) (fp : BuildFingerprint) (src : option (list Z)) (now : Z) (pinned : bool)
    (r : Root) : result rstr IoError * Root :=
  match src with
  | None => (Err Io_error, r)
  | Some bytes =>
      let sha := sha256_hex bytes in
      let meta := {| md_fingerprint := fp; md_digest := digest fp; md_sha256 := sha;
                     md_size_bytes := Z.of_nat (length bytes); md_last_used := now; md_created_at := now;
                     md_pinned := pinned |} in
      if io_create_root io then
        let staging := TMP_PREFIX ++ digest fp in
        let r := (remove_dir_all io staging r).2 in
        let '(ok, r) := create_dir_all io staging r in
        if negb ok then (Err Io_error, r) else
        let '(ok, r) := copy_binary io staging bytes r in
        if negb ok then (Err Io_error, r) else
        let '(ok, r) := write_meta io staging meta r in
        if negb ok then (Err Io_error, r) else
        let r := (remove_dir_all io (digest fp) r).2 in
        let '(ok, r) := rename io staging (digest fp) r in
        if negb ok then (Err Io_error, r) else
        (Ok sha, evict_locked io max_bytes [digest fp] r)
      else (Err Io_error, r)
  end.

(** ** Pinning *)
Definition wanted (commits : gset rstr) (env : CacheEnvironment) (fp : BuildFingerprint) : bool :=
  bool_decide (fp_commit fp ∈ commits) && env_matches env fp.
Definition pin_entry (io : Io) (commits : gset rstr) (env : CacheEnvironment) (r : Root) (m : CacheMeta) : Root :=
  let want := wanted commits env (md_fingerprint m) in
  if Bool.eqb (md_pinned m) want then r else (write_meta io (md_digest m) (with_pinned want m) r).2.
Definition set_pinned_by_commit (io : Io) (commits : gset rstr) (env : CacheEnvironment) (r : Root) : Root :=
  foldl (pin_entry io commits env) r (scan_entries io r).
Definition has_entry_for (io : Io) (commit : rstr) (env : CacheEnvironment) (r : Root) : bool :=
  existsb (fun m => rstr_eqb (fp_commit (md_fingerprint m)) commit && env_matches env (md_fingerprint m))
    (scan_entries io r).
End Store.

(** ** What the key identifies

    Two fingerprints are of the same build when they agree on everything but the repository,
    which counts for artifacts other than the benchmark only. *)
Definition same_build (a b : BuildFingerprint) : Prop :=
  environment a = environment b /\ fp_commit a = fp_commit b /\ fp_toolchain a = fp_toolchain b
  /\ (fp_artifact a <> Artifact_StacksBench -> fp_repository a = fp_repository b).
(** Two texts with one SHA-256 digest.  For a fixed hash with digests of bounded length
    such texts exist; what is proved up to a collision says something because it is proved
    for every hash, injective ones included. *)
Definition sha256_collision `{DigestEnv} : Prop := exists x y, x <> y /\ sha256_hex x = sha256_hex y.

Lemma key_value_same a b : key_value a = key_value b -> same_build a b.
Proof.
  unfold key_value, same_build, environment.
  destruct (fp_artifact a) eqn:Ea, (fp_artifact b) eqn:Eb; intros Hk.
  - by injection Hk as -> -> -> -> -> -> -> -> ->.
  - vm_compute in Hk. discriminate Hk.
  - vm_compute in Hk. discriminate Hk.
  - unfold fingerprint_value in Hk. rewrite Ea, Eb in Hk.
    destruct (fp_repository a), (fp_repository b); try discriminate Hk.
    + by injection Hk as -> -> -> -> -> -> -> -> -> ->.
    + by injection Hk as -> -> -> -> -> -> -> -> ->.
Qed.
Lemma key_value_exact fp : exact (key_value fp) = true.
Proof. destruct fp as [[] [] ? ? ? ? ? ? ? ? ?]; reflexivity. Qed.
Lemma digest_same_build `{ScalarText} a b : digest a = digest b -> same_build a b \/ sha256_collision.
Proof.
  intros Hd. destruct (compact_digest (key_value a) (key_value b)) as [Hk|[Hne Heq]];
    [apply key_value_exact .. | done | |].
  - left. by apply key_value_same.
  - right. by eexists _, _.
Qed.

(** ** Eviction is least recently used, and no more than needed *)
Definition sum_bytes (es : list CacheMeta) : Z := foldr (fun e s => md_size_bytes e + s) 0 es.
Definition evictable (protected : list rstr) (e : CacheMeta) : bool :=
  negb (md_pinned e) && negb (bool_decide (md_digest e ∈ protected)).
Definition drop_all (es : list CacheMeta) (r : Root) : Root := foldl (fun r e => delete (md_digest e) r) r es.
Definition no_later (a b : CacheMeta) : Prop := md_last_used a <= md_last_used b.
(** Every entry is stored under the digest its metadata records. *)
Definition named (r : Root) : Prop :=
  forall name e m, r !! name = Some e -> is_staging name = false -> ed_meta e = Some m -> md_digest m = name.
Definition sizes_ok (es : list CacheMeta) : Prop := Forall (fun e => 0 <= md_size_bytes e) es.

Lemma sum_bytes_app a b : sum_bytes (a ++ b) = sum_bytes a + sum_bytes b.
Proof. induction a as [|e a IH]; simpl; lia. Qed.
Lemma sum_bytes_perm a b : a ≡ₚ b -> sum_bytes a = sum_bytes b.
Proof. induction 1; simpl; lia. Qed.
Lemma sum_bytes_nonneg es : sizes_ok es -> 0 <= sum_bytes es.
Proof. induction 1; simpl; lia. Qed.
Lemma total_bytes_sum es : sizes_ok es -> sum_bytes es <= U64_MAX -> total_bytes es = sum_bytes es.
Proof.
  unfold total_bytes. intros Hs Hle.
  assert (Hg : forall a, 0 <= a -> a + sum_bytes es <= U64_MAX ->
    foldl (fun total e => wrapping_add_u64 total (md_size_bytes e)) a es = a + sum_bytes es).
  { clear Hle. induction Hs as [|e es He Hs IH]; intros a Ha Hle; simpl in *; [lia|].
    pose proof (sum_bytes_nonneg _ Hs). unfold wrapping_add_u64. unfold_bounds.
    rewrite Z.mod_small by lia. rewrite IH; lia. }
  rewrite Hg; lia.
Qed.
Lemma insert_by_older e es :
  StronglySorted no_later es -> StronglySorted no_later (insert_by older e es).
Proof.
  induction 1 as [|y es Hs IH Hy]; simpl; [repeat constructor|].
  unfold older at 1. destruct (Z.ltb_spec (md_last_used y) (md_last_used e)).
  - constructor; [done|]. rewrite insert_by_perm. constructor; [unfold no_later; lia | done].
  - constructor; [by constructor|]. constructor; [unfold no_later; lia|].
    eapply Forall_impl; [exact Hy|]. unfold no_later. lia.
Qed.
Lemma sort_by_older es : StronglySorted no_later (sort_by older es).
Proof. induction es as [|e es IH]; simpl; [constructor | by apply insert_by_older]. Qed.
Lemma filter_sorted {A} (R : A -> A -> Prop) (P : A -> Prop) `{!forall x, Decision (P x)} l :
  StronglySorted R l -> StronglySorted R (filter P l).
Proof.
  induction 1 as [|x l Hs IH Hx]; [constructor|]. rewrite filter_cons. case_decide; [|done].
  constructor; [done|]. apply Forall_forall. intros y [_ Hy]%list_elem_of_filter.
  rewrite Forall_forall in Hx. by apply Hx.
Qed.

Lemma lookup_drop_all es : forall r name,
  drop_all es r !! name = if bool_decide (name ∈ md_digest <$> es) then None else r !! name.
Proof.
  induction es as [|e es IH]; intros r name; [done|]. cbn [drop_all foldl fmap list_fmap].
  fold (drop_all es (delete (md_digest e) r)). rewrite IH. destruct (decide (name = md_digest e)) as [->|Hne].
  - rewrite lookup_delete_eq, (bool_decide_eq_true_2 (_ ∈ _ :: _)) by set_solver. by case_bool_decide.
  - rewrite lookup_delete_ne by done. erewrite bool_decide_ext; [done|]. set_solver.
Qed.

Section Eviction.
Context `{Listing}.

Lemma scan_perm r : scan_entries io_ok r ≡ₚ omap (scan_entry io_ok) (map_to_list r).
Proof. unfold scan_entries. by rewrite read_dir_perm. Qed.
Lemma scan_spec r m :
  m ∈ scan_entries io_ok r
  <-> exists name e, r !! name = Some e /\ is_staging name = false /\ ed_meta e = Some m.
Proof.
  rewrite scan_perm, list_elem_of_omap. unfold scan_entry. simpl. split.
  - intros ([name e] & Hin & Hm). apply elem_of_map_to_list in Hin. simpl in Hm.
    destruct (is_staging name) eqn:Hst; [done|]. by exists name, e.
  - intros (name & e & Hl & Hst & Hm). exists (name, e). simpl. rewrite Hst.
    split; [by apply elem_of_map_to_list | done].
Qed.
Lemma scan_delete r name e m :
  r !! name = Some e -> is_staging name = false -> ed_meta e = Some m ->
  scan_entries io_ok r ≡ₚ m :: scan_entries io_ok (delete name r).
Proof.
  intros Hl Hst Hm. rewrite !scan_perm, <- (map_to_list_delete _ _ _ Hl). simpl.
  unfold scan_entry at 1. simpl. by rewrite Hst, Hm.
Qed.
Lemma named_delete r name : named r -> named (delete name r).
Proof. intros Hn n e m [_ Hl]%lookup_delete_Some. by apply Hn. Qed.
(** Each scanned entry is found under its own digest. *)
Lemma scan_found r m : named r -> m ∈ scan_entries io_ok r ->
  is_staging (md_digest m) = false /\ exists e, r !! md_digest m = Some e /\ ed_meta e = Some m.
Proof.
  intros Hn (name & e & Hl & Hst & Hm)%scan_spec. pose proof (Hn _ _ _ Hl Hst Hm) as ->. eauto.
Qed.
Lemma scan_NoDup r : named r -> NoDup (md_digest <$> scan_entries io_ok r).
Proof.
  intros Hn. rewrite scan_perm.
  assert (Hl : forall name e, (name, e) ∈ map_to_list r -> r !! name = Some e)
    by (intros ??; apply elem_of_map_to_list).
  assert (Hd : NoDup ((map_to_list r).*1)) by apply NoDup_fst_map_to_list.
  induction (map_to_list r) as [|[name e] l IH]; [constructor|].
  apply NoDup_cons in Hd as [Hni Hd]. cbn [omap list_omap]. unfold scan_entry at 1. simpl.
  assert (IH' : NoDup (md_digest <$> omap (scan_entry io_ok) l))
    by (apply IH; [intros; apply Hl; by right | done]).
  destruct (is_staging name) eqn:Hst; [done|]. simpl. destruct (ed_meta e) as [m|] eqn:Hm; [|done].
  rewrite fmap_cons. apply NoDup_cons. split; [|done].
  intros (m' & Heq & ([name' e'] & Hin & Hm')%list_elem_of_omap)%list_elem_of_fmap.
  unfold scan_entry in Hm'. simpl in Hm'. destruct (is_staging name') eqn:Hst'; [done|].
  rewrite (Hn name e m) in Heq; [|apply Hl; by left | done ..].
  rewrite (Hn name' e' m') in Heq; [|apply Hl; by right | done ..].
  subst name'. apply Hni, list_elem_of_fmap. by exists (name, e').
Qed.

(** The loop, on entries that are all present. *)
Definition present (r : Root) (es : list CacheMeta) : Prop :=
  Forall (fun e => exists d, r !! md_digest e = Some d) es.
Lemma present_delete r e es :
  md_digest e ∉ md_digest <$> es -> present r es -> present (delete (md_digest e) r) es.
Proof.
  intros Hni Hp. apply Forall_forall. intros e' Hin. unfold present in Hp.
  rewrite Forall_forall in Hp. destruct (Hp e' Hin) as [d Hd]. exists d.
  rewrite lookup_delete_ne; [done|]. intros Heq. apply Hni, list_elem_of_fmap. by exists e'.
Qed.
Lemma evict_loop_exact max protected es : forall total r,
  NoDup (md_digest <$> es) -> present r es -> sizes_ok es -> sum_bytes es <= total <= U64_MAX ->
  exists gone kept,
    filter (fun e => evictable protected e) es = gone ++ kept
    /\ evict_loop io_ok max protected total es r = drop_all gone r
    /\ (total - sum_bytes gone <= max \/ kept = [])
    /\ (forall g e, gone = g ++ [e] -> max < total - sum_bytes g).
Proof.
  induction es as [|e es IH]; intros total r Hnd Hp Hs Ht.
  { exists [], []. repeat split; [by right | intros [|]; discriminate]. }
  apply NoDup_cons in Hnd as [Hni Hnd]. apply Forall_cons in Hp as [[d Hd] Hp].
  apply Forall_cons in Hs as [He Hs]. cbn [sum_bytes foldr] in Ht. fold (sum_bytes es) in Ht.
  pose proof (sum_bytes_nonneg _ Hs) as Hnn.
  cbn [evict_loop]. destruct (Z.leb_spec total max) as [Hle|Hgt].
  { exists [], (filter (fun e => evictable protected e) (e :: es)).
    repeat split; [left; simpl; lia | intros [|]; discriminate]. }
  destruct (md_pinned e || bool_decide (md_digest e ∈ protected)) eqn:Hk.
  - destruct (IH total r Hnd Hp Hs ltac:(lia)) as (gone & kept & Hf & Hrest).
    exists gone, kept. split; [|done]. rewrite filter_cons_False; [done|].
    unfold evictable. apply orb_true_iff in Hk as [->| ->]; [|rewrite andb_false_r]; simpl; tauto.
  - assert (Hr : remove_dir_all io_ok (md_digest e) r = (true, delete (md_digest e) r))
      by (unfold remove_dir_all; by rewrite Hd).
    rewrite Hr. unfold wrapping_sub_u64. rewrite Z.mod_small by (unfold_bounds; lia).
    destruct (IH (total - md_size_bytes e) (delete (md_digest e) r)) as (gone & kept & Hf & Hl & Hb & Hm);
      [done | by apply present_delete | done | lia|].
    exists (e :: gone), kept. split; [|split; [done|split]].
    + rewrite filter_cons_True; [by rewrite Hf|]. unfold evictable.
      apply orb_false_iff in Hk as [-> ->]. done.
    + destruct Hb as [Hb|Hb]; [left | by right]. simpl. lia.
    + intros [|g0 g] x Hg; simpl in Hg; injection Hg as -> Hg; simpl; [lia|].
      pose proof (Hm g x Hg). lia.
Qed.
Lemma drop_all_bytes gone : forall r,
  named r -> NoDup (md_digest <$> gone) -> Forall (fun e => e ∈ scan_entries io_ok r) gone ->
  sum_bytes (scan_entries io_ok (drop_all gone r)) = sum_bytes (scan_entries io_ok r) - sum_bytes gone.
Proof.
  induction gone as [|e gone IH]; intros r Hn Hnd Hin; simpl; [lia|].
  apply NoDup_cons in Hnd as [Hni Hnd]. apply Forall_cons in Hin as [He Hin].
  destruct (scan_found r e Hn He) as (Hst & d & Hd & Hm).
  pose proof (scan_delete r _ d e Hd Hst Hm) as Hp.
  rewrite IH; [|by apply named_delete | done|].
  - rewrite (sum_bytes_perm _ _ Hp). simpl. lia.
  - apply Forall_forall. intros e' Hin'. rewrite Forall_forall in Hin. pose proof (Hin e' Hin') as Hs.
    rewrite Hp in Hs. apply elem_of_cons in Hs as [->|Hs]; [|done].
    destruct Hni. by apply list_elem_of_fmap_2.
Qed.
Lemma scan_present r : named r -> present r (scan_entries io_ok r).
Proof. intros Hn. apply Forall_forall. intros e He. destruct (scan_found r e Hn He) as (_ & d & Hd & _). eauto. Qed.

(** The contract of eviction, from the store [r] to the store [r']: the entries that may go split,
    from the least recently used on, into those that are gone and those that are kept; every other directory
    stays; the store fits the budget or nothing that may go is left; and it did not fit
    before the last of them went. *)
Definition evicts_lru (max : Z) (protected : list rstr) (r r' : Root) : Prop :=
  exists gone kept,
    gone ++ kept ≡ₚ filter (fun e => evictable protected e) (scan_entries io_ok r)
    /\ StronglySorted no_later (gone ++ kept)
    /\ (forall name, r' !! name = if bool_decide (name ∈ md_digest <$> gone) then None else r !! name)
    /\ (sum_bytes (scan_entries io_ok r') <= max \/ kept = [])
    /\ (forall g e, gone = g ++ [e] -> max < sum_bytes (scan_entries io_ok r) - sum_bytes g).
(** C19: When nothing fails, eviction removes the shortest least-recently-used prefix of the
    entries that are neither pinned nor protected such that the store fits its budget, and
    nothing else ([evicts_lru]), provided the sizes add up in 64 bits. *)
Theorem eviction_exact r max protected :
  named r -> sizes_ok (scan_entries io_ok r) -> sum_bytes (scan_entries io_ok r) <= U64_MAX ->
  evicts_lru max protected r (evict_locked io_ok max protected r).
Proof.
  intros Hn Hs Hle. set (es := scan_entries io_ok r).
  assert (Hp : sort_by older es ≡ₚ es) by apply sort_by_perm.
  unfold evicts_lru, evict_locked. fold es. rewrite total_bytes_sum by done.
  destruct (Z.leb_spec (sum_bytes es) max) as [Hfit|Hover].
  { exists [], (filter (fun e => evictable protected e) (sort_by older es)). repeat split.
    - simpl. by rewrite Hp.
    - apply filter_sorted, sort_by_older.
    - by left.
    - intros [|]; discriminate. }
  destruct (evict_loop_exact max protected (sort_by older es) (sum_bytes es) r)
    as (gone & kept & Hf & Hl & Hb & Hm).
  - rewrite Hp. by apply scan_NoDup.
  - unfold present. rewrite Hp. by apply scan_present.
  - unfold sizes_ok. by rewrite Hp.
  - rewrite (sum_bytes_perm _ _ Hp). unfold es. lia.
  - exists gone, kept. rewrite Hl, <- Hf.
    assert (Hgone : forall e, e ∈ gone -> e ∈ es).
    { intros e He. rewrite <- Hp. apply (list_elem_of_filter (fun e => evictable protected e)).
      rewrite Hf. apply elem_of_app. by left. }
    repeat split; [by rewrite Hp | apply filter_sorted, sort_by_older | apply lookup_drop_all | | done].
    rewrite drop_all_bytes; [fold es; done | done | | by apply Forall_forall].
    assert (Hnd : NoDup (md_digest <$> filter (fun e => evictable protected e) (sort_by older es))).
    { rewrite Hp. eapply sublist_NoDup; [by apply scan_NoDup|]. apply fmap_sublist, sublist_filter. }
    rewrite Hf, fmap_app in Hnd. by apply NoDup_app in Hnd as [? _].
Qed.
End Eviction.

(** ** What eviction spares, whatever fails *)
Section Spared.
Context `{Listing}.

Lemma remove_other io name name' r : name <> name' -> (remove_dir_all io name' r).2 !! name = r !! name.
Proof.
  intros Hne. unfold remove_dir_all. repeat case_match; simpl; by rewrite ?lookup_delete_ne, ?lookup_insert_ne.
Qed.
Lemma evict_loop_spares io max protected name es : forall total r,
  (forall e, e ∈ es -> md_digest e = name -> evictable protected e = false) ->
  evict_loop io max protected total es r !! name = r !! name.
Proof.
  induction es as [|e es IH]; intros total r Hk; simpl; [done|].
  assert (Hk' : forall e, e ∈ es -> md_digest e = name -> evictable protected e = false)
    by (intros; apply Hk; [by right | done]).
  destruct (total <=? max); [done|].
  destruct (md_pinned e || bool_decide (md_digest e ∈ protected)) eqn:Hc; [by apply IH|].
  destruct (remove_dir_all io (md_digest e) r) as [ok r'] eqn:Hr. rewrite IH by done.
  replace r' with (remove_dir_all io (md_digest e) r).2 by by rewrite Hr.
  apply remove_other. intros ->. specialize (Hk e ltac:(by left) eq_refl). unfold evictable in Hk.
  apply orb_false_iff in Hc as [Hp Hq]. rewrite Hp, Hq in Hk. done.
Qed.
Lemma scan_sound io r m :
  m ∈ scan_entries io r -> exists name e, r !! name = Some e /\ is_staging name = false /\ ed_meta e = Some m.
Proof.
  unfold scan_entries. rewrite read_dir_perm, list_elem_of_omap. unfold scan_entry.
  intros ([name e] & Hin & Hm). apply elem_of_map_to_list in Hin. simpl in Hm.
  destruct (io_lists io name), (is_staging name) eqn:Hst; try done. by exists name, e.
Qed.
Lemma evict_protected io max protected r name :
  name ∈ protected -> evict_locked io max protected r !! name = r !! name.
Proof.
  intros Hin. unfold evict_locked. destruct (_ <=? _); [done|]. apply evict_loop_spares.
  intros e _ <-. unfold evictable. by rewrite (bool_decide_eq_true_2 _ Hin), andb_false_r.
Qed.
Lemma evict_pinned io max protected r name e m :
  named r -> r !! name = Some e -> ed_meta e = Some m -> md_pinned m = true ->
  evict_locked io max protected r !! name = r !! name.
Proof.
  intros Hn Hl Hm Hp. unfold evict_locked. destruct (_ <=? _); [done|]. apply evict_loop_spares.
  intros e'. rewrite sort_by_perm. intros (name' & d & Hl' & Hst & Hm')%scan_sound Hd.
  pose proof (Hn _ _ _ Hl' Hst Hm'). simplify_eq. unfold evictable. by rewrite Hp.
Qed.
(** Without failures nothing but whole directories goes. *)
Lemma evict_loop_sub max protected es : forall total r name e,
  evict_loop io_ok max protected total es r !! name = Some e -> r !! name = Some e.
Proof.
  induction es as [|m es IH]; intros total r name e; simpl; [done|].
  destruct (total <=? max); [done|]. case_match; [apply IH|].
  destruct (remove_dir_all io_ok (md_digest m) r) as [ok r'] eqn:Hr. intros Hl%IH.
  assert (r' = delete (md_digest m) r) as ->; [|by apply lookup_delete_Some in Hl as [_ ?]].
  unfold remove_dir_all in Hr. destruct (r !! md_digest m) eqn:Hd; injection Hr as _ <-; [done|].
  by rewrite delete_id.
Qed.
Lemma evict_sub max protected r name e :
  evict_locked io_ok max protected r !! name = Some e -> r !! name = Some e.
Proof. unfold evict_locked. destruct (_ <=? _); [done | apply evict_loop_sub]. Qed.
End Spared.

(** ** Publishing *)
Section Publishing.
Context `{DigestEnv, Listing}.

Lemma staging_ne (d : rstr) : TMP_PREFIX ++ d <> d.
Proof. intros Heq%(f_equal length). rewrite length_app in Heq. change (length TMP_PREFIX) with 9%nat in Heq. lia. Qed.
Definition published_meta (fp : BuildFingerprint) (bytes : list Z) (now : Z) (pinned : bool) : CacheMeta :=
  {| md_fingerprint := fp; md_digest := digest fp; md_sha256 := sha256_hex bytes;
     md_size_bytes := Z.of_nat (length bytes); md_last_used := now; md_created_at := now; md_pinned := pinned |}.
Definition published_entry (fp : BuildFingerprint) (bytes : list Z) (now : Z) (pinned : bool) : EntryDir :=
  {| ed_binary := Some bytes; ed_meta := Some (published_meta fp bytes now pinned) |}.
(** The directory just before eviction. *)
Definition landed (fp : BuildFingerprint) (bytes : list Z) (now : Z) (pinned : bool) (r : Root) : Root :=
  <[digest fp := published_entry fp bytes now pinned]> (delete (TMP_PREFIX ++ digest fp) r).
Lemma remove_ok name r : (remove_dir_all io_ok name r).2 = delete name r.
Proof.
  unfold remove_dir_all. destruct (r !! name) eqn:E; simpl; [done|]. by rewrite delete_id.
Qed.
Lemma publish_ok max fp bytes now pinned r :
  cache_publish io_ok max fp (Some bytes) now pinned r
  = (Ok (sha256_hex bytes), evict_locked io_ok max [digest fp] (landed fp bytes now pinned r)).
Proof.
  pose proof (staging_ne (digest fp)) as Hne. unfold cache_publish. cbn [io_create_root io_ok].
  rewrite remove_ok. unfold create_dir_all. rewrite lookup_delete_eq. cbn [io_create io_ok negb].
  unfold copy_binary. rewrite lookup_insert_eq. cbn [io_copy io_ok negb ed_meta].
  unfold write_meta. rewrite lookup_insert_eq. cbn [io_write io_ok negb ed_binary].
  rewrite !insert_insert_eq, remove_ok. unfold rename.
  rewrite lookup_delete_ne, lookup_insert_eq, lookup_delete_eq by done. cbn [io_rename io_ok negb].
  do 2 f_equal. unfold landed, published_entry, published_meta. apply map_eq. intros name.
  destruct (decide (name = digest fp)) as [->|Hd]; [by rewrite !lookup_insert_eq|].
  rewrite !lookup_insert_ne by done. destruct (decide (name = TMP_PREFIX ++ digest fp)) as [->|Hs].
  { by rewrite !lookup_delete_eq. }
  by rewrite !lookup_delete_ne, lookup_insert_ne, lookup_delete_ne by done.
Qed.
Lemma get_entry io fp now r bytes m :
  r !! digest fp = Some {| ed_binary := Some bytes; ed_meta := Some m |} ->
  io_hash io (digest fp) = true -> md_sha256 m = sha256_hex bytes ->
  (get io fp now r).1 = Some (cached_binary fp (with_last_used now m)).
Proof.
  intros Hl Hh Hs. unfold get, get_found, get_read, get_verified, sha256_entry. rewrite Hl, Hh. simpl.
  by rewrite Hs, bool_decide_eq_true_2.
Qed.

(** What is published is found: when nothing fails, publishing stores the bytes for the
    fingerprint whatever the budget, the next lookup serves them with the digest
    and the length of the bytes, the time of the lookup and the pin asked for, and no pinned
    entry of another fingerprint is lost. *)
Theorem publish_then_get max fp bytes now now' pinned r :
  named r ->
  let '(res, r') := cache_publish io_ok max fp (Some bytes) now pinned r in
  res = Ok (sha256_hex bytes)
  /\ r' !! digest fp = Some (published_entry fp bytes now pinned)
  /\ (get io_ok fp now' r').1
     = Some {| cb_path := digest fp; cb_digest := digest fp; cb_sha256 := sha256_hex bytes;
               cb_size_bytes := Z.of_nat (length bytes); cb_last_used := now'; cb_pinned := pinned |}
  /\ (forall name e m, name <> digest fp -> is_staging name = false ->
        r !! name = Some e -> ed_meta e = Some m -> md_pinned m = true -> r' !! name = Some e).
Proof.
  intros Hn. rewrite publish_ok.
  assert (Hl : evict_locked io_ok max [digest fp] (landed fp bytes now pinned r) !! digest fp
               = Some (published_entry fp bytes now pinned)).
  { rewrite evict_protected by set_solver. apply lookup_insert_eq. }
  split; [done|]. split; [done|]. split; [by rewrite (get_entry _ _ _ _ _ _ Hl)|].
  intros name e m Hd Hst He Hm Hp.
  assert (Hr : landed fp bytes now pinned r !! name = Some e).
  { unfold landed. rewrite lookup_insert_ne, lookup_delete_ne by (try done; by intros <-). done. }
  rewrite (evict_pinned _ _ _ _ _ e m); [done | | done ..].
  unfold landed. intros name' e' m' [[<- <-]|[Hne He']]%lookup_insert_Some Hst' Hm'.
  - simpl in Hm'. by injection Hm' as <-.
  - apply lookup_delete_Some in He' as [_ He']. by apply (Hn name' e').
Qed.
End Publishing.

(** ** Pinning *)
Section Pinning.
Context `{Listing}.
Variable commits : gset rstr.
Variable env : CacheEnvironment.

(** An entry with the flag the resolved commits ask for. *)
Definition repinned (e : EntryDir) : EntryDir :=
  {| ed_binary := ed_binary e;
     ed_meta := (fun m => with_pinned (wanted commits env (md_fingerprint m)) m) <$> ed_meta e |}.
Lemma pin_entry_lookup r m e name :
  r !! md_digest m = Some e -> ed_meta e = Some m ->
  pin_entry io_ok commits env r m !! name
  = if bool_decide (name = md_digest m) then Some (repinned e) else r !! name.
Proof.
  intros Hl Hm. unfold pin_entry, write_meta, repinned. rewrite Hl, Hm. simpl.
  destruct (Bool.eqb _ _) eqn:Hq; case_bool_decide as Hd; try subst name; simpl.
  - apply eqb_prop in Hq. rewrite Hl, <- Hq. destruct e as [b md], m; simpl in *. by subst md.
  - done.
  - by rewrite lookup_insert_eq.
  - by rewrite lookup_insert_ne.
Qed.
Lemma pin_fold_lookup es : forall r name,
  NoDup (md_digest <$> es) ->
  Forall (fun m => exists e, r !! md_digest m = Some e /\ ed_meta e = Some m) es ->
  foldl (pin_entry io_ok commits env) r es !! name
  = if bool_decide (name ∈ md_digest <$> es) then repinned <$> r !! name else r !! name.
Proof.
  induction es as [|m es IH]; intros r name Hnd Hf; [done|]. cbn [foldl fmap list_fmap].
  apply NoDup_cons in Hnd as [Hni Hnd]. apply Forall_cons in Hf as [(e & He & Hm) Hf].
  rewrite IH; [|done|].
  - rewrite (pin_entry_lookup r m e name He Hm). destruct (decide (name = md_digest m)) as [->|Hne].
    + rewrite (bool_decide_eq_true_2 (md_digest m = _)), (bool_decide_eq_true_2 (_ ∈ _ :: _)) by set_solver.
      rewrite (bool_decide_eq_false_2 _ Hni), He. done.
    + rewrite (bool_decide_eq_false_2 (name = _)) by done. erewrite bool_decide_ext; [done|]. set_solver.
  - eapply Forall_impl; [apply Forall_and; split; [exact Hf|]|].
    + apply Forall_forall. intros m' Hin. instantiate (1 := fun m' => m' ∈ es). done.
    + intros m' [(e' & He' & Hm') Hin]. exists e'. split; [|done].
      rewrite (pin_entry_lookup r m e _ He Hm), bool_decide_eq_false_2; [done|].
      intros Heq. apply Hni. rewrite <- Heq. by apply list_elem_of_fmap_2.
Qed.
(** Pinning sets exactly the flags asked for and changes nothing else. *)
Lemma set_pinned_exact r name : named r ->
  set_pinned_by_commit io_ok commits env r !! name
  = (if is_staging name then id else repinned) <$> r !! name.
Proof.
  intros Hn. unfold set_pinned_by_commit. rewrite pin_fold_lookup.
  - case_bool_decide as Hin.
    + apply list_elem_of_fmap in Hin as (m & -> & Hin). destruct (scan_found r m Hn Hin) as [-> _]. done.
    + destruct (r !! name) as [e|] eqn:Hl; [|by destruct (is_staging name)].
      destruct (is_staging name) eqn:Hst; [done|]. simpl. f_equal. unfold repinned.
      destruct e as [b [m|]]; [|done]. exfalso. apply Hin.
      rewrite <- (Hn _ _ m Hl Hst eq_refl). apply list_elem_of_fmap_2, scan_spec. by exists name, {| ed_binary := b; ed_meta := Some m |}.
  - by apply scan_NoDup.
  - apply Forall_forall. intros m Hin. by destruct (scan_found r m Hn Hin) as [_ ?].
Qed.
Lemma set_pinned_named r : named r -> named (set_pinned_by_commit io_ok commits env r).
Proof.
  intros Hn name e m. rewrite set_pinned_exact by done. intros (e0 & He0 & Hl)%fmap_Some Hst Hm.
  rewrite Hst in Hl. subst e. simpl in Hm. apply fmap_Some in Hm as (m0 & Hm0 & ->). exact (Hn name e0 m0 He0 Hst Hm0).
Qed.
End Pinning.

(** ** The interface of pin management

    [CacheControl], with what it promises of an abstract view: the fingerprints held, with their
    pins. *)
Class CacheControl (S : Type) := {
  cc_evict_to_budget : S -> S;
  cc_set_pinned_by_commit : gset rstr -> CacheEnvironment -> S -> S;
  cc_has_entry_for : rstr -> CacheEnvironment -> S -> bool
}.
Class CacheControlLaws (S : Type) `{CacheControl S} := {
  cc_valid : S -> Prop;
  cc_holds : S -> BuildFingerprint -> bool -> Prop;
  cc_evict_valid : forall s, cc_valid s -> cc_valid (cc_evict_to_budget s);
  cc_pin_valid : forall s commits env, cc_valid s -> cc_valid (cc_set_pinned_by_commit commits env s);
  cc_evict_spares : forall s fp, cc_valid s -> cc_holds s fp true -> cc_holds (cc_evict_to_budget s) fp true;
  cc_evict_sub : forall s fp p, cc_valid s -> cc_holds (cc_evict_to_budget s) fp p -> cc_holds s fp p;
  cc_pin_exact : forall s commits env fp p, cc_valid s ->
    cc_holds (cc_set_pinned_by_commit commits env s) fp p
    <-> p = wanted commits env fp /\ exists q, cc_holds s fp q;
  cc_has_entry_exact : forall s commit env, cc_valid s ->
    cc_has_entry_for commit env s = true
    <-> exists fp p, cc_holds s fp p /\ fp_commit fp = commit /\ env_matches env fp = true
}.
Section Instance.
Context `{Listing}.
Variable max_bytes : Z.
Definition holds_entry (r : Root) (fp : BuildFingerprint) (pinned : bool) : Prop :=
  exists name e m, r !! name = Some e /\ is_staging name = false /\ ed_meta e = Some m
    /\ md_fingerprint m = fp /\ md_pinned m = pinned.
#[export] Instance BinaryCache_control : CacheControl Root := {|
  cc_evict_to_budget := evict_to_budget io_ok max_bytes;
  cc_set_pinned_by_commit := set_pinned_by_commit io_ok;
  cc_has_entry_for := has_entry_for io_ok
|}.
#[export] Program Instance BinaryCache_laws : CacheControlLaws Root := {|
  cc_valid := named;
  cc_holds := holds_entry
|}.
Next Obligation. simpl. intros r Hn name e m Hl%evict_sub. by apply Hn. Qed.
Next Obligation. simpl. intros. by apply set_pinned_named. Qed.
Next Obligation.
  simpl. intros r fp Hn (name & e & m & Hl & Hst & Hm & Hf & Hp). exists name, e, m.
  unfold evict_to_budget. by rewrite (evict_pinned _ _ _ _ _ e m).
Qed.
Next Obligation.
  simpl. intros r fp p Hn (name & e & m & Hl%evict_sub & Hrest). by exists name, e, m.
Qed.
Next Obligation.
  simpl. intros r commits env fp p Hn. split.
  - intros (name & e & m & Hl & Hst & Hm & <- & <-). rewrite set_pinned_exact, Hst in Hl by done.
    apply fmap_Some in Hl as (e0 & He0 & ->). simpl in Hm. apply fmap_Some in Hm as (m0 & Hm0 & ->).
    split; [done|]. by exists (md_pinned m0), name, e0, m0.
  - intros (-> & q & name & e & m & Hl & Hst & Hm & <- & _).
    exists name, (repinned commits env e), (with_pinned (wanted commits env (md_fingerprint m)) m).
    split; [by rewrite set_pinned_exact, Hst, Hl|]. split; [done|]. split; [|done].
    simpl. by rewrite Hm.
Qed.
Next Obligation.
  simpl. intros r commit env Hn. unfold has_entry_for. rewrite existsb_exists. split.
  - intros (m & Hin & Hb). apply list_elem_of_In, scan_spec in Hin as (name & e & Hl & Hst & Hm).
    apply andb_true_iff in Hb as [Hc Hb]. apply bool_decide_eq_true in Hc.
    exists (md_fingerprint m), (md_pinned m). split; [|done]. by exists name, e, m.
  - intros (fp & p & (name & e & m & Hl & Hst & Hm & <- & _) & <- & He). exists m. split.
    + apply list_elem_of_In, scan_spec. by exists name, e.
    + rewrite He, andb_true_r. by apply bool_decide_eq_true.
Qed.
End Instance.

(** ** Concurrent use

    A lookup finds, reads and verifies outside of the mutex; [Get_verified] keeps the bytes it
    hashed.  A lookup that meets a directory that is being replaced misses.  What was published is
    remembered; a stored binary can be damaged. *)
Inductive GetPhase :=
| Get_found
| Get_read (m : CacheMeta)
| Get_verified (m : CacheMeta) (bytes : list Z).
Record CacheSystem := {
  cy_root : Root;
  cy_gets : gmap nat (BuildFingerprint * GetPhase);
  cy_published : list (BuildFingerprint * list Z)
}.
Definition cache_start : CacheSystem := {| cy_root := ∅; cy_gets := ∅; cy_published := [] |}.
Section System.
Context `{DigestEnv, Listing}.
Variable max_bytes : Z.

Inductive cache_step : CacheSystem -> CacheSystem -> Prop :=
| Step_get_found r g p i fp :
    g !! i = None -> get_found fp r = true ->
    cache_step {| cy_root := r; cy_gets := g; cy_published := p |}
      {| cy_root := r; cy_gets := <[i := (fp, Get_found)]> g; cy_published := p |}
| Step_get_read r g p i fp m :
    g !! i = Some (fp, Get_found) -> get_read fp r = Some m ->
    cache_step {| cy_root := r; cy_gets := g; cy_published := p |}
      {| cy_root := r; cy_gets := <[i := (fp, Get_read m)]> g; cy_published := p |}
| Step_get_verified r g p i fp m io e bytes :
    g !! i = Some (fp, Get_read m) -> get_verified io fp m r = true ->
    r !! digest fp = Some e -> ed_binary e = Some bytes ->
    cache_step {| cy_root := r; cy_gets := g; cy_published := p |}
      {| cy_root := r; cy_gets := <[i := (fp, Get_verified m bytes)]> g; cy_published := p |}
| Step_get_finish r g p i fp m bytes io now :
    g !! i = Some (fp, Get_verified m bytes) ->
    cache_step {| cy_root := r; cy_gets := g; cy_published := p |}
      {| cy_root := (get_finish io fp now m r).2; cy_gets := delete i g; cy_published := p |}
| Step_get_miss r g p i :
    cache_step {| cy_root := r; cy_gets := g; cy_published := p |}
      {| cy_root := r; cy_gets := delete i g; cy_published := p |}
| Step_publish r g p io fp src now pinned :
    cache_step {| cy_root := r; cy_gets := g; cy_published := p |}
      {| cy_root := (cache_publish io max_bytes fp src now pinned r).2; cy_gets := g;
         cy_published := match src with Some bytes => (fp, bytes) :: p | None => p end |}
| Step_set_pinned r g p io commits env :
    cache_step {| cy_root := r; cy_gets := g; cy_published := p |}
      {| cy_root := set_pinned_by_commit io commits env r; cy_gets := g; cy_published := p |}
| Step_evict r g p io :
    cache_step {| cy_root := r; cy_gets := g; cy_published := p |}
      {| cy_root := evict_to_budget io max_bytes r; cy_gets := g; cy_published := p |}
| Step_damage r g p name e bytes :
    r !! name = Some e ->
    cache_step {| cy_root := r; cy_gets := g; cy_published := p |}
      {| cy_root := <[name := {| ed_binary := bytes; ed_meta := ed_meta e |}]> r; cy_gets := g; cy_published := p |}.
Definition cache_reachable : CacheSystem -> Prop := rtc cache_step cache_start.

(** Metadata under a name is of a publication under that name. *)
Definition meta_ok (p : list (BuildFingerprint * list Z)) (name : rstr) (m : CacheMeta) : Prop :=
  md_digest m = name /\ digest (md_fingerprint m) = name
  /\ exists bytes, (md_fingerprint m, bytes) ∈ p /\ md_sha256 m = sha256_hex bytes.
Definition root_ok (p : list (BuildFingerprint * list Z)) (r : Root) : Prop :=
  forall name e m, r !! name = Some e -> is_staging name = false -> ed_meta e = Some m -> meta_ok p name m.
Definition get_ok (p : list (BuildFingerprint * list Z)) (fp : BuildFingerprint) (ph : GetPhase) : Prop :=
  match ph with
  | Get_found => True
  | Get_read m => meta_ok p (digest fp) m
  | Get_verified m bytes => meta_ok p (digest fp) m /\ sha256_hex bytes = md_sha256 m
  end.
Record system_ok (s : CacheSystem) : Prop := {
  so_root : root_ok (cy_published s) (cy_root s);
  so_gets : forall i fp ph, cy_gets s !! i = Some (fp, ph) -> get_ok (cy_published s) fp ph
}.
Lemma meta_ok_mono p p' name m : p ⊆ p' -> meta_ok p name m -> meta_ok p' name m.
Proof. intros Hp (? & ? & b & ? & ?). split_and!; [done ..|]. exists b. split; [by apply Hp | done]. Qed.
Lemma root_ok_mono p p' r : p ⊆ p' -> root_ok p r -> root_ok p' r.
Proof. intros Hp Hr name e m ???. eapply meta_ok_mono; [done|]. by eapply Hr. Qed.
Lemma get_ok_mono p p' fp ph : p ⊆ p' -> get_ok p fp ph -> get_ok p' fp ph.
Proof. destruct ph; simpl; [done | apply meta_ok_mono |]. intros ? [??]. split; [by eapply meta_ok_mono | done]. Qed.
Lemma root_ok_insert p r name e :
  root_ok p r -> (is_staging name = false -> forall m, ed_meta e = Some m -> meta_ok p name m) ->
  root_ok p (<[name := e]> r).
Proof. intros Hr He n d m [[<- <-]|[? ?]]%lookup_insert_Some ??; [by apply He | by eapply Hr]. Qed.
Lemma root_ok_delete p r name : root_ok p r -> root_ok p (delete name r).
Proof. intros Hr n d m [_ ?]%lookup_delete_Some. by eapply Hr. Qed.
(** Metadata of an entry that shrinks is metadata of the entry. *)
Lemma root_ok_shrink p r name e e' :
  root_ok p r -> r !! name = Some e -> (forall m, ed_meta e' = Some m -> ed_meta e = Some m) ->
  root_ok p (<[name := e']> r).
Proof. intros Hr Hl He. apply root_ok_insert; [done|]. intros Hst m Hm. eapply Hr; eauto. Qed.
Lemma keep_if_Some {A} b (o : option A) x : keep_if b o = Some x -> o = Some x.
Proof. by destruct b. Qed.
Lemma write_meta_ok p io name m r :
  root_ok p r -> (is_staging name = false -> meta_ok p name m) -> root_ok p (write_meta io name m r).2.
Proof.
  intros Hr Hm. unfold write_meta. destruct (r !! name) as [e|] eqn:Hl; [|done]. destruct (io_write io name); simpl.
  - apply root_ok_insert; [done|]. intros Hst m' [= <-]. by apply Hm.
  - eapply root_ok_shrink; [done | exact Hl|]. intros m'. apply keep_if_Some.
Qed.
Lemma remove_dir_ok p io name r : root_ok p r -> root_ok p (remove_dir_all io name r).2.
Proof.
  intros Hr. unfold remove_dir_all. destruct (r !! name) as [e|] eqn:Hl; [|done]. destruct (io_remove io name); simpl.
  - by apply root_ok_delete.
  - eapply root_ok_shrink; [done | exact Hl|]. intros m'. apply keep_if_Some.
Qed.
Lemma evict_loop_ok p io protected es : forall total r,
  root_ok p r -> root_ok p (evict_loop io max_bytes protected total es r).
Proof.
  induction es as [|e es IH]; intros total r Hr; simpl; [done|].
  destruct (total <=? max_bytes); [done|]. case_match; [by apply IH|].
  pose proof (remove_dir_ok p io (md_digest e) r Hr) as Hd.
  destruct (remove_dir_all io (md_digest e) r) as [ok r']. by apply IH.
Qed.
Lemma evict_ok p io protected r : root_ok p r -> root_ok p (evict_locked io max_bytes protected r).
Proof. intros Hr. unfold evict_locked. destruct (_ <=? _); [done | by apply evict_loop_ok]. Qed.
Lemma root_ok_named p r : root_ok p r -> named r.
Proof. intros Hr name e m ???. by destruct (Hr name e m). Qed.

(** Digests are hexadecimal: none is the name of a staging directory. *)
Class HexDigest : Prop := hex_plain : forall text, is_staging (sha256_hex text) = false.
Context `{HexDigest}.
Lemma staging_is_staging (d : rstr) : is_staging (TMP_PREFIX ++ d) = true.
Proof. reflexivity. Qed.
Lemma create_ok p io name r : is_staging name = true -> root_ok p r -> root_ok p (create_dir_all io name r).2.
Proof.
  intros Hst Hr. unfold create_dir_all. repeat case_match; simpl; try done. apply root_ok_insert; [done|]. by rewrite Hst.
Qed.
Lemma copy_ok p io name bytes r : is_staging name = true -> root_ok p r -> root_ok p (copy_binary io name bytes r).2.
Proof.
  intros Hst Hr. unfold copy_binary. repeat case_match; simpl; try done; (apply root_ok_insert; [done|]; by rewrite Hst).
Qed.
Lemma write_meta_done io name m r r' :
  write_meta io name m r = (true, r') -> exists e, r' !! name = Some e /\ ed_meta e = Some m.
Proof.
  unfold write_meta. intros Hw. destruct (r !! name) as [e|]; [|done]. destruct (io_write io name); [|done].
  injection Hw as <-. rewrite lookup_insert_eq. eauto.
Qed.
Lemma rename_ok p io from to r e :
  root_ok p r -> r !! from = Some e -> (forall m, ed_meta e = Some m -> meta_ok p to m) ->
  root_ok p (rename io from to r).2.
Proof.
  intros Hr Hl He. unfold rename. rewrite Hl. case_match; simpl; [|done].
  apply root_ok_insert; [by apply root_ok_delete | auto].
Qed.
Lemma publish_root_ok p io fp bytes now pinned r :
  root_ok p r -> root_ok ((fp, bytes) :: p) (cache_publish io max_bytes fp (Some bytes) now pinned r).2.
Proof.
  intros Hr. unfold cache_publish. fold (published_meta fp bytes now pinned).
  assert (Hr0 : root_ok ((fp, bytes) :: p) r) by (eapply root_ok_mono; [|exact Hr]; set_solver).
  destruct (io_create_root io); [|done].
  set (staging := TMP_PREFIX ++ digest fp). pose proof (staging_is_staging (digest fp)) as Hst. fold staging in Hst.
  pose proof (create_ok _ io staging _ Hst (remove_dir_ok _ io staging _ Hr0)) as Hr1.
  destruct (create_dir_all _ _ _) as [[] r1]; [|done]. cbn [snd negb] in *.
  pose proof (copy_ok _ io staging bytes _ Hst Hr1) as Hr2.
  destruct (copy_binary _ _ _ _) as [[] r2]; [|done]. cbn [snd negb] in *.
  pose proof (write_meta_ok _ io staging (published_meta fp bytes now pinned) r2 Hr2 ltac:(by rewrite Hst)) as Hr3.
  destruct (write_meta _ _ _ _) as [[] r3] eqn:Hw; [|done]. cbn [snd negb] in *.
  apply write_meta_done in Hw as (e & Hl & Hm).
  pose proof (remove_dir_ok _ io (digest fp) r3 Hr3) as Hr4.
  rewrite <- (remove_other io staging (digest fp)) in Hl by apply staging_ne.
  eapply (rename_ok _ io staging (digest fp)) in Hr4; [|exact Hl|].
  - destruct (rename _ _ _ _) as [[] r5]; [|done]. cbn [snd negb] in *. by apply evict_ok.
  - intros m Hm'. rewrite Hm in Hm'. injection Hm' as <-. split_and!; [done ..|].
    exists bytes. split; [by left | done].
Qed.
Lemma pin_fold_ok p io commits env es : forall r,
  root_ok p r -> Forall (fun m => meta_ok p (md_digest m) m) es ->
  root_ok p (foldl (pin_entry io commits env) r es).
Proof.
  induction es as [|m es IH]; intros r Hr Hes; simpl; [done|]. apply Forall_cons in Hes as [Hm Hes].
  apply IH; [|done]. unfold pin_entry. case_match; [done|]. by apply write_meta_ok.
Qed.
Lemma set_pinned_ok p io commits env r : root_ok p r -> root_ok p (set_pinned_by_commit io commits env r).
Proof.
  intros Hr. apply pin_fold_ok; [done|]. apply Forall_forall.
  intros m (name & e & Hl & Hst & Hm)%scan_sound. pose proof (Hr _ _ _ Hl Hst Hm) as Hok.
  assert (md_digest m = name) as -> by apply Hok. done.
Qed.
Lemma cache_step_ok s s' : cache_step s s' -> system_ok s -> system_ok s'.
Proof.
  intros Hs [Hr Hg]. destruct Hs; simpl in *; split; simpl; try done.
  - intros j fp' ph [[<- [= <- <-]]|[_ ?]]%lookup_insert_Some; [done | by eapply Hg].
  - intros j fp' ph [[<- [= <- <-]]|[_ ?]]%lookup_insert_Some; [|by eapply Hg]. simpl.
    match goal with H : get_read _ _ = Some _ |- _ => apply bind_Some in H as (e & Hl & Hm) end.
    eapply Hr; [exact Hl | apply hex_plain | done].
  - intros j fp' ph [[<- [= <- <-]]|[_ ?]]%lookup_insert_Some; [|by eapply Hg]. simpl.
    match goal with H : g !! _ = _ |- _ => pose proof (Hg _ _ _ H) as Hok end. split; [exact Hok|].
    match goal with H : get_verified _ _ _ _ = true |- _ => apply bool_decide_eq_true in H as Hv end.
    unfold sha256_entry in Hv. repeat case_match; simplify_eq/=; done.
  - match goal with H : g !! _ = _ |- _ => destruct (Hg _ _ _ H) as [Hok _] end.
    apply write_meta_ok; [done | by intros _].
  - intros j fp' ph [_ ?]%lookup_delete_Some. by eapply Hg.
  - intros j fp' ph [_ ?]%lookup_delete_Some. by eapply Hg.
  - destruct src; [by apply publish_root_ok | done].
  - intros j fp' ph Hl. destruct src; [|by eapply Hg]. eapply get_ok_mono; [|by eapply Hg]. set_solver.
  - by apply set_pinned_ok.
  - by apply evict_ok.
  - eapply root_ok_shrink; [done | done|]. by simpl.
Qed.
Lemma cache_reachable_ok s : cache_reachable s -> system_ok s.
Proof.
  unfold cache_reachable. revert s. apply (rtc_ind_r system_ok cache_start).
  - split; simpl; intros ??? Hl; by rewrite lookup_empty in Hl.
  - intros s s' _ Hstep Hok. by eapply cache_step_ok.
Qed.

(** C18: A lookup serves only what was published for its own build.  However lookups, publications,
    pinning, eviction, damage to files and failures of the file system interleave, the bytes a
    lookup has verified are the bytes that some publication stored under a fingerprint of the same build:
    the same artifact, commit, toolchain and environment, and the same repository
    where it counts.  Otherwise two texts with one SHA-256 digest have been found. *)
Theorem hits_are_published_builds `{!ScalarText} s i fp m bytes :
  cache_reachable s -> cy_gets s !! i = Some (fp, Get_verified m bytes) ->
  sha256_collision
  \/ exists fp0, (fp0, bytes) ∈ cy_published s /\ same_build fp0 fp
      /\ cb_sha256 (cached_binary fp m) = sha256_hex bytes /\ cb_path (cached_binary fp m) = digest fp0.
Proof.
  intros Hs Hg. destruct (so_gets _ (cache_reachable_ok s Hs) _ _ _ Hg) as [(Hd & Hf & b & Hin & Hb) Hsha].
  destruct (digest_same_build (md_fingerprint m) fp Hf) as [Hsame|]; [|by left].
  destruct (decide (b = bytes)) as [->|Hne].
  - right. exists (md_fingerprint m). split_and!; [done ..|]. simpl. congruence.
  - left. exists b, bytes. split; [done | congruence].
Qed.

(** The metadata that a lookup writes back is what it read before it took the mutex: an entry that is
    pinned in between loses its pin, although its commit is still asked for. *)
Lemma stale_lookup_drops_pin s i fp m bytes e m0 commits env now :
  cache_reachable s -> cy_gets s !! i = Some (fp, Get_verified m bytes) -> md_pinned m = false ->
  cy_root s !! digest fp = Some e -> ed_meta e = Some m0 ->
  wanted commits env (md_fingerprint m0) = true ->
  exists s1 s2, cache_step s s1 /\ cache_step s1 s2
    /\ (cy_root s1 !! digest fp ≫= ed_meta) = Some (with_pinned true m0)
    /\ (cy_root s2 !! digest fp ≫= ed_meta) = Some (with_last_used now m)
    /\ md_pinned (with_last_used now m) = false.
Proof.
  intros Hs Hg Hp Hl Hm Hw. destruct s as [r g p]. simpl in *.
  pose proof (root_ok_named _ _ (so_root _ (cache_reachable_ok _ Hs))) as Hn. simpl in Hn.
  assert (Hr : set_pinned_by_commit io_ok commits env r !! digest fp = Some (repinned commits env e)).
  { rewrite set_pinned_exact by done. unfold digest at 1. rewrite hex_plain. by rewrite Hl. }
  eexists _, _. split; [apply (Step_set_pinned r g p io_ok commits env)|].
  split; [by apply (Step_get_finish _ _ _ i fp m bytes io_ok now)|]. simpl. split; [|split; [|done]].
  - rewrite Hr. simpl. by rewrite Hm, <- Hw.
  - unfold get_finish, write_meta. rewrite Hr. simpl. by rewrite lookup_insert_eq.
Qed.
End System.

(** ** Runs of the model *)
Section Demo.
(** Digests that are never the name of a staging directory. *)
Definition plain_digest : DigestEnv := {| scalar_bytes := unary_scalar; sha256_hex := fun b => 97 :: b |}.
Definition map_listing : Listing := {| read_dir := map_to_list; read_dir_perm := fun _ => reflexivity _ |}.
#[local] Existing Instances plain_digest map_listing.
Lemma plain_text : ScalarText.
Proof. destruct unary_text as [H1 H2]. split; [exact H1 | exact H2]. Qed.
Lemma plain_hex : HexDigest.
Proof. intros text. reflexivity. Qed.
Definition demo_fp (commit : rstr) : BuildFingerprint :=
  {| fp_artifact := Artifact_StacksBench; fp_repository := None; fp_commit := commit; fp_toolchain := [49];
     fp_profile := [50]; fp_features := []; fp_rustflags := []; fp_target_triple := [51]; fp_recipe_version := 2;
     fp_image_id := [52]; fp_protocol_version := [53] |}.
Definition demo_bin (n : nat) (fill : Z) : list Z := replicate n fill.
Definition after (res : result rstr IoError * Root) : Root := res.2.
(** Two entries of four bytes under a budget of ten. *)
Definition demo_two : Root :=
  after (cache_publish io_ok 10 (demo_fp [98]) (Some (demo_bin 4 2)) 20 false
    (after (cache_publish io_ok 10 (demo_fp [97]) (Some (demo_bin 4 1)) 10 false ∅))).
(** The older entry is used, so a third one evicts the other. *)
Definition demo_three : Root :=
  after (cache_publish io_ok 10 (demo_fp [99]) (Some (demo_bin 4 3)) 40 false (get io_ok (demo_fp [97]) 30 demo_two).2).
Lemma demo_lru :
  map (fun c => bool_decide (is_Some (get io_ok (demo_fp [c]) 50 demo_three).1)) [97; 98; 99] = [true; false; true].
Proof. vm_compute. reflexivity. Qed.
Lemma demo_pinned :
  let r := set_pinned_by_commit io_ok {[ [98] ]} (environment (demo_fp [98])) demo_two in
  map (fun c => bool_decide (is_Some (get io_ok (demo_fp [c]) 50 (evict_to_budget io_ok 0 r)).1)) [97; 98]
  = [false; true].
Proof. vm_compute. reflexivity. Qed.
(** A tampered binary is a miss. *)
Lemma demo_tampered :
  (get io_ok (demo_fp [97]) 50
     (alter (fun e => {| ed_binary := Some (demo_bin 4 9); ed_meta := ed_meta e |}) (digest (demo_fp [97])) demo_two)).1
  = None.
Proof. vm_compute. reflexivity. Qed.
Lemma empty_named : named ∅.
Proof. intros name e m Hl. by rewrite lookup_empty in Hl. Qed.
Definition demo_log : list (BuildFingerprint * list Z) :=
  [(demo_fp [98], demo_bin 4 2); (demo_fp [97], demo_bin 4 1)].
Definition demo_system (gets : gmap nat (BuildFingerprint * GetPhase)) : CacheSystem :=
  {| cy_root := demo_two; cy_gets := gets; cy_published := demo_log |}.
Lemma demo_reachable : cache_reachable 10 (demo_system ∅).
Proof.
  apply rtc_l with {| cy_root := after (cache_publish io_ok 10 (demo_fp [97]) (Some (demo_bin 4 1)) 10 false ∅);
                      cy_gets := ∅; cy_published := [(demo_fp [97], demo_bin 4 1)] |}.
  { apply (Step_publish 10 ∅ ∅ [] io_ok (demo_fp [97]) (Some (demo_bin 4 1)) 10 false). }
  apply rtc_once. apply (Step_publish 10 _ ∅ _ io_ok (demo_fp [98]) (Some (demo_bin 4 2)) 20 false).
Qed.
Definition demo_meta : CacheMeta := published_meta (demo_fp [97]) (demo_bin 4 1) 10 false.
Lemma demo_entry : demo_two !! digest (demo_fp [97]) = Some (published_entry (demo_fp [97]) (demo_bin 4 1) 10 false).
Proof. vm_compute. reflexivity. Qed.
Definition demo_gets : gmap nat (BuildFingerprint * GetPhase) :=
  <[0%nat := (demo_fp [97], Get_verified demo_meta (demo_bin 4 1))]>
    (<[0%nat := (demo_fp [97], Get_read demo_meta)]> (<[0%nat := (demo_fp [97], Get_found)]> ∅)).
Lemma demo_verified : cache_reachable 10 (demo_system demo_gets).
Proof.
  unfold cache_reachable. etransitivity; [exact demo_reachable|]. eapply rtc_l.
  { apply (Step_get_found 10 demo_two ∅ demo_log 0 (demo_fp [97])); [done|]. unfold get_found. by rewrite demo_entry. }
  eapply rtc_l.
  { eapply (Step_get_read 10 demo_two _ demo_log 0 (demo_fp [97]) demo_meta); [apply lookup_insert_eq|].
    unfold get_read. by rewrite demo_entry. }
  eapply rtc_once, (Step_get_verified 10 demo_two _ demo_log 0 (demo_fp [97]) demo_meta io_ok);
    [apply lookup_insert_eq | | apply demo_entry | done].
  unfold get_verified, sha256_entry. rewrite demo_entry. by apply bool_decide_eq_true.
Qed.
Lemma demo_named : named demo_two.
Proof.
  pose proof (@cache_reachable_ok plain_digest map_listing 10 plain_hex (demo_system ∅) demo_reachable) as [Hr _].
  unfold demo_system in Hr. cbn [cy_root cy_published] in Hr. by apply root_ok_named in Hr.
Qed.
Lemma sizes_okb es : forallb (fun e => 0 <=? md_size_bytes e) es = true -> sizes_ok es.
Proof. intros Hb. apply Forall_forall. intros e Hin%list_elem_of_In. rewrite forallb_forall in Hb. by apply Z.leb_le, Hb. Qed.
Lemma demo_sizes : sizes_ok (scan_entries io_ok demo_two).
Proof. apply sizes_okb. vm_compute. reflexivity. Qed.
Lemma demo_sum : (sum_bytes (scan_entries io_ok demo_two) <=? U64_MAX) = true.
Proof. vm_compute. reflexivity. Qed.
(** With room for one entry of the two, the older one goes. *)
Lemma eviction_exact_witness :
  evicts_lru 5 [] demo_two (evict_locked io_ok 5 [] demo_two)
  /\ map md_digest (scan_entries io_ok (evict_locked io_ok 5 [] demo_two)) = [digest (demo_fp [98])].
Proof. split; [|vm_compute; reflexivity]. exact (eviction_exact demo_two 5 [] demo_named demo_sizes (proj1 (Z.leb_le _ _) demo_sum)). Defined.
Lemma publish_then_get_witness :
  let '(res, r') := cache_publish io_ok 5 (demo_fp [99]) (Some (demo_bin 4 3)) 40 true demo_two in
  res = Ok (97 :: demo_bin 4 3) /\ is_Some (get io_ok (demo_fp [99]) 50 r').1.
Proof.
  destruct (cache_publish io_ok 5 (demo_fp [99]) (Some (demo_bin 4 3)) 40 true demo_two) as [res r'] eqn:E.
  pose proof (publish_then_get 5 (demo_fp [99]) (demo_bin 4 3) 40 50 true demo_two demo_named) as Hp.
  rewrite E in Hp. destruct Hp as (Hres & _ & Hget & _). rewrite Hget. split; [exact Hres | eauto].
Defined.
Lemma hits_are_published_builds_witness :
  sha256_collision \/ exists fp0, (fp0, demo_bin 4 1) ∈ demo_log /\ same_build fp0 (demo_fp [97])
    /\ 97 :: demo_bin 4 1 = 97 :: demo_bin 4 1 /\ digest (demo_fp [97]) = digest fp0.
Proof.
  exact (@hits_are_published_builds plain_digest map_listing 10 plain_hex plain_text _ 0%nat (demo_fp [97]) demo_meta
           (demo_bin 4 1) demo_verified (lookup_insert_eq _ _ _)).
Defined.
End Demo.
