(* ===== verification/GithubEvents.v ===== *)
(** * Events of GitHub

    crates/sbgh-github/src/command.rs, the commands of pull-request comments, and
    webhook.rs, the payloads of webhooks as the processor reads them; and
    [TriggerMatchSpec] of crates/sbgh-core/src/models.rs with the two matchers of
    crates/sbgh-daemon/src/webhook_processor.rs.  A payload is read by field name, as
    serde reads an object; GitHub sends objects only. *)
From stdpp Require Import base list strings gmap.
From Stdlib Require Import ZArith Lia.
From S2P Require Import Prelude RustStr Json FleetModel Workload.

Local Open Scope Z_scope.

(** ** Commands *)
Definition PREFIX : rstr := lit "/benchmark".
Record Command := { co_subcommand : option rstr; co_args : list rstr }.
Definition is_valid_token (s : rstr) : bool :=
  negb (is_empty s) && forallb (fun c => Char.is_ascii_alphanumeric c || (c =? 45) || (c =? 95)) s.
(** Besides, one of [= . : / ,]. *)
Definition is_valid_arg (s : rstr) : bool :=
  negb (is_empty s)
  && forallb (fun c => Char.is_ascii_alphanumeric c || (c =? 45) || (c =? 95) || (c =? 61) || (c =? 46)
                       || (c =? 58) || (c =? 47) || (c =? 44)) s.
Inductive CommandError := Invalid_subcommand (s : rstr) | Invalid_argument (s : rstr).
Definition trim_end (s : rstr) : rstr := trim_end_matches Char.is_whitespace s.
Definition command_of_tokens (tokens : list rstr) : result (option Command) CommandError :=
  let subcommand := head tokens in
  let args := tail tokens in
  match subcommand with
  | Some sub =>
      ensure (is_valid_token sub) (Invalid_subcommand sub) ;?
      match List.find (fun a => negb (is_valid_arg a)) args with
      | Some a => Err (Invalid_argument a)
      | None => Ok (Some {| co_subcommand := subcommand; co_args := args |})
      end
  | None => Ok (Some {| co_subcommand := None; co_args := [] |})
  end.
Definition parse_command (body : rstr) : result (option Command) CommandError :=
  match head (lines body) with
  | None => Ok None
  | Some first_line =>
      match strip_prefix PREFIX (trim_end first_line) with
      | None => Ok None
      | Some [] => command_of_tokens []
      | Some (c :: rest) =>
          if Char.is_whitespace c then command_of_tokens (split_whitespace (c :: rest)) else Ok None
      end
  end.
Inductive IssueTaskCommand := Itc_Benchmark (cmd : Command) | Itc_BlockValidation.
Definition parse_issue_task_command (body : rstr) : option (option IssueTaskCommand) :=
  if rstr_eqb (trim body) (lit "/validate") then Some (Some Itc_BlockValidation)
  else match parse_command body with Ok c => Some (Itc_Benchmark <$> c) | Err _ => None end.

(** ** Payloads *)
Record GhUser := { us_id : Z; us_login : rstr; us_account_type : rstr }.
Record InstallationRepository := { ir_id : Z; ir_full_name : rstr }.
Record IssueCommentEvent := {
  ice_comment_id : Z;
  ice_body : rstr;
  ice_number : Z;
  ice_is_pull_request : bool;
  ice_repository : rstr;
  ice_sender : GhUser;
  ice_installation : Z
}.
Record InstallationEvent := {
  ie_action : rstr;
  ie_installation : Z;
  ie_account : GhUser;
  ie_repositories : list InstallationRepository
}.
Record InstallationRepositoriesEvent := {
  ire_action : rstr;
  ire_installation : Z;
  ire_repositories_added : list InstallationRepository;
  ire_repositories_removed : list InstallationRepository
}.
Record PullRequestBranchRef := {
  br_branch : rstr;
  br_sha : rstr;
  br_repo : option InstallationRepository
}.
Record PullRequestEvent := {
  pe_action : rstr;
  pe_installation : Z;
  pe_number : Z;
  pe_head : PullRequestBranchRef;
  pe_base : PullRequestBranchRef;
  pe_user : GhUser;
  pe_title : rstr;
  pe_base_changed : bool
}.
Record PushCommit := { pc_id : rstr; pc_timestamp : Z }.
Record PushEvent := {
  pu_ref : rstr;
  pu_installation : Z;
  pu_repository : InstallationRepository;
  pu_head_commit : option PushCommit
}.
Record CreateEvent := {
  ce_ref : rstr;
  ce_ref_type : rstr;
  ce_installation : Z;
  ce_repository : InstallationRepository
}.

Definition user_of_value (v : Value) : option GhUser :=
  id ← field "id" value_as_i64 v; login ← field "login" as_str v; t ← field "type" as_str v;
  Some {| us_id := id; us_login := login; us_account_type := t |}.
Definition installation_of_value (v : Value) : option Z := field "id" value_as_i64 v.
(** [InstallationRepository] and [PullRequestRepo]. *)
Definition repository_of_value (v : Value) : option InstallationRepository :=
  id ← field "id" value_as_i64 v; name ← field "full_name" as_str v;
  Some {| ir_id := id; ir_full_name := name |}.
Definition repositories_of_value (v : Value) : option (list InstallationRepository) :=
  match v with VArray vs => mapM repository_of_value vs | _ => None end.
Definition issue_comment_of_value (v : Value) : option IssueCommentEvent :=
  _ ← field "action" as_str v;
  comment ← value_get "comment" v;
  comment_id ← field "id" value_as_i64 comment; body ← field "body" as_str comment;
  _ ← field "user" user_of_value comment; _ ← field "author_association" as_str comment;
  issue ← value_get "issue" v;
  number ← field "number" value_as_i64 issue;
  pull_request ← optional_field "pull_request" (field "url" as_str) issue;
  repository ← field "repository" (field "full_name" as_str) v;
  sender ← field "sender" user_of_value v;
  installation ← field "installation" installation_of_value v;
  Some {| ice_comment_id := comment_id; ice_body := body; ice_number := number;
          ice_is_pull_request := match pull_request with Some _ => true | None => false end;
          ice_repository := repository; ice_sender := sender; ice_installation := installation |}.
Definition installation_details_of_value (v : Value) : option (Z * GhUser) :=
  id ← installation_of_value v; account ← field "account" user_of_value v; Some (id, account).
Definition installation_event_of_value (v : Value) : option InstallationEvent :=
  action ← field "action" as_str v;
  details ← field "installation" installation_details_of_value v;
  repositories ← default_field "repositories" repositories_of_value [] v;
  Some {| ie_action := action; ie_installation := details.1; ie_account := details.2;
          ie_repositories := repositories |}.
Definition installation_repositories_of_value (v : Value) : option InstallationRepositoriesEvent :=
  action ← field "action" as_str v;
  details ← field "installation" installation_details_of_value v;
  added ← default_field "repositories_added" repositories_of_value [] v;
  removed ← default_field "repositories_removed" repositories_of_value [] v;
  Some {| ire_action := action; ire_installation := details.1; ire_repositories_added := added;
          ire_repositories_removed := removed |}.
Definition branch_ref_of_value (v : Value) : option PullRequestBranchRef :=
  branch ← field "ref" as_str v; sha ← field "sha" as_str v;
  repo ← optional_field "repo" repository_of_value v;
  Some {| br_branch := branch; br_sha := sha; br_repo := repo |}.
Definition pull_request_event_of_value (v : Value) : option PullRequestEvent :=
  action ← field "action" as_str v;
  installation ← field "installation" installation_of_value v;
  _ ← field "repository" repository_of_value v;
  pr ← value_get "pull_request" v;
  number ← field "number" value_as_i64 pr;
  head ← field "head" branch_ref_of_value pr; base ← field "base" branch_ref_of_value pr;
  user ← field "user" user_of_value pr; title ← field "title" as_str pr;
  changes ← optional_field "changes" (optional_field "base" (@Some Value)) v;
  Some {| pe_action := action; pe_installation := installation; pe_number := number; pe_head := head;
          pe_base := base; pe_user := user; pe_title := title;
          pe_base_changed := match changes with Some (Some _) => true | _ => false end |}.
Definition create_event_of_value (v : Value) : option CreateEvent :=
  ref ← field "ref" as_str v; ref_type ← field "ref_type" as_str v;
  installation ← field "installation" installation_of_value v;
  repository ← field "repository" repository_of_value v;
  Some {| ce_ref := ref; ce_ref_type := ref_type; ce_installation := installation; ce_repository := repository |}.

(** What the processor uses of other crates: chrono's parser of RFC 3339 times and
    the regular expressions of the crate regex, the error of a malformed one included, and
    serde's error text. *)
Class EventEnv := {
  parse_datetime : rstr -> option Z;
  regex_is_match : rstr -> rstr -> result bool rstr;
  serde_text : rstr
}.
Section Events.
Context `{EventEnv}.
Definition commit_of_value (v : Value) : option PushCommit :=
  id ← field "id" as_str v; t ← field "timestamp" as_str v; at_ ← parse_datetime t;
  Some {| pc_id := id; pc_timestamp := at_ |}.
Definition push_event_of_value (v : Value) : option PushEvent :=
  ref ← field "ref" as_str v;
  installation ← field "installation" installation_of_value v;
  repository ← field "repository" repository_of_value v;
  head_commit ← optional_field "head_commit" commit_of_value v;
  Some {| pu_ref := ref; pu_installation := installation; pu_repository := repository;
          pu_head_commit := head_commit |}.

(** ** Triggers *)
Inductive TriggerMatchSpec :=
| Match_BranchPush (branch_name : rstr) | Match_BranchPrefix (prefix : rstr) | Match_TagCreated (tag_pattern : rstr).
Definition match_spec_of_value (v : Value) : option TriggerMatchSpec :=
  kind ← field "kind" as_str v;
  if rstr_eqb kind (lit "branch_push") then Match_BranchPush <$> field "branch_name" as_str v
  else if rstr_eqb kind (lit "branch_prefix") then Match_BranchPrefix <$> field "prefix" as_str v
  else if rstr_eqb kind (lit "tag_created") then Match_TagCreated <$> field "tag_pattern" as_str v
  else None.
Definition matches_branch_push (spec : Value) (branch : rstr) : bool :=
  match match_spec_of_value spec with
  | Some (Match_BranchPush name) => rstr_eqb name branch
  | Some (Match_BranchPrefix prefix) => starts_with prefix branch
  | _ => false
  end.
(** A malformed specification or pattern is skipped by the caller. *)
Definition matches_tag_created (spec : Value) (tag : rstr) : option bool :=
  match match_spec_of_value spec with
  | Some (Match_TagCreated pattern) => match regex_is_match pattern tag with Ok b => Some b | Err _ => None end
  | Some _ => Some false
  | None => None
  end.
End Events.

(** ** Parsing inverts rendering *)
Definition command_tokens (cmd : Command) : list rstr :=
  match co_subcommand cmd with Some s => s :: co_args cmd | None => [] end.
Definition render (cmd : Command) : rstr := PREFIX ++ List.concat (map (cons 32) (command_tokens cmd)).
Definition command_ok (cmd : Command) : Prop :=
  match co_subcommand cmd with
  | Some s => is_valid_token s = true /\ Forall (fun a => is_valid_arg a = true) (co_args cmd)
  | None => co_args cmd = []
  end.
Section Rendering.
#[local] Arguments lit _ : simpl never.
Definition solid (t : rstr) : Prop := t <> [] /\ Forall (fun c => Char.is_whitespace c = false) t.
Definition ends_solid (s : rstr) : Prop := exists a c, s = a ++ [c] /\ Char.is_whitespace c = false.

Lemma token_char_solid c :
  Char.is_ascii_alphanumeric c || (c =? 45) || (c =? 95) || (c =? 61) || (c =? 46)
    || (c =? 58) || (c =? 47) || (c =? 44) = true -> Char.is_whitespace c = false.
Proof.
  intros Hc. assert (Hr : 44 <= c <= 122).
  { unfold Char.is_ascii_alphanumeric, Char.is_ascii_alphabetic, Char.is_ascii_lowercase, Char.is_ascii_uppercase,
      Char.is_ascii_digit, Char.between in Hc.
    repeat rewrite orb_true_iff in Hc. repeat rewrite andb_true_iff in Hc.
    repeat rewrite Z.leb_le in Hc. repeat rewrite Z.eqb_eq in Hc. lia. }
  apply not_true_iff_false. unfold Char.is_whitespace, Char.between. intros Hw.
  repeat rewrite orb_true_iff in Hw. repeat rewrite andb_true_iff in Hw.
  repeat rewrite Z.leb_le in Hw. repeat rewrite Z.eqb_eq in Hw. lia.
Qed.
Lemma valid_arg_solid s : is_valid_arg s = true -> solid s.
Proof.
  unfold is_valid_arg. intros [Hne Hall]%andb_true_iff. split; [by destruct s|].
  rewrite forallb_forall in Hall. apply Forall_forall. intros c Hc%list_elem_of_In.
  by apply token_char_solid, Hall.
Qed.
Lemma valid_token_solid s : is_valid_token s = true -> solid s.
Proof.
  intros Ht. apply valid_arg_solid. unfold is_valid_token, is_valid_arg in *.
  apply andb_true_iff in Ht as [-> Hall]. apply forallb_forall. rewrite forallb_forall in Hall. intros c Hc.
  by rewrite (Hall c Hc).
Qed.
Lemma command_tokens_solid cmd : command_ok cmd -> Forall solid (command_tokens cmd).
Proof.
  unfold command_ok, command_tokens. destruct (co_subcommand cmd) as [s|]; [|by constructor].
  intros [Hs Ha]. constructor; [by apply valid_token_solid|].
  eapply Forall_impl; [exact Ha|]. apply valid_arg_solid.
Qed.

Lemma split_solid p t r c :
  Forall (fun c => p c = false) t -> p c = true -> split p (t ++ c :: r) = t :: split p r.
Proof.
  intros Ht Hc. induction Ht as [|x t Hx Ht IH]; simpl; [by rewrite Hc|]. by rewrite Hx, IH.
Qed.
Lemma split_all_solid p t : Forall (fun c => p c = false) t -> split p t = [t].
Proof. induction 1 as [|x t Hx Ht IH]; simpl; [done|]. by rewrite Hx, IH. Qed.
Lemma split_words ts : forall t, Forall solid ts -> Forall (fun c => Char.is_whitespace c = false) t ->
  split Char.is_whitespace (t ++ List.concat (map (cons 32) ts)) = t :: ts.
Proof.
  induction ts as [|u ts IH]; intros t Hts Ht; simpl.
  - rewrite app_nil_r. by apply split_all_solid.
  - apply Forall_cons in Hts as [[_ Hu] Hts]. rewrite split_solid by done. by rewrite IH.
Qed.
Lemma words_of_render ts : Forall solid ts -> split_whitespace (List.concat (map (cons 32) ts)) = ts.
Proof.
  intros Hts. unfold split_whitespace. pose proof (split_words ts [] Hts (Forall_nil_2 _)) as Hs. simpl in Hs. rewrite Hs. simpl. clear Hs.
  induction Hts as [|t ts [Ht _] Hts IH]; simpl; [done|]. destruct t; [done|]. simpl. by rewrite IH.
Qed.
Lemma render_ends_solid ts : forall s, ends_solid s -> Forall solid ts ->
  ends_solid (s ++ List.concat (map (cons 32) ts)).
Proof.
  induction ts as [|t ts IH]; intros s Hs Hts; simpl; [by rewrite app_nil_r|].
  apply Forall_cons in Hts as [[Hne Ht] Hts].
  replace (s ++ 32 :: t ++ List.concat (map (cons 32) ts)) with ((s ++ 32 :: t) ++ List.concat (map (cons 32) ts))
    by by rewrite <- app_assoc.
  apply IH; [|done]. destruct t as [|c t _] using rev_ind; [done|].
  exists (s ++ 32 :: t), c. split; [by rewrite <- app_assoc|]. by apply Forall_app in Ht as [_ [? _]%Forall_cons].
Qed.
Lemma trim_end_solid s : ends_solid s -> trim_end s = s.
Proof.
  intros (a & c & -> & Hc). unfold trim_end, trim_end_matches. rewrite rev_unit. simpl. rewrite Hc. simpl.
  by rewrite rev_involutive.
Qed.
Lemma no_carriage_return s : ends_solid s -> strip_suffix [13] s = None.
Proof.
  intros (a & c & -> & Hc). unfold strip_suffix. rewrite rev_unit. change (rev [13]) with [13]. cbn [strip_prefix].
  destruct (Z.eqb_spec 13 c) as [<-|]; [by vm_compute in Hc|done].
Qed.
(** The first line of a text. *)
Lemma first_line x rest :
  ends_solid x -> Forall (fun c => c <> 10) x -> (rest = [] \/ exists t, rest = 10 :: t) ->
  head (lines (x ++ rest)) = Some x.
Proof.
  intros Hx Hn Hrest. pose proof (no_carriage_return x Hx) as Hcr.
  assert (Hne : x <> []) by (destruct Hx as (a & c & -> & _); by destruct a).
  assert (Hn' : Forall (fun c => (10 =? c) = false) x)
    by (eapply Forall_impl; [exact Hn|]; intros c Hc; apply Z.eqb_neq; congruence).
  unfold lines, split_char. destruct Hrest as [->|[t ->]].
  - rewrite app_nil_r, split_all_solid by done. simpl. destruct x; [done|]. cbv zeta. simpl map.
    cbn [head]. f_equal. by rewrite Hcr.
  - rewrite split_solid by done. pose proof (split_nonempty (Z.eqb 10) t) as Hs.
    destruct (split (Z.eqb 10) t) as [|q qs _] using rev_ind; [done|].
    cbn [List.rev]. rewrite rev_unit. cbn [app]. destruct q as [|c q].
    + rewrite rev_app_distr. cbn. rewrite Hcr. done.
    + cbn. by rewrite Hcr.
Qed.
Lemma strip_own_prefix p r : strip_prefix p (p ++ r) = Some r.
Proof. by apply strip_prefix_Some. Qed.
Lemma token_command cmd : command_ok cmd -> command_of_tokens (command_tokens cmd) = Ok (Some cmd).
Proof.
  unfold command_ok, command_tokens, command_of_tokens. destruct cmd as [[s|] args]; simpl; [|by intros ->].
  intros [-> Ha]. simpl. assert (Hnone : List.find (fun a => negb (is_valid_arg a)) args = None).
  { induction Ha as [|a args Ha _ IH]; simpl; [done|]. by rewrite Ha. }
  by rewrite Hnone.
Qed.

(** C40: A rendered command is read back from the first line of a comment, whatever follows
    it, and a comment that is read as a command gives one whose subcommand and arguments
    consist of the permitted characters, so that rendering and reading it again gives
    the same command. *)
Theorem parse_command_roundtrip :
  (forall cmd rest, command_ok cmd -> (rest = [] \/ exists t, rest = 10 :: t) ->
     parse_command (render cmd ++ rest) = Ok (Some cmd))
  /\ (forall body cmd, parse_command body = Ok (Some cmd) ->
        command_ok cmd /\ parse_command (render cmd) = Ok (Some cmd)).
Proof.
  assert (Hrt : forall cmd rest, command_ok cmd -> (rest = [] \/ exists t, rest = 10 :: t) ->
     parse_command (render cmd ++ rest) = Ok (Some cmd)).
  { intros cmd rest Hok Hrest. pose proof (command_tokens_solid cmd Hok) as Hts.
    assert (Hend : ends_solid (render cmd)).
    { apply render_ends_solid; [|done]. by exists (lit "/benchmar"), 107. }
    unfold parse_command. rewrite first_line; [|done| |done].
    - rewrite trim_end_solid by done. unfold render. rewrite strip_own_prefix.
      destruct (command_tokens cmd) as [|t ts] eqn:Et.
      + simpl. rewrite <- (token_command cmd Hok). by rewrite Et.
      + simpl. change (32 :: t ++ List.concat (map (cons 32) ts)) with (List.concat (map (cons 32) (t :: ts))).
        rewrite words_of_render by done. rewrite <- Et. by apply token_command.
    - unfold render. apply Forall_app. split; [by repeat (constructor; [by intros [=]|])|].
      clear -Hts. induction Hts as [|t ts [_ Ht] Hts IH]; simpl; [constructor|]. constructor; [lia|].
      apply Forall_app. split; [|done]. eapply Forall_impl; [exact Ht|]. intros c Hc ->. by vm_compute in Hc. }
  split; [done|]. intros body cmd Hp.
  assert (Hok : command_ok cmd).
  { assert (Ht : exists ts, command_of_tokens ts = Ok (Some cmd)).
    { unfold parse_command in Hp. repeat case_match; try done; eauto. }
    destruct Ht as [ts Ht]. unfold command_of_tokens in Ht. destruct ts as [|s args]; simpl in Ht; [by injection Ht as <-|].
    destruct (is_valid_token s) eqn:Es; [|done]. simpl in Ht.
    destruct (List.find _ args) eqn:Ef; [done|]. injection Ht as <-. split; [done|]. simpl.
    apply Forall_forall. intros a Ha%list_elem_of_In. apply (find_none _ _ Ef) in Ha. by destruct (is_valid_arg a). }
  split; [done|]. rewrite <- (app_nil_r (render cmd)). apply Hrt; [done|by left].
Qed.
End Rendering.
