(* ===== verification/WebhookHandlers.v ===== *)
(** * The webhook handlers

    The classifier of crates/sbgh-daemon/src/webhook_processor.rs and its six handlers, as
    programs over the calls they make of the stores (PolicyDb, SubmissionStore) and of
    GitHub, with the block-validation queue of fleet/github_queue.rs.  A program is a tree:
    a call, then what is done with its answer.  The handlers run in the daemon as wired in
    crates/sbgh-daemon/src/lib.rs. *)
From stdpp Require Import base list strings gmap.
From Stdlib Require Import ZArith Lia.
From S2P Require Import Prelude RustStr Json FleetModel FleetDb Validate Workload Intent Submission SubmissionStore RunChain Preparation SlackIntake PolicyDb WebhookInbox GithubEvents.

Local Open Scope Z_scope.

(** ** GitHub's answers (api.rs) *)
Record RepoRef := { rf_id : Z; rf_owner : rstr; rf_name : rstr }.
Record RepoSummary := {
  rsm_ref : RepoRef;
  rsm_default_branch : option rstr;
  rsm_is_fork : bool;
  rsm_parent : option RepoRef;
  rsm_source : option RepoRef
}.
Record PullRequestSide := { sd_repo : RepoRef; sd_sha : rstr; sd_branch : rstr }.
Record PullRequestAuthor := { pa_id : Z; pa_login : rstr; pa_account_type : GithubAccountType }.
Record PullRequestSummary := {
  prs_number : Z;
  prs_head : PullRequestSide;
  prs_base : PullRequestSide;
  prs_title : rstr;
  prs_author : PullRequestAuthor
}.

(** ** Calls and programs *)
Inductive Call : Type -> Type :=
| Q_lookup_allowed (account : Z) : Call (option AllowedInstaller)
| Q_upsert_installation (id account : Z) (login : rstr) (t : GithubAccountType) : Call GithubInstallation
| Q_set_suspended (id : Z) (at_ : option Z) : Call (option GithubInstallation)
| Q_delete_installation (id : Z) : Call (bool * Z)
| Q_add_or_restore_membership (installation repo : Z) : Call (option GithubInstallationRepo)
| Q_is_membership_active (installation repo : Z) : Call bool
| Q_revoke_membership (installation repo : Z) : Call (option GithubInstallationRepo)
| Q_upsert_repo_identity (r : NewRepoIdentity) : Call GithubRepo
| Q_upsert_repo_lineage (l : NewRepoLineage) : Call GithubRepo
| Q_is_supported_lineage (repo : Z) : Call bool
| Q_lookup_target_policy (installation repo : Z) : Call (option bool)
| Q_lookup_source_policy (installation repo : Z) : Call (option bool)
| Q_list_enabled_triggers (installation repo : Z) (kind : TriggerKind) : Call (list (Z * TriggerPolicy))
| Q_disable_target_and_triggers (installation repo : Z) : Call unit
| Q_upsert_user (id : Z) (login : rstr) (t : GithubAccountType) : Call unit
| Q_has_role (user installation repo : Z) (role : UserRole) : Call bool
| Q_revoke_repo_scoped_grants (installation repo : Z) : Call unit
| Q_upsert_pull_request (target source number : Z) (title : rstr) (author : Z) : Call (Z * GithubPullRequest)
| Q_set_closed_at (target number : Z) (at_now : bool) : Call unit
| Q_find_active_job (repo : Z) (commit : rstr) (source : JobSource) (key : rstr) : Call (option Uuid)
| Q_persist (p : PreparedSubmission) : Call SubmissionReceipt
| Q_get_pull_request (installation : Z) (repository : rstr) (number : Z) : Call PullRequestSummary
| Q_get_repository (installation : Z) (owner name : rstr) : Call RepoSummary
| Q_resolve_commit (installation : Z) (repository ref : rstr) : Call ResolvedCommit.
(** Every call may fail, with an error's text. *)
Inductive prog (A : Type) : Type :=
| Ret (a : A)
| Do {R : Type} (c : Call R) (k : result R rstr -> prog A)
| Panic.
Arguments Ret {A} a.
Arguments Do {A R} c k.
Arguments Panic {A}.
Fixpoint bind {A B} (p : prog A) (f : A -> prog B) : prog B :=
  match p with
  | Ret a => f a
  | Do c k => Do c (fun r => bind (k r) f)
  | Panic => Panic
  end.
Notation "x <- p ;; q" := (bind p (fun x => q)) (at level 100, p at next level, right associativity).
(** A call whose error ends the handler with a retry. *)
Definition retryable (label e : rstr) : ClassifyOutcome := Classify_Retryable (label ++ lit ": " ++ e).
Definition attempt {R} (label : rstr) (c : Call R) (k : R -> prog ClassifyOutcome) : prog ClassifyOutcome :=
  Do c (fun r => match r with Ok x => k x | Err e => Ret (retryable label e) end).
Notation "x <?- c 'or' l ;; q" := (attempt l c (fun x => q)) (at level 100, c at next level, l at next level, right associativity).
Definition terminal (o : WebhookOutcome) : prog ClassifyOutcome := Ret (Classify_Terminal o).

Record HandlerConfig := {
  hc_default_args : rstr;
  hc_block_validation : option BlockValidationTaskConfig
}.

(** ** Shared steps *)
Definition parse_account_type (s : rstr) : option GithubAccountType :=
  if rstr_eqb s (lit "User") then Some Acct_User
  else if rstr_eqb s (lit "Organization") then Some Acct_Organization
  else if rstr_eqb s (lit "Bot") then Some Acct_Bot
  else None.
Definition split_full_name (s : rstr) : option (rstr * rstr) := split_once (lit "/") s.
Definition repo_ref_to_identity (r : RepoRef) : NewRepoIdentity :=
  {| ri_id := rf_id r; ri_owner := rf_owner r; ri_name := rf_name r; ri_default_branch := None |}.
Definition lineage_from_summary (s : RepoSummary) : NewRepoLineage :=
  {| rl_repo := {| ri_id := rf_id (rsm_ref s); ri_owner := rf_owner (rsm_ref s); ri_name := rf_name (rsm_ref s);
                   ri_default_branch := rsm_default_branch s |};
     rl_is_fork := rsm_is_fork s; rl_parent := repo_ref_to_identity <$> rsm_parent s;
     rl_source := repo_ref_to_identity <$> rsm_source s |}.
Definition as_u64 (z : Z) : Z := z mod 2 ^ 64.
Definition full_name_of (owner name : rstr) : rstr := owner ++ lit "/" ++ name.

Inductive PolicyEvaluation := Pol_Accepted | Pol_DeniedTarget | Pol_DeniedSource | Pol_Retryable (message : rstr).
Definition evaluate_pr_policies (install_id base_repo_id source_repo_id : Z) : prog PolicyEvaluation :=
  Do (Q_is_membership_active install_id base_repo_id) (fun active =>
  match active with
  | Err e => Ret (Pol_Retryable (lit "is_membership_active: " ++ e))
  | Ok false => Ret Pol_DeniedTarget
  | Ok true =>
      Do (Q_lookup_target_policy install_id base_repo_id) (fun target =>
      match target with
      | Err e => Ret (Pol_Retryable (lit "lookup_target_policy: " ++ e))
      | Ok (Some true) =>
          Do (Q_lookup_source_policy install_id source_repo_id) (fun source =>
          match source with
          | Err e => Ret (Pol_Retryable (lit "lookup_source_policy: " ++ e))
          | Ok (Some true) => Ret Pol_Accepted
          | Ok _ => Ret Pol_DeniedSource
          end)
      | Ok _ => Ret Pol_DeniedTarget
      end)
  end).
(** The row of a pull request, or the outcome that ends the handler. *)
Definition materialise_pull_request (base head : RepoRef) (pr_number : Z) (title : rstr)
    (author : PullRequestAuthor) : prog (result (Z * GithubPullRequest) ClassifyOutcome) :=
  let failed label e := Ret (Err (retryable (lit label) e)) in
  Do (Q_upsert_repo_identity (repo_ref_to_identity base)) (fun r =>
  match r with
  | Err e => failed "upsert_repo_identity(base)" e
  | Ok _ =>
      Do (Q_upsert_repo_identity (repo_ref_to_identity head)) (fun r =>
      match r with
      | Err e => failed "upsert_repo_identity(head)" e
      | Ok _ =>
          Do (Q_upsert_user (pa_id author) (pa_login author) (pa_account_type author)) (fun r =>
          match r with
          | Err e => failed "upsert_user(pr_author)" e
          | Ok _ =>
              Do (Q_upsert_pull_request (rf_id base) (rf_id head) pr_number title (pa_id author)) (fun r =>
              match r with
              | Err e => failed "upsert_pull_request" e
              | Ok row => Ret (Ok row)
              end)
          end)
      end)
  end).
Inductive RepoMembershipOutcome :=
| Rm_Added | Rm_UnsupportedLineage | Rm_IdMismatch | Rm_MalformedFullName | Rm_InstallationNotActive
| Rm_Retryable (message : rstr).
Definition materialise_repo_membership (install_id : Z) (payload_repo : InstallationRepository)
  : prog RepoMembershipOutcome :=
  match split_full_name (ir_full_name payload_repo) with
  | None => Ret Rm_MalformedFullName
  | Some (owner, name) =>
      Do (Q_get_repository install_id owner name) (fun r =>
      match r with
      | Err e => Ret (Rm_Retryable (lit "get_repository(" ++ full_name_of owner name ++ lit "): " ++ e))
      | Ok summary =>
          if negb (rf_id (rsm_ref summary) =? ir_id payload_repo) then Ret Rm_IdMismatch
          else
            Do (Q_upsert_repo_lineage (lineage_from_summary summary)) (fun r =>
            match r with
            | Err e => Ret (Rm_Retryable (lit "upsert_repo_lineage(" ++ full_name_of owner name ++ lit "): " ++ e))
            | Ok _ =>
                Do (Q_is_supported_lineage (rf_id (rsm_ref summary))) (fun r =>
                match r with
                | Err e => Ret (Rm_Retryable (lit "is_supported_lineage(" ++ show_i64 (rf_id (rsm_ref summary))
                                              ++ lit "): " ++ e))
                | Ok false => Ret Rm_UnsupportedLineage
                | Ok true =>
                    Do (Q_add_or_restore_membership install_id (rf_id (rsm_ref summary))) (fun r =>
                    match r with
                    | Ok (Some _) => Ret Rm_Added
                    | Ok None => Ret Rm_InstallationNotActive
                    | Err e => Ret (Rm_Retryable (lit "add_or_restore_membership(" ++ show_i64 install_id ++ lit ", "
                                                  ++ show_i64 (rf_id (rsm_ref summary)) ++ lit "): " ++ e))
                    end)
                end)
            end)
      end)
  end.

Section Handlers.
Context `{DigestEnv} `{EventEnv}.

(** ** Submitting *)
(** [SubmissionError]'s [Display]. *)
Definition submission_error_display (e : SubmissionError) : rstr :=
  match e with
  | Sub_Invalid m => lit "invalid submission: " ++ m
  | Sub_Conflict namespace key => lit "submission idempotency conflict for " ++ namespace ++ lit ":" ++ key
  | Sub_Persistence m => m
  end.
Definition submit {A} (cmd : SubmissionCommand) (k : result SubmissionReceipt rstr -> prog A) : prog A :=
  match prepare serde_text cmd with
  | Err e => k (Err (submission_error_display e))
  | Ok p => Do (Q_persist p) k
  end.
Definition github_producer_key (webhook_id : Z) : ProducerKey :=
  {| pk_namespace := lit "github_webhook"; pk_key := show_i64 webhook_id |}.
Record GithubBenchmarkSubmission := {
  gbs_source : ResolvedTaskSource;
  gbs_webhook_id : Z;
  gbs_triggering_user_id : option Z;
  gbs_pull_request_id : option Z;
  gbs_triggering_comment_id : option Z;
  gbs_queued_event_detail : Value
}.
Definition queued_detail (detail : QueuedEventDetail) (effective_args : list rstr) : Value :=
  object_insert "effective_args" (jstrs effective_args) (to_value detail).
Definition github_command (request : GithubBenchmarkSubmission) : SubmissionCommand :=
  let effective_args := default []
    (value_get "effective_args" (gbs_queued_event_detail request) ≫= value_as_strings) in
  {| cmd_actor := match gbs_triggering_user_id request with
                  | Some user_id => Actor_GithubUser user_id
                  | None => Actor_System
                  end;
     cmd_producer_key := github_producer_key (gbs_webhook_id request);
     cmd_constraints := SchedulingConstraints_default;
     cmd_task := Plan_Benchmark
       {| bpl_variants := [{| bvr_source := gbs_source request; bvr_requested_run_count := 1;
                              bvr_baseline_calibration_id := None |}];
          bpl_effective_args := effective_args |};
     cmd_provenance :=
       {| pv_queued_event_detail := gbs_queued_event_detail request;
          pv_github := Some {| gp_webhook_id := gbs_webhook_id request;
                               gp_triggering_user_id := gbs_triggering_user_id request;
                               gp_pull_request_id := gbs_pull_request_id request;
                               gp_triggering_comment_id := gbs_triggering_comment_id request |};
          pv_slack := None |} |}.
(** The first job of a created submission is logged, by index. *)
Definition enqueue_job (request : GithubBenchmarkSubmission) : prog ClassifyOutcome :=
  submit (github_command request) (fun r =>
    match r with
    | Ok receipt =>
        match sbr_disposition receipt, sbr_initial_job_ids receipt with
        | Disp_Created, [] => Panic
        | _, _ => terminal Wo_EnqueuedJob
        end
    | Err e => Ret (retryable (lit "submit task") e)
    end).
(** fleet/github_queue.rs. *)
Record BlockValidationJobRequest := {
  bvj_installation_id : Z;
  bvj_repo_id : Z;
  bvj_commit : rstr;
  bvj_webhook_id : Z;
  bvj_triggering_user_id : Z;
  bvj_pull_request_id : Z;
  bvj_triggering_comment_id : Z;
  bvj_selection : ValidationSelection
}.
Definition validation_submission (r : BlockValidationJobRequest) (selection : BlockValidationSelection)
  : BlockValidationSubmission :=
  {| bs_source :=
       {| rts_github_installation_id := bvj_installation_id r; rts_github_repo_id := bvj_repo_id r;
          rts_source := Src_GithubComment; rts_intent := Intent_BlockValidation;
          rts_task_kind := Kind_BlockValidation; rts_build_target := Target_StacksInspect;
          rts_git_ref_kind := Ref_Commit; rts_git_ref_display := bvj_commit r; rts_commit := bvj_commit r;
          rts_committed_at := None; rts_workload_key := None |};
     bs_selection := selection; bs_constraints := SchedulingConstraints_default;
     bs_actor := Actor_GithubUser (bvj_triggering_user_id r);
     bs_producer_key := github_producer_key (bvj_webhook_id r);
     bs_provenance :=
       {| pv_queued_event_detail := queued_validation_detail selection;
          pv_github := Some {| gp_webhook_id := bvj_webhook_id r;
                               gp_triggering_user_id := Some (bvj_triggering_user_id r);
                               gp_pull_request_id := Some (bvj_pull_request_id r);
                               gp_triggering_comment_id := Some (bvj_triggering_comment_id r) |};
          pv_slack := None |} |}.
Definition enqueue_validation {A} (policy : BlockValidationTaskConfig) (r : BlockValidationJobRequest)
    (k : result unit rstr -> prog A) : prog A :=
  match resolve_user_selection policy (bvj_selection r) with
  | Err e => k (Err (lit "configuration error: " ++ selection_error_display e))
  | Ok selection =>
      match block_validation_command policy (validation_submission r selection) with
      | Err e => k (Err (submission_error_display e))
      | Ok cmd => submit cmd (fun a => k (match a with Ok _ => Ok tt | Err e => Err e end))
      end
  end.

(** ** issue_comment *)
Definition comment_request (cfg : HandlerConfig) (w : ClaimedWebhook) (event : IssueCommentEvent)
    (pr : PullRequestSummary) (pr_id : Z) (cmd : Command) : GithubBenchmarkSubmission * rstr :=
  let detail := Queued_PrComment (us_id (ice_sender event)) (us_login (ice_sender event)) (ice_comment_id event)
                  (ice_number event) (co_subcommand cmd) (co_args cmd) in
  let resolved := resolve_bench_args (normalize_stored detail) (hc_default_args cfg) in
  ({| gbs_source :=
        {| rts_github_installation_id := ice_installation event; rts_github_repo_id := rf_id (sd_repo (prs_base pr));
           rts_source := Src_GithubComment; rts_intent := Intent_AdhocBenchmark; rts_task_kind := Kind_Benchmark;
           rts_build_target := Target_StacksBench; rts_git_ref_kind := Ref_Branch;
           rts_git_ref_display := sd_branch (prs_head pr); rts_commit := sd_sha (prs_head pr);
           rts_committed_at := None; rts_workload_key := Some (ra_workload_key resolved) |};
      gbs_webhook_id := cw_id w; gbs_triggering_user_id := Some (us_id (ice_sender event));
      gbs_pull_request_id := Some pr_id; gbs_triggering_comment_id := Some (ice_comment_id event);
      gbs_queued_event_detail := queued_detail detail (ra_effective_args resolved) |},
   ra_workload_key resolved).
Definition required_role (c : IssueTaskCommand) : UserRole :=
  match c with Itc_Benchmark _ => Role_TriggerPrBenchmark | Itc_BlockValidation => Role_TriggerBlockValidation end.
Definition validation_request (w : ClaimedWebhook) (event : IssueCommentEvent) (pr : PullRequestSummary) (pr_id : Z)
  : BlockValidationJobRequest :=
  {| bvj_installation_id := ice_installation event; bvj_repo_id := rf_id (sd_repo (prs_base pr));
     bvj_commit := sd_sha (prs_head pr); bvj_webhook_id := cw_id w;
     bvj_triggering_user_id := us_id (ice_sender event); bvj_pull_request_id := pr_id;
     bvj_triggering_comment_id := ice_comment_id event; bvj_selection := Vs_Recent None |}.
(** What follows an accepted policy evaluation. *)
Definition comment_accepted (cfg : HandlerConfig) (w : ClaimedWebhook) (event : IssueCommentEvent)
    (pr : PullRequestSummary) (pr_id : Z) (command : IssueTaskCommand) : prog ClassifyOutcome :=
  match command with
  | Itc_BlockValidation =>
      match hc_block_validation cfg with
      | None => terminal Wo_IgnoredNoCommand
      | Some policy =>
          enqueue_validation policy (validation_request w event pr pr_id) (fun r =>
            match r with
            | Ok _ => terminal Wo_EnqueuedJob
            | Err e => Ret (retryable (lit "enqueue block validation") e)
            end)
      end
  | Itc_Benchmark cmd =>
      let '(request, key) := comment_request cfg w event pr pr_id cmd in
      existing <?- Q_find_active_job (rf_id (sd_repo (prs_base pr))) (sd_sha (prs_head pr)) Src_GithubComment key
        or lit "find_active_job" ;;
      match existing with
      | Some _ => terminal Wo_EnqueuedJob
      | None => enqueue_job request
      end
  end.
Definition policy_outcome (e : PolicyEvaluation) (accepted : prog ClassifyOutcome) : prog ClassifyOutcome :=
  match e with
  | Pol_Accepted => accepted
  | Pol_DeniedTarget => terminal Wo_DeniedTargetPolicy
  | Pol_DeniedSource => terminal Wo_DeniedSourcePolicy
  | Pol_Retryable m => Ret (Classify_Retryable m)
  end.
Definition handle_command (cfg : HandlerConfig) (w : ClaimedWebhook) (event : IssueCommentEvent)
    (command : IssueTaskCommand) : prog ClassifyOutcome :=
  let install_id := ice_installation event in
  let pr_number := as_u64 (ice_number event) in
  pr <?- Q_get_pull_request install_id (ice_repository event) pr_number
    or (lit "get_pull_request(" ++ ice_repository event ++ lit "#" ++ show pr_number ++ lit ")") ;;
  let base := sd_repo (prs_base pr) in
  let head := sd_repo (prs_head pr) in
  row <- materialise_pull_request base head (wrap_i32 (prs_number pr)) (prs_title pr) (prs_author pr) ;;
  match row with
  | Err out => Ret out
  | Ok (pr_id, _) =>
      match parse_account_type (us_account_type (ice_sender event)) with
      | None => terminal Wo_Error
      | Some sender_type =>
          _ <?- Q_upsert_user (us_id (ice_sender event)) (us_login (ice_sender event)) sender_type
            or lit "upsert_user(sender)" ;;
          allowed <?- Q_has_role (us_id (ice_sender event)) install_id (rf_id base) (required_role command)
            or lit "has_role" ;;
          if negb allowed then terminal Wo_DeniedUnauthorized
          else
            evaluation <- evaluate_pr_policies install_id (rf_id base) (rf_id head) ;;
            policy_outcome evaluation (comment_accepted cfg w event pr pr_id command)
      end
  end.
(** The payload of a webhook, or the end of its handler. *)
Definition with_event {E} (read : Value -> option E) (w : ClaimedWebhook) (k : E -> prog ClassifyOutcome)
  : prog ClassifyOutcome :=
  match cw_payload w ≫= read with Some event => k event | None => terminal Wo_Error end.
Definition handle_issue_comment (cfg : HandlerConfig) (w : ClaimedWebhook) : prog ClassifyOutcome :=
  if negb (bool_decide (cw_action w = Some (lit "created"))) then terminal Wo_IgnoredAction
  else with_event issue_comment_of_value w (fun event =>
    if negb (ice_is_pull_request event) then terminal Wo_IgnoredAction
    else match parse_issue_task_command (ice_body event) with
         | None | Some None => terminal Wo_IgnoredNoCommand
         | Some (Some command) => handle_command cfg w event command
         end).

(** ** installation *)
Fixpoint create_memberships (install_id : Z) (repos : list InstallationRepository) : prog ClassifyOutcome :=
  match repos with
  | [] => terminal Wo_ProcessedInstallation
  | repo :: repos =>
      out <- materialise_repo_membership install_id repo ;;
      match out with
      | Rm_Added | Rm_UnsupportedLineage | Rm_IdMismatch | Rm_MalformedFullName => create_memberships install_id repos
      | Rm_InstallationNotActive => terminal Wo_IgnoredUnknownInstallation
      | Rm_Retryable e => Ret (Classify_Retryable e)
      end
  end.
Definition handle_created (event : InstallationEvent) (account_type : GithubAccountType) : prog ClassifyOutcome :=
  allowed <?- Q_lookup_allowed (us_id (ie_account event)) or lit "lookup_allowed" ;;
  match allowed with
  | Some row =>
      if ai_is_enabled row then
        _ <?- Q_upsert_installation (ie_installation event) (us_id (ie_account event)) (us_login (ie_account event)) account_type
          or lit "upsert_installation" ;;
        create_memberships (ie_installation event) (ie_repositories event)
      else terminal Wo_DeniedInstallAllowlist
  | None => terminal Wo_DeniedInstallAllowlist
  end.
Definition handle_set_suspended (installation : Z) (suspended_at : option Z) : prog ClassifyOutcome :=
  row <?- Q_set_suspended installation suspended_at or lit "set_suspended" ;;
  terminal (match row with Some _ => Wo_ProcessedInstallation | None => Wo_IgnoredUnknownInstallation end).
Definition handle_deleted (installation : Z) : prog ClassifyOutcome :=
  out <?- Q_delete_installation installation or lit "delete_installation" ;;
  terminal (if fst out then Wo_ProcessedInstallation else Wo_IgnoredUnknownInstallation).
Definition handle_installation (w : ClaimedWebhook) : prog ClassifyOutcome :=
  with_event installation_event_of_value w (fun event =>
    match parse_account_type (us_account_type (ie_account event)) with
    | None => terminal Wo_Error
    | Some account_type =>
        let action := ie_action event in
        if rstr_eqb action (lit "created") then handle_created event account_type
        else if rstr_eqb action (lit "suspend") then handle_set_suspended (ie_installation event) (Some (cw_received_at w))
        else if rstr_eqb action (lit "unsuspend") then handle_set_suspended (ie_installation event) None
        else if rstr_eqb action (lit "deleted") then handle_deleted (ie_installation event)
        else terminal Wo_IgnoredAction
    end).

(** ** installation_repositories *)
Fixpoint handle_repos_added (install_id : Z) (any_supported any_unsupported : bool)
    (repos : list InstallationRepository) : prog ClassifyOutcome :=
  match repos with
  | [] => terminal (if any_supported then Wo_ProcessedInstallation
                    else if any_unsupported then Wo_IgnoredUnsupportedLineage else Wo_IgnoredAction)
  | repo :: repos =>
      out <- materialise_repo_membership install_id repo ;;
      match out with
      | Rm_Added => handle_repos_added install_id true any_unsupported repos
      | Rm_UnsupportedLineage | Rm_IdMismatch => handle_repos_added install_id any_supported true repos
      | Rm_MalformedFullName => handle_repos_added install_id any_supported any_unsupported repos
      | Rm_InstallationNotActive => terminal Wo_IgnoredUnknownInstallation
      | Rm_Retryable e => Ret (Classify_Retryable e)
      end
  end.
Fixpoint handle_repos_removed (install_id : Z) (any_revoked : bool) (repos : list InstallationRepository)
  : prog ClassifyOutcome :=
  match repos with
  | [] => terminal (if any_revoked then Wo_ProcessedInstallation else Wo_IgnoredAction)
  | repo :: repos =>
      let label (what : string) := lit what ++ lit "(" ++ show_i64 install_id ++ lit ", " ++ show_i64 (ir_id repo) ++ lit ")" in
      _ <?- Q_disable_target_and_triggers install_id (ir_id repo) or label "disable_target_and_triggers" ;;
      _ <?- Q_revoke_repo_scoped_grants install_id (ir_id repo) or label "revoke_repo_scoped_grants" ;;
      row <?- Q_revoke_membership install_id (ir_id repo) or label "revoke_membership" ;;
      handle_repos_removed install_id (match row with Some _ => true | None => any_revoked end) repos
  end.
Definition handle_installation_repositories (w : ClaimedWebhook) : prog ClassifyOutcome :=
  with_event installation_repositories_of_value w (fun event =>
    if rstr_eqb (ire_action event) (lit "added")
    then handle_repos_added (ire_installation event) false false (ire_repositories_added event)
    else if rstr_eqb (ire_action event) (lit "removed")
    then handle_repos_removed (ire_installation event) false (ire_repositories_removed event)
    else terminal Wo_IgnoredAction).

(** ** pull_request *)
Definition side_ref (r : InstallationRepository) : RepoRef :=
  let '(owner, name) := default (ir_full_name r, []) (split_full_name (ir_full_name r)) in
  {| rf_id := ir_id r; rf_owner := owner; rf_name := name |}.
Definition is_action (a : rstr) (names : list string) : bool := existsb (fun n => rstr_eqb a (lit n)) names.
Definition handle_pull_request (w : ClaimedWebhook) : prog ClassifyOutcome :=
  with_event pull_request_event_of_value w (fun event =>
    let action := pe_action event in
    if negb (is_action action ["closed"; "opened"; "reopened"; "synchronize"; "edited"]%string)
    then terminal Wo_IgnoredAction
    else if rstr_eqb action (lit "closed") then
      match br_repo (pe_base event) with
      | None => terminal Wo_IgnoredAction
      | Some base_repo =>
          _ <?- Q_set_closed_at (ir_id base_repo) (wrap_i32 (pe_number event)) true or lit "set_closed_at" ;;
          terminal Wo_IgnoredAction
      end
    else
      match br_repo (pe_base event), br_repo (pe_head event) with
      | Some base_repo, Some head_repo =>
          match parse_account_type (us_account_type (pe_user event)) with
          | None => terminal Wo_Error
          | Some author_type =>
              row <- materialise_pull_request (side_ref base_repo) (side_ref head_repo) (wrap_i32 (pe_number event))
                       (pe_title event)
                       {| pa_id := us_id (pe_user event); pa_login := us_login (pe_user event);
                          pa_account_type := author_type |} ;;
              match row with
              | Err out => Ret out
              | Ok _ =>
                  let evaluate :=
                    evaluation <- evaluate_pr_policies (pe_installation event) (ir_id base_repo) (ir_id head_repo) ;;
                    policy_outcome evaluation (terminal Wo_ProcessedPullRequest) in
                  let after_reopen :=
                    if rstr_eqb action (lit "edited") && negb (pe_base_changed event)
                    then terminal Wo_IgnoredAction else evaluate in
                  if rstr_eqb action (lit "reopened") then
                    _ <?- Q_set_closed_at (ir_id base_repo) (wrap_i32 (pe_number event)) false
                      or lit "set_closed_at(reopened)" ;;
                    after_reopen
                  else after_reopen
              end
          end
      | _, _ => terminal Wo_Error
      end).

(** ** push *)
Definition baseline_request (cfg : HandlerConfig) (w : ClaimedWebhook) (installation repo : Z) (kind : GitRefKind)
    (display commit : rstr) (committed_at : option Z) (detail : QueuedEventDetail) : GithubBenchmarkSubmission :=
  let resolved := resolve_bench_args (normalize_stored detail) (hc_default_args cfg) in
  {| gbs_source :=
       {| rts_github_installation_id := installation; rts_github_repo_id := repo; rts_source := Src_GithubWebhook;
          rts_intent := Intent_BaselineBenchmark; rts_task_kind := Kind_Benchmark;
          rts_build_target := Target_StacksBench; rts_git_ref_kind := kind; rts_git_ref_display := display;
          rts_commit := commit; rts_committed_at := committed_at;
          rts_workload_key := Some (ra_workload_key resolved) |};
     gbs_webhook_id := cw_id w; gbs_triggering_user_id := None; gbs_pull_request_id := None;
     gbs_triggering_comment_id := None; gbs_queued_event_detail := queued_detail detail (ra_effective_args resolved) |}.
Definition handle_push (cfg : HandlerConfig) (w : ClaimedWebhook) : prog ClassifyOutcome :=
  with_event push_event_of_value w (fun event =>
    match strip_prefix (lit "refs/heads/") (pu_ref event) with
    | None => terminal Wo_IgnoredAction
    | Some branch =>
        let installation := pu_installation event in
        let repo := ir_id (pu_repository event) in
        active <?- Q_is_membership_active installation repo or lit "is_membership_active" ;;
        if negb active then terminal Wo_IgnoredAction
        else
          triggers <?- Q_list_enabled_triggers installation repo Trig_BranchPush or lit "list_enabled_triggers" ;;
          match List.find (fun t => matches_branch_push (tp_match_spec t.2) branch) triggers with
          | None => terminal Wo_IgnoredAction
          | Some (trigger_id, trigger) =>
              match pu_head_commit event with
              | None => terminal Wo_IgnoredAction
              | Some head_commit =>
                  enqueue_job (baseline_request cfg w installation repo Ref_Branch branch (pc_id head_commit)
                                 (Some (pc_timestamp head_commit))
                                 (Queued_BranchPush branch trigger_id (tp_bench_args trigger)))
              end
          end
    end).

(** ** create, with GitHub's resolver configured *)
Definition handle_create (cfg : HandlerConfig) (w : ClaimedWebhook) : prog ClassifyOutcome :=
  with_event create_event_of_value w (fun event =>
    if negb (rstr_eqb (ce_ref_type event) (lit "tag")) then terminal Wo_IgnoredAction
    else
      let installation := ce_installation event in
      let repo := ir_id (ce_repository event) in
      active <?- Q_is_membership_active installation repo or lit "is_membership_active" ;;
      if negb active then terminal Wo_IgnoredAction
      else
        triggers <?- Q_list_enabled_triggers installation repo Trig_TagCreated or lit "list_enabled_triggers" ;;
        match List.find (fun t => bool_decide (matches_tag_created (tp_match_spec t.2) (ce_ref event) = Some true)) triggers with
        | None => terminal Wo_IgnoredAction
        | Some (trigger_id, trigger) =>
            resolved <?- Q_resolve_commit installation (ir_full_name (ce_repository event)) (lit "tags/" ++ ce_ref event)
              or lit "resolve tag before submission" ;;
            enqueue_job (baseline_request cfg w installation repo Ref_Tag (ce_ref event) (rc_hash resolved)
                           (rc_committed_at resolved)
                           (Queued_TagCreated (ce_ref event) trigger_id (tp_bench_args trigger)))
        end).

(** ** The classifier *)
Definition supported_event_types : list rstr :=
  map lit ["create"; "installation"; "installation_repositories"; "issue_comment"; "pull_request"; "push"]%string.
Definition classify (cfg : HandlerConfig) (w : ClaimedWebhook) : prog ClassifyOutcome :=
  let t := cw_event_type w in
  if rstr_eqb t (lit "issue_comment") then handle_issue_comment cfg w
  else if rstr_eqb t (lit "installation") then handle_installation w
  else if rstr_eqb t (lit "installation_repositories") then handle_installation_repositories w
  else if rstr_eqb t (lit "pull_request") then handle_pull_request w
  else if rstr_eqb t (lit "push") then handle_push cfg w
  else if rstr_eqb t (lit "create") then handle_create cfg w
  else terminal Wo_Error.

(** ** Running a program

    Each call comes at a moment: what other transactions do before it, the clock and the
    identifiers the database draws, GitHub's answers, and the call's fate: it is answered,
    fails, or takes effect with its answer lost. *)
Record GithubState := { gs_policy : PolicyDb; gs_jobs : SubmissionDb }.
Inductive Fate := Fate_Done | Fate_Failed (e : rstr) | Fate_Lost (e : rstr).
Record Moment := {
  mo_before : GithubState -> GithubState;
  mo_now : Z;
  mo_row : Z;
  mo_ids : NewIds;
  mo_seen : SubmissionDb;
  mo_pull : Z -> rstr -> Z -> result PullRequestSummary rstr;
  mo_repository : Z -> rstr -> rstr -> result RepoSummary rstr;
  mo_commit : Z -> rstr -> rstr -> result ResolvedCommit rstr;
  mo_fate : Fate
}.
Definition find_active_job (repo : Z) (commit : rstr) (source : JobSource) (key : rstr) (db : SubmissionDb) : option Uuid :=
  fst <$> head (runs_where (fun r =>
    (rr_repo (run_row r) =? repo) && bool_decide (rr_commit (run_row r) = Some commit)
    && bool_decide (rr_source (run_row r) = source) && bool_decide (rr_workload_key (run_row r) = Some key)
    && run_active (run_status r)) db).
Definition set_policy (s : GithubState) (db : PolicyDb) : GithubState := {| gs_policy := db; gs_jobs := gs_jobs s |}.
Definition from_pres {A} (s : GithubState) (r : pres A) : result A rstr * GithubState :=
  match r with
  | Ok (a, db) => (Ok a, set_policy s db)
  | Err (Violates constraint) => (Err (lit constraint), s)
  end.
Definition from_pair {A} (s : GithubState) (r : A * PolicyDb) : result A rstr * GithubState :=
  (Ok r.1, set_policy s r.2).
Definition perform {R} (m : Moment) (c : Call R) (s : GithubState) : result R rstr * GithubState :=
  let db := gs_policy s in
  match c in Call R return result R rstr * GithubState with
  | Q_lookup_allowed account => (Ok (lookup_allowed account db), s)
  | Q_upsert_installation id account login t => from_pres s (upsert_installation id account login t db)
  | Q_set_suspended id at_ => from_pair s (set_suspended id at_ db)
  | Q_delete_installation id => from_pair s (delete_installation (mo_now m) id db)
  | Q_add_or_restore_membership i r => from_pres s (add_or_restore_membership (mo_now m) i r db)
  | Q_is_membership_active i r => (Ok (is_membership_active i r db), s)
  | Q_revoke_membership i r => from_pair s (revoke_membership (mo_now m) i r db)
  | Q_upsert_repo_identity r => from_pres s (upsert_repo_identity r db)
  | Q_upsert_repo_lineage l => from_pres s (upsert_repo_lineage (mo_now m) l db)
  | Q_is_supported_lineage r => (Ok (is_supported_lineage r db), s)
  | Q_lookup_target_policy i r => (Ok (lookup_target_policy i r db), s)
  | Q_lookup_source_policy i r => (Ok (lookup_source_policy i r db), s)
  | Q_list_enabled_triggers i r kind => (Ok (list_enabled_triggers i r kind db), s)
  | Q_disable_target_and_triggers i r => (Ok tt, set_policy s (disable_target_and_triggers i r db))
  | Q_upsert_user id login t => from_pres s (upsert_user id login t db)
  | Q_has_role u i r role => (Ok (has_role u i r role db), s)
  | Q_revoke_repo_scoped_grants i r => (Ok tt, set_policy s (revoke_repo_scoped_grants (mo_now m) i r db))
  | Q_upsert_pull_request target source number title author =>
      from_pres s (upsert_pull_request (mo_row m) target source number title author db)
  | Q_set_closed_at target number at_now =>
      (Ok tt, set_policy s (set_closed_at target number (if at_now then Some (mo_now m) else None) db))
  | Q_find_active_job repo commit source key => (Ok (find_active_job repo commit source key (gs_jobs s)), s)
  | Q_persist p =>
      match persist_submission (mo_ids m) p (mo_seen m) (gs_jobs s) with
      | (Ok receipt, jobs) => (Ok receipt, {| gs_policy := db; gs_jobs := jobs |})
      | (Err e, jobs) => (Err (submission_error_display e), {| gs_policy := db; gs_jobs := jobs |})
      end
  | Q_get_pull_request i repository number => (mo_pull m i repository number, s)
  | Q_get_repository i owner name => (mo_repository m i owner name, s)
  | Q_resolve_commit i repository ref => (mo_commit m i repository ref, s)
  end.
Definition answer {R} (m : Moment) (c : Call R) (s : GithubState) : result R rstr * GithubState :=
  match mo_fate m with
  | Fate_Done => perform m c s
  | Fate_Failed e => (Err e, s)
  | Fate_Lost e => (Err e, (perform m c s).2)
  end.

(** What a log keeps of a call: the answers that decide what a handler does. *)
Inductive Fact :=
| Fact_membership (installation repo : Z) (active : bool)
| Fact_role (user installation repo : Z) (role : UserRole) (granted : bool)
| Fact_target (installation repo : Z) (policy : option bool)
| Fact_source (installation repo : Z) (policy : option bool)
| Fact_triggers (installation repo : Z) (kind : TriggerKind) (triggers : list (Z * TriggerPolicy))
| Fact_pull (installation : Z) (repository : rstr) (number : Z) (pr : PullRequestSummary)
| Fact_commit (installation : Z) (repository ref : rstr) (commit : ResolvedCommit)
| Fact_persist (p : PreparedSubmission) (answer : result SubmissionReceipt rstr)
| Fact_other.
Definition fact {R} (c : Call R) : result R rstr -> Fact :=
  match c in Call R return result R rstr -> Fact with
  | Q_is_membership_active i r => fun a => match a with Ok b => Fact_membership i r b | Err _ => Fact_other end
  | Q_has_role u i r role => fun a => match a with Ok b => Fact_role u i r role b | Err _ => Fact_other end
  | Q_lookup_target_policy i r => fun a => match a with Ok b => Fact_target i r b | Err _ => Fact_other end
  | Q_lookup_source_policy i r => fun a => match a with Ok b => Fact_source i r b | Err _ => Fact_other end
  | Q_list_enabled_triggers i r kind => fun a => match a with Ok l => Fact_triggers i r kind l | Err _ => Fact_other end
  | Q_get_pull_request i repository number => fun a =>
      match a with Ok pr => Fact_pull i repository number pr | Err _ => Fact_other end
  | Q_resolve_commit i repository ref => fun a =>
      match a with Ok x => Fact_commit i repository ref x | Err _ => Fact_other end
  | Q_persist p => fun a => Fact_persist p a
  | _ => fun _ => Fact_other
  end.
(** The run of a program over a script of moments: its result, unless the processor
    crashed or the script ended first, the state it leaves, and what it found in which state. *)
Fixpoint run {A} (p : prog A) (script : list Moment) (s : GithubState) : option A * GithubState * list (GithubState * Fact) :=
  match p with
  | Ret a => (Some a, s, [])
  | Panic => (None, s, [])
  | Do c k =>
      match script with
      | [] => (None, s, [])
      | m :: script =>
          let seen := mo_before m s in
          let '(a, s') := answer m c seen in
          let '(out, final, log) := run (k a) script s' in
          (out, final, (seen, fact c a) :: log)
      end
  end.
End Handlers.
