(* ===== verification/GithubSafety.v ===== *)
(** * What a webhook can cause

    Theorems about the handlers of WebhookHandlers in every run: other transactions may
    come before each call, and each call may be answered, fail, or take effect with its
    answer lost. *)
From stdpp Require Import base list strings gmap.
From Stdlib Require Import ZArith Lia.
From S2P Require Import Prelude RustStr Json JsonText FleetModel FleetDb Validate Workload Intent Submission SubmissionStore RunChain Preparation SlackIntake PolicyDb WebhookInbox GithubEvents WebhookHandlers.

Local Open Scope Z_scope.

(** ** Reasoning about programs

    [wp P h p Q]: from a history [h] of facts, every fact [p] adds satisfies [P] of what came
    before it, and every result satisfies [Q] of the history it is reached with. *)
Fixpoint wp {A} (P : list Fact -> Fact -> Prop) (h : list Fact) (p : prog A) (Q : list Fact -> A -> Prop) : Prop :=
  match p with
  | Ret a => Q h a
  | Panic => True
  | Do c k => forall a, P h (fact c a) /\ wp P (fact c a :: h) (k a) Q
  end.
Section Programs.
Context (P : list Fact -> Fact -> Prop).
Lemma wp_bind {A B} (p : prog A) (f : A -> prog B) Q : forall h,
  wp P h p (fun h a => wp P h (f a) Q) -> wp P h (bind p f) Q.
Proof.
  induction p as [a|R c k IH|]; intros h; simpl; [done| |done]. intros H a. destruct (H a) as [Hf Hk].
  split; [done|]. by apply IH.
Qed.
Lemma wp_mono {A} (p : prog A) (Q Q' : list Fact -> A -> Prop) : forall h,
  wp P h p Q -> (forall h' a, h ⊆ h' -> Q h' a -> Q' h' a) -> wp P h p Q'.
Proof.
  induction p as [a|R c k IH|]; intros h; simpl; [|intros H HQ a|done].
  - intros H HQ. by apply HQ.
  - destruct (H a) as [Hf Hk]. split; [done|]. apply (IH a _ Hk). intros h' b Hsub. apply HQ. set_solver.
Qed.
Lemma wp_attempt {R} label (c : Call R) k Q h :
  (forall r, P h (fact c r)) ->
  (forall e h', wp P h' (Ret (retryable label e)) Q) ->
  (forall x, wp P (fact c (Ok x) :: h) (k x) Q) -> wp P h (attempt label c k) Q.
Proof. intros Hf He Hk a. split; [done|]. destruct a; [apply Hk|apply He]. Qed.
End Programs.
(** Every fact of a run satisfies what the program guarantees of it. *)
Lemma run_facts {A} `{DigestEnv} P (p : prog A) : forall h script s out final log,
  wp P h p (fun _ _ => True) -> run p script s = (out, final, log) ->
  forall log1 e log2, log = log1 ++ e :: log2 -> P (rev (map snd log1) ++ h) e.2.
Proof.
  induction p as [a|R c k IH|]; intros h script s out final log Hw Hr log1 e log2 Hlog; simpl in *.
  - injection Hr as <- <- <-. by destruct log1.
  - destruct script as [|m script]; [injection Hr as <- <- <-; by destruct log1|].
    destruct (answer m c (mo_before m s)) as [a s1].
    destruct (run (k a) script s1) as [[out1 final1] log'] eqn:E. injection Hr as <- <- <-.
    destruct (Hw a) as [Hf Hk]. destruct log1 as [|e1 log1]; simpl in Hlog; injection Hlog as <- ->; [done|].
    simpl. rewrite <- app_assoc. simpl. by apply (IH a _ _ _ _ _ _ Hk E log1 e log2).
  - injection Hr as <- <- <-. by destruct log1.
Qed.

(** *** Facts are true of the states they were found in *)
Definition fact_true (s : GithubState) (f : Fact) : Prop :=
  match f with
  | Fact_membership i r b => is_membership_active i r (gs_policy s) = b
  | Fact_role u i r role b => has_role u i r role (gs_policy s) = b
  | Fact_target i r p => lookup_target_policy i r (gs_policy s) = p
  | Fact_source i r p => lookup_source_policy i r (gs_policy s) = p
  | Fact_triggers i r kind l => list_enabled_triggers i r kind (gs_policy s) = l
  | _ => True
  end.
Lemma answer_true `{DigestEnv} {R} m (c : Call R) s : fact_true s (fact c (answer m c s).1).
Proof.
  unfold answer. destruct (mo_fate m); destruct c; try done; simpl; by case_match.
Qed.
Lemma run_true {A} `{DigestEnv} (p : prog A) : forall script s out final log,
  run p script s = (out, final, log) -> Forall (fun e => fact_true e.1 e.2) log.
Proof.
  induction p as [a|R c k IH|]; intros script s out final log Hr; simpl in *.
  - injection Hr as <- <- <-. constructor.
  - destruct script as [|m script]; [injection Hr as <- <- <-; constructor|].
    pose proof (answer_true m c (mo_before m s)) as Ht.
    destruct (answer m c (mo_before m s)) as [a s1].
    destruct (run (k a) script s1) as [[out1 final1] log'] eqn:E. injection Hr as <- <- <-.
    constructor; [exact Ht|]. by apply (IH a _ _ _ _ _ E).
  - injection Hr as <- <- <-. constructor.
Qed.

(** ** What allows a submission

    [found f]: the handler has found the fact [f]. *)
Section Authority.
Context `{DigestEnv} `{EventEnv} (cfg : HandlerConfig) (w : ClaimedWebhook).
Inductive submission_authorized (found : Fact -> Prop) : SubmissionCommand -> Prop :=
| Auth_push event branch triggers trigger_id trigger commit :
    cw_event_type w = lit "push" -> cw_payload w ≫= push_event_of_value = Some event ->
    strip_prefix (lit "refs/heads/") (pu_ref event) = Some branch -> pu_head_commit event = Some commit ->
    found (Fact_membership (pu_installation event) (ir_id (pu_repository event)) true) ->
    found (Fact_triggers (pu_installation event) (ir_id (pu_repository event)) Trig_BranchPush triggers) ->
    (trigger_id, trigger) ∈ triggers -> matches_branch_push (tp_match_spec trigger) branch = true ->
    submission_authorized found (github_command
      (baseline_request cfg w (pu_installation event) (ir_id (pu_repository event)) Ref_Branch branch (pc_id commit)
         (Some (pc_timestamp commit)) (Queued_BranchPush branch trigger_id (tp_bench_args trigger))))
| Auth_tag event triggers trigger_id trigger commit :
    cw_event_type w = lit "create" -> cw_payload w ≫= create_event_of_value = Some event ->
    ce_ref_type event = lit "tag" ->
    found (Fact_membership (ce_installation event) (ir_id (ce_repository event)) true) ->
    found (Fact_triggers (ce_installation event) (ir_id (ce_repository event)) Trig_TagCreated triggers) ->
    (trigger_id, trigger) ∈ triggers -> matches_tag_created (tp_match_spec trigger) (ce_ref event) = Some true ->
    found (Fact_commit (ce_installation event) (ir_full_name (ce_repository event)) (lit "tags/" ++ ce_ref event) commit) ->
    submission_authorized found (github_command
      (baseline_request cfg w (ce_installation event) (ir_id (ce_repository event)) Ref_Tag (ce_ref event)
         (rc_hash commit) (rc_committed_at commit) (Queued_TagCreated (ce_ref event) trigger_id (tp_bench_args trigger))))
| Auth_comment event command pr pr_id cmd :
    cw_event_type w = lit "issue_comment" -> cw_action w = Some (lit "created") ->
    cw_payload w ≫= issue_comment_of_value = Some event -> ice_is_pull_request event = true ->
    parse_issue_task_command (ice_body event) = Some (Some command) ->
    found (Fact_pull (ice_installation event) (ice_repository event) (as_u64 (ice_number event)) pr) ->
    found (Fact_role (us_id (ice_sender event)) (ice_installation event) (rf_id (sd_repo (prs_base pr)))
             (required_role command) true) ->
    found (Fact_membership (ice_installation event) (rf_id (sd_repo (prs_base pr))) true) ->
    found (Fact_target (ice_installation event) (rf_id (sd_repo (prs_base pr))) (Some true)) ->
    found (Fact_source (ice_installation event) (rf_id (sd_repo (prs_head pr))) (Some true)) ->
    match command with
    | Itc_Benchmark c => cmd = github_command (comment_request cfg w event pr pr_id c).1
    | Itc_BlockValidation => exists policy selection, hc_block_validation cfg = Some policy
        /\ resolve_user_selection policy (Vs_Recent None) = Ok selection
        /\ block_validation_command policy (validation_submission (validation_request w event pr pr_id) selection) = Ok cmd
    end ->
    submission_authorized found cmd.
Lemma authorized_mono (found found' : Fact -> Prop) cmd :
  (forall f, found f -> found' f) -> submission_authorized found cmd -> submission_authorized found' cmd.
Proof. intros Hsub []; econstructor; eauto. Qed.

(** The guarantee of the handlers: what they submit is allowed by what they found. *)
Definition guarded (h : list Fact) (f : Fact) : Prop :=
  match f with
  | Fact_persist p _ => prepare serde_text (ps_command p) = Ok p /\ submission_authorized (fun f => f ∈ h) (ps_command p)
  | _ => True
  end.
Abbreviation fine h p := (wp guarded h p (fun _ _ => True)).
Lemma fine_ret {A} h (a : A) : fine h (Ret a).
Proof. done. Qed.
Lemma fine_attempt {R} label (c : Call R) k h :
  (forall r, guarded h (fact c r)) -> (forall x, fine (fact c (Ok x) :: h) (k x)) -> fine h (attempt label c k).
Proof. intros Hf Hk. by apply wp_attempt. Qed.
Lemma fine_submit {A} h cmd (k : result SubmissionReceipt rstr -> prog A) :
  submission_authorized (fun f => f ∈ h) cmd -> (forall h' r, fine h' (k r)) -> fine h (submit cmd k).
Proof.
  intros Ha Hk. unfold submit. destruct (prepare serde_text cmd) as [p|e] eqn:E; [|apply Hk].
  intros a. split; [|apply Hk]. pose proof (prepare_ok _ _ _ E) as (Hc & _). simpl. rewrite Hc. done.
Qed.
Lemma fine_enqueue h request :
  submission_authorized (fun f => f ∈ h) (github_command request) -> fine h (enqueue_job request).
Proof.
  intros Ha. apply fine_submit; [done|]. intros h' [r|e]; [|exact I].
  destruct (sbr_disposition r), (sbr_initial_job_ids r); exact I.
Qed.
Lemma fine_materialise_pull base head number title author h : 
  fine h (materialise_pull_request base head number title author).
Proof.
  unfold materialise_pull_request. cbv zeta. cbn [wp].
  intros []; (split; [exact I|]); [|exact I]. intros []; (split; [exact I|]); [|exact I].
  intros []; (split; [exact I|]); [|exact I]. intros []; split; exact I.
Qed.
Lemma fine_membership install_id repo h : fine h (materialise_repo_membership install_id repo).
Proof.
  unfold materialise_repo_membership. destruct (split_full_name _) as [[owner name]|]; [|exact I].
  intros [summary|]; (split; [exact I|]); [|exact I]. cbv beta iota. destruct (negb _); [exact I|].
  intros []; (split; [exact I|]); [|exact I]. intros [[]|]; (split; [exact I|]); [|exact I..].
  intros [[]|]; split; exact I.
Qed.
Lemma fine_evaluate i b src h (k : PolicyEvaluation -> prog ClassifyOutcome) :
  (forall e h', e <> Pol_Accepted -> fine h' (k e)) ->
  fine (Fact_source i src (Some true) :: Fact_target i b (Some true) :: Fact_membership i b true :: h) (k Pol_Accepted) ->
  fine h (bind (evaluate_pr_policies i b src) k).
Proof.
  intros Hno Hyes. cbn. intros [[]|]; (split; [done|]); try by apply Hno.
  intros [[[]|]|]; (split; [done|]); try by apply Hno.
  intros [[[]|]|]; (split; [done|]); try by apply Hno. exact Hyes.
Qed.
Lemma fine_policy_outcome h e accepted :
  (e = Pol_Accepted -> fine h accepted) -> fine h (policy_outcome e accepted).
Proof. intros Ha. destruct e; try done. by apply Ha. Qed.
Lemma fine_seq {A} h (p : prog A) (k : A -> prog ClassifyOutcome) :
  fine h p -> (forall h' a, h ⊆ h' -> fine h' (k a)) -> fine h (bind p k).
Proof. intros Hp Hk. apply wp_bind. apply (wp_mono guarded p _ _ _ Hp). intros h' a Hsub _. by apply Hk. Qed.
Lemma fine_with_event {E} (read : Value -> option E) h k :
  (forall event, cw_payload w ≫= read = Some event -> fine h (k event)) -> fine h (with_event read w k).
Proof. intros Hk. unfold with_event. destruct (cw_payload w ≫= read) as [event|]; [by apply Hk|exact I]. Qed.

Lemma fine_accepted event command pr pr_id h :
  (forall cmd, match command with
    | Itc_Benchmark c => cmd = github_command (comment_request cfg w event pr pr_id c).1
    | Itc_BlockValidation => exists policy selection, hc_block_validation cfg = Some policy
        /\ resolve_user_selection policy (Vs_Recent None) = Ok selection
        /\ block_validation_command policy (validation_submission (validation_request w event pr pr_id) selection) = Ok cmd
    end -> submission_authorized (fun f => f ∈ h) cmd) ->
  fine h (comment_accepted cfg w event pr pr_id command).
Proof.
  intros Hauth. destruct command as [cmd|]; cbn [comment_accepted].
  - destruct (comment_request cfg w event pr pr_id cmd) as [request key] eqn:E.
    apply fine_attempt; [intros []; exact I|]. intros [id|]; [exact I|]. apply fine_enqueue.
    apply (authorized_mono (fun f => f ∈ h)); [set_solver|]. apply Hauth. done.
  - destruct (hc_block_validation cfg) as [policy|] eqn:Ep; [|exact I]. unfold enqueue_validation.
    change (bvj_selection (validation_request w event pr pr_id)) with (Vs_Recent None).
    destruct (resolve_user_selection policy (Vs_Recent None)) as [selection|] eqn:Es; [|exact I].
    destruct (block_validation_command _ _) as [cmd|] eqn:Ec; [|exact I].
    apply fine_submit; [|intros h' []; exact I]. apply Hauth. by exists policy, selection.
Qed.
Lemma fine_issue_comment h : cw_event_type w = lit "issue_comment" -> fine h (handle_issue_comment cfg w).
Proof.
  intros Ht. unfold handle_issue_comment. destruct (negb _) eqn:Ea; [exact I|].
  apply negb_false_iff, bool_decide_eq_true in Ea. apply fine_with_event. intros event He.
  destruct (negb (ice_is_pull_request event)) eqn:Ep; [exact I|]. apply negb_false_iff in Ep.
  destruct (parse_issue_task_command _) as [[command|]|] eqn:Ec; [|exact I..].
  unfold handle_command. cbv zeta. apply fine_attempt; [intros []; exact I|]. intros pr.
  apply fine_seq; [apply fine_materialise_pull|]. intros h1 [[pr_id row]|out] Hsub1; [|exact I].
  destruct (parse_account_type _) as [t|]; [|exact I].
  apply fine_attempt; [intros []; exact I|]. intros u. apply fine_attempt; [intros []; exact I|]. intros [|]; [|exact I]. simpl negb. cbv iota.
  apply fine_evaluate; [by intros [] h' Hne|].
  apply fine_policy_outcome. intros _. apply fine_accepted. intros cmd Hcmd.
  eapply (Auth_comment _ event command pr pr_id cmd); try done; cbn [fact]; set_solver.
Qed.
Lemma fine_push h : cw_event_type w = lit "push" -> fine h (handle_push cfg w).
Proof.
  intros Ht. unfold handle_push. apply fine_with_event. intros event He.
  destruct (strip_prefix _ _) as [branch|] eqn:Eb; [|exact I]. cbv zeta.
  apply fine_attempt; [intros []; exact I|]. intros [|]; [|exact I]. simpl negb. cbv iota.
  apply fine_attempt; [intros []; exact I|]. intros triggers. destruct (List.find _ triggers) as [[tid trigger]|] eqn:Ef; [|exact I].
  destruct (pu_head_commit event) as [commit|] eqn:Eh; [|exact I].
  apply find_some in Ef as [Hin Hm]. apply fine_enqueue.
  eapply (Auth_push _ event branch triggers tid trigger commit); try done; cbn [fact]; [set_solver|set_solver|].
  by apply list_elem_of_In.
Qed.
Lemma fine_create h : cw_event_type w = lit "create" -> fine h (handle_create cfg w).
Proof.
  intros Ht. unfold handle_create. apply fine_with_event. intros event He.
  destruct (rstr_eqb _ _) eqn:Er; [|exact I]. apply bool_decide_eq_true in Er. simpl negb. cbv iota zeta.
  apply fine_attempt; [intros []; exact I|]. intros [|]; [|exact I]. simpl negb. cbv iota.
  apply fine_attempt; [intros []; exact I|]. intros triggers. destruct (List.find _ triggers) as [[tid trigger]|] eqn:Ef; [|exact I].
  apply find_some in Ef as [Hin Hm%bool_decide_eq_true]. apply fine_attempt; [intros []; exact I|]. intros commit. apply fine_enqueue.
  eapply (Auth_tag _ event triggers tid trigger commit); try done; cbn [fact]; [set_solver|set_solver| |set_solver].
  by apply list_elem_of_In.
Qed.
Lemma fine_memberships install_id repos : forall h, fine h (create_memberships install_id repos).
Proof.
  induction repos as [|repo repos IH]; intros h; [exact I|]. simpl. apply fine_seq; [apply fine_membership|].
  intros h' [] _; try exact I; apply IH.
Qed.
Lemma fine_added install_id repos : forall a b h, fine h (handle_repos_added install_id a b repos).
Proof.
  induction repos as [|repo repos IH]; intros a b h; [exact I|]. simpl. apply fine_seq; [apply fine_membership|].
  intros h' [] _; try exact I; apply IH.
Qed.
Lemma fine_removed install_id repos : forall a h, fine h (handle_repos_removed install_id a repos).
Proof.
  induction repos as [|repo repos IH]; intros a h; [exact I|]. cbn [handle_repos_removed]. cbv zeta.
  repeat (apply fine_attempt; [intros []; exact I|]; intros ?). apply IH.
Qed.
Lemma fine_installation h : fine h (handle_installation w).
Proof.
  unfold handle_installation. apply fine_with_event. intros event _.
  destruct (parse_account_type _) as [t|]; [|exact I]. cbv zeta.
  destruct (rstr_eqb _ (lit "created")).
  { apply fine_attempt; [intros []; exact I|]. intros [row|]; [|exact I]. destruct (ai_is_enabled row); [|exact I].
    apply fine_attempt; [intros []; exact I|]. intros ?. apply fine_memberships. }
  destruct (rstr_eqb _ (lit "suspend")); [apply fine_attempt; intros []; exact I|].
  destruct (rstr_eqb _ (lit "unsuspend")); [apply fine_attempt; intros []; exact I|].
  destruct (rstr_eqb _ (lit "deleted")); [apply fine_attempt; intros []; exact I|exact I].
Qed.
Lemma fine_installation_repositories h : fine h (handle_installation_repositories w).
Proof.
  unfold handle_installation_repositories. apply fine_with_event. intros event _.
  destruct (rstr_eqb _ (lit "added")); [apply fine_added|].
  destruct (rstr_eqb _ (lit "removed")); [apply fine_removed|exact I].
Qed.
Lemma fine_pull_request h : fine h (handle_pull_request w).
Proof.
  unfold handle_pull_request. apply fine_with_event. intros event _. cbv zeta.
  destruct (negb _); [exact I|]. destruct (rstr_eqb _ (lit "closed")).
  { destruct (br_repo (pe_base event)); [|exact I]. by apply fine_attempt. }
  destruct (br_repo (pe_base event)) as [base|]; [|exact I]. destruct (br_repo (pe_head event)) as [head|]; [|exact I].
  destruct (parse_account_type _) as [t|]; [|exact I]. apply fine_seq; [apply fine_materialise_pull|].
  intros h' [row|out] _; [|exact I].
  assert (Hev : forall h, fine h (if rstr_eqb (pe_action event) (lit "edited") && negb (pe_base_changed event)
    then terminal Wo_IgnoredAction
    else evaluation <- evaluate_pr_policies (pe_installation event) (ir_id base) (ir_id head) ;;
         policy_outcome evaluation (terminal Wo_ProcessedPullRequest))).
  { intros h0. destruct (_ && _); [exact I|]. apply fine_evaluate; [by intros [] ? ?|exact I]. }
  destruct (rstr_eqb _ (lit "reopened")); [|apply Hev]. apply fine_attempt; [intros []; exact I|]. intros ?. apply Hev.
Qed.
Lemma fine_classify h : fine h (classify cfg w).
Proof.
  unfold classify. cbv zeta. unfold rstr_eqb. repeat case_bool_decide; try exact I.
  - by apply fine_issue_comment.
  - apply fine_installation.
  - apply fine_installation_repositories.
  - apply fine_pull_request.
  - by apply fine_push.
  - by apply fine_create.
Qed.
(** What a run submits was allowed by what the run had found, in the states it found it. *)
Definition found_in (log : list (GithubState * Fact)) (f : Fact) : Prop :=
  exists s, (s, f) ∈ log /\ fact_true s f.
Lemma run_authorized script s out final log log1 seen p a log2 :
  run (classify cfg w) script s = (out, final, log) -> log = log1 ++ (seen, Fact_persist p a) :: log2 ->
  prepare serde_text (ps_command p) = Ok p /\ submission_authorized (found_in log1) (ps_command p).
Proof.
  intros Hr Hlog. destruct (run_facts guarded _ [] _ _ _ _ _ (fine_classify []) Hr _ _ _ Hlog) as [Hp Ha].
  split; [done|]. apply (authorized_mono (fun f => f ∈ rev (map snd log1) ++ [])); [|done]. intros f Hf.
  rewrite app_nil_r in Hf. apply list_elem_of_In, List.in_rev, in_map_iff in Hf as ([s0 f0] & <- & Hin).
  exists s0. apply list_elem_of_In in Hin. split; [done|].
  pose proof (run_true _ _ _ _ _ _ Hr) as Ht. rewrite Forall_forall in Ht. apply (Ht (s0, f0)).
  rewrite Hlog. set_solver.
Qed.
Lemma authorized_source found cmd :
  submission_authorized found cmd -> exists src, first_source (cmd_task cmd) = Some src
    /\ found (Fact_membership (rts_github_installation_id src) (rts_github_repo_id src) true)
    /\ cmd_producer_key cmd = github_producer_key (cw_id w).
Proof.
  intros [| |event command pr pr_id cmd' _ _ _ _ _ _ _ Hm _ _ Hc]; [by eexists..|].
  destruct command as [c|]; [subst cmd'; by eexists|].
  destruct Hc as (policy & selection & _ & _ & Hc). unfold block_validation_command in Hc. simpl in Hc.
  destruct (validate _); [|done]. injection Hc as <-. by eexists.
Qed.
End Authority.

(** C10: Nothing is submitted without authority.  In every run of the classifier, whatever other
    transactions come between its calls and whichever calls fail, a submission that
    reaches the store carries the producer key of its webhook, passed the checks of
    the boundary, and is exactly the command of a push or a tag for which the run had
    found the membership active and an enabled trigger that matches, or of a comment on
    a pull request whose sender the run had found to have the role, with the membership
    active and both the target's and the source's policy enabled, each at the state of
    the database in which it was asked. *)
Theorem webhook_submissions_authorized `{DigestEnv} `{EventEnv} cfg w script s out final log log1 seen p a log2 :
  run (classify cfg w) script s = (out, final, log) -> log = log1 ++ (seen, Fact_persist p a) :: log2 ->
  prepare serde_text (ps_command p) = Ok p
  /\ cmd_producer_key (ps_command p) = github_producer_key (cw_id w)
  /\ submission_authorized cfg w (found_in log1) (ps_command p).
Proof.
  intros Hr Hlog. destruct (run_authorized cfg w _ _ _ _ _ _ _ _ _ _ Hr Hlog) as [Hp Ha].
  split_and!; [done| |done]. by destruct (authorized_source cfg w _ _ Ha) as (_ & _ & _ & ?).
Qed.

(** ** Deletion *)
Definition others_step (m : Moment) : Prop :=
  forall s, rtc policy_step (gs_policy s) (gs_policy (mo_before m s)).
Section Deletion.
Context `{DigestEnv}.
Lemma from_pres_step {A} s (r : pres A) :
  (forall a db', r = Ok (a, db') -> policy_step (gs_policy s) db') ->
  rtc policy_step (gs_policy s) (gs_policy (from_pres s r).2).
Proof.
  intros Hs. destruct r as [[a db']|[constraint]]; simpl; [|apply rtc_refl]. apply rtc_once. by apply (Hs a).
Qed.
Lemma perform_step {R} m (c : Call R) s : rtc policy_step (gs_policy s) (gs_policy (perform m c s).2).
Proof.
  destruct c; simpl; try apply rtc_refl; try (apply from_pres_step; intros ? ? ?; by econstructor);
    try (apply rtc_once; constructor).
  destruct (persist_submission _ _ _ _) as [[r|e] jobs]; apply rtc_refl.
Qed.
Lemma answer_step {R} m (c : Call R) s : rtc policy_step (gs_policy s) (gs_policy (answer m c s).2).
Proof. unfold answer. destruct (mo_fate m); [apply perform_step|apply rtc_refl|apply perform_step]. Qed.
Lemma run_gone {A} installation (p : prog A) : forall script s out final log,
  gone installation (gs_policy s) -> Forall others_step script -> run p script s = (out, final, log) ->
  gone installation (gs_policy final) /\ Forall (fun e => gone installation (gs_policy e.1)) log.
Proof.
  induction p as [a|R c k IH|]; intros script s out final log Hg Hs Hr; simpl in *.
  - injection Hr as <- <- <-. by split.
  - destruct script as [|m script]; [injection Hr as <- <- <-; by split|].
    apply Forall_cons in Hs as [Hm Hs].
    assert (Hseen : gone installation (gs_policy (mo_before m s))) by by apply (gone_steps _ _ _ (Hm s)).
    pose proof (answer_step m c (mo_before m s)) as Hstep.
    destruct (answer m c (mo_before m s)) as [a s1]. simpl in Hstep.
    destruct (run (k a) script s1) as [[out1 final1] log'] eqn:E. injection Hr as <- <- <-.
    destruct (IH a _ _ _ _ _ (gone_steps _ _ _ Hstep Hseen) Hs E) as [Hf Hl]. by split; [|constructor].
  - injection Hr as <- <- <-. by split.
Qed.
End Deletion.
(** C11: A deletion is final.  Once an installation was deleted, no webhook of any kind submits
    work for it again, in no run, whatever transactions of the operator, of other
    handlers and of the handler itself (a late [created] or [added] included) come
    before and between its calls; and the installation stays deleted. *)
Theorem deletion_is_final `{DigestEnv} `{EventEnv} cfg w installation script s out final log :
  gone installation (gs_policy s) -> Forall others_step script ->
  run (classify cfg w) script s = (out, final, log) ->
  gone installation (gs_policy final)
  /\ forall seen p a src, (seen, Fact_persist p a) ∈ log -> first_source (cmd_task (ps_command p)) = Some src ->
       rts_github_installation_id src <> installation.
Proof.
  intros Hg Hs Hr. destruct (run_gone installation _ _ _ _ _ _ Hg Hs Hr) as [Hf Hl]. split; [done|].
  intros seen p a src Hin Hsrc Heq. apply list_elem_of_split in Hin as (log1 & log2 & Hlog).
  destruct (run_authorized cfg w _ _ _ _ _ _ _ _ _ _ Hr Hlog) as [_ Ha].
  destruct (authorized_source cfg w _ _ Ha) as (src' & Hsrc' & (s0 & Hin & Htrue) & _).
  rewrite Hsrc in Hsrc'. injection Hsrc' as <-. rewrite Heq in Hin, Htrue. simpl in Htrue.
  rewrite Forall_forall in Hl. pose proof (Hl (s0, _) ltac:(rewrite Hlog; apply elem_of_app; left; exact Hin)) as Hg0.
  by rewrite (gone_inactive installation) in Htrue.
Qed.

(** ** Preparation *)
Section Prepared.
Context `{DigestEnv} `{EventEnv} (cfg : HandlerConfig) (w : ClaimedWebhook).
#[local] Arguments lit _ : simpl never.
Lemma queued_detail_args detail args :
  value_get "effective_args" (queued_detail detail args) ≫= value_as_strings = Some args.
Proof. destruct detail; cbn; apply strings_read. Qed.
(** The arguments of an accepted benchmark are those of its trigger or comment, or the default. *)
Lemma authorized_args found cmd plan :
  submission_authorized cfg w found cmd -> cmd_task cmd = Plan_Benchmark plan ->
  value_get "effective_args" (pv_queued_event_detail (cmd_provenance cmd)) ≫= value_as_strings
    = Some (bpl_effective_args plan)
  /\ exists detail, bpl_effective_args plan = effective_arg_tokens (normalize_stored detail) (hc_default_args cfg).
Proof.
  assert (Hreq : forall request detail,
    gbs_queued_event_detail request
      = queued_detail detail (effective_arg_tokens (normalize_stored detail) (hc_default_args cfg)) ->
    cmd_task (github_command request) = Plan_Benchmark plan ->
    value_get "effective_args" (pv_queued_event_detail (cmd_provenance (github_command request))) ≫= value_as_strings
      = Some (bpl_effective_args plan)
    /\ exists detail, bpl_effective_args plan = effective_arg_tokens (normalize_stored detail) (hc_default_args cfg)).
  { intros request detail Hd. unfold github_command. cbn [cmd_task cmd_provenance pv_queued_event_detail].
    intros [= <-]. rewrite Hd, queued_detail_args. cbn. split; [done|]. by exists detail. }
  intros [event branch triggers tid trigger commit | event triggers tid trigger commit
         | event command pr pr_id cmd' _ _ _ _ _ _ _ _ _ _ Hc] Ht.
  - by eapply Hreq.
  - by eapply Hreq.
  - destruct command as [c|]; [subst cmd'; by eapply Hreq|].
    destruct Hc as (policy & selection & _ & _ & Hc). unfold block_validation_command in Hc. simpl in Hc.
    destruct (validate _); [|done]. injection Hc as <-. done.
Qed.

(** Every benchmark that a webhook submits can be run.  Take a benchmark that a run of the
    classifier sends to the store, and the submission the store creates of it: in every
    later state of the store each of its runs can be assembled, once its repository and
    reporting target are found, and the worker gets exactly the arguments of the
    submission, those of the comment or the trigger in normal form, or the default of the
    day the webhook was handled, whatever the default has become since. *)
Theorem github_request_prepares `{!ScalarText} script s out final log seen p a plan ids before db receipt db' now
    id run0 tables repository progress token :
  run (classify cfg w) script s = (out, final, log) -> (seen, Fact_persist p a) ∈ log ->
  cmd_task (ps_command p) = Plan_Benchmark plan ->
  store_reachable db -> persist_submission ids p before db = (Ok receipt, db') ->
  sbr_disposition receipt = Disp_Created -> rtc store_step db' now ->
  su_runs now !! id = Some run0 -> rr_submission (run_row run0) = sbr_submission_id receipt ->
  at_repository tables = Some repository -> progress_target id (run_row run0) tables now = Ok progress ->
  (exists detail, bpl_effective_args plan = effective_arg_tokens (normalize_stored detail) (hc_default_args cfg))
  /\ exists job, assemble_runnable id run0 tables token now = Ok job
  /\ forall default_args, exists payload, payload_for job default_args = Ok (Task_Benchmark payload)
     /\ bp_effective_args payload = bpl_effective_args plan.
Proof.
  intros Hr Hin Htask Hreach Hp Hd Hlater Hrun Hsub Hrepo Hprogress.
  apply list_elem_of_split in Hin as (log1 & log2 & Hlog).
  destruct (run_authorized cfg w _ _ _ _ _ _ _ _ _ _ Hr Hlog) as [Hprep Ha].
  destruct (authorized_args _ _ _ Ha Htask) as [Hargs [detail Heff]]. split; [by exists detail|].
  destruct (created_benchmark _ _ _ _ _ _ _ _ _ (reachable_wf _ Hreach) Hprep Htask Hp Hd) as (pv & Hof & Hpvd).
  assert (Hr' : store_reachable now).
  { unfold store_reachable in *. transitivity db; [done|]. eapply rtc_l; [|exact Hlater].
    pose proof (step_persist serde_text (ps_command p) ids p before db Hprep) as Hstep. by rewrite Hp in Hstep. }
  assert (Hwf' : store_wf db').
  { apply (store_step_wf db); [by apply reachable_wf|].
    pose proof (step_persist serde_text (ps_command p) ids p before db Hprep) as Hstep. by rewrite Hp in Hstep. }
  apply (benchmark_of_steps _ _ _ _ Hwf' Hlater) in Hof as (_ & Hpv & Hspecs).
  destruct (wf_run _ (reachable_wf _ Hr') _ _ Hrun) as [(spec & Hspec & (Hs & _ & Hkind & _) & _) _].
  destruct (assembled_payload now id run0 pv (bpl_effective_args plan) tables repository progress token)
    as (job & Hjob & Hall); try done.
  { rewrite Hkind. apply (Hspecs _ _ Hspec). congruence. }
  { by rewrite Hsub. }
  { unfold frozen_args. by rewrite Hpvd. }
  exists job. split; [done|]. intros default_args. destruct (Hall default_args) as [Hgood _].
  destruct Hgood as (payload & Hpay & Hpa & _); [rewrite Heff; apply effective_normal|]. by exists payload.
Qed.
End Prepared.

(** ** Demonstration: a push to a branch with a trigger *)
Section Demo.
#[local] Existing Instance slack_digest.
#[local] Instance demo_env : EventEnv :=
  {| parse_datetime := fun _ => Some 0; regex_is_match := fun _ _ => Ok true; serde_text := [] |}.
Definition demo_trigger : TriggerPolicy :=
  {| tp_installation_id := 7; tp_repo_id := 9; tp_kind := Trig_BranchPush;
     tp_match_spec := jobj [("kind", jstr (lit "branch_push")); ("branch_name", jstr (lit "main"))];
     tp_bench_args := Some (lit "run --repetitions 3 --block 5"); tp_is_enabled := true;
     tp_pinned := false; tp_pinned_until := None |}.
Definition demo_policy : PolicyDb :=
  {| pd_allowed := ∅;
     pd_installations := {[ 7 := {| gi_account_id := 1; gi_account_login := lit "o"; gi_account_type := Acct_User;
                                    gi_suspended_at := None; gi_deleted_at := None |} ]};
     pd_memberships := {[ (7, 9) := {| mb_granted_at := 0; mb_revoked_at := None |} ]};
     pd_repos := ∅; pd_roots := ∅; pd_targets := {[ (7, 9) := true ]}; pd_sources := ∅;
     pd_triggers := {[ 1 := demo_trigger ]}; pd_users := ∅; pd_roles := ∅; pd_pulls := ∅ |}.
Definition demo_push : ClaimedWebhook :=
  {| cw_id := 3; cw_claim_token := 1; cw_delivery_id := lit "d"; cw_event_type := lit "push"; cw_action := None;
     cw_payload_installation_id := Some 7;
     cw_payload := Some (jobj [("ref", jstr (lit "refs/heads/main"));
       ("installation", jobj [("id", jint 7)]);
       ("repository", jobj [("id", jint 9); ("full_name", jstr (lit "o/r"))]);
       ("head_commit", jobj [("id", jstr (lit "abc")); ("timestamp", jstr (lit "t"))])]);
     cw_payload_size_bytes := 10; cw_attempts := 0; cw_received_at := 0 |}.
Definition demo_moment : Moment :=
  {| mo_before := fun s => s; mo_now := 50; mo_row := 1; mo_ids := demo_ids; mo_seen := empty_store;
     mo_pull := fun _ _ _ => Err []; mo_repository := fun _ _ _ => Err []; mo_commit := fun _ _ _ => Err [];
     mo_fate := Fate_Done |}.
Definition demo_state : GithubState := {| gs_policy := demo_policy; gs_jobs := empty_store |}.
Definition demo_config : HandlerConfig := {| hc_default_args := lit "--block 1"; hc_block_validation := None |}.
Definition demo_script : list Moment := [demo_moment; demo_moment; demo_moment].
Definition demo_run := run (classify demo_config demo_push) demo_script demo_state.
Definition push_prepared : PreparedSubmission :=
  match demo_run.2 with [_; _; (_, Fact_persist p _)] => p | _ => slack_prepared end.
Definition demo_plan : BenchmarkPlan :=
  match cmd_task (ps_command push_prepared) with Plan_Benchmark plan => plan
  | _ => {| bpl_variants := []; bpl_effective_args := [] |} end.
Definition push_stored : SubmissionDb := gs_jobs demo_run.1.2.
Definition push_entry : GithubState * Fact :=
  (demo_state, Fact_persist push_prepared (Ok demo_receipt)).
Definition push_checks : list (GithubState * Fact) :=
  [(demo_state, Fact_membership 7 9 true); (demo_state, Fact_triggers 7 9 Trig_BranchPush [(1, demo_trigger)])].
Lemma demo_run_log : demo_run.2 = push_checks ++ [push_entry].
Proof. exact eq_refl. Qed.

Lemma webhook_submissions_authorized_witness :
  demo_run.1.1 = Some (Classify_Terminal Wo_EnqueuedJob)
  /\ cmd_producer_key (ps_command push_prepared) = github_producer_key 3
  /\ submission_authorized demo_config demo_push (found_in push_checks) (ps_command push_prepared).
Proof.
  split; [exact eq_refl|].
  apply (webhook_submissions_authorized demo_config demo_push demo_script demo_state demo_run.1.1 demo_run.1.2
    demo_run.2 push_checks demo_state push_prepared (Ok demo_receipt) []); [exact eq_refl|exact demo_run_log].
Defined.

(** The same push after the installation was deleted. *)
Definition demo_deleted : GithubState := set_policy demo_state (delete_installation 50 7 demo_policy).2.
Lemma deletion_is_final_witness :
  let late := run (classify demo_config demo_push) demo_script demo_deleted in
  late.1.1 = Some (Classify_Terminal Wo_IgnoredAction) /\ gone 7 (gs_policy late.1.2).
Proof.
  cbv zeta. split; [exact eq_refl|].
  apply (deletion_is_final demo_config demo_push 7 demo_script demo_deleted
    (run (classify demo_config demo_push) demo_script demo_deleted).1.1
    (run (classify demo_config demo_push) demo_script demo_deleted).1.2
    (run (classify demo_config demo_push) demo_script demo_deleted).2).
  - apply delete_closes_gates. by eexists.
  - repeat constructor; intros s; apply rtc_refl.
  - by destruct (run (classify demo_config demo_push) demo_script demo_deleted) as [[]].
Defined.

Lemma github_request_prepares_witness :
  exists job, assemble_runnable 600 (get_run 600 push_stored) demo_tables None push_stored = Ok job
  /\ forall default_args, exists payload, payload_for job default_args = Ok (Task_Benchmark payload)
     /\ bp_effective_args payload = map lit ["run"; "--block"; "5"; "--repetitions"; "1"]%string.
Proof.
  refine (proj2 (@github_request_prepares slack_digest demo_env demo_config demo_push slack_text demo_script demo_state
    demo_run.1.1 demo_run.1.2 demo_run.2 demo_state push_prepared (Ok demo_receipt) demo_plan demo_ids empty_store
    empty_store demo_receipt push_stored push_stored 600 (get_run 600 push_stored) demo_tables (lit "o/r")
    (Progress_CommitCheck (Some 11)) None _ _ _ _ _ _ _ _ _ _ _)).
  - exact eq_refl.
  - rewrite demo_run_log. apply elem_of_app. right. left.
  - exact eq_refl.
  - apply rtc_refl.
  - exact eq_refl.
  - exact eq_refl.
  - apply rtc_refl.
  - exact eq_refl.
  - exact eq_refl.
  - exact eq_refl.
  - exact eq_refl.
Defined.
End Demo.
