(* ===== verification/PinManager.v ===== *)
(** * Pins

    crates/sbgh-daemon/src/pin_resolver.rs, which resolves the pinned trigger policies against the
    current refs of their repositories, and crates/sbgh-daemon/src/pin_manager.rs, which lists the
    refs, applies the pins to the binary cache and queues builds for what is missing; with
    [recent_build_attempt] of the jobs store.  The cache is known by its interface
    ([CacheControl] of BinaryCache.v): the theorems use its laws, and hold of the store on disk because it
    satisfies them.  The outcome of [git ls-remote] is an argument. *)
From stdpp Require Import base list strings gmap.
From Stdlib Require Import ZArith Lia.
From S2P Require Import Prelude RustStr Json JsonText FleetModel FleetDb Workload Submission SubmissionStore RunChain PolicyDb GithubEvents BinaryCache.

Local Open Scope Z_scope.
#[local] Arguments lit _ : simpl never.

(** ** Resolution *)
Inductive RefKind := Remote_Branch | Remote_Tag.
#[global] Instance RefKind_eq_dec : EqDecision RefKind.
Proof. solve_decision. Defined.
Record RemoteRef := { rf_repo_id : Z; rf_name : rstr; rf_kind : RefKind; rf_commit : rstr }.
Record PinnedTarget := {
  pt_trigger_id : Z;
  pt_installation_id : Z;
  pt_repo_id : Z;
  pt_ref_kind : RefKind;
  pt_ref_name : rstr;
  pt_commit : rstr;
  pt_bench_args : option rstr
}.
Definition is_expired (p : TriggerPolicy) (now : Z) : bool :=
  match tp_pinned_until p with Some until => until <=? now | None => false end.
Definition commits_of (targets : list PinnedTarget) : gset rstr := list_to_set (map pt_commit targets).
Section Resolver.
Context `{EventEnv}.
(** A specification or a pattern that is malformed selects nothing. *)
Definition ref_matches (spec : Value) (r : RemoteRef) : bool :=
  match rf_kind r with
  | Remote_Branch => matches_branch_push spec (rf_name r)
  | Remote_Tag => default false (matches_tag_created spec (rf_name r))
  end.
Definition target_of (p : Z * TriggerPolicy) (r : RemoteRef) : PinnedTarget :=
  {| pt_trigger_id := p.1; pt_installation_id := tp_installation_id p.2; pt_repo_id := tp_repo_id p.2;
     pt_ref_kind := rf_kind r; pt_ref_name := rf_name r; pt_commit := rf_commit r;
     pt_bench_args := tp_bench_args p.2 |}.
Definition targets_of_policy (refs : list RemoteRef) (now : Z) (p : Z * TriggerPolicy) : list PinnedTarget :=
  if is_expired p.2 now then []
  else map (target_of p)
         (List.filter (fun r => (rf_repo_id r =? tp_repo_id p.2) && ref_matches (tp_match_spec p.2) r) refs).
Definition pinned_targets (policies : list (Z * TriggerPolicy)) (refs : list RemoteRef) (now : Z)
  : list PinnedTarget := List.flat_map (targets_of_policy refs now) policies.
End Resolver.

(** ** The refs of a repository *)
(** The first two columns of a line. *)
Definition ref_line (line : rstr) : option (rstr * rstr) :=
  match split_whitespace line with sha :: refname :: _ => Some (sha, refname) | _ => None end.
Definition HEADS : rstr := lit "refs/heads/".
Definition TAGS : rstr := lit "refs/tags/".
Definition PEELED : rstr := lit "^{}".
Arguments HEADS : simpl never.
Arguments TAGS : simpl never.
Arguments PEELED : simpl never.
(** The hash on the tag's own line and the one it peels to. *)
Notation TagShas := (option rstr * option rstr)%type.
Definition parse_ref (repo_id : Z) (acc : list RemoteRef * gmap rstr TagShas) (l : rstr * rstr)
  : list RemoteRef * gmap rstr TagShas :=
  let '(refs, tags) := acc in
  let '(sha, refname) := l in
  match strip_prefix HEADS refname with
  | Some name =>
      (refs ++ [{| rf_repo_id := repo_id; rf_name := name; rf_kind := Remote_Branch; rf_commit := sha |}], tags)
  | None =>
      match strip_prefix TAGS refname with
      | None => (refs, tags)
      | Some tag =>
          match strip_suffix PEELED tag with
          | Some base => (refs, <[base := ((default (None, None) (tags !! base)).1, Some sha)]> tags)
          | None => (refs, <[tag := (Some sha, (default (None, None) (tags !! tag)).2)]> tags)
          end
      end
  end.
Definition or_else_sha (a b : option rstr) : option rstr := match a with Some _ => a | None => b end.
(** The map of tags is walked in the order of the names. *)
Definition tag_refs (repo_id : Z) (tags : gmap rstr TagShas) : list RemoteRef :=
  omap (fun e => (fun commit => {| rf_repo_id := repo_id; rf_name := e.1; rf_kind := Remote_Tag; rf_commit := commit |})
                 <$> or_else_sha e.2.2 e.2.1)
    (sort_by (fun a b => negb (str_leb b.1 a.1)) (map_to_list tags)).
Definition parse_ls_remote (repo_id : Z) (stdout : rstr) : list RemoteRef :=
  let '(refs, tags) := foldl (parse_ref repo_id) ([], ∅) (omap ref_line (lines stdout)) in
  refs ++ tag_refs repo_id tags.
(** [Shell::run_bounded]: an error, or the exit of the child with its output. *)
Inductive ShellOutcome := Shell_error | Shell_exit (success : bool) (stdout : rstr).
Definition ls_remote_refs (shell : rstr -> ShellOutcome) (repo_id : Z) (url : rstr) : option (list RemoteRef) :=
  match shell url with
  | Shell_exit true stdout => Some (parse_ls_remote repo_id stdout)
  | _ => None
  end.

(** ** Recomputing the pins *)
Definition repo_url (repo : GithubRepo) : rstr :=
  lit "https://github.com/" ++ gr_owner repo ++ lit "/" ++ gr_name repo ++ lit ".git".
(** The loop over the repositories; [Ok None] is the early return that preserves the pins. *)
Fixpoint resolve_refs (lookup_repo : Z -> result (option GithubRepo) rstr) (shell : rstr -> ShellOutcome)
    (ids : list Z) (refs : list RemoteRef) : result (option (list RemoteRef)) rstr :=
  match ids with
  | [] => Ok (Some refs)
  | id :: rest =>
      let? repo := lookup_repo id in
      match repo with
      | None => Ok None
      | Some repo =>
          match ls_remote_refs shell id (repo_url repo) with
          | None => Ok None
          | Some repo_refs => resolve_refs lookup_repo shell rest (refs ++ repo_refs)
          end
      end
  end.
(** The distinct repositories of the policies, ascending. *)
Definition repo_ids (policies : list (Z * TriggerPolicy)) : list Z :=
  sort_by Z.ltb (remove_dups (map (fun p => tp_repo_id p.2) policies)).
Section Recompute.
Context `{EventEnv} {S : Type} `{CacheControl S}.
Definition recompute_pins (policies : result (list (Z * TriggerPolicy)) rstr)
    (lookup_repo : Z -> result (option GithubRepo) rstr) (shell : rstr -> ShellOutcome)
    (env : CacheEnvironment) (now : Z) (cache : S) : result (list PinnedTarget) rstr * S :=
  match policies with
  | Err e => (Err e, cache)
  | Ok policies =>
      match resolve_refs lookup_repo shell (repo_ids policies) [] with
      | Err e => (Err e, cache)
      | Ok None => (Ok [], cache)
      | Ok (Some refs) =>
          let targets := pinned_targets policies refs now in
          (Ok targets, cc_evict_to_budget (cc_set_pinned_by_commit (commits_of targets) env cache))
      end
  end.
End Recompute.

(** ** Warming *)
Definition WARM_RETRY_COOLDOWN_SECS : Z := 6 * 3600.
(** The jobs with their [updated_at]. *)
Record JobTable := { jt_db : SubmissionDb; jt_updated_at : gmap Uuid Z }.
Definition build_attempt (repo : Z) (commit : rstr) (target : BuildTarget) (failed_since : Z) (updated_at : gmap Uuid Z)
    (id : Uuid) (r : Run) : bool :=
  (rr_repo (run_row r) =? repo)
  && bool_decide (rr_commit (run_row r) = Some commit)
  && bool_decide (rr_task_kind (run_row r) = Kind_BuildOnly)
  && bool_decide (rr_build_target (run_row r) = target)
  && (run_active (run_status r)
      || match run_status r with
         | J_Failed | J_Cancelled => match updated_at !! id with Some at_ => failed_since <=? at_ | None => false end
         | _ => false end).
Definition recent_build_attempt (repo : Z) (commit : rstr) (target : BuildTarget) (failed_since : Z) (jt : JobTable)
  : option Uuid :=
  fst <$> head (rows (build_attempt repo commit target failed_since (jt_updated_at jt)) (su_runs (jt_db jt))).
Definition git_ref_kind (k : RefKind) : GitRefKind :=
  match k with Remote_Branch => Ref_Branch | Remote_Tag => Ref_Tag end.
Definition warm_source (t : PinnedTarget) : ResolvedTaskSource :=
  {| rts_github_installation_id := pt_installation_id t; rts_github_repo_id := pt_repo_id t;
     rts_source := Src_Daemon; rts_intent := Intent_CacheWarm; rts_task_kind := Kind_BuildOnly;
     rts_build_target := Target_StacksBench; rts_git_ref_kind := git_ref_kind (pt_ref_kind t);
     rts_git_ref_display := pt_ref_name t; rts_commit := pt_commit t; rts_committed_at := None;
     rts_workload_key := None |}.
Definition warm_command (key : Uuid) (t : PinnedTarget) : SubmissionCommand :=
  {| cmd_actor := Actor_System;
     cmd_producer_key := {| pk_namespace := lit "cache_warm"; pk_key := uuid_string key |};
     cmd_constraints := SchedulingConstraints_default;
     cmd_task := Plan_BuildOnly (warm_source t);
     cmd_provenance :=
       {| pv_queued_event_detail :=
            to_value (Queued_CacheWarm (pt_trigger_id t) (pt_ref_name t) (pt_commit t) Target_StacksBench);
          pv_github := None; pv_slack := None |} |}.
(** What the store and the generator of identifiers answer to the target at each position. *)
Record WarmIo := {
  wi_query_ok : nat -> bool;
  wi_submit_ok : nat -> bool;
  wi_key : nat -> Uuid;
  wi_ids : nat -> NewIds;
  wi_serde_error : rstr
}.
Record WarmState := { ws_jobs : JobTable; ws_seen : gset rstr }.
Section Warming.
Context `{DigestEnv} {S : Type} `{CacheControl S}.
(** [submission::submit]: preparation and persistence.  The new row is updated now. *)
Definition submit_warm (io : WarmIo) (now : Z) (i : nat) (t : PinnedTarget) (jt : JobTable)
  : result SubmissionReceipt SubmissionError * JobTable :=
  match prepare (wi_serde_error io) (warm_command (wi_key io i) t) with
  | Err e => (Err e, jt)
  | Ok p =>
      if wi_submit_ok io i then
        let '(res, db) := persist_submission (wi_ids io i) p (jt_db jt) (jt_db jt) in
        (res, {| jt_db := db;
                 jt_updated_at := match res with
                                  | Ok {| sbr_disposition := Disp_Created |} =>
                                      <[ni_job (wi_ids io i) := now]> (jt_updated_at jt)
                                  | _ => jt_updated_at jt
                                  end |})
      else (Err (persistence "connection"), jt)
  end.
Definition warm_target (io : WarmIo) (cache : S) (env : CacheEnvironment) (now : Z) (i : nat) (t : PinnedTarget)
    (ws : WarmState) : WarmState :=
  if cc_has_entry_for (pt_commit t) env cache then ws
  else if bool_decide (pt_commit t ∈ ws_seen ws) then ws
  else if negb (wi_query_ok io i) then ws
  else match recent_build_attempt (pt_repo_id t) (pt_commit t) Target_StacksBench (now - WARM_RETRY_COOLDOWN_SECS)
               (ws_jobs ws) with
       | Some _ => ws
       | None =>
           match submit_warm io now i t (ws_jobs ws) with
           | (Ok _, jt) => {| ws_jobs := jt; ws_seen := {[ pt_commit t ]} ∪ ws_seen ws |}
           | (Err _, jt) => {| ws_jobs := jt; ws_seen := ws_seen ws |}
           end
       end.
Fixpoint warm_loop (io : WarmIo) (cache : S) (env : CacheEnvironment) (now : Z) (i : nat) (targets : list PinnedTarget)
    (ws : WarmState) : WarmState :=
  match targets with
  | [] => ws
  | t :: rest => warm_loop io cache env now (Datatypes.S i) rest (warm_target io cache env now i t ws)
  end.
Definition warm_missing (io : WarmIo) (cache : S) (targets : list PinnedTarget) (env : CacheEnvironment) (now : Z)
    (jt : JobTable) : JobTable :=
  ws_jobs (warm_loop io cache env now 0 targets {| ws_jobs := jt; ws_seen := ∅ |}).

(** [PinManager::recompute]: without an environment nothing is done; a timeout drops the
    recomputation at one of its awaits, all of which precede its effects. *)
Definition recompute `{EventEnv} (env : option CacheEnvironment) (timed_out : bool)
    (policies : result (list (Z * TriggerPolicy)) rstr) (lookup_repo : Z -> result (option GithubRepo) rstr)
    (shell : rstr -> ShellOutcome) (io : WarmIo) (now : Z) (cache : S) (jt : JobTable) : S * JobTable :=
  match env with
  | None => (cache, jt)
  | Some env =>
      if timed_out then (cache, jt)
      else match recompute_pins policies lookup_repo shell env now cache with
           | (Err _, cache) => (cache, jt)
           | (Ok targets, cache) => (cache, warm_missing io cache targets env now jt)
           end
  end.
End Warming.

(** ** What the listing says *)
Definition ref_lines (stdout : rstr) : list (rstr * rstr) := omap ref_line (lines stdout).
Definition branch_line (repo_id : Z) (l : rstr * rstr) : option RemoteRef :=
  (fun name => {| rf_repo_id := repo_id; rf_name := name; rf_kind := Remote_Branch; rf_commit := l.1 |})
  <$> strip_prefix HEADS l.2.
(** The line of a tag itself and the one of the commit it peels to. *)
Definition direct_line (name : rstr) (l : rstr * rstr) : option rstr :=
  if bool_decide (l.2 = TAGS ++ name) && negb (bool_decide (is_Some (strip_suffix PEELED name)))
  then Some l.1 else None.
Definition peeled_line (name : rstr) (l : rstr * rstr) : option rstr :=
  if bool_decide (l.2 = TAGS ++ name ++ PEELED) then Some l.1 else None.
(** The peeled commit wins. *)
Definition tag_commit (ls : list (rstr * rstr)) (name : rstr) : option rstr :=
  or_else_sha (last (omap (peeled_line name) ls)) (last (omap (direct_line name) ls)).

Ltac ref_fields := cbn [rf_repo_id rf_name rf_kind rf_commit fst snd] in *.
Section Listed.
Variable repo_id : Z.
Lemma strip_suffix_Some p s b : strip_suffix p s = Some b <-> s = b ++ p.
Proof.
  unfold strip_suffix. split.
  - destruct (strip_prefix (rev p) (rev s)) as [x|] eqn:E; [|done]. intros [= <-].
    apply strip_prefix_Some in E. apply (f_equal (@rev Z)) in E.
    rewrite rev_involutive, rev_app_distr, rev_involutive in E. exact E.
  - intros ->. rewrite rev_app_distr. rewrite (proj2 (strip_prefix_Some _ _ (rev b))) by done. simpl.
    by rewrite rev_involutive.
Qed.
Lemma tags_not_heads s : strip_prefix HEADS (TAGS ++ s) = None.
Proof. reflexivity. Qed.
Lemma omap_snoc {A B} (f : A -> option B) l x :
  omap f (l ++ [x]) = omap f l ++ match f x with Some y => [y] | None => [] end.
Proof. rewrite omap_app. simpl. by destruct (f x). Qed.
Lemma last_omap_snoc {A B} (f : A -> option B) l x :
  last (omap f (l ++ [x])) = match f x with Some y => Some y | None => last (omap f l) end.
Proof. rewrite omap_snoc. destruct (f x); [apply last_snoc | by rewrite app_nil_r]. Qed.
(** What one line tells of a tag. *)
Lemma peeled_line_eq name base sha :
  peeled_line name (sha, TAGS ++ base ++ PEELED) = if bool_decide (base = name) then Some sha else None.
Proof.
  unfold peeled_line. cbn [fst snd]. erewrite bool_decide_ext; [done|]. split; [|by intros ->].
  intros Heq%app_inv_head. by apply app_inv_tail in Heq.
Qed.
Lemma direct_line_peeled name base sha : direct_line name (sha, TAGS ++ base ++ PEELED) = None.
Proof.
  unfold direct_line. cbn [snd]. case_bool_decide as He; [|done]. apply app_inv_head in He as <-.
  by rewrite (proj2 (strip_suffix_Some PEELED (base ++ PEELED) base)) by done.
Qed.
Lemma direct_line_eq name tag sha : strip_suffix PEELED tag = None ->
  direct_line name (sha, TAGS ++ tag) = if bool_decide (tag = name) then Some sha else None.
Proof.
  intros Hp. unfold direct_line. cbn [fst snd]. destruct (decide (tag = name)) as [->|Hne].
  - rewrite !(bool_decide_eq_true_2 (_ = _)), Hp by done. reflexivity.
  - rewrite !(bool_decide_eq_false_2 (_ = _)); [done | done|]. by intros He%app_inv_head.
Qed.
Lemma peeled_line_direct name tag sha : strip_suffix PEELED tag = None -> peeled_line name (sha, TAGS ++ tag) = None.
Proof.
  intros Hp. unfold peeled_line. cbn [snd]. rewrite bool_decide_eq_false_2; [done|].
  intros He%app_inv_head. apply strip_suffix_Some in He. congruence.
Qed.
Lemma other_line name sha refname : strip_prefix TAGS refname = None ->
  direct_line name (sha, refname) = None /\ peeled_line name (sha, refname) = None.
Proof.
  intros Et. assert (Hn : forall x, refname <> TAGS ++ x).
  { intros x ->. by rewrite (proj2 (strip_prefix_Some TAGS _ x)) in Et by done. }
  unfold direct_line, peeled_line. cbn [snd]. by rewrite !(bool_decide_eq_false_2 (_ = _)) by apply Hn.
Qed.
(** What the loop has collected. *)
Lemma parse_fold ls :
  let '(refs, tags) := foldl (parse_ref repo_id) ([], ∅) ls in
  refs = omap (branch_line repo_id) ls
  /\ forall name, default (None, None) (tags !! name)
                  = (last (omap (direct_line name) ls), last (omap (peeled_line name) ls)).
Proof.
  induction ls as [|[sha refname] ls IH] using rev_ind; [split; [done|]; intros; by rewrite lookup_empty|].
  rewrite foldl_app. cbn [foldl]. destruct (foldl (parse_ref repo_id) ([], ∅) ls) as [refs tags].
  destruct IH as [-> Ht]. cbn [parse_ref].
  assert (Hb : branch_line repo_id (sha, refname) = (fun name =>
    {| rf_repo_id := repo_id; rf_name := name; rf_kind := Remote_Branch; rf_commit := sha |})
    <$> strip_prefix HEADS refname) by done.
  rewrite omap_snoc, Hb.
  destruct (strip_prefix HEADS refname) as [b|] eqn:Eh; [|destruct (strip_prefix TAGS refname) as [tag|] eqn:Et;
    [destruct (strip_suffix PEELED tag) as [base|] eqn:Ep|]]; simpl; rewrite ?app_nil_r;
    (split; [done|]; intros name; rewrite !last_omap_snoc).
  - apply strip_prefix_Some in Eh. subst refname. destruct (other_line name sha (HEADS ++ b)) as [-> ->]; [done|]. apply Ht.
  - apply strip_prefix_Some in Et. apply strip_suffix_Some in Ep. subst refname tag.
    rewrite direct_line_peeled, peeled_line_eq. destruct (decide (base = name)) as [->|Hne].
    + by rewrite lookup_insert_eq, Ht, bool_decide_eq_true_2.
    + by rewrite lookup_insert_ne, Ht, bool_decide_eq_false_2.
  - apply strip_prefix_Some in Et. subst refname. rewrite direct_line_eq, peeled_line_direct by done.
    destruct (decide (tag = name)) as [->|Hne].
    + by rewrite lookup_insert_eq, Ht, bool_decide_eq_true_2.
    + by rewrite lookup_insert_ne, Ht, bool_decide_eq_false_2.
  - destruct (other_line name sha refname Et) as [-> ->]. apply Ht.
Qed.

Lemma branch_refs (ls : list (rstr * rstr)) r :
  r ∈ omap (branch_line repo_id) ls
  <-> rf_repo_id r = repo_id /\ rf_kind r = Remote_Branch /\ (rf_commit r, HEADS ++ rf_name r) ∈ ls.
Proof.
  rewrite list_elem_of_omap. unfold branch_line. split.
  - intros ([sha refname] & Hin & (name & Hn & ->)%fmap_Some). apply strip_prefix_Some in Hn. ref_fields. by subst refname.
  - destruct r as [id name k commit]. ref_fields. intros (-> & -> & Hin). eexists. split; [exact Hin|]. cbn [fst snd].
    by rewrite (proj2 (strip_prefix_Some HEADS _ name)).
Qed.
Lemma tag_refs_spec tags r :
  r ∈ tag_refs repo_id tags
  <-> rf_repo_id r = repo_id /\ rf_kind r = Remote_Tag
      /\ (tags !! rf_name r ≫= fun shas => or_else_sha shas.2 shas.1) = Some (rf_commit r).
Proof.
  unfold tag_refs. rewrite list_elem_of_omap. setoid_rewrite sort_by_perm. split.
  - intros ([name shas] & Hin & (commit & Hc & ->)%fmap_Some). apply elem_of_map_to_list in Hin.
    ref_fields. by rewrite Hin.
  - destruct r as [id name k commit]. ref_fields. intros (-> & -> & (shas & Hl & Hc)%bind_Some). exists (name, shas).
    split; [by apply elem_of_map_to_list|]. ref_fields. by rewrite Hc.
Qed.
Lemma tag_commit_lookup (ls : list (rstr * rstr)) (tags : gmap rstr TagShas) name :
  default (None, None) (tags !! name) = (last (omap (direct_line name) ls), last (omap (peeled_line name) ls)) ->
  tag_commit ls name = (tags !! name ≫= fun shas => or_else_sha shas.2 shas.1).
Proof. unfold tag_commit. destruct (tags !! name) as [[d p]|]; cbn; intros [= <- <-]; done. Qed.
Lemma omap_names {A} (f : A -> option RemoteRef) (key : A -> rstr) l :
  (forall x r, f x = Some r -> rf_name r = key x) -> NoDup (map key l) -> NoDup (map rf_name (omap f l)).
Proof.
  intros Hf. induction l as [|x l IH]; cbn; [done|]. intros [Hni Hnd]%NoDup_cons. specialize (IH Hnd).
  destruct (f x) as [r|] eqn:E; [|done]. cbn. apply NoDup_cons. split; [|done].
  intros (r' & Heq & (y & Hy & Hr')%list_elem_of_omap)%list_elem_of_fmap. apply Hni.
  rewrite <- (Hf _ _ E), Heq, (Hf _ _ Hr'). by apply list_elem_of_fmap_2.
Qed.
Lemma filter_tags l P : (forall r, r ∈ l -> bool_decide (rf_kind r = Remote_Tag) = P) ->
  List.filter (fun r => bool_decide (rf_kind r = Remote_Tag)) l = if P then l else [].
Proof.
  induction l as [|r l IH]; intros Hl; [by destruct P|]. cbn. rewrite (Hl r) by (by left).
  rewrite IH by (intros; apply Hl; by right). by destruct P.
Qed.

Lemma parse_ls_remote_refs stdout r :
  r ∈ parse_ls_remote repo_id stdout
  <-> rf_repo_id r = repo_id
      /\ match rf_kind r with
         | Remote_Branch => (rf_commit r, HEADS ++ rf_name r) ∈ ref_lines stdout
         | Remote_Tag => tag_commit (ref_lines stdout) (rf_name r) = Some (rf_commit r)
         end.
Proof.
  unfold parse_ls_remote. fold (ref_lines stdout). pose proof (parse_fold (ref_lines stdout)) as Hf.
  destruct (foldl _ _ _) as [refs tags]. destruct Hf as [-> Ht].
  rewrite elem_of_app, branch_refs, (tag_refs_spec tags). destruct r as [id name [|] commit]; ref_fields.
  - split; [by intros [(-> & _ & ?)|(_ & [=] & _)] | intros [-> ?]; by left].
  - rewrite (tag_commit_lookup _ tags) by apply Ht.
    split; [by intros [(_ & [=] & _)|(-> & _ & ?)] | intros [-> ?]; by right].
Qed.
Lemma parse_ls_remote_tags stdout :
  NoDup (map rf_name (List.filter (fun r => bool_decide (rf_kind r = Remote_Tag)) (parse_ls_remote repo_id stdout))).
Proof.
  unfold parse_ls_remote. fold (ref_lines stdout). pose proof (parse_fold (ref_lines stdout)) as Hf.
  destruct (foldl _ _ _) as [refs tags]. destruct Hf as [-> _].
  rewrite List.filter_app, (filter_tags _ false), (filter_tags _ true).
  - apply omap_names with fst; [|rewrite sort_by_perm; apply NoDup_fst_map_to_list].
    by intros e r (commit & _ & ->)%fmap_Some.
  - intros r (_ & -> & _)%tag_refs_spec. done.
  - intros r (_ & -> & _)%branch_refs. done.
Qed.

(** The refs read from a listing are exactly those it reports: a branch with a commit when a line
    says so, and a tag with the commit it peels to, or with its own hash when no
    line peels it; every other line is ignored, a later line for a tag replaces an earlier one, and no tag
    occurs twice. *)
Theorem parse_ls_remote_exact stdout :
  (forall r, r ∈ parse_ls_remote repo_id stdout
     <-> rf_repo_id r = repo_id
         /\ match rf_kind r with
            | Remote_Branch => (rf_commit r, HEADS ++ rf_name r) ∈ ref_lines stdout
            | Remote_Tag => tag_commit (ref_lines stdout) (rf_name r) = Some (rf_commit r)
            end)
  /\ NoDup (map rf_name (List.filter (fun r => bool_decide (rf_kind r = Remote_Tag)) (parse_ls_remote repo_id stdout))).
Proof. split; [apply parse_ls_remote_refs | apply parse_ls_remote_tags]. Qed.
End Listed.

(** ** The pins follow the refs *)
Section Following.
Context `{EventEnv}.
Variable lookup_repo : Z -> result (option GithubRepo) rstr.
Variable shell : rstr -> ShellOutcome.
(** What a repository's remote reports now. *)
Definition reports (id : Z) (stdout : rstr) : Prop :=
  exists repo, lookup_repo id = Ok (Some repo) /\ shell (repo_url repo) = Shell_exit true stdout.
Definition current_ref (r : RemoteRef) : Prop :=
  exists stdout, reports (rf_repo_id r) stdout /\ r ∈ parse_ls_remote (rf_repo_id r) stdout.
(** A commit that an unexpired pinned policy selects among the refs of its own repository. *)
Definition pinned_commit (policies : list (Z * TriggerPolicy)) (now : Z) (commit : rstr) : Prop :=
  exists p r, p ∈ policies /\ is_expired p.2 now = false /\ current_ref r /\ rf_repo_id r = tp_repo_id p.2
    /\ ref_matches (tp_match_spec p.2) r = true /\ rf_commit r = commit.

Lemma parse_repo id stdout r : r ∈ parse_ls_remote id stdout -> rf_repo_id r = id.
Proof. intros Hr. by apply (parse_ls_remote_refs id stdout) in Hr as [? _]. Qed.
Lemma resolve_refs_Some ids : forall acc refs,
  resolve_refs lookup_repo shell ids acc = Ok (Some refs) ->
  Forall (fun id => exists stdout, reports id stdout) ids
  /\ forall r, r ∈ refs <-> r ∈ acc \/ (rf_repo_id r ∈ ids /\ current_ref r).
Proof.
  induction ids as [|id ids IH]; intros acc refs Hr; cbn [resolve_refs] in Hr.
  { injection Hr as <-. split; [constructor|]. intros r. split; [by left | by intros [?|[?%elem_of_nil ?]]]. }
  destruct (lookup_repo id) as [[repo|]|] eqn:El; [|done|done].
  unfold ls_remote_refs in Hr. destruct (shell (repo_url repo)) as [|[] stdout] eqn:Es; [done| |done].
  assert (Hrep : reports id stdout) by (by exists repo).
  destruct (IH _ _ Hr) as [Hall Hin]. split; [constructor; eauto|]. intros r. rewrite Hin, elem_of_app, elem_of_cons.
  split.
  - intros [[?|Hp]|[? ?]]; [by left | | by auto]. pose proof (parse_repo _ _ _ Hp) as Hid.
    right. split; [by left|]. exists stdout. by rewrite Hid.
  - intros [?|[[Hid|?] Hc]]; [by auto | | by auto]. left. right.
    destruct Hc as (stdout' & (repo' & Hl' & Hs') & Hp). rewrite Hid in *. congruence.
Qed.
Lemma resolve_all ids : forall acc,
  Forall (fun id => exists stdout, reports id stdout) ids ->
  exists refs, resolve_refs lookup_repo shell ids acc = Ok (Some refs).
Proof.
  induction ids as [|id ids IH]; intros acc Hall; [by exists acc|].
  apply Forall_cons in Hall as [(stdout & repo & Hl & Hs) Hall]. cbn [resolve_refs]. rewrite Hl.
  unfold ls_remote_refs. rewrite Hs. by apply IH.
Qed.
Lemma pinned_targets_spec policies refs now t :
  t ∈ pinned_targets policies refs now
  <-> exists p r, p ∈ policies /\ is_expired p.2 now = false /\ r ∈ refs /\ rf_repo_id r = tp_repo_id p.2
      /\ ref_matches (tp_match_spec p.2) r = true /\ t = target_of p r.
Proof.
  unfold pinned_targets. rewrite list_elem_of_In, in_flat_map. unfold targets_of_policy. split.
  - intros (p & Hp & Ht). destruct (is_expired p.2 now) eqn:He; [done|].
    apply in_map_iff in Ht as (r & <- & (Hr & Hm)%filter_In). apply andb_true_iff in Hm as [Hid Hm].
    apply Z.eqb_eq in Hid. exists p, r. split_and!; try done; by apply list_elem_of_In.
  - intros (p & r & Hp & He & Hr & Hid & Hm & ->). exists p. split; [by apply list_elem_of_In|]. rewrite He.
    apply in_map, filter_In. split; [by apply list_elem_of_In|]. by rewrite Hm, andb_true_r, Z.eqb_eq.
Qed.
Lemma elem_of_repo_ids policies id : id ∈ repo_ids policies <-> exists p, p ∈ policies /\ tp_repo_id p.2 = id.
Proof.
  unfold repo_ids. rewrite sort_by_perm, elem_of_remove_dups, list_elem_of_fmap. naive_solver.
Qed.
Lemma commits_follow policies refs now commit :
  resolve_refs lookup_repo shell (repo_ids policies) [] = Ok (Some refs) ->
  commit ∈ commits_of (pinned_targets policies refs now) <-> pinned_commit policies now commit.
Proof.
  intros Hr. destruct (resolve_refs_Some _ _ _ Hr) as [_ Hin]. unfold commits_of.
  rewrite elem_of_list_to_set, list_elem_of_fmap. split.
  - intros (t & -> & (p & r & Hp & He & Hrr & Hid & Hm & ->)%pinned_targets_spec). exists p, r. split_and!; try done.
    apply Hin in Hrr as [?%elem_of_nil|[_ ?]]; done.
  - intros (p & r & Hp & He & Hc & Hid & Hm & <-). exists (target_of p r). split; [done|].
    apply pinned_targets_spec. exists p, r. split_and!; try done. apply Hin. right. split; [|done].
    rewrite Hid. apply elem_of_repo_ids. by exists p.
Qed.

Context {S : Type} `{CacheControlLaws S}.
(** C20: The pins of the cache follow the refs, or stay.  When every repository of a pinned policy
    reports its refs, then the entries left are pinned exactly when they were
    built in the current environment from a commit that an unexpired pinned policy selects among the
    current refs of its own repository, and none of those entries is evicted.  When
    one repository is unknown or its remote fails, the cache is left as it was. *)
Theorem pins_follow_refs policies env now cache :
  cc_valid cache ->
  let out := recompute_pins (Ok policies) lookup_repo shell env now cache in
  ((forall p, p ∈ policies -> exists stdout, reports (tp_repo_id p.2) stdout) ->
     (forall fp q, cc_holds out.2 fp q ->
        (q = true <-> env_matches env fp = true /\ pinned_commit policies now (fp_commit fp)))
     /\ (forall fp q, cc_holds cache fp q -> env_matches env fp = true ->
           pinned_commit policies now (fp_commit fp) -> cc_holds out.2 fp true))
  /\ ((exists p, p ∈ policies /\ forall stdout, ~ reports (tp_repo_id p.2) stdout) -> out.2 = cache).
Proof.
  intros Hv. cbv zeta. unfold recompute_pins. split.
  - intros Hall. destruct (resolve_all (repo_ids policies) []) as [refs Hr].
    { apply Forall_forall. intros id (p & Hp & <-)%elem_of_repo_ids. by apply Hall. }
    rewrite Hr. cbn [snd]. set (commits := commits_of _).
    assert (Hw : forall fp, wanted commits env fp = true
                   <-> env_matches env fp = true /\ pinned_commit policies now (fp_commit fp)).
    { intros fp. unfold wanted. rewrite andb_true_iff, bool_decide_eq_true. unfold commits.
      rewrite (commits_follow _ _ _ _ Hr). tauto. }
    assert (Hv' : cc_valid (cc_set_pinned_by_commit commits env cache)) by (by apply cc_pin_valid).
    split.
    + intros fp q Hh. apply cc_evict_sub in Hh; [|done]. apply cc_pin_exact in Hh as [-> _]; [|done]. apply Hw.
    + intros fp q Hh He Hc. apply cc_evict_spares; [done|]. apply cc_pin_exact; [done|].
      split; [symmetry; by apply Hw | by exists q].
  - intros (p & Hp & Hno). destruct (resolve_refs _ _ _ _) as [[refs|]|] eqn:Hr; [|done|done].
    destruct (resolve_refs_Some _ _ _ Hr) as [Hall _]. rewrite Forall_forall in Hall.
    destruct (Hall (tp_repo_id p.2)) as [stdout Hs]; [|by apply Hno in Hs].
    apply elem_of_repo_ids. by exists p.
Qed.
End Following.

(** ** Warming is exact *)
(** SHA-256 in lowercase hexadecimal. *)
Class LowerHex `{DigestEnv} : Prop :=
  lower_hex : forall text, length (sha256_hex text) = 64%nat /\ forallb lower_hex_digit (sha256_hex text) = true.
Record warm_target_ok (t : PinnedTarget) : Prop := {
  to_installation : 0 < pt_installation_id t;
  to_repo : 0 < pt_repo_id t;
  to_commit : trim (pt_commit t) <> [];
  to_ref : trim (pt_ref_name t) <> [];
  to_trigger : - 2 ^ 63 <= pt_trigger_id t <= I64_MAX
}.
(** The identifiers drawn for the target at position [i] are new, and those of the first [n] positions differ. *)
Definition warm_key (io : WarmIo) (i : nat) : rstr * rstr := (lit "cache_warm", uuid_string (wi_key io i)).
Record unused (io : WarmIo) (i : nat) (db : SubmissionDb) : Prop := {
  un_submission : su_submissions db !! ni_submission (wi_ids io i) = None;
  un_spec : su_specs db !! ni_spec (wi_ids io i) 0 = None;
  un_job : su_runs db !! ni_job (wi_ids io i) = None;
  un_provenance : su_provenance db !! ni_submission (wi_ids io i) = None;
  un_key : su_idempotency db !! warm_key io i = None
}.
Definition distinct_ids (io : WarmIo) (n : nat) : Prop := forall i j, (i < n)%nat -> (j < n)%nat -> i <> j ->
  ni_submission (wi_ids io i) <> ni_submission (wi_ids io j) /\ ni_spec (wi_ids io i) 0 <> ni_spec (wi_ids io j) 0
  /\ ni_job (wi_ids io i) <> ni_job (wi_ids io j) /\ uuid_string (wi_key io i) <> uuid_string (wi_key io j).
Lemma uuid_chars u : Forall printable (uuid_string u).
Proof.
  assert (Hh : Forall printable (hex_digits 32 u)).
  { apply Forall_forall. intros c (k & -> & _)%list_elem_of_fmap.
    pose proof (nibble_range u (4 * Z.of_nat k)). unfold printable, hex_digit. case_match; lia. }
  unfold uuid_string. repeat apply Forall_app_2; try (repeat constructor; unfold printable; lia); auto using Forall_take, Forall_drop.
Qed.
Lemma uuid_length u : length (uuid_string u) = 36%nat.
Proof.
  assert (Hl : length (hex_digits 32 u) = 32%nat) by (unfold hex_digits; by rewrite length_map, length_rev, length_seq).
  unfold uuid_string. repeat rewrite length_app. repeat rewrite length_take. repeat rewrite length_drop.
  rewrite Hl. reflexivity.
Qed.
Lemma uuid_valid_key u : valid_key (uuid_string u) 512 = true.
Proof.
  pose proof (uuid_chars u) as Hc. pose proof (uuid_length u) as Hl. unfold valid_key.
  rewrite (printable_len _ Hc), Hl. destruct (uuid_string u) as [|c s]; [done|]. rewrite printable_trim by done.
  cbn [is_empty negb andb]. change (Z.of_nat 36 <=? 512) with true. cbn [andb]. apply negb_true_iff.
  unfold any_char. apply not_true_iff_false. intros (d & Hin & Hd)%existsb_exists.
  rewrite Forall_forall in Hc. apply list_elem_of_In in Hin. destruct (printable_char d (Hc d Hin)) as (_ & Hn & _). congruence.
Qed.
Section Warmed.
Context `{LowerHex} {S : Type} `{CacheControl S}.
Definition warm_prepared (key : Uuid) (t : PinnedTarget) : PreparedSubmission :=
  {| ps_command := warm_command key t; ps_contract_version := SUBMISSION_CONTRACT_VERSION;
     ps_request_digest := sha256_hex (write_compact (digest_material (warm_command key t))) |}.
Lemma not_blank s : trim s <> [] -> is_empty (trim s) = false.
Proof. by destruct (trim s). Qed.
Lemma prepare_warm e key t : warm_target_ok t -> prepare e (warm_command key t) = Ok (warm_prepared key t).
Proof.
  intros [Hi Hr Hc Hn Ht]. unfold prepare, validate_command, warm_command.
  cbn [cmd_producer_key pk_namespace pk_key cmd_constraints SchedulingConstraints_default cmd_task cmd_actor
       cs_required_measurement_profile cmd_provenance pv_queued_event_detail].
  rewrite uuid_valid_key, queued_detail_roundtrip by exact Ht. change (valid_key (lit "cache_warm") 64) with true.
  cbn [andb ensure ok_or]. unfold validate_task, validate_source, warm_source. cbn [ensure rts_github_installation_id
    rts_github_repo_id rts_commit rts_git_ref_display rts_task_kind rts_build_target].
  rewrite (proj2 (Z.leb_gt _ _) Hi), (proj2 (Z.leb_gt _ _) Hr), !not_blank by done. reflexivity.
Qed.
Lemma insert_row_fresh `{Countable K} {A} (k : K) (row : A) m : m !! k = None -> insert_row k row m = Ok (<[k := row]> m).
Proof. intros Hk. unfold insert_row. by rewrite Hk. Qed.
(** The run that a warming queues. *)
Definition warm_run (io : WarmIo) (i : nat) (t : PinnedTarget) : Run :=
  initial_run (wi_ids io i) (warm_source t) (Plan_BuildOnly (warm_source t)).
Lemma persist_warm io i t db : unused io i db ->
  exists db', persist_submission (wi_ids io i) (warm_prepared (wi_key io i) t) db db
      = (Ok {| sbr_submission_id := ni_submission (wi_ids io i); sbr_disposition := Disp_Created;
               sbr_initial_job_ids := [ni_job (wi_ids io i)] |}, db')
    /\ su_runs db' = <[ni_job (wi_ids io i) := warm_run io i t]> (su_runs db)
    /\ forall n j, distinct_ids io n -> (i < n)%nat -> (j < n)%nat -> i <> j -> unused io j db -> unused io j db'.
Proof.
  intros [Hs Hp Hj Hv Hk]. unfold warm_key in Hk. unfold persist_submission, existing_receipt.
  cbn [warm_prepared ps_command warm_command cmd_producer_key pk_namespace pk_key cmd_task first_source ps_contract_version
       ps_request_digest]. rewrite Hk. unfold write_submission.
  cbn [warm_prepared ps_command warm_command cmd_producer_key pk_namespace pk_key cmd_task cmd_provenance cmd_actor
       pv_queued_event_detail pv_github pv_slack plan_variants actor_columns].
  rewrite insert_row_fresh by done. cbn [insert_specs ensure fst snd]. rewrite insert_row_fresh by exact Hp.
  change (ensure (1 <=? 1) (persistence "violates check constraint")) with (@Ok unit SubmissionError tt).
  cbn [insert_specs]. rewrite !insert_row_fresh by done.
  assert (Hrow : idempotency_row_ok (lit "cache_warm") (uuid_string (wi_key io i)) SUBMISSION_CONTRACT_VERSION
                   (sha256_hex (write_compact (digest_material (warm_command (wi_key io i) t)))) = true).
  { unfold idempotency_row_ok, length_within. rewrite uuid_length.
    destruct (lower_hex (write_compact (digest_material (warm_command (wi_key io i) t)))) as [-> ->]. reflexivity. }
  rewrite Hrow. cbn [negb]. eexists. split; [reflexivity|].
  split; [reflexivity|]. intros n j Hd Hi Hj' Hij [Us Up Uj Uv Uk]. destruct (Hd i j Hi Hj' Hij) as (D1 & D2 & D3 & D4).
  split; cbn [su_submissions su_specs su_runs su_provenance su_idempotency]; rewrite lookup_insert_ne; try done.
  by intros Heq%(f_equal snd).
Qed.

(** The runs of a table that count as an attempt to build a commit, for whatever repository. *)
Definition attempted (since : Z) (repo : Z) (commit : rstr) (jt : JobTable) : Prop :=
  exists id r, su_runs (jt_db jt) !! id = Some r
    /\ build_attempt repo commit Target_StacksBench since (jt_updated_at jt) id r = true.
Lemma recent_attempted repo commit since jt :
  recent_build_attempt repo commit Target_StacksBench since jt = None <-> ~ attempted since repo commit jt.
Proof.
  unfold recent_build_attempt, attempted.
  destruct (rows _ (su_runs (jt_db jt))) as [|[id r] l] eqn:E; cbn; split; try done.
  - intros _ (id & r & Hl & Hb).
    assert (Hin : (id, r) ∈ rows (build_attempt repo commit Target_StacksBench since (jt_updated_at jt))
                              (su_runs (jt_db jt))) by (by apply elem_of_rows).
    rewrite E in Hin. by apply elem_of_nil in Hin.
  - intros Hn. exfalso. apply Hn. exists id, r. apply elem_of_rows. rewrite E. by left.
Qed.
Lemma recent_Some repo commit since jt id :
  recent_build_attempt repo commit Target_StacksBench since jt = Some id -> attempted since repo commit jt.
Proof.
  unfold recent_build_attempt. intros ([id' r] & Hh & _)%fmap_Some. exists id', r. apply elem_of_rows.
  by apply head_Some_elem_of.
Qed.
(** A table that has grown. *)
Record grown (jt jt' : JobTable) : Prop := {
  gw_runs : su_runs (jt_db jt) ⊆ su_runs (jt_db jt');
  gw_times : forall id, is_Some (su_runs (jt_db jt) !! id) -> jt_updated_at jt' !! id = jt_updated_at jt !! id
}.
#[local] Instance grown_pre : PreOrder grown.
Proof.
  split; [by split|]. intros a b c [Hab Tab] [Hbc Tbc]. split; [by etransitivity|]. intros id [r Hr].
  rewrite Tbc by (exists r; by eapply lookup_weaken). by apply Tab.
Qed.
Lemma attempted_grown since repo commit jt jt' :
  grown jt jt' -> attempted since repo commit jt -> attempted since repo commit jt'.
Proof.
  intros [Hr Ht] (id & r & Hl & Hb). exists id, r. split; [by eapply lookup_weaken|].
  revert Hb. unfold build_attempt. by rewrite Ht.
Qed.

Section Loop.
Variables (io : WarmIo) (cache : S) (env : CacheEnvironment) (now : Z).
Hypothesis no_faults : forall i, wi_query_ok io i = true /\ wi_submit_ok io i = true.
Variable n : nat.
Hypothesis Hdistinct : distinct_ids io n.
Let since := now - WARM_RETRY_COOLDOWN_SECS.

(** One target: nothing to do, or one queued run. *)
Lemma warm_target_cases i t ws : (i < n)%nat -> warm_target_ok t -> unused io i (jt_db (ws_jobs ws)) ->
  let ws' := warm_target io cache env now i t ws in
  (ws' = ws /\ (cc_has_entry_for (pt_commit t) env cache = true \/ pt_commit t ∈ ws_seen ws
                \/ attempted since (pt_repo_id t) (pt_commit t) (ws_jobs ws)))
  \/ (cc_has_entry_for (pt_commit t) env cache = false /\ pt_commit t ∉ ws_seen ws
      /\ ~ attempted since (pt_repo_id t) (pt_commit t) (ws_jobs ws)
      /\ su_runs (jt_db (ws_jobs ws')) = <[ni_job (wi_ids io i) := warm_run io i t]> (su_runs (jt_db (ws_jobs ws)))
      /\ grown (ws_jobs ws) (ws_jobs ws') /\ ws_seen ws' = {[ pt_commit t ]} ∪ ws_seen ws
      /\ forall j, (j < n)%nat -> i <> j -> unused io j (jt_db (ws_jobs ws)) -> unused io j (jt_db (ws_jobs ws'))).
Proof.
  intros Hi Ht Hu. cbv zeta. unfold warm_target. destruct (cc_has_entry_for (pt_commit t) env cache) eqn:Ec; [by left; auto|].
  case_bool_decide as Hs; [by left; auto|]. destruct (no_faults i) as [-> Hok]. cbn [negb]. fold since.
  destruct (recent_build_attempt _ _ _ since (ws_jobs ws)) eqn:Er.
  { left. split; [done|]. right. right. by eapply recent_Some. }
  apply recent_attempted in Er. right. unfold submit_warm. rewrite prepare_warm, Hok by done.
  destruct (persist_warm io i t _ Hu) as (db' & -> & Hruns & Hkeep). cbn [ws_jobs ws_seen jt_db].
  split_and!; try done; [|intros j Hj Hij; by apply (Hkeep n)].
  destruct Hu as [_ _ Hj _ _]. split; cbn [jt_db jt_updated_at].
  - rewrite Hruns. by apply insert_subseteq.
  - intros id [r Hr]. rewrite lookup_insert_ne; [done|]. intros <-. congruence.
Qed.

(** A new run is the build of a target that was missing. *)
Definition warms (targets : list PinnedTarget) (ws : WarmState) (id : Uuid) (r : Run) : Prop :=
  exists t k, t ∈ targets /\ id = ni_job (wi_ids io k) /\ r = warm_run io k t
    /\ cc_has_entry_for (pt_commit t) env cache = false /\ pt_commit t ∉ ws_seen ws
    /\ ~ attempted since (pt_repo_id t) (pt_commit t) (ws_jobs ws).
Record warmed (targets : list PinnedTarget) (ws ws' : WarmState) : Prop := {
  wm_grown : grown (ws_jobs ws) (ws_jobs ws');
  wm_covered : forall t, t ∈ targets ->
    cc_has_entry_for (pt_commit t) env cache = true \/ exists repo, attempted since repo (pt_commit t) (ws_jobs ws');
  wm_new : forall id r, su_runs (jt_db (ws_jobs ws')) !! id = Some r ->
    su_runs (jt_db (ws_jobs ws)) !! id = Some r \/ warms targets ws id r;
  wm_once : forall id id' r r', su_runs (jt_db (ws_jobs ws')) !! id = Some r ->
    su_runs (jt_db (ws_jobs ws')) !! id' = Some r' -> su_runs (jt_db (ws_jobs ws)) !! id = None ->
    su_runs (jt_db (ws_jobs ws)) !! id' = None -> rr_commit (run_row r) = rr_commit (run_row r') -> id = id'
}.
Lemma warm_run_attempted i t jt :
  su_runs (jt_db jt) !! ni_job (wi_ids io i) = Some (warm_run io i t) -> attempted since (pt_repo_id t) (pt_commit t) jt.
Proof.
  intros Hl. exists (ni_job (wi_ids io i)), (warm_run io i t). split; [done|].
  unfold build_attempt, warm_run, initial_run, warm_source. cbn.
  by rewrite Z.eqb_refl, !bool_decide_eq_true_2.
Qed.
Lemma warm_loop_spec targets : forall i ws,
  (i + length targets <= n)%nat -> Forall warm_target_ok targets -> (forall j, (i <= j < n)%nat -> unused io j (jt_db (ws_jobs ws))) ->
  (forall c, c ∈ ws_seen ws -> exists repo, attempted since repo c (ws_jobs ws)) ->
  warmed targets ws (warm_loop io cache env now i targets ws).
Proof.
  induction targets as [|t targets IH]; intros i ws Hlen Hok Hu Hseen; cbn [length] in Hlen.
  { split; cbn; [done | by intros t ?%elem_of_nil | by left | congruence]. }
  apply Forall_cons in Hok as [Ht Hok]. cbn [warm_loop].
  destruct (warm_target_cases i t ws ltac:(lia) Ht (Hu i ltac:(lia))) as [[-> Hcov]|(Hc & Hns & Hna & Hruns & Hg & Hs & Hkeep)].
  - destruct (IH (Datatypes.S i) ws ltac:(lia) Hok) as [Gg Gc Gn Go]; [intros j Hj; apply Hu; lia | done|]. split; try done.
    + intros t' [->|Hin]%elem_of_cons; [|by apply Gc].
      destruct Hcov as [?|[Hin|Ha]]; [by left | |]; right.
      * destruct (Hseen _ Hin) as [repo Ha]. exists repo. by eapply attempted_grown.
      * exists (pt_repo_id t). by eapply attempted_grown.
    + intros id r Hl. destruct (Gn id r Hl) as [?|(t' & k & Hin & Hrest)]; [by left|]. right. exists t', k.
      split; [by right | done].
  - set (ws1 := warm_target io cache env now i t ws) in *.
    assert (Hnew : attempted since (pt_repo_id t) (pt_commit t) (ws_jobs ws1)).
    { apply (warm_run_attempted i). rewrite Hruns. apply lookup_insert_eq. }
    destruct (IH (Datatypes.S i) ws1 ltac:(lia) Hok) as [Gg Gc Gn Go].
    { intros j Hj. apply Hkeep; [lia | lia|]. apply Hu. lia. }
    { intros c. rewrite Hs. intros [->%elem_of_singleton|Hin]%elem_of_union; [by eauto|].
      destruct (Hseen c Hin) as [repo Ha]. exists repo. by eapply attempted_grown. }
    assert (Hcases : forall id r, su_runs (jt_db (ws_jobs ws1)) !! id = Some r ->
      su_runs (jt_db (ws_jobs ws)) !! id = Some r \/ (id = ni_job (wi_ids io i) /\ r = warm_run io i t)).
    { intros id r. rewrite Hruns. intros [[<- <-]|[_ ?]]%lookup_insert_Some; auto. }
    assert (Hlater : forall id r, su_runs (jt_db (ws_jobs (warm_loop io cache env now (Datatypes.S i) targets ws1))) !! id = Some r ->
      su_runs (jt_db (ws_jobs ws1)) !! id = None -> rr_commit (run_row r) <> Some (pt_commit t)).
    { intros id r Hl Hn. destruct (Gn id r Hl) as [?|(t' & k & _ & _ & -> & _ & Hout & _)]; [congruence|].
      cbn. intros [= Heq]. apply Hout. rewrite Hs, Heq. set_solver. }
    split.
    + by etransitivity.
    + intros t' [->|Hin]%elem_of_cons; [|by apply Gc]. right. exists (pt_repo_id t). by eapply attempted_grown.
    + intros id r Hl. destruct (Gn id r Hl) as [[?|[-> ->]]%Hcases|(t' & k & Hin & Hid & Hr & Hn1 & Hn2 & Hn3)]; [by left | |]; right.
      * exists t, i. split_and!; try done. by left.
      * exists t', k. split_and!; try done; [by right | rewrite Hs in Hn2; set_solver|].
        intros Ha. apply Hn3. by eapply attempted_grown.
    + intros id id' r r' Hl Hl' Hn Hn' Heq.
      destruct (su_runs (jt_db (ws_jobs ws1)) !! id) as [r0|] eqn:E0, (su_runs (jt_db (ws_jobs ws1)) !! id') as [r1|] eqn:E1.
      * apply Hcases in E0 as [?|[-> _]]; [congruence|]. apply Hcases in E1 as [?|[-> _]]; [congruence | done].
      * pose proof (lookup_weaken _ _ _ _ E0 (gw_runs _ _ Gg)) as Hw. apply Hcases in E0 as [?|[-> ->]]; [congruence|].
        rewrite Hl in Hw. injection Hw as ->. destruct (Hlater id' r' Hl' E1). by rewrite <- Heq.
      * pose proof (lookup_weaken _ _ _ _ E1 (gw_runs _ _ Gg)) as Hw. apply Hcases in E1 as [?|[-> ->]]; [congruence|].
        rewrite Hl' in Hw. injection Hw as ->. destruct (Hlater id r Hl E0). by rewrite Heq.
      * by eapply Go.
Qed.
End Loop.

(** C21: Warming is exact when the store answers.  Every pinned target is cached or, afterwards, its commit has
    a build that is queued, claimed, running, or failed within the cooldown; the runs
    that were there stay; every new run is the queued build of a target whose binary was missing and whose
    repository had no such attempt; and no commit gets two new runs. *)
Theorem warming_exact io cache env now targets jt :
  (forall i, wi_query_ok io i = true /\ wi_submit_ok io i = true) ->
  distinct_ids io (length targets) -> (forall i, (i < length targets)%nat -> unused io i (jt_db jt)) ->
  Forall warm_target_ok targets ->
  let since := now - WARM_RETRY_COOLDOWN_SECS in
  let jt' := warm_missing io cache targets env now jt in
  let runs := su_runs (jt_db jt) in
  let runs' := su_runs (jt_db jt') in
  (forall t, t ∈ targets ->
     cc_has_entry_for (pt_commit t) env cache = true \/ exists repo, attempted since repo (pt_commit t) jt')
  /\ runs ⊆ runs'
  /\ (forall id r, runs' !! id = Some r -> runs !! id = Some r
        \/ exists t k, t ∈ targets /\ id = ni_job (wi_ids io k) /\ r = warm_run io k t
            /\ cc_has_entry_for (pt_commit t) env cache = false
            /\ ~ attempted since (pt_repo_id t) (pt_commit t) jt)
  /\ (forall id id' r r', runs' !! id = Some r -> runs' !! id' = Some r' -> runs !! id = None -> runs !! id' = None ->
        rr_commit (run_row r) = rr_commit (run_row r') -> id = id').
Proof.
  intros Hok Hd Hu Ht. cbv zeta. unfold warm_missing.
  destruct (warm_loop_spec io cache env now Hok (length targets) Hd targets 0 {| ws_jobs := jt; ws_seen := ∅ |})
    as [[Hr _] Hc Hnew Hone]; [lia | done | intros j Hj; apply Hu; lia | by intros c ?%elem_of_empty|].
  split_and!; try done. intros id r Hl. destruct (Hnew id r Hl) as [?|(t & k & H1' & H2' & H3' & H4' & _ & H5')]; [by left|].
  right. by exists t, k.
Qed.
End Warmed.

(** ** Runs of the model *)
Section Demo.
#[local] Existing Instances plain_digest map_listing.
#[local] Instance pin_events : EventEnv :=
  {| parse_datetime := fun _ => None; regex_is_match := fun _ _ => Err []; serde_text := [] |}.
#[local] Instance pin_cache : CacheControl (gmap rstr EntryDir) := BinaryCache_control 0.
#[local] Instance pin_cache_laws : CacheControlLaws (gmap rstr EntryDir) := BinaryCache_laws 0.
(** An annotated tag, a lightweight one and a pull request. *)
Definition nl : string := String (Ascii.ascii_of_nat 10) EmptyString.
Definition demo_listing : rstr := lit (String.concat nl
  ["a refs/heads/main"; "p refs/pull/1/head"; "o refs/tags/v2"; "c refs/tags/v2^{}"; "d refs/tags/v1"]).
Lemma demo_parsed : map (fun r => (rf_kind r, rf_name r, rf_commit r)) (parse_ls_remote 9 demo_listing)
  = [(Remote_Branch, lit "main", lit "a"); (Remote_Tag, lit "v1", lit "d"); (Remote_Tag, lit "v2", lit "c")].
Proof. vm_compute. reflexivity. Qed.
Definition pin_policy : TriggerPolicy :=
  {| tp_installation_id := 7; tp_repo_id := 9; tp_kind := Trig_BranchPush;
     tp_match_spec := jobj [("kind", jstr (lit "branch_push")); ("branch_name", jstr (lit "main"))];
     tp_bench_args := None; tp_is_enabled := true; tp_pinned := true; tp_pinned_until := Some 100 |}.
Definition pin_repo : GithubRepo :=
  {| gr_owner := lit "o"; gr_name := lit "r"; gr_default_branch := None; gr_is_fork := None; gr_parent := None;
     gr_fork_root := None; gr_lineage_checked_at := None |}.
Definition pin_lookup (id : Z) : result (option GithubRepo) rstr := Ok (Some pin_repo).
Definition pin_shell (url : rstr) : ShellOutcome := Shell_exit true demo_listing.
Definition pin_env : CacheEnvironment := environment (demo_fp [97]).
Definition main_ref : RemoteRef :=
  {| rf_repo_id := 9; rf_name := lit "main"; rf_kind := Remote_Branch; rf_commit := [97] |}.
Lemma demo_held : holds_entry demo_two (demo_fp [97]) false.
Proof.
  exists (digest (demo_fp [97])), (published_entry (demo_fp [97]) (demo_bin 4 1) 10 false), demo_meta.
  split; [exact demo_entry|]. done.
Qed.
Lemma demo_pinned_commit : pinned_commit pin_lookup pin_shell [(1, pin_policy)] 50 [97].
Proof.
  exists (1, pin_policy), main_ref. split_and!; try done; [by left|]. exists demo_listing.
  split; [by exists pin_repo|]. assert (Hp : exists l, parse_ls_remote 9 demo_listing = main_ref :: l).
  { eexists. vm_compute. reflexivity. }
  destruct Hp as [l Hp]. change (rf_repo_id main_ref) with 9. rewrite Hp. by left.
Qed.
(** With no room at all, the entry of the pinned ref stays. *)
Lemma pins_follow_refs_witness :
  cc_holds (recompute_pins (Ok [(1, pin_policy)]) pin_lookup pin_shell pin_env 50 demo_two).2 (demo_fp [97]) true.
Proof.
  assert (Hv : cc_valid demo_two) by exact demo_named.
  destruct (pins_follow_refs pin_lookup pin_shell [(1, pin_policy)] pin_env 50 demo_two Hv) as [[_ Hkeep] _].
  - intros p _. by exists demo_listing, pin_repo.
  - apply (Hkeep (demo_fp [97]) false); [exact demo_held | reflexivity | exact demo_pinned_commit].
Defined.

(** Two repositories pin one missing commit; a third one pins a cached commit. *)
#[local] Instance hex_digest : DigestEnv := {| scalar_bytes := unary_scalar; sha256_hex := fun _ => repeat 97 64 |}.
#[local] Instance hex_digest_lower : LowerHex.
Proof. intros text. split; reflexivity. Qed.
Definition demo_target (repo : Z) (commit : rstr) : PinnedTarget :=
  {| pt_trigger_id := repo; pt_installation_id := 7; pt_repo_id := repo; pt_ref_kind := Remote_Branch;
     pt_ref_name := lit "main"; pt_commit := commit; pt_bench_args := None |}.
Definition demo_targets : list PinnedTarget := [demo_target 9 [99]; demo_target 10 [99]; demo_target 11 [97]].
Definition demo_warm_io : WarmIo :=
  {| wi_query_ok := fun _ => true; wi_submit_ok := fun _ => true; wi_key := fun i => Z.of_nat i + 1;
     wi_ids := fun i => {| ni_submission := Z.of_nat i + 100; ni_job := Z.of_nat i + 200;
                           ni_spec := fun n => Z.of_nat i + 300 |};
     wi_serde_error := [] |}.
Definition demo_jobs : JobTable := {| jt_db := empty_store; jt_updated_at := ∅ |}.
Lemma demo_target_ok repo commit : 0 < repo <= I64_MAX -> trim commit <> [] -> warm_target_ok (demo_target repo commit).
Proof. intros Hr Hc. split; cbn; try done; lia. Qed.
Lemma demo_targets_ok : Forall warm_target_ok demo_targets.
Proof. unfold I64_MAX in *. repeat apply Forall_cons_2; try apply Forall_nil_2; (apply demo_target_ok; [unfold I64_MAX; lia | discriminate]). Qed.
Lemma demo_distinct : distinct_ids demo_warm_io 3.
Proof.
  intros i j Hi Hj Hij. cbn. split_and!; try lia. intros Heq%uuid_string_inj; lia.
Qed.
Lemma warming_exact_witness :
  let jt' := warm_missing demo_warm_io demo_two demo_targets pin_env 1000000 demo_jobs in
  (exists repo, attempted (1000000 - WARM_RETRY_COOLDOWN_SECS) repo [99] jt')
  /\ map_size (su_runs (jt_db jt')) = 1%nat.
Proof.
  cbv zeta. split; [|exact eq_refl].
  destruct (warming_exact demo_warm_io demo_two pin_env 1000000 demo_targets demo_jobs) as [Hc _].
  - done.
  - exact demo_distinct.
  - intros i _. split; exact eq_refl.
  - exact demo_targets_ok.
  - destruct (Hc (demo_target 10 [99])) as [Hh|Ha]; [right; by left | | exact Ha].
    exfalso. vm_compute in Hh. discriminate Hh.
Defined.
End Demo.
