(* ===== verification/FleetSpec.v ===== *)
(** * The fleet lifecycle, abstractly

    What the store promises about jobs, attempts, fences and cleanup, as a small
    state machine.  A submission carries a fence that grows with every offer; a
    job is queued, claimed by an offer, running, or terminal; an attempt that
    loses its authority after execution started leaves a cleanup obligation that
    keeps the job out of the queue.  [lifecycle_inv] is the invariant of the
    machine; FleetRefine.v shows that the store implements it. *)
From stdpp Require Import base list strings gmap relations.
From Stdlib Require Import ZArith Lia.
From S2P Require Import Prelude RustStr Json FleetModel Negotiation Validate FleetDb.

Local Open Scope Z_scope.

Record LJob := { lj_submission : Uuid; lj_status : JobStatus; lj_claim : option Uuid }.
Record LAttempt := {
  la_job : Uuid; la_submission : Uuid; la_worker : Uuid; la_claim : Uuid; la_fence : Z;
  la_status : AttemptStatus
}.
Record LCleanup := {
  lc_worker : Uuid; lc_attempt : Uuid; lc_job : Uuid; lc_status : CleanupStatus; lc_requeue : bool
}.
Record Lifecycle := {
  lf_fences : gmap Uuid Z;
  lf_jobs : gmap Uuid LJob;
  lf_attempts : gmap Uuid LAttempt;
  lf_cleanups : gmap Z LCleanup
}.

Definition lj_set (st : JobStatus) (claim : option Uuid) (j : LJob) : LJob :=
  {| lj_submission := lj_submission j; lj_status := st; lj_claim := claim |}.
Definition la_set (st : AttemptStatus) (a : LAttempt) : LAttempt :=
  {| la_job := la_job a; la_submission := la_submission a; la_worker := la_worker a;
     la_claim := la_claim a; la_fence := la_fence a; la_status := st |}.
Definition lc_set (st : CleanupStatus) (requeue : bool) (c : LCleanup) : LCleanup :=
  {| lc_worker := lc_worker c; lc_attempt := lc_attempt c; lc_job := lc_job c;
     lc_status := st; lc_requeue := requeue |}.

Definition la_active (a : LAttempt) : Prop := attempt_active (la_status a) = true.
Definition la_executing (a : LAttempt) : Prop := attempt_executing (la_status a) = true.
Definition la_terminal (a : LAttempt) : Prop := attempt_terminal (la_status a) = true.
Definition lost (st : AttemptStatus) : Prop := st = A_Expired \/ st = A_Fenced.

(** The job status a terminal attempt leaves. *)
Definition outcome_of (st : AttemptStatus) : JobStatus :=
  match st with A_Completed => J_Completed | A_Failed => J_Failed | _ => J_Cancelled end.

Definition set_job (id : Uuid) (j : LJob) (s : Lifecycle) : Lifecycle :=
  {| lf_fences := lf_fences s; lf_jobs := <[id := j]> (lf_jobs s); lf_attempts := lf_attempts s;
     lf_cleanups := lf_cleanups s |}.
Definition set_attempt (id : Uuid) (a : LAttempt) (s : Lifecycle) : Lifecycle :=
  {| lf_fences := lf_fences s; lf_jobs := lf_jobs s; lf_attempts := <[id := a]> (lf_attempts s);
     lf_cleanups := lf_cleanups s |}.
Definition set_cleanup (id : Z) (c : LCleanup) (s : Lifecycle) : Lifecycle :=
  {| lf_fences := lf_fences s; lf_jobs := lf_jobs s; lf_attempts := lf_attempts s;
     lf_cleanups := <[id := c]> (lf_cleanups s) |}.
Definition set_fence (id : Uuid) (f : Z) (s : Lifecycle) : Lifecycle :=
  {| lf_fences := <[id := f]> (lf_fences s); lf_jobs := lf_jobs s; lf_attempts := lf_attempts s;
     lf_cleanups := lf_cleanups s |}.

(** ** Transitions *)
Inductive lifecycle_step : Lifecycle -> Lifecycle -> Prop :=
| ls_submission s id f :
    lf_fences s !! id = None -> 0 <= f -> lifecycle_step s (set_fence id f s)
| ls_job s id sub :
    lf_jobs s !! id = None ->
    lifecycle_step s (set_job id {| lj_submission := sub; lj_status := J_Queued;
                                    lj_claim := None |} s)
| ls_offer s id job j f worker claim :
    lf_jobs s !! job = Some j -> lj_status j = J_Queued ->
    lf_fences s !! lj_submission j = Some f ->
    (forall k a, lf_attempts s !! k = Some a -> la_submission a = lj_submission j ->
       ~ la_active a) ->
    lf_attempts s !! id = None ->
    lifecycle_step s
      (set_attempt id {| la_job := job; la_submission := lj_submission j; la_worker := worker;
                         la_claim := claim; la_fence := f + 1; la_status := A_Offered |}
        (set_job job (lj_set J_Claimed (Some claim) j) (set_fence (lj_submission j) (f + 1) s)))
| ls_accept s id a j :
    lf_attempts s !! id = Some a -> la_status a = A_Offered ->
    lf_jobs s !! la_job a = Some j -> lj_status j = J_Claimed -> lj_claim j = Some (la_claim a) ->
    lifecycle_step s
      (set_attempt id (la_set A_Running a) (set_job (la_job a) (lj_set J_Running (lj_claim j) j) s))
| ls_cancel_request s id a :
    lf_attempts s !! id = Some a -> la_executing a ->
    lifecycle_step s (set_attempt id (la_set A_CancelRequested a) s)
| ls_release s id a j st :
    lf_attempts s !! id = Some a -> la_status a = A_Offered -> lost st ->
    lf_jobs s !! la_job a = Some j -> lj_status j = J_Claimed ->
    lifecycle_step s
      (set_job (la_job a) (lj_set J_Queued None j) (set_attempt id (la_set st a) s))
| ls_cancel_offer s id a j :
    lf_attempts s !! id = Some a -> la_status a = A_Offered ->
    lf_jobs s !! la_job a = Some j -> lj_status j = J_Claimed ->
    lifecycle_step s
      (set_job (la_job a) (lj_set J_Cancelled None j) (set_attempt id (la_set A_Fenced a) s))
| ls_abandon s id a st ob requeue :
    lf_attempts s !! id = Some a -> la_executing a -> lost st -> lf_cleanups s !! ob = None ->
    lifecycle_step s
      (set_cleanup ob {| lc_worker := la_worker a; lc_attempt := id; lc_job := la_job a;
                         lc_status := C_Pending; lc_requeue := requeue |}
        (set_attempt id (la_set st a) s))
| ls_terminal s id a j st :
    lf_attempts s !! id = Some a -> la_executing a -> attempt_terminal st = true ->
    lf_jobs s !! la_job a = Some j -> lj_status j = J_Running -> lj_claim j = Some (la_claim a) ->
    lifecycle_step s
      (set_attempt id (la_set st a) (set_job (la_job a) (lj_set (outcome_of st) (lj_claim j) j) s))
| ls_cleanup s ob c j :
    lf_cleanups s !! ob = Some c -> lc_status c = C_Pending ->
    lf_jobs s !! lc_job c = Some j -> lj_status j = J_Running ->
    lifecycle_step s
      (set_job (lc_job c)
         (if lc_requeue c then lj_set J_Queued None j else lj_set J_Cancelled (lj_claim j) j)
         (set_cleanup ob (lc_set C_Completed (lc_requeue c) c) s))
| ls_waive s ob c j :
    lf_cleanups s !! ob = Some c -> lc_status c = C_Pending ->
    lf_jobs s !! lc_job c = Some j -> lj_status j = J_Running ->
    lifecycle_step s
      (set_job (lc_job c) (lj_set J_Cancelled (lj_claim j) j)
         (set_cleanup ob (lc_set C_Abandoned (lc_requeue c) c) s))
| ls_keep s ob c :
    lf_cleanups s !! ob = Some c -> lc_status c = C_Pending ->
    lifecycle_step s (set_cleanup ob (lc_set C_Pending false c) s)
| ls_drop_queued s job j st :
    lf_jobs s !! job = Some j -> lj_status j = J_Queued -> (st = J_Cancelled \/ st = J_Failed) ->
    lifecycle_step s (set_job job (lj_set st None j) s).

(** ** The invariant *)
Record lifecycle_inv (s : Lifecycle) : Prop := {
  (** An active attempt holds its job's claim, and the job is in the matching
      state. *)
  li_active : forall id a, lf_attempts s !! id = Some a -> la_active a ->
    exists j, lf_jobs s !! la_job a = Some j /\ lj_submission j = la_submission a
      /\ lj_claim j = Some (la_claim a)
      /\ lj_status j = (if decide (la_status a = A_Offered) then J_Claimed else J_Running);
  (** One active attempt per submission. *)
  li_unique : forall id id' a a', lf_attempts s !! id = Some a -> lf_attempts s !! id' = Some a' ->
    la_active a -> la_active a' -> la_submission a = la_submission a' -> id = id';
  (** Fences are positive and bounded by the submission's; an active attempt
      holds the submission's current one. *)
  li_fence : forall id a, lf_attempts s !! id = Some a ->
    exists f, lf_fences s !! la_submission a = Some f /\ 1 <= la_fence a <= f
      /\ (la_active a -> la_fence a = f);
  li_fence_nonneg : forall id f, lf_fences s !! id = Some f -> 0 <= f;
  (** No two attempts of a submission share a fence. *)
  li_fence_unique : forall id id' a a', lf_attempts s !! id = Some a ->
    lf_attempts s !! id' = Some a' -> la_submission a = la_submission a' ->
    la_fence a = la_fence a' -> id = id';
  (** A terminal attempt's job has its outcome; no other attempt of the job is
      terminal. *)
  li_terminal : forall id a, lf_attempts s !! id = Some a -> la_terminal a ->
    exists j, lf_jobs s !! la_job a = Some j /\ lj_status j = outcome_of (la_status a);
  li_terminal_unique : forall id id' a a', lf_attempts s !! id = Some a ->
    lf_attempts s !! id' = Some a' -> la_terminal a -> la_terminal a' ->
    la_job a = la_job a' -> id = id';
  (** A claimed job has its offer, a running one an execution or a pending
      cleanup, a queued one no claim. *)
  li_claimed : forall job j, lf_jobs s !! job = Some j -> lj_status j = J_Claimed ->
    exists id a, lf_attempts s !! id = Some a /\ la_job a = job /\ la_status a = A_Offered;
  li_running : forall job j, lf_jobs s !! job = Some j -> lj_status j = J_Running ->
    (exists id a, lf_attempts s !! id = Some a /\ la_job a = job /\ la_executing a)
    \/ (exists ob c, lf_cleanups s !! ob = Some c /\ lc_job c = job /\ lc_status c = C_Pending);
  li_queued : forall job j, lf_jobs s !! job = Some j -> lj_status j = J_Queued ->
    lj_claim j = None;
  (** An obligation belongs to an attempt that lost its authority; a pending one
      holds the running job alone. *)
  li_cleanup : forall ob c, lf_cleanups s !! ob = Some c ->
    exists a, lf_attempts s !! lc_attempt c = Some a /\ la_job a = lc_job c
      /\ la_worker a = lc_worker c /\ lost (la_status a);
  li_pending : forall ob c, lf_cleanups s !! ob = Some c -> lc_status c = C_Pending ->
    (exists j, lf_jobs s !! lc_job c = Some j /\ lj_status j = J_Running)
    /\ (forall id a, lf_attempts s !! id = Some a -> la_job a = lc_job c -> ~ la_active a);
  li_pending_unique : forall ob ob' c c', lf_cleanups s !! ob = Some c ->
    lf_cleanups s !! ob' = Some c' -> lc_status c = C_Pending -> lc_status c' = C_Pending ->
    lc_job c = lc_job c' -> ob = ob'
}.

(** ** Consequences of the invariant *)
Section Consequences.
Context (s : Lifecycle) (Hinv : lifecycle_inv s).

Lemma active_job_unique id id' a a' :
  lf_attempts s !! id = Some a -> lf_attempts s !! id' = Some a' ->
  la_active a -> la_active a' -> la_job a = la_job a' -> id = id'.
Proof.
  intros Ha Ha' Hact Hact' Hj.
  destruct (li_active s Hinv id a Ha Hact) as (j & Hl & Hs & _).
  destruct (li_active s Hinv id' a' Ha' Hact') as (j' & Hl' & Hs' & _).
  eapply (li_unique s Hinv); eauto. congruence.
Qed.

Lemma active_excludes_terminal id id' a a' :
  lf_attempts s !! id = Some a -> lf_attempts s !! id' = Some a' ->
  la_active a -> la_terminal a' -> la_job a = la_job a' -> False.
Proof.
  intros Ha Ha' Hact Hterm Hj.
  destruct (li_active s Hinv id a Ha Hact) as (j & Hl & _ & _ & Hs).
  destruct (li_terminal s Hinv id' a' Ha' Hterm) as (j' & Hl' & Hs').
  rewrite Hj in Hl. rewrite Hl in Hl'. injection Hl' as ->. rewrite Hs in Hs'.
  unfold la_terminal in Hterm. destruct (decide _), (la_status a'); done.
Qed.

Lemma pending_excludes_terminal ob c id a :
  lf_cleanups s !! ob = Some c -> lc_status c = C_Pending ->
  lf_attempts s !! id = Some a -> la_terminal a -> la_job a = lc_job c -> False.
Proof.
  intros Hc Hp Ha Hterm Hj. destruct (li_pending s Hinv ob c Hc Hp) as [(j & Hl & Hs) _].
  destruct (li_terminal s Hinv id a Ha Hterm) as (j' & Hl' & Hs').
  rewrite Hj in Hl'. rewrite Hl in Hl'. injection Hl' as ->. rewrite Hs in Hs'.
  unfold la_terminal in Hterm. destruct (la_status a); done.
Qed.

Lemma executing_active a : la_executing a -> la_active a.
Proof. unfold la_executing, la_active. by destruct (la_status a). Qed.
Lemma offered_active a : la_status a = A_Offered -> la_active a.
Proof. unfold la_active. by intros ->. Qed.
Lemma executing_job id a :
  lf_attempts s !! id = Some a -> la_executing a ->
  exists j, lf_jobs s !! la_job a = Some j /\ lj_submission j = la_submission a
    /\ lj_claim j = Some (la_claim a) /\ lj_status j = J_Running.
Proof.
  intros Ha He. destruct (li_active s Hinv id a Ha (executing_active a He)) as (j & ? & ? & ? & Hs).
  exists j. split_and!; try done. rewrite Hs. unfold la_executing in He.
  by destruct (la_status a).
Qed.
Lemma offered_job id a :
  lf_attempts s !! id = Some a -> la_status a = A_Offered ->
  exists j, lf_jobs s !! la_job a = Some j /\ lj_submission j = la_submission a
    /\ lj_claim j = Some (la_claim a) /\ lj_status j = J_Claimed.
Proof.
  intros Ha Ho. destruct (li_active s Hinv id a Ha (offered_active a Ho)) as (j & ? & ? & ? & Hs).
  exists j. split_and!; try done. by rewrite Hs, Ho.
Qed.
End Consequences.

(** Case analysis on updated tables: in hypotheses and in the goal. *)
Ltac table :=
  repeat first
  [ progress simpl in *
  | progress simplify_eq
  | match goal with
    | H : <[_ := _]> _ !! _ = Some _ |- _ => apply lookup_insert_Some in H as [[? ?]|[? H]]
    | |- context [<[?i := _]> _ !! ?k] =>
        let E := fresh "Heq" in
        destruct (decide (i = k)) as [E|?];
        [try subst k; try rewrite E; rewrite lookup_insert_eq | rewrite lookup_insert_ne by done]
    end ].

(** ** Preservation *)
Section Preservation.
Context (s : Lifecycle) (Hinv : lifecycle_inv s).

Lemma inv_submission id f :
  lf_fences s !! id = None -> 0 <= f -> lifecycle_inv (set_fence id f s).
Proof.
  intros Hn Hf. destruct Hinv as [I1 I2 I3 I4 I5 I6 I7 I8 I9 I10 I11 I12 I13].
  split; intros; table; eauto. destruct (I3 _ _ H) as (f' & ? & ? & ?). congruence.
Qed.

Lemma inv_job id sub :
  lf_jobs s !! id = None ->
  lifecycle_inv (set_job id {| lj_submission := sub; lj_status := J_Queued;
                               lj_claim := None |} s).
Proof.
  intros Hn. destruct Hinv as [I1 I2 I3 I4 I5 I6 I7 I8 I9 I10 I11 I12 I13].
  split; intros; table; eauto.
  - destruct (I1 _ _ H H0) as (j & ? & _). congruence.
  - destruct (I6 _ _ H H0) as (j & ? & _). congruence.
  - destruct (I12 _ _ H H0) as [(j & ? & _) _]. congruence.
Qed.

(** A queued job, and only it, is free of active attempts, terminal attempts
    and pending cleanups. *)
Lemma queued_free job j id a :
  lf_jobs s !! job = Some j -> lj_status j = J_Queued ->
  lf_attempts s !! id = Some a -> la_job a = job -> ~ la_active a /\ ~ la_terminal a.
Proof.
  intros Hj Hq Ha <-. split; intros Hx.
  - destruct (li_active s Hinv id a Ha Hx) as (j' & ? & _ & _ & Hs). destruct (decide _); congruence.
  - destruct (li_terminal s Hinv id a Ha Hx) as (j' & ? & Hs).
    unfold la_terminal in Hx. destruct (la_status a); simpl in *; congruence.
Qed.
Lemma queued_not_pending job j ob c :
  lf_jobs s !! job = Some j -> lj_status j = J_Queued ->
  lf_cleanups s !! ob = Some c -> lc_job c = job -> lc_status c <> C_Pending.
Proof.
  intros Hj Hq Hc <- Hp. destruct (li_pending s Hinv ob c Hc Hp) as [(j' & ? & ?) _]. congruence.
Qed.

Lemma inv_drop_queued job j st :
  lf_jobs s !! job = Some j -> lj_status j = J_Queued -> (st = J_Cancelled \/ st = J_Failed) ->
  lifecycle_inv (set_job job (lj_set st None j) s).
Proof.
  intros Hj Hq Hst.
  pose proof (fun id a => queued_free job j id a Hj Hq) as Hfree.
  pose proof (fun ob c => queued_not_pending job j ob c Hj Hq) as Hnp.
  destruct Hinv as [I1 I2 I3 I4 I5 I6 I7 I8 I9 I10 I11 I12 I13].
  split; intros; table; eauto; try (by destruct Hst; subst).
  - by destruct (Hfree _ _ H eq_refl).
  - by destruct (Hfree _ _ H eq_refl).
  - by destruct (Hnp _ _ H eq_refl).
Qed.

Lemma inv_offer id job j f worker claim :
  lf_jobs s !! job = Some j -> lj_status j = J_Queued ->
  lf_fences s !! lj_submission j = Some f ->
  (forall k a, lf_attempts s !! k = Some a -> la_submission a = lj_submission j ->
     ~ la_active a) ->
  lf_attempts s !! id = None ->
  lifecycle_inv
    (set_attempt id {| la_job := job; la_submission := lj_submission j; la_worker := worker;
                       la_claim := claim; la_fence := f + 1; la_status := A_Offered |}
      (set_job job (lj_set J_Claimed (Some claim) j) (set_fence (lj_submission j) (f + 1) s))).
Proof.
  intros Hj Hq Hf Hfree Hid.
  pose proof (fun id a => queued_free job j id a Hj Hq) as Hqf.
  pose proof (fun ob c => queued_not_pending job j ob c Hj Hq) as Hnp.
  pose proof (li_fence_nonneg s Hinv _ _ Hf) as Hf0.
  destruct Hinv as [I1 I2 I3 I4 I5 I6 I7 I8 I9 I10 I11 I12 I13].
  split.
  - intros k a Ha Hact. table; eauto. by destruct (Hqf _ _ Ha eq_refl).
  - intros k k' a a' Ha Ha' H H' Hs. table; eauto;
    [by destruct (Hfree _ _ Ha)|by destruct (Hfree _ _ Ha')].
  - intros k a Ha. table; try (exists (f + 1); split_and!; try done; lia).
    + destruct (I3 _ _ Ha) as (f' & Hf' & Hb & _). rewrite <- Heq in Hf'. simplify_eq.
      exists (f + 1). split_and!; try done; try lia. intros Hact. by destruct (Hfree _ _ Ha).
    + eauto.
  - intros k f' Hk. table; eauto. lia.
  - intros k k' a a' Ha Ha' Hs Hfe. table; eauto.
    + destruct (I3 _ _ Ha) as (f' & Hf' & Hb & _). rewrite Hs in Hf'. simplify_eq. lia.
    + destruct (I3 _ _ Ha') as (f' & Hf' & Hb & _). rewrite <- Hs in Hf'. simplify_eq. lia.
  - intros k a Ha Ht. table; eauto; try done. by destruct (Hqf _ _ Ha eq_refl).
  - intros k k' a a' Ha Ha' H H' Hs. table; eauto; done.
  - intros k j' Hk Hs. table.
    + exists id. eexists. rewrite lookup_insert_eq. by split_and!.
    + destruct (I8 _ _ Hk Hs) as (i & a & Hi & ? & ?). exists i, a. split_and!; try done.
      rewrite lookup_insert_ne by congruence. done.
  - intros k j' Hk Hs. table. destruct (I9 _ _ Hk Hs) as [(i & a & Hi & ? & ?)|?]; [left|by right].
    exists i, a. split_and!; try done. rewrite lookup_insert_ne by congruence. done.
  - intros k j' Hk Hs. table; eauto.
  - intros ob c Hc. destruct (I11 _ _ Hc) as (a & Ha & ? & ? & ?). table; eauto; congruence.
  - intros ob c Hc Hp. destruct (I12 _ _ Hc Hp) as [Hr Hn]. split; table; eauto.
    + by destruct (Hnp _ _ Hc eq_refl).
    + intros k a Ha Hjob. table; eauto. by destruct (Hnp _ _ Hc eq_refl).
  - intros. table; eauto.
Qed.

Lemma inv_keep ob c :
  lf_cleanups s !! ob = Some c -> lc_status c = C_Pending ->
  lifecycle_inv (set_cleanup ob (lc_set C_Pending false c) s).
Proof.
  intros Hc Hp. destruct Hinv as [I1 I2 I3 I4 I5 I6 I7 I8 I9 I10 I11 I12 I13].
  split; try (intros; table; eauto; fail).
  intros k j Hk Hs. table. destruct (I9 _ _ Hk Hs) as [?|(ob' & c' & ? & ? & ?)]; [by left|right].
  destruct (decide (ob = ob')) as [->|]; [|exists ob', c'; by rewrite lookup_insert_ne].
  exists ob'. eexists. rewrite lookup_insert_eq. by simplify_eq.
Qed.

(** A pending obligation is settled: its job goes back to the queue or is
    cancelled. *)
Lemma inv_cleanup ob c j j' st :
  lf_cleanups s !! ob = Some c -> lc_status c = C_Pending ->
  lf_jobs s !! lc_job c = Some j -> lj_status j = J_Running -> st <> C_Pending ->
  lj_status j' = J_Queued /\ lj_claim j' = None \/ lj_status j' = J_Cancelled ->
  lifecycle_inv (set_job (lc_job c) j' (set_cleanup ob (lc_set st (lc_requeue c) c) s)).
Proof.
  intros Hc Hp Hj Hr Hst' Hs. destruct (li_pending s Hinv ob c Hc Hp) as [_ Hna].
  pose proof (fun id a => pending_excludes_terminal s Hinv ob c id a Hc Hp) as Hnt.
  destruct Hinv as [I1 I2 I3 I4 I5 I6 I7 I8 I9 I10 I11 I12 I13].
  split; try (intros; table; eauto; destruct Hs as [[??]|?]; congruence).
  - intros k a Ha Hact. table; eauto. by destruct (Hna _ _ Ha).
  - intros k a Ha Ht. table; eauto. by destruct (Hnt _ _ Ha).
  - intros k j0 Hk Hst. table; [destruct Hs as [[??]|?]; congruence|].
    destruct (I9 _ _ Hk Hst) as [?|(ob' & c' & ? & ? & ?)]; [by left|right].
    exists ob', c'. rewrite lookup_insert_ne; [done|]. intros ->. simplify_eq.
  - intros k c' Hk Hpe. table; [by destruct (I13 _ _ _ _ Hc Hk Hp Hpe Heq)|eauto].
Qed.

(** An active attempt changes status together with its job. *)
Lemma inv_attempt id a j st jst cl :
  lf_attempts s !! id = Some a -> la_active a -> lf_jobs s !! la_job a = Some j ->
  (attempt_active st = true -> cl = Some (la_claim a)
     /\ jst = (if decide (st = A_Offered) then J_Claimed else J_Running)) ->
  (attempt_terminal st = true -> jst = outcome_of st) ->
  (jst = J_Claimed -> st = A_Offered) ->
  (jst = J_Running -> attempt_executing st = true) ->
  (jst = J_Queued -> cl = None) ->
  lifecycle_inv (set_attempt id (la_set st a) (set_job (la_job a) (lj_set jst cl j) s)).
Proof.
  intros Ha Hact Hj Cact Cterm Ccl Crun Cq.
  pose proof (active_job_unique s Hinv) as U. pose proof (active_excludes_terminal s Hinv) as X.
  destruct (li_active s Hinv id a Ha Hact) as (j0 & Hj0 & Hsub & _). simplify_eq.
  destruct Hinv as [I1 I2 I3 I4 I5 I6 I7 I8 I9 I10 I11 I12 I13].
  split.
  - intros k b Hb Hbact. table; eauto. by destruct (U _ _ _ _ Ha Hb).
  - intros k k' b b' Hb Hb' ?? Hs. table; eauto.
  - intros k b Hb. table; eauto. destruct (I3 _ _ Ha) as (f & ? & ? & Hf). eauto.
  - eauto.
  - intros k k' b b' Hb Hb' Hs Hf. table; eauto.
  - intros k b Hb Ht. table; eauto. by destruct (X _ _ _ _ Ha Hb).
  - intros k k' b b' Hb Hb' ? ? Hs. table; eauto.
    + by destruct (X _ _ _ _ Ha Hb).
    + by destruct (X _ _ _ _ Ha Hb').
  - intros k j' Hk Hs. table.
    + exists id. eexists. rewrite lookup_insert_eq. split_and!; try done. by apply Ccl.
    + destruct (I8 _ _ Hk Hs) as (i & b & Hi & ? & ?). exists i, b. split_and!; try done.
      rewrite lookup_insert_ne; [done|]. intros ->. simplify_eq.
  - intros k j' Hk Hs. table.
    + left. exists id. eexists. rewrite lookup_insert_eq. split_and!; try done. by apply Crun.
    + destruct (I9 _ _ Hk Hs) as [(i & b & Hi & ? & ?)|?]; [left|by right].
      exists i, b. split_and!; try done. rewrite lookup_insert_ne; [done|]. intros ->. simplify_eq.
  - intros k j' Hk Hs. table; eauto.
  - intros ob c Hc. destruct (I11 _ _ Hc) as (b & Hb & ? & ? & Hl). table; eauto.
    unfold la_active in Hact. destruct Hl as [Hl|Hl]; rewrite Hl in Hact; done.
  - intros ob c Hc Hp. destruct (I12 _ _ Hc Hp) as [Hr Hn].
    assert (la_job a <> lc_job c) by (intros He; by apply (Hn _ _ Ha He)).
    split; [simpl; by rewrite lookup_insert_ne|]. intros k b Hb Hjob. table; eauto.
  - eauto.
Qed.

(** An execution loses its authority: its job waits for cleanup. *)
Lemma inv_abandon id a st ob requeue :
  lf_attempts s !! id = Some a -> la_executing a -> lost st -> lf_cleanups s !! ob = None ->
  lifecycle_inv
    (set_cleanup ob {| lc_worker := la_worker a; lc_attempt := id; lc_job := la_job a;
                       lc_status := C_Pending; lc_requeue := requeue |}
      (set_attempt id (la_set st a) s)).
Proof.
  intros Ha Hex Hlost Hob.
  destruct (executing_job s Hinv id a Ha Hex) as (j & Hj & Hsub & Hcl & Hr).
  pose proof (executing_active a Hex) as Hact.
  pose proof (active_job_unique s Hinv) as U. pose proof (li_pending s Hinv) as Hpend.
  assert (Hst : attempt_active st = false /\ attempt_terminal st = false)
    by (destruct Hlost; by subst).
  destruct Hst as [Hna Hnt].
  destruct Hinv as [I1 I2 I3 I4 I5 I6 I7 I8 I9 I10 I11 I12 I13].
  split; unfold la_active, la_terminal in *.
  - intros k b Hb Hbact. table; eauto. congruence.
  - intros k k' b b' Hb Hb' ?? Hs. table; eauto; congruence.
  - intros k b Hb. table; eauto. destruct (I3 _ _ Ha) as (f & ? & ? & Hf).
    exists f. split_and!; try done; lia || congruence.
  - eauto.
  - intros k k' b b' Hb Hb' Hs Hf. table; eauto.
  - intros k b Hb Ht. table; eauto. congruence.
  - intros k k' b b' Hb Hb' ? ? Hs. table; eauto; congruence.
  - intros k j' Hk Hs. table. destruct (I8 _ _ Hk Hs) as (i & b & Hi & ? & Ho). exists i, b.
    split_and!; try done. rewrite lookup_insert_ne; [done|]. intros ->. simplify_eq.
    unfold la_executing in Hex. by rewrite Ho in Hex.
  - intros k j' Hk Hs. table. destruct (I9 _ _ Hk Hs) as [(i & b & Hi & ? & ?)|(o & c & Hc & ? & ?)].
    + destruct (decide (i = id)) as [->|].
      * simplify_eq. right. exists ob. eexists. rewrite lookup_insert_eq. by split_and!.
      * left. exists i, b. by rewrite lookup_insert_ne.
    + right. exists o, c. rewrite lookup_insert_ne by congruence. done.
  - eauto.
  - intros o c Hc. table; eauto.
    destruct (I11 _ _ Hc) as (b & Hb & ? & ? & Hl). table; eauto.
  - intros o c Hc Hp. table.
    + split; [eauto|]. intros k b Hb Hjob. table; [congruence|].
      intros Hbact. by destruct (U _ _ _ _ Ha Hb).
    + destruct (Hpend _ _ Hc Hp) as [? Hn]. split; [done|]. intros k b Hb Hjob.
      table; [congruence|]. by eapply Hn.
  - intros o o' c c' Hc Hc' ? ? Hs. table; eauto; exfalso.
    + destruct (Hpend _ _ Hc) as [_ Hn]; [done|]. by eapply (Hn id a).
    + destruct (Hpend _ _ Hc') as [_ Hn]; [done|]. by eapply (Hn id a).
Qed.
End Preservation.

(** Every transition preserves the invariant. *)
Lemma lifecycle_step_inv s s' : lifecycle_inv s -> lifecycle_step s s' -> lifecycle_inv s'.
Proof.
  intros Hinv Hstep. destruct Hstep.
  - by apply inv_submission.
  - by apply inv_job.
  - by apply inv_offer.
  - apply inv_attempt; try done. by apply offered_active.
  - destruct (executing_job s Hinv id a H H0) as (j & Hj & _ & Hc & Hr).
    replace (set_attempt id (la_set A_CancelRequested a) s)
      with (set_attempt id (la_set A_CancelRequested a)
              (set_job (la_job a) (lj_set J_Running (Some (la_claim a)) j) s)).
    + apply inv_attempt; try done. by apply executing_active.
    + unfold set_attempt, set_job. simpl. f_equal. apply insert_id. rewrite Hj. f_equal.
      destruct j; simpl in *. by subst.
  - change (lifecycle_inv (set_attempt id (la_set st a)
              (set_job (la_job a) (lj_set J_Queued None j) s))).
    destruct H1; subst; apply inv_attempt; try done; by apply offered_active.
  - change (lifecycle_inv (set_attempt id (la_set A_Fenced a)
              (set_job (la_job a) (lj_set J_Cancelled None j) s))).
    apply inv_attempt; try done. by apply offered_active.
  - by apply inv_abandon.
  - apply inv_attempt; try done; [by apply executing_active|..]; by destruct st.
  - eapply inv_cleanup; eauto. destruct (lc_requeue c); simpl; tauto.
  - eapply inv_cleanup; eauto.
  - by apply inv_keep.
  - by apply inv_drop_queued.
Qed.

Lemma lifecycle_steps_inv s s' : rtc lifecycle_step s s' -> lifecycle_inv s -> lifecycle_inv s'.
Proof. induction 1; eauto using lifecycle_step_inv. Qed.

(** Every attempt belongs to a job of its submission. *)
Definition lifecycle_linked (s : Lifecycle) : Prop :=
  forall id a, lf_attempts s !! id = Some a ->
    exists j, lf_jobs s !! la_job a = Some j /\ lj_submission j = la_submission a.

Lemma linked_job s id j j' :
  lifecycle_linked s -> lf_jobs s !! id = Some j -> lj_submission j' = lj_submission j ->
  lifecycle_linked (set_job id j' s).
Proof.
  intros Hl Hj Hs k a Ha. destruct (Hl k a Ha) as (i & Hi & Hsub). simpl.
  destruct (decide (id = la_job a)) as [->|]; [|by rewrite lookup_insert_ne; eauto].
  rewrite lookup_insert_eq. exists j'. split; [done | congruence].
Qed.
Lemma linked_attempt s id a st :
  lifecycle_linked s -> lf_attempts s !! id = Some a ->
  lifecycle_linked (set_attempt id (la_set st a) s).
Proof. intros Hl Ha k b Hb. table; eauto. Qed.

Lemma lifecycle_step_linked s s' : lifecycle_linked s -> lifecycle_step s s' -> lifecycle_linked s'.
Proof.
  intros Hl Hstep. destruct Hstep; try done; try (by apply linked_attempt);
    try (by eapply linked_job).
  - intros k a Ha. destruct (Hl k a Ha) as (j & Hj & Hs). simpl.
    rewrite lookup_insert_ne by congruence. eauto.
  - intros k a Ha. simpl in Ha. apply lookup_insert_Some in Ha as [[<- <-]|[_ Ha]].
    + simpl. rewrite lookup_insert_eq. eexists. by split.
    + apply (linked_job s job j (lj_set J_Claimed (Some claim) j) Hl H eq_refl k a Ha).
  - apply (linked_attempt (set_job _ _ s)); [by eapply linked_job | done].
  - apply (linked_job (set_attempt _ _ s) _ j); [by apply linked_attempt | done | done].
  - apply (linked_job (set_attempt _ _ s) _ j); [by apply linked_attempt | done | done].
  - apply (linked_attempt (set_job _ _ s)); [by eapply linked_job | done].
  - apply (linked_job (set_cleanup _ _ s) _ j); [done | done | by destruct (lc_requeue c)].
Qed.
Lemma lifecycle_steps_linked s s' :
  rtc lifecycle_step s s' -> lifecycle_linked s -> lifecycle_linked s'.
Proof. induction 1; eauto using lifecycle_step_linked. Qed.

(** The empty lifecycle. *)
Definition lifecycle_empty : Lifecycle :=
  {| lf_fences := ∅; lf_jobs := ∅; lf_attempts := ∅; lf_cleanups := ∅ |}.
Lemma lifecycle_empty_inv : lifecycle_inv lifecycle_empty.
Proof. split; intros; simpl in *; rewrite lookup_empty in *; done. Qed.
