(* ===== verification/FleetRefine.v ===== *)
(** * The store implements the lifecycle

    The abstraction [lifecycle_of] from the database to the lifecycle machine of
    FleetSpec.v, and a simulation lemma per store operation: every transaction
    is matched by transitions of the machine. *)
From stdpp Require Import base list strings gmap relations.
From Stdlib Require Import ZArith Lia.
From S2P Require Import Prelude RustStr Json FleetModel Negotiation Validate FleetDb.
From S2P Require Import FleetSessions FleetScheduling FleetEvents FleetAdmin FleetRecovery.
From S2P Require Import FleetSpec.

Local Open Scope Z_scope.

(** ** Abstraction *)
Definition job_view (j : Job) : LJob :=
  {| lj_submission := jr_submission (jb_row j); lj_status := jb_status j;
     lj_claim := jb_claim_token j |}.
Definition attempt_view (a : Attempt) : LAttempt :=
  {| la_job := ar_job (at_row a); la_submission := ar_submission (at_row a);
     la_worker := ar_worker (at_row a); la_claim := ar_claim_token (at_row a);
     la_fence := ar_fence (at_row a); la_status := at_status a |}.
Definition cleanup_view (o : Obligation) : LCleanup :=
  {| lc_worker := ob_worker o; lc_attempt := ob_attempt o; lc_job := ob_job o;
     lc_status := ob_status o; lc_requeue := ob_requeue o |}.
Definition lifecycle_of (db : FleetDb) : Lifecycle :=
  {| lf_fences := sb_fencing_generation <$> db_submissions db;
     lf_jobs := job_view <$> db_jobs db;
     lf_attempts := attempt_view <$> db_attempts db;
     lf_cleanups := cleanup_view <$> db_obligations db |}.

(** A database whose lifecycle is well formed and whose obligation sequence is
    ahead of every identifier in use. *)
Record fleet_ok (db : FleetDb) : Prop := {
  fo_life : lifecycle_inv (lifecycle_of db);
  fo_next : forall id o, db_obligations db !! id = Some o -> id < db_next_obligation db
}.

(** [db] may become [db'] by lifecycle transitions. *)
Definition sim (db db' : FleetDb) : Prop :=
  fleet_ok db -> rtc lifecycle_step (lifecycle_of db) (lifecycle_of db') /\ fleet_ok db'.

Section Simulation.
Lemma sim_trans db1 db2 db3 : sim db1 db2 -> sim db2 db3 -> sim db1 db3.
Proof.
  intros H1 H2 Hok. destruct (H1 Hok) as [Hs1 Hok2]. destruct (H2 Hok2) as [Hs2 Hok3].
  split; [by etrans | done].
Qed.
Lemma sim_refl db : sim db db.
Proof. intros Hok. by split. Qed.

Lemma sim_frame db db' :
  lifecycle_of db' = lifecycle_of db -> db_obligations db' = db_obligations db ->
  db_next_obligation db' = db_next_obligation db -> sim db db'.
Proof.
  intros Hl Ho Hn [Hlife Hnext]. split; [by rewrite Hl|]. split; [by rewrite Hl|].
  by rewrite Ho, Hn.
Qed.

(** One transition that leaves the obligations alone. *)
Lemma sim_step db db' :
  (fleet_ok db -> lifecycle_step (lifecycle_of db) (lifecycle_of db')) ->
  (forall id o', db_obligations db' !! id = Some o' -> is_Some (db_obligations db !! id)) ->
  db_next_obligation db' = db_next_obligation db -> sim db db'.
Proof.
  intros Hs Ho Hn Hok. specialize (Hs Hok). split; [by apply rtc_once|].
  destruct Hok as [Hlife Hnext]. split; [by eapply lifecycle_step_inv|].
  intros id o' Hid. destruct (Ho id o' Hid) as [o Hid']. rewrite Hn. eauto.
Qed.

Lemma sim_to s db db' :
  lifecycle_of db' = s -> (fleet_ok db -> lifecycle_step (lifecycle_of db) s) ->
  (forall id o', db_obligations db' !! id = Some o' -> is_Some (db_obligations db !! id)) ->
  db_next_obligation db' = db_next_obligation db -> sim db db'.
Proof. intros <-. apply sim_step. Qed.

Lemma alter_as_insert {K A} `{Countable K} (f : A -> A) (k : K) (m : gmap K A) (x : A) :
  m !! k = Some x -> alter f k m = <[k := f x]> m.
Proof.
  intros Hk. apply map_eq. intros i. destruct (decide (k = i)) as [<-|Hne].
  - by rewrite lookup_alter_eq, lookup_insert_eq, Hk.
  - by rewrite lookup_alter_ne, lookup_insert_ne.
Qed.
Lemma fmap_alter_same {K A B} `{Countable K} (g : A -> B) (f : A -> A) (k : K) (m : gmap K A) :
  (forall x, g (f x) = g x) -> g <$> alter f k m = g <$> m.
Proof.
  intros Hg. apply map_eq. intros i. rewrite !lookup_fmap.
  destruct (decide (k = i)) as [<-|Hne]; [rewrite lookup_alter_eq|by rewrite lookup_alter_ne].
  destruct (m !! k); simpl; [by rewrite Hg | done].
Qed.
Lemma fmap_insert_same {K A B} `{Countable K} (g : A -> B) (k : K) (m : gmap K A) (x y : A) :
  m !! k = Some x -> g y = g x -> g <$> <[k := y]> m = g <$> m.
Proof.
  intros Hk Hg. rewrite fmap_insert, Hg. apply insert_id. by rewrite lookup_fmap, Hk.
Qed.
Lemma fmap_update_same {K A B} `{Countable K} (g : A -> B) p (f : A -> A) (m : gmap K A) :
  (forall x, g (f x) = g x) -> g <$> update_where p f m = g <$> m.
Proof.
  intros Hg. apply map_eq. intros i. rewrite !lookup_fmap, lookup_update_where.
  destruct (m !! i); simpl; [|done]. case_match; by rewrite ?Hg.
Qed.

Lemma lookup_view {A B} (g : A -> B) (m : gmap Z A) k x :
  m !! k = Some x -> (g <$> m) !! k = Some (g x).
Proof. intros Hk. by rewrite lookup_fmap, Hk. Qed.
Lemma lookup_view_inv {A B} (g : A -> B) (m : gmap Z A) k y :
  (g <$> m) !! k = Some y -> exists x, m !! k = Some x /\ y = g x.
Proof. rewrite lookup_fmap. destruct (m !! k); simpl; [|done]. intros [= <-]. eauto. Qed.

(** Attempt rows may change in columns the lifecycle does not see. *)
Lemma sim_attempts db f :
  (attempt_view <$> f (db_attempts db)) = (attempt_view <$> db_attempts db) ->
  sim db (with_attempts f db).
Proof.
  intros Hf. apply sim_frame; try done. unfold lifecycle_of. simpl. by rewrite Hf.
Qed.

Lemma discard_lifecycle env id reason db :
  lifecycle_of (discard_attempt_projection env id reason db) = lifecycle_of db.
Proof.
  unfold lifecycle_of, discard_attempt_projection. simpl. f_equal. by apply fmap_alter_same.
Qed.

(** ** Retiring an attempt *)
Lemma retired_lifecycle env to dr id a db :
  db_attempts db !! id = Some a ->
  lifecycle_of (with_attempts (alter (with_attempt_status to) id)
                  (discard_attempt_projection env id dr db))
  = set_attempt id (la_set to (attempt_view a)) (lifecycle_of db).
Proof.
  intros Ha. unfold lifecycle_of, set_attempt. simpl. f_equal. apply map_eq. intros i.
  rewrite lookup_fmap. destruct (decide (id = i)) as [<-|Hne].
  - by rewrite !lookup_alter_eq, Ha, lookup_insert_eq.
  - by rewrite !lookup_alter_ne, lookup_insert_ne, lookup_fmap.
Qed.

(** The concrete job of an offer. *)
Lemma offered_job_row db id a :
  fleet_ok db -> db_attempts db !! id = Some a -> at_status a = A_Offered ->
  exists j, db_jobs db !! ar_job (at_row a) = Some j /\ jb_status j = J_Claimed
    /\ jb_claim_token j = Some (ar_claim_token (at_row a))
    /\ jr_submission (jb_row j) = ar_submission (at_row a).
Proof.
  intros [Hlife _] Ha Ho. pose proof (lookup_view attempt_view _ _ _ Ha) as Hv.
  destruct (offered_job _ Hlife id _ Hv Ho) as (lj & Hlj & ? & ? & ?).
  apply lookup_view_inv in Hlj as (j & Hj & ->). eauto.
Qed.
Lemma executing_job_row db id a :
  fleet_ok db -> db_attempts db !! id = Some a -> attempt_executing (at_status a) = true ->
  exists j, db_jobs db !! ar_job (at_row a) = Some j /\ jb_status j = J_Running
    /\ jb_claim_token j = Some (ar_claim_token (at_row a)).
Proof.
  intros [Hlife _] Ha He. pose proof (lookup_view attempt_view _ _ _ Ha) as Hv.
  destruct (executing_job _ Hlife id _ Hv He) as (lj & Hlj & ? & ? & ?).
  apply lookup_view_inv in Hlj as (j & Hj & ->). eauto.
Qed.

Lemma requeued_lifecycle from job j db :
  db_jobs db !! job = Some j -> jb_status j = from ->
  lifecycle_of (requeue_job from job db)
  = set_job job (lj_set J_Queued None (job_view j)) (lifecycle_of db).
Proof.
  intros Hj Hs. unfold lifecycle_of, set_job. simpl. f_equal.
  rewrite (alter_as_insert _ _ _ _ Hj), fmap_insert. f_equal. by rewrite decide_True.
Qed.

Lemma sim_retire_offered env to dr reason id a db :
  lost to -> db_attempts db !! id = Some a -> at_status a = A_Offered ->
  sim db (retire_attempt env to dr reason id a db).
Proof.
  intros Hto Ha Ho. unfold retire_attempt. rewrite decide_True by done.
  apply sim_step; [|simpl; eauto|done]. intros Hok.
  destruct (offered_job_row db id a Hok Ha Ho) as (j & Hj & Hs & Hc & _).
  rewrite (requeued_lifecycle _ _ j) by done. rewrite (retired_lifecycle _ _ _ _ a) by done.
  apply (ls_release _ id (attempt_view a) (job_view j)); try done;
    [by apply (lookup_view attempt_view) | by apply (lookup_view job_view)].
Qed.

(** No obligation exists for an executing attempt. *)
Lemma executing_no_obligation db id a :
  fleet_ok db -> db_attempts db !! id = Some a -> attempt_executing (at_status a) = true ->
  exists_row (fun _ o => ob_attempt o =? id) (db_obligations db) = false.
Proof.
  intros [Hlife _] Ha Hex. apply exists_row_false. intros k o Hk. apply Z.eqb_neq. intros He.
  destruct (li_cleanup _ Hlife k _ (lookup_view cleanup_view _ _ _ Hk))
    as (b & Hb & _ & _ & Hl). simpl in Hb. rewrite He in Hb.
  rewrite (lookup_view attempt_view _ _ _ Ha) in Hb. injection Hb as <-. simpl in Hl.
  destruct Hl as [Hl|Hl]; rewrite Hl in Hex; done.
Qed.

Lemma sim_retire_executing env to dr reason id a db :
  lost to -> db_attempts db !! id = Some a -> attempt_executing (at_status a) = true ->
  sim db (retire_attempt env to dr reason id a db).
Proof.
  intros Hto Ha Hex Hok. unfold retire_attempt.
  rewrite decide_False by (intros Ho; by rewrite Ho in Hex).
  unfold insert_obligation. simpl. rewrite (executing_no_obligation db id a) by done.
  destruct Hok as [Hlife Hnext]. set (o := {| ob_worker := _ |}).
  assert (Hnone : db_obligations db !! db_next_obligation db = None).
  { destruct (db_obligations db !! db_next_obligation db) eqn:E; [|done].
    specialize (Hnext _ _ E). lia. }
  match goal with |- rtc _ _ (lifecycle_of ?d) /\ _ => assert (Heq : lifecycle_of d =
    set_cleanup (db_next_obligation db) (cleanup_view o)
       (set_attempt id (la_set to (attempt_view a)) (lifecycle_of db))) end.
  { rewrite <- (retired_lifecycle env to dr id a db Ha). unfold lifecycle_of, set_cleanup. simpl.
    f_equal. by rewrite fmap_insert. }
  assert (Hstep : lifecycle_step (lifecycle_of db)
    (set_cleanup (db_next_obligation db) (cleanup_view o)
       (set_attempt id (la_set to (attempt_view a)) (lifecycle_of db)))).
  { eapply (ls_abandon _ id (attempt_view a)); eauto; simpl.
    - by apply (lookup_view attempt_view).
    - by rewrite lookup_fmap, Hnone. }
  split; [rewrite Heq; by apply rtc_once|].
  split; [rewrite Heq; by eapply lifecycle_step_inv|].
  simpl. intros k o' Hk. apply lookup_insert_Some in Hk as [[<- _]|[_ Hk]]; [lia|].
  specialize (Hnext _ _ Hk). lia.
Qed.

Lemma sim_retire env to dr reason id a db :
  lost to -> db_attempts db !! id = Some a -> attempt_active (at_status a) = true ->
  sim db (retire_attempt env to dr reason id a db).
Proof.
  intros Hto Ha Hact. destruct (decide (at_status a = A_Offered)).
  - by apply sim_retire_offered.
  - apply sim_retire_executing; try done. by destruct (at_status a).
Qed.

Lemma retire_attempts_ne env to dr reason id a db id' :
  id' <> id ->
  db_attempts (retire_attempt env to dr reason id a db) !! id' = db_attempts db !! id'.
Proof.
  intros Hne. unfold retire_attempt, insert_obligation. repeat case_match; simpl;
    by rewrite !lookup_alter_ne.
Qed.

(** ** Loops over attempts read before the loop *)
Lemma sim_fold (step : Uuid -> Attempt -> FleetDb -> FleetDb) (l : list (Uuid * Attempt)) db :
  (forall id a db, db_attempts db !! id = Some a -> attempt_active (at_status a) = true ->
     sim db (step id a db)) ->
  (forall id a db id', id' <> id -> db_attempts (step id a db) !! id' = db_attempts db !! id') ->
  NoDup (map fst l) ->
  Forall (fun e => db_attempts db !! e.1 = Some e.2 /\ attempt_active (at_status e.2) = true) l ->
  sim db (foldl (fun db '(id, a) => step id a db) db l).
Proof.
  intros Hsim Hne. revert db. induction l as [|[id a] l IH]; intros db Hnd Hf; simpl;
    [apply sim_refl|].
  inversion Hnd as [|? ? Hni Hnd']; subst. apply Forall_cons in Hf as [[Ha Hact] Hf].
  eapply sim_trans; [by apply Hsim|]. apply IH; [done|].
  apply Forall_forall. intros [id' a'] Hin. rewrite Forall_forall in Hf.
  destruct (Hf _ Hin) as [Ha' Hact']. simpl in *. split; [|done]. rewrite Hne; [done|].
  intros ->. apply Hni, list_elem_of_fmap. by exists (id, a').
Qed.

Lemma rows_active (p : Uuid -> Attempt -> bool) db :
  (forall id a, p id a = true -> attempt_active (at_status a) = true) ->
  Forall (fun e => db_attempts db !! e.1 = Some e.2 /\ attempt_active (at_status e.2) = true)
    (rows p (db_attempts db)).
Proof.
  intros Hp. apply Forall_forall. intros [id a] Hin.
  apply elem_of_rows in Hin as [Ha H]. simpl. eauto.
Qed.
End Simulation.

(** A result that differs only in tables the lifecycle does not see. *)
Ltac frame := apply sim_frame; repeat case_match; reflexivity.

(** ** Sessions and registry *)
Section Sessions.
Lemma put_session_Ok id s db db' :
  put_session id s db = Ok db' -> db' = with_sessions <[id := s]> db.
Proof. unfold put_session. intros H. by repeat case_match; simplify_eq. Qed.
Lemma put_worker_Ok id w db db' :
  put_worker id w db = Ok db' -> db' = with_workers <[id := w]> db.
Proof. unfold put_worker. intros H. by repeat case_match; simplify_eq. Qed.

Lemma sim_create_worker r db x db' : create_worker r db = Ok (x, db') -> sim db db'.
Proof.
  unfold create_worker. intros H. ok_inv H; simplify_eq; [apply sim_refl|].
  apply put_worker_Ok in E1 as ->. frame.
Qed.

Lemma sim_update_worker env w patch db x db' :
  update_worker env w patch db = Ok (x, db') -> sim db db'.
Proof.
  unfold update_worker. intros H. ok_inv H; simplify_eq; try apply sim_refl;
    match goal with E : put_worker _ _ _ = Ok _ |- _ => apply put_worker_Ok in E as -> end;
    frame.
Qed.

Lemma sim_authorize_identity w k db x db' :
  authorize_identity w k db = Ok (x, db') -> sim db db'.
Proof. unfold authorize_identity. intros H. ok_inv H; simplify_eq; frame. Qed.

Lemma sim_revoke_identity env w k db x db' :
  revoke_identity env w k db = Ok (x, db') -> sim db db'.
Proof. unfold revoke_identity. intros H. ok_inv H; simplify_eq; frame. Qed.

Lemma sim_expire_leases env w k db : sim db (expire_worker_leases env w k db).
Proof.
  unfold expire_worker_leases. apply sim_frame; try done.
  unfold lifecycle_of. simpl. f_equal. by apply fmap_update_same.
Qed.

Lemma sim_emergency_disable env w db x db' :
  emergency_disable_worker env w db = Ok (x, db') -> sim db db'.
Proof.
  unfold emergency_disable_worker. intros H. ok_inv H; simplify_eq; [|apply sim_refl].
  eapply sim_trans; [|apply sim_expire_leases]. frame.
Qed.

Lemma sim_emergency_revoke env w k db x db' :
  emergency_revoke_identity env w k db = Ok (x, db') -> sim db db'.
Proof.
  unfold emergency_revoke_identity. intros H. ok_inv H; simplify_eq; try apply sim_refl.
  eapply sim_trans; [|apply sim_expire_leases]. frame.
Qed.

Lemma sim_fence_attempts env w session db :
  sim db (fence_attempts env (predecessor_attempts w session db) db).
Proof.
  unfold fence_attempts, predecessor_attempts. apply sim_fold.
  - intros. apply sim_retire; [by right | done | done].
  - intros. by apply retire_attempts_ne.
  - apply rows_NoDup.
  - apply rows_active. intros id a H. by bool_hyps.
Qed.

Lemma sim_register_new env w k r contract wk eff exp db x db' :
  register_new env w k r contract wk eff exp db = Ok (x, db') -> sim db db'.
Proof.
  unfold register_new. intros H. ok_inv H; simplify_eq.
  match goal with E : put_session _ _ _ = Ok _ |- _ => apply put_session_Ok in E as -> end.
  match goal with |- context [predecessor_attempts _ _ ?d] =>
    apply (sim_trans _ d); [frame|];
    apply (sim_trans _ _ _ (sim_fence_attempts env w (rs_worker_session_id r) d)) end.
  frame.
Qed.

Lemma sim_register_session env w k r ttl db x db' :
  register_session env w k r ttl db = Ok (x, db') -> sim db db'.
Proof.
  unfold register_session. intros H. ok_inv H; simplify_eq; try (by eapply sim_register_new).
  unfold register_existing in H. ok_inv H; simplify_eq.
  match goal with E : put_session _ _ _ = Ok _ |- _ => apply put_session_Ok in E as -> end.
  frame.
Qed.

Lemma sim_deregister env w session db x db' :
  deregister_session env w session db = Ok (x, db') -> sim db db'.
Proof. unfold deregister_session. intros H. ok_inv H; simplify_eq; frame. Qed.
End Sessions.

(** ** Scheduling *)
Section Scheduling.
(** A job row may change in columns the lifecycle does not see. *)
Lemma sim_jobs_same db f :
  (job_view <$> f (db_jobs db)) = (job_view <$> db_jobs db) -> sim db (with_jobs f db).
Proof. intros Hf. apply sim_frame; try done. unfold lifecycle_of. simpl. by rewrite Hf. Qed.

Lemma sim_prepare p db x db' : prepare_execution p db = Ok (x, db') -> sim db db'.
Proof.
  unfold prepare_execution. intros H. ok_inv H; simplify_eq; try apply sim_refl.
  apply sim_jobs_same. by eapply fmap_insert_same.
Qed.

Lemma first_by_elem {A} lt (l : list A) x : first_by lt l = Some x -> x ∈ l.
Proof.
  revert x. induction l as [|y l IH]; intros x; simpl; [done|].
  destruct (first_by lt l) as [z|] eqn:E; intros [= <-]; [|constructor].
  destruct (lt z y); constructor. by apply IH.
Qed.

Lemma next_job_spec env w profile caps db job j :
  next_job env w profile caps db = Some (job, j) ->
  db_jobs db !! job = Some j /\ schedulable w profile caps db j = true.
Proof.
  intros H%first_by_elem. apply elem_of_rows in H as [Hj Hp]. by bool_hyps.
Qed.

Lemma schedulable_spec w profile caps db j :
  schedulable w profile caps db j = true ->
  jb_status j = J_Queued
  /\ (forall k a, db_attempts db !! k = Some a ->
        ar_submission (at_row a) = jr_submission (jb_row j) ->
        attempt_active (at_status a) = false)
  /\ exists sub, db_submissions db !! jr_submission (jb_row j) = Some sub.
Proof.
  unfold schedulable. destruct (db_submissions db !! _) as [sub|] eqn:Es; [|done].
  intros H. bool_hyps. split_and!; try done; [|by exists sub].
  match goal with H : exists_row _ _ = false |- _ => rename H into Hf end.
  intros k a Hk Hs. rewrite exists_row_false in Hf. specialize (Hf k a Hk). cbv beta in Hf.
  rewrite Hs, Z.eqb_refl in Hf. done.
Qed.

Lemma insert_attempt_Ok id a db db' :
  insert_attempt id a db = Ok db' ->
  db' = with_attempts <[id := a]> db /\ db_attempts db !! id = None.
Proof.
  unfold insert_attempt. destruct (db_attempts db !! id); [done|].
  intros H. by repeat case_match; simplify_eq.
Qed.

Lemma sim_make_offer env ids w session ot lt profile job j payload hash commit db x db' :
  db_jobs db !! job = Some j -> jb_status j = J_Queued ->
  (forall k a, db_attempts db !! k = Some a ->
     ar_submission (at_row a) = jr_submission (jb_row j) ->
     attempt_active (at_status a) = false) ->
  make_offer env ids w session ot lt profile job j payload hash commit db = Ok (x, db') ->
  sim db db'.
Proof.
  intros Hj Hq Hfree. unfold make_offer.
  destruct (db_submissions db !! _) as [sub|] eqn:Es; [|done].
  intros H. ok_inv H; simplify_eq. apply insert_attempt_Ok in E as [-> Hnone]. simpl in Hnone.
  apply (sim_to
    (set_attempt (pi_attempt ids)
       {| la_job := job; la_submission := lj_submission (job_view j); la_worker := w;
          la_claim := pi_claim ids; la_fence := sb_fencing_generation sub + 1;
          la_status := A_Offered |}
       (set_job job (lj_set J_Claimed (Some (pi_claim ids)) (job_view j))
          (set_fence (lj_submission (job_view j)) (sb_fencing_generation sub + 1)
             (lifecycle_of db))))); [|intros _|simpl; eauto|done].
  - unfold lifecycle_of, set_attempt, set_job, set_fence. simpl. by rewrite !fmap_insert.
  - apply ls_offer; simpl; try done.
    + by apply (lookup_view job_view).
    + by apply (lookup_view sb_fencing_generation).
    + intros k la Hk Hs. apply lookup_view_inv in Hk as (a & Ha & ->). simpl in Hs.
      unfold la_active. simpl. by rewrite (Hfree k a Ha Hs).
    + by rewrite lookup_fmap, Hnone.
Qed.

Lemma sim_poll env ids w session ot lt db x db' :
  poll_offer env ids w session ot lt db = Ok (x, db') -> sim db db'.
Proof.
  unfold poll_offer. intros H.
  destruct (lock_protocol_policy db) as [floor|]; [|done].
  destruct (authorized_rows _ _ _) as [[s wk]|]; [|simplify_eq; apply sim_refl].
  destruct (negb _); [simplify_eq; apply sim_refl|].
  destruct (map_err _ _) as [u|]; [|done]. destruct (_ <? _); [done|].
  destruct (_ || _); [simplify_eq; frame|]. destruct (_ || _); [simplify_eq; frame|].
  destruct (existing_offer _ _ _ _) as [[id a]|].
  { destruct (negb _); [simplify_eq; frame|].
    destruct (offer_of_attempt _ _ _); [|done]. simplify_eq. frame. }
  destruct (next_job _ _ _ _ _) as [[job j]|] eqn:En; [|simplify_eq; frame].
  apply next_job_spec in En as [Hj Hs]. apply schedulable_spec in Hs as (Hq & Hfree & _).
  destruct (jb_payload j) as [[payload hash]|]; [|done]. destruct (jb_commit j); [|done].
  destruct (negb _); [simplify_eq; apply sim_refl|].
  match type of H with make_offer _ _ _ _ _ _ _ _ _ _ _ _ ?d = _ =>
    apply (sim_trans _ d); [frame|] end.
  eapply sim_make_offer; [..|exact H]; done.
Qed.

Lemma find_attempt_Some w i db a :
  find_attempt w i db = Some a ->
  db_attempts db !! ai_attempt_id i = Some a /\ ar_worker (at_row a) = w
  /\ ar_session (at_row a) = ai_worker_session_id i
  /\ ar_fence (at_row a) = as_i64 (ai_fencing_generation i).
Proof.
  unfold find_attempt. destruct (db_attempts db !! _) as [b|]; [|done].
  destruct (_ && _ && _) eqn:E; [|done]. intros [= ->]. bool_hyps. split_and!; try done; lia.
Qed.

Lemma sim_accept env w i lt db x db' : accept_offer env w i lt db = Ok (x, db') -> sim db db'.
Proof.
  unfold accept_offer. intros H.
  destruct (lock_protocol_policy db) as [floor|]; [|done].
  destruct (db_workers db !! w) as [wk|]; [|simplify_eq; apply sim_refl].
  destruct (find_attempt w i db) as [a|] eqn:Ef; [|simplify_eq; apply sim_refl].
  apply find_attempt_Some in Ef as (Ha & _ & _ & _).
  destruct (attempt_executing _); [simplify_eq; apply sim_refl|].
  destruct (may_accept _ _ _ _ _) eqn:Em; simpl in H; [|simplify_eq; apply sim_refl].
  unfold may_accept in Em. bool_hyps.
  destruct (db_sessions db !! _) as [s|]; [|done]. destruct (negb _); [done|].
  destruct (db_jobs db !! _) as [j|] eqn:Ej; [|simplify_eq; apply sim_refl].
  destruct (_ || _) eqn:Eg; [simplify_eq; apply sim_refl|]. bool_hyps.
  destruct (put_session _ _ _) as [db1|] eqn:Ep; [|done]. apply put_session_Ok in Ep as ->.
  simplify_eq. apply (sim_to
    (set_attempt (ai_attempt_id i) (la_set A_Running (attempt_view a))
       (set_job (la_job (attempt_view a)) (lj_set J_Running (lj_claim (job_view j)) (job_view j))
          (lifecycle_of db)))); [|intros _|simpl; eauto|done].
  - unfold lifecycle_of, set_attempt, set_job. simpl. by rewrite !fmap_insert.
  - apply ls_accept; simpl; try done;
      [by apply (lookup_view attempt_view) | by apply (lookup_view job_view)].
Qed.

Lemma sim_heartbeat env w i lt buf db x db' :
  heartbeat_attempt env w i lt buf db = Ok (x, db') -> sim db db'.
Proof.
  unfold heartbeat_attempt. intros H.
  destruct (find_attempt w i db) as [a|] eqn:Ef; [|simplify_eq; apply sim_refl].
  apply find_attempt_Some in Ef as (Ha & _ & _ & _).
  destruct (db_workers db !! w) as [wk|]; [|simplify_eq; apply sim_refl].
  destruct (db_sessions db !! _) as [s|]; [|simplify_eq; apply sim_refl].
  destruct (_ && _ && _); [|simplify_eq; apply sim_refl].
  destruct (match buf with Some _ => _ | None => _ end); [done|]. simplify_eq.
  match goal with |- sim _ (with_sessions _ ?d) => apply (sim_trans _ d); [|frame] end.
  apply sim_attempts. by eapply fmap_insert_same.
Qed.

Lemma sim_expire_stale env db x db' : expire_stale_attempts env db = Ok (x, db') -> sim db db'.
Proof.
  unfold expire_stale_attempts, stale_attempts. intros [= _ <-]. apply sim_fold.
  - intros. unfold expire_attempt.
    eapply sim_trans; [apply (sim_retire env A_Expired); [by left|eassumption|done]|]. frame.
  - intros id a d id' Hne. unfold expire_attempt. simpl. by apply retire_attempts_ne.
  - apply rows_NoDup.
  - apply rows_active. intros id a H. by bool_hyps.
Qed.
End Scheduling.

(** ** Cancellation *)
Section Cancellation.
Lemma active_attempt_of_Some job db id a :
  active_attempt_of job db = Some (id, a) ->
  db_attempts db !! id = Some a /\ ar_job (at_row a) = job
  /\ attempt_active (at_status a) = true.
Proof.
  unfold active_attempt_of. intros H%head_Some_elem_of. apply elem_of_rows in H as [Ha Hp].
  bool_hyps. split_and!; try done; lia.
Qed.
Lemma active_attempt_of_None job db :
  active_attempt_of job db = None ->
  forall id a, db_attempts db !! id = Some a -> ar_job (at_row a) = job ->
    attempt_active (at_status a) = false.
Proof.
  unfold active_attempt_of. intros H%head_None id a Ha Hj.
  destruct (attempt_active (at_status a)) eqn:E; [|done].
  assert (Hin : (id, a) ∈ rows (fun _ a => (ar_job (at_row a) =? job)
                                 && attempt_active (at_status a)) (db_attempts db)).
  { apply elem_of_rows. split; [done|]. rewrite E. lia. }
  rewrite H in Hin. by apply not_elem_of_nil in Hin.
Qed.

Lemma pending_row job db :
  exists_row (fun _ o => job_pending_cleanup job o) (db_obligations db) = true ->
  exists id o, db_obligations db !! id = Some o /\ ob_job o = job /\ ob_status o = C_Pending.
Proof.
  intros H. apply exists_row_true in H as (id & o & Ho & Hp). unfold job_pending_cleanup in Hp.
  bool_hyps. exists id, o. split_and!; try done; lia.
Qed.

(** The one pending obligation of the job is no longer requeued. *)
Lemma sim_keep job db :
  exists_row (fun _ o => job_pending_cleanup job o) (db_obligations db) = true ->
  sim db (with_obligations (update_where (fun _ o => job_pending_cleanup job o)
                              (with_obligation_requeue false)) db).
Proof.
  intros (id & o & Ho & Hj & Hp)%pending_row. apply sim_step; [|simpl|done].
  - intros [Hlife _]. pose proof (lookup_view cleanup_view _ _ _ Ho) as Hv.
    assert (Heq : lifecycle_of (with_obligations
        (update_where (fun _ o => job_pending_cleanup job o) (with_obligation_requeue false)) db)
      = set_cleanup id (lc_set C_Pending false (cleanup_view o)) (lifecycle_of db)).
    { unfold lifecycle_of, set_cleanup. simpl. f_equal. apply map_eq. intros k.
      rewrite lookup_fmap, lookup_update_where. destruct (decide (id = k)) as [<-|Hne].
      - rewrite Ho, lookup_insert_eq. simpl. unfold job_pending_cleanup.
        rewrite Hj, Z.eqb_refl, bool_decide_eq_true_2 by done. simpl. by rewrite <- Hp.
      - rewrite lookup_insert_ne, lookup_fmap by done.
        destruct (db_obligations db !! k) as [o'|] eqn:Ek; simpl; [|done].
        destruct (job_pending_cleanup job o') eqn:Ep; [|done]. unfold job_pending_cleanup in Ep.
        bool_hyps. exfalso. apply Hne.
        eapply (li_pending_unique _ Hlife id k); [exact Hv | by apply (lookup_view cleanup_view)
          | done | done | simpl; lia]. }
    rewrite Heq. by eapply (ls_keep _ id (cleanup_view o)).
  - intros k o' Hk. rewrite lookup_update_where in Hk. by destruct (db_obligations db !! k).
Qed.

Lemma job_insert_lifecycle job j j' db :
  job_view j' = lj_set (jb_status j') (jb_claim_token j') (job_view j) ->
  lifecycle_of (with_jobs <[job := j']> db)
  = set_job job (lj_set (jb_status j') (jb_claim_token j') (job_view j)) (lifecycle_of db).
Proof.
  intros Hv. unfold lifecycle_of, set_job. simpl. f_equal. by rewrite fmap_insert, Hv.
Qed.

Lemma sim_cancel_unstarted job j db :
  db_jobs db !! job = Some j -> active_attempt_of job db = None ->
  sim db (cancel_unstarted job j db).2.
Proof.
  intros Hj Hna. unfold cancel_unstarted. destruct (jb_status j) eqn:Es; try apply sim_refl; simpl.
  - apply (sim_to (set_job job (lj_set J_Cancelled None (job_view j)) (lifecycle_of db)));
      [|intros _|simpl; eauto|done].
    + by apply (job_insert_lifecycle job j (with_job_claim None None (with_job_status J_Cancelled j))).
    + apply ls_drop_queued; [by apply (lookup_view job_view) | done | by left].
  - intros Hok. exfalso. pose proof Hok as [Hlife _].
    destruct (li_claimed _ Hlife job _ (lookup_view job_view _ _ _ Hj) Es)
      as (id & la & Ha & Hjob & Hof).
    apply lookup_view_inv in Ha as (a & Ha & ->). simpl in *.
    pose proof (active_attempt_of_None job db Hna id a Ha Hjob) as Hact. by rewrite Hof in Hact.
Qed.

Lemma sim_cancel_offer env job j id a db :
  db_jobs db !! job = Some j -> db_attempts db !! id = Some a ->
  ar_job (at_row a) = job -> at_status a = A_Offered ->
  sim db (cancel_job job j (fence_offer env id a db)).2.
Proof.
  intros Hj Ha Hjob Hof Hok.
  destruct (offered_job_row db id a Hok Ha Hof) as (j0 & Hj0 & Hs & _).
  rewrite Hjob, Hj in Hj0. injection Hj0 as <-. revert Hok.
  unfold cancel_job. rewrite (bool_decide_eq_false_2 (jb_status j = J_Running)), andb_false_r
    by (by rewrite Hs).
  unfold cancel_unstarted. rewrite Hs. simpl.
  apply (sim_to (set_job job (lj_set J_Cancelled None (job_view j))
                   (set_attempt id (la_set A_Fenced (attempt_view a)) (lifecycle_of db))));
    [|intros _|simpl; eauto|done].
  - rewrite <- (retired_lifecycle env A_Fenced (lit "offered work was cancelled") id a db Ha).
    unfold lifecycle_of, set_job. simpl. f_equal. by rewrite fmap_insert.
  - subst job. apply (ls_cancel_offer _ id (attempt_view a)); try done;
      [by apply (lookup_view attempt_view) | by apply (lookup_view job_view)].
Qed.

Lemma sim_cancellation env job db : sim db (cancellation_request env job db).2.
Proof.
  unfold cancellation_request. destruct (db_jobs db !! job) as [j|] eqn:Hj; [|apply sim_refl].
  destruct (decide _); [apply sim_refl|].
  destruct (active_attempt_of job db) as [[id a]|] eqn:Ha.
  - apply active_attempt_of_Some in Ha as (Ha & Hjob & Hact).
    destruct (attempt_executing (at_status a)) eqn:Hex; simpl.
    + apply (sim_to (set_attempt id (la_set A_CancelRequested (attempt_view a))
                       (lifecycle_of db))); [|intros _|simpl; eauto|done].
      * unfold lifecycle_of, set_attempt. simpl. f_equal.
        by rewrite (alter_as_insert _ _ _ _ Ha), fmap_insert.
      * apply ls_cancel_request; [by apply (lookup_view attempt_view) | done].
    + apply sim_cancel_offer; try done. by destruct (at_status a).
  - unfold cancel_job. destruct (_ && _) eqn:E.
    + bool_hyps. by apply sim_keep.
    + by apply sim_cancel_unstarted.
Qed.

Lemma sim_request_cancel env job db x db' :
  request_cancel env job db = Ok (x, db') -> sim db db'.
Proof.
  unfold request_cancel. pose proof (sim_cancellation env job db) as Hs.
  destruct (cancellation_request env job db). intros [= <- <-]. done.
Qed.

Lemma sim_cancel_all env jobs db : sim db (cancel_all env jobs db).2.
Proof.
  revert db. induction jobs as [|job jobs IH]; intros db; simpl; [apply sim_refl|].
  pose proof (sim_cancellation env job db) as H1.
  destruct (cancellation_request env job db) as [ok db1]. specialize (IH db1).
  destruct (cancel_all env jobs db1) as [acc db2]. by eapply sim_trans.
Qed.

Lemma sim_abort env r db x db' : abort_fleet env r db = Ok (x, db') -> sim db db'.
Proof.
  unfold abort_fleet. intros H. destruct (_ || _ || _); [done|].
  destruct (db_abort_audit db !! _); [simplify_eq; apply sim_refl|].
  destruct (_ || _); [simplify_eq; apply sim_refl|].
  pose proof (sim_cancel_all env (abort_selection (fa_scope r) db) db) as Hs.
  destruct (cancel_all _ _ _) as [acc db1]. simplify_eq. eapply sim_trans; [exact Hs|]. frame.
Qed.

Lemma sim_fail_queued jobs remark db : sim db (fail_locked_queued_jobs jobs remark db).2.
Proof.
  revert db. induction jobs as [|job jobs IH]; intros db; simpl; [apply sim_refl|].
  destruct (db_jobs db !! job) as [j|] eqn:Hj; [|apply IH].
  destruct (decide (jb_status j = J_Queued)) as [Hq|Hq]; [|apply IH].
  match goal with |- context [fail_locked_queued_jobs jobs remark ?d] =>
    pose proof (IH d) as Hrest; destruct (fail_locked_queued_jobs jobs remark d) as [failed db2];
    apply (sim_trans _ d); [|exact Hrest] end.
  intros Hok. assert (Hc : jb_claim_token j = None).
  { destruct Hok as [Hlife _].
    apply (li_queued _ Hlife job _ (lookup_view job_view _ _ _ Hj) Hq). }
  revert Hok.
  apply (sim_to (set_job job (lj_set J_Failed None (job_view j)) (lifecycle_of db)));
    [|intros _|simpl; eauto|done].
  - rewrite <- Hc. by apply (job_insert_lifecycle job j (with_job_status J_Failed j)).
  - apply ls_drop_queued; [by apply (lookup_view job_view) | done | by right].
Qed.

Lemma sim_expire_slack env timeout remark db x db' :
  expire_unreported_slack_jobs env timeout remark db = Ok (x, db') -> sim db db'.
Proof.
  unfold expire_unreported_slack_jobs.
  match goal with |- context [fail_locked_queued_jobs ?l remark db] =>
    pose proof (sim_fail_queued l remark db) as Hs;
    destruct (fail_locked_queued_jobs l remark db) end. intros [= <- <-]. done.
Qed.
Lemma sim_fail_slack env remark db x db' :
  fail_queued_slack_jobs_without_connector env remark db = Ok (x, db') -> sim db db'.
Proof.
  unfold fail_queued_slack_jobs_without_connector.
  match goal with |- context [fail_locked_queued_jobs ?l remark db] =>
    pose proof (sim_fail_queued l remark db) as Hs;
    destruct (fail_locked_queued_jobs l remark db) end. intros [= <- <-]. done.
Qed.
End Cancellation.

(** ** Scheduler maintenance *)
Section Maintenance.
(** Releasing a list of offers, one transition each. *)
Lemma release_all (l : list (Uuid * LAttempt)) s :
  lifecycle_inv s -> NoDup (map fst l) ->
  Forall (fun e => lf_attempts s !! e.1 = Some e.2 /\ la_status e.2 = A_Offered) l ->
  exists s', rtc lifecycle_step s s'
    /\ lf_fences s' = lf_fences s /\ lf_cleanups s' = lf_cleanups s
    /\ (forall id, lf_attempts s' !! id =
          if bool_decide (id ∈ map fst l) then la_set A_Expired <$> lf_attempts s !! id
          else lf_attempts s !! id)
    /\ (forall job, lf_jobs s' !! job =
          if existsb (fun e => la_job e.2 =? job) l then lj_set J_Queued None <$> lf_jobs s !! job
          else lf_jobs s !! job).
Proof.
  revert s. induction l as [|[id a] l IH]; intros s Hinv Hnd Hf; [by exists s|].
  inversion Hnd as [|? ? Hni Hnd']; subst. apply Forall_cons in Hf as [[Ha Ho] Hf].
  simpl in Ha, Ho. destruct (offered_job s Hinv id a Ha Ho) as (j & Hj & _ & _ & Hs).
  set (s1 := set_job (la_job a) (lj_set J_Queued None j) (set_attempt id (la_set A_Expired a) s)).
  assert (Hstep : lifecycle_step s s1) by (eapply ls_release; eauto; by left).
  destruct (IH s1) as (s' & Hrtc & Hfe & Hcl & Hat & Hjo);
    [by eapply lifecycle_step_inv | done | |].
  { apply Forall_forall. intros [id' a'] Hin. rewrite Forall_forall in Hf.
    destruct (Hf _ Hin) as [Ha' Ho']. simpl in *. split; [|done]. rewrite lookup_insert_ne; [done|].
    intros ->. apply Hni, list_elem_of_fmap. by exists (id', a'). }
  exists s'. split_and!; [by eapply rtc_l | done | done | |].
  - intros k. rewrite Hat. simpl. destruct (decide (id = k)) as [<-|Hne].
    + rewrite lookup_insert_eq, Ha, bool_decide_eq_false_2 by done.
      by rewrite bool_decide_eq_true_2 by set_solver.
    + rewrite lookup_insert_ne by done.
      by rewrite (bool_decide_ext (k ∈ id :: map fst l) (k ∈ map fst l)) by set_solver.
  - intros job. rewrite Hjo. simpl. destruct (Z.eqb_spec (la_job a) job) as [<-|Hne].
    + rewrite lookup_insert_eq, Hj. simpl. by case_match.
    + by rewrite lookup_insert_ne.
Qed.

Lemma lifecycle_ext s t :
  lf_fences s = lf_fences t -> lf_cleanups s = lf_cleanups t ->
  (forall id, lf_attempts s !! id = lf_attempts t !! id) ->
  (forall id, lf_jobs s !! id = lf_jobs t !! id) -> s = t.
Proof.
  destruct s, t. simpl. intros -> -> H1 H2. f_equal; by apply map_eq.
Qed.

Section Expire.
Context (p : Attempt -> bool).

Lemma offers_where_elem db id a :
  (id, a) ∈ offers_where p db
  <-> db_attempts db !! id = Some a /\ at_status a = A_Offered /\ p a = true.
Proof. unfold offers_where. rewrite elem_of_rows, andb_true_iff, bool_decide_eq_true. done. Qed.

Lemma expire_offers_attempts db id :
  lf_attempts (lifecycle_of (expire_offers p db)) !! id =
    if bool_decide (id ∈ map fst (map (fun e => (e.1, attempt_view e.2)) (offers_where p db)))
    then la_set A_Expired <$> lf_attempts (lifecycle_of db) !! id
    else lf_attempts (lifecycle_of db) !! id.
Proof.
  simpl. rewrite !lookup_fmap, lookup_update_where, map_map. simpl.
  destruct (db_attempts db !! id) as [a|] eqn:Ha; simpl; [|by case_match].
  case_match eqn:Hs.
  - bool_hyps. rewrite bool_decide_eq_true_2; [done|]. apply list_elem_of_fmap. exists (id, a).
    split; [done|]. by apply offers_where_elem.
  - rewrite bool_decide_eq_false_2; [done|]. intros Hin.
    apply list_elem_of_fmap in Hin as ([k b] & Hk & Hin). simpl in Hk. subst k.
    apply offers_where_elem in Hin as (Hb & Ho & Hp). simplify_eq.
    by rewrite Ho, Hp in Hs.
Qed.

Lemma expire_offers_jobs db job :
  fleet_ok db ->
  lf_jobs (lifecycle_of (expire_offers p db)) !! job =
    if existsb (fun e => la_job e.2 =? job)
         (map (fun e => (e.1, attempt_view e.2)) (offers_where p db))
    then lj_set J_Queued None <$> lf_jobs (lifecycle_of db) !! job
    else lf_jobs (lifecycle_of db) !! job.
Proof.
  intros Hok. simpl. rewrite !lookup_fmap, lookup_update_where.
  destruct (db_jobs db !! job) as [j|] eqn:Hj; simpl; [|by case_match].
  destruct (existsb (fun e => la_job e.2 =? job) _) eqn:Ex.
  - apply existsb_exists in Ex as ([id la] & Hin & He). simpl in He. apply Z.eqb_eq in He.
    apply in_map_iff in Hin as ([id' a] & [= <- <-] & Hin).
    apply list_elem_of_In, offers_where_elem in Hin as (Ha & Ho & Hp). simpl in He.
    destruct (offered_job_row db id' a Hok Ha Ho) as (j0 & Hj0 & Hs & Hc & _).
    rewrite He in Hj0. simplify_eq. rewrite Hs.
    rewrite (bool_decide_eq_true_2 (J_Claimed = J_Claimed)), andb_true_r by done.
    case_match eqn:E; [done|]. exfalso. rewrite existsb_false_Forall, Forall_forall in E.
    specialize (E (id', a)). rewrite (offers_where_elem db id' a) in E.
    specialize (E (conj Ha (conj Ho Hp))). simpl in E. rewrite Z.eqb_refl, Hc in E.
    by rewrite bool_decide_eq_true_2 in E.
  - case_match eqn:E; [|done]. bool_hyps. exfalso.
    apply existsb_exists in H as ([id a] & Hin & He). bool_hyps. simpl in *.
    rewrite existsb_false_Forall, Forall_forall in Ex.
    assert (Hz : (la_job (attempt_view a) =? job) = false); [|simpl in Hz; lia].
    apply (Ex (id, attempt_view a)), list_elem_of_fmap. exists (id, a).
    split; [done|]. by apply list_elem_of_In.
Qed.

Lemma sim_expire_offers db : sim db (expire_offers p db).
Proof.
  intros Hok. pose proof Hok as [Hlife Hnext].
  destruct (release_all (map (fun e => (e.1, attempt_view e.2)) (offers_where p db))
              (lifecycle_of db) Hlife) as (s' & Hrtc & Hfe & Hcl & Hat & Hjo).
  - rewrite map_map. simpl. apply rows_NoDup.
  - apply Forall_forall. intros [id la] Hin.
    apply list_elem_of_fmap in Hin as ([id' a] & [= -> ->] & Hin).
    apply offers_where_elem in Hin as (Ha & Ho & _). split; [|done]. by apply (lookup_view attempt_view).
  - assert (Heq : lifecycle_of (expire_offers p db) = s').
    { apply lifecycle_ext; try done.
      - intros id. by rewrite expire_offers_attempts, Hat.
      - intros job. by rewrite expire_offers_jobs, Hjo. }
    split; [by rewrite Heq|]. split; [rewrite Heq; by eapply lifecycle_steps_inv | done].
Qed.

End Expire.

Lemma sim_withdraw db : sim db (withdraw_offers db).
Proof. unfold withdraw_offers. eapply sim_trans; [|apply sim_expire_offers]. frame. Qed.

Lemma sim_change_scheduler env c db x db' : change_scheduler env c db = Ok (x, db') -> sim db db'.
Proof.
  unfold change_scheduler. intros H. destruct (negb _); [done|].
  destruct (db_scheduler_audit db !! _); [ok_inv H; simplify_eq; apply sim_refl|].
  simplify_eq. match goal with |- sim _ (with_scheduler_audit _ ?d) =>
    apply (sim_trans _ d); [|frame] end.
  case_match; [|frame]. eapply sim_trans; [|apply sim_withdraw]. frame.
Qed.
End Maintenance.

(** ** Events, completion and cleanup *)
Section Events.
Lemma reporting_attempt_Some env w i trace db a :
  reporting_attempt env w i trace db = Some a ->
  find_attempt w i db = Some a /\ attempt_executing (at_status a) = true
  /\ tx_now env < at_lease_expires a /\ ar_trace (at_row a) = trace /\ authorized a db = true.
Proof.
  unfold reporting_attempt. destruct (find_attempt w i db) as [b|]; [|done].
  destruct (_ && _ && _ && _) eqn:E; [|done]. intros [= ->]. bool_hyps.
  split_and!; try done; lia.
Qed.

Lemma sim_ingest env w e db x db' : ingest_reliable_event env w e db = Ok (x, db') -> sim db db'.
Proof.
  unfold ingest_reliable_event. intros H.
  destruct (reporting_attempt _ _ _ _ _) as [a|] eqn:Er; [|simplify_eq; apply sim_refl].
  apply reporting_attempt_Some in Er as (Hf & _). apply find_attempt_Some in Hf as (Ha & _).
  destruct (negb _); [done|]. destruct (db_events db !! _); [destruct (negb _)|]; simplify_eq;
    [apply sim_refl|..].
  - apply sim_attempts. by eapply fmap_insert_same.
  - match goal with |- sim _ (with_attempts _ ?d) => apply (sim_trans _ d); [frame|] end.
    apply sim_attempts. by eapply fmap_insert_same.
Qed.

Lemma sim_mark_projected env id seq db x db' :
  mark_event_projected env id seq db = Ok (x, db') -> sim db db'.
Proof.
  unfold mark_event_projected. intros H.
  destruct (db_attempts db !! id) as [a|] eqn:Ha; [|simplify_eq; apply sim_refl].
  destruct (db_events db !! _) as [e|]; [|simplify_eq; apply sim_refl].
  destruct (_ && _); [|simplify_eq; apply sim_refl]. simplify_eq.
  apply sim_frame; [|by destruct (ae_payload e)..].
  unfold lifecycle_of. by destruct (ae_payload e); simpl; f_equal; eapply fmap_insert_same.
Qed.

Lemma sim_progress env w p db x db' : ingest_progress env w p db = Ok (x, db') -> sim db db'.
Proof. unfold ingest_progress. intros H. ok_inv H; simplify_eq; frame. Qed.
Lemma sim_grant env g db x db' : record_artifact_grant env g db = Ok (x, db') -> sim db db'.
Proof. unfold record_artifact_grant. intros H. ok_inv H; simplify_eq; frame. Qed.
Lemma sim_verify env i d db x db' : verify_artifact env i d db = Ok (x, db') -> sim db db'.
Proof. unfold verify_artifact. intros H. ok_inv H; simplify_eq; frame. Qed.

Lemma promote_artifacts_staging env id l db db' :
  promote_artifacts env id l db = Some db' -> exists f, db' = with_staging f db.
Proof.
  revert db. induction l as [|d l IH]; intros db; simpl.
  - intros [= <-]. exists (fun x => x). by destruct db.
  - intros H. repeat case_match; simplify_eq. destruct (IH _ H) as [f ->].
    eexists (fun m => f (<[_ := _]> m)). reflexivity.
Qed.
Lemma sim_promote env id l db x db' :
  mark_artifacts_promoted env id l db = Ok (x, db') -> sim db db'.
Proof.
  unfold mark_artifacts_promoted. intros H.
  destruct (db_attempts db !! id) as [a|]; [|simplify_eq; apply sim_refl].
  destruct (at_terminal a); [|simplify_eq; apply sim_refl].
  destruct (_ && _); [|simplify_eq; apply sim_refl].
  destruct (promote_artifacts env id l db) eqn:E; simplify_eq; [|apply sim_refl].
  apply promote_artifacts_staging in E as [f ->]. frame.
Qed.
Lemma sim_reaped key db x db' : mark_staged_artifact_reaped key db = Ok (x, db') -> sim db db'.
Proof. unfold mark_staged_artifact_reaped. intros [= _ <-]. frame. Qed.

Context `{DigestEnv}.

(** The outcome's rows do not touch the lifecycle tables. *)
Definition persist_frame (db db' : FleetDb) : Prop :=
  db_submissions db' = db_submissions db /\ db_jobs db' = db_jobs db
  /\ db_attempts db' = db_attempts db /\ db_obligations db' = db_obligations db
  /\ db_next_obligation db' = db_next_obligation db /\ db_sessions db' = db_sessions db
  /\ db_workers db' = db_workers db /\ db_events db' = db_events db
  /\ db_staging db' = db_staging db.
Lemma persist_write_frame job id spec w db db' :
  persist_write job id spec w db = Ok db' -> persist_frame db db'.
Proof.
  unfold persist_write, persist_completion, persist_failure, persist_block_result, insert_result.
  intros E. ok_inv E; simplify_eq; unfold persist_frame; repeat case_match; by simplify_eq.
Qed.

Lemma write_outcome w : (write_statuses w).2 = outcome_of (write_statuses w).1
                        /\ attempt_terminal (write_statuses w).1 = true.
Proof. by destruct w. Qed.

(** What an accepted terminal submission did, up to the session row. *)
Lemma accept_terminal_cases env w i s db x db' :
  accept_terminal env w i s db = Ok (x, db') ->
  (db' = db /\ x <> T_Accepted)
  \/ exists a j db1,
      find_attempt w i db = Some a /\ may_terminate env a s db = true
      /\ check_terminal_event (ai_attempt_id i) a s db = Ok tt
      /\ check_artifacts (ai_attempt_id i) (ts_artifacts s) db = Ok tt
      /\ db_jobs db !! ar_job (at_row a) = Some j /\ jb_status j = J_Running
      /\ jb_claim_token j = Some (ar_claim_token (at_row a))
      /\ x = T_Accepted
      /\ persist_frame (with_jobs <[ar_job (at_row a) :=
            with_job_status (write_statuses (ts_write s)).2 j]> db) db1
      /\ exists f, db' = with_sessions f (with_attempts <[ai_attempt_id i :=
            with_attempt_terminal (write_statuses (ts_write s)).1
              {| tr_reliable_seq := as_i64 (ts_reliable_seq s); tr_payload_digest := ts_payload_digest s;
                 tr_outcome := ts_outcome s; tr_artifacts := ts_artifacts s;
                 tr_at := tx_now env |} a]> db1).
Proof.
  unfold accept_terminal. intros E.
  destruct (find_attempt w i db) as [a|] eqn:Ef; [|left; by simplify_eq].
  destruct (attempt_terminal _); [left; simplify_eq; split; [done|by repeat case_match]|].
  destruct (may_terminate _ _ _ _) eqn:Em; simpl in E; [|left; by simplify_eq].
  destruct (check_terminal_event _ _ _ _) as [[]|] eqn:Ec; [|done].
  destruct (check_artifacts _ _ _) as [[]|] eqn:Ea; [|done]. destruct (negb _); [done|].
  destruct (db_jobs db !! _) as [j|] eqn:Ej; [|left; by simplify_eq].
  destruct (_ && _) eqn:Eg; simpl in E; [|left; by simplify_eq]. bool_hyps.
  destruct (write_statuses (ts_write s)) as [ast jst] eqn:Ew.
  destruct (persist_write _ _ _ _ _) as [db1|] eqn:Ep; [|done].
  apply persist_write_frame in Ep. right. exists a, j, db1. split_and!; try done.
  - by repeat (case_match; simplify_eq).
  - destruct (db_sessions _ !! _) as [session|].
    + destruct (put_session _ _ _) as [db2|] eqn:Es; [|done]. apply put_session_Ok in Es as ->.
      simplify_eq. by eexists.
    + simplify_eq. exists (fun x => x). by destruct db1.
Qed.

Lemma sim_terminal env w i s db x db' :
  accept_terminal env w i s db = Ok (x, db') -> sim db db'.
Proof.
  intros E. apply accept_terminal_cases in E as [[-> _]|E]; [apply sim_refl|].
  destruct E as (a & j & db1 & Hf & Hm & _ & _ & Hj & Hs & Hc & _ & Hp & f & ->).
  apply find_attempt_Some in Hf as (Ha & _). unfold may_terminate in Hm. bool_hyps.
  destruct (write_outcome (ts_write s)) as [Ho Ht].
  destruct Hp as (P1 & P2 & P3 & P4 & P5 & _). simpl in *.
  apply (sim_to (set_attempt (ai_attempt_id i)
      (la_set (write_statuses (ts_write s)).1 (attempt_view a))
      (set_job (la_job (attempt_view a))
         (lj_set (outcome_of (write_statuses (ts_write s)).1) (lj_claim (job_view j)) (job_view j))
         (lifecycle_of db)))); [|intros _|simpl; rewrite P4; eauto|simpl; by rewrite P5].
  - unfold lifecycle_of, set_attempt, set_job. simpl. rewrite P1, P2, P3, P4, !fmap_insert.
    simpl. rewrite <- Ho. done.
  - apply ls_terminal; try done;
      [by apply (lookup_view attempt_view) | by apply (lookup_view job_view)].
Qed.

Lemma sim_complete_cleanup env w session ob db x db' :
  complete_cleanup env w session ob db = Ok (x, db') -> sim db db'.
Proof.
  unfold complete_cleanup. intros E.
  destruct (db_obligations db !! ob) as [o|] eqn:Ho;
    [|destruct (negb _); simplify_eq; apply sim_refl].
  destruct (_ && _ && _) eqn:Eg; [|destruct (negb _); simplify_eq; apply sim_refl].
  bool_hyps. simplify_eq. intros Hok. pose proof Hok as [Hlife _].
  pose proof (lookup_view cleanup_view _ _ _ Ho) as Hv.
  destruct (li_pending _ Hlife ob _ Hv) as [(lj & Hlj & Hs) _]; [done|].
  apply lookup_view_inv in Hlj as (j & Hj & ->). simpl in Hj, Hs. revert Hok.
  apply (sim_to (set_job (lc_job (cleanup_view o))
       (if lc_requeue (cleanup_view o) then lj_set J_Queued None (job_view j)
        else lj_set J_Cancelled (lj_claim (job_view j)) (job_view j))
       (set_cleanup ob (lc_set C_Completed (lc_requeue (cleanup_view o)) (cleanup_view o))
          (lifecycle_of db)))).
  - simpl. destruct (ob_requeue o) eqn:Er.
    + rewrite (requeued_lifecycle J_Running _ j) by done. unfold lifecycle_of, set_cleanup. simpl.
      by rewrite fmap_insert, <- Er.
    + unfold cancel_running. simpl. rewrite Hj, decide_True by done. simpl.
      unfold lifecycle_of, set_job, set_cleanup. simpl. by rewrite !fmap_insert, <- Er.
  - intros _. apply ls_cleanup; try done. by apply (lookup_view job_view).
  - intros k o' Hk. assert (Hk' : <[ob := with_obligation_status C_Completed (tx_now env) o]>
      (db_obligations db) !! k = Some o').
    { revert Hk. unfold cancel_running. by repeat case_match. }
    apply lookup_insert_Some in Hk' as [[<- _]|[_ ?]]; eauto.
  - unfold cancel_running. by repeat case_match.
Qed.
End Events.

(** ** Administration *)
Section Admin.
Lemma sim_apply_lifecycle env worker w action draining shutdown generation db :
  sim db (apply_lifecycle env worker w action draining shutdown generation db).
Proof.
  unfold apply_lifecycle. destruct (decide (action = Act_Uncordon)); [frame|].
  match goal with |- sim _ (with_sessions _ ?d) => apply (sim_trans _ d); [|frame] end.
  eapply sim_trans; [|apply sim_expire_offers]. frame.
Qed.

Lemma sim_worker_lifecycle env c db x db' :
  change_worker_lifecycle env c db = Ok (x, db') -> sim db db'.
Proof.
  unfold change_worker_lifecycle. intros H. destruct (negb _); [done|].
  destruct (db_lifecycle_audit db !! _); [simplify_eq; apply sim_refl|].
  destruct (db_workers db !! _) as [w|]; [|simplify_eq; apply sim_refl].
  match goal with H : (if ?b then _ else _) = _ |- _ => destruct b end;
    simplify_eq; [apply sim_refl|].
  match goal with |- sim _ (with_lifecycle_audit _ ?d) => apply (sim_trans _ d) end;
    [apply sim_apply_lifecycle | frame].
Qed.

Lemma sim_set_draining env request worker draining db x db' :
  set_worker_draining env request worker draining db = Ok (x, db') -> sim db db'.
Proof.
  unfold set_worker_draining. intros H. ok_inv H. simplify_eq.
  by eapply sim_worker_lifecycle.
Qed.

Lemma sim_protocol_policy env c db x db' :
  change_protocol_policy env c db = Ok (x, db') -> sim db db'.
Proof.
  unfold change_protocol_policy. intros H. ok_inv H; simplify_eq; try apply sim_refl; frame.
Qed.

Lemma sim_freeze_specs specs resolved db db' :
  freeze_specs specs resolved db = Ok (Some db') -> sim db db'.
Proof.
  revert db. induction specs as [|[id x] specs IH]; intros db H; simpl in H.
  - simplify_eq. apply sim_refl.
  - destruct (resolved !! id) as [commit|]; [|done]. case_match; [done|]. case_match; [done|].
    eapply sim_trans; [|by apply IH].
    match goal with |- sim _ (with_jobs _ ?d) => apply (sim_trans _ d); [frame|] end.
    apply sim_jobs_same. by apply fmap_update_same.
Qed.

Lemma sim_freeze submission sources generation db x db' :
  freeze_submission_sources submission sources generation db = Ok (x, db') -> sim db db'.
Proof.
  unfold freeze_submission_sources. intros H.
  destruct (resolved_sources sources ∅) as [resolved|]; [|done].
  destruct (_ || _); [simplify_eq; apply sim_refl|].
  destruct (_ || _); [simplify_eq; apply sim_refl|].
  ok_inv H; simplify_eq; [by eapply sim_freeze_specs | apply sim_refl].
Qed.

Lemma sim_mark_progress env id seq db x db' :
  mark_progress_projected env id seq db = Ok (x, db') -> sim db db'.
Proof.
  unfold mark_progress_projected. intros H.
  destruct (db_progress db !! _); [case_match|]; simplify_eq; try apply sim_refl. frame.
Qed.
End Admin.

(** ** New rows *)
Lemma sim_new_submission id sub db :
  db_submissions db !! id = None -> (fleet_ok db -> 0 <= sb_fencing_generation sub) ->
  sim db (with_submissions <[id := sub]> db).
Proof.
  intros Hn Hf. apply (sim_to (set_fence id (sb_fencing_generation sub) (lifecycle_of db)));
    try done.
  - unfold lifecycle_of, set_fence. simpl. by rewrite fmap_insert.
  - intros Hok. apply ls_submission; [|auto]. simpl. by rewrite lookup_fmap, Hn.
Qed.
Lemma sim_new_job id j db :
  db_jobs db !! id = None -> jb_status j = J_Queued -> jb_claim_token j = None ->
  sim db (with_jobs <[id := j]> db).
Proof.
  intros Hn Hs Hc.
  apply (sim_to (set_job id {| lj_submission := jr_submission (jb_row j); lj_status := J_Queued;
                               lj_claim := None |} (lifecycle_of db))); try done.
  - unfold lifecycle_of, set_job. simpl. rewrite fmap_insert. unfold job_view at 1. by rewrite Hs, Hc.
  - intros _. apply ls_job. simpl. by rewrite lookup_fmap, Hn.
Qed.
(** Columns of a submission other than its fence. *)
Lemma sim_submission_columns f k db :
  (forall sub, sb_fencing_generation (f sub) = sb_fencing_generation sub) ->
  sim db (with_submissions (alter f k) db).
Proof.
  intros Hf. apply sim_frame; try done. unfold lifecycle_of. simpl. f_equal.
  by apply fmap_alter_same.
Qed.

(** ** Recovery *)
Section Recovery.
Context (env : TxEnv) (submission : Uuid) (reason : rstr).

(** Abandoning one obligation and its job. *)
Definition waive (db : FleetDb) (e : Z * Obligation) : FleetDb :=
  abandon_job submission reason (ob_job e.2)
    (with_obligations <[e.1 := with_obligation_status C_Abandoned (tx_now env) e.2]> db).

Lemma abandon_job_frame job db :
  db_obligations (abandon_job submission reason job db) = db_obligations db
  /\ db_next_obligation (abandon_job submission reason job db) = db_next_obligation db.
Proof. unfold abandon_job. by repeat case_match. Qed.

Lemma abandon_job_commutes f job db :
  abandon_job submission reason job (with_obligations f db)
  = with_obligations f (abandon_job submission reason job db).
Proof. unfold abandon_job. simpl. by repeat case_match. Qed.

(** The statement on all obligations, then the jobs one by one: the same as one
    obligation with its job after the other. *)
Lemma abandon_as_waive l db :
  foldl (fun db '(_, o) => abandon_job submission reason (ob_job o) db)
    (with_obligations (fun m => foldl (fun m '(k, o) =>
       <[k := with_obligation_status C_Abandoned (tx_now env) o]> m) m l) db) l
  = foldl waive db l.
Proof.
  revert db. induction l as [|[k o] l IH]; intros db; simpl; [by destruct db|].
  rewrite <- IH. unfold waive. simpl. f_equal. by rewrite <- !abandon_job_commutes.
Qed.

Lemma sim_waive db ob o :
  db_obligations db !! ob = Some o -> ob_status o = C_Pending -> sim db (waive db (ob, o)).
Proof.
  intros Ho Hp Hok. pose proof Hok as [Hlife _].
  pose proof (lookup_view cleanup_view _ _ _ Ho) as Hv.
  destruct (li_pending _ Hlife ob _ Hv) as [(lj & Hlj & Hs) _]; [done|].
  apply lookup_view_inv in Hlj as (j & Hj & ->). simpl in Hj, Hs. revert Hok.
  apply (sim_to (set_job (lc_job (cleanup_view o))
       (lj_set J_Cancelled (lj_claim (job_view j)) (job_view j))
       (set_cleanup ob (lc_set C_Abandoned (lc_requeue (cleanup_view o)) (cleanup_view o))
          (lifecycle_of db)))).
  - unfold waive, abandon_job. simpl. rewrite Hj, decide_True by done.
    unfold lifecycle_of, set_job, set_cleanup. simpl. by rewrite !fmap_insert.
  - intros _. apply ls_waive; try done. by apply (lookup_view job_view).
  - intros k o' Hk. unfold waive in Hk. rewrite (proj1 (abandon_job_frame _ _)) in Hk. simpl in Hk.
    apply lookup_insert_Some in Hk as [[<- _]|[_ ?]]; eauto.
  - unfold waive. by rewrite (proj2 (abandon_job_frame _ _)).
Qed.

Lemma sim_waive_all l db :
  NoDup (map fst l) ->
  Forall (fun e => db_obligations db !! e.1 = Some e.2 /\ ob_status e.2 = C_Pending) l ->
  sim db (foldl waive db l).
Proof.
  revert db. induction l as [|[k o] l IH]; intros db Hnd Hf; simpl; [apply sim_refl|].
  inversion Hnd as [|? ? Hni Hnd']; subst. apply Forall_cons in Hf as [[Ho Hp] Hf].
  eapply sim_trans; [by apply sim_waive|]. apply IH; [done|].
  apply Forall_forall. intros [k' o'] Hin. rewrite Forall_forall in Hf.
  destruct (Hf _ Hin) as [Ho' Hp']. simpl in *. split; [|done].
  unfold waive. rewrite (proj1 (abandon_job_frame _ _)). simpl. rewrite lookup_insert_ne; [done|].
  intros ->. apply Hni, list_elem_of_fmap. by exists (k', o').
Qed.

Lemma owed_pending db o : owed submission db o = true -> ob_status o = C_Pending.
Proof. unfold owed. intros H. by bool_hyps. Qed.

Lemma abandon_cleanup_waive db :
  abandon_cleanup env submission reason db
  = foldl waive db (rows (fun _ o => owed submission db o) (db_obligations db)).
Proof.
  rewrite <- abandon_as_waive. unfold abandon_cleanup. f_equal. unfold with_obligations.
  by rewrite insert_rows.
Qed.

Lemma sim_abandon db : sim db (abandon_cleanup env submission reason db).
Proof.
  rewrite abandon_cleanup_waive. apply sim_waive_all; [apply rows_NoDup|].
  apply Forall_forall. intros [k o] Hin. apply elem_of_rows in Hin as [Ho Hw].
  split; [done|]. by eapply owed_pending.
Qed.

(** Abandoning touches obligations, jobs and job events only. *)
Lemma abandon_cleanup_frame db :
  let db' := abandon_cleanup env submission reason db in
  db_attempts db' = db_attempts db /\ db_events db' = db_events db
  /\ db_submissions db' = db_submissions db.
Proof.
  simpl. rewrite abandon_cleanup_waive.
  generalize (rows (fun _ o => owed submission db o) (db_obligations db)). intros l.
  induction l as [|e l IH] using rev_ind; [done|]. rewrite foldl_app. simpl.
  unfold waive at 1 3 5, abandon_job. by repeat case_match.
Qed.

Lemma copy_specs_frame ids specs db db' :
  copy_specs ids specs db = Ok db' -> exists f, db' = with_specs f db.
Proof.
  revert db. induction specs as [|x specs IH]; intros db H; simpl in H.
  - exists id. simplify_eq. by destruct db'.
  - destruct (db_specs db !! _); [done|]. apply IH in H as [f ->].
    match goal with |- exists _, with_specs _ (with_specs ?g _) = _ =>
      by exists (fun m => f (g m)) end.
Qed.

(** What a successful recovery did, step by step. *)
Lemma recover_cases ids target db r db' :
  recover_submission env ids submission target reason db = Ok (r, db') ->
  exists prior f old j, let db1 := abandon_cleanup env submission reason db in
  let db2 := with_submissions <[rc_submission ids := next_generation submission target prior]> db1 in
  let db3 := with_specs f db2 in
  let db4 := with_jobs <[rc_job ids := copied_job env ids j]> db3 in
  db_submissions db !! submission = Some prior
  /\ exists_row (fun _ a => (ar_submission (at_row a) =? submission)
                   && attempt_active (at_status a)) (db_attempts db) = false
  /\ db_submissions db1 !! rc_submission ids = None
  /\ first_job submission db3 = Some (old, j) /\ db_jobs db1 !! rc_job ids = None
  /\ r = {| sv_prior_submission := submission; sv_new_submission := rc_submission ids;
            sv_first_job := rc_job ids;
            sv_execution_generation := sb_execution_generation prior + 1 |}
  /\ exists g, db' = move_slack submission (rc_submission ids) (sb_slack prior)
                      (with_job_events g db4).
Proof.
  unfold recover_submission, ensure. intros H. head_case H E1; [|done].
  head_case H E2; [|done].
  destruct (db_submissions db !! submission) as [prior|] eqn:Hp; [|done].
  head_case H E3; [|done]. head_case H E4; [|done].
  unfold insert_submission in H. set (db1 := abandon_cleanup _ _ _ _) in *.
  destruct (db_submissions db1 !! rc_submission ids) eqn:Hs; [done|].
  destruct (copy_specs _ _ _) as [db3|] eqn:Hc; [|done].
  apply copy_specs_frame in Hc as [f ->].
  destruct (first_job submission _) as [[old j]|] eqn:Hf; [|done].
  unfold insert_job in H. destruct (db_jobs _ !! rc_job ids) eqn:Hj; [done|]. simplify_eq.
  head_case E4 Ea; [|done]. bool_hyps. exists prior, f, old, j. split_and!; try done. by eexists.
Qed.

Lemma recover_frame ids target db r db' :
  recover_submission env ids submission target reason db = Ok (r, db') ->
  db_attempts db' = db_attempts db /\ db_events db' = db_events db.
Proof.
  intros H. apply recover_cases in H as (prior & f & old & j & _ & _ & _ & _ & _ & _ & g & ->).
  destruct (abandon_cleanup_frame db) as (H1 & H2 & _). unfold move_slack. by case_match.
Qed.

Lemma sim_move_slack old new slack db : sim db (move_slack old new slack db).
Proof.
  unfold move_slack. destruct slack; [|apply sim_refl].
  eapply (sim_trans _ (with_submissions (alter (with_slack None) old) db));
    [by apply sim_submission_columns|].
  eapply (sim_trans _ (with_submissions (alter (with_slack (Some o)) new)
                         (with_submissions (alter (with_slack None) old) db)));
    [by apply sim_submission_columns | apply sim_refl].
Qed.

Lemma sim_recover ids target db r db' :
  recover_submission env ids submission target reason db = Ok (r, db') -> sim db db'.
Proof.
  intros H. apply recover_cases in H as (prior & f & old & j & Hp & _ & Hs & _ & Hj & _ & g & ->).
  pose proof (sim_abandon db) as Hab. set (db1 := abandon_cleanup _ _ _ _) in *.
  intros Hok. assert (Hf : 0 <= sb_fencing_generation prior).
  { eapply (li_fence_nonneg _ (fo_life _ Hok) submission). simpl. by rewrite lookup_fmap, Hp. }
  revert Hok. set (db2 := with_submissions _ db1) in *. set (db3 := with_specs f db2) in *.
  set (db4 := with_jobs _ db3) in *.
  apply (sim_trans _ db1); [exact Hab|].
  apply (sim_trans _ db2); [apply sim_new_submission; [done|]; intros _; simpl; lia|].
  apply (sim_trans _ db3); [frame|]. apply (sim_trans _ db4); [by apply sim_new_job|].
  eapply sim_trans; [|apply sim_move_slack]. frame.
Qed.
End Recovery.
