(* ===== verification/FleetSystem.v ===== *)
(** * The fleet as a transition system

    One constructor of [FleetOp] per transaction of the store, plus the rows
    that other stores write: a submission, its specs, a queued job, the events that
    announce it, and the Slack receipt.  [run_op] executes a transaction,
    [run] executes a trace, and [fleet_after] is the database a deployment reaches
    from empty tables.  [sim_op] collects the simulation lemmas of FleetRefine.v:
    every transaction is matched by lifecycle transitions. *)
From stdpp Require Import base list strings gmap relations.
From Stdlib Require Import ZArith Lia.
From S2P Require Import Prelude RustStr Json FleetModel Negotiation Validate FleetDb.
From S2P Require Import FleetSessions FleetScheduling FleetEvents FleetAdmin FleetRecovery.
From S2P Require Import FleetSpec FleetRefine.

Local Open Scope Z_scope.

(** ** Transactions *)
Inductive FleetOp :=
(* admission, by the submission and job stores *)
| Op_Submit (id : Uuid) (sub : Submission)
| Op_Enqueue (id : Uuid) (row : JobRow) (commit : option rstr)
| Op_Spec (id : Uuid) (spec : TaskSpec)
| Op_SlackReported (submission : Uuid) (message_ts : rstr)
| Op_Announce (job : Uuid) (kind : JobEventKind) (remark : option rstr) (detail : option Value)
(* registry *)
| Op_CreateWorker (r : WorkerRegistration)
| Op_UpdateWorker (env : TxEnv) (worker : Uuid) (patch : WorkerPolicyPatch)
| Op_AuthorizeIdentity (worker : Uuid) (key : rstr)
| Op_RevokeIdentity (env : TxEnv) (worker : Uuid) (key : rstr)
| Op_EmergencyDisable (env : TxEnv) (worker : Uuid)
| Op_EmergencyRevoke (env : TxEnv) (worker : Uuid) (key : rstr)
| Op_WorkerLifecycle (env : TxEnv) (c : WorkerLifecycleChange)
| Op_SetDraining (env : TxEnv) (request worker : Uuid) (draining : bool)
(* sessions *)
| Op_Register (env : TxEnv) (worker : Uuid) (key : rstr) (r : RegisterSessionRequest) (ttl : Z)
| Op_Deregister (env : TxEnv) (worker session : Uuid)
(* scheduling *)
| Op_Freeze (submission : Uuid) (sources : list ResolvedSpecSource) (generation : Z)
| Op_Prepare (p : PreparedExecution)
| Op_Recover (env : TxEnv) (ids : RecoveryIds) (submission : Uuid) (target : option Uuid)
    (reason : rstr)
| Op_Poll (env : TxEnv) (ids : PollIds) (worker session : Uuid) (offer_ttl lease_ttl : Z)
| Op_Accept (env : TxEnv) (worker : Uuid) (i : AttemptIdentity) (lease_ttl : Z)
| Op_Heartbeat (env : TxEnv) (worker : Uuid) (i : AttemptIdentity) (lease_ttl : Z)
    (buffer : option Z)
| Op_ExpireStale (env : TxEnv)
| Op_RequestCancel (env : TxEnv) (job : Uuid)
| Op_ExpireSlack (env : TxEnv) (timeout : Z) (remark : rstr)
| Op_FailSlack (env : TxEnv) (remark : rstr)
| Op_ChangeScheduler (env : TxEnv) (c : SchedulerChange)
| Op_Abort (env : TxEnv) (r : FleetAbortRequest)
| Op_ProtocolPolicy (env : TxEnv) (c : ProtocolPolicyChange)
(* events, artifacts, completion, cleanup *)
| Op_Ingest (env : TxEnv) (worker : Uuid) (e : ReliableEventEnvelope)
| Op_MarkProjected (env : TxEnv) (attempt : Uuid) (seq : Z)
| Op_Progress (env : TxEnv) (worker : Uuid) (p : ProgressRequest)
| Op_MarkProgress (env : TxEnv) (attempt : Uuid) (seq : Z)
| Op_Grant (env : TxEnv) (g : ArtifactGrantRecord)
| Op_Verify (env : TxEnv) (i : AttemptIdentity) (d : ArtifactDescriptor)
| Op_Promote (env : TxEnv) (attempt : Uuid) (artifacts : list ArtifactDescriptor)
| Op_Reaped (key : rstr)
| Op_Terminal (env : TxEnv) (worker : Uuid) (i : AttemptIdentity) (s : FleetTerminalSubmission)
| Op_CompleteCleanup (env : TxEnv) (worker session : Uuid) (obligation : Z).

(** The database a transaction commits. *)
Definition committed {A} (r : result (A * FleetDb) StoreError) : result FleetDb StoreError :=
  match r with Ok (_, db) => Ok db | Err e => Err e end.

(** A new row: the key must be free. *)
Definition insert_new {A} (id : Uuid) (a : A) (name : string) (m : gmap Uuid A)
    (put : FleetDb) : result FleetDb StoreError :=
  match m !! id with Some _ => Err (Constraint name) | None => Ok put end.

Section System.
Context `{DigestEnv}.

Definition run_op (op : FleetOp) (db : FleetDb) : result FleetDb StoreError :=
  match op with
  | Op_Submit id sub =>
      ensure (0 <=? sb_fencing_generation sub) (Constraint "task_submission_check") ;?
      insert_new id sub "task_submission_pkey" (db_submissions db)
        (with_submissions <[id := sub]> db)
  | Op_Enqueue id row commit =>
      let j := {| jb_row := row; jb_status := J_Queued; jb_claim_token := None;
                  jb_claimed_at := None; jb_commit := commit; jb_payload := None |} in
      insert_new id j "job_pkey" (db_jobs db) (with_jobs <[id := j]> db)
  | Op_Spec id spec =>
      insert_new id spec "task_spec_pkey" (db_specs db) (with_specs <[id := spec]> db)
  | Op_SlackReported id ts =>
      Ok (with_submissions (alter (fun sub =>
            {| sb_required_worker := sb_required_worker sub;
               sb_required_profile := sb_required_profile sub;
               sb_recovery_of := sb_recovery_of sub;
               sb_execution_generation := sb_execution_generation sub;
               sb_assigned_worker := sb_assigned_worker sub;
               sb_assigned_profile := sb_assigned_profile sub;
               sb_fencing_generation := sb_fencing_generation sub;
               sb_slack := Some (Some ts) |}) id) db)
  | Op_Announce job kind remark detail => Ok (insert_job_event job kind true remark detail db)
  | Op_CreateWorker r => committed (create_worker r db)
  | Op_UpdateWorker env w patch => committed (update_worker env w patch db)
  | Op_AuthorizeIdentity w k => committed (authorize_identity w k db)
  | Op_RevokeIdentity env w k => committed (revoke_identity env w k db)
  | Op_EmergencyDisable env w => committed (emergency_disable_worker env w db)
  | Op_EmergencyRevoke env w k => committed (emergency_revoke_identity env w k db)
  | Op_WorkerLifecycle env c => committed (change_worker_lifecycle env c db)
  | Op_SetDraining env r w d => committed (set_worker_draining env r w d db)
  | Op_Register env w k r ttl => committed (register_session env w k r ttl db)
  | Op_Deregister env w s => committed (deregister_session env w s db)
  | Op_Freeze sub sources g => committed (freeze_submission_sources sub sources g db)
  | Op_Prepare p => committed (prepare_execution p db)
  | Op_Recover env ids sub target reason =>
      committed (recover_submission env ids sub target reason db)
  | Op_Poll env ids w s ot lt => committed (poll_offer env ids w s ot lt db)
  | Op_Accept env w i lt => committed (accept_offer env w i lt db)
  | Op_Heartbeat env w i lt b => committed (heartbeat_attempt env w i lt b db)
  | Op_ExpireStale env => committed (expire_stale_attempts env db)
  | Op_RequestCancel env job => committed (request_cancel env job db)
  | Op_ExpireSlack env t r => committed (expire_unreported_slack_jobs env t r db)
  | Op_FailSlack env r => committed (fail_queued_slack_jobs_without_connector env r db)
  | Op_ChangeScheduler env c => committed (change_scheduler env c db)
  | Op_Abort env r => committed (abort_fleet env r db)
  | Op_ProtocolPolicy env c => committed (change_protocol_policy env c db)
  | Op_Ingest env w e => committed (ingest_reliable_event env w e db)
  | Op_MarkProjected env a n => committed (mark_event_projected env a n db)
  | Op_Progress env w p => committed (ingest_progress env w p db)
  | Op_MarkProgress env a n => committed (mark_progress_projected env a n db)
  | Op_Grant env g => committed (record_artifact_grant env g db)
  | Op_Verify env i d => committed (verify_artifact env i d db)
  | Op_Promote env a l => committed (mark_artifacts_promoted env a l db)
  | Op_Reaped k => committed (mark_staged_artifact_reaped k db)
  | Op_Terminal env w i s => committed (accept_terminal env w i s db)
  | Op_CompleteCleanup env w s o => committed (complete_cleanup env w s o db)
  end.

(** A trace of transactions; one that fails leaves the database alone. *)
Definition run (ops : list FleetOp) (db : FleetDb) : FleetDb :=
  foldl (fun db op => match run_op op db with Ok db' => db' | Err _ => db end) db ops.

Definition empty_db (scheduler : SchedulerPolicy) (protocol : ProtocolPolicy) : FleetDb :=
  {| db_workers := ∅; db_identities := ∅; db_sessions := ∅; db_submissions := ∅; db_specs := ∅;
     db_jobs := ∅; db_attempts := ∅; db_events := ∅; db_progress := ∅; db_staging := ∅;
     db_obligations := ∅; db_next_obligation := 1; db_job_events := []; db_results := ∅;
     db_metrics := ∅; db_block_results := ∅; db_scheduler := scheduler;
     db_scheduler_audit := ∅; db_abort_audit := ∅; db_lifecycle_audit := ∅;
     db_protocol := protocol; db_protocol_audit := ∅ |}.

(** The database after a trace of a fresh deployment. *)
Definition fleet_after (scheduler : SchedulerPolicy) (protocol : ProtocolPolicy)
    (trace : list FleetOp) : FleetDb := run trace (empty_db scheduler protocol).

(** ** Simulation of every transaction *)
Lemma committed_Ok {A} (r : result (A * FleetDb) StoreError) db :
  committed r = Ok db -> exists x, r = Ok (x, db).
Proof. destruct r as [[x d]|]; simpl; [|done]. intros [= ->]. by exists x. Qed.

Lemma sim_submit id sub db db' : run_op (Op_Submit id sub) db = Ok db' -> sim db db'.
Proof.
  simpl. unfold ensure, insert_new. intros Hr.
  destruct (Z.leb_spec 0 (sb_fencing_generation sub)); [|done].
  destruct (db_submissions db !! id) eqn:Hn; [done|]. simplify_eq. by apply sim_new_submission.
Qed.

Lemma sim_enqueue id row commit db db' :
  run_op (Op_Enqueue id row commit) db = Ok db' -> sim db db'.
Proof.
  simpl. unfold insert_new. intros Hr. destruct (db_jobs db !! id) eqn:Hn; [done|]. simplify_eq.
  by apply sim_new_job.
Qed.

Lemma sim_slack_reported id ts db db' :
  run_op (Op_SlackReported id ts) db = Ok db' -> sim db db'.
Proof.
  simpl. intros [= <-]. by apply sim_submission_columns.
Qed.

Lemma sim_op op db db' : run_op op db = Ok db' -> sim db db'.
Proof.
  intros Hr. destruct op;
    try (cbn [run_op] in Hr; apply committed_Ok in Hr as [x Hr]).
  - by eapply sim_submit.
  - by eapply sim_enqueue.
  - simpl in Hr. unfold insert_new in Hr. ok_inv Hr. simplify_eq. frame.
  - by eapply sim_slack_reported.
  - simpl in Hr. simplify_eq. frame.
  - by eapply sim_create_worker.
  - by eapply sim_update_worker.
  - by eapply sim_authorize_identity.
  - by eapply sim_revoke_identity.
  - by eapply sim_emergency_disable.
  - by eapply sim_emergency_revoke.
  - by eapply sim_worker_lifecycle.
  - by eapply sim_set_draining.
  - by eapply sim_register_session.
  - by eapply sim_deregister.
  - by eapply sim_freeze.
  - by eapply sim_prepare.
  - by eapply sim_recover.
  - by eapply sim_poll.
  - by eapply sim_accept.
  - by eapply sim_heartbeat.
  - by eapply sim_expire_stale.
  - by eapply sim_request_cancel.
  - by eapply sim_expire_slack.
  - by eapply sim_fail_slack.
  - by eapply sim_change_scheduler.
  - by eapply sim_abort.
  - by eapply sim_protocol_policy.
  - by eapply sim_ingest.
  - by eapply sim_mark_projected.
  - by eapply sim_progress.
  - by eapply sim_mark_progress.
  - by eapply sim_grant.
  - by eapply sim_verify.
  - by eapply sim_promote.
  - by eapply sim_reaped.
  - by eapply sim_terminal.
  - by eapply sim_complete_cleanup.
Qed.

Lemma empty_ok scheduler protocol : fleet_ok (empty_db scheduler protocol).
Proof.
  split; simpl; [|intros id o Ho; by rewrite lookup_empty in Ho].
  unfold lifecycle_of. simpl. rewrite !fmap_empty. apply lifecycle_empty_inv.
Qed.

Lemma sim_run ops db : sim db (run ops db).
Proof.
  revert db. induction ops as [|op ops IH]; intros db; [apply sim_refl|].
  unfold run. simpl. fold (run ops). eapply sim_trans; [|apply IH].
  destruct (run_op op db) eqn:E; [by eapply sim_op | apply sim_refl].
Qed.

Lemma run_app ops ops' db : run (ops ++ ops') db = run ops' (run ops db).
Proof. apply foldl_app. Qed.

Lemma after_run scheduler protocol trace :
  fleet_after scheduler protocol trace = run trace (empty_db scheduler protocol).
Proof. done. Qed.
Lemma after_app scheduler protocol trace later :
  fleet_after scheduler protocol (trace ++ later)
  = run later (fleet_after scheduler protocol trace).
Proof. apply run_app. Qed.

(** Every database a deployment reaches is well formed. *)
Lemma after_ok scheduler protocol trace : fleet_ok (fleet_after scheduler protocol trace).
Proof. apply sim_run, empty_ok. Qed.
Lemma after_linked scheduler protocol trace :
  lifecycle_linked (lifecycle_of (fleet_after scheduler protocol trace)).
Proof.
  eapply lifecycle_steps_linked; [apply sim_run, empty_ok|].
  intros id a Ha. simpl in Ha. by rewrite fmap_empty, lookup_empty in Ha.
Qed.
End System.
