(* ===== verification/FleetService.v ===== *)
(** * The daemon's fleet service

    crates/sbgh-daemon/src/fleet/service.rs and lease.rs: the handlers behind the
    worker protocol.  A handler authorizes the peer, validates the request, checks
    the lease token and then calls the store, one transaction per call; between
    two of its calls other transactions commit, and any call can fail before or
    after its commit.  [World] carries the database and the script of what happens
    at each call, and a handler is a function on worlds.

    Error messages are not modelled (the stable code is).  The artifact store and
    GitHub's token endpoint are the classes [ArtifactStore] and [ServiceEnv]. *)
From stdpp Require Import base list strings gmap.
From Stdlib Require Import ZArith Lia.
From S2P Require Import Prelude RustStr Json FleetModel Negotiation Validate FleetDb.
From S2P Require Import FleetSessions FleetScheduling FleetEvents FleetAdmin FleetRecovery.
From S2P Require Import FleetSpec FleetRefine FleetSystem.

Local Open Scope Z_scope.

(** ** Errors *)
Inductive ServiceCode :=
| InvalidArgument | PermissionDenied | FailedPrecondition | ResourceExhausted | Unavailable
| Internal.
Global Instance ServiceCode_eq_dec : EqDecision ServiceCode.
Proof. solve_decision. Defined.

Record ServiceError := {
  se_code : ServiceCode;
  se_stable_code : string;
  se_retryable : bool;
  se_retry_after_ms : option Z
}.

Definition service_error (status : ServiceCode) (code : string) (retryable : bool)
  : ServiceError :=
  {| se_code := status; se_stable_code := code; se_retryable := retryable;
     se_retry_after_ms := None |}.
Definition protocol_error : ServiceError :=
  service_error InvalidArgument "invalid_protocol_message" false.
Definition bad_request : ServiceError := service_error InvalidArgument "invalid_request" false.
Definition stale_attempt : ServiceError :=
  service_error FailedPrecondition "stale_attempt" false.
Definition internal (_ : StoreError) : ServiceError :=
  service_error Internal "internal_error" true.
Definition fleet_store_error (e : StoreError) : ServiceError :=
  match e with
  | FleetSessionInactive => service_error FailedPrecondition "session_recovery_required" false
  | Registration reason =>
      let '(code, retryable) :=
        match reason with
        | Superseded => ("session_superseded"%string, false)
        | FactsChanged => ("session_facts_changed"%string, false)
        | RecoveryPending => ("session_recovery_pending"%string, true)
        | ProtocolIncompatible => ("protocol_incompatible"%string, false)
        end in
      service_error FailedPrecondition code retryable
  | _ => internal e
  end.

(** ** The world of a handler *)

(** What happens at one call of the store: other transactions commit first, then
    the call runs, fails without a commit, or commits and its answer is lost. *)
Inductive StoreCall :=
| Call_Runs (others : list FleetOp) (env : TxEnv)
| Call_Fails (others : list FleetOp)
| Call_Lost (others : list FleetOp) (env : TxEnv).
Definition call_others (c : StoreCall) : list FleetOp :=
  match c with Call_Runs ops _ | Call_Fails ops | Call_Lost ops _ => ops end.

(** [w_polls] is [ActivePolls]. *)
Record World := {
  w_db : FleetDb;
  w_calls : list StoreCall;
  w_polls : gset (Uuid * Uuid)
}.
Definition with_db (db : FleetDb) (calls : list StoreCall) (w : World) : World :=
  {| w_db := db; w_calls := calls; w_polls := w_polls w |}.
Definition with_polls (f : gset (Uuid * Uuid) -> gset (Uuid * Uuid)) (w : World) : World :=
  {| w_db := w_db w; w_calls := w_calls w; w_polls := f (w_polls w) |}.

Definition Svc (E A : Type) : Type := World -> result A E * World.
Definition lift {E A} (r : result A E) : Svc E A := fun w => (r, w).
Definition svc_bind {E A B} (m : Svc E A) (k : A -> Svc E B) : Svc E B := fun w =>
  match m w with
  | (Ok a, w') => k a w'
  | (Err e, w') => (Err e, w')
  end.
Definition svc_map_err {E F A} (f : E -> F) (m : Svc E A) : Svc F A := fun w =>
  let '(r, w') := m w in (map_err f r, w').

Declare Scope svc_scope.
Delimit Scope svc_scope with svc.
Notation "'let!' x ':=' m 'in' k" := (svc_bind m (fun x => k))
  (at level 10, x pattern, m at level 100, k at level 200,
   format "'[v' 'let!'  x  ':='  m  'in' '/' k ']'") : svc_scope.
Notation "m ';!' k" := (svc_bind m (fun _ => k))
  (at level 120, right associativity) : svc_scope.
Open Scope svc_scope.

Section Calls.
Context `{DigestEnv}.

Definition store {A} (tx : TxEnv -> Tx A) : Svc StoreError A := fun w =>
  match w_calls w with
  | [] => (Err Database, w)
  | Call_Fails others :: rest => (Err Database, with_db (run others (w_db w)) rest w)
  | Call_Runs others env :: rest =>
      let db := run others (w_db w) in
      match tx env db with
      | Ok (a, db') => (Ok a, with_db db' rest w)
      | Err e => (Err e, with_db db rest w)
      end
  | Call_Lost others env :: rest =>
      let db := run others (w_db w) in
      (Err Database, with_db (match tx env db with Ok (_, db') => db' | Err _ => db end) rest w)
  end.

(** A call that only reads. *)
Definition query {A} (f : TxEnv -> FleetDb -> A) : Svc StoreError A :=
  store (fun env db => Ok (f env db, db)).
Definition query_result {A} (f : TxEnv -> FleetDb -> result A StoreError) : Svc StoreError A :=
  store (fun env db => let? a := f env db in Ok (a, db)).
End Calls.

(** ** Configuration (sbgh-core config.rs) *)
Record FleetConfig := {
  cf_heartbeat_seconds : Z;
  cf_lease_seconds : Z;
  cf_offer_seconds : Z;
  cf_session_seconds : Z;
  cf_long_poll_seconds : Z;
  cf_request_timeout_seconds : Z;
  cf_upload_grant_seconds : Z;
  cf_staging_gc_grace_seconds : Z;
  cf_max_artifact_bytes : Z;
  cf_max_attempt_artifact_bytes : Z;
  cf_max_concurrent_requests : Z
}.
Definition FleetConfig_default : FleetConfig :=
  {| cf_heartbeat_seconds := 10; cf_lease_seconds := 45; cf_offer_seconds := 30;
     cf_session_seconds := 90; cf_long_poll_seconds := 20; cf_request_timeout_seconds := 120;
     cf_upload_grant_seconds := 300; cf_staging_gc_grace_seconds := 86400;
     cf_max_artifact_bytes := 8 * 1024 * 1024 * 1024;
     cf_max_attempt_artifact_bytes := 32 * 1024 * 1024 * 1024;
     cf_max_concurrent_requests := 64 |}.
Definition MAX_LONG_POLL_SECS : Z := 30.
Definition saturating_mul_u64 (a b : Z) : Z := Z.min (a * b) U64_MAX.
Definition validate_fleet_config (c : FleetConfig) : result unit StoreError :=
  if (cf_heartbeat_seconds c =? 0)
     || (cf_lease_seconds c <? saturating_mul_u64 (cf_heartbeat_seconds c) 3)
     || (cf_offer_seconds c =? 0)
     || (cf_session_seconds c <? saturating_mul_u64 (cf_lease_seconds c) 2)
  then Err (Config "fleet heartbeat/lease/offer/session durations are inconsistent")
  else if (cf_long_poll_seconds c =? 0) || (MAX_LONG_POLL_SECS <? cf_long_poll_seconds c)
          || (cf_request_timeout_seconds c <=? cf_long_poll_seconds c)
  then Err (Config "fleet long-poll/request timeout exceeds transport bounds")
  else if (cf_upload_grant_seconds c =? 0)
          || (cf_staging_gc_grace_seconds c <? cf_upload_grant_seconds c)
          || (I64_MAX <? cf_staging_gc_grace_seconds c) || (cf_max_artifact_bytes c =? 0)
          || (cf_max_attempt_artifact_bytes c <? cf_max_artifact_bytes c)
          || negb (Char.between 64 1024 (cf_max_concurrent_requests c))
  then Err (Config "fleet transport or artifact limits are invalid")
  else Ok tt.

(** A duration in milliseconds: [as_millis() as u64], and chrono's, which refuses
    what its 64-bit milliseconds cannot hold. *)
Definition as_millis (seconds : Z) : Z := (seconds * 1000) mod 2 ^ 64.
Definition chrono_duration (seconds : Z) : result Z ServiceError :=
  if I64_MAX / 1000 <? seconds then Err (internal Database) else Ok (seconds * 1000).

(** ** Code outside the repository and the artifact store *)
Class ServiceEnv := {
  hmac_sha256 : list Z -> list Z -> list Z;
  mint_repository_read_token : Z -> Z -> option (rstr * Z);
  json_from_slice : list Z -> option Value
}.
(** The trait [ArtifactStore] as the service uses it; [archived] reads the file
    that [get] resolves, [run_metric] is [RunResult::from_bytes] with
    [metric_from_run]. *)
Class ArtifactStore := {
  fleet_put_grant : rstr -> Z -> rstr -> Z -> option ArtifactGrantResponse;
  fleet_get_grant : rstr -> Z -> option ArtifactGrantResponse;
  verify_fleet_upload : ArtifactDescriptor -> bool;
  promote_fleet_upload : ArtifactDescriptor -> bool;
  delete_fleet_staging : rstr -> bool;
  archived : rstr -> option (list Z);
  run_metric : list Z -> option JobMetric
}.

(** ** Lease tokens (fleet/lease.rs) *)
Section LeaseSigner.
Context `{ServiceEnv}.

Definition signing_bytes (worker session attempt : Uuid) (fence : Z) : list Z :=
  be_bytes 16 worker ++ be_bytes 16 session ++ be_bytes 16 attempt ++ be_bytes 8 fence.
Definition hex_encode (bs : list Z) : rstr := concat (map (hex_digits 2) bs).
Definition issue (key : list Z) (worker session attempt : Uuid) (fence : Z) : rstr :=
  hex_encode (hmac_sha256 key (signing_bytes worker session attempt fence)).
Definition verify (key : list Z) (worker : Uuid) (i : AttemptIdentity) : bool :=
  bool_decide (bytes (issue key worker (ai_worker_session_id i) (ai_attempt_id i)
                        (ai_fencing_generation i)) = bytes (ai_lease_token i)).
End LeaseSigner.

(** ** Handlers *)
Record ServiceState := {
  st_key : list Z;                 (** the signer's key *)
  st_config : FleetConfig
}.

Section Handlers.
Context `{DigestEnv} `{ServiceEnv} `{ArtifactStore}.
Context (state : ServiceState) (peer : rstr).
Let config := st_config state.
Notation Service := (Svc ServiceError).

Definition authorize_peer : Service WorkerAuthorization :=
  let! found := svc_map_err internal (query (fun _ => authorize_worker peer)) in
  lift (ok_or found (service_error PermissionDenied "worker_not_registered" false)).
Definition svc_validate {A} `{Validate A} (a : A) : Service unit :=
  lift (map_err (fun _ => protocol_error) (validate a)).
Definition authorize_attempt (worker : Uuid) (i : AttemptIdentity) : Service unit :=
  lift (ensure (verify (st_key state) worker i)
          (service_error PermissionDenied "invalid_lease_token" false)).
Definition config_duration (seconds : Z) : Service Z := lift (chrono_duration seconds).
(** [.ok_or_else(stale_attempt)?] on the answer of a store call. *)
Definition or_stale {A} (m : Svc StoreError (option A)) : Service A :=
  let! o := svc_map_err internal m in lift (ok_or o stale_attempt).

Definition effective_capabilities (w : WorkerAuthorization) (advertised : gset WorkerCapability)
  : result (gset WorkerCapability) ServiceError :=
  let effective := advertised ∩ wa_allowed w in
  ensure (negb (bool_decide (effective = ∅)))
    (service_error PermissionDenied "capability_not_authorized" false) ;?
  Ok effective.

(** [register]; [now] is the daemon's clock when it answers. *)
Definition register (r : RegisterSessionRequest) (now : Z) : Service RegisterSessionResponse :=
  let! configured := authorize_peer in
  svc_validate r ;!
  lift (effective_capabilities configured (rs_advertised_capabilities r)) ;!
  let! ttl := config_duration (cf_session_seconds config) in
  let! session := svc_map_err fleet_store_error
    (store (fun env => register_session env (wa_worker_id configured) peer r ttl)) in
  lift (Ok {| rg_protocol_version := pc_revision (au_contract session);
              rg_protocol_contract := (fun _ => au_contract session) <$> rs_protocol_offer r;
              rg_heartbeat_interval_ms := as_millis (cf_heartbeat_seconds config);
              rg_lease_ttl_ms := as_millis (cf_lease_seconds config);
              rg_server_time_ms := now |}).

Definition negotiate_registration (version : Z) (offer : option ProtocolOffer) (floor : Z)
  : result ProtocolContract ServiceError :=
  map_err (fun _ => service_error FailedPrecondition "protocol_incompatible" false)
    (let? offer := ProtocolOffer_registration version offer in negotiate offer floor).

Definition check_registration (r : RegistrationCheckRequest) (now : Z)
  : Service RegistrationCheckResponse :=
  let! floor := svc_map_err internal
                  (query (fun _ db => pp_minimum_revision (db_protocol db))) in
  let! configured := authorize_peer in
  svc_validate r ;!
  let! contract := lift (negotiate_registration (rc_protocol_version r) (rc_protocol_offer r)
                           floor) in
  let! effective := lift (effective_capabilities configured (rc_advertised_capabilities r)) in
  lift (Ok {| rr_protocol_version := pc_revision contract;
              rr_protocol_contract := (fun _ => contract) <$> rc_protocol_offer r;
              rr_worker_id := wa_worker_id configured; rr_effective_capabilities := effective;
              rr_measurement_profile := wa_profile configured;
              rr_draining := wa_draining configured;
              rr_heartbeat_interval_ms := as_millis (cf_heartbeat_seconds config);
              rr_lease_ttl_ms := as_millis (cf_lease_seconds config);
              rr_server_time_ms := now |}).

(** *** Polling *)

(** One iteration of the long poll: is the daemon quiescing at its start, the
    identifiers an offer would draw, the monotonic clock at the deadline check,
    and whether quiescing interrupts the sleep that follows. *)
Record PollTick := {
  pt_quiescing : bool;
  pt_ids : PollIds;
  pt_now : Z;
  pt_interrupted : bool
}.

Definition with_token (token : rstr) (o : WorkOffer) : WorkOffer :=
  {| wo_identity := {| ai_worker_session_id := ai_worker_session_id (wo_identity o);
       ai_attempt_id := ai_attempt_id (wo_identity o);
       ai_fencing_generation := ai_fencing_generation (wo_identity o);
       ai_lease_token := token |};
     wo_job_id := wo_job_id o; wo_trace_id := wo_trace_id o; wo_capability := wo_capability o;
     wo_requirements := wo_requirements o; wo_payload_hash := wo_payload_hash o;
     wo_offer_expires_at_ms := wo_offer_expires_at_ms o |}.
Definition signed_offer (worker : Uuid) (o : WorkOffer) : WorkOffer :=
  let i := wo_identity o in
  with_token (issue (st_key state) worker (ai_worker_session_id i) (ai_attempt_id i)
                (ai_fencing_generation i)) o.

Definition require_session (worker session : Uuid) : Service unit :=
  let! active := svc_map_err internal
                   (query (fun env => session_is_active env worker session)) in
  lift (ensure active (fleet_store_error FleetSessionInactive)).

(** The loop of [poll]; no answer ([None]) when the ticks end first. *)
Fixpoint poll_loop (worker session deadline : Z) (ticks : list PollTick)
  : Service (option PollResponse) :=
  match ticks with
  | [] => lift (Ok None)
  | t :: rest =>
      if pt_quiescing t then lift (Ok (Some (Poll_NoWork 1000)))
      else
        let! offer_ttl := config_duration (cf_offer_seconds config) in
        let! lease_ttl := config_duration (cf_lease_seconds config) in
        let! offered := svc_map_err fleet_store_error
          (store (fun env => poll_offer env (pt_ids t) worker session offer_ttl lease_ttl)) in
        match offered with
        | Some o => lift (Ok (Some (Poll_Offer (signed_offer worker (oa_offer o)))))
        | None =>
            let! control := svc_map_err fleet_store_error
              (query_result (fun env => idle_worker_control env worker session)) in
            match control with
            | Ctl_LegacyDrain => lift (Ok (Some Poll_Drain))
            | Ctl_ShutdownAfterIdle => lift (Ok (Some Poll_ShutdownAfterIdle))
            | Ctl_Poll =>
                require_session worker session ;!
                if (deadline <=? pt_now t) || pt_interrupted t
                then lift (Ok (Some (Poll_NoWork 1000)))
                else poll_loop worker session deadline rest
            end
        end
  end.

(** [ActivePolls::enter] with the guard's [Drop]. *)
Definition with_poll_guard {A} (identity : Uuid * Uuid) (m : Service A) : Service A := fun w =>
  if decide (identity ∈ w_polls w)
  then (Err (service_error FailedPrecondition "poll_already_active" true), w)
  else let '(r, w') := m (with_polls (fun s => {[identity]} ∪ s) w) in
       (r, with_polls (fun s => s ∖ {[identity]}) w').

(** [poll]; [started] is the monotonic clock when the loop begins. *)
Definition poll (r : PollRequest) (started : Z) (ticks : list PollTick)
  : Service (option PollResponse) :=
  let! configured := authorize_peer in
  let worker := wa_worker_id configured in
  let session := pr_worker_session_id r in
  svc_validate r ;!
  require_session worker session ;!
  with_poll_guard (worker, session)
    (poll_loop worker session (started + cf_long_poll_seconds config * 1000) ticks).

(** *** Attempts *)
Definition accept (r : AcceptOfferRequest) : Service AcceptOfferResponse :=
  let! configured := authorize_peer in
  let worker := wa_worker_id configured in
  let i := ao_identity r in
  svc_validate r ;!
  authorize_attempt worker i ;!
  let! offered := or_stale (query_result (fun env => offered_assignment env worker i)) in
  let! ttl := config_duration (cf_lease_seconds config) in
  let! accepted := svc_map_err fleet_store_error
                     (store (fun env => accept_offer env worker i ttl)) in
  lift (ensure accepted stale_attempt) ;!
  let assignment :=
    {| as_identity := i; as_trace_id := wo_trace_id (oa_offer offered);
       as_context := {| ac_job_id := wo_job_id (oa_offer offered);
                        ac_repository := oa_repository offered; ac_commit := oa_commit offered |};
       as_payload := oa_payload offered; as_payload_hash := wo_payload_hash (oa_offer offered);
       as_vcpu_cpuset := oa_vcpu_cpuset offered |} in
  svc_validate assignment ;!
  lift (Ok {| aor_assignment := assignment |}).

Definition repository_credential (r : RepositoryCredentialRequest)
  : Service RepositoryCredentialResponse :=
  let! configured := authorize_peer in
  let worker := wa_worker_id configured in
  let i := rcr_identity r in
  svc_validate r ;!
  authorize_attempt worker i ;!
  let! ttl := config_duration (cf_lease_seconds config) in
  let! beat := or_stale (store (fun env => heartbeat_attempt env worker i ttl None)) in
  lift (ensure (negb (bool_decide (ah_desired_state beat = DS_Cancel)))
          (service_error FailedPrecondition "attempt_cancelled" false)) ;!
  let! offered := or_stale (query_result (fun env => offered_assignment env worker i)) in
  match mint_repository_read_token (oa_installation_id offered) (oa_repo_id offered) with
  | Some (token, expires) => lift (Ok {| rcp_token := token; rcp_expires_at_ms := expires |})
  | None => lift (Err (service_error Unavailable "repository_token_unavailable" true))
  end.

Definition heartbeat (r : HeartbeatRequest) : Service HeartbeatResponse :=
  let! configured := authorize_peer in
  let worker := wa_worker_id configured in
  svc_validate r ;!
  authorize_attempt worker (hb_identity r) ;!
  let! ttl := config_duration (cf_lease_seconds config) in
  let! beat := or_stale (store (fun env =>
      heartbeat_attempt env worker (hb_identity r) ttl (Some (hb_reliable_buffer_len r)))) in
  lift (Ok {| hr_desired_state := ah_desired_state beat;
              hr_lease_expires_at_ms := ah_lease_expires_at beat;
              hr_highest_contiguous_reliable_seq := ah_contiguous beat |}).

Definition accept_event_ingest (i : EventIngest) : result unit ServiceError :=
  match i with
  | Ing_Inserted | Ing_Duplicate => Ok tt
  | Ing_Stale => Err stale_attempt
  | Ing_Conflict => Err (service_error FailedPrecondition "event_sequence_conflict" false)
  end.

Definition event (r : ReliableEventEnvelope) : Service ReliableEventAck :=
  let! configured := authorize_peer in
  let worker := wa_worker_id configured in
  svc_validate r ;!
  authorize_attempt worker (ev_identity r) ;!
  let! ingest := svc_map_err internal
                   (store (fun env => ingest_reliable_event env worker r)) in
  lift (accept_event_ingest ingest) ;!
  let! ttl := config_duration (cf_lease_seconds config) in
  let! beat := or_stale (store (fun env => heartbeat_attempt env worker (ev_identity r) ttl None)) in
  lift (Ok {| ra_highest_contiguous_reliable_seq := ah_contiguous beat |}).

Definition progress (r : ProgressRequest) : Service bool :=
  let! configured := authorize_peer in
  let worker := wa_worker_id configured in
  svc_validate r ;!
  authorize_attempt worker (pq_identity r) ;!
  let! offered := or_stale (query_result (fun env => offered_assignment env worker
                                                       (pq_identity r))) in
  lift (ensure (wo_trace_id (oa_offer offered) =? pq_trace_id r)
          (service_error FailedPrecondition "trace_mismatch" false)) ;!
  let! accepted := svc_map_err internal (store (fun env => ingest_progress env worker r)) in
  lift (ensure accepted stale_attempt) ;!
  lift (Ok true).

(** *** Artifacts *)
Definition artifact_staging_key (attempt : Uuid) (logical_key : rstr) (size : Z) (sha256 : rstr)
  : rstr :=
  let identity := payload_digest (jobj
    [("attempt_id", juuid attempt); ("logical_key", jstr logical_key); ("size", jint size);
     ("sha256", jstr sha256)]) in
  lit "staging/" ++ uuid_string attempt ++ lit "/" ++ identity ++ lit "/" ++ logical_key.

(** [artifact_grant]; [now] is the daemon's clock when the grant is recorded. *)
Definition artifact_grant (r : ArtifactGrantRequest) (now : Z) : Service ArtifactGrantResponse :=
  let! configured := authorize_peer in
  let worker := wa_worker_id configured in
  let i := ag_identity r in
  svc_validate r ;!
  authorize_attempt worker i ;!
  match ag_operation r with
  | Op_Get =>
      let! offered := or_stale (query_result (fun env => offered_assignment env worker i)) in
      let allowed := match oa_payload offered with
                     | Task_Benchmark p => bool_decide (bp_sqlite_seed_key p = Some (ag_key r))
                     | _ => false
                     end in
      lift (ensure allowed (service_error PermissionDenied "artifact_read_forbidden" false)) ;!
      lift (ok_or (fleet_get_grant (ag_key r) (cf_upload_grant_seconds config * 1000))
              (service_error Unavailable "artifact_store_unavailable" true))
  | Op_Put =>
      let! offered := or_stale (query_result (fun env => offered_assignment env worker i)) in
      lift (ensure (starts_with (uuid_string (wo_job_id (oa_offer offered)) ++ lit "/") (ag_key r))
              (service_error PermissionDenied "artifact_key_forbidden" false)) ;!
      let! size := lift (ok_or (ag_size r) bad_request) in
      let! digest := lift (ok_or (ag_sha256 r) bad_request) in
      lift (ensure (size <=? cf_max_artifact_bytes config)
              (service_error ResourceExhausted "artifact_too_large" false)) ;!
      let key := artifact_staging_key (ai_attempt_id i) (ag_key r) size digest in
      let! grant := lift (ok_or (fleet_put_grant key size digest
                                   (cf_upload_grant_seconds config * 1000))
                            (service_error Unavailable "artifact_store_unavailable" true)) in
      let! ttl := config_duration (cf_upload_grant_seconds config) in
      let! recorded := svc_map_err internal (store (fun env => record_artifact_grant env
        {| gt_attempt := ai_attempt_id i; gt_object_key := key; gt_logical_key := ag_key r;
           gt_size := Some size; gt_sha256 := Some digest; gt_expires_at := now + ttl |})) in
      lift (ensure recorded stale_attempt) ;!
      lift (Ok grant)
  end.

(** *** Completion *)
Definition validate_terminal_for_assignment (payload : TaskPayload) (outcome : TerminalOutcome)
  : result unit ServiceError :=
  let mismatch := service_error FailedPrecondition "block_validation_result_mismatch" false in
  match outcome with
  | Outcome_Completed _ bv =>
      match payload, bv with
      | Task_BlockValidation p, Some res =>
          map_err (fun _ => mismatch) (validate_block_validation_result p res)
      | Task_BlockValidation _, None => Err mismatch
      | _, None => Ok tt
      | _, Some _ =>
          Err (service_error FailedPrecondition "unexpected_block_validation_result" false)
      end
  | _ => Ok tt
  end.

Definition logical_artifacts (artifacts : list ArtifactDescriptor) : list ArtifactDescriptor :=
  map (fun a => {| ad_key := ad_logical_key a; ad_logical_key := ad_logical_key a;
                   ad_size := ad_size a; ad_sha256 := ad_sha256 a |}) artifacts.

Definition staging_summary (summary : Value) (artifacts : list ArtifactDescriptor) : Value :=
  match value_get "run_json_archived_path" summary ≫= as_str with
  | None => summary
  | Some logical =>
      match List.find (fun a => rstr_eqb (ad_logical_key a) logical) artifacts with
      | None => summary
      | Some a => object_insert "run_json_archived_path" (jstr (ad_key a)) summary
      end
  end.

(** job_source.rs: [extract_outcome] and [baseline_calibration_id]. *)
Definition extract_outcome (summary : Value) : JobResult * option JobMetric :=
  let read := (value_get "run_json_archived_path" summary ≫= as_str) ≫= archived in
  ({| rs_run_json := read ≫= json_from_slice;
      rs_archive_dir := default [] (value_get "archive_dir" summary ≫= as_str) |},
   read ≫= run_metric).
Definition baseline_calibration_id (summary : Value) : option Z :=
  value_get "baseline_calibration_id" summary ≫= value_as_i64.

Definition terminal_write (attempt : Uuid) (outcome : TerminalOutcome)
    (artifacts : list ArtifactDescriptor) : FleetTerminalWrite :=
  let logical := logical_artifacts artifacts in
  let jartifacts := VArray (map to_value logical) in
  match outcome with
  | Outcome_Completed summary bv =>
      let '(res, metric) :=
        match bv with
        | Some _ => ({| rs_run_json := Some summary;
                        rs_archive_dir := lit "fleet:" ++ uuid_string attempt |}, None)
        | None => extract_outcome (staging_summary summary artifacts)
        end in
      Write_Completed {| fc_result := res; fc_metric := metric;
        fc_baseline_calibration_id := baseline_calibration_id summary;
        fc_event_detail := Some (jobj [("attempt_id", juuid attempt); ("artifacts", jartifacts);
                                       ("block_validation", jopt to_value bv);
                                       ("summary", summary)]);
        fc_block_validation := bv; fc_artifact_manifest := logical |}
  | Outcome_Failed error summary _ =>
      Write_Failed
        {| ff_result := (fun s => (extract_outcome (staging_summary s artifacts)).1) <$> summary;
           ff_remark := error;
           ff_event_detail := Some (jobj [("attempt_id", juuid attempt); ("artifacts", jartifacts);
                                          ("summary", jopt id summary)]) |}
  | Outcome_Cancelled reason => Write_Cancelled reason
  end.

(** The loop that verifies the listed uploads. *)
Fixpoint verify_uploads (i : AttemptIdentity) (artifacts : list ArtifactDescriptor)
  : Service unit :=
  let failed := service_error FailedPrecondition "artifact_verification_failed" true in
  match artifacts with
  | [] => lift (Ok tt)
  | a :: rest =>
      lift (ensure (starts_with (lit "staging/" ++ uuid_string (ai_attempt_id i) ++ lit "/")
                      (ad_key a) && verify_fleet_upload a) failed) ;!
      let! ok := svc_map_err internal (store (fun env => verify_artifact env i a)) in
      lift (ensure ok failed) ;!
      verify_uploads i rest
  end.

(** [promote_artifacts]. *)
Definition promote_manifest {E} (attempt : Uuid) (manifest : list ArtifactDescriptor)
  : Svc E bool := fun w =>
  if forallb promote_fleet_upload manifest then
    let '(r, w') := store (fun env => mark_artifacts_promoted env attempt manifest) w in
    (Ok (match r with Ok promoted => promoted | Err _ => false end), w')
  else (Ok false, w).

Fixpoint checked_sum (sum : Z) (artifacts : list ArtifactDescriptor) : option Z :=
  match artifacts with
  | [] => Some sum
  | a :: rest => checked_add_u64 sum (ad_size a) ≫= fun s => checked_sum s rest
  end.

Definition complete (r : CompleteAttemptRequest) : Service CompleteAttemptResponse :=
  let! configured := authorize_peer in
  let worker := wa_worker_id configured in
  let i := ca_identity r in
  let artifacts := ca_artifacts r in
  svc_validate r ;!
  authorize_attempt worker i ;!
  let! offered := or_stale (query_result (fun _ => completion_assignment worker i)) in
  lift (ensure (wo_trace_id (oa_offer offered) =? ca_trace_id r)
          (service_error FailedPrecondition "trace_mismatch" false)) ;!
  lift (validate_terminal_for_assignment (oa_payload offered) (ca_outcome r)) ;!
  let! total := lift (ok_or (checked_sum 0 artifacts) bad_request) in
  lift (ensure (total <=? cf_max_attempt_artifact_bytes config)
          (service_error ResourceExhausted "attempt_artifacts_too_large" false)) ;!
  let! manifest := svc_map_err internal
                     (query (fun _ => accepted_terminal_manifest (ai_attempt_id i))) in
  match manifest with
  | Some m => lift (ensure (bool_decide (m = artifacts)) stale_attempt)
  | None => verify_uploads i artifacts
  end ;!
  let! acceptance := svc_map_err internal (store (fun env => accept_terminal env worker i
    {| ts_reliable_seq := ca_terminal_reliable_seq r;
       ts_payload_digest := ca_terminal_payload_digest r; ts_outcome := ca_outcome r;
       ts_artifacts := artifacts;
       ts_write := terminal_write (ai_attempt_id i) (ca_outcome r) artifacts |})) in
  match acceptance with
  | T_Accepted | T_Duplicate =>
      let! promoted := promote_manifest (ai_attempt_id i) artifacts in
      lift (ensure promoted (service_error Unavailable "artifact_promotion_failed" true)) ;!
      lift (Ok {| car_accepted := true |})
  | T_Stale => lift (Err stale_attempt)
  end.

(** *** Cleanup and deregistration *)
Definition cleanup (r : CleanupListRequest) : Service (list CleanupItem) :=
  let! configured := authorize_peer in
  svc_validate r ;!
  let! obligations := svc_map_err internal (query (fun env =>
      cleanup_obligations env (wa_worker_id configured) (cl_worker_session_id r))) in
  lift (Ok (map (fun '(id, o) => {| ci_id := id; ci_attempt_id := ob_attempt o;
                                   ci_job_id := ob_job o; ci_reason := ob_reason o |})
              obligations)).

Definition cleanup_complete (r : CleanupCompleteRequest) : Service bool :=
  let! configured := authorize_peer in
  svc_validate r ;!
  let! completed := svc_map_err fleet_store_error (store (fun env =>
      complete_cleanup env (wa_worker_id configured) (cc_worker_session_id r)
        (cc_obligation_id r))) in
  lift (ensure completed stale_attempt) ;!
  lift (Ok true).

Definition deregister (r : DeregisterSessionRequest) : Service bool :=
  let! configured := authorize_peer in
  svc_validate r ;!
  svc_map_err internal (store (fun env =>
    deregister_session env (wa_worker_id configured) (dr_worker_session_id r))).
End Handlers.

(** ** Maintenance *)
Section Maintenance.
Context `{DigestEnv} `{ArtifactStore}.

Fixpoint promote_pending (pending : list (Uuid * list ArtifactDescriptor)) : Svc StoreError unit :=
  match pending with
  | [] => lift (Ok tt)
  | (attempt, manifest) :: rest => promote_manifest attempt manifest ;! promote_pending rest
  end.

Fixpoint reap_keys (keys : list rstr) : Svc StoreError unit :=
  match keys with
  | [] => lift (Ok tt)
  | key :: rest =>
      if delete_fleet_staging key
      then store (fun _ => mark_staged_artifact_reaped key) ;! reap_keys rest
      else reap_keys rest
  end.

(** [maintenance_tick]: the pending promotions, then the expired staging
    objects. *)
Definition maintenance_tick (config : FleetConfig) (now : Z) : Svc StoreError unit :=
  let! pending := query (fun _ => pending_artifact_promotions 32) in
  promote_pending pending ;!
  let! grace := lift (map_err (fun _ => Database)
                        (chrono_duration (cf_staging_gc_grace_seconds config))) in
  let! keys := query (fun _ => staged_artifacts_due_for_reap (now - grace)) in
  reap_keys keys.
End Maintenance.
