(* ===== verification/FleetDemo.v ===== *)
(** * A concrete deployment

    One worker, one session, two submissions with a build job each, and the
    traces in which a job is offered, executed, lost and cleaned up.  The
    theorems of the fleet files are evaluated on these databases. *)
From stdpp Require Import base list strings gmap relations.
From Stdlib Require Import ZArith Lia.
From S2P Require Import Prelude RustStr Json FleetModel Negotiation Validate FleetDb.
From S2P Require Import FleetSessions FleetScheduling FleetEvents FleetAdmin FleetSpec.
From S2P Require Import FleetRefine FleetSystem.

Local Open Scope Z_scope.

(** A stand-in for the JSON scalar writer and SHA-256 of the standard crates. *)
Definition demo_digest : DigestEnv :=
  {| scalar_bytes := fun _ => [48]; sha256_hex := fun _ => repeat 97 64 |}.

Definition demo_scheduler : SchedulerPolicy :=
  {| sp_paused := false; sp_generation := 1; sp_actor := lit "admin"; sp_reason := lit "initial";
     sp_changed_at := 0 |}.
Definition demo_protocol : ProtocolPolicy :=
  {| pp_minimum_revision := 1; pp_generation := 1; pp_actor := lit "admin";
     pp_reason := lit "initial"; pp_rollback_evidence := lit "none"; pp_changed_at := 0 |}.

(** All clocks read [t], no row is locked. *)
Definition at_time (t : Z) : TxEnv :=
  {| tx_now := t; tx_clock := t; tx_utc := t; tx_locked := ∅ |}.

Definition demo_worker : Uuid := 1.
Definition demo_key : rstr := lit "k".
Definition demo_session : Uuid := 10.
Definition demo_job : Uuid := 1000.
Definition demo_attempt : Uuid := 500.
Definition demo_hash : rstr := repeat 98 64.

Definition demo_registration : RegisterSessionRequest :=
  {| rs_preflight := None; rs_protocol_version := 2;
     rs_protocol_offer := Some ProtocolOffer_current; rs_worker_session_id := demo_session;
     rs_software_version := lit "1"; rs_advertised_capabilities := {[Cap_BuildOnly]};
     rs_resources := {| rf_logical_cpus := 4; rf_memory_bytes := 1024 |} |}.

Definition demo_submission : Submission :=
  {| sb_required_worker := None; sb_required_profile := None; sb_recovery_of := None;
     sb_execution_generation := 1;
     sb_assigned_worker := None; sb_assigned_profile := None; sb_fencing_generation := 0;
     sb_slack := None |}.
Definition demo_job_row (submission created_at : Z) : JobRow :=
  {| jr_submission := submission; jr_spec := submission + 1; jr_run_index := 0; jr_capability := Cap_BuildOnly;
     jr_source := Src_Cli; jr_task_kind := Kind_BuildOnly; jr_created_at := created_at;
     jr_installation_id := 7; jr_repo_id := 8; jr_repository := lit "o/r" |}.
Definition demo_prepare (job : Uuid) : FleetOp :=
  Op_Prepare {| px_scheduler_generation := 1; px_job := job; px_commit := repeat 97 40;
                px_payload := Task_BuildOnly; px_payload_hash := repeat 97 64 |}.

(** A registered worker and two queued, prepared jobs. *)
Definition demo_setup : list FleetOp :=
  [ Op_CreateWorker {| wg_worker_id := demo_worker; wg_display_name := lit "w";
      wg_allowed := {[Cap_BuildOnly]}; wg_profile := None; wg_enabled := true;
      wg_draining := false |};
    Op_AuthorizeIdentity demo_worker demo_key;
    Op_Register (at_time 0) demo_worker demo_key demo_registration 100000;
    Op_Submit 100 demo_submission; Op_Enqueue demo_job (demo_job_row 100 1) None;
    Op_Submit 200 demo_submission; Op_Enqueue 2000 (demo_job_row 200 2) None;
    demo_prepare demo_job; demo_prepare 2000 ].

Definition demo_ids (n : Z) : PollIds :=
  {| pi_claim := 10 * n + 1; pi_attempt := 10 * n; pi_trace := 10 * n + 2 |}.
Definition demo_identity (attempt fence : Z) : AttemptIdentity :=
  {| ai_worker_session_id := demo_session; ai_attempt_id := attempt;
     ai_fencing_generation := fence; ai_lease_token := [] |}.

(** A poll at time [t] with offers of 100 ms and leases of 1000 ms. *)
Definition demo_poll (t n : Z) : FleetOp :=
  Op_Poll (at_time t) (demo_ids n) demo_worker demo_session 100 1000.
Definition demo_accept (t attempt fence : Z) : FleetOp :=
  Op_Accept (at_time t) demo_worker (demo_identity attempt fence) 1000.

Notation demo_db ops := (@fleet_after demo_digest demo_scheduler demo_protocol ops).

Definition trace_offered : list FleetOp := demo_setup ++ [demo_poll 10 50].
Definition trace_running : list FleetOp := trace_offered ++ [demo_accept 20 demo_attempt 1].
(** The lease of the execution ran out and was swept. *)
Definition trace_lost : list FleetOp := trace_running ++ [Op_ExpireStale (at_time 5000)].
(** The job was cancelled before it was offered. *)
Definition trace_cancelled : list FleetOp :=
  demo_setup ++ [Op_RequestCancel (at_time 5) demo_job].

Notation demo_queued := (demo_db demo_setup).
Notation demo_offered := (demo_db trace_offered).
Notation demo_running := (demo_db trace_running).
Notation demo_lost := (demo_db trace_lost).

Definition job_status_of (job : Uuid) (db : FleetDb) : option JobStatus :=
  jb_status <$> db_jobs db !! job.
Definition attempt_status_of (id : Uuid) (db : FleetDb) : option AttemptStatus :=
  at_status <$> db_attempts db !! id.

Lemma job_status_of_Some job db st :
  job_status_of job db = Some st -> exists j, db_jobs db !! job = Some j /\ jb_status j = st.
Proof. intros Hs. apply fmap_Some in Hs as (j & ? & ->). by exists j. Qed.
Lemma attempt_status_of_Some id db st :
  attempt_status_of id db = Some st -> exists a, db_attempts db !! id = Some a /\ at_status a = st.
Proof. intros Hs. apply fmap_Some in Hs as (a & ? & ->). by exists a. Qed.

(** What the traces lead to. *)
Ltac demo_job := apply job_status_of_Some; vm_compute; reflexivity.
Ltac demo_attempt := apply attempt_status_of_Some; vm_compute; reflexivity.
Lemma offered_attempt :
  exists a, db_attempts demo_offered !! demo_attempt = Some a /\ at_status a = A_Offered.
Proof. demo_attempt. Qed.
Lemma running_job :
  exists j, db_jobs demo_running !! demo_job = Some j /\ jb_status j = J_Running.
Proof. demo_job. Qed.
Lemma running_attempt :
  exists a, db_attempts demo_running !! demo_attempt = Some a /\ at_status a = A_Running.
Proof. demo_attempt. Qed.
Lemma running_deadline :
  exists a, db_attempts demo_running !! demo_attempt = Some a /\ attempt_deadline a <= 5000.
Proof.
  assert (E : match db_attempts demo_running !! demo_attempt with
              | Some a => attempt_deadline a <=? 5000 | None => false end = true)
    by (vm_compute; reflexivity).
  destruct (db_attempts demo_running !! demo_attempt) as [a|]; [|discriminate E].
  exists a. split; [reflexivity|]. by apply Z.leb_le.
Qed.
Lemma lost_attempt :
  exists a, db_attempts demo_lost !! demo_attempt = Some a /\ at_status a = A_Expired.
Proof. demo_attempt. Qed.
Lemma lost_job : exists j, db_jobs demo_lost !! demo_job = Some j /\ jb_status j = J_Running.
Proof. demo_job. Qed.
Lemma lost_cleanup : has_pending_cleanup demo_worker demo_lost = true.
Proof. vm_compute. reflexivity. Qed.
Lemma cancelled_job :
  exists j, db_jobs (demo_db trace_cancelled) !! demo_job = Some j /\ jb_status j = J_Cancelled.
Proof. demo_job. Qed.

(** Only [vm_compute] evaluates a trace. *)
#[global] Opaque fleet_after.
