(* ===== verification/ServiceSafety.v ===== *)
(** * What a request can do

    The handlers of FleetService.v, dispatched as grpc.rs does, against the store:
    whatever other transactions interleave and whichever calls fail, a request
    leaves a database that a sequence of store transactions leads to, and its own
    transactions are those of its worker and its attempt. *)
From stdpp Require Import base list strings gmap.
From Stdlib Require Import ZArith Lia.
From S2P Require Import Prelude RustStr Json FleetModel Negotiation Validate FleetDb.
From S2P Require Import FleetSessions FleetScheduling FleetEvents FleetAdmin FleetRecovery.
From S2P Require Import FleetSpec FleetRefine FleetSystem FleetService FleetDemo.

Local Open Scope Z_scope.
Open Scope svc_scope.

(** ** Dispatch (fleet/grpc.rs) *)
Inductive Request :=
| Rq_CheckRegistration (r : RegistrationCheckRequest) (now : Z)
| Rq_Register (r : RegisterSessionRequest) (now : Z)
| Rq_Poll (r : PollRequest) (started : Z) (ticks : list PollTick)
| Rq_Accept (r : AcceptOfferRequest)
| Rq_Credential (r : RepositoryCredentialRequest)
| Rq_Heartbeat (r : HeartbeatRequest)
| Rq_Event (r : ReliableEventEnvelope)
| Rq_Progress (r : ProgressRequest)
| Rq_Grant (r : ArtifactGrantRequest) (now : Z)
| Rq_Complete (r : CompleteAttemptRequest)
| Rq_Cleanup (r : CleanupListRequest)
| Rq_CleanupComplete (r : CleanupCompleteRequest)
| Rq_Deregister (r : DeregisterSessionRequest).

Inductive Response :=
| Rs_CheckRegistration (r : RegistrationCheckResponse)
| Rs_Register (r : RegisterSessionResponse)
| Rs_Poll (r : option PollResponse)
| Rs_Accept (r : AcceptOfferResponse)
| Rs_Credential (r : RepositoryCredentialResponse)
| Rs_Heartbeat (r : HeartbeatResponse)
| Rs_Event (r : ReliableEventAck)
| Rs_Progress (accepted : bool)
| Rs_Grant (r : ArtifactGrantResponse)
| Rs_Complete (r : CompleteAttemptResponse)
| Rs_Cleanup (items : list CleanupItem)
| Rs_CleanupComplete (completed : bool)
| Rs_Deregister (deregistered : bool).

Definition svc_fmap {E A B} (f : A -> B) (m : Svc E A) : Svc E B := fun w =>
  match m w with (Ok a, w') => (Ok (f a), w') | (Err e, w') => (Err e, w') end.

Section Dispatch.
Context `{DigestEnv} `{ServiceEnv} `{ArtifactStore}.
Context (state : ServiceState) (peer : rstr).

Definition handle (q : Request) : Svc ServiceError Response :=
  match q with
  | Rq_CheckRegistration r now =>
      svc_fmap Rs_CheckRegistration (check_registration state peer r now)
  | Rq_Register r now => svc_fmap Rs_Register (register state peer r now)
  | Rq_Poll r started ticks => svc_fmap Rs_Poll (poll state peer r started ticks)
  | Rq_Accept r => svc_fmap Rs_Accept (accept state peer r)
  | Rq_Credential r => svc_fmap Rs_Credential (repository_credential state peer r)
  | Rq_Heartbeat r => svc_fmap Rs_Heartbeat (heartbeat state peer r)
  | Rq_Event r => svc_fmap Rs_Event (event state peer r)
  | Rq_Progress r => svc_fmap Rs_Progress (progress state peer r)
  | Rq_Grant r now => svc_fmap Rs_Grant (artifact_grant state peer r now)
  | Rq_Complete r => svc_fmap Rs_Complete (complete state peer r)
  | Rq_Cleanup r => svc_fmap Rs_Cleanup (cleanup peer r)
  | Rq_CleanupComplete r => svc_fmap Rs_CleanupComplete (cleanup_complete peer r)
  | Rq_Deregister r => svc_fmap Rs_Deregister (deregister peer r)
  end.
End Dispatch.

(** ** Inversion of a handler that succeeded *)
Section Inversion.
Context `{DigestEnv}.

Lemma bind_Ok {E A B} (m : Svc E A) (k : A -> Svc E B) w b w' :
  svc_bind m k w = (Ok b, w') -> exists a w1, m w = (Ok a, w1) /\ k a w1 = (Ok b, w').
Proof. unfold svc_bind. destruct (m w) as [[a|e] w1]; [|done]. eauto. Qed.
Lemma map_err_Ok {E F A} (f : E -> F) (m : Svc E A) w a w' :
  svc_map_err f m w = (Ok a, w') -> m w = (Ok a, w').
Proof. unfold svc_map_err. destruct (m w) as [[?|?] w1]; simpl; intros; by simplify_eq. Qed.
Lemma lift_Ok {E A} (r : result A E) w a w' : lift r w = (Ok a, w') -> r = Ok a /\ w' = w.
Proof. unfold lift. intros; by simplify_eq. Qed.
Lemma store_Ok {A} (tx : TxEnv -> Tx A) w a w' :
  store tx w = (Ok a, w') ->
  exists others env, tx env (run others (w_db w)) = Ok (a, w_db w').
Proof.
  unfold store. destruct (w_calls w) as [|[others env|others|others env] rest]; try done.
  destruct (tx env _) as [[x db]|] eqn:E; [|done]. intros; simplify_eq. eauto.
Qed.
Lemma or_stale_Ok {A} (m : Svc StoreError (option A)) w a w' :
  or_stale m w = (Ok a, w') -> m w = (Ok (Some a), w').
Proof.
  unfold or_stale. intros Ho. apply bind_Ok in Ho as (o & w1 & Hm & Hl).
  apply map_err_Ok in Hm. apply lift_Ok in Hl as [Heq ->]. by destruct o; simplify_eq/=.
Qed.

Lemma lift_ensure_Ok {E} (b : bool) (e : E) w u w' :
  lift (ensure b e) w = (Ok u, w') -> b = true /\ w' = w.
Proof. intros Hl. apply lift_Ok in Hl as [Hb ->]. by destruct b. Qed.
End Inversion.

(** Peel the first call off a handler that succeeded. *)
Ltac svc_inv H :=
  match type of H with
  | svc_bind (lift (ensure _ _)) _ _ = _ =>
      let u := fresh "u" in let w := fresh "w" in let Hb := fresh "Hb" in
      apply bind_Ok in H as (u & w & Hb & H); apply lift_ensure_Ok in Hb as [Hb ->]
  | svc_bind (svc_map_err _ _) _ _ = _ =>
      let a := fresh "a" in let w := fresh "w" in let Hc := fresh "Hc" in
      apply bind_Ok in H as (a & w & Hc & H); apply map_err_Ok in Hc
  | svc_bind (or_stale _) _ _ = _ =>
      let a := fresh "a" in let w := fresh "w" in let Hc := fresh "Hc" in
      apply bind_Ok in H as (a & w & Hc & H); apply or_stale_Ok in Hc
  | svc_bind _ _ _ = _ =>
      let a := fresh "a" in let w := fresh "w" in let Hc := fresh "Hc" in
      apply bind_Ok in H as (a & w & Hc & H)
  end.

(** ** Requests as traces *)
Section Confinement.
Context `{DigestEnv}.

(** From [w], the transactions of the computation itself satisfy [P]; the others
    are those of the calls it used. *)
Definition obeys_at {E A} (P : FleetOp -> Prop) (m : Svc E A) (w : World) : Prop :=
  exists used ops, w_calls w = used ++ w_calls (m w).2
    /\ w_db (m w).2 = run ops (w_db w)
    /\ Forall (fun o => P o \/ exists c, c ∈ used /\ o ∈ call_others c) ops.
Definition obeys {E A} (P : FleetOp -> Prop) (m : Svc E A) : Prop := forall w, obeys_at P m w.

Lemma obeys_lift {E A} P (r : result A E) : obeys P (lift r).
Proof. intros w. by exists [], []. Qed.

Lemma obeys_weaken {E A} (P Q : FleetOp -> Prop) (m : Svc E A) :
  (forall o, P o -> Q o) -> obeys P m -> obeys Q m.
Proof.
  intros Hpq Hm w. destruct (Hm w) as (used & ops & Hc & Hd & Hf). exists used, ops.
  split_and!; try done. eapply Forall_impl; [exact Hf|]. intros o [?|?]; auto.
Qed.

(** The continuation matters only for the answers the first part can give. *)
Lemma obeys_bind_dep {E A B} P (m : Svc E A) (k : A -> Svc E B) w :
  obeys P m ->
  (forall a w', m w = (Ok a, w') -> obeys P (k a)) ->
  obeys_at P (svc_bind m k) w.
Proof.
  intros Hm Hk. destruct (Hm w) as (used & ops & Hc & Hd & Hf). unfold obeys_at, svc_bind.
  destruct (m w) as [[a|e] w'] eqn:Em; simpl in *; [|by exists used, ops].
  destruct (Hk a w' eq_refl w') as (used' & ops' & Hc' & Hd' & Hf').
  exists (used ++ used'), (ops ++ ops'). split_and!.
  - by rewrite <- app_assoc, <- Hc'.
  - by rewrite run_app, <- Hd.
  - apply Forall_app. split; eapply Forall_impl; try eassumption; simpl;
      intros o [?|(c & Hin & Ho)]; auto; right; exists c; split; auto; apply elem_of_app; auto.
Qed.

Lemma obeys_bind {E A B} P (m : Svc E A) (k : A -> Svc E B) :
  obeys P m -> (forall a, obeys P (k a)) -> obeys P (svc_bind m k).
Proof. intros Hm Hk w. apply obeys_bind_dep; auto. Qed.

Lemma obeys_map_err {E F A} P (f : E -> F) (m : Svc E A) : obeys P m -> obeys P (svc_map_err f m).
Proof. intros Hm w. specialize (Hm w). revert Hm. unfold obeys_at, svc_map_err. by destruct (m w) as [r w']. Qed.

Lemma obeys_at_fmap {E A B} P (f : A -> B) (m : Svc E A) w :
  obeys_at P m w -> obeys_at P (svc_fmap f m) w.
Proof. unfold obeys_at, svc_fmap. by destruct (m w) as [[?|?] w']. Qed.

(** A store call is the transaction it runs. *)
Lemma obeys_store {A} (P : FleetOp -> Prop) (tx : TxEnv -> Tx A) (op : TxEnv -> FleetOp) :
  (forall env db, committed (tx env db) = run_op (op env) db) ->
  (forall env, P (op env)) -> obeys P (store tx).
Proof.
  intros Hop HP w. unfold obeys_at, store. destruct (w_calls w) as [|c rest] eqn:Ec.
  { exists [], []. simpl. by rewrite Ec. }
  assert (Hin : forall ops, Forall (fun o => P o \/ exists c', c' ∈ [c] /\ o ∈ call_others c')
            (ops ++ call_others c) <-> Forall (fun o => P o \/ exists c', c' ∈ [c] /\ o ∈ call_others c') ops).
  { intros ops. rewrite Forall_app. split; [by intros []|]. intros Hops. split; [done|].
    apply Forall_forall. intros o Ho. right. exists c. split; [by left|done]. }
  assert (Hone : forall env, Forall (fun o => P o \/ exists c', c' ∈ [c] /\ o ∈ call_others c')
            (call_others c ++ [op env])).
  { intros env. apply Forall_app. split; [by apply (Hin []); constructor|].
    constructor; [by left; apply HP|done]. }
  destruct c as [others env|others|others env]; simpl in Hin, Hone |- *.
  - specialize (Hop env (run others (w_db w))). unfold committed in Hop.
    destruct (tx env _) as [[a db']|e]; simpl.
    + exists [Call_Runs others env], (others ++ [op env]). split_and!; [done| |apply Hone].
      rewrite run_app. unfold run at 1. simpl. by rewrite <- Hop.
    + exists [Call_Runs others env], others. split_and!; [done|done|].
      apply (Hin []). constructor.
  - exists [Call_Fails others], others. split_and!; [done|done|]. apply (Hin []). constructor.
  - specialize (Hop env (run others (w_db w))). unfold committed in Hop.
    exists [Call_Lost others env], (others ++ [op env]). split_and!; [done| |apply Hone].
    rewrite run_app. unfold run at 1. simpl. rewrite <- Hop.
    by destruct (tx env _) as [[a db']|e].
Qed.

(** A query runs nothing of its own. *)
Lemma obeys_query_result {A} P (f : TxEnv -> FleetDb -> result A StoreError) :
  obeys P (query_result f).
Proof.
  intros w. unfold obeys_at, query_result, store. destruct (w_calls w) as [|c rest] eqn:Ec.
  { exists [], []. simpl. by rewrite Ec. }
  exists [c], (call_others c).
  assert (Hf : Forall (fun o => P o \/ exists c', c' ∈ [c] /\ o ∈ call_others c') (call_others c)).
  { apply Forall_forall. intros o Ho. right. exists c. split; [by left|done]. }
  destruct c as [others env|others|others env]; simpl in *; [|done|];
    by destruct (f env _).
Qed.
Lemma obeys_query {A} P (f : TxEnv -> FleetDb -> A) : obeys P (query f).
Proof. apply (obeys_query_result P (fun env db => Ok (f env db))). Qed.

(** A computation moves the store along a trace. *)
Lemma obeys_moves {E A} P (m : Svc E A) w x w' :
  obeys P m -> m w = (x, w') -> exists ops, w_db w' = run ops (w_db w).
Proof. intros Hm Hr. destruct (Hm w) as (_ & ops & _ & Hd & _). rewrite Hr in Hd. eauto. Qed.

Lemma obeys_ensure {E A} P (b : bool) (e : E) (k : Svc E A) :
  (b = true -> obeys P k) -> obeys P (lift (ensure b e) ;! k).
Proof.
  intros Hk. destruct b; [|intros w; by exists [], []].
  intros w. specialize (Hk eq_refl w). exact Hk.
Qed.

(** After a pure step the rest runs on its value. *)
Lemma obeys_bind_lift {E A B} P (r : result A E) (k : A -> Svc E B) :
  (forall a, r = Ok a -> obeys P (k a)) -> obeys P (svc_bind (lift r) k).
Proof.
  intros Hk w. apply obeys_bind_dep; [apply obeys_lift|].
  intros a w' Hr. apply Hk. by injection Hr as ->.
Qed.

Lemma obeys_bind_duration {B} P seconds (k : Z -> Svc ServiceError B) :
  obeys P (k (seconds * 1000)) -> obeys P (svc_bind (config_duration seconds) k).
Proof.
  intros Hk. apply obeys_bind_lift. intros a. unfold chrono_duration.
  case_match; [done|]. by intros [= <-].
Qed.

Lemma obeys_bind_ok_or {E A B} P (o : option A) (e : E) (k : A -> Svc E B) :
  (forall a, o = Some a -> obeys P (k a)) -> obeys P (svc_bind (lift (ok_or o e)) k).
Proof. intros Hk. apply obeys_bind_lift. intros a Ha. apply Hk. by destruct o; [injection Ha as ->|]. Qed.
End Confinement.

(** Split a handler into its calls; the goals left are its own transactions. *)
Ltac svc_obeys :=
  lazymatch goal with
  | |- obeys _ (svc_bind (lift (ensure _ _)) _) => apply obeys_ensure; intros ?; svc_obeys
  | |- obeys _ (svc_bind (config_duration _) _) => apply obeys_bind_duration; svc_obeys
  | |- obeys _ (svc_bind (lift (ok_or _ _)) _) => apply obeys_bind_ok_or; intros ? ?; svc_obeys
  | |- obeys _ (svc_bind (lift _) _) => apply obeys_bind_lift; intros ? ?; svc_obeys
  | |- obeys _ (svc_bind _ _) => apply obeys_bind; [svc_obeys | intros ?; svc_obeys]
  | |- obeys _ (lift _) => apply obeys_lift
  | |- obeys _ (svc_map_err _ _) => apply obeys_map_err; svc_obeys
  | |- obeys _ (query _) => apply obeys_query
  | |- obeys _ (query_result _) => apply obeys_query_result
  | |- obeys _ (or_stale _) => unfold or_stale; svc_obeys
  | |- obeys _ (config_duration _) => apply obeys_lift
  | |- obeys _ (svc_validate _) => apply obeys_lift
  | |- obeys _ (require_session _ _) => unfold require_session; svc_obeys
  | |- obeys _ (match ?x with _ => _ end) => destruct x eqn:?; svc_obeys
  | |- _ => idtac
  end.

(** The transaction of a store call. *)
Ltac store_op :=
  lazymatch goal with
  | |- obeys _ (store (fun env => accept_offer env ?w ?i ?l)) =>
      apply (obeys_store _ _ (fun env => Op_Accept env w i l))
  | |- obeys _ (store (fun env => heartbeat_attempt env ?w ?i ?l ?b)) =>
      apply (obeys_store _ _ (fun env => Op_Heartbeat env w i l b))
  | |- obeys _ (store (fun env => ingest_reliable_event env ?w ?e)) =>
      apply (obeys_store _ _ (fun env => Op_Ingest env w e))
  | |- obeys _ (store (fun env => ingest_progress env ?w ?p)) =>
      apply (obeys_store _ _ (fun env => Op_Progress env w p))
  | |- obeys _ (store (fun env => record_artifact_grant env ?g)) =>
      apply (obeys_store _ _ (fun env => Op_Grant env g))
  | |- obeys _ (store (fun env => accept_terminal env ?w ?i ?s)) =>
      apply (obeys_store _ _ (fun env => Op_Terminal env w i s))
  | |- obeys _ (store (fun env => register_session env ?w ?k ?r ?t)) =>
      apply (obeys_store _ _ (fun env => Op_Register env w k r t))
  | |- obeys _ (store (fun env => complete_cleanup env ?w ?s ?o)) =>
      apply (obeys_store _ _ (fun env => Op_CompleteCleanup env w s o))
  | |- obeys _ (store (fun env => deregister_session env ?w ?s)) =>
      apply (obeys_store _ _ (fun env => Op_Deregister env w s))
  end; [done|].

Section Requests.
Context `{DigestEnv} `{ServiceEnv} `{ArtifactStore}.
Context (state : ServiceState) (peer : rstr).

(** The worker that the peer's key stands for when the request arrives. *)
Definition peer_worker (w : World) : option Uuid :=
  match w_calls w with
  | Call_Runs others _ :: _ => wa_worker_id <$> authorize_worker peer (run others (w_db w))
  | _ => None
  end.

Definition request_identity (q : Request) : option AttemptIdentity :=
  match q with
  | Rq_Accept r => Some (ao_identity r)
  | Rq_Credential r => Some (rcr_identity r)
  | Rq_Heartbeat r => Some (hb_identity r)
  | Rq_Event r => Some (ev_identity r)
  | Rq_Progress r => Some (pq_identity r)
  | Rq_Grant r _ => Some (ag_identity r)
  | Rq_Complete r => Some (ca_identity r)
  | _ => None
  end.

(** What a completion writes of its outcome: the result, the error or the reason
    it reports, and its artifacts under their logical keys. *)
Definition lists_artifact (d a : ArtifactDescriptor) : Prop :=
  ad_key d = ad_logical_key a /\ ad_logical_key d = ad_logical_key a
  /\ ad_size d = ad_size a /\ ad_sha256 d = ad_sha256 a.
Definition reports (attempt : Uuid) (outcome : TerminalOutcome)
    (artifacts : list ArtifactDescriptor) (t : FleetTerminalWrite) : Prop :=
  match outcome, t with
  | Outcome_Completed summary bv, Write_Completed c =>
      Forall2 lists_artifact (fc_artifact_manifest c) artifacts
      /\ fc_block_validation c = bv
      /\ fc_baseline_calibration_id c = baseline_calibration_id summary
      /\ (fc_result c, fc_metric c) =
           (if bv then ({| rs_run_json := Some summary;
                           rs_archive_dir := lit "fleet:" ++ uuid_string attempt |}, None)
            else extract_outcome (staging_summary summary artifacts))
  | Outcome_Failed error summary _, Write_Failed f =>
      ff_remark f = error
      /\ ff_result f = (fun s => (extract_outcome (staging_summary s artifacts)).1) <$> summary
  | Outcome_Cancelled reason, Write_Cancelled reason' => reason' = reason
  | _, _ => False
  end.

(** The transactions a request of [worker] may run, with every argument but the
    clock and the identifiers of the transaction ([TxEnv], [PollIds]). *)
Definition permitted (worker : Uuid) (q : Request) (o : FleetOp) : Prop :=
  let config := st_config state in
  let lease := cf_lease_seconds config * 1000 in
  match q, o with
  | Rq_Register r _, Op_Register _ w k r' ttl =>
      w = worker /\ k = peer /\ r' = r /\ ttl = cf_session_seconds config * 1000
  | Rq_Poll r _ ticks, Op_Poll _ ids w s offer_ttl lease_ttl =>
      w = worker /\ s = pr_worker_session_id r /\ ids ∈ map pt_ids ticks
      /\ offer_ttl = cf_offer_seconds config * 1000 /\ lease_ttl = lease
  | Rq_Accept r, Op_Accept _ w i ttl => w = worker /\ i = ao_identity r /\ ttl = lease
  | Rq_Credential r, Op_Heartbeat _ w i ttl None =>
      w = worker /\ i = rcr_identity r /\ ttl = lease
  | Rq_Heartbeat r, Op_Heartbeat _ w i ttl (Some n) =>
      w = worker /\ i = hb_identity r /\ ttl = lease /\ n = hb_reliable_buffer_len r
  | Rq_Event r, Op_Ingest _ w e => w = worker /\ e = r
  | Rq_Event r, Op_Heartbeat _ w i ttl None => w = worker /\ i = ev_identity r /\ ttl = lease
  | Rq_Progress r, Op_Progress _ w p => w = worker /\ p = r
  | Rq_Grant r now, Op_Grant _ g =>
      exists size digest, ag_operation r = Op_Put
      /\ ag_size r = Some size /\ ag_sha256 r = Some digest
      /\ size <= cf_max_artifact_bytes config
      /\ g = {| gt_attempt := ai_attempt_id (ag_identity r);
                gt_object_key := artifact_staging_key (ai_attempt_id (ag_identity r)) (ag_key r)
                                   size digest;
                gt_logical_key := ag_key r; gt_size := Some size; gt_sha256 := Some digest;
                gt_expires_at := now + cf_upload_grant_seconds config * 1000 |}
  | Rq_Complete r, Op_Verify _ i d =>
      i = ca_identity r /\ d ∈ ca_artifacts r /\ verify_fleet_upload d = true
  | Rq_Complete r, Op_Terminal _ w i s =>
      w = worker /\ i = ca_identity r
      /\ ts_reliable_seq s = ca_terminal_reliable_seq r
      /\ ts_payload_digest s = ca_terminal_payload_digest r
      /\ ts_outcome s = ca_outcome r /\ ts_artifacts s = ca_artifacts r
      /\ reports (ai_attempt_id i) (ca_outcome r) (ca_artifacts r) (ts_write s)
      /\ ts_write s = terminal_write (ai_attempt_id i) (ca_outcome r) (ca_artifacts r)
  | Rq_Complete r, Op_Promote _ a l =>
      a = ai_attempt_id (ca_identity r) /\ l = ca_artifacts r
      /\ forallb promote_fleet_upload l = true
  | Rq_CleanupComplete r, Op_CompleteCleanup _ w s id =>
      w = worker /\ s = cc_worker_session_id r /\ id = cc_obligation_id r
  | Rq_Deregister r, Op_Deregister _ w s => w = worker /\ s = dr_worker_session_id r
  | _, _ => False
  end.

Definition own_op (w : World) (q : Request) (o : FleetOp) : Prop :=
  exists worker, peer_worker w = Some worker
  /\ match request_identity q with
     | Some i => verify (st_key state) worker i = true
     | None => True
     end
  /\ permitted worker q o.

Lemma authorize_peer_worker w wa w' :
  authorize_peer peer w = (Ok wa, w') -> peer_worker w = Some (wa_worker_id wa).
Proof.
  unfold authorize_peer, svc_bind, svc_map_err, query, store, peer_worker.
  destruct (w_calls w) as [|[others env|others|others env] rest]; try done.
  simpl. destruct (authorize_worker peer _); simpl; [|done]. by intros [= -> _].
Qed.

Lemma obeys_authorize P : obeys P (authorize_peer peer).
Proof. unfold authorize_peer. svc_obeys. Qed.

(** A handler that starts by authorizing the peer. *)
Lemma obeys_authorized {A} P (k : WorkerAuthorization -> Svc ServiceError A) w :
  (forall wa, peer_worker w = Some (wa_worker_id wa) -> obeys P (k wa)) ->
  obeys_at P (svc_bind (authorize_peer peer) k) w.
Proof.
  intros Hk. apply obeys_bind_dep; [apply obeys_authorize|].
  intros wa w' Hw. by apply Hk, (authorize_peer_worker w wa w').
Qed.

Lemma obeys_verify_uploads P i artifacts :
  (forall env d, d ∈ artifacts -> verify_fleet_upload d = true -> P (Op_Verify env i d)) ->
  obeys P (verify_uploads i artifacts).
Proof.
  induction artifacts as [|a artifacts IH]; intros HP; simpl; [apply obeys_lift|].
  apply obeys_ensure. intros [_ Hv]%andb_true_iff. svc_obeys.
  - apply (obeys_store _ _ (fun env => Op_Verify env i a)); [done|]. intros env. apply HP; [by left|done].
  - apply IH. intros env d Hd. apply HP. by right.
Qed.

Lemma obeys_promote {E} P attempt manifest :
  (forall env, forallb promote_fleet_upload manifest = true -> P (Op_Promote env attempt manifest)) ->
  obeys P (promote_manifest (E := E) attempt manifest).
Proof.
  intros HP w. unfold obeys_at, promote_manifest.
  destruct (forallb _ _); [|by exists [], []].
  pose proof (obeys_store P (fun env => mark_artifacts_promoted env attempt manifest)
                (fun env => Op_Promote env attempt manifest) (fun _ _ => eq_refl) (fun env => HP env eq_refl) w) as Hs.
  unfold obeys_at in Hs. by destruct (store _ w) as [r w'].
Qed.

Lemma obeys_poll_loop P worker session deadline ticks :
  (forall env ids, ids ∈ map pt_ids ticks ->
     P (Op_Poll env ids worker session (cf_offer_seconds (st_config state) * 1000)
          (cf_lease_seconds (st_config state) * 1000))) ->
  obeys P (poll_loop state worker session deadline ticks).
Proof.
  induction ticks as [|t ticks IH]; intros HP; simpl; [apply obeys_lift|]. svc_obeys.
  - match goal with |- obeys _ (store (fun env => poll_offer env ?ids _ _ ?o ?l)) =>
      apply (obeys_store _ _ (fun env => Op_Poll env ids worker session o l)); [done|] end.
    intros env. apply HP. by left.
  - apply IH. intros env ids Hi. apply HP. by right.
Qed.

Lemma terminal_write_reports attempt outcome artifacts :
  reports attempt outcome artifacts (terminal_write attempt outcome artifacts).
Proof.
  destruct outcome as [summary bv|error summary b|reason]; simpl; [|done|done].
  assert (Hl : Forall2 lists_artifact (logical_artifacts artifacts) artifacts)
    by (induction artifacts; by constructor).
  by destruct bv.
Qed.

Lemma obeys_poll_guard {A} P identity (m : Svc ServiceError A) :
  obeys P m -> obeys P (with_poll_guard identity m).
Proof.
  intros Hm w. unfold obeys_at, with_poll_guard. case_decide; [by exists [], []|].
  specialize (Hm (with_polls (fun s => {[identity]} ∪ s) w)). unfold obeys_at in Hm.
  by destruct (m _) as [r w'].
Qed.

(** After the token check, the transactions of an attempt's handler. *)
Lemma obeys_attempt {A} w q worker i (k : Svc ServiceError A) :
  peer_worker w = Some worker -> request_identity q = Some i ->
  (forall P, (forall o, permitted worker q o -> P o) -> obeys P k) ->
  obeys (own_op w q) (authorize_attempt state worker i ;! k).
Proof.
  intros Hw Hi Hk. unfold authorize_attempt. apply obeys_ensure. intros Hv. apply Hk.
  intros o Ho. exists worker. rewrite Hi. by split_and!.
Qed.

Ltac attempt_handler HP :=
  apply obeys_authorized; intros wa Hw; apply obeys_bind; [apply obeys_lift|]; intros _;
  apply obeys_attempt; [done..|]; intros P HP; svc_obeys;
  try (store_op; intros env; by apply HP).

Lemma complete_confined r w : obeys_at (own_op w (Rq_Complete r)) (complete state peer r) w.
Proof.
  unfold complete. attempt_handler HP.
  - apply obeys_verify_uploads. intros env d Hd Hv. by apply HP.
  - store_op. intros env. apply HP. split_and!; try done. apply terminal_write_reports.
  - apply obeys_promote. intros env Hp. by apply HP.
  - apply obeys_promote. intros env Hp. by apply HP.
Qed.

Lemma poll_confined r started ticks w :
  obeys_at (own_op w (Rq_Poll r started ticks)) (poll state peer r started ticks) w.
Proof.
  unfold poll. apply obeys_authorized. intros wa Hw. svc_obeys.
  apply obeys_poll_guard, obeys_poll_loop. intros env ids Hi. by exists (wa_worker_id wa).
Qed.

(** C6: Requests are confined.  Whatever transactions of other requests commit
    between the calls of a handler, and whichever of its calls fail or lose their
    answer, the database a request leaves is reached by store transactions, and
    those that are not of other requests belong to it: they run as the worker that
    the peer's key is authorized for, on the attempt whose lease token was
    verified for that worker, and each of their arguments but the clock and the
    fresh identifiers is the request's or the configuration's: the sequence,
    digest, outcome and artifacts a completion stores, the size, digest, staging
    key and expiry of a grant, the durations of sessions, offers and leases. *)
Theorem requests_confined q w :
  let w' := (handle state peer q w).2 in
  exists used ops, w_calls w = used ++ w_calls w' /\ w_db w' = run ops (w_db w)
  /\ Forall (fun o => own_op w q o \/ exists c, c ∈ used /\ o ∈ call_others c) ops.
Proof.
  change (obeys_at (own_op w q) (handle state peer q) w).
  destruct q; simpl; apply obeys_at_fmap.
  - revert w. cut (forall P, obeys P (check_registration state peer r now)); [by intros Hc w; apply Hc|].
    intros P. unfold check_registration. svc_obeys. apply obeys_authorize.
  - unfold register. apply obeys_authorized. intros wa Hw. svc_obeys. store_op. intros env.
    by exists (wa_worker_id wa).
  - apply poll_confined.
  - unfold accept. attempt_handler HP.
  - unfold repository_credential. attempt_handler HP.
  - unfold heartbeat. attempt_handler HP.
  - unfold event. attempt_handler HP.
  - unfold progress. attempt_handler HP.
  - unfold artifact_grant. attempt_handler HP. store_op. intros env. apply HP.
    eexists _, _. split_and!; try done. by apply Z.leb_le.
  - apply complete_confined.
  - unfold cleanup. apply obeys_authorized. intros wa Hw. svc_obeys.
  - unfold cleanup_complete. apply obeys_authorized. intros wa Hw. svc_obeys. store_op.
    intros env. by exists (wa_worker_id wa).
  - unfold deregister. apply obeys_authorized. intros wa Hw. svc_obeys. store_op.
    intros env. by exists (wa_worker_id wa).
Qed.
End Requests.
