(* ===== verification/FleetSafety.v ===== *)
(** * Safety of the fleet store

    Theorems on every database a deployment reaches: the store refines the
    lifecycle machine, every job is accounted for, an attempt that lost its
    authority has no power left, and finished jobs stay finished. *)
From stdpp Require Import base list strings gmap relations.
From Stdlib Require Import ZArith Lia.
From S2P Require Import Prelude RustStr Json FleetModel Negotiation Validate FleetDb.
From S2P Require Import FleetSessions FleetScheduling FleetEvents FleetAdmin FleetSpec.
From S2P Require Import FleetRefine FleetSystem FleetDemo.

Local Open Scope Z_scope.

(** ** Stability of the lifecycle machine *)
Section Stability.
Lemma step_job_final s s' job j :
  lifecycle_step s s' -> lf_jobs s !! job = Some j -> job_terminal (lj_status j) = true ->
  lf_jobs s' !! job = Some j.
Proof.
  intros Hstep Hj Ht. destruct Hstep; simpl; try done;
    (rewrite lookup_insert_ne; [done|]; intros ?; subst; simplify_eq;
     match goal with E : lj_status _ = _ |- _ => by rewrite E in Ht end).
Qed.

Lemma step_attempt_final s s' id a :
  lifecycle_step s s' -> lf_attempts s !! id = Some a -> ~ la_active a ->
  lf_attempts s' !! id = Some a.
Proof.
  intros Hstep Ha Hn. destruct Hstep; simpl; try done;
    (rewrite lookup_insert_ne; [done|]; intros ?; subst; simplify_eq;
     apply Hn; first [by apply offered_active | by apply executing_active]).
Qed.

Lemma steps_job_final s s' job j :
  rtc lifecycle_step s s' -> lf_jobs s !! job = Some j -> job_terminal (lj_status j) = true ->
  lf_jobs s' !! job = Some j.
Proof. induction 1; eauto using step_job_final. Qed.
Lemma steps_attempt_final s s' id a :
  rtc lifecycle_step s s' -> lf_attempts s !! id = Some a -> ~ la_active a ->
  lf_attempts s' !! id = Some a.
Proof. induction 1; eauto using step_attempt_final. Qed.
End Stability.

(** ** Accounting of jobs *)
Section Accounting.
(** The active attempts and the pending obligations of a job. *)
Definition active_attempts (job : Uuid) (db : FleetDb) : list (Uuid * Attempt) :=
  rows (fun _ a => (ar_job (at_row a) =? job) && attempt_active (at_status a)) (db_attempts db).
Definition pending_cleanups (job : Uuid) (db : FleetDb) : list (Z * Obligation) :=
  rows (fun _ o => job_pending_cleanup job o) (db_obligations db).

(** Who answers for a job in each of its states. *)
Definition accounted (db : FleetDb) (job : Uuid) (j : Job) : Prop :=
  match jb_status j with
  | J_Queued => jb_claim_token j = None /\ active_attempts job db = [] /\ pending_cleanups job db = []
  | J_Claimed => exists id a, active_attempts job db = [(id, a)] /\ at_status a = A_Offered
      /\ jb_claim_token j = Some (ar_claim_token (at_row a)) /\ pending_cleanups job db = []
  | J_Running =>
      (exists id a, active_attempts job db = [(id, a)] /\ attempt_executing (at_status a) = true
         /\ jb_claim_token j = Some (ar_claim_token (at_row a)) /\ pending_cleanups job db = [])
      \/ (active_attempts job db = [] /\ exists ob, pending_cleanups job db = [ob])
  | J_Completed | J_Failed | J_Cancelled =>
      active_attempts job db = [] /\ pending_cleanups job db = []
  end.

Context (db : FleetDb) (Hok : fleet_ok db).
Let Hlife := fo_life db Hok.

Lemma view_attempt id a :
  db_attempts db !! id = Some a -> lf_attempts (lifecycle_of db) !! id = Some (attempt_view a).
Proof. apply (lookup_view attempt_view). Qed.
Lemma view_job id j :
  db_jobs db !! id = Some j -> lf_jobs (lifecycle_of db) !! id = Some (job_view j).
Proof. apply (lookup_view job_view). Qed.
Lemma view_cleanup id o :
  db_obligations db !! id = Some o ->
  lf_cleanups (lifecycle_of db) !! id = Some (cleanup_view o).
Proof. apply (lookup_view cleanup_view). Qed.

Lemma active_attempts_nil job j :
  db_jobs db !! job = Some j -> jb_status j <> J_Claimed -> jb_status j <> J_Running ->
  active_attempts job db = [].
Proof.
  intros Hj Hc Hr. apply rows_nil. intros id a Ha.
  destruct (Z.eqb_spec (ar_job (at_row a)) job) as [<-|]; [|done]. simpl.
  destruct (attempt_active (at_status a)) eqn:Hact; [|done]. exfalso.
  destruct (li_active _ Hlife id _ (view_attempt id a Ha) Hact) as (j' & Hj' & _ & _ & Hs).
  pose proof (view_job _ _ Hj) as Hv. simpl in Hv, Hj'. rewrite Hv in Hj'. injection Hj' as <-.
  simpl in Hs.
  destruct (decide _); congruence.
Qed.

Lemma active_attempts_single job id a :
  db_attempts db !! id = Some a -> ar_job (at_row a) = job ->
  attempt_active (at_status a) = true -> active_attempts job db = [(id, a)].
Proof.
  intros Ha Hjob Hact. apply rows_single; [done | by rewrite Hjob, Z.eqb_refl |].
  intros id' a' Ha' Hp. bool_hyps.
  eapply (active_job_unique _ Hlife id' id); [by apply view_attempt.. | done | done | simpl; lia].
Qed.

Lemma pending_cleanups_nil job j :
  db_jobs db !! job = Some j -> jb_status j <> J_Running -> pending_cleanups job db = [].
Proof.
  intros Hj Hr. apply rows_nil. intros id o Ho. unfold job_pending_cleanup.
  destruct (Z.eqb_spec (ob_job o) job) as [<-|]; [|done]. simpl.
  apply bool_decide_eq_false. intros Hp.
  destruct (li_pending _ Hlife id _ (view_cleanup id o Ho) Hp) as [(j' & Hj' & Hs) _].
  pose proof (view_job _ _ Hj) as Hv. simpl in Hv, Hj'. rewrite Hv in Hj'. by injection Hj' as <-.
Qed.

Lemma attempt_submission id a :
  db_attempts db !! id = Some a -> is_Some (db_submissions db !! ar_submission (at_row a)).
Proof.
  intros Ha. destruct (li_fence _ Hlife id _ (view_attempt id a Ha)) as (f & Hf & _).
  simpl in Hf. apply lookup_fmap_Some in Hf as (sub & _ & Hs). by exists sub.
Qed.

Lemma view_attempt_inv id la :
  lf_attempts (lifecycle_of db) !! id = Some la ->
  exists a, db_attempts db !! id = Some a /\ la = attempt_view a.
Proof. simpl. rewrite lookup_fmap_Some. naive_solver. Qed.
Lemma view_cleanup_inv id lc :
  lf_cleanups (lifecycle_of db) !! id = Some lc ->
  exists o, db_obligations db !! id = Some o /\ lc = cleanup_view o.
Proof. simpl. rewrite lookup_fmap_Some. naive_solver. Qed.

Lemma running_accounted job j :
  db_jobs db !! job = Some j -> jb_status j = J_Running ->
  (exists id a, active_attempts job db = [(id, a)] /\ attempt_executing (at_status a) = true
     /\ jb_claim_token j = Some (ar_claim_token (at_row a)) /\ pending_cleanups job db = [])
  \/ (active_attempts job db = [] /\ exists ob, pending_cleanups job db = [ob]).
Proof.
  intros Hj Hs. destruct (li_running _ Hlife job _ (view_job job j Hj) Hs)
    as [(id & la & Hla & Hjob & Hex)|(ob & lc & Hlc & Hjob & Hp)].
  - apply view_attempt_inv in Hla as (a & Ha & ->). left. exists id, a.
    assert (Hact : attempt_active (at_status a) = true) by (by apply (executing_active _ Hex)).
    split_and!; [by apply active_attempts_single | done | |].
    + destruct (executing_job _ Hlife id _ (view_attempt id a Ha) Hex) as (j' & Hj' & _ & Hc & _).
      pose proof (view_job _ _ Hj) as Hv. simpl in Hv, Hj', Hjob. rewrite Hjob, Hv in Hj'.
      by injection Hj' as <-.
    + apply rows_nil. intros k o Ho. unfold job_pending_cleanup.
      destruct (Z.eqb_spec (ob_job o) job) as [Hoj|]; [|done]. simpl.
      apply bool_decide_eq_false. intros Hp.
      destruct (li_pending _ Hlife k _ (view_cleanup k o Ho) Hp) as [_ Hn].
      apply (Hn id _ (view_attempt id a Ha)); [simpl in *; congruence | done].
  - apply view_cleanup_inv in Hlc as (o & Ho & ->). right. simpl in Hjob, Hp. subst job.
    destruct (li_pending _ Hlife ob _ (view_cleanup ob o Ho) Hp) as [_ Hn]. split.
    + apply rows_nil. intros id a Ha.
      destruct (Z.eqb_spec (ar_job (at_row a)) (ob_job o)) as [He|]; [|done]. simpl.
      apply not_true_is_false. exact (Hn id _ (view_attempt id a Ha) He).
    + exists (ob, o). apply rows_single; [done| |].
      * unfold job_pending_cleanup. by rewrite Z.eqb_refl, bool_decide_eq_true_2.
      * intros k o' Ho' Hpp. unfold job_pending_cleanup in Hpp. bool_hyps.
        eapply (li_pending_unique _ Hlife k ob); [by apply view_cleanup.. | done | done | simpl; lia].
Qed.

Lemma job_accounted job j : db_jobs db !! job = Some j -> accounted db job j.
Proof.
  intros Hj. unfold accounted. destruct (jb_status j) eqn:Hs;
    try (split; [eapply active_attempts_nil | eapply pending_cleanups_nil]; eauto; congruence).
  - split_and!; [|eapply active_attempts_nil | eapply pending_cleanups_nil]; eauto; try congruence.
    exact (li_queued _ Hlife job _ (view_job job j Hj) Hs).
  - destruct (li_claimed _ Hlife job _ (view_job job j Hj) Hs) as (id & la & Hla & Hjob & Ho).
    apply view_attempt_inv in Hla as (a & Ha & ->). exists id, a. split_and!; [|done| |].
    + apply active_attempts_single; try done. simpl in Ho. by rewrite Ho.
    + destruct (offered_job_row db id a Hok Ha Ho) as (j' & Hj' & _ & Hc & _).
      simpl in Hjob. rewrite Hjob in Hj'. congruence.
    + eapply pending_cleanups_nil; eauto. congruence.
  - by apply running_accounted.
Qed.
End Accounting.

(** An attempt that is not active is refused by every call of its worker. *)
Section Powerless.
Context `{DigestEnv}.
Context (db : FleetDb) (id : Uuid) (a : Attempt) (env : TxEnv) (worker : Uuid)
        (i : AttemptIdentity).
Hypothesis (Ha : db_attempts db !! id = Some a) (Hid : ai_attempt_id i = id)
           (Hn : attempt_active (at_status a) = false).

Lemma find_attempt_here b : find_attempt worker i db = Some b -> b = a.
Proof. intros Hf. apply find_attempt_Some in Hf as (Hb & _). congruence. Qed.

Lemma not_executing : attempt_executing (at_status a) = false.
Proof. by destruct (at_status a). Qed.

Lemma accept_refused ttl r db' : accept_offer env worker i ttl db = Ok (r, db') -> r = false /\ db' = db.
Proof.
  unfold accept_offer. intros Hr. destruct (lock_protocol_policy db); [|done].
  destruct (db_workers db !! worker) as [w|]; [|by simplify_eq].
  destruct (find_attempt worker i db) as [b|] eqn:Hf; [|by simplify_eq].
  apply find_attempt_here in Hf as ->. rewrite not_executing in Hr.
  unfold may_accept in Hr. rewrite bool_decide_eq_false_2 in Hr; [by simpl in Hr; simplify_eq|].
  by intros E; rewrite E in Hn.
Qed.

Lemma heartbeat_refused ttl buffer :
  heartbeat_attempt env worker i ttl buffer db = Ok (None, db).
Proof.
  unfold heartbeat_attempt. destruct (find_attempt worker i db) as [b|] eqn:Hf; [|done].
  apply find_attempt_here in Hf as ->. rewrite not_executing, andb_false_r.
  by repeat case_match.
Qed.

Lemma reporting_refused trace : reporting_attempt env worker i trace db = None.
Proof.
  unfold reporting_attempt. destruct (find_attempt worker i db) as [b|] eqn:Hf; [|done].
  apply find_attempt_here in Hf as ->. by rewrite not_executing, andb_false_r.
Qed.

Lemma terminal_refused s r db' :
  accept_terminal env worker i s db = Ok (r, db') -> r <> T_Accepted /\ db' = db.
Proof.
  unfold accept_terminal. intros Hr.
  destruct (find_attempt worker i db) as [b|] eqn:Hf; [|by simplify_eq].
  apply find_attempt_here in Hf as ->.
  destruct (attempt_terminal (at_status a)); [simplify_eq; by repeat case_match|].
  unfold may_terminate in Hr. rewrite not_executing in Hr. by simpl in Hr; simplify_eq.
Qed.

Lemma grant_refused g : gt_attempt g = id -> record_artifact_grant env g db = Ok (false, db).
Proof. intros Hg. unfold record_artifact_grant. by rewrite Hg, Ha, not_executing. Qed.
End Powerless.

(** ** Theorems on reachable databases *)
Section Reachable.
Context `{DigestEnv} (scheduler : SchedulerPolicy) (protocol : ProtocolPolicy).
Notation after := (fleet_after scheduler protocol).

Lemma run_steps ops db :
  fleet_ok db -> rtc lifecycle_step (lifecycle_of db) (lifecycle_of (run ops db)).
Proof. intros Hok. by apply sim_run. Qed.

(** C1: The store refines the lifecycle machine.  In every database a deployment
    reaches, the jobs, attempts, fences and cleanup obligations satisfy the
    machine's invariant, and any further transaction (whatever it is, and
    whether it commits or fails) changes them only by transitions of the
    machine. *)
Theorem fleet_refines_lifecycle trace op :
  let db := after trace in
  lifecycle_inv (lifecycle_of db)
  /\ rtc lifecycle_step (lifecycle_of db) (lifecycle_of (run [op] db)).
Proof. split; [apply after_ok | apply run_steps, after_ok]. Qed.

(** C2: Every job is accounted for.  A queued job has no claim, no active attempt
    and no pending cleanup; a claimed job has exactly one active attempt, an
    offer holding its claim token; a running job has either exactly one
    execution holding its claim token and no pending cleanup, or no active
    attempt and exactly one pending cleanup obligation; a finished job has
    neither. *)
Theorem every_job_accounted trace job j :
  db_jobs (after trace) !! job = Some j -> accounted (after trace) job j.
Proof. apply job_accounted, after_ok. Qed.

(** C3: Fencing is exclusive.  An active attempt holds the current fence of its
    submission, and every other attempt of the submission is inactive and has
    a strictly smaller fence. *)
Theorem current_fence_exclusive trace id a :
  let db := after trace in
  db_attempts db !! id = Some a -> attempt_active (at_status a) = true ->
  exists sub, db_submissions db !! ar_submission (at_row a) = Some sub
    /\ ar_fence (at_row a) = sb_fencing_generation sub
    /\ forall id' a', db_attempts db !! id' = Some a' ->
         ar_submission (at_row a') = ar_submission (at_row a) -> id' <> id ->
         attempt_active (at_status a') = false /\ ar_fence (at_row a') < ar_fence (at_row a).
Proof.
  intros db Ha Hact. pose proof (after_ok scheduler protocol trace) as Hok.
  fold db in Hok. pose proof (fo_life _ Hok) as Hlife.
  pose proof (view_attempt db id a Ha) as Hv.
  destruct (li_fence _ Hlife id _ Hv) as (f & Hf & Hb & Hcur). specialize (Hcur Hact).
  simpl in Hf, Hb, Hcur. apply lookup_fmap_Some in Hf as (sub & <- & Hsub).
  exists sub. split_and!; try done. intros id' a' Ha' Hs Hne.
  pose proof (view_attempt db id' a' Ha') as Hv'. split.
  - apply not_true_is_false. intros Hact'. apply Hne.
    by eapply (li_unique _ Hlife id' id).
  - destruct (li_fence _ Hlife id' _ Hv') as (f' & Hf' & Hb' & _). simpl in Hf', Hb'.
    rewrite Hs, lookup_fmap, Hsub in Hf'. simpl in Hf'. injection Hf' as <-.
    destruct (Z.eq_dec (ar_fence (at_row a')) (ar_fence (at_row a))) as [He|]; [|lia].
    exfalso. apply Hne. by eapply (li_fence_unique _ Hlife id' id).
Qed.

(** C4: A superseded or retired attempt is powerless.  If the submission's fence
    has moved past the attempt's, or the attempt is no longer active, then no
    call with its identity changes the database: acceptance, heartbeats,
    events, progress, completion and artifact grants are all refused. *)
Theorem superseded_attempt_powerless trace id a sub env worker i :
  let db := after trace in
  db_attempts db !! id = Some a -> ai_attempt_id i = id ->
  db_submissions db !! ar_submission (at_row a) = Some sub ->
  (ar_fence (at_row a) < sb_fencing_generation sub \/ attempt_active (at_status a) = false) ->
  (forall ttl r db', accept_offer env worker i ttl db = Ok (r, db') -> r = false /\ db' = db)
  /\ (forall ttl buffer, heartbeat_attempt env worker i ttl buffer db = Ok (None, db))
  /\ (forall e, ev_identity e = i -> ingest_reliable_event env worker e db = Ok (Ing_Stale, db))
  /\ (forall p r db', pq_identity p = i -> ingest_progress env worker p db = Ok (r, db') ->
        r = false /\ db' = db)
  /\ (forall s r db', accept_terminal env worker i s db = Ok (r, db') ->
        r <> T_Accepted /\ db' = db)
  /\ (forall g, gt_attempt g = id -> record_artifact_grant env g db = Ok (false, db)).
Proof.
  intros db Ha Hid Hsub Hlost.
  assert (Hn : attempt_active (at_status a) = false).
  { destruct Hlost as [Hlt|]; [|done]. apply not_true_is_false. intros Hact.
    destruct (li_fence _ (fo_life _ (after_ok scheduler protocol trace)) id _
                (view_attempt _ id a Ha)) as (f & Hf & _ & Hcur).
    specialize (Hcur Hact). simpl in Hf, Hcur. fold db in Hf.
    rewrite lookup_fmap, Hsub in Hf. simpl in Hf. injection Hf as <-. lia. }
  split_and!.
  - intros. by eapply accept_refused.
  - intros. by eapply heartbeat_refused.
  - intros e He. unfold ingest_reliable_event. by rewrite He, (reporting_refused db id a).
  - intros p r db' Hp. unfold ingest_progress. rewrite Hp, (reporting_refused db id a) by done.
    intros Hr. by repeat case_match; simplify_eq.
  - intros. by eapply terminal_refused.
  - intros. by eapply grant_refused.
Qed.

(** Once an attempt is inactive (finished, expired
    or fenced), no later transaction changes its lifecycle state. *)
Lemma lost_authority_final trace later id a :
  db_attempts (after trace) !! id = Some a -> attempt_active (at_status a) = false ->
  attempt_view <$> db_attempts (after (trace ++ later)) !! id = Some (attempt_view a).
Proof.
  intros Ha Hn. rewrite after_app, <- lookup_fmap.
  apply (steps_attempt_final (lifecycle_of (after trace))
           (lifecycle_of (run later (after trace)))).
  - apply run_steps, after_ok.
  - by apply view_attempt.
  - unfold la_active. simpl. by rewrite Hn.
Qed.

Lemma finished_job_final trace later job j :
  let db' := after (trace ++ later) in
  db_jobs (after trace) !! job = Some j -> job_terminal (jb_status j) = true ->
  job_status_of job db' = Some (jb_status j)
  /\ active_attempts job db' = [] /\ pending_cleanups job db' = [].
Proof.
  intros db' Hj Ht.
  pose proof (steps_job_final _ _ job (job_view j)
                (run_steps later _ (after_ok scheduler protocol trace))
                (view_job _ job j Hj) Ht) as Hj'.
  rewrite <- after_app in Hj'. fold db' in Hj'. simpl in Hj'.
  apply lookup_fmap_Some in Hj' as (j' & Hv & Hj').
  assert (Hs : jb_status j' = jb_status j) by (by injection Hv).
  pose proof (job_accounted db' (after_ok scheduler protocol (trace ++ later)) job j' Hj') as Hacc.
  unfold accounted in Hacc. unfold job_status_of. rewrite Hj'. simpl. rewrite Hs in *.
  destruct (jb_status j); try done; by destruct Hacc.
Qed.

(** C5: Finished work stays finished.  Once a job is completed, failed or cancelled,
    it keeps that status under every later trace, is never claimed again, and owes
    no cleanup; and once an attempt is inactive (finished, expired or fenced), no
    later transaction changes its lifecycle state. *)
Theorem finished_work_final trace later :
  let db := fleet_after scheduler protocol trace in
  let db' := fleet_after scheduler protocol (trace ++ later) in
  (forall job j, db_jobs db !! job = Some j -> job_terminal (jb_status j) = true ->
     job_status_of job db' = Some (jb_status j)
     /\ active_attempts job db' = [] /\ pending_cleanups job db' = [])
  /\ (forall id a, db_attempts db !! id = Some a -> attempt_active (at_status a) = false ->
       attempt_view <$> db_attempts db' !! id = Some (attempt_view a)).
Proof.
  split; intros.
  - by apply finished_job_final.
  - by apply lost_authority_final.
Qed.
End Reachable.

(** ** The theorems at concrete traces *)
Lemma every_job_accounted_witness :
  exists j, jb_status j = J_Running /\ accounted demo_running demo_job j.
Proof.
  destruct running_job as (j & Hj & Hs). exists j. split; [exact Hs|].
  exact (@every_job_accounted demo_digest demo_scheduler demo_protocol trace_running demo_job j Hj).
Defined.

Lemma current_fence_exclusive_witness :
  exists a sub, at_status a = A_Running /\ ar_fence (at_row a) = sb_fencing_generation sub.
Proof.
  destruct running_attempt as (a & Ha & Hs).
  destruct (@current_fence_exclusive demo_digest demo_scheduler demo_protocol trace_running
              demo_attempt a Ha ltac:(rewrite Hs; reflexivity)) as (sub & _ & Hf & _).
  exists a, sub. exact (conj Hs Hf).
Defined.

Lemma superseded_attempt_powerless_witness :
  heartbeat_attempt (at_time 5001) demo_worker (demo_identity demo_attempt 1) 1000 None demo_lost
  = Ok (None, demo_lost).
Proof.
  destruct lost_attempt as (a & Ha & Hs).
  destruct (attempt_submission demo_lost (after_ok _ _ _) demo_attempt a Ha) as [sub Hsub].
  exact (proj1 (proj2 (@superseded_attempt_powerless demo_digest demo_scheduler demo_protocol
    trace_lost demo_attempt a sub (at_time 5001) demo_worker (demo_identity demo_attempt 1)
    Ha eq_refl Hsub (or_intror (f_equal attempt_active Hs)))) 1000 None).
Defined.

Lemma finished_work_final_witness :
  job_status_of demo_job (demo_db (trace_cancelled ++ [demo_poll 10 50])) = Some J_Cancelled
  /\ exists a, at_status a = A_Expired
     /\ attempt_view <$> db_attempts (demo_db (trace_lost ++ [demo_accept 5010 demo_attempt 1]))
                           !! demo_attempt = Some (attempt_view a).
Proof.
  destruct cancelled_job as (j & Hj & Hs). destruct lost_attempt as (a & Ha & Has).
  split; [rewrite <- Hs|exists a; split; [exact Has|]].
  - exact (proj1 (proj1 (@finished_work_final demo_digest demo_scheduler demo_protocol
      trace_cancelled [demo_poll 10 50]) demo_job j Hj ltac:(rewrite Hs; reflexivity))).
  - exact (proj2 (@finished_work_final demo_digest demo_scheduler demo_protocol trace_lost
      [demo_accept 5010 demo_attempt 1]) demo_attempt a Ha ltac:(rewrite Has; reflexivity)).
Defined.
