(* ===== verification/FleetRetry.v ===== *)
(** * Retries

    Workers and operators repeat calls whose response was lost.  Each theorem
    here shows that the repetition of a committed call reports the committed
    result and changes nothing. *)
From stdpp Require Import base list strings gmap.
From Stdlib Require Import ZArith Lia.
From S2P Require Import Prelude RustStr Json FleetModel Negotiation Validate FleetDb.
From S2P Require Import FleetSessions FleetScheduling FleetEvents FleetAdmin FleetSpec.
From S2P Require Import FleetRefine FleetSystem FleetDemo.

Local Open Scope Z_scope.

(** ** Supporting lemmas *)
Section Support.
(** An identity still names the attempt after an update of its mutable
    columns. *)
Lemma find_attempt_updated worker i db db' a a' :
  find_attempt worker i db = Some a -> db_attempts db' !! ai_attempt_id i = Some a' ->
  at_row a' = at_row a -> find_attempt worker i db' = Some a'.
Proof.
  unfold find_attempt. intros Hf Ha' Hrow.
  destruct (db_attempts db !! ai_attempt_id i) as [b|]; [|done].
  destruct (_ && _ && _) eqn:E; [|done]. injection Hf as ->. by rewrite Ha', Hrow, E.
Qed.

Lemma with_attempts_same db id a :
  db_attempts db !! id = Some a -> with_attempts <[id := a]> db = db.
Proof. intros Ha. destruct db. unfold with_attempts. simpl in *. by rewrite insert_id. Qed.

Lemma bool_decide_refl {A} `{EqDecision A} (x : A) : bool_decide (x = x) = true.
Proof. by apply bool_decide_eq_true. Qed.

Lemma same_terminal_refl s now :
  same_terminal {| tr_reliable_seq := as_i64 (ts_reliable_seq s); tr_payload_digest := ts_payload_digest s;
    tr_outcome := ts_outcome s; tr_artifacts := ts_artifacts s; tr_at := now |} s = true.
Proof.
  unfold same_terminal, rstr_eqb. simpl.
  rewrite Z.eqb_refl, value_eqb_refl. by rewrite !bool_decide_refl.
Qed.

(** The loop that advances the contiguous prefix: what it returns. *)
Lemma advance_spec fuel events attempt c :
  let c' := advance_contiguous fuel events attempt c in
  c <= c' <= c + Z.of_nat fuel
  /\ (forall n, c < n <= c' -> is_Some (events !! (attempt, n)))
  /\ (events !! (attempt, c' + 1) = None \/ c' = c + Z.of_nat fuel).
Proof.
  revert c. induction fuel as [|fuel IH]; intros c; simpl.
  - split_and!; [lia | lia | intros; lia | right; lia].
  - destruct (events !! (attempt, c + 1)) as [e|] eqn:E.
    + destruct (IH (c + 1)) as (Hb & Hall & Hend). split_and!; [lia | lia | |].
      * intros n Hn. destruct (decide (n = c + 1)) as [->|]; [by rewrite E|]. apply Hall. lia.
      * destruct Hend as [|Hend]; [by left | right; lia].
    + split_and!; [lia | lia | intros; lia | by left].
Qed.

(** The number of stored events is enough fuel: the loop stops at the first
    gap. *)
Lemma advance_stops events attempt c :
  let c' := advance_contiguous (size events) events attempt c in
  c <= c' /\ (forall n, c < n <= c' -> is_Some (events !! (attempt, n)))
  /\ events !! (attempt, c' + 1) = None.
Proof.
  destruct (advance_spec (size events) events attempt c) as (Hb & Hall & Hend).
  set (c' := advance_contiguous _ _ _ _) in *. split_and!; [lia | done |].
  destruct Hend as [|Hend]; [done|].
  destruct (events !! (attempt, c' + 1)) as [e|] eqn:E; [|done]. exfalso.
  set (keys := map (fun n => (attempt, n)) (seqZ (c + 1) (Z.of_nat (size events) + 1))).
  assert (Hsub : (list_to_set keys : gset (Uuid * Z)) ⊆ dom events).
  { intros k Hk. apply elem_of_list_to_set, list_elem_of_fmap in Hk as (n & -> & Hn).
    apply elem_of_seqZ in Hn. apply elem_of_dom.
    destruct (decide (n = c' + 1)) as [->|]; [by rewrite E | apply Hall; lia]. }
  apply subseteq_size in Hsub. rewrite size_dom, size_list_to_set in Hsub.
  - unfold keys in Hsub. rewrite length_map, length_seqZ in Hsub. lia.
  - apply NoDup_fmap_2; [intros x y; congruence | apply NoDup_seqZ].
Qed.

Lemma advance_at_gap fuel events attempt c :
  events !! (attempt, c + 1) = None -> advance_contiguous fuel events attempt c = c.
Proof. intros E. destruct fuel; simpl; by rewrite ?E. Qed.
End Support.

(** ** Worker calls *)

(** Accepting again is harmless.  After an accepted offer, the same call (at
    any time, with any lease) reports acceptance and changes nothing: in
    particular no second [claimed] event is written. *)
Lemma accept_retry env env' worker i ttl ttl' db db' :
  accept_offer env worker i ttl db = Ok (true, db') ->
  accept_offer env' worker i ttl' db' = Ok (true, db').
Proof.
  unfold accept_offer at 1. intros H.
  destruct (lock_protocol_policy db) as [floor|] eqn:El; [|done].
  destruct (db_workers db !! worker) as [w|] eqn:Ew; [|done].
  destruct (find_attempt worker i db) as [a|] eqn:Ef; [|done].
  destruct (attempt_executing (at_status a)) eqn:Ex.
  - injection H as <-. unfold accept_offer. by rewrite El, Ew, Ef, Ex.
  - ok_inv H; simplify_eq.
    match goal with E : put_session _ _ _ = Ok _ |- _ => apply put_session_Ok in E as -> end.
    unfold accept_offer, lock_protocol_policy in *. simpl. rewrite El. simpl. rewrite Ew.
    erewrite find_attempt_updated; [|exact Ef | simpl; apply lookup_insert_eq | done]. done.
Qed.

Section WithDigest.
Context `{DigestEnv}.

(** A repeated event is acknowledged, not stored twice.  After an event was
    inserted, sending it again changes nothing; it is answered as a duplicate
    while the attempt may still report (as it may at the time of the
    insertion) and as stale afterwards. *)
Lemma ingest_retry env env' worker e db db' :
  ingest_reliable_event env worker e db = Ok (Ing_Inserted, db') ->
  ingest_reliable_event env' worker e db'
    = Ok (match reporting_attempt env' worker (ev_identity e) (ev_trace_id e) db' with
          | Some _ => Ing_Duplicate | None => Ing_Stale end, db')
  /\ reporting_attempt env worker (ev_identity e) (ev_trace_id e) db' <> None.
Proof.
  unfold ingest_reliable_event at 1. intros Hr.
  destruct (reporting_attempt env worker _ _ db) as [a|] eqn:Er; [|done].
  destruct (negb _) eqn:Ec; [done|].
  destruct (db_events db !! _) as [x|] eqn:Ee; [case_match; discriminate Hr|].
  injection Hr as <-.
  set (id := ai_attempt_id (ev_identity e)) in *.
  set (events := <[(id, as_i64 (ev_reliable_seq e)) := _]> (db_events db)).
  set (c := advance_contiguous (size events) events id (at_contiguous a)).
  destruct (advance_stops events id (at_contiguous a)) as (_ & _ & Hgap). fold c in Hgap.
  set (a' := with_attempt_contiguous c a).
  apply reporting_attempt_Some in Er as (Hf & Hex & Hl & Ht & Hau).
  match goal with |- context [reporting_attempt env _ _ _ ?d <> None] => set (db1 := d) end.
  assert (Ha' : db_attempts db1 !! id = Some a') by apply lookup_insert_eq.
  assert (Hf' : find_attempt worker (ev_identity e) db1 = Some a')
    by (by eapply find_attempt_updated).
  split.
  - unfold ingest_reliable_event.
    destruct (reporting_attempt env' worker _ _ db1) as [b|] eqn:Er'; [|done].
    apply reporting_attempt_Some in Er' as (Hb & _). rewrite Hf' in Hb. injection Hb as <-.
    fold id. rewrite Ec. unfold db1 at 1. simpl db_events. rewrite lookup_insert_eq. simpl.
    rewrite Z.eqb_refl. unfold rstr_eqb. rewrite !bool_decide_eq_true_2 by done. simpl.
    fold events. fold c. rewrite (advance_at_gap _ _ _ _ Hgap).
    change (with_attempt_contiguous c a') with a'. by rewrite with_attempts_same.
  - unfold reporting_attempt. rewrite Hf'. change (authorized a' db1) with (authorized a db). rewrite Hau. simpl.
    assert (Hz : (tx_now env <? at_lease_expires a) = true) by (by apply Z.ltb_lt).
    by rewrite Hex, Hz, Ht, Z.eqb_refl.
Qed.

(** Completion is reported once.  After a terminal submission was accepted,
    repeating it, at any time, is answered as a duplicate and changes
    nothing. *)
Lemma terminal_retry env env' worker i s db db' :
  accept_terminal env worker i s db = Ok (T_Accepted, db') ->
  accept_terminal env' worker i s db' = Ok (T_Duplicate, db').
Proof.
  intros Hr. apply accept_terminal_cases in Hr as [[_ ?]|Hr]; [done|].
  destruct Hr as (a & j & db1 & Hf & _ & _ & _ & _ & _ & _ & _ & Hp & f & ->).
  destruct (write_outcome (ts_write s)) as [_ Ht].
  unfold accept_terminal.
  erewrite find_attempt_updated; [|exact Hf | simpl; apply lookup_insert_eq | done].
  simpl. rewrite Ht. by rewrite same_terminal_refl.
Qed.
End WithDigest.

(** Acknowledging cleanup twice is harmless.  After a cleanup obligation was
    completed, the worker's live session gets the same answer again and the job
    is neither requeued nor cancelled a second time. *)
Lemma cleanup_retry env env' worker session ob db db' :
  complete_cleanup env worker session ob db = Ok (true, db') ->
  session_current env' worker session db' = true ->
  complete_cleanup env' worker session ob db' = Ok (true, db').
Proof.
  unfold complete_cleanup at 1. intros H Hcur.
  destruct (db_obligations db !! ob) as [o|] eqn:Eo; [|by destruct (negb _)].
  destruct (_ && _ && _) eqn:Eg.
  - bool_hyps. injection H as <-. unfold complete_cleanup. rewrite Hcur.
    assert (Hob : forall d, db_obligations (if ob_requeue o then requeue_job J_Running (ob_job o) d
              else cancel_running (ob_job o)
                     (lit "cancelled attempt was fenced after its lease expired") d)
            = db_obligations d).
    { intros d. unfold cancel_running. by repeat case_match. }
    rewrite Hob. simpl. rewrite lookup_insert_eq. simpl.
    by match goal with E : (ob_worker o =? worker) = true |- _ => rewrite E end.
  - destruct (session_current env worker session db); [|done]. simpl in H. injection H as Hc <-.
    bool_hyps. unfold complete_cleanup. by rewrite Eo, Hcur, H, H0.
Qed.

(** Lost answers are harmless.  A worker that repeats a call whose answer it did
    not get changes nothing: an acceptance is reported again without a second
    [claimed] event; an inserted event is a duplicate while the attempt may report
    and stale afterwards; an accepted completion is a duplicate at any time; and a
    completed cleanup is confirmed again to the live session, without requeueing or
    cancelling its job a second time. *)
Theorem worker_calls_retry `{DigestEnv} env env' worker db db' :
  (forall i ttl ttl', accept_offer env worker i ttl db = Ok (true, db') ->
     accept_offer env' worker i ttl' db' = Ok (true, db'))
  /\ (forall e, ingest_reliable_event env worker e db = Ok (Ing_Inserted, db') ->
       ingest_reliable_event env' worker e db'
         = Ok (match reporting_attempt env' worker (ev_identity e) (ev_trace_id e) db' with
               | Some _ => Ing_Duplicate | None => Ing_Stale end, db')
       /\ reporting_attempt env worker (ev_identity e) (ev_trace_id e) db' <> None)
  /\ (forall i s, accept_terminal env worker i s db = Ok (T_Accepted, db') ->
       accept_terminal env' worker i s db' = Ok (T_Duplicate, db'))
  /\ (forall session ob, complete_cleanup env worker session ob db = Ok (true, db') ->
       session_current env' worker session db' = true ->
       complete_cleanup env' worker session ob db' = Ok (true, db')).
Proof.
  split_and!; intros.
  - by eapply accept_retry.
  - by eapply ingest_retry.
  - by eapply terminal_retry.
  - by eapply cleanup_retry.
Qed.

(** ** Operator calls *)

(** Administrative requests are replayable.  A request identifier that was
    applied (a scheduler change, a fleet abort, a worker lifecycle action, a
    change of the compatibility floor) returns its original receipt when the same
    request is sent again, and changes nothing: a pause is not repeated, a second
    selection of jobs is not aborted, a shutdown is not aimed at a newer
    session. *)
Theorem admin_replay env env' db db' :
  (forall c p, change_scheduler env c db = Ok (Change_Applied p, db') ->
     change_scheduler env' c db' = Ok (Change_Applied p, db'))
  /\ (forall r x, abort_fleet env r db = Ok (Abort_Applied x, db') ->
        abort_fleet env' r db' = Ok (Abort_Applied x, db'))
  /\ (forall c r, change_worker_lifecycle env c db = Ok (Life_Applied r, db') ->
        change_worker_lifecycle env' c db' = Ok (Life_Applied r, db'))
  /\ (forall c p, change_protocol_policy env c db = Ok (Floor_Applied p, db') ->
        change_protocol_policy env' c db' = Ok (Floor_Applied p, db')).
Proof.
  split_and!.
  - intros c p. unfold change_scheduler. destruct (negb (bounded_text _ _ && _)); [done|].
    destruct (db_scheduler_audit db !! _) as [audit|] eqn:Ea.
    + destruct (negb (eqb _ _ && _ && _)) eqn:Es; [done|]. intros [= <- <-]. by rewrite Ea, Es.
    + intros [= <- <-]. simpl. rewrite lookup_insert_eq. simpl. unfold rstr_eqb.
      by rewrite eqb_reflx, !bool_decide_refl.
  - intros r x. unfold abort_fleet. destruct (is_nil _ || _ || _ || _); [done|].
    destruct (db_abort_audit db !! _) as [receipt|] eqn:Ea.
    + destruct (bool_decide _ && _ && _ && _) eqn:Es; [|done]. intros [= <- <-]. by rewrite Ea, Es.
    + destruct (negb _ || negb _); [done|].
      destruct (cancel_all env _ db) as [accepted db1]. intros [= <- <-]. simpl.
      rewrite lookup_insert_eq. simpl. unfold rstr_eqb.
      by rewrite Z.eqb_refl, !bool_decide_refl.
  - intros c r. unfold change_worker_lifecycle. destruct (negb (bounded_text _ _ && _)); [done|].
    destruct (db_lifecycle_audit db !! _) as [receipt|] eqn:Ea.
    + destruct (_ && _ && _ && _) eqn:Es; [|done]. intros [= <- <-]. by rewrite Ea, Es.
    + destruct (db_workers db !! _) as [w|]; [|done].
      destruct (bool_decide (wl_action c = Act_ShutdownAfterIdle) && _); [done|].
      intros [= <- <-]. simpl. rewrite lookup_insert_eq. simpl. unfold rstr_eqb.
      by rewrite Z.eqb_refl, !bool_decide_refl.
  - intros c p. unfold change_protocol_policy, ensure.
    destruct (in_window (pch_minimum_revision c)) eqn:Ew; [|done]. simpl.
    destruct (bounded_text _ _ && _ && _); [|done]. simpl.
    destruct (in_window (pp_minimum_revision (db_protocol db))) eqn:Ec; [|done]. simpl.
    destruct (db_protocol_audit db !! _) as [audit|] eqn:Ea.
    + destruct (_ && _ && _ && _) eqn:Es; [|done]. intros [= <- <-]. rewrite Ec. simpl.
      by rewrite Ea, Es.
    + intros Hr. case_match; [done|]. case_match; [done|]. injection Hr as Hp <-. subst p. simpl.
      assert (Hw : forall b : bool, in_window (pp_minimum_revision
          (if b then {| pp_minimum_revision := pch_minimum_revision c;
             pp_generation := pp_generation (db_protocol db) + 1; pp_actor := pch_actor c;
             pp_reason := pch_reason c; pp_rollback_evidence := pch_rollback_evidence c;
             pp_changed_at := tx_clock env |} else db_protocol db)) = true) by (by intros []).
      rewrite Hw. simpl. rewrite lookup_insert_eq. simpl. unfold rstr_eqb.
      by rewrite Z.eqb_refl, !bool_decide_refl.
Qed.

(** ** The theorems at concrete traces *)
Section Witnesses.
(** The result of a call on a concrete database, without the database. *)
Definition answer {A} (r : result (A * FleetDb) StoreError) : option A :=
  match r with Ok (x, _) => Some x | Err _ => None end.
Lemma answer_Some {A} (r : result (A * FleetDb) StoreError) x :
  answer r = Some x -> exists db', r = Ok (x, db').
Proof. destruct r as [[y d]|]; simpl; [|done]. intros [= ->]. by exists d. Qed.
End Witnesses.

Lemma demo_accepts : exists db',
  accept_offer (at_time 20) demo_worker (demo_identity demo_attempt 1) 1000 demo_offered = Ok (true, db').
Proof. apply answer_Some. vm_compute. reflexivity. Qed.
Definition demo_event : ReliableEventEnvelope :=
  {| ev_identity := demo_identity demo_attempt 1; ev_trace_id := 502; ev_reliable_seq := 1;
     ev_payload := Event_Terminal (repeat 97 64); ev_payload_digest := demo_hash;
     ev_worker_timestamp_ms := 30 |}.
Lemma demo_ingests : exists db',
  ingest_reliable_event (at_time 30) demo_worker demo_event demo_running = Ok (Ing_Inserted, db').
Proof. apply answer_Some. vm_compute. reflexivity. Qed.
(** The execution reports its end and is completed as cancelled. *)
Definition trace_reported : list FleetOp :=
  trace_running ++ [Op_Ingest (at_time 30) demo_worker demo_event].
Definition demo_terminal : FleetTerminalSubmission :=
  {| ts_reliable_seq := 1; ts_payload_digest := demo_hash;
     ts_outcome := Outcome_Cancelled (lit "x"); ts_artifacts := [];
     ts_write := Write_Cancelled (lit "x") |}.
Lemma demo_finishes : exists db', @accept_terminal demo_digest (at_time 50) demo_worker
  (demo_identity demo_attempt 1) demo_terminal (demo_db trace_reported) = Ok (T_Accepted, db').
Proof. apply answer_Some. vm_compute. reflexivity. Qed.
(** After the sweep the worker registers again and acknowledges the cleanup. *)
Definition trace_recovered : list FleetOp :=
  trace_lost ++ [Op_Register (at_time 5100) demo_worker demo_key demo_registration 100000].
Lemma demo_cleans : exists db',
  complete_cleanup (at_time 5200) demo_worker demo_session 1 (demo_db trace_recovered)
    = Ok (true, db')
  /\ session_current (at_time 5300) demo_worker demo_session db' = true.
Proof.
  assert (E : (fun r => match r with Ok (b, d) => b && session_current (at_time 5300) demo_worker
                  demo_session d | Err _ => false end)
            (complete_cleanup (at_time 5200) demo_worker demo_session 1 (demo_db trace_recovered))
          = true) by (vm_compute; reflexivity).
  revert E. destruct (complete_cleanup _ _ _ _ _) as [[b d]|]; [|discriminate].
  intros E. apply andb_prop in E as [-> E]. exists d. split; [reflexivity | exact E].
Qed.
Lemma worker_calls_retry_witness :
  (exists db', accept_offer (at_time 90) demo_worker (demo_identity demo_attempt 1) 1000 db'
               = Ok (true, db'))
  /\ (exists db' r, ingest_reliable_event (at_time 40) demo_worker demo_event db' = Ok (r, db'))
  /\ (exists db', @accept_terminal demo_digest (at_time 9000) demo_worker
         (demo_identity demo_attempt 1) demo_terminal db' = Ok (T_Duplicate, db'))
  /\ (exists db', complete_cleanup (at_time 5300) demo_worker demo_session 1 db' = Ok (true, db')).
Proof.
  destruct demo_accepts as (d1 & H1). destruct demo_ingests as (d2 & H2).
  destruct demo_finishes as (d3 & H3). destruct demo_cleans as (d4 & H4 & Hs). split; [|split; [|split]].
  - exists d1. exact (proj1 (@worker_calls_retry demo_digest (at_time 20) (at_time 90) demo_worker
      _ d1) _ _ _ H1).
  - exists d2. eexists. exact (proj1 (proj1 (proj2 (@worker_calls_retry demo_digest (at_time 30)
      (at_time 40) demo_worker _ d2)) _ H2)).
  - exists d3. exact (proj1 (proj2 (proj2 (@worker_calls_retry demo_digest (at_time 50)
      (at_time 9000) demo_worker _ d3))) _ _ H3).
  - exists d4. exact (proj2 (proj2 (proj2 (@worker_calls_retry demo_digest (at_time 5200)
      (at_time 5300) demo_worker _ d4))) _ _ H4 Hs).
Defined.

Definition demo_pause : SchedulerChange :=
  {| sc_request_id := 77; sc_paused := true; sc_actor := lit "op"; sc_reason := lit "fix" |}.
Lemma demo_pauses : exists p db',
  change_scheduler (at_time 40) demo_pause demo_offered = Ok (Change_Applied p, db').
Proof.
  assert (E : (fun r => match r with Ok (Change_Applied _, _) => true | _ => false end)
            (change_scheduler (at_time 40) demo_pause demo_offered) = true)
    by (vm_compute; reflexivity).
  revert E. destruct (change_scheduler _ _ _) as [[[p|] d]|]; try discriminate.
  intros _. by exists p, d.
Qed.
Lemma admin_replay_witness : exists p db',
  change_scheduler (at_time 60) demo_pause db' = Ok (Change_Applied p, db').
Proof.
  destruct demo_pauses as (p & db' & Hdb). exists p, db'.
  exact (proj1 (admin_replay (at_time 40) (at_time 60) _ db') demo_pause p Hdb).
Defined.
