(* ===== verification/FleetPolicy.v ===== *)
(** * Admission control

    What operators rely on when they stop work: pausing the scheduler, cordoning a
    worker, and the cleanup debt that keeps a worker idle. *)
From stdpp Require Import base list strings gmap relations.
From Stdlib Require Import ZArith Lia.
From S2P Require Import Prelude RustStr Json FleetModel Negotiation Validate FleetDb.
From S2P Require Import FleetSessions FleetScheduling FleetEvents FleetAdmin FleetSpec.
From S2P Require Import FleetRefine FleetSystem FleetDemo FleetSafety FleetRetry.

Local Open Scope Z_scope.

(** ** What an offer presupposes *)
Section Offers.
(** A poll that returns an offer ran for an authorized, unexpired session of an
    enabled worker that is neither draining nor shutting down nor owes cleanup,
    while the scheduler was open. *)
Record offer_allowed (env : TxEnv) (worker session : Uuid) (db : FleetDb) : Prop := {
  oal_rows : exists s w, authorized_rows worker session db = Some (s, w)
    /\ tx_now env < ws_expires_at s /\ wk_draining w = false
    /\ wk_shutdown_session w <> Some session;
  oal_open : sp_paused (db_scheduler db) = false;
  oal_clean : has_pending_cleanup worker db = false
}.

Lemma poll_Some_allowed env ids worker session ot lt db o db' :
  poll_offer env ids worker session ot lt db = Ok (Some o, db') ->
  offer_allowed env worker session db.
Proof.
  unfold poll_offer. intros H. destruct (lock_protocol_policy db) as [floor|]; [|done].
  destruct (authorized_rows worker session db) as [[s w]|] eqn:Ea; [|done].
  head_case H E1; [done|]. bool_hyps. head_case H E4; [|done]. head_case H E5; [done|].
  head_case H E2; [done|]. head_case H E3; [done|].
  apply orb_false_iff in E2 as [Ed Esh], E3 as [Ep Ec]. apply bool_decide_eq_false in Esh.
  clear H E4 E5. split; try done. exists s, w. split_and!; try done. lia.
Qed.

Lemma authorized_rows_worker worker session db s w :
  authorized_rows worker session db = Some (s, w) ->
  db_sessions db !! session = Some s /\ db_workers db !! worker = Some w /\ wk_enabled w = true.
Proof.
  unfold authorized_rows. destruct (db_sessions db !! session); [|done].
  destruct (db_workers db !! worker); [|done]. destruct (_ && _) eqn:E; [|done].
  intros [= -> ->]. by bool_hyps.
Qed.

(** An acceptance that changes the database passed the guard. *)
Lemma accept_fresh env worker i ttl db r db' :
  accept_offer env worker i ttl db = Ok (r, db') -> db' <> db ->
  exists w a, db_workers db !! worker = Some w /\ find_attempt worker i db = Some a
    /\ may_accept w worker (ai_worker_session_id i) a db = true.
Proof.
  unfold accept_offer. intros H Hne. destruct (lock_protocol_policy db) as [floor|]; [|done].
  destruct (db_workers db !! worker) as [w|]; [|simplify_eq].
  destruct (find_attempt worker i db) as [a|]; [|simplify_eq].
  destruct (attempt_executing _); [simplify_eq|].
  destruct (may_accept _ _ _ _ _) eqn:Em; [|simpl in H; simplify_eq]. by exists w, a.
Qed.
End Offers.

(** ** Pausing the scheduler *)
Section Pause.
Lemma expire_offers_none p db id a :
  db_attempts (expire_offers p db) !! id = Some a -> p a = true -> at_status a <> A_Offered.
Proof.
  simpl. rewrite lookup_update_where. intros Ha Hp Ho.
  destruct (db_attempts db !! id) as [b|]; [|done]. simpl in Ha. injection Ha as Ha.
  destruct (bool_decide (at_status b = A_Offered) && p b) eqn:E; subst a; [done|].
  rewrite Ho, Hp in E. done.
Qed.
Lemma expire_offers_keeps p db id a :
  db_attempts db !! id = Some a -> at_status a <> A_Offered ->
  db_attempts (expire_offers p db) !! id = Some a.
Proof.
  intros Ha Hn. simpl. rewrite lookup_update_where, Ha. simpl.
  by rewrite bool_decide_eq_false_2.
Qed.
Lemma withdraw_none db id a :
  db_attempts (withdraw_offers db) !! id = Some a -> at_status a <> A_Offered.
Proof. intros Ha. by eapply expire_offers_none. Qed.
Lemma withdraw_keeps db id a :
  db_attempts db !! id = Some a -> at_status a <> A_Offered ->
  db_attempts (withdraw_offers db) !! id = Some a.
Proof. intros Ha Hn. by apply expire_offers_keeps. Qed.
End Pause.

Section Reachable.
Context `{DigestEnv} (scheduler : SchedulerPolicy) (protocol : ProtocolPolicy).
Notation after := (fleet_after scheduler protocol).

(** A pause takes effect at once.  When a new request pauses the open
    scheduler, the generation advances, every offer is withdrawn and no job
    stays claimed, executions are untouched, and from then on no preparation
    is recorded and no poll returns an offer. *)
Theorem pause_stops_admission trace env c p db' :
  let db := after trace in
  sc_paused c = true -> sp_paused (db_scheduler db) = false ->
  db_scheduler_audit db !! sc_request_id c = None ->
  change_scheduler env c db = Ok (Change_Applied p, db') ->
  (sp_paused (db_scheduler db') = true
   /\ sp_generation (db_scheduler db') = sp_generation (db_scheduler db) + 1)
  /\ (forall id a, db_attempts db' !! id = Some a -> at_status a <> A_Offered)
  /\ (forall job j, db_jobs db' !! job = Some j -> jb_status j <> J_Claimed)
  /\ (forall id a, db_attempts db !! id = Some a -> attempt_executing (at_status a) = true ->
        db_attempts db' !! id = Some a)
  /\ (forall q, prepare_execution q db' = Ok (false, db'))
  /\ (forall env' ids worker session ot lt r db'',
        poll_offer env' ids worker session ot lt db' = Ok (r, db'') -> r = None).
Proof.
  intros db Hp Hopen Hnew Hr.
  pose proof (proj2 (sim_change_scheduler env c db _ db' Hr (after_ok _ _ trace))) as Hok'.
  unfold change_scheduler in Hr. destruct (negb _); [done|]. rewrite Hnew in Hr.
  rewrite Hopen, Hp in Hr. simpl in Hr. injection Hr as <- <-.
  match goal with |- context [withdraw_offers ?d] => set (d0 := d) in * end.
  assert (Hno : forall id a, db_attempts (withdraw_offers d0) !! id = Some a ->
                  at_status a <> A_Offered) by (intros id a; apply withdraw_none).
  split_and!; try done.
  - intros job j Hj Hs.
    destruct (li_claimed _ (fo_life _ Hok') job _ (view_job _ job j Hj) Hs)
      as (id & la & Hla & _ & Ho).
    apply view_attempt_inv in Hla as (a & Ha & ->). by apply (Hno id a).
  - intros id a Ha He. apply (withdraw_keeps d0); [done|].
    intros Ho. by rewrite Ho in He.
  - intros env' ids w s ot lt [o|] db'' Hpoll; [|done].
    apply poll_Some_allowed in Hpoll as [_ Ho _]. done.
Qed.

(** A cordon withdraws the worker's offers.  When a new request cordons a
    worker, no attempt of it stays offered, its executions keep running under
    their leases, the registry marks it draining, and no poll of any of its
    sessions returns an offer while the mark stands. *)
Theorem cordon_withdraws_offers env c db r db' :
  wl_action c = Act_Cordon -> db_lifecycle_audit db !! wl_request_id c = None ->
  change_worker_lifecycle env c db = Ok (Life_Applied r, db') ->
  (forall id a, db_attempts db' !! id = Some a -> ar_worker (at_row a) = wl_worker c ->
     at_status a <> A_Offered)
  /\ (forall id a, db_attempts db !! id = Some a -> attempt_executing (at_status a) = true ->
        db_attempts db' !! id = Some a)
  /\ (exists w, db_workers db' !! wl_worker c = Some w /\ wk_draining w = true)
  /\ (forall env' ids session ot lt o db'',
        poll_offer env' ids (wl_worker c) session ot lt db' = Ok (o, db'') -> o = None).
Proof.
  intros Hact Hnew Hr. unfold change_worker_lifecycle in Hr.
  destruct (negb _); [done|]. rewrite Hnew in Hr.
  destruct (db_workers db !! wl_worker c) as [w|] eqn:Ew; [|done].
  rewrite Hact in Hr. simpl in Hr. injection Hr as <- <-.
  match goal with |- context [with_lifecycle_audit ?f ?d] => set (d' := with_lifecycle_audit f d) in * end.
  assert (Hw : exists w', db_workers d' !! wl_worker c = Some w' /\ wk_draining w' = true).
  { simpl. rewrite lookup_insert_eq. eexists. by split. }
  split_and!; [| |exact Hw|].
  - intros id a Ha Hwk. eapply expire_offers_none; [exact Ha|].
    by apply Z.eqb_eq.
  - intros id a Ha He. apply (expire_offers_keeps (fun a => ar_worker (at_row a) =? wl_worker c));
      [done|]. intros Ho. by rewrite Ho in He.
  - intros env' ids s ot lt [o|] db'' Hpoll; [|done].
    apply poll_Some_allowed in Hpoll as [(se & w' & Hrow & _ & Hd & _) _ _].
    apply authorized_rows_worker in Hrow as (_ & Hw' & _).
    destruct Hw as (w2 & Hw2 & Hd2). rewrite Hw' in Hw2. congruence.
Qed.

(** Cleanup debt keeps a worker idle.  While the worker has a pending cleanup
    obligation, no poll of any of its sessions returns an offer, and no call
    accepts one: acceptance leaves the database unchanged. *)
Theorem cleanup_blocks_work env db worker :
  has_pending_cleanup worker db = true ->
  (forall ids session ot lt o db', poll_offer env ids worker session ot lt db = Ok (o, db') ->
     o = None)
  /\ (forall i ttl r db', accept_offer env worker i ttl db = Ok (r, db') -> db' = db).
Proof.
  intros Hc. split.
  - intros ids s ot lt [o|] db' Hpoll; [|done].
    apply poll_Some_allowed in Hpoll as [_ _ Hn]. congruence.
  - intros i ttl r db' Hacc. unfold accept_offer in Hacc. destruct (lock_protocol_policy db) as [floor|]; [|done].
    destruct (db_workers db !! worker) as [w|]; [|by simplify_eq].
    destruct (find_attempt worker i db) as [a|]; [|by simplify_eq].
    destruct (attempt_executing _); [by simplify_eq|].
    assert (Hm : may_accept w worker (ai_worker_session_id i) a db = false).
    { unfold may_accept. rewrite Hc, orb_true_r. done. }
    rewrite Hm in Hacc. simpl in Hacc. by simplify_eq.
Qed.
End Reachable.

(** ** The theorems at concrete traces *)
Lemma demo_pause_new :
  sp_paused (db_scheduler demo_offered) = false
  /\ db_scheduler_audit demo_offered !! sc_request_id demo_pause = None.
Proof. split; vm_compute; reflexivity. Qed.
Lemma pause_stops_admission_witness : exists db',
  sp_paused (db_scheduler db') = true
  /\ forall id a, db_attempts db' !! id = Some a -> at_status a <> A_Offered.
Proof.
  destruct demo_pause_new as [Hopen Hnew]. destruct demo_pauses as (p & db' & Hdb). exists db'.
  destruct (@pause_stops_admission demo_digest demo_scheduler demo_protocol trace_offered
              (at_time 40) demo_pause p db' eq_refl Hopen Hnew Hdb) as ([H1 _] & H2 & _).
  exact (conj H1 H2).
Defined.

Definition demo_cordon : WorkerLifecycleChange :=
  {| wl_request_id := 66; wl_worker := demo_worker; wl_action := Act_Cordon;
     wl_actor := lit "op"; wl_reason := lit "disk" |}.
Lemma demo_cordons :
  db_lifecycle_audit demo_offered !! wl_request_id demo_cordon = None
  /\ exists r db', change_worker_lifecycle (at_time 40) demo_cordon demo_offered
                   = Ok (Life_Applied r, db').
Proof.
  split; [vm_compute; reflexivity|].
  assert (E : match change_worker_lifecycle (at_time 40) demo_cordon demo_offered with
              | Ok (Life_Applied _, _) => true | _ => false end = true)
    by (vm_compute; reflexivity).
  destruct (change_worker_lifecycle _ _ _) as [[[r| | |] d]|]; try discriminate E.
  exists r, d. reflexivity.
Qed.
Lemma cordon_withdraws_offers_witness : exists db', forall id a,
  db_attempts db' !! id = Some a -> ar_worker (at_row a) = demo_worker -> at_status a <> A_Offered.
Proof.
  destruct demo_cordons as (Hnew & r & db' & Hdb). exists db'.
  exact (proj1 (cordon_withdraws_offers (at_time 40) demo_cordon _ r db' eq_refl Hnew Hdb)).
Defined.

Lemma cleanup_blocks_work_witness :
  has_pending_cleanup demo_worker demo_lost = true
  /\ forall i ttl r db',
       accept_offer (at_time 6000) demo_worker i ttl demo_lost = Ok (r, db') -> db' = demo_lost.
Proof.
  split; [exact lost_cleanup|].
  exact (proj2 (cleanup_blocks_work (at_time 6000) demo_lost demo_worker lost_cleanup)).
Defined.
