(* ===== verification/FleetSweep.v ===== *)
(** * The lease sweep and fleet aborts

    Loops over rows that were selected before the loop: what
    [expire_stale_attempts] leaves behind, and that [abort_fleet] reaches every
    job it selects. *)
From stdpp Require Import base list strings gmap relations.
From Stdlib Require Import ZArith Lia.
From S2P Require Import Prelude RustStr Json FleetModel Negotiation Validate FleetDb.
From S2P Require Import FleetSessions FleetScheduling FleetEvents FleetAdmin FleetSpec.
From S2P Require Import FleetRefine FleetSystem FleetDemo FleetSafety FleetRetry.

Local Open Scope Z_scope.

(** ** The sweep *)
Section Sweep.
Context (env : TxEnv).

(** What the sweep leaves of an attempt: it is expired; an offer's job is back
    in the queue; an execution's job waits for a cleanup that requeues it
    unless its cancellation was requested. *)
Record settled (db : FleetDb) (id : Uuid) (a : Attempt) : Prop := {
  st_expired : attempt_status_of id db = Some A_Expired;
  st_offer : at_status a = A_Offered -> job_status_of (ar_job (at_row a)) db = Some J_Queued;
  st_execution : attempt_executing (at_status a) = true ->
    exists ob o, db_obligations db !! ob = Some o /\ ob_attempt o = id
      /\ ob_worker o = ar_worker (at_row a) /\ ob_job o = ar_job (at_row a)
      /\ ob_status o = C_Pending /\ ob_requeue o = bool_decide (at_status a = A_Running)
}.

(** One step of the loop. *)
Lemma expire_settled db id a :
  fleet_ok db -> db_attempts db !! id = Some a -> attempt_active (at_status a) = true ->
  settled (expire_attempt env id a db) id a.
Proof.
  intros Hok Ha Hact. unfold expire_attempt, retire_attempt.
  destruct (decide (at_status a = A_Offered)) as [Ho|Ho].
  - destruct (offered_job_row db id a Hok Ha Ho) as (j & Hj & Hs & _).
    split.
    + unfold attempt_status_of. simpl. by rewrite !lookup_alter_eq, Ha.
    + intros _. unfold job_status_of. simpl. rewrite lookup_alter_eq, Hj. simpl.
      by rewrite decide_True.
    + by rewrite Ho.
  - assert (Hex : attempt_executing (at_status a) = true) by (by destruct (at_status a)).
    unfold insert_obligation. simpl. rewrite (executing_no_obligation db id a) by done.
    split; [|done|].
    + unfold attempt_status_of. simpl. by rewrite !lookup_alter_eq, Ha.
    + intros _. simpl. exists (db_next_obligation db). eexists. by rewrite lookup_insert_eq.
Qed.

Lemma expire_attempts_ne db id a id' :
  id' <> id -> db_attempts (expire_attempt env id a db) !! id' = db_attempts db !! id'.
Proof. intros Hne. unfold expire_attempt. simpl. by apply retire_attempts_ne. Qed.

Lemma expire_jobs_ne db id a job :
  job <> ar_job (at_row a) -> db_jobs (expire_attempt env id a db) !! job = db_jobs db !! job.
Proof.
  intros Hne. unfold expire_attempt, retire_attempt, insert_obligation.
  repeat case_match; simpl; by rewrite ?lookup_alter_ne.
Qed.

Lemma expire_obligations db id a ob o :
  fleet_ok db -> db_obligations db !! ob = Some o ->
  db_obligations (expire_attempt env id a db) !! ob = Some o.
Proof.
  intros Hok Hob. unfold expire_attempt, retire_attempt, insert_obligation.
  repeat case_match; simpl; try done. rewrite lookup_insert_ne; [done|].
  pose proof (fo_next _ Hok _ _ Hob). lia.
Qed.

Lemma expire_ok db id a :
  fleet_ok db -> db_attempts db !! id = Some a -> attempt_active (at_status a) = true ->
  fleet_ok (expire_attempt env id a db).
Proof.
  intros Hok Ha Hact. eapply (sim_trans _ (retire_attempt env A_Expired
    (lit "attempt lease expired before report projection")
    (lit "lease expired while local execution may exist") id a db)); [| |done].
  - apply sim_retire; [by left | done..].
  - unfold expire_attempt. frame.
Qed.

Definition expire_all (l : list (Uuid * Attempt)) (db : FleetDb) : FleetDb :=
  foldl (fun db '(id, a) => expire_attempt env id a db) db l.

(** What the rest of the loop does not disturb. *)
Lemma expire_all_frame l db :
  fleet_ok db -> NoDup (map fst l) ->
  Forall (fun e => db_attempts db !! e.1 = Some e.2 /\ attempt_active (at_status e.2) = true) l ->
  (forall id, id ∉ map fst l -> db_attempts (expire_all l db) !! id = db_attempts db !! id)
  /\ (forall job, job ∉ map (fun e => ar_job (at_row e.2)) l ->
        db_jobs (expire_all l db) !! job = db_jobs db !! job)
  /\ (forall ob o, db_obligations db !! ob = Some o ->
        db_obligations (expire_all l db) !! ob = Some o).
Proof.
  revert db. induction l as [|[id a] l IH]; intros db Hok Hnd Hf; [done|].
  inversion Hnd as [|? ? Hni Hnd']; subst. apply Forall_cons in Hf as [[Ha Hact] Hf].
  simpl in Ha, Hact, Hni.
  change (expire_all ((id, a) :: l) db) with (expire_all l (expire_attempt env id a db)).
  destruct (IH (expire_attempt env id a db)) as (H1 & H2 & H3);
    [by apply expire_ok | done | |].
  { apply Forall_forall. intros [id' a'] Hin. rewrite Forall_forall in Hf.
    destruct (Hf _ Hin) as [Ha' Hact']. split; [|done]. cbn [fst snd]. rewrite expire_attempts_ne; [done|].
    intros ->. apply Hni, list_elem_of_fmap. by exists (id, a'). }
  split_and!.
  - intros k Hk. apply not_elem_of_cons in Hk as [Hne Hk]. rewrite (H1 k Hk). by apply expire_attempts_ne.
  - intros k Hk. apply not_elem_of_cons in Hk as [Hne Hk]. rewrite (H2 k Hk). by apply expire_jobs_ne.
  - intros ob o Ho. apply H3. by apply expire_obligations.
Qed.

Lemma expire_all_settled l db :
  fleet_ok db -> NoDup (map fst l) -> NoDup (map (fun e => ar_job (at_row e.2)) l) ->
  Forall (fun e => db_attempts db !! e.1 = Some e.2 /\ attempt_active (at_status e.2) = true) l ->
  Forall (fun e => settled (expire_all l db) e.1 e.2) l.
Proof.
  revert db. induction l as [|[id a] l IH]; intros db Hok Hnd Hnj Hf; [constructor|].
  inversion Hnd as [|? ? Hni Hnd']; subst. inversion Hnj as [|? ? Hnij Hnj']; subst.
  apply Forall_cons in Hf as [[Ha Hact] Hf]. simpl in Ha, Hact, Hni, Hnij.
  set (db1 := expire_attempt env id a db).
  assert (Hf1 : Forall (fun e => db_attempts db1 !! e.1 = Some e.2
                          /\ attempt_active (at_status e.2) = true) l).
  { apply Forall_forall. intros [id' a'] Hin. rewrite Forall_forall in Hf.
    destruct (Hf _ Hin) as [Ha' Hact']. split; [|done]. cbn [fst snd]. unfold db1.
    rewrite expire_attempts_ne; [done|].
    intros ->. apply Hni, list_elem_of_fmap. by exists (id, a'). }
  pose proof (expire_ok db id a Hok Ha Hact) as Hok1. fold db1 in Hok1.
  destruct (expire_all_frame l db1 Hok1 Hnd' Hf1) as (F1 & F2 & F3).
  destruct (expire_settled db id a Hok Ha Hact) as [S1 S2 S3]. fold db1 in S1, S2, S3.
  constructor; [|by apply IH]. simpl. fold db1. split.
  - unfold attempt_status_of in *. by rewrite F1.
  - intros Ho. unfold job_status_of in *. rewrite F2 by done. by apply S2.
  - intros He. destruct (S3 He) as (ob & o & Hob & Hrest). exists ob, o. split; [|done].
    by apply F3.
Qed.
End Sweep.

(** Active attempts belong to different jobs. *)
Lemma active_rows_jobs (p : Uuid -> Attempt -> bool) db :
  fleet_ok db -> (forall id a, p id a = true -> attempt_active (at_status a) = true) ->
  NoDup (map (fun e => ar_job (at_row e.2)) (rows p (db_attempts db))).
Proof.
  intros Hok Hp. pose proof (rows_NoDup p (db_attempts db)) as Hnd.
  assert (Hin : forall id a, (id, a) ∈ rows p (db_attempts db) ->
            db_attempts db !! id = Some a /\ attempt_active (at_status a) = true).
  { intros id a Hin. apply elem_of_rows in Hin as [Ha Hx]. eauto. }
  revert Hnd Hin. induction (rows p (db_attempts db)) as [|[id a] l IH]; intros Hnd Hin;
    [constructor|].
  inversion Hnd as [|? ? Hni Hnd']; subst. simpl in *. constructor.
  - intros Hj. apply list_elem_of_fmap in Hj as ([id' a'] & Hj & Hin'). simpl in Hj.
    destruct (Hin id a ltac:(left)) as [Ha Hact].
    destruct (Hin id' a' ltac:(by right)) as [Ha' Hact'].
    assert (id = id') as <-.
    { eapply (active_job_unique _ (fo_life _ Hok)); [by apply view_attempt.. | done | done | done]. }
    apply Hni, list_elem_of_fmap. by exists (id, a').
  - apply IH; [done|]. intros id' a' Hin'. apply Hin. by right.
Qed.

Section Reachable.
Context `{DigestEnv} (scheduler : SchedulerPolicy) (protocol : ProtocolPolicy).
Notation after := (fleet_after scheduler protocol).

(** C15: The sweep is complete and exact.  When no row is locked, sweeping leaves
    no active attempt at or past its deadline; every attempt it found there is
    expired, with its job back in the queue if it was an offer, and otherwise
    with a pending cleanup obligation of its worker that requeues the job
    exactly when no cancellation was requested; every other attempt is
    untouched. *)
Theorem sweep_complete trace env :
  tx_locked env = ∅ ->
  let db := after trace in
  exists n db', expire_stale_attempts env db = Ok (n, db')
    /\ (forall id a, db_attempts db' !! id = Some a -> attempt_active (at_status a) = true ->
          tx_now env < attempt_deadline a)
    /\ (forall id a, db_attempts db !! id = Some a -> attempt_active (at_status a) = true ->
          attempt_deadline a <= tx_now env -> settled db' id a)
    /\ (forall id a, db_attempts db !! id = Some a ->
          attempt_active (at_status a) = false \/ tx_now env < attempt_deadline a ->
          db_attempts db' !! id = Some a).
Proof.
  intros Hl db. pose proof (after_ok scheduler protocol trace) as Hok. fold db in Hok.
  eexists _, _. split; [reflexivity|]. fold (expire_all env (stale_attempts env db) db).
  set (l := stale_attempts env db).
  assert (Hl_in : forall id a, (id, a) ∈ l <-> db_attempts db !! id = Some a
            /\ attempt_active (at_status a) = true /\ attempt_deadline a <= tx_now env).
  { intros id a. unfold l, stale_attempts. rewrite elem_of_rows, Hl, !andb_true_iff, Z.leb_le.
    rewrite (bool_decide_eq_false_2 (id ∈ ∅)) by set_solver. naive_solver. }
  assert (Hact : Forall (fun e => db_attempts db !! e.1 = Some e.2
                           /\ attempt_active (at_status e.2) = true) l).
  { apply Forall_forall. intros [id a] Hin. apply Hl_in in Hin. naive_solver. }
  assert (Hnd : NoDup (map fst l)) by apply rows_NoDup.
  assert (Hnj : NoDup (map (fun e => ar_job (at_row e.2)) l)).
  { apply active_rows_jobs; [done|]. intros id a Hp. by bool_hyps. }
  destruct (expire_all_frame env l db Hok Hnd Hact) as (F1 & _).
  pose proof (expire_all_settled env l db Hok Hnd Hnj Hact) as Hset.
  rewrite Forall_forall in Hset.
  assert (Hout : forall id a, db_attempts db !! id = Some a ->
            attempt_active (at_status a) = false \/ tx_now env < attempt_deadline a ->
            id ∉ map fst l).
  { intros id a Ha Hn Hin. apply list_elem_of_fmap in Hin as ([id' a'] & -> & Hin).
    apply Hl_in in Hin as (Ha' & Hac & Hd). simpl in Ha. rewrite Ha in Ha'. injection Ha' as <-.
    destruct Hn; [congruence | lia]. }
  split_and!.
  - intros id a Ha Hac. apply Z.nle_gt. intros Hd.
    destruct (decide (id ∈ map fst l)) as [Hin|Hn].
    + apply list_elem_of_fmap in Hin as ([id' a'] & -> & Hin).
      destruct (Hset _ Hin) as [Hs _ _]. simpl in Hs, Ha. unfold attempt_status_of in Hs.
      rewrite Ha in Hs. injection Hs as Hs. by rewrite Hs in Hac.
    + rewrite F1 in Ha by done. apply Hn, list_elem_of_fmap. exists (id, a).
      split; [done|]. by apply Hl_in.
  - intros id a Ha Hac Hd. exact (Hset (id, a) (proj2 (Hl_in id a) (conj Ha (conj Hac Hd)))).
  - intros id a Ha Hn. rewrite F1; [done|]. by eapply Hout.
Qed.
End Reachable.

Lemma sweep_complete_witness :
  exists n db', expire_stale_attempts (at_time 5000) demo_running = Ok (n, db')
    /\ exists a, at_status a = A_Running /\ settled db' demo_attempt a.
Proof.
  destruct running_attempt as (a & Ha & Hs).
  destruct (@sweep_complete demo_digest demo_scheduler demo_protocol trace_running (at_time 5000)
              eq_refl) as (n & db' & Hdb & Hactive & Hset & _).
  exists n, db'. split; [exact Hdb|]. exists a. split; [exact Hs|].
  apply Hset; [exact Ha | rewrite Hs; reflexivity |].
  destruct running_deadline as (a' & Ha' & Hd).
  assert (a' = a) as <- by congruence. exact Hd.
Defined.

(** ** Fleet aborts *)
Section Abort.
Context (env : TxEnv).

(** A cancellation reached the job: it is cancelled, or its execution is asked
    to stop, or its cleanup will not requeue it. *)
Definition aborting (db : FleetDb) (job : Uuid) : Prop :=
  exists j, db_jobs db !! job = Some j
    /\ (jb_status j = J_Cancelled
        \/ jb_status j = J_Running
           /\ ((exists id a, db_attempts db !! id = Some a /\ ar_job (at_row a) = job
                   /\ at_status a = A_CancelRequested)
               \/ (exists ob o, db_obligations db !! ob = Some o /\ ob_job o = job
                   /\ ob_status o = C_Pending /\ ob_requeue o = false))).

Lemma unstarted_aborting job j db :
  jb_status j = J_Queued \/ jb_status j = J_Claimed ->
  (cancel_unstarted job j db).1 = true /\ aborting (cancel_unstarted job j db).2 job.
Proof.
  intros Hs. unfold cancel_unstarted.
  destruct (jb_status j); try (by destruct Hs); (split; [done|]; simpl; eexists;
    simpl; rewrite lookup_insert_eq; split; [done | by left]).
Qed.

Lemma cancel_job_unstarted job j db :
  jb_status j <> J_Running -> cancel_job job j db = cancel_unstarted job j db.
Proof.
  intros Hn. unfold cancel_job. by rewrite bool_decide_eq_false_2, andb_false_r.
Qed.

Lemma cancel_job_running job j db ob o :
  db_jobs db !! job = Some j -> jb_status j = J_Running ->
  db_obligations db !! ob = Some o -> ob_job o = job -> ob_status o = C_Pending ->
  (cancel_job job j db).1 = true /\ aborting (cancel_job job j db).2 job.
Proof.
  intros Hj Hs Hob Hjob Hp. unfold cancel_job.
  assert (Hm : job_pending_cleanup job o = true)
    by (unfold job_pending_cleanup; by rewrite Hjob, Z.eqb_refl, bool_decide_eq_true_2).
  assert (He : exists_row (fun _ o => job_pending_cleanup job o) (db_obligations db) = true)
    by (apply exists_row_true; by exists ob, o).
  rewrite He, bool_decide_eq_true_2 by done. split; [done|]. simpl.
  exists j. split; [done|]. right. split; [done|]. right. exists ob. eexists. simpl.
  rewrite lookup_update_where, Hob. simpl. rewrite Hm. by split_and!.
Qed.

(** A cancellation reaches every unfinished job. *)
Lemma request_aborts job j db :
  fleet_ok db -> db_jobs db !! job = Some j -> job_terminal (jb_status j) = false ->
  (cancellation_request env job db).1 = true /\ aborting (cancellation_request env job db).2 job.
Proof.
  intros Hok Hj Hnt. unfold cancellation_request. rewrite Hj.
  rewrite decide_False by (intros Hc; by rewrite Hc in Hnt).
  destruct (active_attempt_of job db) as [[id a]|] eqn:Ea.
  - apply active_attempt_of_Some in Ea as (Ha & Hjob & Hact).
    destruct (attempt_executing (at_status a)) eqn:Hex.
    + destruct (executing_job_row db id a Hok Ha Hex) as (j' & Hj' & Hs & _).
      rewrite Hjob, Hj in Hj'. injection Hj' as <-. split; [done|]. simpl.
      exists j. split; [done|]. right. split; [done|]. left. exists id. eexists. simpl.
      rewrite lookup_alter_eq, Ha. by split_and!.
    + assert (Ho : at_status a = A_Offered) by (by destruct (at_status a)).
      destruct (offered_job_row db id a Hok Ha Ho) as (j' & Hj' & Hs & _).
      rewrite Hjob, Hj in Hj'. injection Hj' as <-.
      rewrite cancel_job_unstarted by congruence. apply unstarted_aborting. by right.
  - destruct (decide (jb_status j = J_Running)) as [Hs|Hn].
    + destruct (running_accounted db Hok job j Hj Hs)
        as [(id & a & Hact & _)|(_ & [ob o] & Hp)].
      * exfalso. unfold active_attempt_of in Ea. unfold active_attempts in Hact.
        by rewrite Hact in Ea.
      * assert (Hin : (ob, o) ∈ pending_cleanups job db) by (rewrite Hp; left).
        apply elem_of_rows in Hin as [Hob Hm]. unfold job_pending_cleanup in Hm. bool_hyps.
        eapply cancel_job_running; eauto. lia.
    + rewrite cancel_job_unstarted by done. apply unstarted_aborting.
      destruct (jb_status j); try done; auto.
Qed.

(** It leaves the other jobs alone. *)
Lemma request_frame job job' db :
  job' <> job -> let db1 := (cancellation_request env job db).2 in
  db_jobs db1 !! job' = db_jobs db !! job'
  /\ (forall id a, db_attempts db !! id = Some a -> ar_job (at_row a) = job' ->
        db_attempts db1 !! id = Some a)
  /\ (forall ob o, db_obligations db !! ob = Some o -> ob_job o = job' ->
        db_obligations db1 !! ob = Some o).
Proof.
  intros Hne. unfold cancellation_request.
  assert (Hcj : forall j d, let d1 := (cancel_job job j d).2 in
      db_jobs d1 !! job' = db_jobs d !! job' /\ db_attempts d1 = db_attempts d
      /\ (forall ob o, db_obligations d !! ob = Some o -> ob_job o = job' ->
            db_obligations d1 !! ob = Some o)).
  { intros j d. unfold cancel_job, cancel_unstarted.
    repeat case_match; simpl; split_and!; try done; try (by rewrite lookup_insert_ne).
    intros ob o Hob Hjob. rewrite lookup_update_where, Hob. simpl.
    unfold job_pending_cleanup. by rewrite (proj2 (Z.eqb_neq (ob_job o) job)) by congruence. }
  destruct (db_jobs db !! job) as [j|]; [|done]. destruct (decide _); [done|].
  destruct (active_attempt_of job db) as [[id a]|] eqn:Ea.
  - apply active_attempt_of_Some in Ea as (Ha & Hjob & _).
    assert (Hid : forall id' a', db_attempts db !! id' = Some a' -> ar_job (at_row a') = job' ->
              id <> id') by (intros id' a' Ha' Hj' ->; congruence).
    destruct (attempt_executing _); simpl.
    + split_and!; try done. intros id' a' Ha' Hj'. rewrite lookup_alter_ne; [done|]. by eapply Hid.
    + destruct (Hcj j (fence_offer env id a db)) as (H1 & H2 & H3). split_and!; try done.
      intros id' a' Ha' Hj'. rewrite H2. simpl. by rewrite !lookup_alter_ne by (by eapply Hid).
  - destruct (Hcj j db) as (H1 & H2 & H3). split_and!; try done. intros. by rewrite H2.
Qed.

Lemma aborting_frame job job' db :
  job' <> job -> aborting db job' -> aborting (cancellation_request env job db).2 job'.
Proof.
  intros Hne (j & Hj & Hc). destruct (request_frame job job' db Hne) as (H1 & H2 & H3).
  exists j. split; [by rewrite H1|]. destruct Hc as [|[Hs [(id & a & ? & ? & ?)|(ob & o & ? & ? & ?)]]];
    [by left | right; split; [done|left; exists id, a; eauto] | right; split; [done|right]].
  exists ob, o. eauto.
Qed.

Lemma aborting_all_frame jobs job db :
  job ∉ jobs -> aborting db job -> aborting (cancel_all env jobs db).2 job.
Proof.
  revert db. induction jobs as [|job' jobs IH]; intros db Hn Hab; [done|].
  apply not_elem_of_cons in Hn as [Hne Hn]. simpl.
  pose proof (aborting_frame job' job db Hne Hab) as H1.
  destruct (cancellation_request env job' db) as [ok db1]. specialize (IH db1 Hn H1).
  by destruct (cancel_all env jobs db1).
Qed.

Lemma cancel_all_reaches jobs db :
  fleet_ok db -> NoDup jobs ->
  (forall job, job ∈ jobs -> exists j, db_jobs db !! job = Some j
     /\ job_terminal (jb_status j) = false) ->
  (cancel_all env jobs db).1 = jobs /\ Forall (aborting (cancel_all env jobs db).2) jobs.
Proof.
  revert db. induction jobs as [|job jobs IH]; intros db Hok Hnd Hall; [done|].
  inversion Hnd as [|? ? Hni Hnd']; subst. simpl.
  destruct (Hall job ltac:(left)) as (j & Hj & Hnt).
  destruct (request_aborts job j db Hok Hj Hnt) as [Hb Hab].
  pose proof (proj2 (sim_cancellation env job db Hok)) as Hok1.
  pose proof (fun job' => request_frame job job' db) as Hfr.
  destruct (cancellation_request env job db) as [ok db1]. simpl in *. subst ok.
  destruct (IH db1 Hok1 Hnd') as [H1 H2].
  { intros job' Hin. destruct (Hall job' ltac:(by right)) as (j' & Hj' & Hnt').
    exists j'. split; [|done]. destruct (Hfr job') as (-> & _); [|done].
    intros ->. done. }
  pose proof (aborting_all_frame jobs job db1 Hni Hab) as H3.
  destruct (cancel_all env jobs db1) as [acc db2]. simpl in *. subst acc.
  split; [done|]. by constructor.
Qed.
End Abort.

Section AbortReachable.
Context `{DigestEnv} (scheduler : SchedulerPolicy) (protocol : ProtocolPolicy).
Notation after := (fleet_after scheduler protocol).

(** An abort reaches everything it selects.  The first abort under a request
    identifier selects every running job, and with the scope [all_pending] also
    every queued or claimed one; each of them accepts the cancellation, so the
    receipt's accepted list is its selection; and afterwards each selected job
    is cancelled, or its execution is asked to cancel, or its pending cleanup no
    longer requeues it. *)
Theorem abort_reaches_selection trace env r receipt db' :
  let db := after trace in
  db_abort_audit db !! fa_request_id r = None ->
  abort_fleet env r db = Ok (Abort_Applied receipt, db') ->
  fr_accepted receipt = fr_selected receipt
  /\ (forall job, job ∈ fr_selected receipt <->
        exists j, db_jobs db !! job = Some j
          /\ (jb_status j = J_Running \/ fa_scope r = Scope_AllPending
                 /\ (jb_status j = J_Queued \/ jb_status j = J_Claimed)))
  /\ Forall (aborting db') (fr_selected receipt).
Proof.
  intros db Hnew Hr. pose proof (after_ok scheduler protocol trace) as Hok. fold db in Hok.
  unfold abort_fleet in Hr. head_case Hr E1; [done|]. rewrite Hnew in Hr. head_case Hr E2; [done|].
  assert (Hsel : forall job, job ∈ abort_selection (fa_scope r) db <->
        exists j, db_jobs db !! job = Some j
          /\ (jb_status j = J_Running \/ fa_scope r = Scope_AllPending
                 /\ (jb_status j = J_Queued \/ jb_status j = J_Claimed))).
  { intros job. unfold abort_selection. rewrite sort_by_perm, list_elem_of_fmap. split.
    - intros ([id j] & -> & Hin). apply elem_of_rows in Hin as [Hj Hp]. exists j.
      split; [done|]. destruct (jb_status j); try done; bool_hyps; naive_solver.
    - intros (j & Hj & Hc). exists (job, j). split; [done|]. apply elem_of_rows.
      split; [done|]. destruct Hc as [-> | [-> [-> | ->]]]; done. }
  assert (Hnd : NoDup (abort_selection (fa_scope r) db)).
  { unfold abort_selection. rewrite sort_by_perm. apply rows_NoDup. }
  destruct (cancel_all_reaches env (abort_selection (fa_scope r) db) db Hok Hnd) as [H1 H2].
  { intros job Hin. apply Hsel in Hin as (j & Hj & Hc). exists j. split; [done|].
    destruct Hc as [-> | [_ [-> | ->]]]; done. }
  destruct (cancel_all env _ db) as [acc db1]. simpl in H1, H2. subst acc.
  injection Hr as <- <-. simpl. split_and!; try done.
Qed.
End AbortReachable.

(** The scheduler is paused while one job runs; then everything is aborted. *)
Definition trace_paused : list FleetOp := trace_running ++ [Op_ChangeScheduler (at_time 40) demo_pause].
Definition demo_abort : FleetAbortRequest :=
  {| fa_request_id := 88; fa_scope := Scope_AllPending; fa_scheduler_generation := 2;
     fa_actor := lit "op"; fa_reason := lit "stop" |}.
Lemma demo_aborts :
  db_abort_audit (demo_db trace_paused) !! fa_request_id demo_abort = None
  /\ exists receipt db', abort_fleet (at_time 50) demo_abort (demo_db trace_paused)
                         = Ok (Abort_Applied receipt, db')
       /\ fr_selected receipt = [demo_job; 2000].
Proof.
  split; [vm_compute; reflexivity|].
  assert (E : match abort_fleet (at_time 50) demo_abort (demo_db trace_paused) with
              | Ok (Abort_Applied r, _) => bool_decide (fr_selected r = [demo_job; 2000])
              | _ => false end = true) by (vm_compute; reflexivity).
  destruct (abort_fleet _ _ _) as [[[r| |] d]|]; try discriminate E.
  exists r, d. split; [reflexivity|]. by apply bool_decide_eq_true in E.
Qed.
Lemma abort_reaches_selection_witness : exists db', Forall (aborting db') [demo_job; 2000].
Proof.
  destruct demo_aborts as (Hnew & receipt & db' & Hdb & Hsel). exists db'. rewrite <- Hsel.
  exact (proj2 (proj2 (@abort_reaches_selection demo_digest demo_scheduler demo_protocol
    trace_paused (at_time 50) demo_abort receipt db' Hnew Hdb))).
Defined.
