(* ===== verification/FleetAdmission.v ===== *)
(** * Admission verdicts and the compatibility floor

    The maintenance snapshot promises that an unblocked worker gets work, and a
    raised protocol floor leaves no enabled worker behind. *)
From stdpp Require Import base list strings gmap relations.
From Stdlib Require Import ZArith Lia.
From S2P Require Import Prelude RustStr Json FleetModel Negotiation Validate FleetDb.
From S2P Require Import FleetSessions FleetScheduling FleetEvents FleetAdmin FleetSpec.
From S2P Require Import FleetRefine FleetSystem FleetDemo FleetSafety FleetRetry FleetPolicy.
From S2P Require Import FleetSweep.

Local Open Scope Z_scope.

Section Counts.
Lemma count_zero {K A} `{Countable K} (p : K -> A -> bool) (m : gmap K A) :
  count p m = 0 <-> forall k a, m !! k = Some a -> p k a = false.
Proof.
  unfold count. split.
  - intros Hc k a Hk. destruct (p k a) eqn:Hp; [|done]. exfalso.
    assert (Hin : (k, a) ∈ rows p m) by (by apply elem_of_rows).
    destruct (rows p m); [by apply not_elem_of_nil in Hin | simpl in Hc; lia].
  - intros Hn. by rewrite rows_nil.
Qed.

Lemma first_by_None {A} (lt : A -> A -> bool) l : first_by lt l = None -> l = [].
Proof. destruct l as [|x l]; simpl; [done|]. by destruct (first_by lt l). Qed.
End Counts.

(** ** The compatibility floor *)

(** Raising the floor strands nobody.  A first request that raises the
    minimum revision is applied only while the scheduler is paused, no attempt
    is active, no cleanup is pending and every received event is projected, and
    only when every enabled worker has a live, unexpired session that negotiated
    at least the new revision; the policy then carries the new revision under
    the next generation. *)
Theorem floor_raise_converged env c db p db' :
  db_protocol_audit db !! pch_request_id c = None ->
  pp_minimum_revision (db_protocol db) < pch_minimum_revision c ->
  change_protocol_policy env c db = Ok (Floor_Applied p, db') ->
  sp_paused (db_scheduler db) = true
  /\ (forall id a, db_attempts db !! id = Some a ->
        attempt_active (at_status a) = false /\ at_contiguous a <= at_projected a)
  /\ (forall ob o, db_obligations db !! ob = Some o -> ob_status o <> C_Pending)
  /\ (forall worker w, db_workers db !! worker = Some w -> wk_enabled w = true ->
        exists session s, db_sessions db !! session = Some s /\ sr_worker (ws_row s) = worker
          /\ session_live (ws_status s) = true /\ tx_clock env < ws_expires_at s
          /\ pch_minimum_revision c <= pc_revision (sr_contract (ws_row s)))
  /\ pp_minimum_revision (db_protocol db') = pch_minimum_revision c
  /\ pp_generation (db_protocol db') = pp_generation (db_protocol db) + 1.
Proof.
  intros Hnew Hlt Hr. unfold change_protocol_policy, ensure in Hr.
  destruct (in_window (pch_minimum_revision c)); [|done]. simpl in Hr.
  destruct (bounded_text _ _ && _ && _); [|done]. simpl in Hr.
  destruct (in_window (pp_minimum_revision (db_protocol db))); [|done]. simpl in Hr.
  rewrite Hnew in Hr.
  rewrite (proj2 (Z.eqb_neq (pp_minimum_revision (db_protocol db)) (pch_minimum_revision c))) in Hr
    by lia.
  rewrite (proj2 (Z.ltb_lt _ _) Hlt) in Hr. simpl in Hr.
  head_case Hr E1; [done|]. apply orb_false_iff in E1 as [Ep Eb]. head_case Hr E2; [done|].
  injection Hr as _ <-. apply negb_false_iff in E2, Ep.
  unfold busy in Eb. rewrite !orb_false_iff, !negb_false_iff, !Z.eqb_eq in Eb.
  destruct Eb as [[[Ea Ec] Epr] _]. simpl in Ea, Ec, Epr.
  pose proof (proj1 (count_zero _ _) Ea) as Ha0. pose proof (proj1 (count_zero _ _) Ec) as Hc0.
  pose proof (proj1 (count_zero _ _) Epr) as Hp0.
  split_and!; try done.
  - intros id a Ha. specialize (Ha0 id a Ha). specialize (Hp0 id a Ha). cbv beta in *.
    split; [done | lia].
  - intros ob o Ho Hp. specialize (Hc0 ob o Ho). cbv beta in Hc0.
    by rewrite bool_decide_eq_true_2 in Hc0.
  - intros worker w Hw Hen. destruct (not_converged env (pch_minimum_revision c) db) eqn:En; [|done].
    unfold not_converged in En.
    assert (Hrows : map fst (rows (fun id w => wk_enabled w && negb (exists_row (fun _ s =>
        (sr_worker (ws_row s) =? id) && bool_decide (ws_ended_at s = None)
        && (tx_clock env <? ws_expires_at s) && session_live (ws_status s)
        && (pch_minimum_revision c <=? pc_revision (sr_contract (ws_row s)))) (db_sessions db)))
        (db_workers db)) = []).
    { apply Permutation_nil. rewrite <- En. apply sort_by_perm. }
    apply map_eq_nil in Hrows. clear En.
    match type of Hrows with rows ?q _ = _ => assert (Hq : q worker w = false) end.
    { apply not_true_is_false. intros Hq.
      assert (Hin : (worker, w) ∈ @nil (Uuid * Worker)) by (rewrite <- Hrows; by apply elem_of_rows).
      by apply not_elem_of_nil in Hin. }
    cbv beta in Hq. rewrite Hen in Hq. simpl in Hq. apply negb_false_iff, exists_row_true in Hq
      as (session & s & Hs & Hp). bool_hyps. exists session, s. split_and!; try done; lia.
Qed.

(** ** Admission *)
Section Admission.
Lemma blockers_nil m :
  admission_blockers m = [] ->
  mt_enabled m = true /\ mt_cordoned m = false /\ mt_scheduler_paused m = false
  /\ mt_session_live m = true
  /\ (exists st, mt_session_status m = Some st /\ session_polls st = true)
  /\ mt_protocol_compatible m = true /\ mt_effective m <> ∅
  /\ (forall s, mt_session m = Some s -> mt_shutdown_session m <> Some s)
  /\ mt_active_attempts m = 0 /\ mt_pending_cleanup m = 0.
Proof.
  unfold admission_blockers. intros Hb.
  cbn [omap list_omap] in Hb.
  repeat (match type of Hb with match (if ?b then _ else _) with _ => _ end = [] =>
            destruct b eqn:?; [discriminate Hb|] end).
  clear Hb. bool_hyps. split_and!; try done; try lia.
  - destruct (mt_session_status m) as [[]|]; try done; eauto.
  - intros s Hs Hsh. rewrite Hs, Hsh in *. simpl in *. by rewrite bool_decide_eq_true_2 in *.
Qed.

(** A fresh offer violates no constraint of the attempt table. *)
Lemma insert_attempt_fresh db id a :
  fleet_ok db -> lifecycle_linked (lifecycle_of db) ->
  (forall j, db_jobs db !! ar_job (at_row a) = Some j ->
     jr_submission (jb_row j) = ar_submission (at_row a)) ->
  db_attempts db !! id = None ->
  (forall k b, db_attempts db !! k = Some b -> ar_trace (at_row b) <> ar_trace (at_row a)) ->
  (forall k b, db_attempts db !! k = Some b ->
     ar_submission (at_row b) = ar_submission (at_row a) ->
     attempt_active (at_status b) = false /\ ar_fence (at_row b) < ar_fence (at_row a)) ->
  insert_attempt id a db = Ok (with_attempts <[id := a]> db).
Proof.
  intros Hok Hl Hjob Hid Htr Hsub. unfold insert_attempt. rewrite Hid.
  assert (Hj : forall k b, db_attempts db !! k = Some b -> ar_job (at_row b) = ar_job (at_row a) ->
            ar_submission (at_row b) = ar_submission (at_row a)).
  { intros k b Hb He. destruct (Hl k _ (view_attempt db k b Hb)) as (lj & Hlj & Hs).
    simpl in Hlj, Hs. apply lookup_view_inv in Hlj as (j & Hj & ->). simpl in Hs.
    rewrite He in Hj. rewrite <- (Hjob j Hj). done. }
  assert (Hno : forall f, (forall k b, db_attempts db !! k = Some b -> f b = false) ->
            exists_row (fun _ b => f b) (db_attempts db) = false)
    by (intros f Hf; by apply exists_row_false).
  repeat match goal with |- context [exists_row (fun _ b => @?f b) (db_attempts db)] =>
    rewrite (Hno f); [|intros k b Hb; cbv beta] end; [done|..].
  - destruct (Z.eqb_spec (ar_submission (at_row b)) (ar_submission (at_row a))); [|done].
    by destruct (Hsub k b Hb).
  - destruct (Z.eqb_spec (ar_job (at_row b)) (ar_job (at_row a))) as [He|]; [|done].
    destruct (Hsub k b Hb (Hj k b Hb He)). simpl. done.
  - destruct (Z.eqb_spec (ar_job (at_row b)) (ar_job (at_row a))) as [He|]; [|done].
    destruct (Hsub k b Hb (Hj k b Hb He)). simpl. apply Z.eqb_neq. lia.
  - apply Z.eqb_neq. by eapply Htr.
Qed.

(** Making an offer in a well-formed database succeeds. *)
Lemma make_offer_succeeds env ids worker session ot lt profile job j payload hash commit db sub :
  fleet_ok db -> lifecycle_linked (lifecycle_of db) ->
  db_jobs db !! job = Some j -> db_submissions db !! jr_submission (jb_row j) = Some sub ->
  (forall k a, db_attempts db !! k = Some a ->
     ar_submission (at_row a) = jr_submission (jb_row j) ->
     attempt_active (at_status a) = false) ->
  db_attempts db !! pi_attempt ids = None ->
  (forall k b, db_attempts db !! k = Some b -> ar_trace (at_row b) <> pi_trace ids) ->
  exists o db', make_offer env ids worker session ot lt profile job j payload hash commit db
                = Ok (Some o, db')
    /\ wo_job_id (oa_offer o) = job
    /\ ai_fencing_generation (wo_identity (oa_offer o)) = sb_fencing_generation sub + 1
    /\ attempt_status_of (pi_attempt ids) db' = Some A_Offered
    /\ job_status_of job db' = Some J_Claimed.
Proof.
  intros Hok Hl Hj Hsub Hfree Hid Htr. unfold make_offer. rewrite Hsub.
  set (a := {| at_row := _ |}). set (db1 := with_jobs _ _).
  assert (Hins : insert_attempt (pi_attempt ids) a db1
                 = Ok (with_attempts <[pi_attempt ids := a]> db1)).
  { assert (He : insert_attempt (pi_attempt ids) a db
                 = Ok (with_attempts <[pi_attempt ids := a]> db)).
    { apply insert_attempt_fresh; try done.
      - intros j' Hj'. simpl in Hj'. by simplify_eq.
      - intros k b Hb Hs. split; [by eapply Hfree|]. simpl in *.
        destruct (li_fence _ (fo_life _ Hok) k _ (view_attempt db k b Hb)) as (f & Hf & Hbd & _).
        simpl in Hf, Hbd. rewrite Hs, lookup_fmap, Hsub in Hf. simpl in Hf. injection Hf as <-. lia. }
    revert He. unfold insert_attempt. simpl. by repeat case_match. }
  rewrite Hins. eexists _, _. split; [reflexivity|]. simpl. split_and!; try done.
  - unfold attempt_status_of. simpl. by rewrite lookup_insert_eq.
  - unfold job_status_of. simpl. by rewrite lookup_insert_eq.
Qed.
End Admission.

Section Snapshot.
Context (env : TxEnv) (worker : Uuid) (db : FleetDb) (m : WorkerMaintenanceSnapshot)
        (session : Uuid).
Hypothesis (Hm : worker_maintenance_snapshot env worker db = Some m)
           (Hb : admission_blockers m = []) (Hs : mt_session m = Some session)
           (Hclock : tx_now env <= tx_clock env).

(** The rows behind an unblocked snapshot. *)
Lemma unblocked_rows : exists s w,
  authorized_rows worker session db = Some (s, w)
  /\ wk_profile w = mt_profile m /\ mt_protocol m = Some (sr_contract (ws_row s))
  /\ mt_effective m = filter (fun c => supports_capability (sr_contract (ws_row s)) c = true)
                        (sr_advertised (ws_row s) ∩ wk_allowed w)
  /\ (tx_now env <? ws_expires_at s) && session_polls (ws_status s) = true
  /\ pp_minimum_revision (db_protocol db) <= pc_revision (sr_contract (ws_row s))
  /\ validate_selection ProtocolOffer_current (sr_contract (ws_row s)) = Ok tt
  /\ wk_draining w = false /\ wk_shutdown_session w <> Some session.
Proof.
  unfold worker_maintenance_snapshot in Hm. set (current := ProtocolOffer_current) in *.
  clearbody current. destruct (db_workers db !! worker) as [w|] eqn:Ew; [|done].
  destruct (latest_session (fun _ => true) worker db) as [[id s]|] eqn:El;
    injection Hm as Em; subst m; [|done].
  simpl in Hs. injection Hs as ->.
  destruct (blockers_nil _ Hb) as (H1 & H2 & _ & H4 & (st & H5 & H5') & H6 & H7 & H8 & _).
  simpl in H1, H2, H4, H5, H6, H7, H8. injection H5 as <-.
  apply first_by_elem, elem_of_rows in El as [Hses Hw]. bool_hyps.
  exists s, w. unfold authorized_rows. rewrite Hses, Ew, H1.
  match goal with E : (sr_worker (ws_row s) =? worker) = true |- _ => rewrite E end.
  rewrite bool_decide_eq_false_2
    by (intros Hemp; apply H7; rewrite Hemp; set_solver). simpl.
  split_and!; try done.
  - apply andb_true_iff. split; [apply Z.ltb_lt; lia | done].
  - lia.
  - destruct (validate_selection _ _) as [[]|]; done.
  - by apply H8.
Qed.

Lemma unblocked_counts :
  sp_paused (db_scheduler db) = false /\ has_pending_cleanup worker db = false
  /\ (forall id a, db_attempts db !! id = Some a -> ar_worker (at_row a) = worker ->
        attempt_active (at_status a) = false).
Proof.
  unfold worker_maintenance_snapshot in Hm.
  destruct (db_workers db !! worker) as [w|]; [|done]. injection Hm as Em. subst m.
  destruct (blockers_nil _ Hb) as (_ & _ & H3 & _ & _ & _ & _ & _ & H9 & H10).
  simpl in H3, H9, H10. split_and!; [done| |].
  - apply exists_row_false. exact (proj1 (count_zero _ _) H10).
  - intros id a Ha Hw. pose proof (proj1 (count_zero _ _) H9 id a Ha) as Hz. cbv beta in Hz.
    by rewrite Hw, Z.eqb_refl in Hz.
Qed.
End Snapshot.

Section Reachable.
Context `{DigestEnv} (scheduler : SchedulerPolicy) (protocol : ProtocolPolicy).
Notation after := (fleet_after scheduler protocol).

(** C24: An unblocked worker gets work.  If the maintenance snapshot reports no
    admission blocker for the worker, and the first job of the queue it may run
    has a payload its contract supports, then a poll of its current session (drawing
    unused attempt and trace identifiers, under a supported floor) returns an
    offer for that job, under the submission's next fence; the job is
    claimed and no database constraint can refuse it. *)
Theorem unblocked_worker_is_offered trace env ids worker session ot lt m job j payload hash
    commit contract :
  let db := after trace in
  worker_maintenance_snapshot env worker db = Some m -> admission_blockers m = [] ->
  mt_session m = Some session -> mt_protocol m = Some contract ->
  in_window (pp_minimum_revision (db_protocol db)) = true -> tx_now env <= tx_clock env ->
  next_job env worker (mt_profile m) (mt_effective m) db = Some (job, j) ->
  jb_payload j = Some (payload, hash) -> jb_commit j = Some commit ->
  supports_payload contract payload = true ->
  db_attempts db !! pi_attempt ids = None ->
  (forall k b, db_attempts db !! k = Some b -> ar_trace (at_row b) <> pi_trace ids) ->
  exists o db' sub, poll_offer env ids worker session ot lt db = Ok (Some o, db')
    /\ wo_job_id (oa_offer o) = job
    /\ db_submissions db !! jr_submission (jb_row j) = Some sub
    /\ ai_fencing_generation (wo_identity (oa_offer o)) = sb_fencing_generation sub + 1
    /\ attempt_status_of (pi_attempt ids) db' = Some A_Offered
    /\ job_status_of job db' = Some J_Claimed.
Proof.
  intros db Hm Hb Hs Hp Hwin Hclock Hnext Hpay Hcom Hsup Hid Htr.
  destruct (unblocked_rows env worker db m session Hm Hb Hs Hclock)
    as (s & w & Hrows & Hprof & Hcon & Heff & Hpoll & Hfl & Hsel & Hdr & Hsh).
  destruct (unblocked_counts env worker db m session Hm Hb Hs) as (Hopen & Hclean & Hidle).
  rewrite Hcon in Hp. injection Hp as <-.
  destruct (next_job_spec _ _ _ _ _ _ _ Hnext) as [Hj Hsch].
  destruct (schedulable_spec _ _ _ _ _ Hsch) as (_ & Hfree & sub & Hsub).
  unfold poll_offer, lock_protocol_policy. rewrite Hwin. cbn [map_err].
  rewrite Hrows, Hpoll, Hsel. simpl negb. cbv iota beta. cbn [map_err].
  rewrite (proj2 (Z.ltb_ge _ _) Hfl), Hdr, Hopen, Hclean.
  rewrite (bool_decide_eq_false_2 _ Hsh). simpl orb. cbv iota.
  destruct (existing_offer env worker session db) as [[k b]|] eqn:Eo.
  { exfalso. apply first_by_elem, elem_of_rows in Eo as [Hk Hx]. bool_hyps.
    assert (Hact : attempt_active (at_status b) = false) by (eapply Hidle; [exact Hk | lia]).
    match goal with E : at_status b = A_Offered |- _ => by rewrite E in Hact end. }
  rewrite <- Heff, Hprof, Hnext, Hpay, Hcom, Hsup. simpl negb. cbv iota.
  set (renewed := with_sessions _ db).
  assert (Hok : fleet_ok renewed)
    by (destruct (after_ok scheduler protocol trace) as [Hlife Hseq]; exact (Build_fleet_ok renewed Hlife Hseq)).
  destruct (make_offer_succeeds env ids worker session ot lt (mt_profile m) job j payload hash
              commit renewed sub Hok (after_linked scheduler protocol trace) Hj Hsub Hfree Hid Htr)
    as (o & db' & Ho & H1 & H2 & H3 & H4).
  exists o, db', sub. exact (conj Ho (conj H1 (conj Hsub (conj H2 (conj H3 H4))))).
Qed.
End Reachable.

(** ** The theorems at concrete traces *)
Lemma demo_unblocked : exists m j payload hash commit contract,
  worker_maintenance_snapshot (at_time 5) demo_worker demo_queued = Some m
  /\ admission_blockers m = [] /\ mt_session m = Some demo_session
  /\ mt_protocol m = Some contract
  /\ next_job (at_time 5) demo_worker (mt_profile m) (mt_effective m) demo_queued
     = Some (demo_job, j)
  /\ jb_payload j = Some (payload, hash) /\ jb_commit j = Some commit
  /\ supports_payload contract payload = true.
Proof.
  assert (E : match worker_maintenance_snapshot (at_time 5) demo_worker demo_queued with
    | Some m =>
        (length (admission_blockers m) =? 0)%nat && bool_decide (mt_session m = Some demo_session)
        && match mt_protocol m, next_job (at_time 5) demo_worker (mt_profile m) (mt_effective m)
                                  demo_queued with
           | Some c, Some (job, j) => (job =? demo_job)
               && match jb_payload j, jb_commit j with
                  | Some (p, _), Some _ => supports_payload c p | _, _ => false end
           | _, _ => false
           end
    | None => false end = true) by (vm_compute; reflexivity).
  destruct (worker_maintenance_snapshot _ _ _) as [m|]; [|discriminate E].
  apply andb_prop in E as [E1 E]. apply andb_prop in E1 as [E1 E2].
  apply Nat.eqb_eq, nil_length_inv in E1. apply bool_decide_eq_true in E2.
  destruct (mt_protocol m) as [c|] eqn:Ec; [|discriminate E].
  destruct (next_job _ _ _ _ _) as [[job j]|] eqn:Ej; [|discriminate E].
  apply andb_prop in E as [E3 E]. apply Z.eqb_eq in E3. subst job.
  destruct (jb_payload j) as [[p h]|] eqn:Ep; [|discriminate E].
  destruct (jb_commit j) as [cm|] eqn:Em; [|discriminate E].
  exists m, j, p, h, cm, c. repeat (split; [assumption || reflexivity|]). exact E.
Qed.
Lemma demo_no_attempts : db_attempts demo_queued = ∅.
Proof. apply map_size_empty_inv. vm_compute. reflexivity. Qed.
Lemma demo_floor : in_window (pp_minimum_revision (db_protocol demo_queued)) = true.
Proof. vm_compute. reflexivity. Qed.

Lemma unblocked_worker_is_offered_witness : exists o db',
  poll_offer (at_time 5) (demo_ids 50) demo_worker demo_session 100 1000 demo_queued
    = Ok (Some o, db')
  /\ wo_job_id (oa_offer o) = demo_job.
Proof.
  destruct demo_unblocked as (m & j & p & h & cm & c & H1 & H2 & H3 & H4 & H5 & H6 & H7 & H8).
  destruct (@unblocked_worker_is_offered demo_digest demo_scheduler demo_protocol demo_setup
    (at_time 5) (demo_ids 50) demo_worker demo_session 100 1000 m demo_job j p h cm c
    H1 H2 H3 H4 demo_floor ltac:(reflexivity) H5 H6 H7 H8) as (o & db' & _ & Ho & Hj & _).
  - rewrite demo_no_attempts. apply lookup_empty.
  - intros k b Hb. rewrite demo_no_attempts, lookup_empty in Hb. discriminate Hb.
  - exists o, db'. exact (conj Ho Hj).
Defined.

(** The scheduler is paused before any offer; the floor moves to revision 2. *)
Definition trace_maintenance : list FleetOp :=
  demo_setup ++ [Op_ChangeScheduler (at_time 40) demo_pause].
Definition demo_raise : ProtocolPolicyChange :=
  {| pch_request_id := 99; pch_minimum_revision := 2; pch_actor := lit "op";
     pch_reason := lit "upgrade"; pch_rollback_evidence := lit "ticket" |}.
Lemma demo_raises :
  db_protocol_audit (demo_db trace_maintenance) !! pch_request_id demo_raise = None
  /\ pp_minimum_revision (db_protocol (demo_db trace_maintenance)) < 2
  /\ exists p db', change_protocol_policy (at_time 50) demo_raise (demo_db trace_maintenance)
                   = Ok (Floor_Applied p, db').
Proof.
  split; [vm_compute; reflexivity|]. split; [vm_compute; reflexivity|].
  assert (E : match change_protocol_policy (at_time 50) demo_raise (demo_db trace_maintenance) with
              | Ok (Floor_Applied _, _) => true | _ => false end = true)
    by (vm_compute; reflexivity).
  destruct (change_protocol_policy _ _ _) as [[[p| | |missing] d]|]; try discriminate E.
  exists p, d. reflexivity.
Qed.
Lemma floor_raise_converged_witness :
  exists db', pp_minimum_revision (db_protocol db') = pch_minimum_revision demo_raise.
Proof.
  destruct demo_raises as (H1 & H2 & p & db' & H3). exists db'.
  exact (proj1 (proj2 (proj2 (proj2 (proj2
    (floor_raise_converged (at_time 50) demo_raise _ p db' H1 H2 H3)))))).
Defined.
