(* ===== verification/FleetArtifacts.v ===== *)
(** * Artifacts and the terminal saga

    What an accepted terminal submission binds (its manifest, its outcome), that
    its promotion then completes, and that garbage collection spares it. *)
From stdpp Require Import base list strings gmap relations.
From Stdlib Require Import ZArith Lia.
From S2P Require Import Prelude RustStr Json FleetModel Negotiation Validate FleetDb.
From S2P Require Import FleetSessions FleetScheduling FleetEvents FleetAdmin FleetSpec.
From S2P Require Import FleetRefine FleetSystem FleetDemo FleetSafety FleetRetry.

Local Open Scope Z_scope.

Section Manifest.
(** The verified objects of an attempt. *)
Definition verified (attempt : Uuid) (key : rstr) (db : FleetDb) : Prop :=
  exists st, db_staging db !! (attempt, key) = Some st /\ sg_status st = G_Verified.
Definition verified_rows (attempt : Uuid) (db : FleetDb) : list ((Uuid * rstr) * Staging) :=
  rows (fun k s => (k.1 =? attempt) && bool_decide (sg_status s = G_Verified)) (db_staging db).

Lemma verified_rows_elem attempt db key :
  (attempt, key) ∈ map fst (verified_rows attempt db) <-> verified attempt key db.
Proof.
  rewrite list_elem_of_fmap. unfold verified_rows, verified. split.
  - intros ([[id k] st] & He & Hin). apply elem_of_rows in Hin as [Hst Hp]. simpl in He.
    injection He as <- <-. bool_hyps. by exists st.
  - intros (st & Hst & Hv). exists ((attempt, key), st). split; [done|].
    apply elem_of_rows. split; [done|]. simpl. by rewrite Z.eqb_refl, bool_decide_eq_true_2.
Qed.
Lemma verified_rows_attempt attempt db k :
  k ∈ map fst (verified_rows attempt db) -> k.1 = attempt.
Proof.
  rewrite list_elem_of_fmap. intros ([[id key] st] & -> & Hin).
  apply elem_of_rows in Hin as [_ Hp]. simpl in *. bool_hyps. lia.
Qed.

(** The two checks of [check_artifacts] make the manifest exact. *)
Lemma check_artifacts_listed attempt artifacts db d :
  check_artifacts attempt artifacts db = Ok tt -> d ∈ artifacts ->
  exists st, db_staging db !! (attempt, ad_key d) = Some st /\ sg_status st = G_Verified
    /\ staged_as d st = true.
Proof.
  unfold check_artifacts. intros Hc Hd.
  destruct (for_each _ artifacts) as [[]|] eqn:Ef; [|done].
  apply for_each_Ok in Ef. rewrite Forall_forall in Ef. specialize (Ef d Hd). cbv beta in Ef.
  destruct (db_staging db !! (attempt, ad_key d)) as [st|]; [|done].
  apply ensure_Ok in Ef. bool_hyps. by exists st.
Qed.

Lemma check_artifacts_exact attempt artifacts db :
  check_artifacts attempt artifacts db = Ok tt -> NoDup (map ad_key artifacts) ->
  forall key, verified attempt key db <-> key ∈ map ad_key artifacts.
Proof.
  intros Hc Hnd key.
  assert (Hsub : forall k, k ∈ map ad_key artifacts -> verified attempt k db).
  { intros k Hk. apply list_elem_of_fmap in Hk as (d & -> & Hd).
    destruct (check_artifacts_listed _ _ _ _ Hc Hd) as (st & Hst & Hv & _). by exists st. }
  split; [|apply Hsub]. intros Hv.
  unfold check_artifacts in Hc. destruct (for_each _ artifacts) as [[]|]; [|done].
  apply ensure_Ok, Nat.eqb_eq in Hc. fold (verified_rows attempt db) in Hc.
  set (listed := map (fun k => (attempt, k)) (map ad_key artifacts)).
  assert (Hnl : NoDup listed) by (apply NoDup_fmap_2; [intros x y; congruence | done]).
  assert (Hincl : listed ⊆ map fst (verified_rows attempt db)).
  { intros k Hk. apply list_elem_of_fmap in Hk as (k' & -> & Hk).
    by apply verified_rows_elem, Hsub. }
  assert (Hback : incl (map fst (verified_rows attempt db)) listed).
  { apply NoDup_length_incl.
    - by apply NoDup_ListNoDup.
    - unfold listed. rewrite !length_map. lia.
    - intros k Hk. apply list_elem_of_In. apply Hincl. by apply list_elem_of_In. }
  apply verified_rows_elem, list_elem_of_In, Hback, list_elem_of_In in Hv.
  apply list_elem_of_fmap in Hv as (k & He & Hk). by injection He as <-.
Qed.

(** *** Promotion *)
Definition promoted_row (now : Z) (st : Staging) : Staging :=
  {| sg_logical_key := sg_logical_key st; sg_status := G_Promoted; sg_size := sg_size st;
     sg_sha256 := sg_sha256 st; sg_grant_expires := sg_grant_expires st;
     sg_verified_at := sg_verified_at st;
     sg_promoted_at := Some (default now (sg_promoted_at st));
     sg_created_at := sg_created_at st |}.

Lemma promote_succeeds env attempt artifacts db :
  NoDup (map ad_key artifacts) ->
  (forall d, d ∈ artifacts -> exists st, db_staging db !! (attempt, ad_key d) = Some st
     /\ sg_status st = G_Verified /\ staged_as d st = true) ->
  exists db', promote_artifacts env attempt artifacts db = Some db'
    /\ (forall d, d ∈ artifacts -> exists st, db_staging db' !! (attempt, ad_key d) = Some st
          /\ sg_status st = G_Promoted)
    /\ (forall k, k.1 <> attempt \/ k.2 ∉ map ad_key artifacts ->
          db_staging db' !! k = db_staging db !! k)
    /\ db_attempts db' = db_attempts db.
Proof.
  revert db. induction artifacts as [|d rest IH]; intros db Hnd Hall; simpl.
  - exists db. split_and!; try done. intros d Hd. by apply not_elem_of_nil in Hd.
  - inversion Hnd as [|? ? Hni Hnd']; subst.
    destruct (Hall d ltac:(left)) as (st & Hst & Hv & Has).
    rewrite Hst, Has, (bool_decide_eq_true_2 _ Hv). simpl.
    fold (promoted_row (tx_now env) st). set (db1 := with_staging _ db).
    destruct (IH db1 Hnd') as (db' & Hp & Hpr & Hfr & Hat).
    { intros e He. destruct (Hall e ltac:(by right)) as (st' & Hst' & Hrest). exists st'.
      split; [|done]. simpl. rewrite lookup_insert_ne; [done|]. intros [= Hk].
      apply Hni. rewrite Hk. apply list_elem_of_fmap. by exists e. }
    exists db'. split_and!; [done| | |done].
    + intros e He. apply elem_of_cons in He as [->|He]; [|by apply Hpr].
      exists (promoted_row (tx_now env) st). split; [|done].
      rewrite Hfr by (by right). simpl. apply lookup_insert_eq.
    + intros k Hk. rewrite Hfr by set_solver. simpl. apply lookup_insert_ne.
      intros <-. simpl in Hk. set_solver.
Qed.
End Manifest.


Section Saga.
Context `{DigestEnv}.

(** C26: An accepted manifest is exact.  When a terminal submission with a valid
    artifact list is accepted, the objects verified for the attempt are exactly
    the listed ones, each with the listed (unsigned) size, digest and logical key; the
    outcome is the one whose digest the worker committed in a terminal event
    inside the contiguous prefix of its event stream; and the attempt and its
    job get the outcome's status together. *)
Theorem accepted_manifest_exact env worker i s db db' :
  validate_artifacts (ts_artifacts s) = Ok tt ->
  accept_terminal env worker i s db = Ok (T_Accepted, db') ->
  let id := ai_attempt_id i in
  (forall key, verified id key db <-> key ∈ map ad_key (ts_artifacts s))
  /\ (forall d, d ∈ ts_artifacts s -> exists st, db_staging db !! (id, ad_key d) = Some st
        /\ (0 <= ad_size d -> sg_size st = Some (ad_size d)) /\ sg_sha256 st = Some (ad_sha256 d)
        /\ sg_logical_key st = ad_logical_key d)
  /\ (exists a e, db_attempts db !! id = Some a /\ as_i64 (ts_reliable_seq s) <= at_contiguous a
        /\ db_events db !! (id, as_i64 (ts_reliable_seq s)) = Some e
        /\ ae_payload e = Event_Terminal (payload_digest (ts_outcome s))
        /\ ae_digest e = ts_payload_digest s
        /\ attempt_status_of id db' = Some (write_statuses (ts_write s)).1
        /\ job_status_of (ar_job (at_row a)) db' = Some (write_statuses (ts_write s)).2).
Proof.
  intros Hval Hacc id. pose proof (fun d => validate_artifacts_size _ d Hval) as Hsize.
  apply validate_artifacts_keys in Hval.
  apply accept_terminal_cases in Hacc as [[_ ?]|Hacc]; [done|].
  destruct Hacc as (a & j & db1 & Hf & _ & He & Hc & Hj & _ & _ & _ & Hp & f & ->).
  apply find_attempt_Some in Hf as (Ha & _). fold id in Ha, He, Hc. split_and!.
  - by apply check_artifacts_exact.
  - intros d Hd. destruct (check_artifacts_listed _ _ _ _ Hc Hd) as (st & Hst & _ & Has).
    unfold staged_as, rstr_eqb in Has. bool_hyps. exists st. split_and!; try done.
    intros Hd0. by rewrite <- (as_i64_id (ad_size d)) by auto.
  - unfold check_terminal_event in He.
    destruct (Z.ltb_spec (at_contiguous a) (as_i64 (ts_reliable_seq s))); [done|].
    destruct (db_events db !! (id, as_i64 (ts_reliable_seq s))) as [e|] eqn:Ee; [|done].
    destruct (ae_payload e) as [|dg] eqn:Ep; [done|].
    head_case He E1; [done|]. head_case He E2; [done|]. unfold rstr_eqb in E1, E2. bool_hyps.
    destruct Hp as (_ & P2 & _). simpl in P2. exists a, e. split_and!; try done.
    + by rewrite Ep, E2.
    + unfold attempt_status_of. simpl. by rewrite lookup_insert_eq.
    + unfold job_status_of. simpl. by rewrite P2, lookup_insert_eq.
Qed.

(** The terminal saga completes.  After a terminal submission with a valid
    artifact list was accepted, promoting its manifest succeeds, every listed
    object is promoted and none stays verified, so the outcome, withheld until
    then if there were artifacts, is published. *)
Theorem promotion_completes env env' worker i s db db' :
  validate_artifacts (ts_artifacts s) = Ok tt ->
  accept_terminal env worker i s db = Ok (T_Accepted, db') ->
  let id := ai_attempt_id i in
  exists db'', mark_artifacts_promoted env' id (ts_artifacts s) db' = Ok (true, db'')
    /\ (forall d, d ∈ ts_artifacts s -> exists st, db_staging db'' !! (id, ad_key d) = Some st
          /\ sg_status st = G_Promoted)
    /\ attempt_terminal_outcome id db'' = Some (ts_outcome s)
    /\ (ts_artifacts s <> [] -> attempt_terminal_outcome id db' = None).
Proof.
  intros Hval Hacc id. apply validate_artifacts_keys in Hval.
  apply accept_terminal_cases in Hacc as [[_ ?]|Hacc]; [done|].
  destruct Hacc as (a & j & db1 & _ & _ & _ & Hc & _ & _ & _ & _ & Hp & f & ->).
  fold id in Hc |- *. destruct (write_outcome (ts_write s)) as [_ Ht].
  destruct Hp as (_ & _ & _ & _ & _ & _ & _ & _ & P9). simpl in P9.
  set (db' := with_sessions f _).
  assert (Hst : db_staging db' = db_staging db) by done.
  assert (Hlist : forall d, d ∈ ts_artifacts s -> exists st,
            db_staging db' !! (id, ad_key d) = Some st /\ sg_status st = G_Verified
            /\ staged_as d st = true).
  { intros d Hd. rewrite Hst. by eapply check_artifacts_listed. }
  destruct (promote_succeeds env' id (ts_artifacts s) db' Hval Hlist)
    as (db'' & Hpr & Hall & Hfr & Hat).
  exists db''. split_and!; [| done | |].
  - unfold mark_artifacts_promoted. simpl. rewrite lookup_insert_eq. simpl.
    rewrite Ht, bool_decide_eq_true_2 by done. simpl. by rewrite Hpr.
  - unfold attempt_terminal_outcome. rewrite Hat. simpl. rewrite lookup_insert_eq. simpl.
    rewrite Ht. replace (has_verified_staging id db'') with false; [done|]. symmetry.
    apply exists_row_false. intros [k1 k2] st Hk. simpl.
    destruct (Z.eqb_spec k1 id) as [->|]; [|done]. simpl. apply bool_decide_eq_false. intros Hv.
    destruct (decide (k2 ∈ map ad_key (ts_artifacts s))) as [Hin|Hn].
    + apply list_elem_of_fmap in Hin as (d & -> & Hd). destruct (Hall d Hd) as (st' & Hs' & Hp').
      congruence.
    + rewrite Hfr, Hst in Hk by (by right).
      apply Hn, (check_artifacts_exact id (ts_artifacts s) db Hc Hval). by exists st.
  - intros Hne. destruct (ts_artifacts s) as [|d rest] eqn:Els; [done|].
    destruct (Hlist d ltac:(left)) as (st & Hd & Hv & _).
    unfold attempt_terminal_outcome. simpl. rewrite lookup_insert_eq. simpl. rewrite Ht.
    replace (has_verified_staging id db') with true; [done|]. symmetry. apply exists_row_true.
    exists (id, ad_key d), st. split; [done|]. simpl. by rewrite Z.eqb_refl, bool_decide_eq_true_2.
Qed.
End Saga.

(** Garbage collection spares what is needed.  Reaping an object key never
    changes a staging row of an active attempt, a row that an accepted manifest
    lists, or a promoted row. *)
Theorem reap_spares_needed key db b db' k st :
  mark_staged_artifact_reaped key db = Ok (b, db') ->
  db_staging db !! k = Some st ->
  sg_status st = G_Promoted \/ staging_required k db = true ->
  db_staging db' !! k = Some st.
Proof.
  unfold mark_staged_artifact_reaped. intros [= _ <-] Hk Hn. simpl.
  rewrite lookup_update_where, Hk. simpl.
  replace (reapable k st db) with false; [by rewrite andb_false_r|]. symmetry. unfold reapable.
  destruct Hn as [->|Hreq]; [done|]. unfold staging_required in Hreq.
  destruct (db_attempts db !! k.1) as [a|]; [|by repeat case_match].
  destruct (at_status a); simpl in Hreq; try done; try (by repeat case_match);
    rewrite Hreq; by repeat case_match.
Qed.

(** ** The theorems at a concrete trace *)
Definition demo_artifact : ArtifactDescriptor :=
  {| ad_key := lit "runs/a"; ad_logical_key := lit "a"; ad_size := 3; ad_sha256 := demo_hash |}.
Definition trace_staged : list FleetOp :=
  trace_reported ++
  [ Op_Grant (at_time 35) {| gt_attempt := demo_attempt; gt_object_key := lit "runs/a";
      gt_logical_key := lit "a"; gt_size := None; gt_sha256 := None; gt_expires_at := 900 |};
    Op_Verify (at_time 40) (demo_identity demo_attempt 1) demo_artifact ].
Definition demo_completion : FleetTerminalSubmission :=
  {| ts_reliable_seq := 1; ts_payload_digest := demo_hash;
     ts_outcome := Outcome_Completed jnull None; ts_artifacts := [demo_artifact];
     ts_write := Write_Completed {| fc_result := {| rs_run_json := None; rs_archive_dir := lit "a" |};
       fc_metric := None; fc_baseline_calibration_id := None; fc_event_detail := None;
       fc_block_validation := None; fc_artifact_manifest := [demo_artifact] |} |}.
Lemma demo_completes :
  validate_artifacts (ts_artifacts demo_completion) = Ok tt
  /\ exists db', @accept_terminal demo_digest (at_time 50) demo_worker (demo_identity demo_attempt 1)
       demo_completion (demo_db trace_staged) = Ok (T_Accepted, db').
Proof. split; [vm_compute; reflexivity|]. apply answer_Some. vm_compute. reflexivity. Qed.

Lemma accepted_manifest_exact_witness :
  ts_artifacts demo_completion = [demo_artifact]
  /\ forall key, verified demo_attempt key (demo_db trace_staged) <-> key ∈ [lit "runs/a"].
Proof.
  split; [reflexivity|].
  destruct demo_completes as (Hv & db' & Hdb).
  exact (proj1 (@accepted_manifest_exact demo_digest (at_time 50) demo_worker
                  (demo_identity demo_attempt 1) demo_completion _ db' Hv Hdb)).
Defined.

Lemma promotion_completes_witness : exists db' db'',
  mark_artifacts_promoted (at_time 60) demo_attempt [demo_artifact] db' = Ok (true, db'')
  /\ attempt_terminal_outcome demo_attempt db'' = Some (Outcome_Completed jnull None).
Proof.
  destruct demo_completes as (Hv & db' & Hdb). exists db'.
  destruct (@promotion_completes demo_digest (at_time 50) (at_time 60) demo_worker
              (demo_identity demo_attempt 1) demo_completion _ db' Hv Hdb)
    as (db'' & H1 & _ & H2 & _).
  exists db''. exact (conj H1 H2).
Defined.

Lemma demo_staged : exists st, db_staging (demo_db trace_staged) !! (demo_attempt, lit "runs/a") = Some st
  /\ staging_required (demo_attempt, lit "runs/a") (demo_db trace_staged) = true.
Proof.
  assert (E : match db_staging (demo_db trace_staged) !! (demo_attempt, lit "runs/a") with
              | Some _ => staging_required (demo_attempt, lit "runs/a") (demo_db trace_staged)
              | None => false end = true) by (vm_compute; reflexivity).
  destruct (db_staging (demo_db trace_staged) !! _) as [st|]; [|discriminate E].
  exists st. split; [reflexivity | exact E].
Qed.
Lemma reap_spares_needed_witness : exists b db' st,
  mark_staged_artifact_reaped (lit "runs/a") (demo_db trace_staged) = Ok (b, db')
  /\ db_staging db' !! (demo_attempt, lit "runs/a") = Some st.
Proof.
  destruct demo_staged as (st & Hst & Hreq). eexists _, _, st. split; [reflexivity|].
  eapply reap_spares_needed; [reflexivity | exact Hst | right; exact Hreq].
Defined.
