(* ===== verification/FleetLedger.v ===== *)
(** * The event ledger

    The reliable events of an attempt form a stream: the store acknowledges the
    contiguous prefix and projects it in order.  [ledger_ok] is the invariant of
    the event and attempt tables; it holds in every database a deployment
    reaches. *)
From stdpp Require Import base list strings gmap relations.
From Stdlib Require Import ZArith Lia.
From S2P Require Import Prelude RustStr Json FleetModel Negotiation Validate FleetDb.
From S2P Require Import FleetSessions FleetScheduling FleetEvents FleetAdmin FleetSpec.
From S2P Require Import FleetRefine FleetSystem FleetDemo FleetSafety FleetRetry.

Local Open Scope Z_scope.

(** The attempt lost its authority: its unprojected events are void. *)
Definition at_lost (a : Attempt) : Prop := lost (at_status a).

(** ** The invariant *)
Record ledger_ok (db : FleetDb) : Prop := {
  (** Events belong to attempts and are numbered from one. *)
  lg_keys : forall id n e, db_events db !! (id, n) = Some e ->
    is_Some (db_attempts db !! id) /\ 1 <= n <= I64_MAX;
  (** The acknowledged prefix is stored, and it is the longest one. *)
  lg_prefix : forall id a, db_attempts db !! id = Some a ->
    0 <= at_projected a <= at_contiguous a
    /\ (forall n, 1 <= n <= at_contiguous a -> is_Some (db_events db !! (id, n)))
    /\ db_events db !! (id, at_contiguous a + 1) = None;
  (** Events up to the projected mark are projected; those after it are not,
      unless the attempt lost its authority. *)
  lg_marked : forall id a n e, db_attempts db !! id = Some a -> db_events db !! (id, n) = Some e ->
    n <= at_projected a -> ae_projected_at e <> None;
  lg_pending : forall id a n e, db_attempts db !! id = Some a -> db_events db !! (id, n) = Some e ->
    at_projected a < n -> ~ at_lost a -> ae_projected_at e = None;
  (** Only an attempt that is over has an outcome. *)
  lg_outcome : forall id a, db_attempts db !! id = Some a -> at_terminal a <> None ->
    attempt_active (at_status a) = false
}.

(** What no transaction takes back: a stored event keeps its content, and an
    attempt its row and its acknowledged prefix. *)
Record same_event (e e' : AttemptEvent) : Prop := {
  se_trace : ae_trace e' = ae_trace e;
  se_payload : ae_payload e' = ae_payload e;
  se_digest : ae_digest e' = ae_digest e
}.
Record keeps (db db' : FleetDb) : Prop := {
  kp_events : forall k e, db_events db !! k = Some e ->
    exists e', db_events db' !! k = Some e' /\ same_event e e';
  kp_attempts : forall id a, db_attempts db !! id = Some a ->
    exists a', db_attempts db' !! id = Some a' /\ at_row a' = at_row a
      /\ at_contiguous a <= at_contiguous a'
}.

(** The outcome of an attempt is written once. *)
Definition keeps_outcomes (db db' : FleetDb) : Prop :=
  forall id a t, db_attempts db !! id = Some a -> at_terminal a = Some t ->
  exists a', db_attempts db' !! id = Some a' /\ at_terminal a' = Some t.

Record lsimw (db db' : FleetDb) : Prop := {
  ls_ledger : ledger_ok db -> ledger_ok db';
  ls_keeps : keeps db db';
  ls_outcomes : ledger_ok db -> keeps_outcomes db db'
}.
(** An attempt that lost its authority stays lost; any other keeps its projected mark, and a new one starts
    at zero. *)
Record marks_kept (db db' : FleetDb) : Prop := {
  mk_lost : forall id a, db_attempts db !! id = Some a ->
    exists a', db_attempts db' !! id = Some a' /\ (at_lost a -> at_lost a');
  mk_marks : forall id a', db_attempts db' !! id = Some a' ->
    at_lost a' \/ at_projected a' = from_option at_projected 0 (db_attempts db !! id)
}.
(** Every transaction but the marking of a projected event. *)
Record lsim (db db' : FleetDb) : Prop := {
  ls_weak : lsimw db db';
  ls_marks : marks_kept db db'
}.

(** An attempt keeps its row, marks and outcome and, once lost or over, stays so. *)
Record same_marks (a a' : Attempt) : Prop := {
  sm_row : at_row a' = at_row a;
  sm_contiguous : at_contiguous a' = at_contiguous a;
  sm_projected : at_projected a' = at_projected a;
  sm_lost : at_lost a -> at_lost a';
  sm_over : attempt_active (at_status a) = false -> attempt_active (at_status a') = false;
  sm_outcome : at_terminal a' = at_terminal a
}.

Section Frame.
Lemma same_event_refl e : same_event e e.
Proof. by split. Qed.
Lemma keeps_refl db : keeps db db.
Proof. split; intros; eexists; split_and!; (done || apply same_event_refl). Qed.
Lemma keeps_trans db1 db2 db3 : keeps db1 db2 -> keeps db2 db3 -> keeps db1 db3.
Proof.
  intros [E1 A1] [E2 A2]. split.
  - intros k e He. destruct (E1 k e He) as (e' & He' & [S1 S2 S3]).
    destruct (E2 k e' He') as (e'' & He'' & [T1 T2 T3]). exists e''. split; [done|].
    split; congruence.
  - intros id a Ha. destruct (A1 id a Ha) as (a' & Ha' & S1 & S2).
    destruct (A2 id a' Ha') as (a'' & Ha'' & T1 & T2). exists a''. split_and!; [done|congruence|lia].
Qed.
Lemma lsimw_refl db : lsimw db db.
Proof. split; [done | apply keeps_refl | intros _ id a t; eauto]. Qed.
Lemma marks_kept_refl db : marks_kept db db.
Proof. split; [eauto|]. intros id a' ->. by right. Qed.
Lemma marks_kept_trans db1 db2 db3 : marks_kept db1 db2 -> marks_kept db2 db3 -> marks_kept db1 db3.
Proof.
  intros [L1 M1] [L2 M2]. split.
  - intros id a Ha. destruct (L1 id a Ha) as (b & Hb & Hl). destruct (L2 id b Hb) as (c & Hc & Hl'). eauto.
  - intros id c Hc. destruct (M2 id c Hc) as [?|Hp]; [by left|].
    destruct (db_attempts db2 !! id) as [b|] eqn:Hb; simpl in Hp.
    + destruct (M1 id b Hb) as [Hl|Hp']; [|right; congruence].
      left. destruct (L2 id b Hb) as (c' & Hc' & Hl'). simplify_eq. by apply Hl'.
    + destruct (db_attempts db1 !! id) as [a|] eqn:Ha; [|by right].
      destruct (L1 id a Ha) as (b & Hb' & _). congruence.
Qed.
Lemma lsim_refl db : lsim db db.
Proof. split; [apply lsimw_refl | apply marks_kept_refl]. Qed.
Lemma lsimw_trans db1 db2 db3 : lsimw db1 db2 -> lsimw db2 db3 -> lsimw db1 db3.
Proof.
  intros [L1 K1 O1] [L2 K2 O2]. split; [auto | by eapply keeps_trans |]. intros Hok id a t Ha Ht.
  destruct (O1 Hok id a t Ha Ht) as (b & Hb & Hbt). exact (O2 (L1 Hok) id b t Hb Hbt).
Qed.
Lemma lsim_trans db1 db2 db3 : lsim db1 db2 -> lsim db2 db3 -> lsim db1 db3.
Proof. intros [] []. split; [by eapply lsimw_trans | by eapply marks_kept_trans]. Qed.
Lemma same_marks_refl a : same_marks a a.
Proof. by split. Qed.

(** The events are unchanged, attempts keep their marks, new ones start at
    zero. *)
Lemma lsim_attempts db db' :
  db_events db' = db_events db ->
  (forall id a, db_attempts db !! id = Some a ->
     exists a', db_attempts db' !! id = Some a' /\ same_marks a a') ->
  (forall id a', db_attempts db' !! id = Some a' -> db_attempts db !! id = None ->
     at_contiguous a' = 0 /\ at_projected a' = 0 /\ at_terminal a' = None) ->
  lsim db db'.
Proof.
  intros He Hold Hnew. split.
  2: { split; [intros id a Ha; destruct (Hold id a Ha) as (a' & Ha' & Hm); exists a'; split; [done | apply Hm]|].
       intros id a' Ha'. right. destruct (db_attempts db !! id) as [a|] eqn:Ha; simpl; [|by apply (Hnew id)].
       destruct (Hold id a Ha) as (b & Hb & Hm). simplify_eq. apply Hm. }
  split; [intros [K P M U F]|split; rewrite ?He|].
  2: { intros k e Hk. exists e. split; [done | apply same_event_refl]. }
  2: { intros id a Ha. destruct (Hold id a Ha) as (a' & Ha' & [Hr Hc _ _ _ _]).
       exists a'. split_and!; [done..|lia]. }
  2: { intros _ id a t Ha Ht. destruct (Hold id a Ha) as (a' & Ha' & Hm). exists a'.
       split; [done|]. rewrite <- Ht. apply Hm. }
  assert (Hcase : forall id a', db_attempts db' !! id = Some a' ->
            (exists a, db_attempts db !! id = Some a /\ same_marks a a')
            \/ (db_attempts db !! id = None /\ at_contiguous a' = 0 /\ at_projected a' = 0
                /\ at_terminal a' = None)).
  { intros id a' Ha'. destruct (db_attempts db !! id) as [a|] eqn:Ha; [left|right].
    - exists a. split; [done|]. destruct (Hold id a Ha) as (b & Hb & Hm). by simplify_eq.
    - split; [done|]. by eapply Hnew. }
  assert (Hno : forall id n e, db_attempts db !! id = None -> db_events db !! (id, n) <> Some e).
  { intros id n e Hn Hx. destruct (K id n e Hx) as [[? Hs] _]. congruence. }
  split; rewrite ?He.
  - intros id n e Hx. destruct (K id n e Hx) as [[a Ha] Hn]. split; [|done].
    destruct (Hold id a Ha) as (a' & Ha' & _). by exists a'.
  - intros id a' Ha'. destruct (Hcase id a' Ha') as [(a & Ha & [_ -> -> _ _ _])|(Hn & -> & -> & _)];
      [by apply P|]. split_and!; [lia | lia | intros; lia |].
    destruct (db_events db !! (id, 0 + 1)) eqn:E; [|done]. by apply Hno in E.
  - intros id a' n e Ha' Hx. destruct (Hcase id a' Ha') as [(a & Ha & [_ _ -> _ _ _])|(Hn & _)];
      [by eapply M | by apply Hno in Hx].
  - intros id a' n e Ha' Hx. destruct (Hcase id a' Ha') as [(a & Ha & [_ _ -> Hl _ _])|(Hn & _)];
      [|by apply Hno in Hx]. intros Hlt Hnl. eapply U; eauto.
  - intros id a' Ha' Ht. destruct (Hcase id a' Ha') as [(a & Ha & Hm)|(_ & _ & _ & Hn)]; [|done].
    apply Hm. apply (F id a Ha). by rewrite <- (sm_outcome _ _ Hm).
Qed.

Lemma lsim_frame db db' :
  db_events db' = db_events db -> db_attempts db' = db_attempts db -> lsim db db'.
Proof.
  intros He Ha. apply lsim_attempts; [done| |]; rewrite Ha.
  - intros id a Hx. exists a. split; [done | apply same_marks_refl].
  - intros; congruence.
Qed.

Lemma lsim_insert db id a a' :
  db_attempts db !! id = Some a -> same_marks a a' ->
  lsim db (with_attempts <[id := a']> db).
Proof.
  intros Ha Hm. apply lsim_attempts; [done| |]; simpl.
  - intros k b Hb. destruct (decide (id = k)) as [<-|].
    + rewrite lookup_insert_eq. simplify_eq. eauto.
    + rewrite lookup_insert_ne by done. exists b. split; [done | apply same_marks_refl].
  - intros k b Hb Hn. rewrite lookup_insert_ne in Hb by congruence. congruence.
Qed.

Lemma lsim_alter db id f :
  (forall a, db_attempts db !! id = Some a -> same_marks a (f a)) ->
  lsim db (with_attempts (alter f id) db).
Proof.
  intros Hf. apply lsim_attempts; [done| |]; simpl.
  - intros k b Hb. destruct (decide (id = k)) as [<-|].
    + rewrite lookup_alter_eq, Hb. simpl. eauto.
    + rewrite lookup_alter_ne by done. exists b. split; [done | apply same_marks_refl].
  - intros k b Hb Hn. destruct (decide (id = k)) as [<-|].
    + by rewrite lookup_alter_eq, Hn in Hb.
    + rewrite lookup_alter_ne in Hb by done. congruence.
Qed.

Lemma lsim_update db p f :
  (forall a, same_marks a (f a)) ->
  lsim db (with_attempts (update_where p f) db).
Proof.
  intros Hf. apply lsim_attempts; [done| |]; simpl.
  - intros k b Hb. rewrite lookup_update_where, Hb. simpl. eexists. split; [done|].
    destruct (p k b); [done | apply same_marks_refl].
  - intros k b Hb Hn. by rewrite lookup_update_where, Hn in Hb.
Qed.

Lemma retire_marks_keeps env reason id to db :
  keeps db (with_attempts (alter (with_attempt_status to) id)
              (discard_attempt_projection env id reason db)).
Proof.
  split.
  - intros k e He. simpl. rewrite lookup_update_where, He. simpl. eexists. split; [done|].
    by case_match; split.
  - intros k a Ha. simpl. destruct (decide (id = k)) as [<-|Hne].
    + rewrite !lookup_alter_eq, Ha. simpl. by eexists.
    + rewrite !lookup_alter_ne, Ha by done. by eexists.
Qed.

Lemma retire_marks_kept env reason id to db :
  lost to -> marks_kept db (with_attempts (alter (with_attempt_status to) id)
                              (discard_attempt_projection env id reason db)).
Proof.
  intros Hto. split; intros k a; simpl; destruct (decide (id = k)) as [<-|Hne];
    rewrite ?lookup_alter_eq, ?lookup_alter_ne by done; rewrite ?lookup_alter_eq, ?lookup_alter_ne by done.
  - intros Ha. rewrite Ha. simpl. by eexists.
  - intros Ha. rewrite Ha. eauto.
  - destruct (db_attempts db !! id); simpl; [|done]. intros [= <-]. by left.
  - intros Ha. right. by rewrite Ha.
Qed.
(** Retiring an attempt: its unprojected events are discarded, its projected
    mark jumps to the end of the prefix, and it is lost. *)
Lemma lsim_retire_marks env reason id to db :
  lost to ->
  lsim db (with_attempts (alter (with_attempt_status to) id)
             (discard_attempt_projection env id reason db)).
Proof.
  intros Hto. split; [|by apply retire_marks_kept]. split; [intros [K P M U F]|by apply retire_marks_keeps|].
  2: { intros _ k a t Ha Ht. simpl. destruct (decide (id = k)) as [<-|Hne].
       - rewrite !lookup_alter_eq, Ha. simpl. by eexists.
       - rewrite !lookup_alter_ne, Ha by done. by eexists. }
  assert (Hev : forall k n e', db_events (discard_attempt_projection env id reason db) !! (k, n)
            = Some e' -> exists e, db_events db !! (k, n) = Some e
            /\ (k <> id -> e' = e) /\ (ae_projected_at e <> None -> e' = e)
            /\ (k = id -> ae_projected_at e' <> None)).
  { intros k n e' Hx. unfold discard_attempt_projection in Hx. simpl in Hx.
    rewrite lookup_update_where in Hx. destruct (db_events db !! (k, n)) as [e|] eqn:E; [|done].
    simpl in Hx. injection Hx as <-. exists e. split; [done|].
    destruct (Z.eqb_spec k id) as [->|]; simpl; [|done].
    case_bool_decide as Hn; [|done]. split_and!; done. }
  assert (Hsome : forall k n, is_Some (db_events db !! (k, n)) <->
            is_Some (db_events (discard_attempt_projection env id reason db) !! (k, n))).
  { intros k n. unfold discard_attempt_projection. simpl. rewrite lookup_update_where.
    by rewrite fmap_is_Some. }
  assert (Hat : forall k a', db_attempts (with_attempts (alter (with_attempt_status to) id)
            (discard_attempt_projection env id reason db)) !! k = Some a' ->
            exists a, db_attempts db !! k = Some a /\ at_contiguous a' = at_contiguous a
              /\ (k = id -> at_projected a' = at_contiguous a /\ at_lost a')
              /\ (k <> id -> a' = a)).
  { intros k a' Ha'. simpl in Ha'. destruct (decide (id = k)) as [<-|Hne].
    - rewrite !lookup_alter_eq in Ha'. destruct (db_attempts db !! id) as [a|] eqn:Ha; [|done].
      simpl in Ha'. injection Ha' as <-. exists a. done.
    - rewrite !lookup_alter_ne in Ha' by done. exists a'. done. }
  split.
  - intros k n e Hx. simpl in Hx. apply mk_is_Some, Hsome in Hx as [e0 He0].
    destruct (K k n e0 He0) as [[a Ha] Hn]. split; [|done]. simpl.
    destruct (decide (id = k)) as [<-|]; [rewrite !lookup_alter_eq|rewrite !lookup_alter_ne by done];
      by rewrite Ha.
  - intros k a' Ha'. destruct (Hat k a' Ha') as (a & Ha & Hc & Hid & Hne).
    destruct (P k a Ha) as (Hb & Hall & Hgap). rewrite Hc. split_and!.
    + destruct (decide (k = id)) as [->|Hk]; [destruct (Hid eq_refl); lia|].
      rewrite (Hne Hk). lia.
    + destruct (decide (k = id)) as [->|Hk]; [destruct (Hid eq_refl); lia|].
      rewrite (Hne Hk). lia.
    + intros n Hn. by apply Hsome, Hall.
    + apply eq_None_not_Some. intros Hs. apply Hsome in Hs. rewrite Hgap in Hs. by destruct Hs.
  - intros k a' n e' Ha' Hx Hle. destruct (Hat k a' Ha') as (a & Ha & _ & Hid & Hne).
    destruct (Hev k n e' Hx) as (e & He & He1 & He2 & He3).
    destruct (decide (k = id)) as [->|Hk]; [by apply He3|].
    rewrite (Hne Hk) in Hle. rewrite (He1 Hk). by eapply M.
  - intros k a' n e' Ha' Hx Hlt Hnl. destruct (Hat k a' Ha') as (a & Ha & _ & Hid & Hne).
    destruct (Hev k n e' Hx) as (e & He & He1 & _).
    destruct (decide (k = id)) as [->|Hk]; [destruct (Hid eq_refl); done|].
    rewrite (Hne Hk) in Hlt, Hnl. rewrite (He1 Hk). by eapply U.
  - intros k a' Ha' Ht. destruct (Hat k a' Ha') as (a & Ha & _ & Hid & Hne).
    destruct (decide (k = id)) as [->|Hk].
    + destruct (Hid eq_refl) as [_ [Hl|Hl]]; by rewrite Hl.
    + rewrite (Hne Hk) in *. by apply (F k a).
Qed.
End Frame.

Ltac lframe := apply lsim_frame; repeat case_match; reflexivity.

(** ** Every transaction preserves the invariant *)
Section Operations.
Lemma lost_marks to a : lost to -> same_marks a (with_attempt_status to a).
Proof. intros Hl. split; try done. intros _. by destruct Hl as [->| ->]. Qed.

Lemma lsim_retire env to dr reason id a db :
  lost to -> lsim db (retire_attempt env to dr reason id a db).
Proof.
  intros Hto. unfold retire_attempt.
  eapply lsim_trans; [by apply (lsim_retire_marks env dr id to)|].
  destruct (decide _); [lframe|]. unfold insert_obligation. lframe.
Qed.

Lemma lsim_fold {A} (step : FleetDb -> A -> FleetDb) l db :
  (forall x db, lsim db (step db x)) -> lsim db (foldl step db l).
Proof.
  intros Hs. revert db. induction l as [|x l IH]; intros db; simpl; [apply lsim_refl|].
  eapply lsim_trans; [apply Hs | apply IH].
Qed.

Lemma lsim_expire_leases env w k db : lsim db (expire_worker_leases env w k db).
Proof.
  unfold expire_worker_leases.
  match goal with |- lsim _ (with_sessions _ ?d) => apply (lsim_trans _ d); [|lframe] end.
  apply lsim_update. by split.
Qed.

Lemma lsim_fence_attempts env l db : lsim db (fence_attempts env l db).
Proof. apply lsim_fold. intros [id a] d. apply lsim_retire. by right. Qed.

Lemma lsim_expire_stale env db x db' : expire_stale_attempts env db = Ok (x, db') -> lsim db db'.
Proof.
  unfold expire_stale_attempts. intros [= _ <-]. apply lsim_fold. intros [id a] d.
  unfold expire_attempt. eapply lsim_trans; [apply (lsim_retire env A_Expired); by left|]. lframe.
Qed.

Lemma lsim_register env w k r ttl db x db' :
  register_session env w k r ttl db = Ok (x, db') -> lsim db db'.
Proof.
  unfold register_session, register_existing, register_new. intros H. ok_inv H; simplify_eq;
    match goal with E : put_session _ _ _ = Ok _ |- _ => apply put_session_Ok in E as -> end;
    try lframe;
    (match goal with |- context [predecessor_attempts _ _ ?d] =>
       apply (lsim_trans _ d); [lframe|] end;
     eapply lsim_trans; [apply lsim_fence_attempts|]; lframe).
Qed.

Lemma lsim_make_offer env ids w session ot lt profile job j payload hash commit db x db' :
  make_offer env ids w session ot lt profile job j payload hash commit db = Ok (x, db') ->
  lsim db db'.
Proof.
  unfold make_offer. destruct (db_submissions db !! _); [|done]. intros H.
  destruct (insert_attempt _ _ _) as [db1|] eqn:Ei; [|done].
  apply insert_attempt_Ok in Ei as [-> Hn]. simplify_eq. apply lsim_attempts; [done| |]; simpl.
  - intros id a Ha. rewrite lookup_insert_ne by (simpl in Hn; congruence). exists a.
    split; [done | apply same_marks_refl].
  - intros id a Ha Hid. apply lookup_insert_Some in Ha as [[_ <-]|[_ Ha]]; [done|].
    simpl in Ha. congruence.
Qed.

Lemma lsim_poll env ids w session ot lt db x db' :
  poll_offer env ids w session ot lt db = Ok (x, db') -> lsim db db'.
Proof.
  unfold poll_offer. set (current := ProtocolOffer_current). clearbody current.
  intros H. ok_inv H; simplify_eq; try apply lsim_refl; try lframe.
  eapply lsim_trans; [|by eapply lsim_make_offer]. lframe.
Qed.

Lemma lsim_accept env w i lt db x db' : accept_offer env w i lt db = Ok (x, db') -> lsim db db'.
Proof.
  unfold accept_offer. intros H.
  destruct (lock_protocol_policy db) as [floor|]; [|done].
  destruct (db_workers db !! w) as [wk|]; [|simplify_eq; apply lsim_refl].
  destruct (find_attempt w i db) as [a|] eqn:Ef; [|simplify_eq; apply lsim_refl].
  apply find_attempt_Some in Ef as (Ha & _).
  destruct (attempt_executing _); [simplify_eq; apply lsim_refl|].
  destruct (may_accept _ _ _ _ _) eqn:Em; simpl in H; [|simplify_eq; apply lsim_refl].
  ok_inv H; simplify_eq; try apply lsim_refl.
  match goal with E : put_session _ _ _ = Ok _ |- _ => apply put_session_Ok in E as -> end.
  eapply lsim_trans; [apply (lsim_insert db (ai_attempt_id i) a); [done|]|lframe].
  unfold may_accept in Em. bool_hyps. split; try done; [intros [Hl|Hl]; congruence|].
  match goal with E : at_status a = A_Offered |- _ => by rewrite E end.
Qed.

Lemma lsim_heartbeat env w i lt buf db x db' :
  heartbeat_attempt env w i lt buf db = Ok (x, db') -> lsim db db'.
Proof.
  unfold heartbeat_attempt. intros H.
  destruct (find_attempt w i db) as [a|] eqn:Ef; [|simplify_eq; apply lsim_refl].
  apply find_attempt_Some in Ef as (Ha & _).
  destruct (db_workers db !! w) as [wk|]; [|simplify_eq; apply lsim_refl].
  destruct (db_sessions db !! _) as [s|]; [|simplify_eq; apply lsim_refl].
  destruct (_ && _); [|simplify_eq; apply lsim_refl].
  destruct (match buf with Some _ => _ | None => _ end); [done|]. simplify_eq.
  match goal with |- lsim _ (with_sessions _ ?d) => apply (lsim_trans _ d); [|lframe] end.
  by eapply lsim_insert.
Qed.

Lemma lsim_cancel_job job j db : lsim db (cancel_job job j db).2.
Proof. unfold cancel_job, cancel_unstarted. lframe. Qed.

Lemma lsim_cancellation env job db : lsim db (cancellation_request env job db).2.
Proof.
  unfold cancellation_request. destruct (db_jobs db !! job) as [j|]; [|apply lsim_refl].
  destruct (decide _); [apply lsim_refl|].
  destruct (active_attempt_of job db) as [[id a]|] eqn:Ea; [|apply lsim_cancel_job].
  apply active_attempt_of_Some in Ea as (Ha & _ & Hact).
  destruct (attempt_executing (at_status a)) eqn:Hex; simpl.
  - apply lsim_alter. intros b Hb. simplify_eq. split; try done; [|by rewrite Hact].
    intros [Hl|Hl]; rewrite Hl in Hact; done.
  - eapply lsim_trans; [|apply lsim_cancel_job]. unfold fence_offer.
    match goal with |- lsim _ (with_sessions _ ?d) => apply (lsim_trans _ d); [|lframe] end.
    apply lsim_retire_marks. by right.
Qed.

Lemma lsim_cancel_all env jobs db : lsim db (cancel_all env jobs db).2.
Proof.
  revert db. induction jobs as [|job jobs IH]; intros db; [apply lsim_refl|]. simpl.
  pose proof (lsim_cancellation env job db) as H1.
  destruct (cancellation_request env job db) as [ok db1]. specialize (IH db1).
  destruct (cancel_all env jobs db1) as [acc db2]. by eapply lsim_trans.
Qed.

Lemma lsim_abort env r db x db' : abort_fleet env r db = Ok (x, db') -> lsim db db'.
Proof.
  unfold abort_fleet. intros H. head_case H E1; [done|].
  destruct (db_abort_audit db !! _); [simplify_eq; apply lsim_refl|].
  head_case H E2; [simplify_eq; apply lsim_refl|].
  pose proof (lsim_cancel_all env (abort_selection (fa_scope r) db) db) as Hs.
  destruct (cancel_all _ _ _) as [acc db1]. simplify_eq. eapply lsim_trans; [exact Hs|]. lframe.
Qed.

Lemma lsim_fail_queued jobs remark db : lsim db (fail_locked_queued_jobs jobs remark db).2.
Proof.
  revert db. induction jobs as [|job jobs IH]; intros db; simpl; [apply lsim_refl|].
  destruct (db_jobs db !! job) as [j|]; [|apply IH]. destruct (decide _); [|apply IH].
  match goal with |- context [fail_locked_queued_jobs jobs remark ?d] =>
    pose proof (IH d) as Hrest; destruct (fail_locked_queued_jobs jobs remark d) as [failed db2];
    eapply (lsim_trans _ d); [lframe | exact Hrest] end.
Qed.

Lemma lsim_expire_offers p db : lsim db (expire_offers p db).
Proof.
  unfold expire_offers.
  match goal with |- lsim _ (with_jobs _ ?d) => apply (lsim_trans _ d); [|lframe] end.
  apply lsim_update. intros a. apply lost_marks. by left.
Qed.

Lemma lsim_change_scheduler env c db x db' :
  change_scheduler env c db = Ok (x, db') -> lsim db db'.
Proof.
  unfold change_scheduler. intros H. head_case H E1; [done|].
  destruct (db_scheduler_audit db !! _); [ok_inv H; simplify_eq; apply lsim_refl|].
  simplify_eq. match goal with |- lsim _ (with_scheduler_audit _ ?d) =>
    apply (lsim_trans _ d); [|lframe] end.
  case_match; [|lframe]. unfold withdraw_offers.
  eapply lsim_trans; [|apply lsim_expire_offers]. lframe.
Qed.

Lemma lsim_lifecycle env c db x db' :
  change_worker_lifecycle env c db = Ok (x, db') -> lsim db db'.
Proof.
  unfold change_worker_lifecycle. intros H. head_case H E1; [done|].
  destruct (db_lifecycle_audit db !! _); [simplify_eq; apply lsim_refl|].
  destruct (db_workers db !! _) as [w|]; [|simplify_eq; apply lsim_refl].
  head_case H E2; simplify_eq; [apply lsim_refl|].
  match goal with |- lsim _ (with_lifecycle_audit _ ?d) => apply (lsim_trans _ d); [|lframe] end.
  unfold apply_lifecycle. destruct (decide (wl_action c = Act_Uncordon)); [lframe|].
  match goal with |- lsim _ (with_sessions _ ?d) => apply (lsim_trans _ d); [|lframe] end.
  eapply lsim_trans; [|apply lsim_expire_offers]. lframe.
Qed.

Lemma lsim_freeze_specs specs resolved db db' :
  freeze_specs specs resolved db = Ok (Some db') -> lsim db db'.
Proof.
  revert db. induction specs as [|[id x] specs IH]; intros db H; simpl in H.
  - simplify_eq. apply lsim_refl.
  - destruct (resolved !! id); [|done]. head_case H E1; [done|]. head_case H E2; [done|].
    eapply lsim_trans; [|by apply IH]. lframe.
Qed.

(** Rewriting an attempt without its outcome. *)
Lemma outcomes_insert id a a' db db' :
  db_attempts db !! id = Some a -> at_terminal a' = at_terminal a ->
  db_attempts db' = <[id := a']> (db_attempts db) -> keeps_outcomes db db'.
Proof.
  intros Ha Ht He k b t Hb Hbt. rewrite He. destruct (decide (id = k)) as [<-|Hne].
  - rewrite lookup_insert_eq. simplify_eq. eexists. split; [done|]. congruence.
  - rewrite lookup_insert_ne by done. eauto.
Qed.

(** Recording the outcome of an attempt that is not over. *)
Lemma lsim_outcome st t id a db :
  db_attempts db !! id = Some a -> attempt_executing (at_status a) = true ->
  attempt_active st = false -> lsim db (with_attempts <[id := with_attempt_terminal st t a]> db).
Proof.
  intros Ha Hex Hst. assert (Hact : attempt_active (at_status a) = true) by (by destruct (at_status a)).
  assert (Hcase : forall k b, <[id := with_attempt_terminal st t a]> (db_attempts db) !! k = Some b ->
            exists b0, db_attempts db !! k = Some b0 /\ at_contiguous b = at_contiguous b0
            /\ at_projected b = at_projected b0 /\ (at_lost b0 -> at_lost b)
            /\ (b = b0 \/ attempt_active (at_status b) = false)).
  { intros k b Hb. apply lookup_insert_Some in Hb as [[<- <-]|[Hne Hb]]; [|exists b; by split_and!; auto].
    exists a. split_and!; [done..| |by right]. intros [Hl|Hl]; by rewrite Hl in Hact. }
  split; [|split; simpl].
  2: { intros k b Hb. destruct (decide (id = k)) as [<-|Hne]; [|rewrite lookup_insert_ne by done; eauto].
       rewrite lookup_insert_eq. simplify_eq. eexists. split; [done|]. intros [Hl|Hl]; by rewrite Hl in Hact. }
  2: { intros k b Hb. right. destruct (Hcase k b Hb) as (b0 & -> & _ & -> & _). done. }
  split; [intros [K P M U F]|split; simpl|intros [K P M U F]].
  - split; simpl.
    + intros k n e He. rewrite lookup_insert_is_Some'. destruct (K k n e He). auto.
    + intros k b Hb. destruct (Hcase k b Hb) as (b0 & Hb0 & -> & -> & _). by apply P.
    + intros k b n e Hb. destruct (Hcase k b Hb) as (b0 & Hb0 & _ & -> & _). by eapply M.
    + intros k b n e Hb He. destruct (Hcase k b Hb) as (b0 & Hb0 & _ & -> & Hl & _). eauto.
    + intros k b Hb Ht. destruct (Hcase k b Hb) as (b0 & Hb0 & _ & _ & _ & [->|]); eauto.
  - intros k e He. exists e. split; [done | apply same_event_refl].
  - intros k b Hb. destruct (decide (id = k)) as [<-|Hne].
    + rewrite lookup_insert_eq. simplify_eq. by eexists.
    + rewrite lookup_insert_ne by done. by exists b.
  - intros k b x Hb Hx. simpl. destruct (decide (id = k)) as [<-|Hne].
    + rewrite Ha in Hb. injection Hb as <-. assert (Hn : at_terminal a <> None) by congruence.
      by rewrite (F id a Ha Hn) in Hact.
    + rewrite lookup_insert_ne by done. eauto.
Qed.

(** Storing an event and advancing the prefix. *)
Lemma lsim_stored id seq e a db :
  db_attempts db !! id = Some a -> attempt_executing (at_status a) = true -> 1 <= seq <= I64_MAX ->
  ae_projected_at e = None ->
  let events := <[(id, seq) := default e (db_events db !! (id, seq))]> (db_events db) in
  lsim db (with_attempts <[id := with_attempt_contiguous
             (advance_contiguous (size events) events id (at_contiguous a)) a]>
             (with_events (fun _ => events) db)).
Proof.
  intros Ha Hex Hseq Hnone events.
  destruct (advance_stops events id (at_contiguous a)) as (Hadv & Hall & Hgap).
  set (c := advance_contiguous _ _ _ _) in *.
  split; [|split; simpl].
  2: { intros k b Hb. destruct (decide (id = k)) as [<-|Hne]; [|rewrite lookup_insert_ne by done; eauto].
       rewrite lookup_insert_eq. simplify_eq. by eexists. }
  2: { intros k b Hb. right. apply lookup_insert_Some in Hb as [[<- <-]|[_ Hb]]; [by rewrite Ha | by rewrite Hb]. }
  split; [intros [K P M U F]|split; simpl|].
  2: { intros k x Hx. destruct (decide ((id, seq) = k)) as [<-|Hne].
       - unfold events. rewrite lookup_insert_eq, Hx. simpl. exists x. split; [done|].
         apply same_event_refl.
       - unfold events. rewrite lookup_insert_ne by done. exists x. split; [done|].
         apply same_event_refl. }
  2: { intros k b Hk. destruct (decide (id = k)) as [<-|Hne].
       - rewrite lookup_insert_eq. simplify_eq. eexists. split_and!; [done|done|]. simpl. lia.
       - rewrite lookup_insert_ne by done. by exists b. }
  2: { intros _. by apply (outcomes_insert id a (with_attempt_contiguous c a)). }
  destruct (P id a Ha) as (Hb & Hpre & Hlast).
  assert (Hev : forall k n x, events !! (k, n) = Some x ->
            db_events db !! (k, n) = Some x
            \/ (k = id /\ n = seq /\ x = e /\ db_events db !! (id, seq) = None)).
  { intros k n x Hx. unfold events in Hx. apply lookup_insert_Some in Hx as [[[= <- <-] <-]|[_ Hx]];
      [|by left]. destruct (db_events db !! (id, seq)); [by left | by right]. }
  assert (Hkeep : forall k n, is_Some (db_events db !! (k, n)) -> is_Some (events !! (k, n))).
  { intros k n Hs. unfold events. by apply lookup_insert_is_Some'; right. }
  (* a fresh event lies beyond the old prefix *)
  assert (Hfresh : db_events db !! (id, seq) = None -> at_contiguous a < seq).
  { intros Hn. apply Z.nle_gt. intros Hle. destruct (Hpre seq) as [x Hx]; [lia|]. congruence. }
  split; simpl.
  - intros k n x Hx. destruct (Hev k n x Hx) as [Hx'|(-> & -> & _)].
    + destruct (K k n x Hx') as [[b Hk] Hn]. split; [|done]. by apply lookup_insert_is_Some'; right.
    + split; [|done]. rewrite lookup_insert_eq. by eexists.
  - intros k b Hk. apply lookup_insert_Some in Hk as [[<- <-]|[Hne Hk]]; simpl.
    + split_and!; [lia | lia | | done]. intros n Hn.
      destruct (Z_le_gt_dec n (at_contiguous a)); [apply Hkeep, Hpre; lia | apply Hall; lia].
    + destruct (P k b Hk) as (H1 & H2 & H3). split_and!; [lia | lia | intros; by apply Hkeep, H2 |].
      unfold events. rewrite lookup_insert_ne; [done | congruence].
  - intros k b n x Hk Hx Hle. apply lookup_insert_Some in Hk as [[<- <-]|[Hne Hk]]; simpl in Hle;
      destruct (Hev _ _ _ Hx) as [Hx'|(? & -> & _ & Hn)]; try done;
      [by eapply M | specialize (Hfresh Hn); lia | by eapply M].
  - intros k b n x Hk Hx Hlt Hnl. apply lookup_insert_Some in Hk as [[<- <-]|[Hne Hk]];
      simpl in Hlt; destruct (Hev _ _ _ Hx) as [Hx'|(? & -> & -> & Hn)]; try done; eapply U; eauto.
  - intros k b Hk Ht. apply lookup_insert_Some in Hk as [[<- <-]|[Hne Hk]]; [by apply (F id a)|].
    by apply (F k b).
Qed.

Lemma lsim_ingest env w e db x db' :
  ingest_reliable_event env w e db = Ok (x, db') -> lsim db db'.
Proof.
  unfold ingest_reliable_event. intros H.
  destruct (reporting_attempt _ _ _ _ _) as [a|] eqn:Er; [|simplify_eq; apply lsim_refl].
  apply reporting_attempt_Some in Er as (Hf & Hex & _). apply find_attempt_Some in Hf as (Ha & _).
  head_case H E1; [done|]. bool_hyps.
  set (id := ai_attempt_id (ev_identity e)) in *.
  pose proof (as_i64_le (ev_reliable_seq e)) as Hle.
  set (seq := as_i64 (ev_reliable_seq e)) in *.
  destruct (db_events db !! (id, seq)) as [old|] eqn:Ee.
  - head_case H E2; simplify_eq; [apply lsim_refl|].
    pose proof (lsim_stored id seq (Build_AttemptEvent (ev_trace_id e)
      (ev_payload e) (ev_payload_digest e) 0 0 None None) a db Ha Hex ltac:(lia) eq_refl) as Hs.
    cbv zeta in Hs. rewrite Ee in Hs. simpl in Hs. rewrite (insert_id _ _ _ Ee) in Hs.
    eapply lsim_trans; [exact Hs|]. by apply lsim_frame.
  - simplify_eq. match goal with |- context [<[(id, seq) := ?v]>] =>
      pose proof (lsim_stored id seq v a db Ha Hex ltac:(lia) eq_refl) as Hs end.
    cbv zeta in Hs. rewrite Ee in Hs. simpl in Hs. exact Hs.
Qed.

Lemma lsim_mark_projected env id rseq db x db' :
  mark_event_projected env id rseq db = Ok (x, db') -> lsimw db db'.
Proof.
  unfold mark_event_projected. intros H.
  pose proof (as_i64_le rseq) as Hi64. set (seq := as_i64 rseq) in *.
  destruct (db_attempts db !! id) as [a|] eqn:Ha; [|simplify_eq; apply lsimw_refl].
  destruct (db_events db !! (id, seq)) as [e|] eqn:Ee; [|simplify_eq; apply lsimw_refl].
  head_case H E1; simplify_eq; [|apply lsimw_refl]. bool_hyps.
  set (e' := {| ae_trace := _ |}). set (a' := with_attempt_projected seq a).
  eapply (lsimw_trans _ (with_events <[(id, seq) := e']> (with_attempts <[id := a']> db)));
    [|apply ls_weak; lframe].
  split; [intros [K P M U F]|split; simpl|].
  2: { intros k y Hy. destruct (decide ((id, seq) = k)) as [<-|Hne].
       - rewrite lookup_insert_eq. simplify_eq. by eexists.
       - rewrite lookup_insert_ne by done. exists y. split; [done | apply same_event_refl]. }
  2: { intros k b Hk. destruct (decide (id = k)) as [<-|Hne].
       - rewrite lookup_insert_eq. simplify_eq. by eexists.
       - rewrite lookup_insert_ne by done. by exists b. }
  2: { intros _. by apply (outcomes_insert id a a'). }
  destruct (P id a Ha) as (Hb & Hpre & Hlast).
  assert (Hev : forall k n y, <[(id, seq) := e']> (db_events db) !! (k, n) = Some y ->
            (k = id /\ n = seq /\ y = e') \/ ((k, n) <> (id, seq) /\ db_events db !! (k, n) = Some y)).
  { intros k n y Hy. apply lookup_insert_Some in Hy as [[[= <- <-] <-]|[? Hy]]; [by left|right].
    split; [congruence | done]. }
  split; simpl.
  - intros k n y Hy. rewrite lookup_insert_is_Some'.
    destruct (Hev k n y Hy) as [(-> & -> & _)|[_ Hy']];
      [split; [by left | lia] | destruct (K k n y Hy'); auto].
  - intros k b Hk. apply lookup_insert_Some in Hk as [[<- <-]|[Hne Hk]]; simpl.
    + split_and!; [lia | lia | intros n Hn; apply lookup_insert_is_Some'; right; by apply Hpre |].
      rewrite lookup_insert_ne; [done|]. intros [= Hs]. lia.
    + destruct (P k b Hk) as (H1 & H2 & H3). split_and!; [lia | lia | |].
      * intros n Hn. apply lookup_insert_is_Some'. right. by apply H2.
      * rewrite lookup_insert_ne; [done | congruence].
  - intros k b n y Hk Hy Hle. apply lookup_insert_Some in Hk as [[<- <-]|[Hne Hk]]; simpl in Hle;
      destruct (Hev _ _ _ Hy) as [(? & -> & ->)|[Hkn Hy']]; try done; [|by eapply M].
    eapply M; eauto. destruct (Z.eq_dec n seq); [congruence | lia].
  - intros k b n y Hk Hy Hlt Hnl. apply lookup_insert_Some in Hk as [[<- <-]|[Hne Hk]];
      simpl in Hlt; destruct (Hev _ _ _ Hy) as [(? & -> & ->)|[Hkn Hy']]; try done; try lia;
      eapply U; eauto. lia.
  - intros k b Hk Ht. apply lookup_insert_Some in Hk as [[<- <-]|[Hne Hk]]; [by apply (F id a)|].
    by apply (F k b).
Qed.
End Operations.

Section System.
Context `{DigestEnv}.

Lemma lsim_terminal env w i s db x db' :
  accept_terminal env w i s db = Ok (x, db') -> lsim db db'.
Proof.
  intros E. apply accept_terminal_cases in E as [[-> _]|E]; [apply lsim_refl|].
  destruct E as (a & j & db1 & Hf & Hm & _ & _ & _ & _ & _ & _ & Hp & f & ->).
  apply find_attempt_Some in Hf as (Ha & _). unfold may_terminate in Hm. bool_hyps.
  destruct Hp as (_ & _ & P3 & _ & _ & _ & _ & P8 & _). simpl in P3, P8.
  match goal with |- lsim _ (with_sessions _ ?d) => apply (lsim_trans _ d); [|lframe] end.
  eapply lsim_trans; [|eapply lsim_outcome; [rewrite P3; exact Ha|done|by destruct (ts_write s)]].
  by apply lsim_frame.
Qed.

Ltac lplain :=
  match goal with Hr : ?f = Ok _ |- _ => revert Hr end;
  unfold create_worker, update_worker, authorize_identity, revoke_identity, deregister_session,
    prepare_execution, ingest_progress, record_artifact_grant, verify_artifact,
    mark_progress_projected, complete_cleanup, cancel_running, change_protocol_policy,
    mark_staged_artifact_reaped, insert_new, ensure;
  let Hr := fresh "Hr" in intros Hr; ok_inv Hr; simplify_eq;
  repeat match goal with E : put_worker _ _ _ = Ok _ |- _ => apply put_worker_Ok in E as -> end;
  try apply lsim_refl; lframe.

(** The transaction that marks an event projected. *)
Definition marking (op : FleetOp) : bool := match op with Op_MarkProjected _ _ _ => true | _ => false end.
(** Every other transaction preserves the ledger and the marks. *)
Lemma lsim_op op db db' : run_op op db = Ok db' -> marking op = false -> lsim db db'.
Proof.
  intros Hr Hnm. destruct op; try discriminate Hnm; cbn [run_op] in Hr;
    try (apply committed_Ok in Hr as [x Hr]); try lplain.
  - unfold emergency_disable_worker in Hr. ok_inv Hr; simplify_eq; [|apply lsim_refl].
    eapply lsim_trans; [|apply lsim_expire_leases]. lframe.
  - unfold emergency_revoke_identity in Hr. ok_inv Hr; simplify_eq; try apply lsim_refl.
    eapply lsim_trans; [|apply lsim_expire_leases]. lframe.
  - by eapply lsim_lifecycle.
  - unfold set_worker_draining in Hr. ok_inv Hr; simplify_eq; by eapply lsim_lifecycle.
  - by eapply lsim_register.
  - unfold freeze_submission_sources in Hr.
    ok_inv Hr; simplify_eq; try apply lsim_refl. by eapply lsim_freeze_specs.
  - apply recover_frame in Hr as [H1 H2]. by apply lsim_frame.
  - by eapply lsim_poll.
  - by eapply lsim_accept.
  - by eapply lsim_heartbeat.
  - by eapply lsim_expire_stale.
  - unfold request_cancel in Hr. injection Hr as Hr.
    pose proof (lsim_cancellation env job db) as Hs. by rewrite Hr in Hs.
  - unfold expire_unreported_slack_jobs in Hr. injection Hr as Hr.
    match type of Hr with fail_locked_queued_jobs ?l _ _ = _ =>
      pose proof (lsim_fail_queued l remark db) as Hs end. by rewrite Hr in Hs.
  - unfold fail_queued_slack_jobs_without_connector in Hr. injection Hr as Hr.
    match type of Hr with fail_locked_queued_jobs ?l _ _ = _ =>
      pose proof (lsim_fail_queued l remark db) as Hs end. by rewrite Hr in Hs.
  - by eapply lsim_change_scheduler.
  - by eapply lsim_abort.
  - by eapply lsim_ingest.
  - unfold mark_artifacts_promoted in Hr. ok_inv Hr; simplify_eq; try apply lsim_refl.
    match goal with E : promote_artifacts _ _ _ _ = Some _ |- _ =>
      apply promote_artifacts_staging in E as [f ->] end. lframe.
  - by eapply lsim_terminal.
Qed.

Lemma lsimw_op op db db' : run_op op db = Ok db' -> lsimw db db'.
Proof.
  intros Hr. destruct (marking op) eqn:Hm; [|by apply ls_weak, (lsim_op op)]. destruct op; try discriminate Hm.
  cbn [run_op] in Hr. apply committed_Ok in Hr as [x Hr]. by eapply lsim_mark_projected.
Qed.
Lemma lsim_run ops db : lsimw db (run ops db).
Proof.
  revert db. induction ops as [|op ops IH]; intros db; [apply lsimw_refl|].
  unfold run. simpl. fold (run ops). eapply lsimw_trans; [|apply IH].
  destruct (run_op op db) eqn:E; [by eapply lsimw_op | apply lsimw_refl].
Qed.
Lemma marks_kept_run ops db : Forall (fun op => marking op = false) ops -> marks_kept db (run ops db).
Proof.
  intros Hops. revert db. induction Hops as [|op ops Hop _ IH]; intros db; [apply marks_kept_refl|].
  unfold run. simpl. fold (run ops). eapply marks_kept_trans; [|apply IH].
  destruct (run_op op db) eqn:E; [by apply ls_marks, (lsim_op op) | apply marks_kept_refl].
Qed.

Context (scheduler : SchedulerPolicy) (protocol : ProtocolPolicy).
Notation after := (fleet_after scheduler protocol).

Lemma after_ledger trace : ledger_ok (after trace).
Proof.
  rewrite after_run. apply lsim_run. by split; intros; simpl in *; rewrite lookup_empty in *.
Qed.

(** The acknowledged prefix is exact.  For every attempt, the sequence number
    the store acknowledges is the greatest [n] such that the events [1] to [n]
    are all stored; in particular nothing is acknowledged that is not stored,
    and the loop that advances the mark never stops early. *)
Theorem acknowledged_prefix_exact trace id a :
  let db := fleet_after scheduler protocol trace in
  db_attempts db !! id = Some a ->
  (forall n, 1 <= n <= at_contiguous a -> is_Some (db_events db !! (id, n)))
  /\ forall m, (forall n, 1 <= n <= m -> is_Some (db_events db !! (id, n))) ->
       m <= at_contiguous a.
Proof.
  intros db Ha. destruct (lg_prefix _ (after_ledger trace) id a Ha) as (Hb & Hall & Hgap).
  split; [done|]. intros m Hm. apply Z.nlt_ge. intros Hlt.
  destruct (Hm (at_contiguous a + 1)) as [e He]; [lia|]. unfold db in He. congruence.
Qed.

(** Projection is ordered and never stalls.  If an attempt that still has
    authority has acknowledged events that are not projected, then the next one
    in sequence exists, is unprojected and is offered to the projector, and
    marking it projected succeeds and advances the mark by exactly one; events
    at or below the mark are never offered again. *)
Theorem projection_progress trace env id a :
  let db := after trace in
  db_attempts db !! id = Some a -> projection_authoritative env a = true ->
  at_projected a < at_contiguous a ->
  let next := at_projected a + 1 in
  exists e db', db_events db !! (id, next) = Some e /\ projectable env db (id, next) e = true
    /\ mark_event_projected env id next db = Ok (true, db')
    /\ db_attempts db' !! id = Some (with_attempt_projected next a)
    /\ forall n x, n <= next -> db_events db' !! (id, n) = Some x ->
         projectable env db' (id, n) x = false.
Proof.
  intros db Ha Hauth Hlt next.
  pose proof (after_ledger trace) as Hok. fold db in Hok.
  destruct (lg_prefix _ Hok id a Ha) as (Hb & Hall & _).
  destruct (Hall next) as [e He]; [unfold next; lia|]. exists e.
  assert (Hnl : ~ at_lost a).
  { intros [Hl|Hl]; unfold projection_authoritative in Hauth; rewrite Hl in Hauth; done. }
  pose proof (lg_pending _ Hok id a next e Ha He ltac:(unfold next; lia) Hnl) as Hun.
  assert (Hmark : exists db', mark_event_projected env id next db = Ok (true, db')
            /\ db_attempts db' !! id = Some (with_attempt_projected next a)).
  { destruct (lg_keys _ Hok id next e He) as [_ Hn].
    unfold mark_event_projected. rewrite (as_i64_id next) by lia. rewrite Ha, He. unfold next at 1 2.
    rewrite Z.eqb_refl, (proj2 (Z.leb_le (at_projected a + 1) (at_contiguous a))) by lia.
    simpl. eexists. split; [reflexivity|]. simpl. by rewrite lookup_insert_eq. }
  destruct Hmark as (db' & Hm & Ha'). exists db'. split_and!; try done.
  - unfold projectable. simpl. rewrite Ha, bool_decide_eq_true_2 by done.
    unfold next. by rewrite Z.eqb_refl, (proj2 (Z.leb_le _ _)), Hauth by lia.
  - intros n x Hn _. unfold projectable. simpl. rewrite Ha'. simpl.
    rewrite (proj2 (Z.eqb_neq n (next + 1))) by lia. by rewrite andb_false_r.
Qed.
End System.

(** ** The theorems at a concrete trace *)
Lemma demo_reported : exists a,
  db_attempts (demo_db trace_reported) !! demo_attempt = Some a
  /\ projection_authoritative (at_time 40) a = true /\ at_projected a < at_contiguous a.
Proof.
  assert (E : match db_attempts (demo_db trace_reported) !! demo_attempt with
              | Some a => projection_authoritative (at_time 40) a
                          && (at_projected a <? at_contiguous a)
              | None => false end = true) by (vm_compute; reflexivity).
  destruct (db_attempts (demo_db trace_reported) !! demo_attempt) as [a|]; [|discriminate E].
  apply andb_prop in E as [E1 E2]. exists a. split; [reflexivity|]. split; [exact E1|].
  by apply Z.ltb_lt.
Qed.
Lemma acknowledged_prefix_exact_witness : exists a,
  0 <= at_projected a < at_contiguous a
  /\ forall n, 1 <= n <= at_contiguous a ->
       is_Some (db_events (demo_db trace_reported) !! (demo_attempt, n)).
Proof.
  destruct demo_reported as (a & Ha & _ & Hlt). exists a. split.
  - destruct (lg_prefix _ (after_ledger demo_scheduler demo_protocol trace_reported) _ _ Ha)
      as (Hb & _). lia.
  - exact (proj1 (@acknowledged_prefix_exact demo_digest demo_scheduler demo_protocol
                    trace_reported demo_attempt a Ha)).
Defined.
Lemma projection_progress_witness : exists n db',
  mark_event_projected (at_time 40) demo_attempt n (demo_db trace_reported) = Ok (true, db').
Proof.
  destruct demo_reported as (a & Ha & Hauth & Hlt).
  destruct (@projection_progress demo_digest demo_scheduler demo_protocol trace_reported
              (at_time 40) demo_attempt a Ha Hauth Hlt) as (e & db' & _ & _ & Hm & _).
  exists (at_projected a + 1), db'. exact Hm.
Defined.
