(* ===== verification/FleetProjection.v ===== *)
(** * The projection of stored events

    [project_events], [plan_next_repeat] and [surface] of
    crates/sbgh-daemon/src/fleet/coordinator.rs: the loop that turns the stored events and progress of
    attempts into reports on GitHub and Slack, with its backoff for queue positions
    ([SlackQueueProjectionState]).  What the calls outside the fleet store answer, which transactions of
    others commit between the calls, and whether a call of the store fails or loses its answer is a
    script ([Moment], one for each row of a batch).  The main results are that the reports of
    an attempt are made in the order of its events, each from the stored event and at least once before the
    mark passes it, and that the failures of one attempt do not hold back another, but for
    the planning of the next run. *)
From stdpp Require Import base list strings gmap relations.
From Stdlib Require Import ZArith Lia.
From S2P Require Import Prelude RustStr Json FleetModel Negotiation Validate FleetDb Workload Submission SubmissionStore Preparation.
From S2P Require Import FleetSessions FleetScheduling FleetEvents FleetAdmin FleetSpec FleetRefine FleetSystem FleetDemo FleetSafety FleetRetry FleetLedger FleetArtifacts.

Local Open Scope Z_scope.
#[local] Arguments lit _ : simpl never.

(** ** Queue positions

    Times are milliseconds. *)
Definition SLACK_QUEUE_RETRY_INITIAL : Z := 15000.
Definition SLACK_QUEUE_RETRY_MAX : Z := 60000.
Record SlackQueueProjectionState := {
  qp_last_successful_position : option Z;
  qp_consecutive_failures : Z;
  qp_retry_not_before : option Z
}.
Definition SlackQueueProjectionState_default : SlackQueueProjectionState :=
  {| qp_last_successful_position := None; qp_consecutive_failures := 0; qp_retry_not_before := None |}.
Definition should_attempt (q : SlackQueueProjectionState) (position now : Z) : bool :=
  if bool_decide (qp_last_successful_position q = Some position) then false
  else match qp_retry_not_before q with None => true | Some retry_at => retry_at <=? now end.
Definition record_success (position : Z) (q : SlackQueueProjectionState) : SlackQueueProjectionState :=
  {| qp_last_successful_position := Some position; qp_consecutive_failures := 0; qp_retry_not_before := None |}.
Definition record_failure (now : Z) (q : SlackQueueProjectionState) : SlackQueueProjectionState * Z :=
  let failures := Z.min (qp_consecutive_failures q + 1) U32_MAX in
  let shift := Z.min (Z.max (failures - 1) 0) 2 in
  let delay := Z.min (SLACK_QUEUE_RETRY_INITIAL * Z.shiftl 1 shift) SLACK_QUEUE_RETRY_MAX in
  ({| qp_last_successful_position := qp_last_successful_position q; qp_consecutive_failures := failures;
      qp_retry_not_before := Some (now + delay) |}, delay).

(** [update_slack_queue_positions], up to the sweep of the sessions: what the call for each queued job
    answers, and the clock, is a script; a sent position has the job, the jobs ahead and the total. *)
Record QueueMoment := { qm_now : Z; qm_ok : bool; qm_after : Z }.
Record QueuePass := {
  qu_projection : gmap Uuid SlackQueueProjectionState;
  qu_seen : gset Uuid;
  qu_sent : list (Uuid * (Z * Z))
}.
Definition queue_position_due (projection : gmap Uuid SlackQueueProjectionState) (job : Uuid) (ahead now : Z) : bool :=
  match projection !! job with Some state => should_attempt state ahead now | None => true end.
Definition tracks_position (job : RunnableJob) : bool :=
  match rj_progress job with Progress_Slack _ _ _ _ => rj_task_run_index job =? 0 | _ => false end.
Definition queue_position_step (slack : bool) (in_flight total : Z) (m : QueueMoment) (index : nat) (job : RunnableJob)
    (q : QueuePass) : QueuePass :=
  if negb (tracks_position job) then q else
  let ahead := in_flight + Z.of_nat index in
  let q := {| qu_projection := qu_projection q; qu_seen := {[ rj_id job ]} ∪ qu_seen q; qu_sent := qu_sent q |} in
  if negb (queue_position_due (qu_projection q) (rj_id job) ahead (qm_now m)) then q else
  if negb slack then q else
  let state := default SlackQueueProjectionState_default (qu_projection q !! rj_id job) in
  let state := if qm_ok m then record_success ahead state else (record_failure (qm_after m) state).1 in
  {| qu_projection := <[rj_id job := state]> (qu_projection q); qu_seen := qu_seen q;
     qu_sent := qu_sent q ++ [(rj_id job, (ahead, total))] |}.
Fixpoint queue_position_loop (slack : bool) (in_flight total : Z) (ms : nat -> QueueMoment) (index : nat)
    (queued : list RunnableJob) (q : QueuePass) : QueuePass :=
  match queued with
  | [] => q
  | job :: rest => queue_position_loop slack in_flight total ms (S index) rest
                     (queue_position_step slack in_flight total (ms index) index job q)
  end.
Definition update_slack_queue_positions (slack : bool) (snapshot : option Z) (ms : nat -> QueueMoment)
    (queued : list RunnableJob) (projection : gmap Uuid SlackQueueProjectionState)
  : gmap Uuid SlackQueueProjectionState * list (Uuid * (Z * Z)) :=
  match snapshot with
  | None => (projection, [])
  | Some in_flight =>
      let q := queue_position_loop slack in_flight (in_flight + Z.of_nat (length queued)) ms 0 queued
                 {| qu_projection := projection; qu_seen := ∅; qu_sent := [] |} in
      (filter (fun '(job, _) => job ∈ qu_seen q) (qu_projection q), qu_sent q)
  end.

(** Consecutive failures wait 15, 30 and then 60 seconds; a success ends the series. *)
Fixpoint failing (times : list Z) (q : SlackQueueProjectionState) : SlackQueueProjectionState :=
  match times with [] => q | now :: rest => failing rest (record_failure now q).1 end.
Lemma failing_count times q : 0 <= qp_consecutive_failures q <= U32_MAX ->
  qp_consecutive_failures (failing times q) = Z.min (qp_consecutive_failures q + Z.of_nat (length times)) U32_MAX.
Proof.
  revert q. induction times as [|t ts IH]; intros q Hq; cbn [failing length]; [lia|].
  rewrite IH; cbn [record_failure fst qp_consecutive_failures]; [|unfold U32_MAX in *; lia]. lia.
Qed.
Lemma backoff_delays position times now q :
  (record_failure now (failing times (record_success position q))).2
  = match length times with 0%nat => 15000 | 1%nat => 30000 | _ => 60000 end.
Proof.
  unfold record_failure. rewrite failing_count by (cbn; unfold U32_MAX; lia). cbn [record_success qp_consecutive_failures snd].
  unfold SLACK_QUEUE_RETRY_INITIAL, SLACK_QUEUE_RETRY_MAX, U32_MAX.
  destruct (length times) as [|[|k]]; [done | done|].
  replace (Z.min (Z.max _ 0) 2) with 2 by lia. done.
Qed.

(** The jobs a pass sends a position for, computed from the state before it. *)
Definition positions_due (in_flight total : Z) (ms : nat -> QueueMoment) (projection : gmap Uuid SlackQueueProjectionState)
    (base : nat) (queued : list RunnableJob) : list (Uuid * (Z * Z)) :=
  concat (imap (fun i job =>
    let ahead := in_flight + Z.of_nat (base + i) in
    if tracks_position job && queue_position_due projection (rj_id job) ahead (qm_now (ms (base + i)%nat))
    then [(rj_id job, (ahead, total))] else []) queued).
Lemma positions_due_cons in_flight total ms projection base job queued :
  positions_due in_flight total ms projection base (job :: queued)
  = (if tracks_position job && queue_position_due projection (rj_id job) (in_flight + Z.of_nat base) (qm_now (ms base))
     then [(rj_id job, (in_flight + Z.of_nat base, total))] else [])
    ++ positions_due in_flight total ms projection (S base) queued.
Proof.
  unfold positions_due. cbn [imap concat]. rewrite Nat.add_0_r. f_equal. f_equal. apply imap_ext. intros i x _. cbn.
  by rewrite Nat.add_succ_r.
Qed.
Lemma positions_due_insert in_flight total ms projection base job state queued :
  job ∉ map rj_id queued ->
  positions_due in_flight total ms (<[job := state]> projection) base queued
  = positions_due in_flight total ms projection base queued.
Proof.
  intros Hni. unfold positions_due. f_equal. apply imap_ext. intros i x Hx. unfold queue_position_due.
  rewrite lookup_insert_ne; [done|]. intros ->. apply Hni, list_elem_of_fmap. exists x. split; [done|].
  by eapply list_elem_of_lookup_2.
Qed.
Lemma queue_position_loop_sent in_flight total ms base queued q :
  NoDup (map rj_id queued) ->
  qu_sent (queue_position_loop true in_flight total ms base queued q)
  = qu_sent q ++ positions_due in_flight total ms (qu_projection q) base queued.
Proof.
  revert base q. induction queued as [|job queued IH]; intros base q Hnd; [by rewrite app_nil_r|].
  cbn [map] in Hnd. apply NoDup_cons in Hnd as [Hni Hnd]. cbn [queue_position_loop].
  rewrite IH, positions_due_cons by done. unfold queue_position_step. cbn [qu_projection].
  destruct (tracks_position job); cbn [negb andb]; [|done].
  destruct (queue_position_due _ _ _ _); cbn [negb qu_sent qu_projection]; [|done].
  by rewrite positions_due_insert, <- app_assoc by done.
Qed.
Lemma queue_position_loop_seen slack in_flight total ms base queued q id :
  id ∈ qu_seen (queue_position_loop slack in_flight total ms base queued q)
  <-> id ∈ qu_seen q \/ exists job, job ∈ queued /\ tracks_position job = true /\ rj_id job = id.
Proof.
  revert base q. induction queued as [|job queued IH]; intros base q; cbn [queue_position_loop]; [set_solver|].
  rewrite IH. assert (Hs : id ∈ qu_seen (queue_position_step slack in_flight total (ms base) base job q)
    <-> id ∈ qu_seen q \/ (tracks_position job = true /\ rj_id job = id)).
  { unfold queue_position_step. destruct (tracks_position job); cbn [negb]; repeat case_match; set_solver. }
  rewrite Hs. setoid_rewrite elem_of_cons. naive_solver.
Qed.
(** Queue positions are sent exactly when due: a pass sends, in the order of the queue, the position of every
    first run of a Slack job whose position changed since it was last sent and whose backoff is over, and of no other
    job; and it forgets every job that is no longer queued. *)
Theorem queue_positions_exact in_flight ms queued projection :
  NoDup (map rj_id queued) ->
  let out := update_slack_queue_positions true (Some in_flight) ms queued projection in
  out.2 = positions_due in_flight (in_flight + Z.of_nat (length queued)) ms projection 0 queued
  /\ forall id, is_Some (out.1 !! id) -> exists job, job ∈ queued /\ tracks_position job = true /\ rj_id job = id.
Proof.
  intros Hnd out. split; [unfold out, update_slack_queue_positions; cbn [snd]; by rewrite queue_position_loop_sent|].
  intros id [st Hst]. unfold out, update_slack_queue_positions in Hst. cbn [fst] in Hst.
  apply map_lookup_filter_Some in Hst as [_ Hseen]. apply queue_position_loop_seen in Hseen as [Hin|?]; [set_solver | done].
Qed.

(** ** Reports

    What the reporting surface is told, with the event it is told for. *)
Inductive Report :=
| Rep_started (attempt : Uuid) (seq : Z)
| Rep_phase (attempt : Uuid) (seq : Z) (label : rstr) (elapsed_ms : Z)
| Rep_terminal (attempt : Uuid) (seq : Z) (outcome : TerminalOutcome)
| Rep_progress (attempt : Uuid) (seq : Z) (update : ProgressUpdate).

(** ** Scripts *)
Inductive Loaded := Load_job (job : RunnableJob) | Load_missing | Load_failed.
Inductive Fate := Fate_runs | Fate_fails | Fate_lost.
Record Moment := {
  mo_env : TxEnv;
  mo_before_check : list FleetOp;
  mo_check_ok : bool;
  mo_load : Loaded;
  mo_surface : bool;
  mo_before_outcome : list FleetOp;
  mo_outcome_ok : bool;
  mo_object : rstr -> option Z;
  mo_put : rstr -> bool;
  mo_append : bool;
  mo_report : bool;
  mo_before_mark : list FleetOp;
  mo_mark : Fate
}.
Record Projector := {
  pj_db : FleetDb;
  (** Every report, with whether the call succeeded. *)
  pj_log : list (Report * bool);
  pj_blocked : gset Uuid;
  pj_surfaces : gset Uuid;
  (** The jobs whose next run was asked for. *)
  pj_planned : list Uuid
}.
Definition with_db (db : FleetDb) (s : Projector) : Projector :=
  {| pj_db := db; pj_log := pj_log s; pj_blocked := pj_blocked s; pj_surfaces := pj_surfaces s;
     pj_planned := pj_planned s |}.
Definition with_blocked (b : gset Uuid) (s : Projector) : Projector :=
  {| pj_db := pj_db s; pj_log := pj_log s; pj_blocked := b; pj_surfaces := pj_surfaces s; pj_planned := pj_planned s |}.
Definition with_surfaces (b : gset Uuid) (s : Projector) : Projector :=
  {| pj_db := pj_db s; pj_log := pj_log s; pj_blocked := pj_blocked s; pj_surfaces := b; pj_planned := pj_planned s |}.
Definition block (attempt : Uuid) (s : Projector) : Projector := with_blocked ({[ attempt ]} ∪ pj_blocked s) s.
Definition log_report (r : Report) (ok : bool) (s : Projector) : Projector :=
  {| pj_db := pj_db s; pj_log := pj_log s ++ [(r, ok)]; pj_blocked := pj_blocked s; pj_surfaces := pj_surfaces s;
     pj_planned := pj_planned s |}.
Definition plan (job : option Uuid) (s : Projector) : Projector :=
  {| pj_db := pj_db s; pj_log := pj_log s; pj_blocked := pj_blocked s; pj_surfaces := pj_surfaces s;
     pj_planned := pj_planned s ++ match job with Some id => [id] | None => [] end |}.

(** ** The next run of a submission *)
Definition plan_next_repeat (m : Moment) (job : RunnableJob) (outcome : TerminalOutcome) : result (option Uuid) unit :=
  if negb (uses_shared_calibration (rj_task_kind job) (rj_build_target job) (rj_submission_requested_run_count job))
  then Ok None
  else match outcome with
       | Outcome_Completed summary _ =>
           let? key := ok_or (value_get "sqlite_archived_path" summary ≫= as_str) tt in
           let? size := ok_or (mo_object m key) tt in
           ensure (0 <? size) tt ;?
           ensure (mo_put m (submission_artifact_key (rj_submission_artifact_prefix job) SUBMISSION_SQLITE_RELATIVE)) tt ;?
           ensure (mo_append m) tt ;?
           Ok (Some (rj_id job))
       | _ => Ok None
       end.

Section Projection.
Context `{DigestEnv}.
Definition others (ops : list FleetOp) (s : Projector) : Projector := with_db (run ops (pj_db s)) s.
(** A call of the store that marks a row: whether it was answered, and what it left. *)
Definition mark_call (fate : Fate) (tx : Tx bool) (s : Projector) : bool * Projector :=
  match fate with
  | Fate_fails => (false, s)
  | Fate_runs => match tx (pj_db s) with Ok (_, db) => (true, with_db db s) | Err _ => (false, s) end
  | Fate_lost => match tx (pj_db s) with Ok (_, db) => (false, with_db db s) | Err _ => (false, s) end
  end.
(** From the projection on: a failure blocks the attempt for the rest of the pass. *)
Definition settle (m : Moment) (attempt : Uuid) (seq : Z) (terminal : bool) (r : Report) (s : Projector)
  : bool * Projector :=
  let s := log_report r (mo_report m) s in
  if mo_report m then
    let s := if terminal then with_surfaces (pj_surfaces s ∖ {[ attempt ]}) s else s in
    mark_call (mo_mark m) (mark_event_projected (mo_env m) attempt seq) (others (mo_before_mark m) s)
  else (true, block attempt s).
Definition phase_report (attempt : Uuid) (seq : Z) (label : rstr) (elapsed_ms : Z) : Report :=
  if rstr_eqb label (lit "accepted") then Rep_started attempt seq else Rep_phase attempt seq label elapsed_ms.
(** One event; [false] is an error that ends the pass. *)
Definition project_event (m : Moment) (ev : (Uuid * Z) * AttemptEvent) (s : Projector) : bool * Projector :=
  let '((attempt, seq), e) := ev in
  if bool_decide (attempt ∈ pj_blocked s) then (true, s) else
  let s := others (mo_before_check m) s in
  if negb (mo_check_ok m) then (false, s) else
  if negb (attempt_projection_is_authoritative (mo_env m) attempt (pj_db s)) then (true, s) else
  match mo_load m with
  | Load_missing | Load_failed => (true, block attempt s)
  | Load_job job =>
      if negb (bool_decide (attempt ∈ pj_surfaces s) || mo_surface m) then (true, block attempt s) else
      let s := with_surfaces ({[ attempt ]} ∪ pj_surfaces s) s in
      match ae_payload e with
      | Event_Phase label elapsed_ms => settle m attempt seq false (phase_report attempt seq label elapsed_ms) s
      | Event_Terminal _ =>
          let s := others (mo_before_outcome m) s in
          if negb (mo_outcome_ok m) then (false, s) else
          match attempt_terminal_outcome attempt (pj_db s) with
          | None => (true, s)
          | Some outcome =>
              match plan_next_repeat m job outcome with
              | Err _ => (false, s)
              | Ok next => settle m attempt seq true (Rep_terminal attempt seq outcome) (plan next s)
              end
          end
      end
  end.
Fixpoint project_loop (ms : nat -> Moment) (i : nat) (evs : list ((Uuid * Z) * AttemptEvent)) (s : Projector)
  : bool * Projector :=
  match evs with
  | [] => (true, s)
  | ev :: rest =>
      let '(ok, s) := project_event (ms i) ev s in
      if ok : bool then project_loop ms (S i) rest s else (false, s)
  end.
(** One progress update. *)
Definition progress_step_known (step : rstr) : bool := rstr_eqb step (lit "calibrate") || rstr_eqb step (lit "run").
Definition project_update (m : Moment) (p : (Uuid * Z) * AttemptProgress) (s : Projector) : bool * Projector :=
  let '((attempt, seq), row) := p in
  if bool_decide (attempt ∈ pj_blocked s) then (true, s) else
  let s := others (mo_before_check m) s in
  if negb (mo_check_ok m) then (false, s) else
  if negb (attempt_projection_is_authoritative (mo_env m) attempt (pj_db s)) then (true, s) else
  match mo_load m with
  | Load_missing | Load_failed => (true, block attempt s)
  | Load_job job =>
      let mark := mark_call (mo_mark m) (mark_progress_projected (mo_env m) attempt seq) in
      if negb (progress_step_known (pu_workflow_step (ap_update row))) then mark (others (mo_before_mark m) s) else
      if negb (bool_decide (attempt ∈ pj_surfaces s) || mo_surface m) then (true, block attempt s) else
      let s := log_report (Rep_progress attempt seq (ap_update row)) (mo_report m)
                 (with_surfaces ({[ attempt ]} ∪ pj_surfaces s) s) in
      if mo_report m then mark (others (mo_before_mark m) s) else (true, block attempt s)
  end.
Fixpoint update_loop (ms : nat -> Moment) (i : nat) (ps : list ((Uuid * Z) * AttemptProgress)) (s : Projector)
  : bool * Projector :=
  match ps with
  | [] => (true, s)
  | p :: rest =>
      let '(ok, s) := project_update (ms i) p s in
      if ok : bool then update_loop ms (S i) rest s else (false, s)
  end.

(** One pass. *)
Record PassScript := {
  pa_env : TxEnv;
  pa_list_ok : bool;
  pa_events : nat -> Moment;
  pa_between : list FleetOp;
  pa_progress_env : TxEnv;
  pa_progress_ok : bool;
  pa_updates : nat -> Moment
}.
Definition PROJECTION_BATCH : nat := 128.
Definition project_events (sc : PassScript) (s : Projector) : bool * Projector :=
  let s := with_blocked ∅ s in
  if negb (pa_list_ok sc) then (false, s) else
  let '(ok, s) := project_loop (pa_events sc) 0 (unprojected_events (pa_env sc) PROJECTION_BATCH (pj_db s)) s in
  if negb ok then (false, s) else
  let s := others (pa_between sc) s in
  if negb (pa_progress_ok sc) then (false, s) else
  update_loop (pa_updates sc) 0 (unprojected_progress (pa_progress_env sc) PROJECTION_BATCH (pj_db s)) s.

(** ** The coordinator beside everybody else

    Passes alternate with transactions of others, of which none marks events; a restart forgets the
    surfaces. *)
Definition quiet (ops : list FleetOp) : Prop := Forall (fun op => marking op = false) ops.
Definition moment_quiet (m : Moment) : Prop :=
  quiet (mo_before_check m) /\ quiet (mo_before_outcome m) /\ quiet (mo_before_mark m).
Definition script_quiet (sc : PassScript) : Prop :=
  (forall i, moment_quiet (pa_events sc i)) /\ quiet (pa_between sc) /\ (forall i, moment_quiet (pa_updates sc i)).
Inductive projector_step : Projector -> Projector -> Prop :=
| Pstep_others ops s : quiet ops -> projector_step s (others ops s)
| Pstep_pass sc s : script_quiet sc -> projector_step s (project_events sc s).2
| Pstep_restart s : projector_step s (with_surfaces ∅ s).
Definition projector_start (scheduler : SchedulerPolicy) (protocol : ProtocolPolicy) : Projector :=
  {| pj_db := empty_db scheduler protocol; pj_log := []; pj_blocked := ∅; pj_surfaces := ∅; pj_planned := [] |}.
End Projection.

(** ** The invariant *)
(** The report of a stored event. *)
Definition event_report (id : Uuid) (n : Z) (p : ReliableEventPayload) (r : Report) : Prop :=
  match p with
  | Event_Phase label elapsed_ms => r = phase_report id n label elapsed_ms
  | Event_Terminal _ => exists outcome, r = Rep_terminal id n outcome
  end.
Definition report_event (r : Report) : option (Uuid * Z) :=
  match r with
  | Rep_started id n | Rep_phase id n _ _ | Rep_terminal id n _ => Some (id, n)
  | Rep_progress _ _ _ => None
  end.
(** The event was reported, and the report succeeded. *)
Definition told (log : list (Report * bool)) (id : Uuid) (n : Z) (p : ReliableEventPayload) : Prop :=
  exists r, event_report id n p r /\ (r, true) ∈ log.
Definition told_below (log : list (Report * bool)) (db : FleetDb) (id : Uuid) (n : Z) : Prop :=
  forall m, 1 <= m < n -> exists e, db_events db !! (id, m) = Some e /\ told log id m (ae_payload e).
(** A report is of a stored event, after the reports of all earlier ones; a terminal one tells the
    recorded outcome. *)
Definition well_reported (db : FleetDb) (pre : list (Report * bool)) (r : Report) : Prop :=
  forall id n, report_event r = Some (id, n) ->
    (exists e, db_events db !! (id, n) = Some e /\ event_report id n (ae_payload e) r)
    /\ (forall outcome, r = Rep_terminal id n outcome ->
          exists a t, db_attempts db !! id = Some a /\ at_terminal a = Some t /\ tr_outcome t = outcome)
    /\ told_below pre db id n.
Record projector_ok (s : Projector) : Prop := {
  po_ledger : ledger_ok (pj_db s);
  po_told : forall id a n e, db_attempts (pj_db s) !! id = Some a -> ~ at_lost a -> 1 <= n <= at_projected a ->
    db_events (pj_db s) !! (id, n) = Some e -> told (pj_log s) id n (ae_payload e);
  po_order : forall pre r ok post, pj_log s = pre ++ (r, ok) :: post -> well_reported (pj_db s) pre r
}.
Lemma told_mono log log' id n p : log ⊆ log' -> told log id n p -> told log' id n p.
Proof. intros Hs (r & Hr & Hin). exists r. split; [done | by apply Hs]. Qed.
Lemma told_below_keeps log db db' id n : keeps db db' -> told_below log db id n -> told_below log db' id n.
Proof.
  intros [Hk _] Ht m Hm. destruct (Ht m Hm) as (e & He & Htold). destruct (Hk _ _ He) as (e' & He' & [_ Hp _]).
  exists e'. split; [done|]. by rewrite Hp.
Qed.
Lemma well_reported_keeps db db' pre r :
  keeps db db' -> keeps_outcomes db db' -> well_reported db pre r -> well_reported db' pre r.
Proof.
  intros Hk Ho Hw id n Hr. destruct (Hw id n Hr) as ((e & He & Hrep) & Hout & Hb).
  split; [|split; [|by eapply told_below_keeps]].
  - destruct (kp_events _ _ Hk _ _ He) as (e' & He' & [_ Hp _]). exists e'. split; [done|]. by rewrite Hp.
  - intros outcome Heq. destruct (Hout outcome Heq) as (a & t & Ha & Ht & Hto).
    destruct (Ho id a t Ha Ht) as (a' & Ha' & Ht'). by exists a', t.
Qed.
(** A change of the database that keeps what was recorded. *)
Lemma ok_weak s db' :
  projector_ok s -> lsimw (pj_db s) db' ->
  (forall id a n e, db_attempts db' !! id = Some a -> ~ at_lost a -> 1 <= n <= at_projected a ->
     db_events db' !! (id, n) = Some e -> told (pj_log s) id n (ae_payload e)) ->
  projector_ok (with_db db' s).
Proof.
  intros [Hl Ht Ho] [Wl Wk Wo] Hnew. split; cbn; [by apply Wl | done|].
  intros pre r ok post Hlog. eapply well_reported_keeps; [exact Wk | by apply Wo | by eapply Ho].
Qed.
Lemma ok_quiet s db' : projector_ok s -> lsim (pj_db s) db' -> projector_ok (with_db db' s).
Proof.
  intros Hok [Hw [Hlost Hmarks]]. apply ok_weak; [done | done|]. intros id a' n e' Ha' Hnl Hn He'.
  destruct (Hmarks id a' Ha') as [?|Hp]; [done|]. rewrite Hp in Hn.
  destruct (db_attempts (pj_db s) !! id) as [a|] eqn:Ha; cbn in Hn; [|lia].
  destruct (Hlost id a Ha) as (a2 & Ha2 & Hl). simplify_eq.
  destruct (lg_prefix _ (po_ledger _ Hok) id a Ha) as (Hb & Hall & _).
  destruct (Hall n) as [e He]; [lia|]. destruct (kp_events _ _ (ls_keeps _ _ Hw) _ _ He) as (e2 & He2 & [_ Hpay _]).
  simplify_eq. rewrite Hpay. eapply (po_told _ Hok); eauto.
Qed.
Lemma ok_flags s s' : pj_db s' = pj_db s -> pj_log s' = pj_log s -> projector_ok s -> projector_ok s'.
Proof. intros Hd Hl [H1 H2 H3]. by split; rewrite ?Hd, ?Hl. Qed.
Lemma snoc_cases {A} (l pre post : list A) x y :
  l ++ [x] = pre ++ y :: post -> (pre = l /\ y = x) \/ exists post', l = pre ++ y :: post'.
Proof.
  intros Heq. destruct post as [|z post' _] using rev_ind.
  - apply app_inj_tail in Heq as [-> ->]. by left.
  - rewrite app_comm_cons, app_assoc in Heq. apply app_inj_tail in Heq as [-> _]. right. by eexists.
Qed.
Lemma ok_log s r ok : projector_ok s -> well_reported (pj_db s) (pj_log s) r -> projector_ok (log_report r ok s).
Proof.
  intros [Hl Ht Ho] Hr. split; cbn; [done| |].
  - intros id a n e Ha Hnl Hn He. eapply told_mono; [|by eapply Ht]. set_solver.
  - intros pre r' ok' post Heq. apply snoc_cases in Heq as [[-> [= -> ->]]|[post' Heq]]; [done | by eapply Ho].
Qed.

(** An event of a batch that was not settled yet: stored as it was read, and the next of its attempt unless
    that lost its authority. *)
Definition pending (db : FleetDb) (ev : (Uuid * Z) * AttemptEvent) : Prop :=
  (exists e, db_events db !! ev.1 = Some e /\ ae_payload e = ae_payload ev.2)
  /\ exists a, db_attempts db !! ev.1.1 = Some a /\ (at_lost a \/ at_projected a + 1 = ev.1.2).
(** A stretch of a pass that concerns one attempt. *)
Record advances (id : Uuid) (s s' : Projector) : Prop := {
  ad_ok : projector_ok s -> projector_ok s';
  ad_pending : forall ev, ev.1.1 <> id -> pending (pj_db s) ev -> pending (pj_db s') ev
}.
Lemma advances_trans id s1 s2 s3 : advances id s1 s2 -> advances id s2 s3 -> advances id s1 s3.
Proof. intros [A1 A2] [B1 B2]. split; auto. Qed.
Lemma advances_flags id s s' : pj_db s' = pj_db s -> pj_log s' = pj_log s -> advances id s s'.
Proof. intros Hd Hl. split; [by apply ok_flags | by rewrite Hd]. Qed.
Lemma pending_keeps db db' ev : keeps db db' ->
  (forall a, db_attempts db !! ev.1.1 = Some a -> exists a', db_attempts db' !! ev.1.1 = Some a'
     /\ (at_lost a' \/ (at_projected a' = at_projected a /\ (at_lost a -> at_lost a')))) ->
  pending db ev -> pending db' ev.
Proof.
  intros Hk Hkeep [(e & He & Hp) (a & Ha & Hn)]. split.
  - destruct (kp_events _ _ Hk _ _ He) as (e' & He' & [_ Hp' _]). exists e'. split; [done|]. by rewrite Hp'.
  - destruct (Hkeep a Ha) as (a' & Ha' & Hc). exists a'. split; [done|]. destruct Hc as [?|[-> Hl]]; [by left|].
    destruct Hn; [left; by apply Hl | by right].
Qed.
Lemma pending_quiet db db' ev : lsim db db' -> pending db ev -> pending db' ev.
Proof.
  intros [Hw [Hlost Hmarks]]. apply pending_keeps; [apply Hw|]. intros a Ha.
  destruct (Hlost _ a Ha) as (a' & Ha' & Hl). exists a'. split; [done|].
  destruct (Hmarks _ a' Ha') as [?|Hp]; [by left|]. rewrite Ha in Hp. by right.
Qed.
Lemma advances_quiet id s db' : lsim (pj_db s) db' -> advances id s (with_db db' s).
Proof. intros Hs. split; [intros; by apply ok_quiet | intros; by eapply pending_quiet]. Qed.

(** Marking the next event of an attempt. *)
Lemma mark_event_cases env id n db x db' :
  as_i64 n = n -> mark_event_projected env id n db = Ok (x, db') ->
  db' = db \/ exists a, db_attempts db !! id = Some a /\ at_projected a + 1 = n
    /\ db_attempts db' = <[id := with_attempt_projected n a]> (db_attempts db).
Proof.
  intros Hn. unfold mark_event_projected. rewrite Hn.
  destruct (db_attempts db !! id) as [a|] eqn:Ha; [|intros; simplify_eq; by left].
  destruct (db_events db !! (id, n)) as [e|]; [|intros; simplify_eq; by left].
  intros Hm. head_case Hm E; simplify_eq; [|by left]. bool_hyps. right. exists a. split_and!; [done | lia|].
  by destruct (ae_payload e).
Qed.
Lemma advances_mark env id n s x db' e :
  db_events (pj_db s) !! (id, n) = Some e -> told (pj_log s) id n (ae_payload e) ->
  mark_event_projected env id n (pj_db s) = Ok (x, db') ->
  projector_ok s -> advances id s (with_db db' s).
Proof.
  intros He Ht Hm Hok. pose proof (lsim_mark_projected _ _ _ _ _ _ Hm) as Hw.
  destruct (lg_keys _ (po_ledger _ Hok) id n e He) as [_ Hn].
  apply mark_event_cases in Hm as [->|(a & Ha & Hnext & Hatt)]; [by apply advances_flags | |apply as_i64_id; lia].
  split.
  - intros _. apply ok_weak; [done | done|]. intros k b q e' Hb Hnl Hq He'.
    assert (Hold : forall e0, db_events (pj_db s) !! (k, q) = Some e0 -> ae_payload e' = ae_payload e0).
    { intros e0 He0. destruct (kp_events _ _ (ls_keeps _ _ Hw) _ _ He0) as (e2 & He2 & [_ Hp _]). by simplify_eq. }
    rewrite Hatt in Hb. apply lookup_insert_Some in Hb as [[<- <-]|[_ Hb]]; cbn in Hq.
    + destruct (Z.eq_dec q n) as [->|]; [by rewrite (Hold e He)|].
      destruct (lg_prefix _ (po_ledger _ Hok) id a Ha) as (Hb & Hall & _). destruct (Hall q) as [e0 He0]; [lia|].
      rewrite (Hold e0 He0). eapply (po_told _ Hok); eauto; lia.
    + destruct (lg_prefix _ (po_ledger _ Hok) k b Hb) as (Hb' & Hall & _). destruct (Hall q) as [e0 He0]; [lia|].
      rewrite (Hold e0 He0). eapply (po_told _ Hok); eauto.
  - intros ev Hne. apply pending_keeps; [apply Hw|]. intros b Hb. exists b. cbn. rewrite Hatt, lookup_insert_ne by done.
    split; [done | by right].
Qed.

Section Passes.
Context `{DigestEnv}.
Lemma lsim_quiet ops db : quiet ops -> lsim db (run ops db).
Proof. intros Hq. split; [apply lsim_run | by apply marks_kept_run]. Qed.
Lemma advances_others id ops s : quiet ops -> advances id s (others ops s).
Proof. intros Hq. by apply advances_quiet, lsim_quiet. Qed.
Lemma pending_others ops s ev : quiet ops -> pending (pj_db s) ev -> pending (pj_db (others ops s)) ev.
Proof. intros Hq. by apply pending_quiet, lsim_quiet. Qed.
Lemma ok_others ops s : quiet ops -> projector_ok s -> projector_ok (others ops s).
Proof. intros Hq. by apply (ad_ok 0), advances_others. Qed.

(** The report of an event is due: it is stored as it was read, and those before it were reported. *)
Record due (s : Projector) (id : Uuid) (n : Z) (e : AttemptEvent) : Prop := {
  du_stored : exists e0, db_events (pj_db s) !! (id, n) = Some e0 /\ ae_payload e0 = ae_payload e;
  du_below : told_below (pj_log s) (pj_db s) id n
}.
Lemma due_others ops s id n e : due s id n e -> due (others ops s) id n e.
Proof.
  intros [(e0 & He0 & Hp) Hb]. pose proof (ls_keeps _ _ (lsim_run ops (pj_db s))) as Hk. split; cbn.
  - destruct (kp_events _ _ Hk _ _ He0) as (e1 & He1 & [_ Hp1 _]). exists e1. split; [done|]. by rewrite Hp1.
  - by eapply told_below_keeps.
Qed.
Lemma due_flags s s' id n e : pj_db s' = pj_db s -> pj_log s' = pj_log s -> due s id n e -> due s' id n e.
Proof. intros Hd Hl [H1 H2]. by split; rewrite ?Hd, ?Hl. Qed.
(** An event that passes the check of authority is due. *)
Lemma pending_due env s id n e :
  projector_ok s -> pending (pj_db s) ((id, n), e) ->
  attempt_projection_is_authoritative env id (pj_db s) = true -> due s id n e.
Proof.
  intros Hok [Hst (a & Ha & Hn)] Hauth. cbn in *. unfold attempt_projection_is_authoritative in Hauth.
  rewrite Ha in Hauth. assert (Hnl : ~ at_lost a).
  { intros [Hl|Hl]; unfold projection_authoritative in Hauth; by rewrite Hl in Hauth. }
  split; [done|]. destruct Hn as [?|Hn]; [done|]. intros q Hq.
  destruct (lg_prefix _ (po_ledger _ Hok) id a Ha) as (Hb & Hall & _). destruct (Hall q) as [eq Heq]; [lia|].
  exists eq. split; [done|]. eapply (po_told _ Hok); eauto; lia.
Qed.
Lemma report_event_of id n p r : event_report id n p r -> report_event r = Some (id, n).
Proof. destruct p; cbn; [intros -> | intros [? ->]]; [unfold phase_report; by case_match | done]. Qed.
Lemma due_well_reported s id n e r :
  due s id n e -> event_report id n (ae_payload e) r ->
  (forall outcome, r = Rep_terminal id n outcome -> exists a t,
     db_attempts (pj_db s) !! id = Some a /\ at_terminal a = Some t /\ tr_outcome t = outcome) ->
  well_reported (pj_db s) (pj_log s) r.
Proof.
  intros [(e0 & He0 & Hp) Hb] Hr Ho k q Hk. rewrite (report_event_of _ _ _ _ Hr) in Hk. simplify_eq.
  split_and!; [|done..]. exists e0. split; [done|]. by rewrite Hp.
Qed.
Lemma mark_call_cases fate tx s :
  (mark_call fate tx s).2 = s \/ exists x db', tx (pj_db s) = Ok (x, db') /\ (mark_call fate tx s).2 = with_db db' s.
Proof. unfold mark_call. destruct fate; [|by left|]; destruct (tx (pj_db s)) as [[x db']|]; eauto. Qed.

(** A due report, and the mark after it. *)
Lemma settle_advances m id n terminal e r s :
  quiet (mo_before_mark m) -> projector_ok s -> due s id n e -> event_report id n (ae_payload e) r ->
  (forall outcome, r = Rep_terminal id n outcome -> exists a t,
     db_attempts (pj_db s) !! id = Some a /\ at_terminal a = Some t /\ tr_outcome t = outcome) ->
  advances id s (settle m id n terminal r s).2.
Proof.
  intros Hq Hok Hd Hr Ho. assert (Hlog : advances id s (log_report r (mo_report m) s)).
  { split; [|done]. intros _. apply ok_log; [done | by eapply due_well_reported]. }
  eapply advances_trans; [exact Hlog|]. apply (ad_ok _ _ _ Hlog) in Hok. unfold settle.
  destruct (mo_report m) eqn:Hm; [|by apply advances_flags].
  set (s1 := log_report r true s) in *.
  set (s2 := if terminal then with_surfaces (pj_surfaces s1 ∖ {[id]}) s1 else s1).
  assert (H2 : pj_db s2 = pj_db s1 /\ pj_log s2 = pj_log s1) by (by unfold s2; destruct terminal).
  destruct H2 as [H2d H2l]. assert (H12 : advances id s1 s2) by (by apply advances_flags).
  eapply advances_trans; [exact H12|]. apply (ad_ok _ _ _ H12) in Hok.
  eapply advances_trans; [by apply (advances_others _ (mo_before_mark m))|].
  apply (ok_others (mo_before_mark m)) in Hok; [|done].
  assert (Hst : exists e1, db_events (pj_db s2) !! (id, n) = Some e1 /\ ae_payload e1 = ae_payload e).
  { rewrite H2d. apply Hd. }
  destruct Hst as (e1 & He1 & Hp1).
  destruct (kp_events _ _ (ls_keeps _ _ (lsim_run (mo_before_mark m) (pj_db s2))) _ _ He1) as (e2 & He2 & [_ Hp2 _]).
  destruct (mark_call_cases (mo_mark m) (mark_event_projected (mo_env m) id n) (others (mo_before_mark m) s2))
    as [->|(x & db' & Htx & ->)]; [by apply advances_flags|].
  eapply advances_mark; [exact He2| |exact Htx|done]. exists r. rewrite Hp2, Hp1. split; [done|].
  cbn. rewrite H2l. cbn. set_solver.
Qed.

Lemma terminal_outcome_recorded id db outcome : attempt_terminal_outcome id db = Some outcome ->
  exists a t, db_attempts db !! id = Some a /\ at_terminal a = Some t /\ tr_outcome t = outcome.
Proof.
  unfold attempt_terminal_outcome. destruct (db_attempts db !! id) as [a|]; [|done]. case_match; [|done].
  intros Ho. apply fmap_Some in Ho as (t & Ht & ->). by exists a, t.
Qed.
Lemma project_event_advances m id n e s :
  moment_quiet m -> projector_ok s -> pending (pj_db s) ((id, n), e) ->
  advances id s (project_event m ((id, n), e) s).2.
Proof.
  intros (Q1 & Q2 & Q3) Hok Hp. unfold project_event. case_bool_decide; [by apply advances_flags|].
  eapply advances_trans; [by apply (advances_others _ (mo_before_check m))|].
  apply (ok_others (mo_before_check m)) in Hok; [|done]. apply (pending_others (mo_before_check m)) in Hp; [|done].
  set (s1 := others (mo_before_check m) s) in *. destruct (mo_check_ok m); [cbn [negb]|by apply advances_flags].
  destruct (attempt_projection_is_authoritative (mo_env m) id (pj_db s1)) eqn:Hauth; [cbn [negb]|by apply advances_flags].
  pose proof (pending_due _ _ _ _ _ Hok Hp Hauth) as Hd. destruct (mo_load m) as [job| |]; [|by apply advances_flags..].
  case_match; [by apply advances_flags|]. set (s2 := with_surfaces _ s1).
  assert (H12 : advances id s1 s2) by (by apply advances_flags). eapply advances_trans; [exact H12|].
  apply (ad_ok _ _ _ H12) in Hok. assert (Hd2 : due s2 id n e) by (by apply (due_flags s1)).
  destruct (ae_payload e) as [label elapsed|outcome0] eqn:Hpay.
  - apply settle_advances with e; [done.. | by rewrite Hpay|]. intros outcome. unfold phase_report. by case_match.
  - eapply advances_trans; [by apply (advances_others _ (mo_before_outcome m))|].
    apply (ok_others (mo_before_outcome m)) in Hok; [|done]. apply (due_others (mo_before_outcome m)) in Hd2.
    set (s3 := others (mo_before_outcome m) s2) in *. destruct (mo_outcome_ok m); [cbn [negb]|by apply advances_flags].
    destruct (attempt_terminal_outcome id (pj_db s3)) as [outcome|] eqn:Ho; [|by apply advances_flags].
    destruct (plan_next_repeat m job outcome) as [next|]; [|by apply advances_flags].
    assert (H34 : advances id s3 (plan next s3)) by (by apply advances_flags). eapply advances_trans; [exact H34|].
    apply (ad_ok _ _ _ H34) in Hok. apply settle_advances with e; [done | done | by apply (due_flags s3) | |].
    + rewrite Hpay. by exists outcome.
    + intros ? [= <-]. by apply terminal_outcome_recorded.
Qed.
Lemma project_loop_ok ms i evs s :
  (forall j, moment_quiet (ms j)) -> NoDup (map (fun ev => ev.1.1) evs) -> projector_ok s ->
  Forall (pending (pj_db s)) evs -> projector_ok (project_loop ms i evs s).2.
Proof.
  intros Hms. revert i s. induction evs as [|[[id n] e] evs IH]; intros i s Hnd Hok Hp; [done|].
  apply NoDup_cons in Hnd as [Hni Hnd]. apply Forall_cons in Hp as [Hp Hps]. cbn [project_loop].
  pose proof (project_event_advances (ms i) id n e s (Hms i) Hok Hp) as [Hok' Hkeep].
  destruct (project_event (ms i) (id, n, e) s) as [[] s1]; cbn in *; [|by apply Hok']. apply IH; [done | by apply Hok'|].
  apply Forall_forall. intros ev Hev. apply Hkeep; [|by eapply Forall_forall in Hps]. intros Heq.
  apply Hni, list_elem_of_fmap. by exists ev.
Qed.

(** A batch has one event of an attempt, the next one. *)
Lemma batch_elem env k db ev : ev ∈ unprojected_events env k db ->
  db_events db !! ev.1 = Some ev.2 /\ projectable env db ev.1 ev.2 = true.
Proof.
  intros Hin. unfold unprojected_events in Hin. apply elem_of_take in Hin as (i & Hi & _).
  apply list_elem_of_lookup_2 in Hi. rewrite sort_by_perm in Hi. destruct ev as [key e]. by apply elem_of_rows.
Qed.
Lemma batch_pending env k db : Forall (pending db) (unprojected_events env k db).
Proof.
  apply Forall_forall. intros ev Hin. apply batch_elem in Hin as [He Hp]. split; [by eexists|].
  unfold projectable in Hp. destruct (db_attempts db !! ev.1.1) as [a|] eqn:Ha; [|done]. bool_hyps.
  exists a. split; [done|]. right. lia.
Qed.
Lemma batch_attempts env k db : NoDup (map (fun ev => ev.1.1) (unprojected_events env k db)).
Proof.
  apply NoDup_fmap_2_strong.
  - intros ev ev' Hin Hin' Heq. apply batch_elem in Hin as [He Hp], Hin' as [He' Hp'].
    unfold projectable in Hp, Hp'. rewrite Heq in Hp. destruct (db_attempts db !! ev'.1.1) as [a|]; [|done].
    bool_hyps. destruct ev as [[x y] e], ev' as [[x' y'] e']. cbn in *. assert (y = y') by lia. by simplify_eq.
  - unfold unprojected_events. eapply sublist_NoDup; [|apply sublist_take]. rewrite sort_by_perm.
    eapply NoDup_fmap_1, rows_NoDup.
Qed.

(** The same database and reports. *)
Ltac flags := match goal with Hok : projector_ok ?s |- _ => apply (ok_flags s); [done | done | exact Hok] end.
Lemma mark_progress_ok fate env id n s :
  projector_ok s -> projector_ok (mark_call fate (mark_progress_projected env id n) s).2.
Proof.
  intros Hok. destruct (mark_call_cases fate (mark_progress_projected env id n) s) as [->|(x & db' & Htx & ->)]; [done|].
  apply ok_quiet; [done|]. apply (lsim_op (Op_MarkProgress env id n)); [|done]. cbn. by rewrite Htx.
Qed.
Lemma project_update_ok m p s : moment_quiet m -> projector_ok s -> projector_ok (project_update m p s).2.
Proof.
  intros (Q1 & _ & Q3) Hok. destruct p as [[id n] row]. unfold project_update. case_bool_decide; [done|].
  apply (ok_others (mo_before_check m)) in Hok; [|done]. destruct (mo_check_ok m); [cbn [negb]|done].
  case_match; [done|]. destruct (mo_load m) as [job| |]; [|flags..].
  case_match; [by apply mark_progress_ok, ok_others|]. case_match; [flags|].
  assert (Hl : projector_ok (log_report (Rep_progress id n (ap_update row)) (mo_report m)
                 (with_surfaces ({[id]} ∪ pj_surfaces (others (mo_before_check m) s)) (others (mo_before_check m) s)))).
  { apply ok_log; [flags | done]. }
  destruct (mo_report m); [by apply mark_progress_ok, ok_others | flags].
Qed.
Lemma update_loop_ok ms i ps s :
  (forall j, moment_quiet (ms j)) -> projector_ok s -> projector_ok (update_loop ms i ps s).2.
Proof.
  intros Hms. revert i s. induction ps as [|p ps IH]; intros i s Hok; [done|]. cbn [update_loop].
  apply (project_update_ok (ms i) p) in Hok; [|done]. destruct (project_update (ms i) p s) as [[] s1]; [by apply IH | done].
Qed.
Lemma project_events_ok sc s : script_quiet sc -> projector_ok s -> projector_ok (project_events sc s).2.
Proof.
  intros (Q1 & Q2 & Q3) Hok. apply (ok_flags s (with_blocked ∅ s)) in Hok; [|done..]. unfold project_events.
  set (s0 := with_blocked ∅ s) in *. destruct (pa_list_ok sc); [cbn [negb]|done].
  pose proof (project_loop_ok (pa_events sc) 0 (unprojected_events (pa_env sc) PROJECTION_BATCH (pj_db s0)) s0
                Q1 (batch_attempts _ _ _) Hok (batch_pending _ _ _)) as Hl.
  destruct (project_loop _ _ _ _) as [[] s1]; [cbn [negb]|done]. cbn in Hl.
  apply (ok_others (pa_between sc)) in Hl; [|done]. destruct (pa_progress_ok sc); [cbn [negb]|done].
  by apply update_loop_ok.
Qed.
Lemma projector_reachable_ok scheduler protocol s :
  rtc projector_step (projector_start scheduler protocol) s -> projector_ok s.
Proof.
  apply (rtc_ind_r projector_ok).
  - split; cbn.
    + by split; intros; simpl in *; rewrite lookup_empty in *.
    + intros. by rewrite lookup_empty in *.
    + intros pre r ok post Heq. by destruct pre.
  - intros s1 s2 _ [ops s0 Hq|sc s0 Hq|s0]; [by apply ok_others | by apply project_events_ok | by apply ok_flags].
Qed.

(** C14: Reports are complete, in order and true.  However passes of the coordinator, their failures and lost
    answers, restarts and the transactions of everybody else interleave: an attempt that
    keeps its authority has a successful report for every event up to its projected mark; and each
    report ever made for an event is of a stored event, with the stored label and elapsed time or
    the recorded outcome, and follows successful reports of all earlier events of the attempt. *)
Theorem reports_complete_in_order scheduler protocol s :
  rtc projector_step (projector_start scheduler protocol) s ->
  (forall id a n e, db_attempts (pj_db s) !! id = Some a -> ~ at_lost a -> 1 <= n <= at_projected a ->
     db_events (pj_db s) !! (id, n) = Some e -> told (pj_log s) id n (ae_payload e))
  /\ forall pre r ok post, pj_log s = pre ++ (r, ok) :: post -> well_reported (pj_db s) pre r.
Proof. intros Hr. apply projector_reachable_ok in Hr as [_ Ht Ho]. by split. Qed.
End Passes.

(** ** Isolation *)
Section Isolation.
Context `{DigestEnv}.
(** Nobody else commits during the row, the calls of the store are answered, and the planning of the next
    run does not fail; loading the job, the surface and the report may. *)
Record calm (m : Moment) : Prop := {
  ca_check : mo_before_check m = [];
  ca_outcome : mo_before_outcome m = [];
  ca_mark : mo_before_mark m = [];
  ca_check_ok : mo_check_ok m = true;
  ca_outcome_ok : mo_outcome_ok m = true;
  ca_mark_runs : mo_mark m = Fate_runs;
  ca_plan : forall job outcome, mo_load m = Load_job job -> is_ok (plan_next_repeat m job outcome) = true
}.
(** The row itself is reported. *)
Record delivers (m : Moment) : Prop := {
  de_load : exists job, mo_load m = Load_job job;
  de_surface : mo_surface m = true;
  de_report : mo_report m = true
}.
(** What a pass leaves of an attempt that it does not touch. *)
Record untouched (id : Uuid) (s s' : Projector) : Prop := {
  un_attempt : db_attempts (pj_db s') !! id = db_attempts (pj_db s) !! id;
  un_events : forall n, db_events (pj_db s') !! (id, n) = db_events (pj_db s) !! (id, n);
  un_staging : db_staging (pj_db s') = db_staging (pj_db s);
  un_blocked : id ∈ pj_blocked s' <-> id ∈ pj_blocked s
}.
Lemma untouched_refl id s : untouched id s s.
Proof. by split. Qed.
Lemma untouched_trans id s1 s2 s3 : untouched id s1 s2 -> untouched id s2 s3 -> untouched id s1 s3.
Proof. intros [A1 A2 A3 A4] [B1 B2 B3 B4]. split; [congruence | intros; by rewrite B2 | congruence | by rewrite B4]. Qed.
Lemma untouched_block id k s : k <> id -> untouched id s (block k s).
Proof. intros Hne. split; [done.. |]. cbn. set_solver. Qed.
Lemma others_nil s : others [] s = s.
Proof. by destruct s. Qed.
Lemma mark_untouched env id k n s x db' :
  k <> id -> mark_event_projected env k n (pj_db s) = Ok (x, db') -> untouched id s (with_db db' s).
Proof.
  intros Hne. unfold mark_event_projected. destruct (db_attempts (pj_db s) !! k) as [a|] eqn:Ha; [|intros; by simplify_eq].
  destruct (db_events (pj_db s) !! (k, as_i64 n)) as [e|]; [|intros; by simplify_eq].
  intros Hm. head_case Hm E; simplify_eq; [|done].
  split; cbn; [| intros q | | done]; rewrite ?lookup_insert_ne by congruence; by destruct (ae_payload e).
Qed.
Lemma mark_runs tx s x db' : tx (pj_db s) = Ok (x, db') -> mark_call Fate_runs tx s = (true, with_db db' s).
Proof. intros Htx. cbn. by rewrite Htx. Qed.
Lemma mark_event_total env k n db : exists x db', mark_event_projected env k n db = Ok (x, db').
Proof. unfold mark_event_projected. repeat case_match; eauto. Qed.
Lemma settle_calm m k n terminal r s0 s :
  calm m -> (forall id, untouched id s0 s) -> (settle m k n terminal r s).1 = true
  /\ forall id, k <> id -> untouched id s0 (settle m k n terminal r s).2.
Proof.
  intros Hc H0. unfold settle.
  destruct (mo_report m); [|split; [done|]; intros id Hne; eapply untouched_trans; [apply H0|];
    by destruct (untouched_block id k (log_report r false s) Hne)].
  rewrite (ca_mark _ Hc), others_nil, (ca_mark_runs _ Hc).
  set (s1 := if terminal then _ else _).
  destruct (mark_event_total (mo_env m) k n (pj_db s1)) as (x & db' & Hm). rewrite (mark_runs _ _ _ _ Hm).
  split; [done|]. intros id Hne. eapply untouched_trans; [|by eapply mark_untouched].
  eapply untouched_trans; [apply H0|]. unfold s1. by destruct terminal.
Qed.
Lemma project_event_calm m k n e s :
  calm m -> (project_event m ((k, n), e) s).1 = true
  /\ forall id, k <> id -> untouched id s (project_event m ((k, n), e) s).2.
Proof.
  intros Hc. unfold project_event. rewrite (ca_check _ Hc), (ca_outcome _ Hc), (ca_check_ok _ Hc), (ca_outcome_ok _ Hc).
  case_bool_decide; [done|]. rewrite others_nil. cbn [negb]. case_match; [done|].
  destruct (mo_load m) as [job| |] eqn:Hl; [|split; [done|]; intros; by apply untouched_block..].
  case_match; [split; [done|]; intros; by apply untouched_block|].
  set (s1 := with_surfaces _ s). destruct (ae_payload e) as [label elapsed|o]; [by apply settle_calm|].
  rewrite others_nil. destruct (attempt_terminal_outcome k (pj_db s1)) as [outcome|]; [|done].
  pose proof (ca_plan _ Hc job outcome Hl) as Hp. destruct (plan_next_repeat m job outcome) as [next|]; [|done].
  by apply settle_calm.
Qed.
Lemma project_loop_untouched ms i evs s id :
  (forall j, calm (ms j)) -> id ∉ map (fun ev => ev.1.1) evs ->
  (project_loop ms i evs s).1 = true /\ untouched id s (project_loop ms i evs s).2.
Proof.
  intros Hms. revert i s. induction evs as [|[[k n] e] evs IH]; intros i s Hni; [done|]. cbn [map] in Hni. cbn [project_loop].
  apply not_elem_of_cons in Hni as [Hne Hni]. destruct (project_event_calm (ms i) k n e s (Hms i)) as [H1 H2].
  destruct (project_event (ms i) (k, n, e) s) as [ok s1]. cbn in H1, H2. subst ok.
  destruct (IH (S i) s1 Hni) as [H3 H4]. split; [done|]. eapply untouched_trans; [by apply H2 | done].
Qed.

(** The row of an event that is delivered. *)
Lemma mark_next env id n a e s :
  db_attempts (pj_db s) !! id = Some a -> at_projected a + 1 = n -> n <= at_contiguous a -> as_i64 n = n ->
  db_events (pj_db s) !! (id, n) = Some e ->
  exists x db' e', mark_event_projected env id n (pj_db s) = Ok (x, db')
    /\ db_attempts db' !! id = Some (with_attempt_projected n a)
    /\ db_events db' !! (id, n) = Some e' /\ ae_payload e' = ae_payload e.
Proof.
  intros Ha Hn Hc Hi He. unfold mark_event_projected. rewrite Hi, Ha, He.
  rewrite (proj2 (Z.eqb_eq _ _) Hn), (proj2 (Z.leb_le _ _) Hc). cbn [andb].
  eexists true, _, _. split_and!; [reflexivity| | |]; cbn; [by rewrite lookup_insert_eq..|done].
Qed.
Lemma settle_delivers m id n terminal r a e s :
  calm m -> mo_report m = true ->
  db_attempts (pj_db s) !! id = Some a -> at_projected a + 1 = n -> n <= at_contiguous a -> as_i64 n = n ->
  db_events (pj_db s) !! (id, n) = Some e ->
  let s' := (settle m id n terminal r s).2 in
  db_attempts (pj_db s') !! id = Some (with_attempt_projected n a)
  /\ exists e', db_events (pj_db s') !! (id, n) = Some e' /\ ae_payload e' = ae_payload e.
Proof.
  intros Hc Hr Ha Hn Hcont Hi He s'. subst s'. unfold settle.
  rewrite Hr, (ca_mark _ Hc), others_nil, (ca_mark_runs _ Hc). set (s1 := if terminal then _ else _).
  assert (Hd : pj_db s1 = pj_db s) by (by unfold s1; destruct terminal). rewrite <- Hd in Ha, He.
  destruct (mark_next (mo_env m) id n a e s1 Ha Hn Hcont Hi He) as (x & db' & e' & Hm & Ha' & He' & Hp).
  rewrite (mark_runs _ _ _ _ Hm). cbn. eauto.
Qed.
Lemma project_event_delivers m id n a e s :
  calm m -> delivers m -> id ∉ pj_blocked s ->
  db_attempts (pj_db s) !! id = Some a -> projection_authoritative (mo_env m) a = true ->
  at_projected a + 1 = n -> n <= at_contiguous a -> as_i64 n = n -> db_events (pj_db s) !! (id, n) = Some e ->
  (forall o, ae_payload e = Event_Terminal o -> is_Some (attempt_terminal_outcome id (pj_db s))) ->
  let s' := (project_event m ((id, n), e) s).2 in
  db_attempts (pj_db s') !! id = Some (with_attempt_projected n a)
  /\ exists e', db_events (pj_db s') !! (id, n) = Some e' /\ ae_payload e' = ae_payload e.
Proof.
  intros Hc [[job Hl] Hs Hr] Hb Ha Hauth Hn Hcont Hi He Hout. unfold project_event.
  rewrite (ca_check _ Hc), (ca_outcome _ Hc), (ca_check_ok _ Hc), (ca_outcome_ok _ Hc), bool_decide_eq_false_2, others_nil by done.
  unfold attempt_projection_is_authoritative. rewrite Ha, Hauth, Hl, Hs, orb_true_r. cbn [negb].
  set (s1 := with_surfaces _ s). destruct (ae_payload e) as [label elapsed|o] eqn:Hpay; [rewrite <- Hpay; by apply settle_delivers|].
  rewrite others_nil. destruct (Hout o eq_refl) as [outcome Ho]. change (pj_db s1) with (pj_db s). rewrite Ho.
  pose proof (ca_plan _ Hc job outcome Hl) as Hp. destruct (plan_next_repeat m job outcome) as [next|]; [|done].
  rewrite <- Hpay. by apply settle_delivers.
Qed.

(** Progress leaves the attempts and events. *)
Lemma project_update_calm m p s :
  calm m -> (project_update m p s).1 = true
  /\ db_attempts (pj_db (project_update m p s).2) = db_attempts (pj_db s)
  /\ db_events (pj_db (project_update m p s).2) = db_events (pj_db s).
Proof.
  intros Hc. destruct p as [[id n] row]. unfold project_update.
  rewrite (ca_check _ Hc), (ca_check_ok _ Hc), (ca_mark _ Hc), (ca_mark_runs _ Hc), !others_nil. cbn [negb].
  case_bool_decide; [done|]. case_match; [done|]. destruct (mo_load m); [|done..].
  unfold mark_call, mark_progress_projected. repeat case_match; simplify_eq; done.
Qed.
Lemma update_loop_calm ms i ps s :
  (forall j, calm (ms j)) -> (update_loop ms i ps s).1 = true
  /\ db_attempts (pj_db (update_loop ms i ps s).2) = db_attempts (pj_db s)
  /\ db_events (pj_db (update_loop ms i ps s).2) = db_events (pj_db s).
Proof.
  intros Hms. revert i s. induction ps as [|p ps IH]; intros i s; [done|]. cbn [update_loop].
  destruct (project_update_calm (ms i) p s (Hms i)) as (H1 & H2 & H3).
  destruct (project_update (ms i) p s) as [ok s1]. cbn in H1, H2, H3. subst ok. rewrite <- H2, <- H3. apply IH.
Qed.

(** An event that can be projected: the next of an attempt with authority, and for a terminal one the
    outcome is published. *)
Record ready (env : TxEnv) (s : Projector) (id : Uuid) (n : Z) (e : AttemptEvent) (a : Attempt) : Prop := {
  re_blocked : id ∉ pj_blocked s;
  re_attempt : db_attempts (pj_db s) !! id = Some a;
  re_authority : projection_authoritative env a = true;
  re_next : at_projected a + 1 = n;
  re_contiguous : n <= at_contiguous a;
  re_i64 : as_i64 n = n;
  re_event : db_events (pj_db s) !! (id, n) = Some e;
  re_outcome : forall o, ae_payload e = Event_Terminal o -> is_Some (attempt_terminal_outcome id (pj_db s))
}.
Lemma ready_untouched env s s' id n e a : untouched id s s' -> ready env s id n e a -> ready env s' id n e a.
Proof.
  intros [U1 U2 U3 U4] [R1 R2 R3 R4 R5 R6 R7 R8].
  split; [by rewrite U4 | congruence | done.. | by rewrite U2 |]. intros o Ho.
  unfold attempt_terminal_outcome, has_verified_staging in *. rewrite U1, U3. by eapply R8.
Qed.
Definition projected_to (s : Projector) (id : Uuid) (n : Z) (e : AttemptEvent) (a : Attempt) : Prop :=
  db_attempts (pj_db s) !! id = Some (with_attempt_projected n a)
  /\ exists e', db_events (pj_db s) !! (id, n) = Some e' /\ ae_payload e' = ae_payload e.
Lemma project_loop_delivers ms j evs s i id n e a :
  (forall k, calm (ms k)) -> NoDup (map (fun ev => ev.1.1) evs) -> evs !! i = Some ((id, n), e) ->
  delivers (ms (j + i)%nat) -> ready (mo_env (ms (j + i)%nat)) s id n e a ->
  (project_loop ms j evs s).1 = true /\ projected_to (project_loop ms j evs s).2 id n e a.
Proof.
  intros Hms. revert j s i. induction evs as [|[[k q] x] evs IH]; intros j s i Hnd Hi Hd Hr; [done|].
  cbn [map] in Hnd. apply NoDup_cons in Hnd as [Hni Hnd]. cbn [project_loop].
  destruct (project_event_calm (ms j) k q x s (Hms j)) as [H1 H2]. destruct i as [|i]; cbn in Hi; simplify_eq.
  - rewrite Nat.add_0_r in *. destruct Hr as [R1 R2 R3 R4 R5 R6 R7 R8].
    destruct (project_event_delivers (ms j) id n a e s (Hms j) Hd R1 R2 R3 R4 R5 R6 R7 R8) as [Ha' (e' & He' & Hp')].
    destruct (project_event (ms j) (id, n, e) s) as [ok s1]. cbn in *. subst ok.
    destruct (project_loop_untouched ms (S j) evs s1 id Hms Hni) as [H3 [U1 U2 _ _]]. split; [done|].
    split; [by rewrite U1 | exists e'; by rewrite U2].
  - assert (Hne : k <> id). { intros ->. apply Hni, list_elem_of_fmap. exists (id, n, e). split; [done|].
      by eapply list_elem_of_lookup_2. }
    specialize (H2 id Hne). destruct (project_event (ms j) (k, q, x) s) as [ok s1]. cbn in *. subst ok.
    replace (j + S i)%nat with (S j + i)%nat in * by lia. apply (IH _ _ i); [done.. |]. by eapply ready_untouched.
Qed.

(** C25: The failures of an attempt do not hold back another.  In a pass in which the store
    answers, the planning of next runs succeeds and nobody else commits, each event of the batch whose attempt
    has authority and whose job is loaded and report made is projected, whatever becomes of the other rows:
    jobs that are missing, surfaces that cannot be built and reports that fail. *)
Theorem pass_isolates scheduler protocol sc s i id n e a :
  rtc projector_step (projector_start scheduler protocol) s ->
  pa_list_ok sc = true -> pa_between sc = [] ->
  (forall k, calm (pa_events sc k)) -> (forall k, calm (pa_updates sc k)) ->
  unprojected_events (pa_env sc) PROJECTION_BATCH (pj_db s) !! i = Some ((id, n), e) ->
  db_attempts (pj_db s) !! id = Some a -> projection_authoritative (mo_env (pa_events sc i)) a = true ->
  delivers (pa_events sc i) ->
  (forall o, ae_payload e = Event_Terminal o -> is_Some (attempt_terminal_outcome id (pj_db s))) ->
  let s' := (project_events sc s).2 in
  db_attempts (pj_db s') !! id = Some (with_attempt_projected n a) /\ told (pj_log s') id n (ae_payload e).
Proof.
  intros Hreach Hlist Hbetween Hms Hus Hev Ha Hauth Hd Hout s'. apply projector_reachable_ok in Hreach as Hok.
  assert (Hq : forall m, calm m -> moment_quiet m).
  { intros m [H1 H2 H3 _ _ _ _]. unfold moment_quiet, quiet. rewrite H1, H2, H3. split_and!; constructor. }
  assert (Hok' : projector_ok s').
  { apply project_events_ok; [|done]. split_and!; [auto | rewrite Hbetween; constructor | auto]. }
  destruct (batch_elem _ _ _ _ (list_elem_of_lookup_2 _ _ _ Hev)) as [He Hp]. cbn in He.
  unfold projectable in Hp. cbn in Hp. rewrite Ha in Hp. bool_hyps.
  destruct (lg_keys _ (po_ledger _ Hok) _ _ _ He) as [_ Hn].
  assert (Hr : ready (mo_env (pa_events sc (0 + i)%nat)) (with_blocked ∅ s) id n e a).
  { split; cbn; [set_solver | done | done | lia | lia | apply as_i64_id; lia | done | done]. }
  destruct (project_loop_delivers (pa_events sc) 0 _ _ i id n e a Hms (batch_attempts _ _ _) Hev Hd Hr) as [L1 [L2 (e' & He' & Hp')]].
  assert (Hfin : db_attempts (pj_db s') !! id = Some (with_attempt_projected n a)
                 /\ db_events (pj_db s') !! (id, n) = Some e').
  { unfold s', project_events. rewrite Hlist. cbn [negb]. change (pj_db (with_blocked ∅ s)) with (pj_db s).
    destruct (project_loop _ _ _ _) as [ok s1]. cbn in L1, L2, He'. subst ok. cbn [negb]. rewrite Hbetween, others_nil.
    destruct (pa_progress_ok sc); [cbn [negb]|done].
    destruct (update_loop_calm (pa_updates sc) 0 (unprojected_progress (pa_progress_env sc) PROJECTION_BATCH (pj_db s1)) s1 Hus)
      as (_ & -> & ->). done. }
  destruct Hfin as [Ha' He'']. split; [done|]. rewrite <- Hp'. eapply (po_told _ Hok'); [exact Ha'| |cbn; lia|done].
  intros [Hl|Hl]; cbn in Hl; unfold projection_authoritative in Hauth; by rewrite Hl in Hauth.
Qed.
End Isolation.

(** ** The planning of the next run

    [?] after [plan_next_repeat] leaves the pass: while the next run of one submission cannot be planned and
    its terminal event is the oldest of the batch, no event and no progress of anybody is projected. *)
Section Stall.
Context `{DigestEnv}.
(** The pass reaches the planning for the oldest event, and it fails. *)
Record planning_fails (sc : PassScript) (db : FleetDb) : Prop := {
  pf_list : pa_list_ok sc = true;
  pf_before_check : mo_before_check (pa_events sc 0%nat) = [];
  pf_before_outcome : mo_before_outcome (pa_events sc 0%nat) = [];
  pf_check : mo_check_ok (pa_events sc 0%nat) = true;
  pf_outcome : mo_outcome_ok (pa_events sc 0%nat) = true;
  pf_surface : mo_surface (pa_events sc 0%nat) = true;
  pf_event : exists id n e rest digest job outcome error,
    unprojected_events (pa_env sc) PROJECTION_BATCH db = ((id, n), e) :: rest
    /\ ae_payload e = Event_Terminal digest
    /\ attempt_projection_is_authoritative (mo_env (pa_events sc 0%nat)) id db = true
    /\ mo_load (pa_events sc 0%nat) = Load_job job /\ attempt_terminal_outcome id db = Some outcome
    /\ plan_next_repeat (pa_events sc 0%nat) job outcome = Err error
}.
Lemma planning_failure_ends_pass sc s : planning_fails sc (pj_db s) ->
  exists s', project_events sc s = (false, s') /\ pj_db s' = pj_db s /\ pj_log s' = pj_log s.
Proof.
  intros [H1 H2 H3 H4 H5 H6 (id & n & e & rest & digest & job & outcome & error & Hb & Hp & Ha & Hl & Ho & Herr)].
  unfold project_events. rewrite H1. cbn [negb]. change (pj_db (with_blocked ∅ s)) with (pj_db s). rewrite Hb.
  cbn [project_loop]. unfold project_event. rewrite bool_decide_eq_false_2 by (cbn; set_solver).
  rewrite H2, H3, H4, H5, H6, !others_nil. change (pj_db (with_blocked ∅ s)) with (pj_db s).
  rewrite Ha, Hl, Hp, orb_true_r. cbn [negb]. cbn [pj_db with_surfaces with_blocked]. rewrite Ho, Herr. cbn. by eexists.
Qed.
(** Every pass of a series is stopped that way. *)
Fixpoint passes (scs : list PassScript) (s : Projector) : Projector :=
  match scs with [] => s | sc :: rest => passes rest (project_events sc s).2 end.
Theorem planning_failure_stalls scs s :
  Forall (fun sc => planning_fails sc (pj_db s)) scs ->
  pj_db (passes scs s) = pj_db s /\ pj_log (passes scs s) = pj_log s.
Proof.
  intros Hall. remember (pj_db s) as db eqn:Hdb. remember (pj_log s) as log eqn:Hlog.
  revert s Hdb Hlog. induction Hall as [|sc scs Hsc _ IH]; intros s -> ->; [done|]. cbn [passes].
  destruct (planning_failure_ends_pass sc s Hsc) as (s' & Heq & Hd & Hl). rewrite Heq. by apply IH.
Qed.
End Stall.

(** ** The theorems at a concrete state

    The worker of the demonstration reports that it accepted the attempt; a pass projects the event. *)
Definition demo_accepted_event : ReliableEventEnvelope :=
  {| ev_identity := demo_identity demo_attempt 1; ev_trace_id := 502; ev_reliable_seq := 1;
     ev_payload := Event_Phase (lit "accepted") 5; ev_payload_digest := demo_hash; ev_worker_timestamp_ms := 30 |}.
Definition demo_projected_ops : list FleetOp :=
  trace_running ++ [Op_Ingest (at_time 30) demo_worker demo_accepted_event].
Definition demo_projected_job (runs : Z) : RunnableJob :=
  {| rj_id := demo_job; rj_task_submission_id := 1; rj_task_spec_id := 1; rj_task_run_index := 0;
     rj_requested_run_count := 1; rj_submission_requested_run_count := runs; rj_submission_run_index := 0;
     rj_baseline_calibration_id := None; rj_submission_artifact_prefix := lit "p"; rj_repository := lit "o/r";
     rj_commit := lit "c"; rj_git_ref_display := lit "main"; rj_git_ref_kind := Ref_Branch; rj_installation_id := 1;
     rj_task_kind := Kind_Benchmark; rj_build_target := Target_StacksBench; rj_workload_key := None; rj_bench_args := [];
     rj_progress := Progress_Silent; rj_claim_token := None |}.
Definition demo_moment (load : Loaded) (report : bool) : Moment :=
  {| mo_env := at_time 40; mo_before_check := []; mo_check_ok := true; mo_load := load; mo_surface := true;
     mo_before_outcome := []; mo_outcome_ok := true; mo_object := fun _ => Some 1; mo_put := fun _ => true;
     mo_append := true; mo_report := report; mo_before_mark := []; mo_mark := Fate_runs |}.
Definition demo_pass (runs : Z) (report : bool) : PassScript :=
  {| pa_env := at_time 40; pa_list_ok := true; pa_events := fun _ => demo_moment (Load_job (demo_projected_job runs)) report;
     pa_between := []; pa_progress_env := at_time 40; pa_progress_ok := true;
     pa_updates := fun _ => demo_moment Load_missing true |}.
Notation demo_projector := (@others demo_digest demo_projected_ops (projector_start demo_scheduler demo_protocol)).
Lemma demo_calm load report :
  match load with Load_job job => rj_submission_requested_run_count job = 1 | _ => True end -> calm (demo_moment load report).
Proof.
  intros Hl. split; [done.. |]. cbn. intros job outcome ->.
  unfold plan_next_repeat, uses_shared_calibration. by rewrite Hl, andb_false_r.
Qed.
Lemma demo_reached : rtc (@projector_step demo_digest) (projector_start demo_scheduler demo_protocol) demo_projector.
Proof. apply rtc_once, Pstep_others. vm_compute. repeat constructor. Qed.
Definition demo_told : Projector := (@project_events demo_digest (demo_pass 1 true) demo_projector).2.
Lemma demo_told_reached : rtc (@projector_step demo_digest) (projector_start demo_scheduler demo_protocol) demo_told.
Proof.
  eapply rtc_r; [exact demo_reached|]. apply Pstep_pass. split_and!; intros; [|constructor|]; repeat constructor.
Qed.
Lemma demo_told_log : pj_log demo_told = [(Rep_started demo_attempt 1, true)].
Proof. vm_compute. reflexivity. Qed.
Lemma reports_complete_in_order_witness :
  well_reported (pj_db demo_told) [] (Rep_started demo_attempt 1)
  /\ exists a, db_attempts (pj_db demo_told) !! demo_attempt = Some a /\ at_projected a = 1.
Proof.
  split.
  - exact (proj2 (@reports_complete_in_order demo_digest demo_scheduler demo_protocol demo_told demo_told_reached)
             [] (Rep_started demo_attempt 1) true [] demo_told_log).
  - assert (E : at_projected <$> db_attempts (pj_db demo_told) !! demo_attempt = Some 1) by (vm_compute; reflexivity).
    destruct (db_attempts (pj_db demo_told) !! demo_attempt) as [a|]; [|discriminate E].
    exists a. split; [reflexivity|]. cbn in E. congruence.
Defined.
Lemma demo_batch : exists e,
  @unprojected_events (at_time 40) PROJECTION_BATCH (pj_db demo_projector) !! 0%nat = Some ((demo_attempt, 1), e)
  /\ ae_payload e = Event_Phase (lit "accepted") 5.
Proof.
  assert (E : (fun x : (Uuid * Z) * AttemptEvent => (x.1, ae_payload x.2))
                <$> @unprojected_events (at_time 40) PROJECTION_BATCH (pj_db demo_projector) !! 0%nat
              = Some ((demo_attempt, 1), Event_Phase (lit "accepted") 5)) by (vm_compute; reflexivity).
  destruct (unprojected_events _ _ _ !! _) as [[k e]|]; [|discriminate E]. cbn in E. exists e. split; congruence.
Qed.
Lemma pass_isolates_witness : exists a,
  db_attempts (pj_db demo_told) !! demo_attempt = Some (with_attempt_projected 1 a)
  /\ told (pj_log demo_told) demo_attempt 1 (Event_Phase (lit "accepted") 5).
Proof.
  destruct demo_batch as (e & Hev & Hp). rewrite <- Hp.
  assert (E : (projection_authoritative (at_time 40) <$> db_attempts (pj_db demo_projector) !! demo_attempt) = Some true)
    by (vm_compute; reflexivity).
  destruct (db_attempts (pj_db demo_projector) !! demo_attempt) as [a|] eqn:Ha; [|discriminate E].
  exists a. apply (@pass_isolates demo_digest demo_scheduler demo_protocol (demo_pass 1 true) demo_projector 0%nat
                     demo_attempt 1 e a demo_reached);
    [reflexivity | reflexivity | intros; apply demo_calm; reflexivity | intros; apply demo_calm; exact I | exact Hev
    | exact Ha | exact (f_equal (default false) E) | split; [eexists; reflexivity | reflexivity | reflexivity] |].
  rewrite Hp. discriminate.
Defined.
(** The run of a submission of two runs completes without the path of its database: its terminal
    event stops the pass. *)
Definition demo_stalled_ops : list FleetOp :=
  trace_staged ++ [Op_Terminal (at_time 50) demo_worker (demo_identity demo_attempt 1) demo_completion;
                   Op_Promote (at_time 55) demo_attempt [demo_artifact]].
Notation demo_stalled := (@others demo_digest demo_stalled_ops (projector_start demo_scheduler demo_protocol)).
Lemma demo_stalls : (@project_events demo_digest (demo_pass 2 true) demo_stalled).1 = false
  /\ (@project_events demo_digest (demo_pass 1 true) demo_stalled).1 = true.
Proof. split; vm_compute; reflexivity. Qed.
