(* ===== verification/FleetPayloads.v ===== *)
(** * Prepared work is write-once

    Preparing a job stores its payload, the payload's digest and the commit.  No
    transaction of the store changes them, or the job's immutable columns, again
    ([jsim]); so what a worker is offered and what it is assigned later are the
    same. *)
From stdpp Require Import base list strings gmap relations.
From Stdlib Require Import ZArith Lia.
From S2P Require Import Prelude RustStr Json FleetModel Negotiation Validate FleetDb.
From S2P Require Import FleetSessions FleetScheduling FleetEvents FleetAdmin FleetRecovery.
From S2P Require Import FleetSpec FleetRefine FleetSystem.

Local Open Scope Z_scope.

Record same_job (j j' : Job) : Prop := {
  sj_row : jb_row j' = jb_row j;
  sj_payload : forall p, jb_payload j = Some p -> jb_payload j' = Some p;
  sj_commit : forall p c, jb_payload j = Some p -> jb_commit j = Some c -> jb_commit j' = Some c
}.
Definition jsim (db db' : FleetDb) : Prop :=
  forall id j, db_jobs db !! id = Some j ->
  exists j', db_jobs db' !! id = Some j' /\ same_job j j'.

Section Frame.
Lemma same_job_refl j : same_job j j.
Proof. by split. Qed.
Lemma same_job_trans j1 j2 j3 : same_job j1 j2 -> same_job j2 j3 -> same_job j1 j3.
Proof. intros [R1 P1 C1] [R2 P2 C2]. split; [congruence | eauto | eauto]. Qed.
Lemma jsim_refl db : jsim db db.
Proof. intros id j Hj. exists j. split; [done | apply same_job_refl]. Qed.
Lemma jsim_trans db1 db2 db3 : jsim db1 db2 -> jsim db2 db3 -> jsim db1 db3.
Proof.
  intros H1 H2 id j Hj. destruct (H1 id j Hj) as (j' & Hj' & S1).
  destruct (H2 id j' Hj') as (j'' & Hj'' & S2). exists j''. split; [done|].
  by eapply same_job_trans.
Qed.
Lemma jsim_frame db db' : db_jobs db' = db_jobs db -> jsim db db'.
Proof. intros He id j Hj. rewrite He. exists j. split; [done | apply same_job_refl]. Qed.
Lemma jsim_insert db id j j' :
  db_jobs db !! id = Some j -> same_job j j' -> jsim db (with_jobs <[id := j']> db).
Proof.
  intros Hj Hs k x Hx. simpl. destruct (decide (id = k)) as [<-|].
  - rewrite lookup_insert_eq. simplify_eq. eauto.
  - rewrite lookup_insert_ne by done. exists x. split; [done | apply same_job_refl].
Qed.
Lemma jsim_new db id j : db_jobs db !! id = None -> jsim db (with_jobs <[id := j]> db).
Proof.
  intros Hn k x Hx. simpl. rewrite lookup_insert_ne by congruence.
  exists x. split; [done | apply same_job_refl].
Qed.
Lemma jsim_update db p f :
  (forall id j, p id j = true -> same_job j (f j)) -> jsim db (with_jobs (update_where p f) db).
Proof.
  intros Hf k x Hx. simpl. rewrite lookup_update_where, Hx. simpl. eexists. split; [done|].
  destruct (p k x) eqn:E; [by eapply Hf | apply same_job_refl].
Qed.
Lemma jsim_requeue from job db : jsim db (requeue_job from job db).
Proof.
  intros k x Hx. unfold requeue_job. simpl. destruct (decide (job = k)) as [<-|].
  - rewrite lookup_alter_eq, Hx. simpl. eexists. split; [done|]. by case_match.
  - rewrite lookup_alter_ne by done. exists x. split; [done | apply same_job_refl].
Qed.
Lemma jsim_fold {A} (step : FleetDb -> A -> FleetDb) l db :
  (forall x db, jsim db (step db x)) -> jsim db (foldl step db l).
Proof.
  intros Hs. revert db. induction l as [|x l IH]; intros db; simpl; [apply jsim_refl|].
  eapply jsim_trans; [apply Hs | apply IH].
Qed.
End Frame.

Ltac jframe := apply jsim_frame; repeat case_match; reflexivity.
(** Split the sequence at its last write to the jobs. *)
Ltac jlast :=
  match goal with
  | |- jsim _ (with_jobs ?f ?d) => apply (jsim_trans _ d)
  | |- jsim _ (with_sessions ?f ?d) => apply (jsim_trans _ d); [|jframe]
  | |- jsim _ (with_scheduler_audit ?f ?d) => apply (jsim_trans _ d); [|jframe]
  | |- jsim _ (with_lifecycle_audit ?f ?d) => apply (jsim_trans _ d); [|jframe]
  end.

(** ** Every transaction *)
Section Operations.
Lemma jsim_set_status job j st db :
  db_jobs db !! job = Some j -> jsim db (with_jobs <[job := with_job_status st j]> db).
Proof. intros Hj. by eapply jsim_insert. Qed.

Lemma jsim_retire env to dr reason id a db : jsim db (retire_attempt env to dr reason id a db).
Proof.
  unfold retire_attempt. destruct (decide _).
  - eapply jsim_trans; [|apply jsim_requeue]. jframe.
  - unfold insert_obligation. jframe.
Qed.
Lemma jsim_fence_attempts env l db : jsim db (fence_attempts env l db).
Proof. apply jsim_fold. intros [id a] d. apply jsim_retire. Qed.
Lemma jsim_expire_stale env db x db' : expire_stale_attempts env db = Ok (x, db') -> jsim db db'.
Proof.
  unfold expire_stale_attempts. intros [= _ <-]. apply jsim_fold. intros [id a] d.
  unfold expire_attempt. eapply jsim_trans; [apply jsim_retire|]. jframe.
Qed.
Lemma jsim_register env w k r ttl db x db' :
  register_session env w k r ttl db = Ok (x, db') -> jsim db db'.
Proof.
  unfold register_session, register_existing, register_new. intros H. ok_inv H; simplify_eq;
    match goal with E : put_session _ _ _ = Ok _ |- _ => apply put_session_Ok in E as -> end;
    try jframe;
    (match goal with |- context [predecessor_attempts _ _ ?d] =>
       apply (jsim_trans _ d); [jframe|] end;
     eapply jsim_trans; [apply jsim_fence_attempts|]; jframe).
Qed.
Lemma jsim_make_offer env ids w session ot lt profile job j payload hash commit db x db' :
  db_jobs db !! job = Some j ->
  make_offer env ids w session ot lt profile job j payload hash commit db = Ok (x, db') ->
  jsim db db'.
Proof.
  intros Hj. unfold make_offer. destruct (db_submissions db !! _); [|done]. intros H.
  destruct (insert_attempt _ _ _) as [db1|] eqn:Ei; [|done].
  apply insert_attempt_Ok in Ei as [-> _]. simplify_eq.
  match goal with |- jsim _ (set_session_status _ _ _ (with_attempts _ ?d)) =>
    apply (jsim_trans _ d); [|jframe] end.
  jlast; [jframe|]. by eapply jsim_insert.
Qed.
Lemma jsim_poll env ids w session ot lt db x db' :
  poll_offer env ids w session ot lt db = Ok (x, db') -> jsim db db'.
Proof.
  unfold poll_offer. set (current := ProtocolOffer_current). clearbody current.
  intros H. ok_inv H; simplify_eq; try apply jsim_refl; try jframe.
  eapply jsim_trans; [|eapply jsim_make_offer; [|exact H]]; [jframe|]. simpl.
  match goal with E : next_job _ _ _ _ _ = Some _ |- _ => by apply next_job_spec in E as (? & _) end.
Qed.
Lemma jsim_accept env w i lt db x db' : accept_offer env w i lt db = Ok (x, db') -> jsim db db'.
Proof.
  unfold accept_offer. intros H. ok_inv H; simplify_eq; try apply jsim_refl.
  match goal with E : put_session _ _ _ = Ok _ |- _ => apply put_session_Ok in E as -> end.
  match goal with E : db_jobs db !! ar_job (at_row ?a) = Some ?j |- _ =>
    eapply jsim_trans; [exact (jsim_set_status _ _ J_Running _ E)|] end. jframe.
Qed.
Lemma jsim_cancellation env job db : jsim db (cancellation_request env job db).2.
Proof.
  unfold cancellation_request. destruct (db_jobs db !! job) as [j|] eqn:Ej; [|apply jsim_refl].
  assert (Hc : forall d, db_jobs d = db_jobs db -> jsim d (cancel_job job j d).2).
  { intros d Hd. unfold cancel_job, cancel_unstarted. repeat case_match; try apply jsim_refl; try jframe;
      simpl; (match goal with |- context [with_jobs ?f ?x] => apply (jsim_trans _ (with_jobs f x)); [|jframe] end;
      eapply jsim_insert; [rewrite Hd; exact Ej | by split]). }
  destruct (decide _); [apply jsim_refl|].
  destruct (active_attempt_of job db) as [[id a]|] eqn:Ea; [|by apply Hc].
  destruct (attempt_executing (at_status a)) eqn:Hex; simpl; [jframe|].
  eapply jsim_trans; [|apply Hc; reflexivity]. unfold fence_offer. jframe.
Qed.
Lemma jsim_cancel_all env jobs db : jsim db (cancel_all env jobs db).2.
Proof.
  revert db. induction jobs as [|job jobs IH]; intros db; [apply jsim_refl|]. simpl.
  pose proof (jsim_cancellation env job db) as H1.
  destruct (cancellation_request env job db) as [ok db1]. specialize (IH db1).
  destruct (cancel_all env jobs db1) as [acc db2]. by eapply jsim_trans.
Qed.
Lemma jsim_abort env r db x db' : abort_fleet env r db = Ok (x, db') -> jsim db db'.
Proof.
  unfold abort_fleet. intros H. head_case H E1; [done|].
  destruct (db_abort_audit db !! _); [simplify_eq; apply jsim_refl|].
  head_case H E2; [simplify_eq; apply jsim_refl|].
  pose proof (jsim_cancel_all env (abort_selection (fa_scope r) db) db) as Hs.
  destruct (cancel_all _ _ _) as [acc db1]. simplify_eq. eapply jsim_trans; [exact Hs|]. jframe.
Qed.
Lemma jsim_fail_queued jobs remark db : jsim db (fail_locked_queued_jobs jobs remark db).2.
Proof.
  revert db. induction jobs as [|job jobs IH]; intros db; simpl; [apply jsim_refl|].
  destruct (db_jobs db !! job) as [j|] eqn:Ej; [|apply IH]. destruct (decide _); [|apply IH].
  match goal with |- context [fail_locked_queued_jobs jobs remark ?d] =>
    pose proof (IH d) as Hrest; destruct (fail_locked_queued_jobs jobs remark d) as [failed db2];
    eapply (jsim_trans _ d); [|exact Hrest] end.
  eapply jsim_trans; [exact (jsim_set_status _ _ J_Failed _ Ej)|]. jframe.
Qed.
Lemma jsim_expire_offers p db : jsim db (expire_offers p db).
Proof. unfold expire_offers. jlast; [jframe|]. apply jsim_update. by split. Qed.
Lemma jsim_change_scheduler env c db x db' :
  change_scheduler env c db = Ok (x, db') -> jsim db db'.
Proof.
  unfold change_scheduler. intros H. head_case H E1; [done|].
  destruct (db_scheduler_audit db !! _); [ok_inv H; simplify_eq; apply jsim_refl|].
  simplify_eq. jlast. case_match; [|jframe]. unfold withdraw_offers.
  eapply jsim_trans; [|apply jsim_expire_offers]. jframe.
Qed.
Lemma jsim_lifecycle env c db x db' :
  change_worker_lifecycle env c db = Ok (x, db') -> jsim db db'.
Proof.
  unfold change_worker_lifecycle. intros H. head_case H E1; [done|].
  destruct (db_lifecycle_audit db !! _); [simplify_eq; apply jsim_refl|].
  destruct (db_workers db !! _) as [w|]; [|simplify_eq; apply jsim_refl].
  head_case H E2; simplify_eq; [apply jsim_refl|]. jlast.
  unfold apply_lifecycle. destruct (decide (wl_action c = Act_Uncordon)); [jframe|]. jlast.
  eapply jsim_trans; [|apply jsim_expire_offers]. jframe.
Qed.
Lemma jsim_freeze_specs specs resolved db db' :
  freeze_specs specs resolved db = Ok (Some db') -> jsim db db'.
Proof.
  revert db. induction specs as [|[id x] specs IH]; intros db H; simpl in H.
  - simplify_eq. apply jsim_refl.
  - destruct (resolved !! id); [|done]. head_case H E1; [done|]. head_case H E2; [done|].
    eapply jsim_trans; [|by apply IH]. jlast; [jframe|]. apply jsim_update.
    intros k j Hp. bool_hyps. split; [done|done|]. simpl. congruence.
Qed.
Lemma jsim_abandon env submission reason db : jsim db (abandon_cleanup env submission reason db).
Proof.
  rewrite abandon_cleanup_waive. apply jsim_fold. intros [k o] d. unfold waive, abandon_job. simpl.
  destruct (db_jobs d !! ob_job o) as [j|] eqn:Ej; [|jframe]. case_match; [|jframe].
  eapply jsim_trans; [exact (jsim_set_status _ _ J_Cancelled _ Ej)|]. jframe.
Qed.
Lemma jsim_recover env ids submission target reason db r db' :
  recover_submission env ids submission target reason db = Ok (r, db') -> jsim db db'.
Proof.
  intros H. apply recover_cases in H as (prior & f & old & j & _ & _ & _ & _ & Hn & _ & g & ->).
  pose proof (jsim_abandon env submission reason db) as Hab.
  set (db1 := abandon_cleanup _ _ _ _) in *. eapply jsim_trans; [exact Hab|].
  match goal with |- context [with_jobs ?h ?d] => apply (jsim_trans _ (with_jobs h d)) end.
  - jlast; [jframe | by apply jsim_new].
  - unfold move_slack. jframe.
Qed.
End Operations.

Section System.
Context `{DigestEnv}.

Lemma jsim_terminal env w i s db x db' :
  accept_terminal env w i s db = Ok (x, db') -> jsim db db'.
Proof.
  intros E. apply accept_terminal_cases in E as [[-> _]|E]; [apply jsim_refl|].
  destruct E as (a & j & db1 & _ & _ & _ & _ & Hj & _ & _ & _ & Hp & f & ->).
  eapply jsim_trans; [exact (jsim_set_status _ _ (write_statuses (ts_write s)).2 _ Hj)|].
  apply jsim_frame. simpl. unfold persist_frame in Hp. simpl in Hp. tauto.
Qed.

Lemma jsim_prepare p db x db' : prepare_execution p db = Ok (x, db') -> jsim db db'.
Proof.
  unfold prepare_execution. intros Hr. ok_inv Hr; simplify_eq; try apply jsim_refl.
  bool_hyps. eapply jsim_insert; [done|]. split; simpl; congruence.
Qed.
Lemma jsim_cancel_running job remark db : jsim db (cancel_running job remark db).
Proof.
  unfold cancel_running. destruct (db_jobs db !! job) as [j|] eqn:Ej; [|apply jsim_refl].
  destruct (decide _); [|apply jsim_refl].
  eapply jsim_trans; [exact (jsim_set_status _ _ J_Cancelled _ Ej)|]. jframe.
Qed.
Lemma jsim_cleanup env w session ob db x db' :
  complete_cleanup env w session ob db = Ok (x, db') -> jsim db db'.
Proof.
  unfold complete_cleanup. intros Hr.
  destruct (db_obligations db !! ob) as [o|]; [|ok_inv Hr; simplify_eq; apply jsim_refl].
  destruct (_ && _ && _); [|ok_inv Hr; simplify_eq; apply jsim_refl]. injection Hr as _ <-.
  eapply jsim_trans; [|destruct (ob_requeue o); [apply jsim_requeue | apply jsim_cancel_running]].
  jframe.
Qed.

(** A transaction that leaves the jobs alone. *)
Ltac jplain :=
  match goal with Hr : ?f = Ok _ |- _ => revert Hr end;
  unfold create_worker, update_worker, authorize_identity, revoke_identity, deregister_session,
    ingest_progress, record_artifact_grant, verify_artifact, mark_progress_projected,
    change_protocol_policy, mark_staged_artifact_reaped, insert_new, ensure,
    emergency_disable_worker, emergency_revoke_identity, expire_worker_leases, heartbeat_attempt,
    ingest_reliable_event, mark_event_projected;
  let Hr := fresh "Hr" in intros Hr; ok_inv Hr; simplify_eq;
  repeat match goal with E : put_worker _ _ _ = Ok _ |- _ => apply put_worker_Ok in E as -> end;
  try apply jsim_refl; jframe.

Lemma jsim_op op db db' : run_op op db = Ok db' -> jsim db db'.
Proof.
  intros Hr. destruct op; cbn [run_op] in Hr;
    try (apply committed_Ok in Hr as [x Hr]); try jplain.
  - unfold insert_new in Hr. destruct (db_jobs db !! id) eqn:En; [done|]. simplify_eq.
    by apply jsim_new.
  - by eapply jsim_lifecycle.
  - unfold set_worker_draining in Hr. ok_inv Hr; simplify_eq; by eapply jsim_lifecycle.
  - by eapply jsim_register.
  - unfold freeze_submission_sources in Hr.
    ok_inv Hr; simplify_eq; try apply jsim_refl. by eapply jsim_freeze_specs.
  - by eapply jsim_prepare.
  - by eapply jsim_recover.
  - by eapply jsim_poll.
  - by eapply jsim_accept.
  - by eapply jsim_expire_stale.
  - unfold request_cancel in Hr. injection Hr as Hr.
    pose proof (jsim_cancellation env job db) as Hs. by rewrite Hr in Hs.
  - unfold expire_unreported_slack_jobs in Hr. injection Hr as Hr.
    match type of Hr with fail_locked_queued_jobs ?l _ _ = _ =>
      pose proof (jsim_fail_queued l remark db) as Hs end. by rewrite Hr in Hs.
  - unfold fail_queued_slack_jobs_without_connector in Hr. injection Hr as Hr.
    match type of Hr with fail_locked_queued_jobs ?l _ _ = _ =>
      pose proof (jsim_fail_queued l remark db) as Hs end. by rewrite Hr in Hs.
  - by eapply jsim_change_scheduler.
  - by eapply jsim_abort.
  - unfold mark_artifacts_promoted in Hr. ok_inv Hr; simplify_eq; try apply jsim_refl.
    match goal with E : promote_artifacts _ _ _ _ = Some _ |- _ =>
      apply promote_artifacts_staging in E as [f ->] end. jframe.
  - by eapply jsim_terminal.
  - by eapply jsim_cleanup.
Qed.

Lemma jsim_run ops db : jsim db (run ops db).
Proof.
  apply jsim_fold. intros op d. destruct (run_op op d) eqn:E; [by eapply jsim_op | apply jsim_refl].
Qed.
End System.
