(* ===== verification/WorkerDelivery.v ===== *)
(** * Delivery of reliable events

    The worker's [ReliableSender] (crates/sbgh-worker/src/fleet.rs) against the
    daemon's handler and the store: numbering, the resend buffer, and the loop
    that delivers its front until the store has acknowledged everything.  The
    network loses requests and answers; the delays between retries, which do not
    influence the outcome, are not modelled. *)
From stdpp Require Import base list strings gmap.
From Stdlib Require Import ZArith Lia.
From S2P Require Import Prelude RustStr Json FleetModel Negotiation Validate FleetDb.
From S2P Require Import FleetSessions FleetScheduling FleetEvents FleetAdmin FleetSpec.
From S2P Require Import FleetRefine FleetSystem FleetService FleetDemo ServiceSafety.
From S2P Require Import FleetSafety FleetRetry FleetLedger.

Local Open Scope Z_scope.
Open Scope svc_scope.

(** ** Client errors (transport.rs) *)
Record FleetClientError := {
  fe_code : string;
  fe_retryable : bool;
  fe_retry_after : option Z
}.
(** An [anyhow::Error] of a call: with a [FleetClientError] in its chain or not. *)
Inductive CallError := Ce_Fleet (e : FleetClientError) | Ce_Other.
(** [fleet_error] on a status with the service's detail, and on a transport
    failure. *)
Definition fleet_error (e : ServiceError) : CallError :=
  Ce_Fleet {| fe_code := se_stable_code e; fe_retryable := se_retryable e;
              fe_retry_after := se_retry_after_ms e |}.
Definition transport_error : CallError :=
  Ce_Fleet {| fe_code := "Unavailable"; fe_retryable := true; fe_retry_after := None |}.
Definition is_non_retryable (e : CallError) : bool :=
  match e with Ce_Fleet f => negb (fe_retryable f) | Ce_Other => false end.
Definition has_fleet_code (e : CallError) (code : string) : bool :=
  match e with Ce_Fleet f => bool_decide (fe_code f = code) | Ce_Other => false end.

Definition EVENT_BUFFER_CAPACITY : nat := 256.

Record ReliableState := {
  rl_next_seq : Z;
  rl_unacknowledged : list ReliableEventEnvelope
}.
Definition ReliableSender_new : ReliableState :=
  {| rl_next_seq := 1; rl_unacknowledged := [] |}.

Inductive SendError := Se_BufferFull | Se_LeaseLost | Se_Rejected (e : CallError).

(** What the network does with one request: lose it, or let the daemon serve it
    and deliver the answer or not. *)
Inductive Net :=
| Net_Lost
| Net_Served (calls : list StoreCall) (answered : bool).
(** One iteration of the delivery loop: the lease flag it reads, and the fate of
    its request. *)
Record Delivery := { dv_lease_lost : bool; dv_net : Net }.

(** A call of a handler over the network. *)
Definition serve {A} (h : Svc ServiceError A) (net : Net) (db : FleetDb)
  : result A CallError * FleetDb :=
  match net with
  | Net_Lost => (Err transport_error, db)
  | Net_Served calls answered =>
      let '(r, w) := h {| w_db := db; w_calls := calls; w_polls := ∅ |} in
      (if answered then map_err fleet_error r else Err transport_error, w_db w)
  end.

Section Sender.
Context `{DigestEnv} `{ServiceEnv}.
Context (state : ServiceState) (peer : rstr).
Context (identity : AttemptIdentity) (trace_id : Uuid).

(** [client.event]. *)
Definition publish (net : Net) (e : ReliableEventEnvelope) (db : FleetDb)
  : result ReliableEventAck CallError * FleetDb := serve (event state peer e) net db.

(** Pop the acknowledged front. *)
Fixpoint drop_acknowledged (ack : Z) (buffer : list ReliableEventEnvelope)
  : list ReliableEventEnvelope :=
  match buffer with
  | e :: rest => if ev_reliable_seq e <=? ack then drop_acknowledged ack rest else buffer
  | [] => []
  end.

(** The delivery loop of [send]; no result when the script ends first. *)
Fixpoint deliver (script : list Delivery) (buffer : list ReliableEventEnvelope) (db : FleetDb)
  : option (result unit SendError) * list ReliableEventEnvelope * FleetDb :=
  match script with
  | [] => (None, buffer, db)
  | d :: script =>
      if dv_lease_lost d then (Some (Err Se_LeaseLost), buffer, db)
      else
        match buffer with
        | [] => (Some (Ok tt), buffer, db)
        | e :: _ =>
            let '(r, db) := publish (dv_net d) e db in
            match r with
            | Ok ack => deliver script
                          (drop_acknowledged (ra_highest_contiguous_reliable_seq ack) buffer) db
            | Err err =>
                if is_non_retryable err then (Some (Err (Se_Rejected err)), buffer, db)
                else deliver script buffer db
            end
        end
  end.

Definition envelope (seq : Z) (payload : ReliableEventPayload) (now : Z)
  : ReliableEventEnvelope :=
  {| ev_identity := identity; ev_trace_id := trace_id; ev_reliable_seq := seq;
     ev_payload := payload; ev_payload_digest := payload_digest payload;
     ev_worker_timestamp_ms := now |}.

(** [send]. *)
Definition send (payload : ReliableEventPayload) (now : Z) (script : list Delivery)
    (st : ReliableState) (db : FleetDb)
  : option (result ReliableEventEnvelope SendError) * ReliableState * FleetDb :=
  if negb (Nat.ltb (length (rl_unacknowledged st)) EVENT_BUFFER_CAPACITY)
  then (Some (Err Se_BufferFull), st, db)
  else
    let e := envelope (rl_next_seq st) payload now in
    let '(r, buffer, db) := deliver script (rl_unacknowledged st ++ [e]) db in
    ((fun r => match r with Ok _ => Ok e | Err err => Err err end) <$> r,
     {| rl_next_seq := rl_next_seq st + 1; rl_unacknowledged := buffer |}, db).

(** The events of an execution in turn; the first failure ends them
    ([execute_assignment], [execute_driver]). *)
Fixpoint send_all (events : list (ReliableEventPayload * Z * list Delivery))
    (st : ReliableState) (db : FleetDb)
  : option (result (list ReliableEventEnvelope) SendError) * ReliableState * FleetDb :=
  match events with
  | [] => (Some (Ok []), st, db)
  | (payload, now, script) :: rest =>
      let '(r, st, db) := send payload now script st db in
      match r with
      | Some (Ok e) =>
          let '(r, st, db) := send_all rest st db in
          ((fun r => match r with Ok es => Ok (e :: es) | Err err => Err err end) <$> r, st, db)
      | Some (Err err) => (Some (Err err), st, db)
      | None => (None, st, db)
      end
  end.
End Sender.

(** ** The daemon's acknowledgement *)
Section Acknowledgement.
Context `{DigestEnv} `{ServiceEnv}.
Context (state : ServiceState) (peer : rstr).

(** The event is stored as the envelope says. *)
Definition stored_as (e : ReliableEventEnvelope) (db : FleetDb) : Prop :=
  exists x, db_events db !! (ai_attempt_id (ev_identity e), as_i64 (ev_reliable_seq e)) = Some x
  /\ ae_trace x = ev_trace_id e /\ ae_payload x = ev_payload e /\ ae_digest x = ev_payload_digest e.

Lemma stored_keeps e db db' : keeps db db' -> stored_as e db -> stored_as e db'.
Proof.
  intros Hk (x & Hx & H1 & H2 & H3). destruct (kp_events _ _ Hk _ _ Hx) as (x' & Hx' & [S1 S2 S3]).
  exists x'. split_and!; congruence.
Qed.

Lemma run_keeps ops db : keeps db (run ops db).
Proof. apply lsim_run. Qed.
Lemma run_ledger ops db : ledger_ok db -> ledger_ok (run ops db).
Proof. apply lsim_run. Qed.

Lemma run_outcomes ops db : ledger_ok db -> keeps_outcomes db (run ops db).
Proof. apply lsim_run. Qed.

Lemma ingest_stores env worker e db x db' :
  ingest_reliable_event env worker e db = Ok (x, db') ->
  x = Ing_Inserted \/ x = Ing_Duplicate -> stored_as e db'.
Proof.
  unfold ingest_reliable_event. intros Hi Hx.
  destruct (reporting_attempt _ _ _ _ _) as [a|]; [|simplify_eq; by destruct Hx].
  head_case Hi E1; [done|]. destruct (db_events db !! _) as [old|] eqn:Eo.
  - head_case Hi E2; simplify_eq; [by destruct Hx|]. bool_hyps. exists old. simpl.
    unfold rstr_eqb in *. bool_hyps. split_and!; try done. by apply Z.eqb_eq.
  - simplify_eq. eexists. simpl. rewrite lookup_insert_eq. by split_and!.
Qed.

Lemma heartbeat_answers env worker i ttl buf db b db' :
  heartbeat_attempt env worker i ttl buf db = Ok (Some b, db') ->
  exists a, db_attempts db' !! ai_attempt_id i = Some a /\ at_contiguous a = ah_contiguous b
  /\ at_lease_expires a = ah_lease_expires_at b
  /\ ah_lease_expires_at b = tx_now env + duration_ms ttl.
Proof.
  unfold heartbeat_attempt. intros Hb. ok_inv Hb; simplify_eq; eexists; simpl;
    rewrite lookup_insert_eq; by split_and!.
Qed.

(** An acknowledged event is stored, and so is everything the answer covers. *)
Lemma event_acknowledged e w ack w' :
  event state peer e w = (Ok ack, w') ->
  stored_as e (w_db w')
  /\ exists a, db_attempts (w_db w') !! ai_attempt_id (ev_identity e) = Some a
     /\ at_contiguous a = ra_highest_contiguous_reliable_seq ack.
Proof.
  unfold event. intros He. apply bind_Ok in He as (wa & w1 & _ & He).
  apply bind_Ok in He as (_ & w2 & _ & He). apply bind_Ok in He as (_ & w3 & _ & He).
  apply bind_Ok in He as (ing & w4 & Hs & He). apply map_err_Ok, store_Ok in Hs as (o1 & env1 & Hi).
  apply bind_Ok in He as (u & w5 & Ha & He). apply lift_Ok in Ha as [Hacc ->].
  apply bind_Ok in He as (ttl & w6 & Ht & He). apply lift_Ok in Ht as [_ ->].
  apply bind_Ok in He as (b & w7 & Hb & He). apply lift_Ok in He as [Heq ->].
  apply or_stale_Ok, store_Ok in Hb as (o2 & env2 & Hb). injection Heq as <-. simpl.
  destruct (heartbeat_answers _ _ _ _ _ _ _ _ Hb) as (a & Hat & Hc & _). split; [|eauto].
  apply ingest_stores in Hi; [|destruct ing; auto; done].
  apply (stored_keeps _ (w_db w4)); [|done].
  eapply keeps_trans; [apply (run_keeps o2)|]. by apply lsim_heartbeat in Hb as [[_ ? _] _].
Qed.

Lemma event_keeps e w : keeps (w_db w) (w_db (event state peer e w).2).
Proof.
  assert (Ho : obeys (fun _ => True) (event state peer e)).
  { unfold event. svc_obeys; try apply obeys_authorize; try apply obeys_lift; store_op; done. }
  destruct (Ho w) as (used & ops & _ & -> & _). apply run_keeps.
Qed.

Lemma publish_keeps net e db : keeps db (publish state peer net e db).2.
Proof.
  destruct net as [|calls answered]; simpl; [apply keeps_refl|].
  pose proof (event_keeps e {| w_db := db; w_calls := calls; w_polls := ∅ |}) as Hk. simpl in Hk.
  by destruct (event _ _ _ _) as [r w].
Qed.

Lemma publish_acknowledged net e db ack db' :
  publish state peer net e db = (Ok ack, db') ->
  stored_as e db'
  /\ exists a, db_attempts db' !! ai_attempt_id (ev_identity e) = Some a
     /\ at_contiguous a = ra_highest_contiguous_reliable_seq ack.
Proof.
  destruct net as [|calls answered]; simpl; [done|].
  destruct (event _ _ _ _) as [r w] eqn:E. destruct answered; [|done].
  destruct r as [x|]; simpl; [|done]. intros [= -> <-]. by apply event_acknowledged in E.
Qed.
End Acknowledgement.

(** ** The sender *)
Section Delivered.
Context `{DigestEnv} `{ServiceEnv}.
Context (state : ServiceState) (peer : rstr).
Context (identity : AttemptIdentity) (trace_id : Uuid).
Notation id := (ai_attempt_id identity).
Notation deliver := (deliver state peer).
Notation send := (send state peer identity trace_id).
Notation send_all := (send_all state peer identity trace_id).
Notation envelope := (envelope identity trace_id).

Definition acknowledged (e : ReliableEventEnvelope) (db : FleetDb) : Prop :=
  stored_as e db
  /\ exists a, db_attempts db !! ai_attempt_id (ev_identity e) = Some a
     /\ ev_reliable_seq e <= at_contiguous a.

Lemma acknowledged_keeps e db db' : keeps db db' -> acknowledged e db -> acknowledged e db'.
Proof.
  intros Hk [Hs (a & Ha & Hle)]. split; [by eapply stored_keeps|].
  destruct (kp_attempts _ _ Hk _ _ Ha) as (a' & Ha' & _ & Hc). exists a'. split; [done|lia].
Qed.

Lemma deliver_nil script db r buffer db' :
  deliver script [] db = (r, buffer, db') -> buffer = [] /\ db' = db.
Proof. destruct script as [|d script]; simpl; [|case_match]; intros; by simplify_eq. Qed.

(** Delivering one event: it leaves the buffer exactly when it is acknowledged. *)
Lemma deliver_one script e db r buffer db' :
  deliver script [e] db = (r, buffer, db') ->
  keeps db db' /\ (length buffer <= 1)%nat
  /\ (r = Some (Ok tt) -> buffer = [] /\ acknowledged e db').
Proof.
  revert db. induction script as [|d script IH]; intros db; cbn [WorkerDelivery.deliver].
  { intros; simplify_eq. split_and!; [apply keeps_refl|simpl; lia|done]. }
  destruct (dv_lease_lost d).
  { intros; simplify_eq. split_and!; [apply keeps_refl|simpl; lia|done]. }
  destruct (publish state peer (dv_net d) e db) as [x db1] eqn:Ep.
  pose proof (publish_keeps state peer (dv_net d) e db) as Hk. rewrite Ep in Hk. simpl in Hk.
  assert (Hstay : deliver script [e] db1 = (r, buffer, db') ->
            keeps db db' /\ (length buffer <= 1)%nat
            /\ (r = Some (Ok tt) -> buffer = [] /\ acknowledged e db')).
  { intros Hd. destruct (IH db1 Hd) as (K & L & R). split_and!; [by eapply keeps_trans|done..]. }
  destruct x as [ack|err].
  - cbn [drop_acknowledged]. destruct (Z.leb_spec (ev_reliable_seq e)
      (ra_highest_contiguous_reliable_seq ack)) as [Hle|]; [|done].
    intros Hd. apply deliver_nil in Hd as [-> ->].
    apply publish_acknowledged in Ep as (Hs & a & Ha & Hc).
    split_and!; [done|simpl; lia|]. intros _. split; [done|]. split; [done|].
    exists a. split; [done|lia].
  - destruct (is_non_retryable err); [|done]. intros; simplify_eq.
    split_and!; [done|simpl; lia|done].
Qed.

Lemma send_one payload now script st db r st' db' :
  rl_unacknowledged st = [] -> send payload now script st db = (r, st', db') ->
  keeps db db' /\ rl_next_seq st' = rl_next_seq st + 1
  /\ (length (rl_unacknowledged st') <= 1)%nat
  /\ (forall e, r = Some (Ok e) -> rl_unacknowledged st' = []
        /\ e = envelope (rl_next_seq st) payload now /\ acknowledged e db').
Proof.
  unfold WorkerDelivery.send. intros ->. cbn [length app Nat.ltb Nat.leb negb EVENT_BUFFER_CAPACITY].
  set (e := envelope _ _ _). destruct (WorkerDelivery.deliver _ _ _ _ _) as [[x buffer] db1] eqn:Ed.
  intros; simplify_eq. apply deliver_one in Ed as (K & L & R). split_and!; [done..|].
  simpl. intros e' He'. destruct x as [[[]|]|]; simplify_eq/=. by destruct (R eq_refl).
Qed.

(** The events are numbered in order and acknowledged. *)
Definition in_ledger (start : Z) (events : list (ReliableEventPayload * Z * list Delivery))
    (es : list ReliableEventEnvelope) (db : FleetDb) : Prop :=
  length es = length events
  /\ forall k payload now script, events !! k = Some (payload, now, script) ->
     exists e, es !! k = Some e /\ e = envelope (start + Z.of_nat k) payload now
     /\ acknowledged e db.

Lemma send_all_ledger events st db r st' db' :
  rl_unacknowledged st = [] -> send_all events st db = (r, st', db') ->
  keeps db db' /\ (length (rl_unacknowledged st') <= 1)%nat
  /\ (forall es, r = Some (Ok es) -> rl_unacknowledged st' = []
        /\ in_ledger (rl_next_seq st) events es db').
Proof.
  revert st db r st' db'. induction events as [|[[payload now] script] events IH];
    intros st db r st' db' Hst; simpl.
  { intros; simplify_eq. rewrite Hst. split_and!; [apply keeps_refl|simpl; lia|].
    intros es [= <-]. by repeat split. }
  destruct (WorkerDelivery.send _ _ _ _ _ _ _ _ _) as [[x st1] db1] eqn:Es.
  apply send_one in Es as (K1 & Hn & L1 & R1); [|done].
  destruct x as [[e|err]|]; [|intros; by simplify_eq..].
  destruct (R1 e eq_refl) as (Hb & He & Hack).
  destruct (WorkerDelivery.send_all _ _ _ _ _ _ _) as [[y st2] db2] eqn:Ea.
  apply IH in Ea as (K2 & L2 & R2); [|done]. intros; simplify_eq.
  split_and!; [by eapply keeps_trans|done|]. intros es Hes.
  destruct y as [[es'|]|]; simplify_eq/=. destruct (R2 es' eq_refl) as (Hb' & Hl & Hall).
  split; [done|]. split; [simpl; lia|]. intros [|k] p n s Hk; simpl in Hk |- *.
  - simplify_eq. eexists. split_and!; [done|f_equal; lia|]. by eapply acknowledged_keeps.
  - destruct (Hall k p n s Hk) as (e & He & Heq & Ha). exists e. split_and!; try done.
    rewrite Heq, Hn. f_equal. lia.
Qed.

(** The last event commits the outcome it carries. *)
Lemma acknowledged_commits e a outcome artifacts write db :
  acknowledged e db -> 0 <= ev_reliable_seq e ->
  db_attempts db !! ai_attempt_id (ev_identity e) = Some a ->
  ev_payload e = Event_Terminal (payload_digest outcome) ->
  check_terminal_event (ai_attempt_id (ev_identity e)) a
    {| ts_reliable_seq := ev_reliable_seq e; ts_payload_digest := ev_payload_digest e;
       ts_outcome := outcome; ts_artifacts := artifacts; ts_write := write |} db = Ok tt.
Proof.
  intros [(x & Hx & _ & Hp & Hd) (a' & Ha' & Hle)] Hpos Ha Hpay.
  rewrite Ha in Ha'. injection Ha' as <-.
  unfold check_terminal_event. simpl. pose proof (as_i64_below (ev_reliable_seq e) Hpos).
  destruct (Z.ltb_spec (at_contiguous a) (as_i64 (ev_reliable_seq e))); [lia|].
  rewrite Hx, Hp, Hpay, Hd. unfold rstr_eqb. by rewrite !bool_decide_eq_true_2.
Qed.

(** C7: Events are delivered exactly.  A worker sends the events of an execution
    over a network that loses requests and answers, to a daemon whose store calls
    fail and interleave with other requests.  However that goes, the resend buffer
    never holds more than one event; and if every send returns, the events are
    numbered from one in order, each is stored with its payload and digest and
    lies in the acknowledged prefix, and the completion that names the last of
    them finds its outcome committed. *)
Theorem delivery_exact events db r st db' :
  send_all events ReliableSender_new db = (r, st, db') ->
  (length (rl_unacknowledged st) <= 1)%nat
  /\ (forall es, r = Some (Ok es) ->
       in_ledger 1 events es db'
       /\ (forall e a outcome artifacts write,
             last es = Some e -> db_attempts db' !! ai_attempt_id identity = Some a ->
             ev_payload e = Event_Terminal (payload_digest outcome) ->
             check_terminal_event (ai_attempt_id identity) a
               {| ts_reliable_seq := ev_reliable_seq e; ts_payload_digest := ev_payload_digest e;
                  ts_outcome := outcome; ts_artifacts := artifacts; ts_write := write |} db'
             = Ok tt)).
Proof.
  intros Hs. apply send_all_ledger in Hs as (_ & Hlen & Hok); [|done]. split; [done|].
  intros es Hes. destruct (Hok es Hes) as [_ [Hl Hin]]. split; [done|].
  intros e a outcome artifacts write Hlast Ha Hpay.
  rewrite last_lookup in Hlast. set (k := Nat.pred (length es)) in *.
  destruct (lookup_lt_is_Some_2 events k) as [[[payload now] script] Hk].
  { rewrite <- Hl. by apply lookup_lt_Some in Hlast. }
  destruct (Hin k payload now script Hk) as (e' & He' & Heq & Hack). simplify_eq.
  apply (acknowledged_commits _ a outcome artifacts write) in Hack; simpl in *; try done. lia.
Qed.
End Delivered.

(** ** A concrete delivery *)
Definition demo_service : ServiceEnv :=
  {| hmac_sha256 := fun _ m => map (fun b => Z.land b 255) m; mint_repository_read_token := fun _ _ => None;
     json_from_slice := fun _ => None |}.
Definition demo_state : ServiceState := {| st_key := []; st_config := FleetConfig_default |}.
Definition demo_signed (attempt fence : Z) : AttemptIdentity :=
  {| ai_worker_session_id := demo_session; ai_attempt_id := attempt;
     ai_fencing_generation := fence;
     ai_lease_token := @issue demo_service [] demo_worker demo_session attempt fence |}.

(** Three store calls at time [t]. *)
Definition demo_calls (t : Z) : list StoreCall := repeat (Call_Runs [] (at_time t)) 3.
Definition demo_attempts (t : Z) : list Delivery :=
  map (fun n => {| dv_lease_lost := false; dv_net := n |})
    [Net_Lost; Net_Served [Call_Fails []] true; Net_Served (demo_calls t) false;
     Net_Served (demo_calls (t + 1)) true; Net_Lost].
Definition demo_outcome : TerminalOutcome := Outcome_Cancelled (lit "stop").
Definition demo_events : list (ReliableEventPayload * Z * list Delivery) :=
  [(Event_Phase (lit "accepted") 5, 1700000000000, demo_attempts 100);
   (Event_Terminal (@payload_digest demo_digest _ _ demo_outcome), 1700000000001,
    demo_attempts 200)].
Definition demo_delivery :=
  @send_all demo_digest demo_service demo_state demo_key (demo_signed demo_attempt 1) 502
    demo_events ReliableSender_new demo_running.

Lemma demo_delivery_returns :
  match demo_delivery.1.1 with Some (Ok es) => length es | _ => 0%nat end = 2%nat.
Proof. vm_compute. reflexivity. Qed.

Lemma delivery_exact_witness :
  exists es st db', demo_delivery = (Some (Ok es), st, db') /\ length es = 2%nat
  /\ @in_ledger demo_digest (demo_signed demo_attempt 1) 502 1 demo_events es db'.
Proof.
  pose proof demo_delivery_returns as Hr. destruct demo_delivery as [[r st] db'] eqn:Hd.
  simpl in Hr. destruct r as [[es|]|]; [|discriminate Hr..].
  exists es, st, db'. split; [reflexivity|]. split; [exact Hr|].
  exact (proj1 (proj2 (@delivery_exact demo_digest demo_service demo_state demo_key
    (demo_signed demo_attempt 1) 502 demo_events demo_running _ st db' Hd) es eq_refl)).
Defined.
