(* ===== verification/ServiceEffects.v ===== *)
(** * Lease tokens, polls and completions

    What the daemon's answers mean: a lease token names one attempt of one
    worker, an answered completion is settled, and a long poll ends. *)
From stdpp Require Import base list strings gmap.
From Stdlib Require Import ZArith Lia.
From S2P Require Import Prelude RustStr Json FleetModel Negotiation Validate FleetDb.
From S2P Require Import FleetSessions FleetScheduling FleetEvents FleetAdmin FleetSpec.
From S2P Require Import FleetRefine FleetSystem FleetService FleetDemo ServiceSafety.
From S2P Require Import FleetRetry FleetLedger WorkerDelivery.

Local Open Scope Z_scope.
Open Scope svc_scope.

(** ** Signed byte strings *)
Definition uuid_range (u : Uuid) : Prop := 0 <= u < 2 ^ 128.

Lemma signing_bytes_inj w s a f w' s' a' f' :
  uuid_range w -> uuid_range s -> uuid_range a -> in_u64 f ->
  uuid_range w' -> uuid_range s' -> uuid_range a' -> in_u64 f' ->
  signing_bytes w s a f = signing_bytes w' s' a' f' -> w = w' /\ s = s' /\ a = a' /\ f = f'.
Proof.
  unfold signing_bytes, uuid_range, in_u64, U64_MAX. intros Hw Hs Ha Hf Hw' Hs' Ha' Hf' Heq.
  apply app_inj_1 in Heq as [E1 Heq]; [|by rewrite !be_bytes_length].
  apply app_inj_1 in Heq as [E2 Heq]; [|by rewrite !be_bytes_length].
  apply app_inj_1 in Heq as [E3 E4]; [|by rewrite !be_bytes_length].
  apply be_bytes_inj in E1, E2, E3, E4; simpl; lia.
Qed.

(** Two hexadecimal digits determine a byte. *)
Lemma hex_digit_inj d d' : 0 <= d < 16 -> 0 <= d' < 16 -> hex_digit d = hex_digit d' -> d = d'.
Proof. unfold hex_digit. intros. destruct (Z.ltb_spec d 10), (Z.ltb_spec d' 10); lia. Qed.

Lemma hex_byte_inj b b' : 0 <= b < 256 -> 0 <= b' < 256 -> hex_digits 2 b = hex_digits 2 b' -> b = b'.
Proof.
  unfold hex_digits. simpl. intros Hb Hb' [= H1 H0].
  change 15 with (Z.ones 4) in *. rewrite !Z.land_ones, !Z.shiftr_div_pow2 in * by lia.
  change (2 ^ 4) with 16 in *. change (2 ^ 0) with 1 in *. rewrite !Z.div_1_r in *.
  apply hex_digit_inj in H1, H0; try (apply Z.mod_pos_bound; lia).
  rewrite (Z.mod_small (b / 16)), (Z.mod_small (b' / 16)) in H1
    by (split; [apply Z.div_pos; lia | apply Z.div_lt_upper_bound; lia]).
  rewrite (Z.div_mod b 16), (Z.div_mod b' 16) by lia. congruence.
Qed.

Lemma hex_encode_inj bs bs' :
  Forall (fun b => 0 <= b < 256) bs -> Forall (fun b => 0 <= b < 256) bs' ->
  hex_encode bs = hex_encode bs' -> bs = bs'.
Proof.
  revert bs'. induction bs as [|b bs IH]; intros [|b' bs'] Hb Hb' Heq; try done.
  inversion Hb; inversion Hb'; subst. unfold hex_encode in Heq. cbn [map concat] in Heq.
  apply app_inj_1 in Heq as [E1 E2]; [|done]. f_equal; [by apply hex_byte_inj | by apply IH].
Qed.

Lemma bytes_ascii s : Forall (fun c => c < 128) s -> bytes s = s.
Proof.
  intros Hs. unfold bytes. induction Hs as [|c s Hc _ IH]; [done|]. simpl.
  by rewrite encode_utf8_ascii, IH.
Qed.

(** A string of hexadecimal digits is its own UTF-8 encoding. *)
Lemma hex_encode_bytes bs : Forall (fun b => 0 <= b < 256) bs -> bytes (hex_encode bs) = hex_encode bs.
Proof.
  intros Hb. apply bytes_ascii. unfold hex_encode. apply Forall_concat, Forall_map.
  eapply Forall_impl; [exact Hb|]. simpl. intros b Hr. unfold hex_digits. simpl.
  change 15 with (Z.ones 4). rewrite !Z.land_ones by lia. unfold hex_digit.
  repeat constructor; simpl;
    match goal with |- context [?z mod ?m] => pose proof (Z.mod_pos_bound z m ltac:(lia)) end;
    match goal with |- context [?a <? ?b] => destruct (Z.ltb_spec a b) end; lia.
Qed.

(** ** Lease tokens *)
Section Tokens.
Context `{ServiceEnv}.
(** HMAC-SHA-256 yields bytes. *)
Context (mac_bytes : forall key m, Forall (fun b => 0 <= b < 256) (hmac_sha256 key m)).

Definition well_formed (worker : Uuid) (i : AttemptIdentity) : Prop :=
  uuid_range worker /\ uuid_range (ai_worker_session_id i) /\ uuid_range (ai_attempt_id i)
  /\ in_u64 (ai_fencing_generation i).

Lemma verify_iff key worker i :
  verify key worker i = true <->
  bytes (ai_lease_token i) = issue key worker (ai_worker_session_id i) (ai_attempt_id i)
                               (ai_fencing_generation i).
Proof.
  unfold verify, issue. rewrite bool_decide_eq_true, hex_encode_bytes by apply mac_bytes.
  by split.
Qed.

(** A lease token binds every coordinate.  The token of an offer that a poll
    signs is verified for its worker.  If one token is verified for two identities
    (of any workers), both name the same worker, session, attempt and fence, or
    the two signed messages are a collision of the MAC. *)
Theorem lease_token_binds state worker offer worker' i i' :
  verify (st_key state) worker (wo_identity (signed_offer state worker offer)) = true
  /\ (let key := st_key state in
      let message w j := signing_bytes w (ai_worker_session_id j) (ai_attempt_id j)
                           (ai_fencing_generation j) in
      well_formed worker i -> well_formed worker' i' ->
      verify key worker i = true -> verify key worker' i' = true ->
      ai_lease_token i = ai_lease_token i' ->
      (worker = worker' /\ i = i')
      \/ (message worker i <> message worker' i'
          /\ hmac_sha256 key (message worker i) = hmac_sha256 key (message worker' i'))).
Proof.
  split; [by apply verify_iff; unfold issue; rewrite <- (hex_encode_bytes _ (mac_bytes _ _))|].
  intros key message (W & S & A & F) (W' & S' & A' & F') Hv Hv' Htok.
  apply verify_iff in Hv, Hv'. rewrite Htok, Hv' in Hv. unfold issue in Hv.
  apply hex_encode_inj in Hv; [|apply mac_bytes..].
  destruct (decide (message worker i = message worker' i')) as [Heq|Hne]; [left|by right].
  destruct (signing_bytes_inj _ _ _ _ _ _ _ _ W S A F W' S' A' F' Heq) as (-> & E1 & E2 & E3).
  split; [done|]. destruct i, i'; simpl in *. congruence.
Qed.
End Tokens.

(** ** Completion *)
Section Completion.
Context `{DigestEnv} `{ServiceEnv} `{ArtifactStore}.
Context (state : ServiceState) (peer : rstr).

Definition promoted_as (attempt : Uuid) (d : ArtifactDescriptor) (db : FleetDb) : Prop :=
  exists st, db_staging db !! (attempt, ad_key d) = Some st /\ sg_status st = G_Promoted
  /\ staged_as d st = true.

(** Promotion rewrites rows without touching what they describe. *)
Lemma promote_keeps env attempt l db db' k st :
  FleetEvents.promote_artifacts env attempt l db = Some db' -> db_staging db !! k = Some st ->
  sg_status st = G_Promoted ->
  exists st', db_staging db' !! k = Some st' /\ sg_status st' = G_Promoted
  /\ forall d, staged_as d st' = staged_as d st.
Proof.
  revert db st. induction l as [|d l IH]; intros db st Hp Hk Hst; simpl in Hp.
  { simplify_eq. by exists st. }
  destruct (db_staging db !! (attempt, ad_key d)) as [s|] eqn:Es; [|done].
  destruct (_ && _); [|done]. destruct (decide ((attempt, ad_key d) = k)) as [<-|Hne].
  - simplify_eq. edestruct IH as (st' & Hl & Hs' & Hsame);
      [exact Hp | simpl; apply lookup_insert_eq | done |].
    exists st'. by split_and!.
  - apply (IH _ _ Hp); [by simpl; rewrite lookup_insert_ne|done].
Qed.

Lemma promote_all env attempt l db db' d :
  FleetEvents.promote_artifacts env attempt l db = Some db' -> d ∈ l -> promoted_as attempt d db'.
Proof.
  revert db. induction l as [|x l IH]; intros db Hp Hd; [by apply not_elem_of_nil in Hd|].
  simpl in Hp. destruct (db_staging db !! (attempt, ad_key x)) as [s|] eqn:Es; [|done].
  destruct (staged_as x s) eqn:Ex; simpl in Hp; [|done]. destruct (_ || _); [|done].
  apply elem_of_cons in Hd as [->|Hd]; [|by eapply IH].
  edestruct promote_keeps as (st & Hst & Hs & Hsame);
    [exact Hp | simpl; apply lookup_insert_eq | done |].
  exists st. split_and!; try done. by rewrite Hsame.
Qed.

Lemma promote_manifest_true attempt manifest w w' :
  promote_manifest (E := ServiceError) attempt manifest w = (Ok true, w') ->
  forallb promote_fleet_upload manifest = true
  /\ (exists a t, db_attempts (w_db w') !! attempt = Some a /\ attempt_terminal (at_status a) = true
        /\ at_terminal a = Some t /\ tr_artifacts t = manifest)
  /\ (forall d, d ∈ manifest -> promoted_as attempt d (w_db w')).
Proof.
  unfold promote_manifest. destruct (forallb _ _); [|done].
  destruct (store _ w) as [[b|] w1] eqn:Es; [|done]. intros [= -> <-].
  apply store_Ok in Es as (others & env & Hm). revert Hm. unfold mark_artifacts_promoted.
  destruct (db_attempts _ !! attempt) as [a|] eqn:Ha; [|done].
  destruct (at_terminal a) as [t|] eqn:Ht; [|done]. intros Hm. head_case Hm E1; [|done]. bool_hyps.
  destruct (FleetEvents.promote_artifacts _ _ _ _) as [db1|] eqn:Ep; [|done]. simplify_eq.
  split_and!; [done| |].
  - apply promote_artifacts_staging in Ep as [f Hf]. exists a, t. rewrite Hf. by split_and!.
  - intros d Hd. by eapply promote_all.
Qed.

(** An accepted outcome is the recorded one. *)
Lemma accept_terminal_records env worker i s db x db' :
  accept_terminal env worker i s db = Ok (x, db') -> x = T_Accepted \/ x = T_Duplicate ->
  exists a t, db_attempts db' !! ai_attempt_id i = Some a /\ at_terminal a = Some t
  /\ same_terminal t s = true.
Proof.
  intros Ha Hx. pose proof Ha as Hc. apply accept_terminal_cases in Hc as [[-> Hne]|Hc].
  - destruct Hx as [->| ->]; [done|]. revert Ha. unfold accept_terminal.
    destruct (find_attempt worker i db) as [a|] eqn:Ef; [|done]. apply find_attempt_Some in Ef as (Hf & _).
    destruct (attempt_terminal _).
    + destruct (at_terminal a) as [t|] eqn:Et; [|done]. destruct (same_terminal t s) eqn:Es; [|done].
      intros _. eauto.
    + intros Ha. ok_inv Ha; simplify_eq.
  - destruct Hc as (a & j & db1 & _ & _ & _ & _ & _ & _ & _ & _ & _ & f & ->). simpl.
    rewrite lookup_insert_eq. eexists _, _. split_and!; [done|done|]. apply same_terminal_refl.
Qed.

Lemma obeys_ledger {E A} P (m : Svc E A) w x w' :
  obeys P m -> m w = (x, w') -> ledger_ok (w_db w) -> ledger_ok (w_db w').
Proof. intros Hm Hr Hok. destruct (obeys_moves P m w x w' Hm Hr) as [ops ->]. by apply run_ledger. Qed.

Definition submission_of (r : CompleteAttemptRequest) : FleetTerminalSubmission :=
  {| ts_reliable_seq := ca_terminal_reliable_seq r;
     ts_payload_digest := ca_terminal_payload_digest r; ts_outcome := ca_outcome r;
     ts_artifacts := ca_artifacts r;
     ts_write := terminal_write (ai_attempt_id (ca_identity r)) (ca_outcome r) (ca_artifacts r) |}.

(** What an answered completion did. *)
Lemma complete_did r w answer w' :
  complete state peer r w = (Ok answer, w') ->
  answer = {| car_accepted := true |}
  /\ (exists worker, peer_worker peer w = Some worker
        /\ verify (st_key state) worker (ca_identity r) = true)
  /\ (exists total, checked_sum 0 (ca_artifacts r) = Some total
        /\ total <= cf_max_attempt_artifact_bytes (st_config state))
  /\ exists w1, (ledger_ok (w_db w) -> ledger_ok (w_db w1))
     /\ (exists a t, db_attempts (w_db w1) !! ai_attempt_id (ca_identity r) = Some a
          /\ at_terminal a = Some t /\ same_terminal t (submission_of r) = true)
     /\ promote_manifest (E := ServiceError) (ai_attempt_id (ca_identity r)) (ca_artifacts r) w1
        = (Ok true, w').
Proof.
  unfold complete. intros Hr. svc_inv Hr. svc_inv Hr. unfold authorize_attempt in Hr.
  do 9 svc_inv Hr. split; [destruct a6; [..|done]; do 2 svc_inv Hr; by apply lift_Ok in Hr as [[= <-] _]|].
  assert (Hrec : exists a t, db_attempts (w_db w7) !! ai_attempt_id (ca_identity r) = Some a
            /\ at_terminal a = Some t /\ same_terminal t (submission_of r) = true).
  { pose proof Hc6 as Hs. apply store_Ok in Hs as (others & env & Ha).
    apply accept_terminal_records in Ha; [done|]. destruct a6; auto. done. }
  assert (Hl : ledger_ok (w_db w) -> ledger_ok (w_db w7)).
  { intros Hok.
    repeat match goal with Hm : _ ?v = (Ok _, _), Hv : ledger_ok (w_db ?v) |- _ =>
      apply (obeys_ledger (fun _ => True)) in Hm;
        [clear Hv | svc_obeys; first [apply obeys_authorize | by apply obeys_verify_uploads
                                     | store_op; done] | done] end.
    done. }
  apply authorize_peer_worker in Hc. apply lift_Ok in Hc3 as [Hsum _]. split_and!.
  - eauto.
  - exists a3. split; [by destruct (checked_sum _ _); simplify_eq/=|]. lia.
  - exists w7. split_and!; [done|done|]. destruct a6; [..|done]; do 2 svc_inv Hr;
      apply lift_Ok in Hr as [_ ->]; congruence.
Qed.

(** The record an answered completion leaves. *)
Lemma complete_record r w answer w' :
  complete state peer r w = (Ok answer, w') ->
  (exists a t, db_attempts (w_db w') !! ai_attempt_id (ca_identity r) = Some a
     /\ attempt_terminal (at_status a) = true
     /\ at_terminal a = Some t /\ tr_artifacts t = ca_artifacts r
     /\ (ledger_ok (w_db w) -> same_terminal t (submission_of r) = true))
  /\ (forall d, d ∈ ca_artifacts r ->
        promote_fleet_upload d = true /\ promoted_as (ai_attempt_id (ca_identity r)) d (w_db w')).
Proof.
  intros Hr. apply complete_did in Hr as (-> & _ & _ & w1 & Hl & (a & t & Ha & Hat & Hs) & Hp).
  assert (Hmoved : exists ops, w_db w' = run ops (w_db w1)).
  { by apply (obeys_moves (fun _ => True)) in Hp; [|apply obeys_promote]. }
  destruct Hmoved as [ops Hops].
  apply promote_manifest_true in Hp as (Hall & (b & u & Hb & Hbt & Hbu & Hm) & Hst). split.
  - exists b, u. split_and!; try done. intros Hok.
    destruct (run_outcomes ops _ (Hl Hok) _ a t Ha Hat) as (c & Hc & Hct).
    rewrite Hops in Hb. congruence.
  - intros d Hd. split; [|by apply Hst]. rewrite forallb_forall in Hall.
    by apply Hall, list_elem_of_In.
Qed.

(** An answered completion is settled.  When the daemon tells a worker that
    its completion is accepted, the lease token was the worker's, the artifacts
    stay within the configured total, the attempt is finished with exactly the
    manifest of the request (and, in a store whose ledger is sound, with its outcome
    under its terminal event), and every object of it was copied to its final place
    and is recorded as promoted with its size, digest and logical name. *)
Theorem completion_settled r w answer w' :
  complete state peer r w = (Ok answer, w') ->
  let id := ai_attempt_id (ca_identity r) in
  car_accepted answer = true
  /\ (exists worker, peer_worker peer w = Some worker
        /\ verify (st_key state) worker (ca_identity r) = true)
  /\ (exists total, checked_sum 0 (ca_artifacts r) = Some total
        /\ total <= cf_max_attempt_artifact_bytes (st_config state))
  /\ (exists a t, db_attempts (w_db w') !! id = Some a /\ attempt_terminal (at_status a) = true
        /\ at_terminal a = Some t /\ tr_artifacts t = ca_artifacts r
        /\ (ledger_ok (w_db w) -> same_terminal t (submission_of r) = true))
  /\ (forall d, d ∈ ca_artifacts r ->
        promote_fleet_upload d = true /\ promoted_as id d (w_db w')).
Proof.
  intros Hr id. pose proof (complete_record _ _ _ _ Hr) as [Hrec Hall].
  apply complete_did in Hr as (-> & Hw & Ht & _). by split_and!.
Qed.
End Completion.

(** ** The long poll *)
Section Poll.
Context `{DigestEnv} `{ServiceEnv}.
Context (state : ServiceState) (peer : rstr).

(** A computation that leaves the set of active polls alone. *)
Definition keeps_polls {E A} (m : Svc E A) : Prop := forall w, w_polls (m w).2 = w_polls w.

Lemma polls_lift {E A} (r : result A E) : keeps_polls (lift r).
Proof. done. Qed.
Lemma polls_bind {E A B} (m : Svc E A) (k : A -> Svc E B) :
  keeps_polls m -> (forall a, keeps_polls (k a)) -> keeps_polls (svc_bind m k).
Proof.
  intros Hm Hk w. unfold svc_bind. specialize (Hm w). destruct (m w) as [[a|e] w1]; simpl in *; [|done].
  by rewrite Hk.
Qed.
Lemma polls_map_err {E F A} (f : E -> F) (m : Svc E A) :
  keeps_polls m -> keeps_polls (svc_map_err f m).
Proof. intros Hm w. unfold svc_map_err. specialize (Hm w). by destruct (m w). Qed.
Lemma polls_store {A} (tx : TxEnv -> Tx A) : keeps_polls (store tx).
Proof.
  intros w. unfold store. destruct (w_calls w) as [|[others env|others|others env] rest]; try done.
  by destruct (tx env _) as [[? ?]|].
Qed.

Ltac polls :=
  repeat first [ apply polls_lift | apply polls_store | apply polls_map_err
               | apply polls_bind; [|intros ?] ].

Lemma polls_poll_loop worker session deadline ticks :
  keeps_polls (poll_loop state worker session deadline ticks).
Proof.
  induction ticks as [|t ticks IH]; simpl; [apply polls_lift|]. case_match; [polls|].
  unfold config_duration, query_result, require_session, query. polls. case_match; [polls|]. polls.
  case_match; polls. case_match; [polls|done].
Qed.

(** The clock advances by the sleep of each iteration. *)
Definition ticking (base : Z) (ticks : list PollTick) : Prop :=
  forall k t, ticks !! k = Some t -> base + 250 * Z.of_nat k <= pt_now t.

Lemma poll_loop_ends worker session deadline base ticks w w' :
  ticking base ticks -> ticks <> [] -> deadline <= base + 250 * (Z.of_nat (length ticks) - 1) ->
  poll_loop state worker session deadline ticks w <> (Ok None, w').
Proof.
  revert base w. induction ticks as [|t ticks IH]; intros base w Ht Hne Hd Hr; [done|].
  simpl in Hr. destruct (pt_quiescing t); [done|]. do 3 svc_inv Hr.
  destruct a1 as [o|]; [by apply lift_Ok in Hr as [? _]|]. svc_inv Hr.
  destruct a1; try by apply lift_Ok in Hr as [? _]. svc_inv Hr.
  pose proof (Ht 0%nat t eq_refl) as Hnow. simpl in Hnow.
  destruct (Z.leb_spec deadline (pt_now t)) as [|Hlt]; [by apply lift_Ok in Hr as [? _]|].
  destruct (pt_interrupted t); [by apply lift_Ok in Hr as [? _]|]. simpl in Hr.
  destruct ticks as [|t' ticks]; [simpl in Hd; lia|].
  revert Hr. apply (IH (base + 250)); [|done|simpl in *; lia].
  intros k x Hk. specialize (Ht (S k) x Hk). lia.
Qed.

(** A long poll ends.  Every iteration of the loop sleeps for a quarter of a
    second, so after at most four iterations per second of the configured timeout
    and one more the poll is answered: with an offer, an instruction, no work, or
    an error.  Whatever the answer, the session's poll guard is released. *)
Theorem poll_ends r started ticks w :
  ticking started ticks ->
  4 * cf_long_poll_seconds (st_config state) + 1 <= Z.of_nat (length ticks) ->
  0 <= cf_long_poll_seconds (st_config state) ->
  (poll state peer r started ticks w).1 <> Ok None
  /\ w_polls (poll state peer r started ticks w).2 = w_polls w.
Proof.
  intros Ht Hlen Hpos. split.
  - destruct (poll state peer r started ticks w) as [x w'] eqn:Hr. simpl. intros ->.
    unfold poll in Hr. do 3 svc_inv Hr. unfold with_poll_guard in Hr. case_decide; [done|].
    destruct (poll_loop _ _ _ _ _ _) as [y w3] eqn:Hl. injection Hr as -> <-. revert Hl.
    apply (poll_loop_ends _ _ _ started); [done|intros ->; simpl in Hlen; lia|lia].
  - unfold poll, authorize_peer, require_session, svc_validate, query.
    revert w. apply polls_bind; [polls|intros wa]. apply polls_bind; [polls|intros _].
    apply polls_bind; [polls|intros _]. intros w. unfold with_poll_guard. case_decide; [done|].
    pose proof (polls_poll_loop (wa_worker_id wa) (pr_worker_session_id r)
      (started + cf_long_poll_seconds (st_config state) * 1000) ticks
      (with_polls (fun s => {[(wa_worker_id wa, pr_worker_session_id r)]} ∪ s) w)) as Hk.
    destruct (poll_loop _ _ _ _ _ _) as [y w3]. simpl in *. rewrite Hk. set_solver.
Qed.
End Poll.

(** ** Witnesses *)
Lemma demo_mac_bytes key m : Forall (fun b => 0 <= b < 256) (@hmac_sha256 demo_service key m).
Proof.
  simpl. apply Forall_map, Forall_true. intros b. simpl. change 255 with (Z.ones 8).
  rewrite Z.land_ones by lia. apply (Z.mod_pos_bound b (2 ^ 8)). lia.
Qed.
Lemma demo_well_formed : well_formed demo_worker (demo_signed demo_attempt 1).
Proof. unfold well_formed, uuid_range, in_u64. vm_compute. repeat split; congruence. Qed.
Lemma demo_token_verifies : @verify demo_service [] demo_worker (demo_signed demo_attempt 1) = true.
Proof. vm_compute. reflexivity. Qed.

Definition demo_offer : WorkOffer :=
  {| wo_identity := demo_identity demo_attempt 1; wo_job_id := demo_job; wo_trace_id := 502;
     wo_capability := Cap_BuildOnly; wo_requirements := Req_BuildOnly; wo_payload_hash := demo_hash;
     wo_offer_expires_at_ms := 110 |}.
Lemma lease_token_binds_witness :
  @verify demo_service [] demo_worker
    (wo_identity (@signed_offer demo_service demo_state demo_worker demo_offer)) = true
  /\ (let i := demo_signed demo_attempt 1 in
      let message := signing_bytes demo_worker demo_session demo_attempt 1 in
      (demo_worker = demo_worker /\ i = i)
      \/ (message <> message
          /\ @hmac_sha256 demo_service [] message = @hmac_sha256 demo_service [] message)).
Proof.
  pose proof (@lease_token_binds demo_service demo_mac_bytes demo_state demo_worker demo_offer
    demo_worker (demo_signed demo_attempt 1) (demo_signed demo_attempt 1)) as [Hv Hb].
  split; [exact Hv|].
  exact (Hb demo_well_formed demo_well_formed demo_token_verifies demo_token_verifies eq_refl).
Defined.

Definition demo_artifacts : ArtifactStore :=
  {| fleet_put_grant := fun _ _ _ _ => None; fleet_get_grant := fun _ _ => None;
     verify_fleet_upload := fun _ => true; promote_fleet_upload := fun _ => true;
     delete_fleet_staging := fun _ => true; archived := fun _ => None;
     run_metric := fun _ => None |}.
(** The worker of the demonstration reports its outcome. *)
Definition demo_completion : CompleteAttemptRequest :=
  {| ca_identity := demo_signed demo_attempt 1; ca_trace_id := 502; ca_terminal_reliable_seq := 2;
     ca_terminal_payload_digest := @payload_digest demo_digest _ _
       (Event_Terminal (@payload_digest demo_digest _ _ demo_outcome));
     ca_outcome := demo_outcome; ca_artifacts := [] |}.
Definition demo_complete_world : World :=
  {| w_db := demo_delivery.2; w_calls := repeat (Call_Runs [] (at_time 300)) 5; w_polls := ∅ |}.
Definition demo_completed :=
  @complete demo_digest demo_service demo_artifacts demo_state demo_key demo_completion
    demo_complete_world.
Lemma demo_completed_accepted :
  match demo_completed.1 with Ok a => car_accepted a | Err _ => false end = true.
Proof. vm_compute. reflexivity. Qed.

Lemma completion_settled_witness :
  exists answer w', demo_completed = (Ok answer, w')
  /\ exists a t, db_attempts (w_db w') !! demo_attempt = Some a
     /\ attempt_terminal (at_status a) = true /\ at_terminal a = Some t /\ tr_artifacts t = []
     /\ (ledger_ok (w_db (demo_complete_world)) ->
         same_terminal t (@submission_of demo_service demo_artifacts demo_completion) = true).
Proof.
  pose proof demo_completed_accepted as Ha. destruct demo_completed as [r w'] eqn:Hc.
  simpl in Ha. destruct r as [answer|]; [|discriminate Ha]. exists answer, w'.
  split; [reflexivity|].
  exact (proj1 (proj2 (proj2 (proj2 (@completion_settled demo_digest demo_service demo_artifacts
    demo_state demo_key demo_completion _ answer w' Hc))))).
Defined.

(** Eighty-one quarter seconds. *)
Definition demo_ticks : list PollTick :=
  (fun k => {| pt_quiescing := false; pt_ids := demo_ids 90; pt_now := 250 * Z.of_nat k;
               pt_interrupted := false |}) <$> seq 0 81.
Lemma demo_ticking : ticking 0 demo_ticks.
Proof.
  intros k t Hk. unfold demo_ticks in Hk. apply list_lookup_fmap_Some in Hk as (n & -> & Hn).
  rewrite lookup_seq in Hn. destruct Hn as [-> _]. cbn [pt_now]. lia.
Qed.
Lemma poll_ends_witness : exists w, w_polls w = ∅
  /\ (@poll demo_digest demo_service demo_state demo_key {| pr_worker_session_id := demo_session |}
        0 demo_ticks w).1 <> Ok None.
Proof.
  exists {| w_db := demo_queued; w_calls := []; w_polls := ∅ |}. split; [reflexivity|].
  refine (proj1 (@poll_ends demo_digest demo_service demo_state demo_key
    {| pr_worker_session_id := demo_session |} 0 demo_ticks _ demo_ticking _ _)).
  - vm_compute. congruence.
  - vm_compute. congruence.
Defined.
