(* ===== verification/WorkerLease.v ===== *)
(** * The worker's lease

    crates/sbgh-worker/src/lease.rs and the parts of fleet.rs that keep it: the
    check of a registration, the heartbeat loop and the flags it raises.  Instants
    are milliseconds of the worker's monotonic clock. *)
From stdpp Require Import base list strings gmap.
From Stdlib Require Import ZArith Lia.
From S2P Require Import Prelude RustStr Json FleetModel Negotiation Validate FleetDb.
From S2P Require Import FleetSessions FleetScheduling FleetEvents FleetAdmin FleetSpec.
From S2P Require Import FleetRefine FleetSystem FleetService FleetDemo ServiceSafety.
From S2P Require Import WorkerDelivery ServiceEffects.

Local Open Scope Z_scope.
Open Scope svc_scope.

(** ** Leases (lease.rs) *)
Definition I64_MIN : Z := - 2 ^ 63.
Definition saturating_sub_i64 (a b : Z) : Z := Z.max I64_MIN (Z.min (a - b) I64_MAX).

Record ServerClock := { sc_started : Z; sc_server_time_ms : Z }.
Definition clock_deadline (c : ServerClock) (expires_at_ms : Z) : Z :=
  sc_started c + Z.max (saturating_sub_i64 expires_at_ms (sc_server_time_ms c)) 0.

Record Lease := { ls_deadline : Z; ls_ttl : Z; ls_clock : ServerClock }.
Definition Lease_new (request_started ttl : Z) (clock : ServerClock) : Lease :=
  {| ls_deadline := request_started + ttl; ls_ttl := ttl; ls_clock := clock |}.

(** [renew] at instant [now]: the renewed lease, or nothing. *)
Definition renew (now request_started server_expiry_ms : Z) (l : Lease) : option Lease :=
  let renewed := Z.min (request_started + ls_ttl l)
                   (clock_deadline (ls_clock l) server_expiry_ms) in
  if (ls_deadline l <=? now) || (renewed <=? now) then None
  else Some {| ls_deadline := renewed; ls_ttl := ls_ttl l; ls_clock := ls_clock l |}.

(** [during]: an operation that would complete at [done], against cancellation
    and the deadline, in the order of the biased [select!]. *)
Inductive Waited := W_Done (at_ : Z) | W_Cancelled | W_Expired (at_ : Z).
Definition before_or_at (a : option Z) (b : Z) : bool :=
  match a with Some x => x <=? b | None => false end.
Definition during (l : Lease) (cancel done : option Z) : Waited :=
  match done with
  | Some t =>
      if before_or_at cancel (Z.min t (ls_deadline l)) then W_Cancelled
      else if ls_deadline l <=? t then W_Expired (ls_deadline l) else W_Done t
  | None =>
      if before_or_at cancel (ls_deadline l) then W_Cancelled else W_Expired (ls_deadline l)
  end.

(** ** The heartbeat loop (fleet.rs) *)
Record HeartbeatState := {
  hs_lease : Lease;
  hs_cancel : bool;       (** [context.cancel] *)
  hs_drain : bool;        (** [drain_requested] *)
  hs_confirmed : bool;    (** [confirmed] was sent *)
  hs_lost : bool;         (** [lease_lost] *)
  hs_promised : Z         (** the expiry the server last confirmed *)
}.
(** One iteration: when the interval ticks, when the request is sent, and when
    which answer arrives. *)
Record Beat := {
  bt_tick : option Z;
  bt_sent : Z;
  bt_reply : option (Z * result HeartbeatResponse CallError)
}.
Inductive LoopEnd := Le_Stopped | Le_Lost (at_ : Z) | Le_Running.

(** The lease is lost: the code after the loop. *)
Definition lose (s : HeartbeatState) : HeartbeatState :=
  {| hs_lease := hs_lease s; hs_cancel := true; hs_drain := hs_drain s;
     hs_confirmed := hs_confirmed s; hs_lost := true; hs_promised := hs_promised s |}.
(** A confirmed heartbeat. *)
Definition confirm (l : Lease) (h : HeartbeatResponse) (s : HeartbeatState) : HeartbeatState :=
  {| hs_lease := l;
     hs_cancel := hs_cancel s || bool_decide (hr_desired_state h = DS_Cancel);
     hs_drain := hs_drain s || bool_decide (hr_desired_state h = DS_Drain);
     hs_confirmed := true; hs_lost := hs_lost s; hs_promised := hr_lease_expires_at_ms h |}.

Fixpoint heartbeat_loop (stop : option Z) (beats : list Beat) (s : HeartbeatState)
  : HeartbeatState * LoopEnd :=
  match beats with
  | [] => (s, Le_Running)
  | b :: rest =>
      match during (hs_lease s) stop (bt_tick b) with
      | W_Cancelled => (s, Le_Stopped)
      | W_Expired t => (lose s, Le_Lost t)
      | W_Done _ =>
          match during (hs_lease s) stop (fst <$> bt_reply b), bt_reply b with
          | W_Done t, Some (_, Ok h) =>
              match renew t (bt_sent b) (hr_lease_expires_at_ms h) (hs_lease s) with
              | Some l => heartbeat_loop stop rest (confirm l h s)
              | None => (lose s, Le_Lost t)
              end
          | W_Done t, Some (_, Err e) =>
              if is_non_retryable e then (lose s, Le_Lost t) else heartbeat_loop stop rest s
          | W_Done t, None => (s, Le_Running)
          | W_Cancelled, _ => (s, Le_Stopped)
          | W_Expired t, _ => (lose s, Le_Lost t)
          end
      end
  end.

(** The state when an assignment starts; its acceptance wrote [promised]. *)
Definition heartbeat_start (accept_started lease_ttl promised : Z) (clock : ServerClock)
  : HeartbeatState :=
  {| hs_lease := Lease_new accept_started lease_ttl clock; hs_cancel := false; hs_drain := false;
     hs_confirmed := false; hs_lost := false; hs_promised := promised |}.

(** ** Registration checks (fleet.rs) *)
Definition MAX_CLOCK_SKEW_MS : Z := 30000.
Inductive WorkerError :=
| We_Negotiation (e : NegotiationError)
| We_Ensure (message : string)
| We_Call (e : CallError).

Definition validate_server_timing (protocol_version heartbeat_interval_ms lease_ttl_ms
    server_time_ms request_started_ms request_finished_ms : Z) : result Z WorkerError :=
  ensure ((PREVIOUS_PROTOCOL_REVISION <=? protocol_version)
          && (protocol_version <=? NEGOTIATED_PROTOCOL_REVISION))
    (We_Ensure "orchestrator returned a mismatched protocol version") ;?
  ensure ((0 <? heartbeat_interval_ms) && (heartbeat_interval_ms <? lease_ttl_ms))
    (We_Ensure "orchestrator returned invalid fleet timing") ;?
  ensure (0 <? server_time_ms) (We_Ensure "orchestrator returned an invalid server time") ;?
  ensure (request_started_ms <=? request_finished_ms)
    (We_Ensure "local system clock moved backwards during registration") ;?
  let midpoint := request_started_ms + (request_finished_ms - request_started_ms) / 2 in
  let skew := Z.min (Z.abs (midpoint - server_time_ms)) U64_MAX in
  ensure (skew <=? MAX_CLOCK_SKEW_MS)
    (We_Ensure "orchestrator clock differs from the worker") ;?
  Ok skew.

Definition validate_registration (request : RegisterSessionRequest)
    (registration : RegisterSessionResponse) (request_started_ms request_finished_ms : Z)
  : result Z WorkerError :=
  let? offer := map_err We_Negotiation
    (ProtocolOffer_registration (rs_protocol_version request) (rs_protocol_offer request)) in
  map_err We_Negotiation (ProtocolOffer_response offer (rg_protocol_version registration)
                            (rg_protocol_contract registration)) ;?
  validate_server_timing (rg_protocol_version registration)
    (rg_heartbeat_interval_ms registration) (rg_lease_ttl_ms registration)
    (rg_server_time_ms registration) request_started_ms request_finished_ms.

Definition validate_registration_check (request : RegistrationCheckRequest)
    (registration : RegistrationCheckResponse) (request_started_ms request_finished_ms : Z)
  : result Z WorkerError :=
  let? offer := map_err We_Negotiation
    (ProtocolOffer_registration (rc_protocol_version request) (rc_protocol_offer request)) in
  map_err We_Negotiation (ProtocolOffer_response offer (rr_protocol_version registration)
                            (rr_protocol_contract registration)) ;?
  ensure (negb (is_nil (rr_worker_id registration)))
    (We_Ensure "orchestrator returned a nil worker identity") ;?
  ensure (negb (bool_decide (rr_effective_capabilities registration = ∅))
          && bool_decide (rr_effective_capabilities registration
                          ⊆ rc_advertised_capabilities request))
    (We_Ensure "orchestrator returned invalid effective capabilities") ;?
  validate_server_timing (rr_protocol_version registration)
    (rr_heartbeat_interval_ms registration) (rr_lease_ttl_ms registration)
    (rr_server_time_ms registration) request_started_ms request_finished_ms.

(** ** The worker stops first *)
Section StopsFirst.
(** The server's clock at each instant of the worker's: it does not go back and
    does not run faster than the worker's. *)
Context (server : Z -> Z).
Context (server_rate : forall t t', t <= t' -> server t <= server t' <= server t + (t' - t)).
Context (clock : ServerClock).

(** The registration's answer carries the server's time after the request was
    dispatched. *)
Definition anchored : Prop :=
  exists p, sc_started clock <= p /\ sc_server_time_ms clock = server p.
Context (clock_anchored : anchored).

(** While the lease lives, the server's clock is below the promise. *)
Definition covered (l : Lease) (promised : Z) : Prop :=
  forall t, t < ls_deadline l -> server t < promised.

Lemma before_dispatch t sent d :
  t < sent + d -> 0 < d -> server t < server sent + d.
Proof.
  intros Ht Hd. destruct (Z.le_ge_cases sent t) as [Hle|Hge].
  - pose proof (server_rate sent t Hle). lia.
  - pose proof (server_rate t sent Hge). lia.
Qed.

Lemma new_covered sent processed ttl :
  sent <= processed -> 0 < ttl -> covered (Lease_new sent ttl clock) (server processed + ttl).
Proof.
  intros Hp Httl t Ht. simpl in Ht. pose proof (before_dispatch t sent ttl Ht Httl).
  pose proof (server_rate sent processed Hp). lia.
Qed.

Lemma renew_covered now sent expiry l l' :
  ls_clock l = clock -> sc_started clock <= now ->
  renew now sent expiry l = Some l' -> covered l' expiry /\ ls_clock l' = clock.
Proof.
  intros Hc Hnow Hr. unfold renew in Hr. head_case Hr E; [done|]. bool_hyps.
  simplify_eq. simpl. split; [|done]. intros t Ht. simpl in Ht.
  destruct clock_anchored as (p & Hp & Hst). unfold clock_deadline, saturating_sub_i64 in *.
  rewrite Hc in *. pose proof (server_rate _ _ Hp). unfold I64_MIN, I64_MAX in *.
  pose proof (before_dispatch t (sc_started clock) (expiry - sc_server_time_ms clock)). lia.
Qed.

(** Until when the loop's outcome vouches for the lease. *)
Definition vouched (s : HeartbeatState) (e : LoopEnd) : Z :=
  match e with Le_Lost t => t | _ => ls_deadline (hs_lease s) end.

Definition after_registration (b : Beat) : Prop :=
  match bt_reply b with Some (t, _) => sc_started clock <= t | None => True end.

Lemma during_bound l stop done :
  match during l stop done with
  | W_Done t | W_Expired t => t <= ls_deadline l
  | W_Cancelled => True
  end.
Proof. unfold during. repeat case_match; simplify_eq; lia. Qed.
Lemma during_done l stop done t : during l stop done = W_Done t -> done = Some t.
Proof. unfold during. intros. repeat case_match; by simplify_eq. Qed.

Lemma loop_vouches stop beats s s' e :
  Forall after_registration beats -> ls_clock (hs_lease s) = clock ->
  covered (hs_lease s) (hs_promised s) ->
  heartbeat_loop stop beats s = (s', e) ->
  (forall t, t < vouched s' e -> server t < hs_promised s')
  /\ (forall t, e = Le_Lost t -> hs_cancel s' = true /\ hs_lost s' = true).
Proof.
  intros Hb. revert s. induction Hb as [|b beats Hreg Hb IH]; intros s Hc Hcov Hr; simpl in Hr.
  { simplify_eq. by split. }
  assert (Hlost : forall t, t <= ls_deadline (hs_lease s) -> (lose s, Le_Lost t) = (s', e) ->
            (forall t, t < vouched s' e -> server t < hs_promised s')
            /\ (forall t, e = Le_Lost t -> hs_cancel s' = true /\ hs_lost s' = true)).
  { intros t Ht [= <- <-]. split; [|done]. intros u Hu. apply Hcov. simpl in Hu. lia. }
  pose proof (during_bound (hs_lease s) stop (bt_tick b)) as Hd1.
  destruct (during _ _ (bt_tick b)); [|simplify_eq; by split|by eapply Hlost].
  pose proof (during_bound (hs_lease s) stop (fst <$> bt_reply b)) as Hd2.
  destruct (during _ _ (fst <$> _)) as [t| |t] eqn:Ed; [|simplify_eq; by split|by eapply Hlost].
  apply during_done in Ed. unfold after_registration in Hreg.
  destruct (bt_reply b) as [[u [h|err]]|]; simplify_eq/=.
  - destruct (renew _ _ _ _) as [l|] eqn:El; [|by eapply Hlost].
    apply renew_covered in El as [Hcov' Hc']; [|done..]. by apply (IH (confirm l h s)).
  - destruct (is_non_retryable err); [by eapply Hlost | by eapply IH].
Qed.

(** C8: The worker stops first, when the server's clock does not go back and does
    not run faster than the worker's (the clocks may be offset).  An execution
    starts with the lease counted from the dispatch of its acceptance, and the
    heartbeat loop renews, loses or keeps it, whatever answers arrive when.  Until
    the loop flags the loss and cancels the execution (or as long as its lease
    lives), the server's clock stays below the expiry the server last confirmed:
    a sweep of the store at any such instant does not select the attempt, as long
    as its row still holds that expiry or a later one.  (A heartbeat whose answer
    was lost leaves a later one; the emergency disabling of a worker cuts it to
    the present, and the sweep may then come first.) *)
Theorem worker_stops_first sent processed ttl stop beats s' e :
  0 < ttl -> sent <= processed -> Forall after_registration beats ->
  heartbeat_loop stop beats (heartbeat_start sent ttl (server processed + ttl) clock) = (s', e) ->
  (forall t, t < vouched s' e -> server t < hs_promised s')
  /\ (forall t, e = Le_Lost t -> hs_cancel s' = true /\ hs_lost s' = true)
  /\ (forall t env db id a, t < vouched s' e -> tx_now env = server t ->
        attempt_executing (at_status a) = true -> hs_promised s' <= at_lease_expires a ->
        (id, a) ∉ stale_attempts env db).
Proof.
  intros Httl Hsent Hbeats Hl. pose proof (new_covered sent processed ttl Hsent Httl) as Hcov.
  destruct (loop_vouches stop beats (heartbeat_start sent ttl (server processed + ttl) clock)
              s' e Hbeats eq_refl Hcov Hl) as [Hv Hc].
  split_and!; [done..|]. intros t env db id a Ht Hnow Hex Hexp Hin.
  apply elem_of_rows in Hin as [_ Hst]. bool_hyps. specialize (Hv t Ht).
  unfold attempt_deadline in *. case_decide as Ho; [by rewrite Ho in Hex|]. lia.
Qed.
End StopsFirst.

(** A worker whose clock is 1000 ms ahead, a renewal, and an answer that never
    comes. *)
Definition demo_clock : ServerClock := {| sc_started := 0; sc_server_time_ms := -999 |}.
Definition demo_beats : list Beat :=
  [{| bt_tick := Some 110; bt_sent := 110;
      bt_reply := Some (120, Ok {| hr_desired_state := DS_Continue; hr_lease_expires_at_ms := -840;
                                   hr_highest_contiguous_reliable_seq := 0 |}) |};
   {| bt_tick := Some 140; bt_sent := 140; bt_reply := None |}].
Lemma worker_stops_first_witness :
  exists s', heartbeat_loop None demo_beats (heartbeat_start 100 50 (-849) demo_clock)
             = (s', Le_Lost 159)
  /\ (forall t, t < 159 -> t - 1000 < hs_promised s') /\ hs_cancel s' = true.
Proof.
  pose proof (worker_stops_first (fun t => t - 1000) ltac:(intros; cbv beta; lia) demo_clock
    ltac:(exists 1; vm_compute; split; congruence) 100 101 50 None demo_beats) as Hw.
  eexists. split; [vm_compute; reflexivity|].
  edestruct Hw as (Hv & Hc & _); [lia | lia | | vm_compute; reflexivity |].
  - repeat constructor; vm_compute; congruence.
  - split; [exact Hv|]. exact (proj1 (Hc 159 eq_refl)).
Defined.

(** ** Both ends of a registration agree *)
Section Registration.
Context `{DigestEnv} `{ServiceEnv}.

(** A session's contract is a valid selection of the request's offer. *)
Lemma register_session_selects env worker key r ttl db s db' :
  register_session env worker key r ttl db = Ok (s, db') ->
  exists offer, ProtocolOffer_registration (rs_protocol_version r) (rs_protocol_offer r) = Ok offer
  /\ validate_selection offer (au_contract s) = Ok tt.
Proof.
  unfold register_session. intros Hr.
  destruct (validate r); [|done]. simpl in Hr.
  destruct (ProtocolOffer_registration _ _) as [offer|] eqn:Eo; [|done]. simpl in Hr.
  destruct (lock_protocol_policy db) as [floor|]; [|done].
  destruct (negotiate offer floor) as [c|] eqn:En; [|done]. simpl in Hr. exists offer.
  split; [done|]. assert (Hsel : validate_selection offer c = Ok tt) by by eapply negotiate_selects.
  destruct (registered_worker _ _ _) as [w|]; [|done]. simpl in Hr.
  head_case Hr E1; [done|]. head_case Hr E2; [done|].
  assert (Hnew : forall x d, register_new env worker key r c w x (tx_utc env + ttl) db
            = Ok (s, d) -> au_contract s = c).
  { intros x d Hn. unfold register_new in Hn. ok_inv Hn. by simplify_eq. }
  destruct (db_sessions db !! _) as [old|]; [|by rewrite (Hnew _ _ Hr)].
  destruct (_ =? _); [|by rewrite (Hnew _ _ Hr)]. unfold register_existing in Hr.
  head_case Hr E3; [done|]. destruct (validate_selection offer _) as [[]|] eqn:Es; [|done].
  simpl in Hr. ok_inv Hr; by simplify_eq.
Qed.

(** The timing of a valid configuration survives the conversion to
    milliseconds. *)
Lemma config_timing c ttl :
  validate_fleet_config c = Ok tt -> chrono_duration (cf_session_seconds c) = Ok ttl ->
  0 <= cf_heartbeat_seconds c -> 0 <= cf_lease_seconds c ->
  as_millis (cf_heartbeat_seconds c) = cf_heartbeat_seconds c * 1000
  /\ as_millis (cf_lease_seconds c) = cf_lease_seconds c * 1000
  /\ 0 < 3 * cf_heartbeat_seconds c <= cf_lease_seconds c.
Proof.
  unfold validate_fleet_config, chrono_duration, saturating_mul_u64, as_millis. intros Hv Ht Hh Hl.
  head_case Hv E1; [done|]. bool_hyps. head_case Ht E2; [done|].
  change U64_MAX with 18446744073709551615 in *. change (I64_MAX / 1000) with 9223372036854775 in *.
  rewrite Z.ltb_ge, ?Z.eqb_neq in *.
  assert (0 < 3 * cf_heartbeat_seconds c <= cf_lease_seconds c
          /\ cf_lease_seconds c * 2 <= cf_session_seconds c) by lia.
  rewrite !Z.mod_small by lia. lia.
Qed.

(** Both ends of a registration agree.  When the daemon, under a valid
    configuration, answers a registration, the worker's check of the answer
    succeeds with the contract of the stored session, whatever path (new session
    or recovery) produced it, as long as the clocks differ by at most thirty
    seconds; and the lease it announces spans at least three heartbeats. *)
Theorem registration_agrees state peer r now w resp w' started finished :
  register state peer r now w = (Ok resp, w') ->
  validate_fleet_config (st_config state) = Ok tt ->
  0 <= cf_heartbeat_seconds (st_config state) -> 0 <= cf_lease_seconds (st_config state) ->
  0 < now -> started <= finished ->
  Z.abs (started + (finished - started) / 2 - now) <= MAX_CLOCK_SKEW_MS ->
  exists offer contract,
    ProtocolOffer_registration (rs_protocol_version r) (rs_protocol_offer r) = Ok offer
    /\ ProtocolOffer_response offer (rg_protocol_version resp) (rg_protocol_contract resp)
       = Ok contract
    /\ validate_registration r resp started finished
       = Ok (Z.abs (started + (finished - started) / 2 - now))
    /\ 3 * rg_heartbeat_interval_ms resp <= rg_lease_ttl_ms resp.
Proof.
  intros Hr Hv Hh Hl Hnow Hse Hskew. unfold register in Hr. do 5 svc_inv Hr.
  apply lift_Ok in Hr as [Hresp _]. apply lift_Ok in Hc2 as [Httl _].
  apply store_Ok in Hc3 as (others & env & Hs).
  apply register_session_selects in Hs as (offer & Ho & Hsel).
  destruct (config_timing _ _ Hv Httl Hh Hl) as (T1 & T2 & T3).
  assert (Hresponse : ProtocolOffer_response offer (rg_protocol_version resp)
            (rg_protocol_contract resp) = Ok (au_contract a3)).
  { injection Hresp as <-. simpl.
    rewrite <- (selection_accepted _ _ _ _ Ho Hsel). by destruct (rs_protocol_offer r). }
  exists offer, (au_contract a3). split_and!; try done.
  - unfold validate_registration. rewrite Ho. simpl. rewrite Hresponse. simpl.
    injection Hresp as <-. simpl. rewrite T1, T2.
    apply validate_selection_Ok_iff in Hsel as (_ & _ & Hrev & _).
    unfold validate_server_timing, ensure, PREVIOUS_PROTOCOL_REVISION, NEGOTIATED_PROTOCOL_REVISION.
    unfold MAX_CLOCK_SKEW_MS, U64_MAX in *.
    repeat match goal with |- context [if ?b then _ else _] =>
      replace b with true by (symmetry; rewrite ?andb_true_iff, ?Z.leb_le, ?Z.ltb_lt; lia) end.
    f_equal. lia.
  - injection Hresp as <-. simpl. rewrite T1, T2. lia.
Qed.
End Registration.

Definition demo_register :=
  @register demo_digest demo_state demo_key demo_registration 1700000000000
    {| w_db := demo_queued; w_calls := repeat (Call_Runs [] (at_time 10)) 2; w_polls := ∅ |}.
Lemma demo_register_succeeds : is_ok demo_register.1 = true.
Proof. vm_compute. reflexivity. Qed.
Lemma registration_agrees_witness :
  exists resp w', demo_register = (Ok resp, w')
  /\ validate_registration demo_registration resp 1699999999000 1700000000500 = Ok 250.
Proof.
  pose proof demo_register_succeeds as Hs. destruct demo_register as [x w'] eqn:Hr. simpl in Hs.
  destruct x as [resp|]; [|discriminate Hs]. exists resp, w'. split; [reflexivity|].
  pose proof (@registration_agrees demo_digest demo_state demo_key demo_registration
    1700000000000 _ resp w' 1699999999000 1700000000500 Hr) as Ha.
  destruct Ha as (offer & contract & _ & _ & Hv & _);
    [vm_compute; (reflexivity || congruence) ..|]. exact Hv.
Defined.
