(* ===== verification/WorkerRun.v ===== *)
(** * From an offer to an execution

    The worker's main loop (crates/sbgh-worker/src/fleet.rs) between a poll that
    returns an offer and the request to the local driver: the facts it registers,
    its admission of the offer, its checks of the assignment, the translation into
    the driver's terms (crates/sbgh-driver/src/execution.rs).  The theorem composes
    it with the daemon: an assignment always matches the offer it was made for. *)
From stdpp Require Import base list strings gmap.
From Stdlib Require Import ZArith Lia.
From S2P Require Import Prelude RustStr Json FleetModel Negotiation Validate FleetDb FleetSessions FleetScheduling.
From S2P Require Import FleetEvents FleetAdmin FleetRefine FleetSystem FleetService FleetDemo ServiceSafety FleetLedger FleetPayloads.
From S2P Require Import WorkerDelivery ServiceEffects WorkerLease.

Local Open Scope Z_scope.
Open Scope svc_scope.

(** ** Configuration (config.rs), as far as the loop reads it *)
Record BenchmarkConfig := {
  bc_build_vcpus : Z;
  bc_bench_vcpus : Z;
  bc_build_memory_bytes : Z;
  bc_bench_memory_bytes : Z;
  bc_job_timeout_secs : Z;
  bc_cpu_set : rstr
}.
Record BlockValidationProfile := {
  bvp_vcpus : Z;
  bvp_memory_bytes : Z;
  bvp_cpu_set : option rstr
}.
Record WorkerConfig := {
  wf_benchmark : option BenchmarkConfig;
  wf_block_validation : option BlockValidationProfile
}.

Definition advertised_capabilities (c : WorkerConfig) : gset WorkerCapability :=
  (match wf_benchmark c with Some _ => {[Cap_Benchmark; Cap_BuildOnly]} | None => ∅ end)
  ∪ (match wf_block_validation c with Some _ => {[Cap_BlockValidation]} | None => ∅ end).

(** ** Registration *)
Definition registration_check_request (version : rstr) (c : WorkerConfig)
    (resources : ResourceFacts) : RegistrationCheckRequest :=
  {| rc_protocol_version := NEGOTIATED_PROTOCOL_REVISION;
     rc_protocol_offer := Some ProtocolOffer_current; rc_software_version := version;
     rc_advertised_capabilities := advertised_capabilities c; rc_resources := resources |}.
Definition registration_request (version : rstr) (c : WorkerConfig) (resources : ResourceFacts)
    (session : Uuid) (preflight : PreflightReport) : RegisterSessionRequest :=
  let facts := registration_check_request version c resources in
  {| rs_preflight := Some preflight; rs_protocol_version := rc_protocol_version facts;
     rs_protocol_offer := rc_protocol_offer facts; rs_worker_session_id := session;
     rs_software_version := rc_software_version facts;
     rs_advertised_capabilities := rc_advertised_capabilities facts;
     rs_resources := rc_resources facts |}.

(** ** Offers *)

(** [admit_offer]; [healthy] is the verdict of the block-validation preflight. *)
Definition admit_offer (c : WorkerConfig) (healthy : bool) (o : WorkOffer)
  : result unit WorkerError :=
  let mismatch := We_Ensure "offer capability/requirements mismatch" in
  ensure (bool_decide (wo_capability o ∈ advertised_capabilities c))
    (We_Ensure "orchestrator offered an unadvertised capability") ;?
  match wo_requirements o with
  | Req_Benchmark => ensure (bool_decide (wo_capability o = Cap_Benchmark)) mismatch
  | Req_BuildOnly => ensure (bool_decide (wo_capability o = Cap_BuildOnly)) mismatch
  | Req_BlockValidation =>
      ensure (bool_decide (wo_capability o = Cap_BlockValidation)) mismatch ;?
      ok_or (wf_block_validation c)
        (We_Ensure "block-validation offer has no local sandbox profile") ;?
      ensure healthy (We_Ensure "block-validation preflight")
  end.

Section Checks.
Context `{DigestEnv}.

(** [run]: the check of an offer, and of the assignment its acceptance returns. *)
Definition check_offer (contract : ProtocolContract) (o : WorkOffer) : result unit WorkerError :=
  ensure (bool_decide (for_capability (wo_capability o) ∈ pc_features contract))
    (We_Ensure "work offer requires unnegotiated task semantics").
Definition check_assignment (contract : ProtocolContract) (o : WorkOffer) (a : Assignment)
  : result unit WorkerError :=
  map_err (fun _ => We_Ensure "assignment") (validate a) ;?
  ensure (supports_payload contract (as_payload a))
    (We_Ensure "assignment requires unnegotiated task semantics") ;?
  ensure (rstr_eqb (as_payload_hash a) (wo_payload_hash o)
          && (as_trace_id a =? wo_trace_id o)
          && bool_decide (OfferRequirements_from (as_payload a) = wo_requirements o))
    (We_Ensure "accepted assignment does not match its offer").
End Checks.

(** ** The driver's request (sbgh-driver/src/execution.rs) *)
Record BenchmarkTask := {
  bt_args : list rstr;
  bt_sqlite_seed_key : option rstr;
  bt_shared_baseline_calibration : bool;
  bt_baseline_calibration_id : option Z;
  bt_run_index : Z;
  bt_requested_run_count : Z
}.
Inductive ExecutionTask :=
| Exec_Benchmark (t : BenchmarkTask)
| Exec_BuildOnly
| Exec_BlockValidation (selection : BlockValidationSelection) (timeout_secs : Z)
| Exec_Unsupported (combination : rstr).
Record ExecutionRequest := {
  ex_job_id : Uuid;
  ex_attempt_id : Uuid;
  ex_fencing_generation : Z;
  ex_repository : rstr;
  ex_commit : rstr;
  ex_repository_credential : option rstr;
  ex_task : ExecutionTask;
  ex_vcpu_cpuset : option rstr
}.

Definition local_vcpu_cpuset (c : WorkerConfig) (payload : TaskPayload)
    (orchestrator_cpuset : option rstr) : result (option rstr) WorkerError :=
  ensure (match orchestrator_cpuset with None => true | Some _ => false end)
    (We_Ensure "orchestrator-supplied CPU placement is forbidden; VM placement is worker-owned") ;?
  match payload with
  | Task_Benchmark _ | Task_BuildOnly =>
      let? b := ok_or (wf_benchmark c)
                  (We_Ensure "benchmark assignment has no local worker profile") in
      Ok (Some (bc_cpu_set b))
  | Task_BlockValidation _ =>
      let? p := ok_or (wf_block_validation c)
                  (We_Ensure "block-validation assignment has no local worker profile") in
      Ok (bvp_cpu_set p)
  end.

Definition execution_request (c : WorkerConfig) (a : Assignment) (repository_token : rstr)
  : result ExecutionRequest WorkerError :=
  let? cpuset := local_vcpu_cpuset c (as_payload a) (as_vcpu_cpuset a) in
  let task :=
    match as_payload a with
    | Task_Benchmark p =>
        Exec_Benchmark {| bt_args := bp_effective_args p;
          bt_sqlite_seed_key := bp_sqlite_seed_key p;
          bt_shared_baseline_calibration := bp_shared_baseline_calibration p;
          bt_baseline_calibration_id := bp_baseline_calibration_id p;
          bt_run_index := bp_run_index p; bt_requested_run_count := bp_requested_run_count p |}
    | Task_BuildOnly => Exec_BuildOnly
    | Task_BlockValidation p => Exec_BlockValidation (bv_selection p) (bv_timeout_secs p)
    end in
  Ok {| ex_job_id := ac_job_id (as_context a); ex_attempt_id := ai_attempt_id (as_identity a);
        ex_fencing_generation := ai_fencing_generation (as_identity a);
        ex_repository := ac_repository (as_context a); ex_commit := ac_commit (as_context a);
        ex_repository_credential := Some repository_token; ex_task := task;
        ex_vcpu_cpuset := cpuset |}.

(** ** What a poll offers *)
Section Offered.
Context `{DigestEnv}.

(** The rows an offer was read from. *)
Definition offer_rows (contract : ProtocolContract) (o : OfferedAssignment) (db : FleetDb) : Prop :=
  let offer := oa_offer o in
  exists a j hash, db_attempts db !! ai_attempt_id (wo_identity offer) = Some a
  /\ db_jobs db !! ar_job (at_row a) = Some j
  /\ jb_payload j = Some (oa_payload o, hash) /\ jb_commit j = Some (oa_commit o)
  /\ wo_job_id offer = ar_job (at_row a) /\ wo_trace_id offer = ar_trace (at_row a)
  /\ wo_payload_hash offer = ar_payload_hash (at_row a)
  /\ wo_capability offer = ar_capability (at_row a)
  /\ wo_requirements offer = OfferRequirements_from (oa_payload o)
  /\ oa_repository o = jr_repository (jb_row j)
  /\ supports_payload contract (oa_payload o) = true.

Lemma offer_of_attempt_rows contract id a db o :
  db_attempts db !! id = Some a -> offer_of_attempt id a db = Ok o ->
  supports_payload contract (oa_payload o) = true -> offer_rows contract o db.
Proof.
  intros Ha Ho Hs. unfold offer_of_attempt in Ho.
  destruct (db_jobs db !! _) as [j|] eqn:Ej; [|done]. destruct (db_submissions db !! _); [|done].
  destruct (jb_payload j) as [[p h]|] eqn:Ep; [|done]. destruct (jb_commit j) eqn:Ec; [|done].
  simplify_eq. exists a, j, h. by split_and!.
Qed.

Lemma poll_offer_rows env ids worker session ot lt db o db1 :
  poll_offer env ids worker session ot lt db = Ok (Some o, db1) ->
  exists s w, authorized_rows worker session db = Some (s, w)
  /\ offer_rows (sr_contract (ws_row s)) o db1.
Proof.
  unfold poll_offer. intros Hp. destruct (lock_protocol_policy db) as [floor|]; [|done].
  destruct (authorized_rows worker session db) as [[s w]|] eqn:Ea; [|done]. exists s, w.
  split; [done|]. cbn zeta in Hp. head_case Hp E1; [done|].
  destruct (map_err _ _) as [u|]; [|done]. head_case Hp E2; [done|]. head_case Hp E3; [done|].
  head_case Hp E4; [done|]. destruct (existing_offer _ _ _ _) as [[id a]|] eqn:Ee.
  - apply first_by_elem, elem_of_rows in Ee as [Hat _]. head_case Hp E5; [done|].
    destruct (offer_of_attempt id a db) as [off|] eqn:Eo; [|done].
    destruct (supports_payload _ _) eqn:E6; simplify_eq.
    exact (offer_of_attempt_rows _ id a db o Hat Eo E6).
  - destruct (next_job _ _ _ _ _) as [[job j]|] eqn:Ej; [|done].
    destruct (jb_payload j) as [[p h]|] eqn:Ep; [|done]. destruct (jb_commit j) eqn:Ec; [|done].
    head_case Hp E5; [done|]. unfold make_offer in Hp. head_case Hp Es; [|done].
    head_case Hp Ei; [|done]. apply insert_attempt_Ok in Ei as [-> _]. simplify_eq.
    apply negb_false_iff in E5. unfold offer_rows. simpl. eexists _, _, h.
    rewrite lookup_insert_eq. split; [reflexivity|]. simpl. rewrite lookup_insert_eq.
    by split_and!.
Qed.
(** The rows keep telling the same. *)
Lemma offer_rows_later contract o db1 db2 a o2 :
  offer_rows contract o db1 -> keeps db1 db2 -> jsim db1 db2 ->
  db_attempts db2 !! ai_attempt_id (wo_identity (oa_offer o)) = Some a ->
  offer_of_attempt (ai_attempt_id (wo_identity (oa_offer o))) a db2 = Ok o2 ->
  oa_payload o2 = oa_payload o /\ oa_commit o2 = oa_commit o
  /\ oa_repository o2 = oa_repository o /\ oa_vcpu_cpuset o2 = None
  /\ wo_job_id (oa_offer o2) = wo_job_id (oa_offer o)
  /\ wo_trace_id (oa_offer o2) = wo_trace_id (oa_offer o)
  /\ wo_payload_hash (oa_offer o2) = wo_payload_hash (oa_offer o).
Proof.
  intros (a1 & j & hash & R1 & R2 & R3 & R4 & R5 & R6 & R7 & _ & _ & R10 & _) Hk Hj Ha Ho.
  destruct (kp_attempts _ _ Hk _ _ R1) as (x & Hx & Hrow & _). simplify_eq.
  destruct (Hj _ _ R2) as (j' & Hj' & [Sr Sp Sc]). unfold offer_of_attempt in Ho.
  rewrite Hrow, Hj', (Sp _ R3), (Sc _ _ R3 R4) in Ho. destruct (db_submissions db2 !! _); [|done].
  simplify_eq/=. split_and!; congruence.
Qed.
End Offered.

(** ** The worker's side *)

(** A worker with the profile admits the offer and can build the request. *)
Lemma matching_offer_admitted c contract offer p :
  wo_requirements offer = OfferRequirements_from p -> supports_payload contract p = true ->
  wo_capability offer = TaskPayload_capability p -> wo_capability offer ∈ advertised_capabilities c ->
  check_offer contract offer = Ok tt /\ admit_offer c true offer = Ok tt.
Proof.
  intros Hr Hs Hc Ha. unfold check_offer, admit_offer. rewrite Hr, (bool_decide_eq_true_2 _ Ha).
  unfold supports_payload in Hs. bool_hyps. split.
  - rewrite bool_decide_eq_true_2; [done|]. rewrite Hc. by destruct p.
  - rewrite Hc in Ha |- *. unfold advertised_capabilities in Ha. destruct p; simpl in *; try done.
    destruct (wf_block_validation c); [done|]. destruct (wf_benchmark c); set_solver.
Qed.

Lemma local_vcpu_cpuset_Ok c p :
  TaskPayload_capability p ∈ advertised_capabilities c ->
  exists cpuset, local_vcpu_cpuset c p None = Ok cpuset.
Proof.
  unfold advertised_capabilities, local_vcpu_cpuset. intros Ha.
  destruct p; simpl in *; destruct (wf_benchmark c), (wf_block_validation c); eauto; set_solver.
Qed.

(** ** An assignment matches its offer *)
Section Assigned.
Context `{DigestEnv} `{ServiceEnv}.
Context (state : ServiceState) (peer : rstr).

(** An answered acceptance read the assignment from the attempt's rows. *)
Lemma accept_reads i w resp w' :
  accept state peer {| ao_identity := i |} w = (Ok resp, w') ->
  exists ops a o, db_attempts (run ops (w_db w)) !! ai_attempt_id i = Some a
  /\ offer_of_attempt (ai_attempt_id i) a (run ops (w_db w)) = Ok o
  /\ validate (aor_assignment resp) = Ok tt
  /\ aor_assignment resp = {| as_identity := i; as_trace_id := wo_trace_id (oa_offer o);
       as_context := {| ac_job_id := wo_job_id (oa_offer o);
                        ac_repository := oa_repository o; ac_commit := oa_commit o |};
       as_payload := oa_payload o; as_payload_hash := wo_payload_hash (oa_offer o);
       as_vcpu_cpuset := oa_vcpu_cpuset o |}.
Proof.
  unfold accept. intros Hr. svc_inv Hr. svc_inv Hr. svc_inv Hr. svc_inv Hr.
  assert (Hm : exists ops, w_db w2 = run ops (w_db w)).
  { apply (obeys_moves (fun _ => True)) in Hc as [o1 E1]; [|unfold authorize_peer; svc_obeys].
    apply (obeys_moves (fun _ => True)) in Hc0 as [o2 E2]; [|svc_obeys].
    apply (obeys_moves (fun _ => True)) in Hc1 as [o3 E3]; [|unfold authorize_attempt; svc_obeys].
    exists (o1 ++ o2 ++ o3). by rewrite !run_app, <- E1, <- E2, <- E3. }
  destruct Hm as [ops Hops]. unfold query_result in Hc2.
  apply store_Ok in Hc2 as (others & env & Hq). rewrite Hops, <- run_app in Hq.
  destruct (offered_assignment _ _ _ _) as [[o|]|] eqn:Eo; [|done..]. simplify_eq/=.
  do 4 svc_inv Hr. apply lift_Ok in Hr as [[= <-] _]. unfold offered_assignment in Eo.
  destruct (find_attempt _ _ _) as [at_|] eqn:Ef; [|done].
  apply find_attempt_Some in Ef as (Hat & _). head_case Eo E1; [|done].
  destruct (offer_of_attempt _ _ _) as [o'|] eqn:Eo'; [|done]. simplify_eq/=.
  unfold svc_validate in Hc4. apply lift_Ok in Hc4 as [Hv _].
  eexists _, _, _. split_and!; [exact Hat|exact Eo'| |done]. simpl.
  by destruct (validate _) as [[]|].
Qed.

(** An assignment matches its offer.  A poll offered work to a session; the
    worker accepts it, after any transactions in between, and the daemon answers.
    Then the assignment names the offered job, commit, repository and payload, and
    passes the worker's checks under the session's contract.  If the offer's
    capability is the payload's, the worker advertises it (and its preflight is
    healthy), the worker admits the offer before it accepts, and the request to
    the driver is built from the same job, attempt, fence and payload. *)
Theorem assigned_as_offered env ids worker session ot lt db o db1 ops w resp w' :
  poll_offer env ids worker session ot lt db = Ok (Some o, db1) ->
  w_db w = run ops db1 ->
  let offer := signed_offer state worker (oa_offer o) in
  accept state peer {| ao_identity := wo_identity offer |} w = (Ok resp, w') ->
  let a := aor_assignment resp in
  exists s wk, authorized_rows worker session db = Some (s, wk)
  /\ as_identity a = wo_identity offer
  /\ as_context a = {| ac_job_id := wo_job_id offer; ac_repository := oa_repository o;
                       ac_commit := oa_commit o |}
  /\ as_payload a = oa_payload o
  /\ check_assignment (sr_contract (ws_row s)) offer a = Ok tt
  /\ forall c token, wo_capability offer = TaskPayload_capability (oa_payload o) ->
     wo_capability offer ∈ advertised_capabilities c ->
     check_offer (sr_contract (ws_row s)) offer = Ok tt /\ admit_offer c true offer = Ok tt
     /\ exists req, execution_request c a token = Ok req /\ ex_job_id req = wo_job_id offer
        /\ ex_attempt_id req = ai_attempt_id (wo_identity offer)
        /\ ex_fencing_generation req = ai_fencing_generation (wo_identity offer)
        /\ ex_commit req = oa_commit o
        /\ (forall p, oa_payload o = Task_Benchmark p ->
              exists t, ex_task req = Exec_Benchmark t /\ bt_args t = bp_effective_args p)
        /\ (forall p, oa_payload o = Task_BlockValidation p ->
              ex_task req = Exec_BlockValidation (bv_selection p) (bv_timeout_secs p)).
Proof.
  intros Hp Hdb offer Ha a. apply poll_offer_rows in Hp as (s & wk & Hs & Hrows).
  exists s, wk. split; [done|]. apply accept_reads in Ha as (ops' & at' & o' & Hat & Ho & Hv & Heq).
  rewrite Hdb, <- run_app in *.
  destruct (offer_rows_later _ _ _ _ _ _ Hrows (run_keeps _ _) (jsim_run _ _) Hat Ho)
    as (Ep & Ec & Er & Ev & Ej & Et & Eh).
  destruct Hrows as (_ & _ & _ & _ & _ & _ & _ & _ & _ & _ & _ & Hreq & _ & Hsup).
  rewrite Ep, Ec, Er, Ev, Ej, Et, Eh in Heq. fold a in Heq, Hv. clearbody a. subst a.
  split_and!; try done.
  - unfold check_assignment. rewrite Hv. simpl. rewrite Hsup. simpl.
    rewrite bool_decide_eq_true_2 by done. rewrite Z.eqb_refl, andb_true_r.
    unfold ensure, rstr_eqb. by rewrite bool_decide_eq_true_2.
  - intros c token Hcap Hadv.
    destruct (matching_offer_admitted c _ offer _ Hreq Hsup Hcap Hadv) as [H1 H2].
    rewrite Hcap in Hadv. apply local_vcpu_cpuset_Ok in Hadv as [cpuset Hl]. split_and!; [done..|].
    unfold execution_request. simpl. rewrite Hl. simpl. eexists. split; [done|]. simpl.
    split_and!; try done; intros p Hpay; rewrite Hpay; eauto.
Qed.
End Assigned.

(** ** Witness *)
Definition demo_worker_config : WorkerConfig :=
  {| wf_benchmark := Some {| bc_build_vcpus := 2; bc_bench_vcpus := 2;
       bc_build_memory_bytes := 1024; bc_bench_memory_bytes := 1024; bc_job_timeout_secs := 60;
       bc_cpu_set := lit "0-1" |};
     wf_block_validation := None |}.
Definition demo_polled :=
  poll_offer (at_time 10) (demo_ids 50) demo_worker demo_session 100 1000 demo_queued.
(** The worker accepts after another submission arrived. *)
Definition demo_between : list FleetOp := [Op_Submit 300 demo_submission].
Definition demo_accept_world (db : FleetDb) : World :=
  {| w_db := @run demo_digest demo_between db; w_calls := repeat (Call_Runs [] (at_time 20)) 4;
     w_polls := ∅ |}.
Definition demo_assigned (o : OfferedAssignment) (db : FleetDb) :=
  @accept demo_digest demo_service demo_state demo_key
    {| ao_identity := wo_identity (@signed_offer demo_service demo_state demo_worker (oa_offer o)) |}
    (demo_accept_world db).
(** Whether the offer is admissible, and the commit of the request made of it. *)
Definition demo_offered_commit : option (bool * rstr) :=
  match demo_polled with
  | Ok (Some o, db) =>
      match (demo_assigned o db).1 with
      | Ok _ => Some (bool_decide (wo_capability (oa_offer o) = TaskPayload_capability (oa_payload o)
                                   /\ wo_capability (oa_offer o) ∈ advertised_capabilities demo_worker_config),
                      oa_commit o)
      | Err _ => None
      end
  | _ => None
  end.
Lemma demo_offer_assigned : demo_offered_commit = Some (true, (repeat 97 40)).
Proof. vm_compute. reflexivity. Qed.

Lemma assigned_as_offered_witness :
  exists o db resp w', demo_polled = Ok (Some o, db) /\ demo_assigned o db = (Ok resp, w')
  /\ exists req, execution_request demo_worker_config (aor_assignment resp) [] = Ok req
     /\ ex_commit req = (repeat 97 40).
Proof.
  pose proof demo_offer_assigned as Hd. unfold demo_offered_commit in Hd.
  destruct demo_polled as [[[o|] db]|] eqn:Hp; [|discriminate Hd..].
  destruct (demo_assigned o db) as [x w'] eqn:Ha. simpl in Hd.
  destruct x as [resp|]; [|discriminate Hd]. exists o, db, resp, w'. split; [reflexivity|]. split; [exact Ha|].
  injection Hd as Hb Hcommit. apply bool_decide_eq_true in Hb as [Hcap Hadv].
  destruct (@assigned_as_offered demo_digest demo_service demo_state demo_key _ _ _ _ _ _ _ o db
    demo_between (demo_accept_world db) resp w' Hp eq_refl Ha) as (s & wk & _ & _ & _ & _ & _ & Hreq).
  destruct (Hreq demo_worker_config [] Hcap Hadv) as (_ & _ & req & Hr & _ & _ & _ & Hc & _).
  exists req. split; [exact Hr | rewrite Hc; exact Hcommit].
Defined.
