(* ===== verification/WireService.v ===== *)
(** * Calls over the wire

    The gRPC service of the daemon (fleet/grpc.rs) and the worker's client
    (transport.rs) around the handlers: a request is converted to its message,
    converted back by the daemon, handled, and the answer takes the same way.
    The theorems show that the passage is transparent, so that the worker's side
    may be modelled on the handlers themselves, and that whatever message arrives,
    a handler only sees values of the protocol's types. *)
From stdpp Require Import base list strings gmap.
From Stdlib Require Import ZArith Lia.
From S2P Require Import Prelude RustStr Json FleetModel Negotiation Validate FleetDb FleetSessions FleetSystem FleetService FleetDemo ServiceSafety WorkerDelivery ServiceEffects WorkerLease Wire.

Local Open Scope Z_scope.
Open Scope svc_scope.

(** ** The service's messages, with the environment's part of each request *)
Inductive WireRequest :=
| Wq_CheckRegistration (r : CheckRegistrationRequest) (now : Z)
| Wq_Register (r : RegisterRequest) (now : Z)
| Wq_Poll (r : WireSessionRequest) (started : Z) (ticks : list PollTick)
| Wq_Accept (r : WireIdentityRequest)
| Wq_Credential (r : WireIdentityRequest)
| Wq_Heartbeat (r : WireHeartbeatRequest)
| Wq_Event (r : PublishReliableEventRequest)
| Wq_Progress (r : PublishProgressRequest)
| Wq_Grant (r : GrantArtifactRequest) (now : Z)
| Wq_Complete (r : WireCompleteAttemptRequest)
| Wq_Cleanup (r : WireSessionRequest)
| Wq_CleanupComplete (r : CompleteCleanupRequest)
| Wq_Deregister (r : WireSessionRequest).
Inductive WireResponse :=
| Ws_CheckRegistration (r : CheckRegistrationResponse)
| Ws_Register (r : RegisterResponse)
| Ws_Poll (r : option (option WirePollResult))
| Ws_Accept (r : AcceptResponse)
| Ws_Credential (r : FetchRepositoryCredentialResponse)
| Ws_Heartbeat (r : WireHeartbeatResponse)
| Ws_Event (r : PublishReliableEventResponse)
| Ws_Progress (r : WireBool)
| Ws_Grant (r : GrantArtifactResponse)
| Ws_Complete (r : WireBool)
| Ws_Cleanup (items : list WireCleanupItem)
| Ws_CleanupComplete (r : WireBool)
| Ws_Deregister (r : WireBool).

Section Messages.
Context `{WireEnv}.

Definition encode_request (q : Request) : WireRequest :=
  match q with
  | Rq_CheckRegistration r now => Wq_CheckRegistration (from_domain r) now
  | Rq_Register r now => Wq_Register (from_domain r) now
  | Rq_Poll r started ticks => Wq_Poll (from_domain r) started ticks
  | Rq_Accept r => Wq_Accept (from_domain r)
  | Rq_Credential r => Wq_Credential (from_domain r)
  | Rq_Heartbeat r => Wq_Heartbeat (from_domain r)
  | Rq_Event r => Wq_Event (from_domain r)
  | Rq_Progress r => Wq_Progress (from_domain r)
  | Rq_Grant r now => Wq_Grant (from_domain r) now
  | Rq_Complete r => Wq_Complete (from_domain r)
  | Rq_Cleanup r => Wq_Cleanup (from_domain r)
  | Rq_CleanupComplete r => Wq_CleanupComplete (from_domain r)
  | Rq_Deregister r => Wq_Deregister (from_domain r)
  end.
Definition decode_request (q : WireRequest) : result Request ProtocolError :=
  match q with
  | Wq_CheckRegistration r now => let? d := into_domain r in Ok (Rq_CheckRegistration d now)
  | Wq_Register r now => let? d := into_domain r in Ok (Rq_Register d now)
  | Wq_Poll r started ticks => let? d := into_domain r in Ok (Rq_Poll d started ticks)
  | Wq_Accept r => let? d := into_domain r in Ok (Rq_Accept d)
  | Wq_Credential r => let? d := into_domain r in Ok (Rq_Credential d)
  | Wq_Heartbeat r => let? d := into_domain r in Ok (Rq_Heartbeat d)
  | Wq_Event r => let? d := into_domain r in Ok (Rq_Event d)
  | Wq_Progress r => let? d := into_domain r in Ok (Rq_Progress d)
  | Wq_Grant r now => let? d := into_domain r in Ok (Rq_Grant d now)
  | Wq_Complete r => let? d := into_domain r in Ok (Rq_Complete d)
  | Wq_Cleanup r => let? d := into_domain r in Ok (Rq_Cleanup d)
  | Wq_CleanupComplete r => let? d := into_domain r in Ok (Rq_CleanupComplete d)
  | Wq_Deregister r => let? d := into_domain r in Ok (Rq_Deregister d)
  end.
Definition encode_response (a : Response) : WireResponse :=
  match a with
  | Rs_CheckRegistration r => Ws_CheckRegistration (from_domain r)
  | Rs_Register r => Ws_Register (from_domain r)
  | Rs_Poll r => Ws_Poll (from_domain <$> r)
  | Rs_Accept r => Ws_Accept (from_domain r)
  | Rs_Credential r => Ws_Credential (from_domain r)
  | Rs_Heartbeat r => Ws_Heartbeat (from_domain r)
  | Rs_Event r => Ws_Event (from_domain r)
  | Rs_Progress b => Ws_Progress (from_domain b)
  | Rs_Grant r => Ws_Grant (from_domain r)
  | Rs_Complete r => Ws_Complete (from_domain r)
  | Rs_Cleanup items => Ws_Cleanup (from_domain items)
  | Rs_CleanupComplete b => Ws_CleanupComplete (from_domain b)
  | Rs_Deregister b => Ws_Deregister (from_domain b)
  end.
Definition decode_response (a : WireResponse) : result Response ProtocolError :=
  match a with
  | Ws_CheckRegistration r => let? d := into_domain r in Ok (Rs_CheckRegistration d)
  | Ws_Register r => let? d := into_domain r in Ok (Rs_Register d)
  | Ws_Poll r => let? d := transpose into_domain r in Ok (Rs_Poll d)
  | Ws_Accept r => let? d := into_domain r in Ok (Rs_Accept d)
  | Ws_Credential r => let? d := into_domain r in Ok (Rs_Credential d)
  | Ws_Heartbeat r => let? d := into_domain r in Ok (Rs_Heartbeat d)
  | Ws_Event r => let? d := into_domain r in Ok (Rs_Event d)
  | Ws_Progress r => let? d := into_domain r in Ok (Rs_Progress d)
  | Ws_Grant r => let? d := into_domain r in Ok (Rs_Grant d)
  | Ws_Complete r => let? d := into_domain r in Ok (Rs_Complete d)
  | Ws_Cleanup items => let? d := into_domain items in Ok (Rs_Cleanup d)
  | Ws_CleanupComplete r => let? d := into_domain r in Ok (Rs_CleanupComplete d)
  | Ws_Deregister r => let? d := into_domain r in Ok (Rs_Deregister d)
  end.
End Messages.

Section Rpc.
Context `{DigestEnv} `{ServiceEnv} `{ArtifactStore} `{WireEnv}.
Context (state : ServiceState) (peer : rstr).

(** grpc.rs: [wire], the handler, and [from_domain] of its answer. *)
Definition grpc_handle (q : WireRequest) : Svc ServiceError WireResponse :=
  let! r := lift (map_err (fun _ => protocol_error) (decode_request q)) in
  svc_fmap encode_response (handle state peer r).

(** transport.rs: one call of the client.  An answer that does not decode is an
    error outside the protocol. *)
Definition call (q : Request) (net : Net) (db : FleetDb)
  : result Response CallError * FleetDb :=
  let '(r, db) := serve (grpc_handle (encode_request q)) net db in
  ((let? a := r in map_err (fun _ => Ce_Other) (decode_response a)), db).
End Rpc.

(** ** The types of the protocol *)
Definition option_ok {A} (P : A -> Prop) (o : option A) : Prop := forall x, o = Some x -> P x.

Section Types.
Context `{WireEnv}.

Definition request_typed (q : Request) : Prop :=
  match q with
  | Rq_CheckRegistration r _ =>
      version_ok (rc_protocol_version r) /\ option_ok offer_ok (rc_protocol_offer r)
  | Rq_Register r _ =>
      version_ok (rs_protocol_version r) /\ uuid_ok (rs_worker_session_id r)
      /\ option_ok offer_ok (rs_protocol_offer r) /\ option_ok preflight_ok (rs_preflight r)
  | Rq_Poll r _ _ => uuid_ok (pr_worker_session_id r)
  | Rq_Accept r => identity_ok (ao_identity r)
  | Rq_Credential r => identity_ok (rcr_identity r)
  | Rq_Heartbeat r => identity_ok (hb_identity r)
  | Rq_Event r => identity_ok (ev_identity r) /\ uuid_ok (ev_trace_id r)
  | Rq_Progress r => identity_ok (pq_identity r) /\ uuid_ok (pq_trace_id r)
  | Rq_Grant r _ => identity_ok (ag_identity r)
  | Rq_Complete r => identity_ok (ca_identity r) /\ uuid_ok (ca_trace_id r)
  | Rq_Cleanup r => uuid_ok (cl_worker_session_id r)
  | Rq_CleanupComplete r => uuid_ok (cc_worker_session_id r)
  | Rq_Deregister r => uuid_ok (dr_worker_session_id r)
  end.
(** The JSON text in a completion is read back as it was written. *)
Definition request_json (q : Request) : Prop :=
  match q with Rq_Complete r => outcome_ok (ca_outcome r) | _ => True end.
(** The identifiers in an answer are UUIDs. *)
Definition response_uuids (a : Response) : Prop :=
  match a with
  | Rs_CheckRegistration r => uuid_ok (rr_worker_id r)
  | Rs_Poll (Some (Poll_Offer o)) => work_offer_ok o
  | Rs_Accept r => assignment_ok (aor_assignment r)
  | Rs_Cleanup items =>
      Forall (fun i => uuid_ok (ci_attempt_id i) /\ uuid_ok (ci_job_id i)) items
  | _ => True
  end.
Definition response_contract (a : Response) : Prop :=
  match a with
  | Rs_CheckRegistration r => selected_ok (rr_protocol_version r) (rr_protocol_contract r)
  | Rs_Register r => selected_ok (rg_protocol_version r) (rg_protocol_contract r)
  | _ => True
  end.
End Types.

(** ** Messages are faithful *)
Section Faithful.
Context `{WireLaws}.

Lemma transpose_roundtrip {W D} `{Wire W D} (P : D -> Prop) (o : option D) :
  (forall d, P d -> into_domain (from_domain d) = Ok d) -> option_ok P o ->
  transpose into_domain (from_domain <$> o) = Ok o.
Proof. intros Hf Ho. destruct o as [d|]; [|done]. simpl. by rewrite Hf by (by apply Ho). Qed.

Lemma preflight_roundtrip (r : PreflightReport) :
  preflight_ok r -> into_domain (from_domain r) = Ok r.
Proof. intros Hr. destruct r. unfold preflight_ok in Hr. simpl in *. by rewrite Hr. Qed.

(** Open a message but not the messages in it. *)
Ltac wire_cbn :=
  cbn -[transpose selected attempt_identity identity_wire terminal_domain terminal_wire lit
        capabilities_domain capabilities_wire uuid_domain uuid_string protocol_version_domain
        ProtocolOffer_Wire ProtocolContract_Wire PreflightReport_Wire assignment_domain
        assignment_wire] in *.
(** Rewrite with the round trips of the parts. *)
Ltac wire_parts :=
  repeat first
    [ rewrite uuid_roundtrip by tauto
    | rewrite version_roundtrip by (unfold selected_ok in *; tauto)
    | rewrite attempt_identity_roundtrip by tauto
    | rewrite capabilities_roundtrip
    | rewrite (transpose_roundtrip offer_ok) by first [exact offer_roundtrip | tauto]
    | rewrite (transpose_roundtrip preflight_ok) by first [exact preflight_roundtrip | tauto]
    | rewrite selected_roundtrip by tauto
    | rewrite terminal_roundtrip by tauto ].

Lemma request_roundtrip q :
  request_typed q -> request_json q -> decode_request (encode_request q) = Ok q.
Proof.
  intros Ht Hj. destruct q as [r ?|r ?|r ? ?|r|r|r|r|r|r ?|r|r|r|r];
    wire_cbn; wire_parts; try by destruct r.
  - by destruct r as [? ? ? ? []].
  - by destruct r as [? ? ? ? ? ? []].
  - by destruct r as [? ? ? [] ? ?].
  - by destruct r as [? ? ? []].
  - by destruct r as [? [] ? ? ?].
  - rewrite map_involutive by (by intros []). by destruct r.
Qed.

Lemma response_roundtrip a :
  response_uuids a -> response_contract a -> decode_response (encode_response a) = Ok a.
Proof.
  intros Hu Hc. destruct a as [r|r|r|r|r|r|r|b|r|r|items|b|b];
    wire_cbn; wire_parts; try first [done | by destruct r].
  - destruct r as [[ms| | |o]|]; try done. simpl. by rewrite work_offer_roundtrip.
  - rewrite assignment_roundtrip by done. by destruct r.
  - by destruct r as [[] ? ?].
  - rewrite map_involutive by (by intros []). by destruct r.
  - rewrite (collect_map_Ok _ _ id), map_id; [done|]. intros i Hi.
    rewrite Forall_forall in Hu. destruct (Hu i Hi). unfold cleanup_item. simpl.
    rewrite !uuid_roundtrip by done. by destruct i.
Qed.
End Faithful.

(** ** The daemon's contracts fit the wire *)

(** What an offer selects, this build's offer selects too. *)
Lemma selection_current offer c :
  validate_selection offer c = Ok tt -> validate_selection ProtocolOffer_current c = Ok tt.
Proof.
  rewrite !validate_selection_Ok_iff. intros (_ & _ & Hr & Hf & Hl).
  split; [by vm_compute|]. split; [exact Hr|]. split; [exact Hr|]. split; [|exact Hl].
  intros f Hin. apply Hf in Hin. rewrite elem_of_features_at in Hin |- *.
  destruct (_ =? _); [done|].
  apply elem_of_list_to_set. apply list_elem_of_fmap_2. apply supported_list_complete.
Qed.

Lemma selected_current version extension offer c :
  ProtocolOffer_registration version extension = Ok offer ->
  validate_selection offer c = Ok tt ->
  selected_ok (pc_revision c) ((fun _ => c) <$> extension).
Proof.
  intros Ho Hs. pose proof (proj1 (validate_selection_Ok_iff _ _) Hs) as (_ & Hw & Hr & _).
  assert (Hv : version_ok (pc_revision c)) by (unfold version_ok, U16_MAX; lia).
  split; [done|]. destruct extension as [e|]; simpl.
  - split; [|done]. split; [done|]. by eapply selection_current.
  - simpl in Ho. unfold ProtocolOffer_legacy in Ho. head_case Ho E; [done|].
    injection Ho as <-. simpl in Hw. unfold PREVIOUS_PROTOCOL_REVISION in *. lia.
Qed.

Section Contracts.
Context `{DigestEnv} `{ServiceEnv} `{ArtifactStore} `{WireLaws}.
Context (state : ServiceState) (peer : rstr).

Lemma register_contract r now w resp w' :
  register state peer r now w = (Ok resp, w') ->
  selected_ok (rg_protocol_version resp) (rg_protocol_contract resp).
Proof.
  intros Hr. unfold register in Hr. do 5 svc_inv Hr. apply lift_Ok in Hr as [[= <-] _].
  apply store_Ok in Hc3 as (others & env & Hs).
  apply register_session_selects in Hs as (offer & Ho & Hsel). by eapply selected_current.
Qed.

Lemma check_contract r now w resp w' :
  check_registration state peer r now w = (Ok resp, w') ->
  selected_ok (rr_protocol_version resp) (rr_protocol_contract resp).
Proof.
  intros Hr. unfold check_registration in Hr. do 5 svc_inv Hr. apply lift_Ok in Hr as [[= <-] _].
  match goal with Hn : lift (negotiate_registration _ _ _) _ = _ |- _ =>
    apply lift_Ok in Hn as [Hn _]; unfold negotiate_registration in Hn end.
  destruct (ProtocolOffer_registration _ _) as [offer|] eqn:Eo; [|done]. simpl in *.
  destruct (negotiate _ _) as [c|] eqn:En; [|done]. simplify_eq/=.
  eapply selected_current; [done|]. by eapply negotiate_selects.
Qed.

Lemma fmap_Ok {E A B} (f : A -> B) (m : Svc E A) w b w' :
  svc_fmap f m w = (Ok b, w') -> exists a, m w = (Ok a, w') /\ b = f a.
Proof. unfold svc_fmap. destruct (m w) as [[a|] w1]; intros; simplify_eq; eauto. Qed.

Lemma handle_contract q w a w' :
  handle state peer q w = (Ok a, w') -> response_contract a.
Proof.
  intros Hh. destruct q; simpl in Hh; apply fmap_Ok in Hh as (x & Hx & ->); simpl; try done.
  - by eapply check_contract.
  - by eapply register_contract.
Qed.

Lemma grpc_transparent q w :
  request_typed q -> request_json q ->
  grpc_handle state peer (encode_request q) w = svc_fmap encode_response (handle state peer q) w.
Proof. intros Ht Hj. unfold grpc_handle. by rewrite request_roundtrip. Qed.

(** C29: Calls are transparent.  A request whose identifiers are UUIDs, whose
    version, offer and preflight report are valid and whose JSON reads back as
    written, sent over the wire by the worker's client, has exactly the effect and
    the answer of the daemon's handler on the request itself, whatever the network
    and the store do: nothing is lost or altered in either direction.  Of the
    answer only its identifiers are assumed to be UUIDs; the contract it carries is
    one that the client accepts. *)
Theorem calls_transparent q net db :
  request_typed q -> request_json q ->
  (forall a db', serve (handle state peer q) net db = (Ok a, db') -> response_uuids a) ->
  call state peer q net db = serve (handle state peer q) net db.
Proof.
  intros Ht Hj Hu. unfold call, serve in *. destruct net as [|calls answered]; [done|].
  set (w := {| w_db := db; w_calls := calls; w_polls := ∅ |}) in *.
  rewrite grpc_transparent by done. unfold svc_fmap.
  destruct (handle state peer q w) as [[a|e] w'] eqn:Eh; [|by destruct answered].
  destruct answered; simpl in *; [|done].
  rewrite response_roundtrip; [done | by eapply Hu | by eapply handle_contract].
Qed.

(** A registration's answer carries no identifier. *)
Lemma register_answer r now net db a db' :
  serve (handle state peer (Rq_Register r now)) net db = (Ok a, db') -> response_uuids a.
Proof.
  unfold serve. destruct net as [|calls []]; [done| |].
  - destruct (handle _ _ _ _) as [[x|] w] eqn:Eh; [|done]. simpl in Eh.
    apply fmap_Ok in Eh as (resp & _ & ->). intros Ha. by simplify_eq/=.
  - by destruct (handle _ _ _ _).
Qed.
End Contracts.

(** ** Decoded requests are well typed *)
Section Typed.
Context `{WireLaws}.

Lemma uuid_domain_ok field s u : uuid_domain field s = Ok u -> uuid_ok u.
Proof.
  unfold uuid_domain. destruct (uuid_parse_str s) eqn:E; simpl; intros; simplify_eq.
  by eapply uuid_parse_bits.
Qed.
Lemma version_domain_ok v x : protocol_version_domain v = Ok x -> version_ok x.
Proof.
  unfold protocol_version_domain, version_ok. destruct (_ && _) eqn:E; [|done]. intros [= <-].
  apply andb_true_iff in E as [?%Z.leb_le ?%Z.leb_le]. done.
Qed.
Lemma version_domain_same v x : protocol_version_domain v = Ok x -> x = v.
Proof. unfold protocol_version_domain. destruct (_ && _); [|done]. by intros [= <-]. Qed.
Lemma identity_domain_ok v i : attempt_identity v = Ok i -> identity_ok i.
Proof.
  unfold attempt_identity. destruct v as [v|]; [|done]. simpl. unfold identity_domain.
  destruct (uuid_domain _ _) eqn:E1; [|done]. destruct (uuid_domain "attempt_id" _) eqn:E2; [|done].
  intros; simplify_eq. split; by eapply uuid_domain_ok.
Qed.
(** An offer is read as the message has it, and names every feature once. *)
Definition offer_read (v : WireProtocolOffer) (o : ProtocolOffer) : Prop :=
  NoDup (wpo_features v) /\ (forall f, f ∈ po_features o <-> f ∈ wpo_features v)
  /\ po_minimum_revision o = wpo_minimum_revision v /\ po_maximum_revision o = wpo_maximum_revision v.
Lemma size_list_to_set_NoDup (l : list rstr) :
  size (list_to_set l : gset rstr) = length l -> NoDup l.
Proof.
  induction l as [|x l IH]; [constructor|]. cbn [list_to_set length]. intros Hs.
  assert (Hle : (size (list_to_set l : gset rstr) <= length l)%nat).
  { clear. induction l as [|y l IH]; [done|]. cbn [list_to_set length].
    pose proof (size_union_alt {[y]} (list_to_set l : gset rstr)) as Hu. rewrite size_singleton in Hu.
    pose proof (subseteq_size (list_to_set l ∖ {[y]} : gset rstr) (list_to_set l) ltac:(set_solver)). lia. }
  destruct (decide (x ∈ l)) as [Hin|Hni].
  - replace ({[x]} ∪ list_to_set l : gset rstr) with (list_to_set l : gset rstr) in Hs by set_solver. lia.
  - rewrite size_union, size_singleton in Hs by set_solver. constructor; [done|]. apply IH. lia.
Qed.
Lemma offer_domain_ok (v : WireProtocolOffer) (o : ProtocolOffer) :
  into_domain v = Ok o -> offer_ok o /\ offer_read v o.
Proof.
  simpl. intros Ho. destruct (protocol_version_domain _) eqn:E1; [|done].
  destruct (protocol_version_domain (wpo_maximum_revision v)) eqn:E2; [|done].
  destruct (ensure _ _) as [[]|] eqn:Ed; [|done]. simpl in Ho.
  destruct (ProtocolOffer_validate _) as [[]|] eqn:E3; [|done]. simplify_eq/=.
  apply ensure_Ok, Nat.eqb_eq, size_list_to_set_NoDup in Ed.
  split; (split_and!; [try (by eapply version_domain_ok) ..|]); try done.
  - intros f. cbn. set_solver.
  - by apply version_domain_same.
  - by apply version_domain_same.
Qed.
Lemma offer_domain_typed (v : WireProtocolOffer) (o : ProtocolOffer) : into_domain v = Ok o -> offer_ok o.
Proof. intros Ho. apply (offer_domain_ok v o Ho). Qed.
Lemma preflight_domain_ok (v : WirePreflightReport) (r : PreflightReport) :
  into_domain v = Ok r -> preflight_ok r.
Proof.
  simpl. intros Hr. destruct (validate _) as [[]|] eqn:E; [|done]. by simplify_eq.
Qed.
Lemma transpose_ok {W D} `{Wire W D} (P : D -> Prop) (o : option W) (d : option D) :
  (forall v x, into_domain v = Ok x -> P x) -> transpose into_domain o = Ok d -> option_ok P d.
Proof.
  intros Hp. destruct o as [v|]; simpl.
  - destruct (into_domain v) eqn:E; [|done]. intros [= <-] x [= <-]. by eapply Hp.
  - by intros [= <-] x.
Qed.
Lemma transpose_read {W D} `{Wire W D} (R : W -> D -> Prop) (o : option W) (d : option D) :
  (forall v x, into_domain v = Ok x -> R v x) -> transpose into_domain o = Ok d -> option_Forall2 R o d.
Proof.
  intros Hp. destruct o as [v|]; simpl.
  - destruct (into_domain v) eqn:E; [|done]. intros [= <-]. constructor. by apply Hp.
  - intros [= <-]. constructor.
Qed.
End Typed.
#[local] Hint Resolve uuid_domain_ok version_domain_ok identity_domain_ok : wire.

Section TypedTheorem.
Context `{WireLaws}.

(** The offer in a message and in the request. *)
Definition message_offer (m : WireRequest) : option WireProtocolOffer :=
  match m with
  | Wq_CheckRegistration r _ => wcr_protocol_offer r
  | Wq_Register r _ => wrq_protocol_offer r
  | _ => None
  end.
Definition request_offer (q : Request) : option ProtocolOffer :=
  match q with
  | Rq_CheckRegistration r _ => rc_protocol_offer r
  | Rq_Register r _ => rs_protocol_offer r
  | _ => None
  end.
Lemma decoded_typed m q : decode_request m = Ok q -> request_typed q.
Proof.
  intros Hd. destruct m;
    cbn -[transpose attempt_identity terminal_domain lit capabilities_domain uuid_domain
          protocol_version_domain ProtocolOffer_Wire PreflightReport_Wire] in Hd;
    (head_case Hd E; [|discriminate Hd]); injection Hd as <-; ok_inv E; simpl; split_and?;
    eauto using transpose_ok, offer_domain_typed, preflight_domain_ok with wire.
Qed.
Lemma decoded_offer m q :
  decode_request m = Ok q -> option_Forall2 offer_read (message_offer m) (request_offer q).
Proof.
  intros Hd. destruct m;
    cbn -[transpose attempt_identity terminal_domain lit capabilities_domain uuid_domain
          protocol_version_domain ProtocolOffer_Wire PreflightReport_Wire] in Hd;
    (head_case Hd E; [|discriminate Hd]); injection Hd as <-; ok_inv E; simpl; try constructor;
    (eapply transpose_read; [intros v x Hx; exact (proj2 (offer_domain_ok v x Hx))|eassumption]).
Qed.

(** C37: Handlers see typed values only.  Whatever message arrives, if the daemon
    decodes it at all, its protocol version and the bounds of its protocol offer are
    16-bit numbers, the offer is ordered and bounded and its feature names well
    formed, a preflight report is valid, and every identifier is one the parser of
    UUIDs returns; the message itself named every feature of the offer once, and the
    request offers exactly those and the message's revisions; and the request, encoded
    again, decodes to itself (when the JSON of a completion reads back). *)
Theorem decoded_requests_typed m q :
  decode_request m = Ok q ->
  request_typed q /\ option_Forall2 offer_read (message_offer m) (request_offer q)
  /\ (request_json q -> decode_request (encode_request q) = Ok q).
Proof.
  intros Hd. pose proof (decoded_typed _ _ Hd) as Ht. split; [done|]. split; [by apply decoded_offer|].
  by apply request_roundtrip.
Qed.
End TypedTheorem.

(** ** A concrete parser of UUIDs *)
Definition demo_parse_uuid (s : rstr) : option Uuid :=
  let u := hex_value 0 (filter (fun c => c <> 45) s) in
  if decide (uuid_string u = s /\ 0 <= u < 2 ^ 128) then Some u else None.

#[local] Instance demo_wire : WireEnv := {|
  uuid_parse_str := demo_parse_uuid;
  json_from_str := fun s => Some (VScalar (SString s));
  json_to_string := fun v => match v with VScalar (SString s) => s | _ => [] end
|}.
#[local] Instance demo_wire_laws : WireLaws.
Proof.
  split.
  - intros u Hu. unfold uuid_ok in Hu. simpl. unfold demo_parse_uuid.
    rewrite uuid_string_digits, hex_value_digits. change (16 ^ Z.of_nat 32) with (2 ^ 128).
    rewrite Z.mod_small by exact Hu. rewrite Z.mul_0_l, Z.add_0_l.
    by rewrite decide_True.
  - intros s u. simpl. unfold demo_parse_uuid. intros Hu. head_case Hu E; [|done].
    injection Hu as <-. exact (proj2 a).
Qed.

(** The demonstration worker registers over the wire. *)
#[local] Existing Instances demo_digest demo_service demo_artifacts.
Definition demo_net : Net := Net_Served (repeat (Call_Runs [] (at_time 10)) 2) true.
Lemma calls_transparent_witness :
  let q := Rq_Register demo_registration 1700000000000 in
  call demo_state demo_key q demo_net demo_queued
  = serve (handle demo_state demo_key q) demo_net demo_queued.
Proof.
  intros q. apply calls_transparent.
  - simpl. split; [vm_compute; split; congruence|]. split; [vm_compute; split; congruence|].
    split; [|by intros x Hx]. intros o Ho. injection Ho as <-.
    split; [vm_compute; split; congruence|]. split; [vm_compute; split; congruence|]. vm_compute. reflexivity.
  - exact I.
  - exact (register_answer demo_state demo_key _ _ demo_net demo_queued).
Defined.

(** The registration of the demonstration worker, as a message. *)
Definition demo_register_message : WireRequest :=
  encode_request (Rq_Register demo_registration 1700000000000).
Lemma decoded_requests_typed_witness :
  request_typed (Rq_Register demo_registration 1700000000000)
  /\ exists w o, message_offer demo_register_message = Some w
     /\ rs_protocol_offer demo_registration = Some o /\ offer_read w o.
Proof.
  destruct (decoded_requests_typed demo_register_message (Rq_Register demo_registration 1700000000000))
    as (Ht & Ho & _); [vm_compute; reflexivity|].
  split; [exact Ht|]. cbn [request_offer] in Ho.
  destruct (rs_protocol_offer demo_registration) as [o|] eqn:Eo; [|vm_compute in Eo; discriminate Eo].
  destruct (message_offer demo_register_message) as [w|]; [|inversion Ho].
  exists w, o. split; [reflexivity|]. split; [reflexivity|]. inversion Ho. assumption.
Defined.
