(* ===== verification/WorkerSession.v ===== *)
(** * The worker's session

    The loops of crates/sbgh-worker/src/fleet.rs around a session: recovery under
    the same identifier, cleanup of lost executions, and shutdown after idling.
    Calls go through a network that loses requests and answers to the handlers of
    FleetService.v; a script lists what happens at each call. *)
From stdpp Require Import base list strings gmap.
From Stdlib Require Import ZArith Lia.
From S2P Require Import Prelude RustStr Json FleetModel Negotiation Validate FleetDb.
From S2P Require Import FleetSessions FleetScheduling FleetEvents FleetAdmin FleetSpec.
From S2P Require Import FleetRefine FleetSystem FleetService FleetDemo ServiceSafety.
From S2P Require Import FleetRetry FleetLedger WorkerDelivery ServiceEffects WorkerLease.

Local Open Scope Z_scope.
Open Scope svc_scope.

(** ** Recovery of a session *)

(** One registration call of [recover_session]: the wall clock around it, the
    monotonic clock at its start, its answer, and whether shutdown interrupts the
    call or the sleep after it. *)
Record RecoveryStep := {
  rv_started : Z;
  rv_finished : Z;
  rv_monotonic : Z;
  rv_shutdown : bool;
  rv_result : result RegisterSessionResponse CallError;
  rv_sleep_interrupted : bool
}.

(** [recover_session]; no result while the script goes on. *)
Fixpoint recover_session (facts : RegisterSessionRequest) (failures : Z)
    (steps : list RecoveryStep)
  : option (result (RegisterSessionResponse * ServerClock) WorkerError) :=
  let shutdown := Err (We_Ensure "shutdown during session recovery") in
  match steps with
  | [] => None
  | s :: rest =>
      if rv_shutdown s then Some shutdown
      else
        match rv_result s with
        | Ok registration =>
            Some (let? _ := validate_registration facts registration (rv_started s) (rv_finished s) in
                  Ok (registration, {| sc_started := rv_monotonic s;
                                       sc_server_time_ms := rg_server_time_ms registration |}))
        | Err error =>
            if is_non_retryable error then Some (Err (We_Call error))
            else
              let pending := has_fleet_code error "session_recovery_pending" in
              let failures := if pending then 0 else failures + 1 in
              if negb pending && negb (failures <? 8)
              then Some (Err (We_Ensure "same-session recovery did not converge"))
              else if rv_sleep_interrupted s then Some shutdown
              else recover_session facts failures rest
        end
  end.

(** The daemon asks the worker to wait for its own executions. *)
Definition told_to_wait (s : RecoveryStep) : bool :=
  match rv_result s with
  | Err error => has_fleet_code error "session_recovery_pending"
  | Ok _ => false
  end.

Lemma recover_session_converges facts failures steps :
  0 <= failures < 8 -> Forall (fun s => told_to_wait s = false) steps ->
  8 - failures <= Z.of_nat (length steps) -> is_Some (recover_session facts failures steps).
Proof.
  revert failures. induction steps as [|s steps IH]; intros failures Hf Hw Hlen; simpl in *; [lia|].
  inversion Hw as [|? ? Hs Hw']; subst. unfold told_to_wait in Hs.
  destruct (rv_shutdown s); [by eexists|].
  destruct (rv_result s) as [reg|error]; [by eexists|].
  destruct (is_non_retryable error); [by eexists|]. rewrite Hs. simpl.
  destruct (Z.ltb_spec (failures + 1) 8); simpl; [|by eexists].
  destruct (rv_sleep_interrupted s); [by eexists|]. apply IH; [lia|done|lia].
Qed.

(** The calls after the deciding one do not matter. *)
Lemma recover_session_app facts failures steps later r :
  recover_session facts failures steps = Some r ->
  recover_session facts failures (steps ++ later) = Some r.
Proof.
  revert failures. induction steps as [|s steps IH]; intros failures; simpl; [done|].
  repeat case_match; auto.
Qed.

Lemma recover_session_valid facts failures steps registration clock :
  recover_session facts failures steps = Some (Ok (registration, clock)) ->
  exists s skew, s ∈ steps /\ rv_result s = Ok registration
  /\ validate_registration facts registration (rv_started s) (rv_finished s) = Ok skew
  /\ clock = {| sc_started := rv_monotonic s;
                sc_server_time_ms := rg_server_time_ms registration |}.
Proof.
  revert failures. induction steps as [|s steps IH]; intros failures Hr; simpl in Hr; [done|].
  destruct (rv_shutdown s); [done|]. destruct (rv_result s) as [reg|error] eqn:Es.
  - destruct (validate_registration _ _ _ _) as [skew|] eqn:Ev; [|done]. simplify_eq.
    exists s, skew. split_and!; try done. by left.
  - destruct (is_non_retryable error); [done|]. head_case Hr E1; [done|].
    destruct (rv_sleep_interrupted s); [done|].
    apply IH in Hr as (x & skew & Hx & ?). exists x, skew. split; [by right|done].
Qed.

(** Session recovery terminates.  Between two answers that ask the worker to
    wait for its own executions it makes at most eight registration calls; so a
    script with eight consecutive calls that are not such answers ends the
    recovery.  When it succeeds, the registration passed the worker's checks for
    the unchanged facts, and the new clock is anchored at the dispatch of the call
    that succeeded. *)
Theorem recovery_terminates facts failures steps :
  0 <= failures < 8 -> Forall (fun s => told_to_wait s = false) (take 8 steps) ->
  (8 <= length steps)%nat ->
  exists r, recover_session facts failures steps = Some r
  /\ forall registration clock, r = Ok (registration, clock) ->
     exists s skew, s ∈ take 8 steps /\ rv_result s = Ok registration
     /\ validate_registration facts registration (rv_started s) (rv_finished s) = Ok skew
     /\ clock = {| sc_started := rv_monotonic s;
                   sc_server_time_ms := rg_server_time_ms registration |}.
Proof.
  intros Hf Hw Hlen.
  destruct (recover_session_converges facts failures (take 8 steps) Hf Hw) as [r Hr].
  { rewrite length_take. lia. }
  exists r. split.
  - rewrite <- (take_drop 8 steps). by apply recover_session_app.
  - intros registration clock ->. by eapply recover_session_valid.
Qed.

(** The daemon answers the eighth call. *)
Definition demo_failure : RecoveryStep :=
  {| rv_started := 0; rv_finished := 1; rv_monotonic := 0; rv_shutdown := false;
     rv_result := Err transport_error; rv_sleep_interrupted := false |}.
Definition demo_recoveries (resp : RegisterSessionResponse) : list RecoveryStep :=
  repeat demo_failure 7 ++ [{| rv_started := 1699999999000; rv_finished := 1700000000500;
    rv_monotonic := 7; rv_shutdown := false; rv_result := Ok resp; rv_sleep_interrupted := false |}].
Lemma recovery_terminates_witness :
  exists resp r, recover_session demo_registration 0 (demo_recoveries resp) = Some r.
Proof.
  exists {| rg_protocol_version := 2; rg_protocol_contract := None; rg_heartbeat_interval_ms := 1;
            rg_lease_ttl_ms := 3; rg_server_time_ms := 1700000000000 |}.
  edestruct (recovery_terminates demo_registration 0) as (r & Hr & _);
    [lia | | | exists r; exact Hr].
  - repeat constructor.
  - simpl. lia.
Defined.

(** ** Cleanup of lost executions *)

(** [benchmark.is_some() || block_validation.is_some()] of the configuration, and
    the verdict of the local teardown ([cleanup_attempt]). *)
Record CleanupEnv := { ce_has_runtime : bool; ce_teardown : CleanupItem -> bool }.
Definition cleaned (c : CleanupEnv) (item : CleanupItem) : bool :=
  negb (ce_has_runtime c) || ce_teardown c item.

Section Cleanup.
Context `{DigestEnv}.
Context (peer : rstr) (config : CleanupEnv) (session : Uuid).

(** The fate of the next call; a script that is over loses it. *)
Definition next_net (script : list Net) : Net := default Net_Lost (head script).

(** [client.complete_cleanup]. *)
Definition acknowledge (net : Net) (id : Z) (db : FleetDb) : result unit CallError * FleetDb :=
  let '(r, db) := serve (cleanup_complete peer
    {| cc_worker_session_id := session; cc_obligation_id := id |}) net db in
  ((let? completed := r in ensure completed Ce_Other), db).

(** The loop over the listed obligations; [pending] is [*pending_ack]. *)
Fixpoint clean_items (items : list CleanupItem) (script : list Net) (pending : option Z)
    (db : FleetDb) : result unit WorkerError * option Z * FleetDb :=
  match items with
  | [] => (Ok tt, pending, db)
  | item :: rest =>
      if cleaned config item then
        let '(r, db) := acknowledge (next_net script) (ci_id item) db in
        match r with
        | Ok _ => clean_items rest (tail script) None db
        | Err e => (Err (We_Call e), Some (ci_id item), db)
        end
      else (Err (We_Ensure "cleanup obligation could not be satisfied"), pending, db)
  end.

(** [cleanup_obligations] after a pending acknowledgement was settled. *)
Definition list_and_clean (script : list Net) (db : FleetDb)
  : result unit WorkerError * option Z * FleetDb :=
  let '(r, db) := serve (cleanup peer {| cl_worker_session_id := session |}) (next_net script) db in
  match r with
  | Ok items => clean_items items (tail script) None db
  | Err e => (Err (We_Call e), None, db)
  end.

Definition cleanup_obligations (script : list Net) (pending : option Z) (db : FleetDb)
  : result unit WorkerError * option Z * FleetDb :=
  match pending with
  | Some id =>
      let '(r, db) := acknowledge (next_net script) id db in
      match r with
      | Ok _ => list_and_clean (tail script) db
      | Err e => (Err (We_Call e), pending, db)
      end
  | None => list_and_clean script db
  end.

(** ** Shutdown after idling *)

(** One round: shutdown during deregistration, cleanup or sleep, and the fate of
    the calls (an interrupted call can still take effect). *)
Record ShutdownRound := {
  sd_interrupted : bool;
  sd_deregister : Net;
  sd_cleanup_interrupted : bool;
  sd_cleanup : list Net;
  sd_sleep_interrupted : bool
}.

(** [client.deregister]. *)
Definition call_deregister (net : Net) (db : FleetDb) : result unit CallError * FleetDb :=
  let '(r, db) := serve (deregister peer {| dr_worker_session_id := session |}) net db in
  ((let? deregistered := r in ensure deregistered Ce_Other), db).

Fixpoint shutdown_after_idle (rounds : list ShutdownRound) (pending : option Z) (db : FleetDb)
  : option (result unit WorkerError) * FleetDb :=
  match rounds with
  | [] => (None, db)
  | d :: rest =>
      let '(r, db) := call_deregister (sd_deregister d) db in
      if sd_interrupted d
      then (Some (Err (We_Ensure "process interrupted idle shutdown acknowledgement")), db)
      else
        match r with
        | Ok _ => (Some (Ok tt), db)
        | Err e =>
            if is_non_retryable e then (Some (Err (We_Call e)), db)
            else
              let '(_, pending, db) := cleanup_obligations (sd_cleanup d) pending db in
              if sd_cleanup_interrupted d
              then (Some (Err (We_Ensure "process interrupted idle shutdown cleanup")), db)
              else if sd_sleep_interrupted d
              then (Some (Err (We_Ensure "process interrupted idle shutdown retry")), db)
              else shutdown_after_idle rest pending db
        end
  end.
End Cleanup.

(** ** Cleanup is acknowledged after teardown only *)
Section CleanupSafety.
Context `{DigestEnv}.
Context (peer : rstr) (config : CleanupEnv) (session : Uuid).

Definition net_others (net : Net) : list FleetOp :=
  match net with Net_Lost => [] | Net_Served calls _ => concat (map call_others calls) end.
Definition script_others (script : list Net) : list FleetOp := concat (map net_others script).

(** The database is reached by transactions that satisfy [P] or belong to other
    requests of the script. *)
Definition reached (P : FleetOp -> Prop) (script : list Net) (db db' : FleetDb) : Prop :=
  exists ops, db' = run ops db /\ Forall (fun o => P o \/ o ∈ script_others script) ops.

Lemma reached_refl P script db : reached P script db db.
Proof. by exists []. Qed.
Lemma reached_trans P script db1 db2 db3 :
  reached P script db1 db2 -> reached P script db2 db3 -> reached P script db1 db3.
Proof.
  intros (o1 & -> & F1) (o2 & -> & F2). exists (o1 ++ o2). rewrite run_app. split; [done|].
  by apply Forall_app.
Qed.
Lemma reached_script P script script' db db' :
  (forall n, n ∈ script -> n ∈ script') ->
  reached P script db db' -> reached P script' db db'.
Proof.
  intros Hs (ops & -> & Hf). exists ops. split; [done|]. eapply Forall_impl; [exact Hf|].
  intros o [?|Ho]; [by left|right]. unfold script_others in *.
  apply list_elem_of_In, in_concat in Ho as (l & Hl & Ho). apply in_map_iff in Hl as (n & <- & Hn).
  apply list_elem_of_In, in_concat. exists (net_others n). split; [|done].
  apply in_map, list_elem_of_In, Hs, list_elem_of_In, Hn.
Qed.

Lemma serve_reached {A} P (h : Svc ServiceError A) net db :
  obeys P h -> reached P [net] db (serve h net db).2.
Proof.
  intros Hh. destruct net as [|calls answered]; simpl; [apply reached_refl|].
  destruct (Hh {| w_db := db; w_calls := calls; w_polls := ∅ |}) as (used & ops & Hc & Hd & Hf).
  simpl in Hc, Hd. exists ops. destruct (h _) as [r w]. simpl in *. split; [done|].
  eapply Forall_impl; [exact Hf|]. intros o [?|(c & Hin & Ho)]; [by left|right].
  unfold script_others. simpl. rewrite app_nil_r. apply list_elem_of_In, in_concat.
  exists (call_others c). split; [|by apply list_elem_of_In]. apply in_map, list_elem_of_In.
  rewrite Hc. apply elem_of_app. by left.
Qed.

Context (script0 : list Net) (pending0 : option Z).

(** The local teardown of the obligation was verified, now or before. *)
Definition torn_down (id : Z) : Prop :=
  pending0 = Some id \/ exists item, ci_id item = id /\ cleaned config item = true.
Definition acknowledges (o : FleetOp) : Prop :=
  exists env worker id, o = Op_CompleteCleanup env worker session id /\ torn_down id.
Notation reached0 := (reached acknowledges script0).

Lemma serve_reached0 {A} (h : Svc ServiceError A) script db :
  (forall n, n ∈ script -> n ∈ script0) -> obeys acknowledges h ->
  reached0 db (serve h (next_net script) db).2.
Proof.
  intros Hs Hh. destruct script as [|n script]; simpl; [apply reached_refl|].
  apply (reached_script _ [n]); [|by apply serve_reached].
  intros m Hm. apply list_elem_of_singleton in Hm as ->. apply Hs. by left.
Qed.

Lemma acknowledge_reached script id db r db' :
  (forall n, n ∈ script -> n ∈ script0) -> torn_down id ->
  acknowledge peer session (next_net script) id db = (r, db') -> reached0 db db'.
Proof.
  intros Hs Hid. unfold acknowledge.
  pose proof (serve_reached0 (cleanup_complete peer
    {| cc_worker_session_id := session; cc_obligation_id := id |}) script db Hs) as Hr.
  destruct (serve _ _ _) as [x db1]. simpl in Hr. intros [= _ <-]. apply Hr.
  unfold cleanup_complete. svc_obeys; [apply obeys_authorize|]. store_op. intros env. simpl.
  by exists env, (wa_worker_id a), id.
Qed.

Lemma subscript_tail script :
  (forall n : Net, n ∈ script -> n ∈ script0) -> forall n, n ∈ tail script -> n ∈ script0.
Proof. intros Hs n Hn. apply Hs. destruct script; [done|by right]. Qed.

Lemma clean_items_safe items script pending db r pending' db' :
  (forall n, n ∈ script -> n ∈ script0) -> (forall id, pending = Some id -> torn_down id) ->
  clean_items peer config session items script pending db = (r, pending', db') ->
  reached0 db db' /\ (forall id, pending' = Some id -> torn_down id).
Proof.
  revert script pending db. induction items as [|item items IH]; intros script pending db Hs Hp Hr;
    simpl in Hr; [simplify_eq; split; [apply reached_refl|done]|].
  destruct (cleaned config item) eqn:Ec; [|simplify_eq; split; [apply reached_refl|done]].
  assert (Ht : torn_down (ci_id item)) by (right; by exists item).
  destruct (acknowledge _ _ _ _ _) as [x db1] eqn:Ea.
  apply acknowledge_reached in Ea; [|done..]. destruct x as [[]|e].
  - apply IH in Hr as [Hre Hp']; [|by apply subscript_tail|done].
    split; [by eapply reached_trans|done].
  - simplify_eq. split; [done|]. by intros id [= <-].
Qed.

Lemma list_and_clean_safe script db r pending' db' :
  (forall n, n ∈ script -> n ∈ script0) ->
  list_and_clean peer config session script db = (r, pending', db') ->
  reached0 db db' /\ (forall id, pending' = Some id -> torn_down id).
Proof.
  intros Hs. unfold list_and_clean.
  pose proof (serve_reached0 (cleanup peer {| cl_worker_session_id := session |}) script db Hs)
    as Hr. destruct (serve _ _ _) as [x db1]. simpl in Hr.
  assert (Hl : reached0 db db1) by (apply Hr; unfold cleanup; svc_obeys; apply obeys_authorize).
  destruct x as [items|e]; [|intros; simplify_eq; by split]. intros Hc.
  apply clean_items_safe in Hc as [Hre Hp]; [|by apply subscript_tail|done].
  split; [by eapply reached_trans|done].
Qed.
End CleanupSafety.

Section CleanupTheorem.
Context `{DigestEnv}.

(** Cleanup is acknowledged after teardown only.  Whatever the network and the
    other requests do, the transactions that a run of the worker's cleanup adds
    complete obligations whose local teardown was verified, in this run or in an
    earlier one whose acknowledgement was lost; and the acknowledgement it still
    remembers afterwards is of such an obligation.  Since completing the
    obligation is what puts the job back in the queue, a job is executed again
    only after the resources of its lost execution are gone. *)
Theorem cleanup_after_teardown peer config session script pending db r pending' db' :
  cleanup_obligations peer config session script pending db = (r, pending', db') ->
  (exists ops, db' = run ops db
     /\ Forall (fun o => (exists env worker id, o = Op_CompleteCleanup env worker session id
                           /\ torn_down config pending id)
                         \/ o ∈ script_others script) ops)
  /\ (forall id, pending' = Some id -> torn_down config pending id).
Proof.
  change (cleanup_obligations peer config session script pending db = (r, pending', db') ->
    reached (acknowledges config session pending) script db db'
    /\ (forall id, pending' = Some id -> torn_down config pending id)).
  unfold cleanup_obligations. destruct pending as [id|]; [|by apply list_and_clean_safe].
  assert (Ht : torn_down config (Some id) id) by by left.
  destruct (acknowledge _ _ _ _ _) as [x db1] eqn:Ea.
  apply (acknowledge_reached _ config _ script (Some id)) in Ea; [|done..].
  destruct x as [[]|e].
  - intros Hl. apply (list_and_clean_safe _ _ _ script (Some id)) in Hl as [Hr Hp];
      [|by apply subscript_tail]. split; [by eapply reached_trans|done].
  - intros; simplify_eq. split; [done|]. by intros ? [= <-].
Qed.
End CleanupTheorem.

(** The worker registers again, tears its lost execution down, and loses the
    answer to its acknowledgement. *)
Definition demo_cleanup_env : CleanupEnv := {| ce_has_runtime := true; ce_teardown := fun _ => true |}.
Definition demo_cleanup :=
  @cleanup_obligations demo_digest demo_key demo_cleanup_env demo_session
    [Net_Served (repeat (Call_Runs [] (at_time 5200)) 2) true;
     Net_Served (repeat (Call_Runs [] (at_time 5201)) 2) false] None (demo_db trace_recovered).
Lemma demo_cleanup_remembers : demo_cleanup.1.2 = Some 1.
Proof. vm_compute. reflexivity. Qed.
Lemma cleanup_after_teardown_witness :
  exists r db', demo_cleanup = (r, Some 1, db') /\ torn_down demo_cleanup_env None 1.
Proof.
  pose proof demo_cleanup_remembers as Hp. destruct demo_cleanup as [[r p] db'] eqn:Hc.
  simpl in Hp. subst p. exists r, db'. split; [reflexivity|].
  exact (proj2 (@cleanup_after_teardown demo_digest demo_key demo_cleanup_env demo_session _ None
    _ r (Some 1) db' Hc) 1 eq_refl).
Defined.

(** ** Idle shutdown *)
Section Shutdown.
Context `{DigestEnv}.
Context (peer : rstr) (config : CleanupEnv) (session : Uuid).

(** The session is over and the worker owes nothing for it. *)
Definition settled (db : FleetDb) : Prop :=
  exists s, db_sessions db !! session = Some s /\ ws_status s = S_Deregistered
  /\ has_pending_cleanup (sr_worker (ws_row s)) db = false
  /\ (forall id a, db_attempts db !! id = Some a -> ar_session (at_row a) = session ->
       attempt_active (at_status a) = false).

Lemma deregister_session_settles env worker db db' :
  deregister_session env worker session db = Ok (true, db') -> settled db'.
Proof.
  unfold deregister_session. destruct (db_sessions db !! session) as [s|] eqn:Hs; [|done].
  intros Hd. head_case Hd E; [|done]. bool_hyps. simplify_eq. eexists. simpl.
  rewrite lookup_insert_eq. split_and!; [done|done| |].
  - simpl. replace (sr_worker (ws_row s)) with worker; [done|]. symmetry. by apply Z.eqb_eq.
  - intros id a Ha Has. match goal with Hn : exists_row _ _ = false |- _ =>
      rewrite exists_row_false in Hn; specialize (Hn id a Ha) end.
    rewrite Has, Z.eqb_refl in *. done.
Qed.

Lemma call_deregister_settles net db u db' :
  call_deregister peer session net db = (Ok u, db') -> settled db'.
Proof.
  unfold call_deregister, serve. destruct net as [|calls answered]; [done|].
  destruct (deregister _ _ _) as [r w] eqn:Ed. destruct answered; [|done].
  destruct r as [b|]; simpl; [|done]. destruct b; [|done]. intros [= _ <-].
  unfold deregister in Ed. do 2 svc_inv Ed. apply map_err_Ok, store_Ok in Ed as (others & env & Hd).
  by eapply deregister_session_settles.
Qed.

(** Idle shutdown is clean.  The worker's process leaves the shutdown loop
    without an error only when its session is deregistered, none of the session's
    attempts is active and the worker owes no cleanup. *)
Theorem shutdown_settles rounds pending db db' :
  shutdown_after_idle peer config session rounds pending db = (Some (Ok tt), db') -> settled db'.
Proof.
  revert pending db. induction rounds as [|d rounds IH]; intros pending db Hr; simpl in Hr; [done|].
  destruct (call_deregister _ _ _ _) as [r db1] eqn:Ed.
  destruct (sd_interrupted d); [done|]. destruct r as [u|e].
  - simplify_eq. by eapply call_deregister_settles.
  - destruct (is_non_retryable e); [done|].
    destruct (cleanup_obligations _ _ _ _ _ _) as [[x p] db2].
    destruct (sd_cleanup_interrupted d); [done|]. destruct (sd_sleep_interrupted d); [done|].
    by eapply IH.
Qed.
End Shutdown.

(** Deregistration is refused while cleanup is owed, which the worker then
    settles. *)
Definition demo_shutdown :=
  @shutdown_after_idle demo_digest demo_key demo_cleanup_env demo_session
    [{| sd_interrupted := false;
        sd_deregister := Net_Served (repeat (Call_Runs [] (at_time 5200)) 2) true;
        sd_cleanup_interrupted := false;
        sd_cleanup := [Net_Served (repeat (Call_Runs [] (at_time 5201)) 2) true;
                       Net_Served (repeat (Call_Runs [] (at_time 5202)) 2) true];
        sd_sleep_interrupted := false |};
     {| sd_interrupted := false;
        sd_deregister := Net_Served (repeat (Call_Runs [] (at_time 5203)) 2) true;
        sd_cleanup_interrupted := false; sd_cleanup := []; sd_sleep_interrupted := false |}]
    None (demo_db trace_recovered).
Lemma demo_shutdown_returns : demo_shutdown.1 = Some (Ok tt).
Proof. vm_compute. reflexivity. Qed.
Lemma shutdown_settles_witness : exists db', demo_shutdown = (Some (Ok tt), db')
  /\ settled demo_session db'.
Proof.
  pose proof demo_shutdown_returns as Hr. destruct demo_shutdown as [r db'] eqn:Hs. simpl in Hr.
  subst r. exists db'. split; [reflexivity|].
  exact (@shutdown_settles demo_digest demo_key demo_cleanup_env demo_session _ None _ db' Hs).
Defined.
