(* ===== verification/WorkerExecution.v ===== *)
(** * An execution, from its assignment to its report

    [execute_assignment] of crates/sbgh-worker/src/fleet.rs with the artifact sink
    (remote_artifacts.rs) and the driver's events (sbgh-driver/src/events.rs).  A
    script lists what the driver reports, what the network does with each call and
    what the heartbeat task has flagged by then; its own heartbeats are among the
    other transactions of the calls.  The theorems compose the worker with the
    daemon's handlers: what a worker reports is what the daemon records, and
    nothing is reported before the local teardown is verified. *)
From stdpp Require Import base list strings gmap.
From Stdlib Require Import ZArith Lia.
From S2P Require Import Prelude RustStr Json FleetModel Negotiation Validate FleetDb FleetSessions FleetScheduling.
From S2P Require Import FleetEvents FleetAdmin FleetRefine FleetSystem FleetService FleetDemo ServiceSafety FleetLedger.
From S2P Require Import WorkerDelivery ServiceEffects WorkerLease WorkerSession WorkerRun.

Local Open Scope Z_scope.
Open Scope svc_scope.

(** ** The driver's events *)
Inductive WorkflowStep := Step_Calibrate | Step_Run.
Definition WorkflowStep_display (s : WorkflowStep) : rstr :=
  match s with Step_Calibrate => lit "calibrate" | Step_Run => lit "run" end.
Record DriverProgress := {
  dp_workflow_step : WorkflowStep;
  dp_run_index : Z;
  dp_requested_run_count : Z;
  dp_phase : rstr;
  dp_progress : Z;
  dp_total : option Z;
  dp_message : option rstr
}.
(** [Terminal].  The driver's block-validation output has the fields of the
    protocol's result ([driver_block_result_to_wire] copies them). *)
Inductive Terminal :=
| Term_Completed (summary : Value) (block_validation : option BlockValidationResult)
| Term_Failed (error : rstr) (summary : Value)
| Term_SetupError (error : rstr)
| Term_Aborted.

(** ** The artifact sink *)
Definition record_manifest_entry (manifest : list ArtifactDescriptor) (d : ArtifactDescriptor)
  : bool * list ArtifactDescriptor :=
  match List.find (fun a => rstr_eqb (ad_logical_key a) (ad_logical_key d)) manifest with
  | Some existing => (bool_decide (existing = d), manifest)
  | None => (true, manifest ++ [d])
  end.

(** ** Errors and outcomes *)
Definition send_error (e : SendError) : WorkerError :=
  match e with
  | Se_BufferFull => We_Ensure "reliable event resend buffer is full"
  | Se_LeaseLost => We_Ensure "lease confirmation expired while delivering reliable event"
  | Se_Rejected e => We_Call e
  end.
Definition failed_outcome (error : rstr) (summary : option Value) : TerminalOutcome :=
  Outcome_Failed (normalize_terminal_text error (lit "worker execution failed")) summary true.
(** The outcome of a finished execution. *)
Definition terminal_outcome (t : Terminal) : TerminalOutcome :=
  match t with
  | Term_Completed summary bv => Outcome_Completed summary bv
  | Term_Failed error summary => failed_outcome error (Some summary)
  | Term_SetupError error => failed_outcome error None
  | Term_Aborted => Outcome_Cancelled (lit "execution cancelled")
  end.

(** ** Scripts *)

(** One request for the repository credential: whether cancellation comes first,
    the fate of the request, the worker's clock, and whether cancellation
    interrupts the sleep. *)
Record CredentialStep := {
  cs_cancelled : bool;
  cs_net : Net;
  cs_now : Z;
  cs_sleep_cancelled : bool
}.
Inductive CredentialFetch := Fetch_Ready (token : rstr) | Fetch_Cancelled.

(** What happens while the driver runs: its events ([WorkerEvent]) and its uploads,
    until it finishes or its channel closes.  An event carries the flags and the fate
    of the calls it causes; a put carries the local file's size and digest, the
    fate of the grant and whether the upload succeeds; the last event says whether
    the task was joined and its resources were torn down. *)
Inductive DriverStep :=
| Drive_Phase (label : rstr) (elapsed_ms : Z) (lost : bool) (now : Z) (script : list Delivery)
| Drive_Heartbeat (label : rstr) (elapsed_ms : Z)
| Drive_Progress (p : DriverProgress) (cancelled : bool) (net : Net)
| Drive_Put (key : rstr) (file : option (Z * rstr)) (net : Net) (server_now : Z) (uploaded : bool)
| Drive_Finished (t : Terminal) (joined cleaned lost : bool).

(** One submission of the completion, and whether shutdown interrupts the sleep. *)
Record CompletionStep := { cp_net : Net; cp_shutdown : bool }.

Record ExecutionScript := {
  xs_confirmed : bool;
  xs_accepted : Z * Z * list Delivery;
  xs_lost_accepted : bool;
  xs_credential : list CredentialStep;
  xs_driver : list DriverStep;
  xs_lost_driver : bool;
  xs_terminal : Z * list Delivery;
  xs_lost_terminal : bool;
  xs_completion : list CompletionStep;
  xs_lost_completion : bool;
  xs_drain : bool
}.

(** The worker's side of an execution. *)
Record ExecutionState := {
  es_reliable : ReliableState;
  es_manifest : list ArtifactDescriptor;
  es_progress_seq : Z;
  es_delivery_error : option WorkerError
}.
Definition with_reliable (r : ReliableState) (s : ExecutionState) : ExecutionState :=
  {| es_reliable := r; es_manifest := es_manifest s; es_progress_seq := es_progress_seq s;
     es_delivery_error := es_delivery_error s |}.
Definition with_delivery_error (e : WorkerError) (s : ExecutionState) : ExecutionState :=
  {| es_reliable := es_reliable s; es_manifest := es_manifest s;
     es_progress_seq := es_progress_seq s; es_delivery_error := Some e |}.
Definition with_manifest (m : list ArtifactDescriptor) (s : ExecutionState) : ExecutionState :=
  {| es_reliable := es_reliable s; es_manifest := m; es_progress_seq := es_progress_seq s;
     es_delivery_error := es_delivery_error s |}.
Definition with_progress_seq (n : Z) (s : ExecutionState) : ExecutionState :=
  {| es_reliable := es_reliable s; es_manifest := es_manifest s; es_progress_seq := n;
     es_delivery_error := es_delivery_error s |}.
Definition execution_start : ExecutionState :=
  {| es_reliable := ReliableSender_new; es_manifest := []; es_progress_seq := 0;
     es_delivery_error := None |}.

Section Execution.
Context `{DigestEnv} `{ServiceEnv} `{ArtifactStore}.
Context (state : ServiceState) (peer : rstr).
Context (config : WorkerConfig) (a : Assignment).
Notation id := (as_identity a).

(** [phase]. *)
Definition phase (label : rstr) (elapsed_ms now : Z) (script : list Delivery)
    (st : ReliableState) (db : FleetDb)
  : option (result ReliableEventEnvelope SendError) * ReliableState * FleetDb :=
  send state peer id (as_trace_id a) (Event_Phase label (elapsed_ms mod 2 ^ 64)) now script st db.

(** [fetch_repository_credential]; no result while the script goes on. *)
Fixpoint fetch_repository_credential (steps : list CredentialStep) (db : FleetDb)
  : option (result CredentialFetch WorkerError) * FleetDb :=
  match steps with
  | [] => (None, db)
  | s :: rest =>
      let '(r, db) := serve (repository_credential state peer {| rcr_identity := id |}) (cs_net s) db in
      if cs_cancelled s then (Some (Ok Fetch_Cancelled), db)
      else
        match r with
        | Ok response =>
            (Some (ensure (cs_now s <? rcp_expires_at_ms response)
                     (We_Ensure "orchestrator returned an expired repository credential") ;?
                   Ok (Fetch_Ready (rcp_token response))), db)
        | Err error =>
            if is_non_retryable error then (Some (Err (We_Call error)), db)
            else if cs_sleep_cancelled s then (Some (Ok Fetch_Cancelled), db)
            else fetch_repository_credential rest db
        end
  end.

(** [RemoteArtifactSink::put]. *)
Definition put (key : rstr) (file : option (Z * rstr)) (net : Net) (server_now : Z)
    (uploaded : bool) (s : ExecutionState) (db : FleetDb) : option Z * ExecutionState * FleetDb :=
  match file with
  | None => (None, s, db)
  | Some (size, sha256) =>
      let '(r, db) := serve (artifact_grant state peer
        {| ag_identity := id; ag_operation := Op_Put; ag_key := key; ag_size := Some size;
           ag_sha256 := Some sha256 |} server_now) net db in
      match r with
      | Err _ => (None, s, db)
      | Ok grant =>
          if negb uploaded then (None, s, db)
          else
            let '(recorded, manifest) := record_manifest_entry (es_manifest s)
              {| ad_key := agr_key grant; ad_logical_key := key; ad_size := size;
                 ad_sha256 := sha256 |} in
            (if recorded then Some size else None, with_manifest manifest s, db)
      end
  end.

Definition progress_request (seq : Z) (p : DriverProgress) : ProgressRequest :=
  {| pq_identity := id; pq_trace_id := as_trace_id a; pq_progress_seq := seq;
     pq_update := {| pu_workflow_step := WorkflowStep_display (dp_workflow_step p);
       pu_run_index := dp_run_index p; pu_requested_run_count := dp_requested_run_count p;
       pu_phase := dp_phase p; pu_progress := dp_progress p; pu_total := dp_total p;
       pu_message := dp_message p |} |}.

(** The event loop of [execute_driver]; it ends with the channel. *)
Fixpoint drive (steps : list DriverStep) (s : ExecutionState) (db : FleetDb)
  : option (result TerminalOutcome WorkerError) * ExecutionState * FleetDb :=
  match steps with
  | [] => (Some (Err (We_Ensure "execution event channel closed before terminal")), s, db)
  | Drive_Phase label elapsed lost now script :: rest =>
      match es_delivery_error s, lost with
      | None, false =>
          let '(r, st, db) := phase label elapsed now script (es_reliable s) db in
          let s := with_reliable st s in
          match r with
          | None => (None, s, db)
          | Some (Ok _) => drive rest s db
          | Some (Err e) => drive rest (with_delivery_error (send_error e) s) db
          end
      | _, _ => drive rest s db
      end
  | Drive_Heartbeat _ _ :: rest => drive rest s db
  | Drive_Progress p cancelled net :: rest =>
      if cancelled || bool_decide (is_Some (es_delivery_error s)) then drive rest s db
      else
        let seq := Z.min (es_progress_seq s + 1) U64_MAX in
        let '(_, db) := serve (progress state peer (progress_request seq p)) net db in
        drive rest (with_progress_seq seq s) db
  | Drive_Put key file net server_now uploaded :: rest =>
      let '(_, s, db) := put key file net server_now uploaded s db in drive rest s db
  | Drive_Finished t joined cleaned lost :: _ =>
      (Some (ensure joined (We_Ensure "joining local execution task") ;?
             ensure cleaned (We_Ensure "attempt cleanup could not be verified") ;?
             match lost, es_delivery_error s with
             | false, Some e => Err e
             | _, _ => Ok (terminal_outcome t)
             end), s, db)
  end.

(** [execute_driver]; the request goes to the driver whose events are scripted. *)
Definition execute_driver (token : rstr) (steps : list DriverStep) (s : ExecutionState)
    (db : FleetDb) : option (result TerminalOutcome WorkerError) * ExecutionState * FleetDb :=
  match execution_request config a token with
  | Err e => (Some (Err e), s, db)
  | Ok _ => drive steps s db
  end.

(** [retry_terminal]; no result while the script goes on. *)
Fixpoint retry_terminal (r : CompleteAttemptRequest) (steps : list CompletionStep) (db : FleetDb)
  : option (result CompleteAttemptResponse WorkerError) * FleetDb :=
  match steps with
  | [] => (None, db)
  | s :: rest =>
      let '(answer, db) := serve (complete state peer r) (cp_net s) db in
      match answer with
      | Ok response => (Some (Ok response), db)
      | Err error =>
          if is_non_retryable error then (Some (Err (We_Call error)), db)
          else if cp_shutdown s then (Some (Err (We_Call error)), db)
          else retry_terminal r rest db
      end
  end.

Definition completion_request (e : ReliableEventEnvelope) (outcome : TerminalOutcome)
    (manifest : list ArtifactDescriptor) : CompleteAttemptRequest :=
  {| ca_identity := id; ca_trace_id := as_trace_id a;
     ca_terminal_reliable_seq := ev_reliable_seq e;
     ca_terminal_payload_digest := ev_payload_digest e; ca_outcome := outcome;
     ca_artifacts := manifest |}.

(** The report of the outcome: the terminal event, then the completion. *)
Definition report (x : ExecutionScript) (outcome : TerminalOutcome) (s : ExecutionState)
    (db : FleetDb) : option (result bool WorkerError) * ExecutionState * FleetDb :=
  let '(now, script) := xs_terminal x in
  let '(r, st, db) := send state peer id (as_trace_id a)
                        (Event_Terminal (payload_digest outcome)) now script (es_reliable s) db in
  let s := with_reliable st s in
  match r with
  | None => (None, s, db)
  | Some sent =>
      if xs_lost_terminal x then (Some (Ok false), s, db)
      else
        match sent with
        | Err e => (Some (Err (send_error e)), s, db)
        | Ok event =>
            let completion := completion_request event outcome (es_manifest s) in
            match validate completion with
            | Err _ => (Some (Err (We_Ensure "completion")), s, db)
            | Ok _ =>
                let '(answer, db) := retry_terminal completion (xs_completion x) db in
                match answer with
                | None => (None, s, db)
                | Some response =>
                    if xs_lost_completion x then (Some (Ok false), s, db)
                    else
                      (Some (let? response := response in
                             ensure (car_accepted response)
                               (We_Ensure "orchestrator rejected terminal outcome") ;?
                             Ok (xs_drain x)), s, db)
                end
            end
        end
  end.

(** [execute_assignment]. *)
Definition execute_assignment (x : ExecutionScript) (db : FleetDb)
  : option (result bool WorkerError) * ExecutionState * FleetDb :=
  let s := execution_start in
  if negb (xs_confirmed x) then (Some (Ok false), s, db)
  else
    let '(elapsed, now, script) := xs_accepted x in
    let '(r, st, db) := phase (lit "accepted") elapsed now script (es_reliable s) db in
    let s := with_reliable st s in
    match r with
    | None => (None, s, db)
    | Some accepted =>
        if xs_lost_accepted x then (Some (Ok false), s, db)
        else
          match accepted with
          | Err e => (Some (Err (send_error e)), s, db)
          | Ok _ =>
              let '(credential, db) := fetch_repository_credential (xs_credential x) db in
              let '(terminal, s, db) :=
                match credential with
                | None => (None, s, db)
                | Some (Err e) => (Some (Err e), s, db)
                | Some (Ok Fetch_Cancelled) =>
                    (Some (Ok (Outcome_Cancelled (lit "orchestrator requested cancellation"))), s, db)
                | Some (Ok (Fetch_Ready token)) => execute_driver token (xs_driver x) s db
                end in
              match terminal with
              | None => (None, s, db)
              | Some (Err e) => (Some (Err e), s, db)
              | Some (Ok outcome) =>
                  if xs_lost_driver x then (Some (Ok false), s, db)
                  else report x outcome s db
              end
          end
    end.
End Execution.

(** ** Every call moves the store along a trace *)

(** The transaction is not a completion. *)
Definition silent (o : FleetOp) : Prop :=
  match o with Op_Terminal _ _ _ _ => False | _ => True end.

(** The calls of a script. *)
Definition step_nets (d : DriverStep) : list Net :=
  match d with
  | Drive_Phase _ _ _ _ script => map dv_net script
  | Drive_Progress _ _ net | Drive_Put _ _ net _ _ => [net]
  | Drive_Heartbeat _ _ | Drive_Finished _ _ _ _ => []
  end.
Definition script_nets (x : ExecutionScript) : list Net :=
  map dv_net (xs_accepted x).2 ++ map cs_net (xs_credential x)
  ++ concat (map step_nets (xs_driver x)) ++ map dv_net (xs_terminal x).2
  ++ map cp_net (xs_completion x).

Section Moves.
Context `{DigestEnv} `{ServiceEnv} `{ArtifactStore}.
Context (state : ServiceState) (peer : rstr) (a : Assignment).

Lemma reached_weaken (P Q : FleetOp -> Prop) script db db' :
  (forall o, P o -> Q o) -> reached P script db db' -> reached Q script db db'.
Proof.
  intros Hpq (ops & -> & Hf). exists ops. split; [done|]. eapply Forall_impl; [exact Hf|].
  intros o [?|?]; auto.
Qed.
Lemma reached_keeps P script db db' : reached P script db db' -> keeps db db'.
Proof. intros (ops & -> & _). apply run_keeps. Qed.
Lemma reached_ledger P script db db' : reached P script db db' -> ledger_ok db -> ledger_ok db'.
Proof. intros (ops & -> & _). apply run_ledger. Qed.
Lemma reached_app P s1 s2 db1 db2 db3 :
  reached P s1 db1 db2 -> reached P s2 db2 db3 -> reached P (s1 ++ s2) db1 db3.
Proof.
  intros R1 R2. apply (reached_trans _ _ _ db2).
  - apply (reached_script _ s1); [|done]. intros n Hn. apply elem_of_app. by left.
  - apply (reached_script _ s2); [|done]. intros n Hn. apply elem_of_app. by right.
Qed.
Lemma reached_cons P n s db1 db2 db3 :
  reached P [n] db1 db2 -> reached P s db2 db3 -> reached P (n :: s) db1 db3.
Proof. apply (reached_app P [n] s). Qed.
Lemma reached_nil P s db : reached P s db db.
Proof. apply reached_refl. Qed.
Lemma reached_prefix P s1 s2 db db' : reached P s1 db db' -> reached P (s1 ++ s2) db db'.
Proof. intros R. eapply reached_app; [exact R | apply reached_nil]. Qed.

Ltac any_obeys :=
  svc_obeys; repeat first [ apply obeys_authorize | apply obeys_lift
    | by apply obeys_verify_uploads | by apply obeys_promote | store_op; done ].
Lemma event_obeys e : obeys silent (event state peer e).
Proof. unfold event, authorize_attempt. any_obeys. Qed.
Lemma credential_obeys r : obeys silent (repository_credential state peer r).
Proof. unfold repository_credential, authorize_attempt. any_obeys. Qed.
Lemma progress_obeys r : obeys silent (progress state peer r).
Proof. unfold progress, authorize_attempt. any_obeys. Qed.
Lemma grant_obeys r now : obeys silent (artifact_grant state peer r now).
Proof. unfold artifact_grant, authorize_attempt. any_obeys. Qed.
Lemma complete_obeys r : obeys (fun _ => True) (complete state peer r).
Proof. unfold complete, authorize_attempt. any_obeys. Qed.

Lemma serve_reached_eq {A} P (h : Svc ServiceError A) net db r db' :
  obeys P h -> serve h net db = (r, db') -> reached P [net] db db'.
Proof. intros Hh Hs. pose proof (serve_reached P h net db Hh) as Hr. by rewrite Hs in Hr. Qed.

Lemma deliver_reached script buffer db r buffer' db' :
  deliver state peer script buffer db = (r, buffer', db') ->
  reached silent (map dv_net script) db db'.
Proof.
  revert buffer db. induction script as [|d script IH]; intros buffer db; simpl;
    [intros; simplify_eq; apply reached_nil|].
  destruct (dv_lease_lost d); [intros; simplify_eq; apply reached_nil|].
  destruct buffer as [|e buffer]; [intros; simplify_eq; apply reached_nil|].
  destruct (publish _ _ _ _ _) as [x db1] eqn:Ep. intros Hd.
  apply (serve_reached_eq silent) in Ep; [|apply event_obeys].
  destruct x as [ack|err]; [by eapply reached_cons, IH|].
  destruct (is_non_retryable err); [|by eapply reached_cons, IH].
  simplify_eq. eapply reached_cons; [done | apply reached_nil].
Qed.
Lemma send_reached i trace payload now script st db r st' db' :
  send state peer i trace payload now script st db = (r, st', db') ->
  reached silent (map dv_net script) db db'.
Proof.
  unfold send. destruct (negb _); [intros; simplify_eq; apply reached_nil|].
  destruct (deliver _ _ _ _ _) as [[x buffer] db1] eqn:Ed. intros; simplify_eq.
  by eapply deliver_reached.
Qed.

Lemma fetch_reached steps db r db' :
  fetch_repository_credential state peer a steps db = (r, db') ->
  reached silent (map cs_net steps) db db'.
Proof.
  revert db. induction steps as [|c steps IH]; intros db; simpl;
    [intros; simplify_eq; apply reached_nil|].
  destruct (serve _ _ _) as [x db1] eqn:Es. apply (serve_reached_eq silent) in Es; [|apply credential_obeys].
  assert (Hstop : forall y : option (result CredentialFetch WorkerError), (y, db1) = (r, db') -> reached silent (cs_net c :: map cs_net steps) db db').
  { intros y [= _ <-]. eapply reached_cons; [done | apply reached_nil]. }
  destruct (cs_cancelled c); [apply Hstop|]. destruct x as [ok|err]; [apply Hstop|].
  destruct (is_non_retryable err); [apply Hstop|]. destruct (cs_sleep_cancelled c); [apply Hstop|].
  intros Hr. eapply reached_cons; [done | by apply IH].
Qed.

Lemma put_reached key file net now uploaded s db r s' db' :
  put state peer a key file net now uploaded s db = (r, s', db') -> reached silent [net] db db'.
Proof.
  unfold put. destruct file as [[size sha]|]; [|intros; simplify_eq; apply reached_nil].
  destruct (serve _ _ _) as [x db1] eqn:Es. apply (serve_reached_eq silent) in Es; [|apply grant_obeys].
  repeat case_match; intros; by simplify_eq.
Qed.

Lemma drive_reached steps s db r s' db' :
  drive state peer a steps s db = (r, s', db') ->
  reached silent (concat (map step_nets steps)) db db'.
Proof.
  revert s db. induction steps as [|d steps IH]; intros s db; [intros; simplify_eq/=; apply reached_nil|].
  cbn [map concat]. destruct d as [label el lost now script| |p c net|key file net now up|t j c lost];
    cbn [drive step_nets].
  - assert (Hskip : drive state peer a steps s db = (r, s', db') ->
              reached silent (map dv_net script ++ concat (map step_nets steps)) db db').
    { intros Hd. eapply reached_app; [apply reached_nil | by eapply IH]. }
    destruct (es_delivery_error s); [done|]. destruct lost; [done|]. unfold phase.
    destruct (send _ _ _ _ _ _ _ _ _) as [[x st] db1] eqn:Es. apply send_reached in Es.
    destruct x as [[e|e]|]; intros Hd; [by eapply reached_app, IH..|].
    simplify_eq. by apply reached_prefix.
  - apply IH.
  - destruct (_ || _); [intros Hd; eapply reached_cons; [apply reached_nil | by eapply IH]|].
    destruct (serve _ _ _) as [x db1] eqn:Es. apply (serve_reached_eq silent) in Es; [|apply progress_obeys].
    intros Hd. by eapply reached_cons, IH.
  - destruct (put _ _ _ _ _ _ _ _ _ _) as [[x s1] db1] eqn:Ep. apply put_reached in Ep.
    intros Hd. by eapply reached_cons, IH.
  - intros; simplify_eq. apply reached_nil.
Qed.

Lemma retry_reached P r steps db x db' :
  obeys P (complete state peer r) -> retry_terminal state peer r steps db = (x, db') ->
  reached P (map cp_net steps) db db'.
Proof.
  intros Hp. revert db. induction steps as [|c steps IH]; intros db; simpl;
    [intros; simplify_eq; apply reached_nil|].
  destruct (serve _ _ _) as [y db1] eqn:Es.
  apply (serve_reached_eq P) in Es; [|done].
  assert (Hstop : forall z, (z, db1) = (x, db') ->
            reached P (cp_net c :: map cp_net steps) db db').
  { intros z [= _ <-]. eapply reached_cons; [done | apply reached_nil]. }
  destruct y as [ok|err]; [apply Hstop|]. destruct (is_non_retryable err); [apply Hstop|].
  destruct (cp_shutdown c); [apply Hstop|]. intros Hr. by eapply reached_cons, IH.
Qed.
End Moves.

(** ** What a report leaves in the store *)
Section Reported.
Context `{DigestEnv} `{ServiceEnv} `{ArtifactStore}.
Context (state : ServiceState) (peer : rstr) (config : WorkerConfig) (a : Assignment).
Notation id := (ai_attempt_id (as_identity a)).
Notation envelope := (envelope (as_identity a) (as_trace_id a)).

(** The phases an execution reports before it finishes. *)
Fixpoint phases (steps : list DriverStep) : list (ReliableEventPayload * Z) :=
  match steps with
  | Drive_Phase label elapsed _ now _ :: rest =>
      (Event_Phase label (elapsed mod 2 ^ 64), now) :: phases rest
  | Drive_Finished _ _ _ _ :: _ | [] => []
  | _ :: rest => phases rest
  end.

(** The lease was never flagged as lost. *)
Definition step_keeps_lease (d : DriverStep) : bool :=
  match d with
  | Drive_Phase _ _ lost _ _ | Drive_Finished _ _ _ lost => negb lost
  | _ => true
  end.
Definition keeps_lease (x : ExecutionScript) : bool :=
  xs_confirmed x && negb (xs_lost_accepted x) && forallb step_keeps_lease (xs_driver x)
  && negb (xs_lost_driver x) && negb (xs_lost_terminal x) && negb (xs_lost_completion x).

(** The execution finished, was joined and its teardown was verified. *)
Definition finished_as (steps : list DriverStep) (outcome : TerminalOutcome) : Prop :=
  exists t lost, Drive_Finished t true true lost ∈ steps /\ outcome = terminal_outcome t.

(** The events are acknowledged with consecutive numbers. *)
Definition numbered (start : Z) (events : list (ReliableEventPayload * Z)) (db : FleetDb) : Prop :=
  forall k payload now, events !! k = Some (payload, now) ->
  acknowledged (envelope (start + Z.of_nat k) payload now) db.

Lemma numbered_keeps start events db db' :
  keeps db db' -> numbered start events db -> numbered start events db'.
Proof. intros Hk Hn k p now Hp. eapply acknowledged_keeps; [exact Hk | by apply Hn]. Qed.
Lemma numbered_cons start payload now events db :
  acknowledged (envelope start payload now) db -> numbered (start + 1) events db ->
  numbered start ((payload, now) :: events) db.
Proof.
  intros Ha Hn [|k] p n Hk; simpl in Hk; [injection Hk as <- <-; by rewrite Z.add_0_r|].
  replace (start + Z.of_nat (S k)) with (start + 1 + Z.of_nat k) by lia. by apply Hn.
Qed.

Definition manifest_ok (m : list ArtifactDescriptor) : Prop := NoDup (ad_logical_key <$> m).
Lemma record_manifest_ok m d : manifest_ok m -> manifest_ok (record_manifest_entry m d).2.
Proof.
  intros Hm. unfold record_manifest_entry. destruct (List.find _ m) eqn:Ef; [done|].
  unfold manifest_ok. simpl. rewrite fmap_app. apply NoDup_app. split_and!; [done| |apply NoDup_singleton].
  intros k Hk. apply list_elem_of_fmap in Hk as (e & -> & He). intros Hin.
  apply list_elem_of_singleton in Hin. apply list_elem_of_In in He.
  pose proof (find_none _ _ Ef e He) as Hne. simpl in Hne. unfold rstr_eqb in Hne.
  by rewrite bool_decide_eq_false in Hne.
Qed.

Lemma put_state key file net now up s db r s' db' :
  put state peer a key file net now up s db = (r, s', db') ->
  es_reliable s' = es_reliable s /\ es_delivery_error s' = es_delivery_error s
  /\ (manifest_ok (es_manifest s) -> manifest_ok (es_manifest s')).
Proof.
  unfold put. destruct file as [[size sha]|]; [|intros; by simplify_eq].
  destruct (serve _ _ _) as [[grant|] db1]; [|intros; by simplify_eq].
  destruct up; simpl; [|intros; by simplify_eq].
  set (d := {| ad_key := _ |}). pose proof (record_manifest_ok (es_manifest s) d) as Hm.
  destruct (record_manifest_entry _ _). intros; by simplify_eq.
Qed.

(** A delivery error is final: without a lost lease, nothing is reported. *)
Lemma drive_failed steps s db o s' db' e :
  forallb step_keeps_lease steps = true -> es_delivery_error s = Some e ->
  drive state peer a steps s db <> (Some (Ok o), s', db').
Proof.
  revert s db. induction steps as [|d steps IH]; intros s db Hl He; [done|].
  simpl in Hl. apply andb_true_iff in Hl as [Hd Hl].
  destruct d as [label el lost now script| |p c net|key file net now up|t j c lost]; cbn [drive].
  - rewrite He. by apply IH.
  - by apply IH.
  - rewrite He. rewrite bool_decide_eq_true_2 by eauto. rewrite orb_true_r. by apply IH.
  - destruct (put _ _ _ _ _ _ _ _ _ _) as [[x s1] db1] eqn:Ep.
    apply put_state in Ep as (_ & Hs & _). apply IH; [done | congruence].
  - simpl in Hd. apply negb_true_iff in Hd as ->. rewrite He. destruct j, c; done.
Qed.

Lemma drive_finished steps s db o s' db' :
  drive state peer a steps s db = (Some (Ok o), s', db') -> finished_as steps o.
Proof.
  revert s db. induction steps as [|d steps IH]; intros s db Hd; [done|].
  assert (Hrest : forall s1 db1, drive state peer a steps s1 db1 = (Some (Ok o), s', db') ->
            finished_as (d :: steps) o).
  { intros s1 db1 Hd1. destruct (IH s1 db1 Hd1) as (t & lost & Hin & Ho). exists t, lost.
    split; [by right|done]. }
  destruct d as [label el lost now script| |p c net|key file net now up|t j c lost]; cbn [drive] in Hd;
    try by eapply Hrest.
  - destruct (es_delivery_error s), lost; try by eapply Hrest.
    destruct (phase _ _ _ _ _ _ _ _ _) as [[[[e|e]|] st] db1]; [by eapply Hrest..|done].
  - destruct (_ || _); [by eapply Hrest|]. destruct (serve _ _ _). by eapply Hrest.
  - destruct (put _ _ _ _ _ _ _ _ _ _) as [[x s1] db1]. by eapply Hrest.
  - exists t, lost. destruct j, c, lost, (es_delivery_error s); try done; simplify_eq/=;
      (split; [by left|done]).
Qed.

Lemma drive_reports steps s db o s' db' :
  drive state peer a steps s db = (Some (Ok o), s', db') ->
  forallb step_keeps_lease steps = true ->
  rl_unacknowledged (es_reliable s) = [] -> manifest_ok (es_manifest s) ->
  rl_unacknowledged (es_reliable s') = [] /\ manifest_ok (es_manifest s')
  /\ rl_next_seq (es_reliable s') = rl_next_seq (es_reliable s) + Z.of_nat (length (phases steps))
  /\ numbered (rl_next_seq (es_reliable s)) (phases steps) db'.
Proof.
  revert s db. induction steps as [|d steps IH]; intros s db Hd Hl Hu Hm; [done|].
  assert (Hskip : forall s1 db1, drive state peer a steps s1 db1 = (Some (Ok o), s', db') ->
    es_reliable s1 = es_reliable s -> manifest_ok (es_manifest s1) ->
    forallb step_keeps_lease steps = true ->
    rl_unacknowledged (es_reliable s') = [] /\ manifest_ok (es_manifest s')
    /\ rl_next_seq (es_reliable s') = rl_next_seq (es_reliable s) + Z.of_nat (length (phases steps))
    /\ numbered (rl_next_seq (es_reliable s)) (phases steps) db').
  { intros s1 db1 Hd1 Hr Hm1 Hl1. rewrite <- Hr in *.
    destruct (IH s1 db1 Hd1 Hl1 Hu Hm1) as (R1 & R2 & R3 & R4).
    by split_and!. }
  simpl in Hl. apply andb_true_iff in Hl as [Hk Hl].
  destruct d as [label el lost now script| |p c net|key file net now up|t j c lost];
    cbn [drive phases] in *; simpl in Hk.
  - apply negb_true_iff in Hk as ->.
    destruct (es_delivery_error s) as [e|] eqn:Ee; [by destruct (drive_failed _ _ _ _ _ _ e Hl Ee Hd)|].
    unfold phase in Hd. destruct (send _ _ _ _ _ _ _ _ _) as [[x st] db1] eqn:Es.
    apply send_one in Es as (_ & Hn & _ & Hok); [|done].
    destruct x as [[e|e]|]; [| by destruct (drive_failed _ (with_delivery_error _ _) _ _ _ _ _ Hl eq_refl Hd) | done].
    destruct (Hok e eq_refl) as (Hst & -> & Hack). pose proof Hd as Hreach.
    apply drive_reached, reached_keeps in Hreach.
    destruct (IH _ _ Hd Hl Hst Hm) as (R1 & R2 & R3 & R4).
    simpl in R3, R4. rewrite Hn in R3, R4. split_and!; try done.
    + rewrite R3. simpl. lia.
    + apply numbered_cons; [by eapply acknowledged_keeps | done].
  - by eapply Hskip.
  - destruct (_ || _); [by eapply Hskip|]. destruct (serve _ _ _) as [x db1]. by eapply Hskip.
  - destruct (put _ _ _ _ _ _ _ _ _ _) as [[x s1] db1] eqn:Ep.
    apply put_state in Ep as (Hr & _ & Hm1). eapply Hskip; eauto.
  - apply negb_true_iff in Hk as ->. destruct j, c, (es_delivery_error s); try done.
    simplify_eq/=. split_and!; try done. simpl. lia.
Qed.

Lemma retry_records r steps db response db' :
  retry_terminal state peer r steps db = (Some (Ok response), db') -> ledger_ok db ->
  (exists at_ t, db_attempts db' !! ai_attempt_id (ca_identity r) = Some at_
     /\ attempt_terminal (at_status at_) = true /\ at_terminal at_ = Some t
     /\ same_terminal t (submission_of r) = true)
  /\ (forall d, d ∈ ca_artifacts r -> promoted_as (ai_attempt_id (ca_identity r)) d db').
Proof.
  revert db. induction steps as [|c steps IH]; intros db; simpl; [done|].
  destruct (serve _ _ _) as [x db1] eqn:Es. intros Hr Hok.
  pose proof (serve_reached_eq (fun _ => True) _ _ _ _ _ (complete_obeys _ _ _) Es) as Hreach.
  destruct x as [ok|err].
  - simplify_eq. destruct (cp_net c) as [|calls answered]; simpl in Es; [done|].
    destruct (complete _ _ _ _) as [[y|] w] eqn:Ec; destruct answered; simplify_eq/=.
    apply complete_record in Ec as [(at_ & t & Ha & Ht & Hat & _ & Hs) Hp]. split; [|by intros d Hd; apply Hp].
    exists at_, t. split_and!; try done. by apply Hs.
  - destruct (is_non_retryable err); [done|]. destruct (cp_shutdown c); [done|].
    apply (IH db1 Hr). by eapply reached_ledger.
Qed.

(** The record of an execution's report. *)
Definition recorded (seq : Z) (outcome : TerminalOutcome) (manifest : list ArtifactDescriptor)
    (db : FleetDb) : Prop :=
  (exists at_ t, db_attempts db !! id = Some at_ /\ attempt_terminal (at_status at_) = true
     /\ at_terminal at_ = Some t /\ tr_reliable_seq t = as_i64 seq
     /\ value_eqb (to_value (tr_outcome t)) (to_value outcome) = true
     /\ tr_artifacts t = manifest)
  /\ (forall d, d ∈ manifest -> promoted_as id d db).

Lemma report_records x outcome s db drain s' db' :
  report state peer a x outcome s db = (Some (Ok drain), s', db') ->
  xs_lost_terminal x = false -> xs_lost_completion x = false ->
  rl_unacknowledged (es_reliable s) = [] -> ledger_ok db ->
  let seq := rl_next_seq (es_reliable s) in
  drain = xs_drain x /\ es_manifest s' = es_manifest s /\ recorded seq outcome (es_manifest s) db'
  /\ acknowledged (envelope seq (Event_Terminal (payload_digest outcome)) (xs_terminal x).1) db'
  /\ keeps db db'.
Proof.
  unfold report. intros Hr Hl1 Hl2 Hu Hok. destruct (xs_terminal x) as [now script].
  destruct (send _ _ _ _ _ _ _ _ _) as [[y st] db1] eqn:Es. pose proof Es as Hreach.
  apply send_reached in Hreach. apply send_one in Es as (Hk & _ & _ & Hsent); [|done].
  rewrite Hl1, Hl2 in Hr. destruct y as [[e|e]|]; [|done..].
  destruct (Hsent e eq_refl) as (_ & -> & Hack).
  destruct (validate _); [|done]. destruct (retry_terminal _ _ _ _ _) as [[[resp|]|] db2] eqn:Et;
    [|done..]. pose proof (retry_reached _ _ _ _ _ _ _ _ (complete_obeys _ _ _) Et) as Hreach2.
  apply retry_records in Et as [(at_ & t & Ha & Ht & Hat & Hs) Hp]; [|by eapply reached_ledger].
  simpl in Hr. destruct (car_accepted resp); [|done]. simplify_eq/=. unfold same_terminal in Hs.
  bool_hyps. split_and!; try done.
  - split; [|done]. exists at_, t. split_and!; try done. simpl in *. lia.
  - eapply acknowledged_keeps; [by eapply reached_keeps | done].
  - eapply keeps_trans; by eapply reached_keeps.
Qed.

(** The driver ran and was torn down, or cancellation came before it started. *)
Definition outcome_known (x : ExecutionScript) (outcome : TerminalOutcome)
    (events : list (ReliableEventPayload * Z)) : Prop :=
  (events = phases (xs_driver x) /\ finished_as (xs_driver x) outcome)
  \/ (events = [] /\ outcome = Outcome_Cancelled (lit "orchestrator requested cancellation")
      /\ exists c, c ∈ xs_credential x /\ cs_cancelled c || cs_sleep_cancelled c = true).

Lemma fetch_cancelled steps db db' :
  fetch_repository_credential state peer a steps db = (Some (Ok Fetch_Cancelled), db') ->
  exists c, c ∈ steps /\ cs_cancelled c || cs_sleep_cancelled c = true.
Proof.
  revert db. induction steps as [|c steps IH]; intros db; simpl; [done|].
  destruct (serve _ _ _) as [y db1]. destruct (cs_cancelled c) eqn:E1.
  { intros _. exists c. rewrite E1. split; [by left|done]. }
  destruct y as [resp|err]; [unfold ensure; by destruct (_ <? _)|].
  destruct (is_non_retryable err); [done|]. destruct (cs_sleep_cancelled c) eqn:E2.
  { intros _. exists c. rewrite E2, orb_true_r. split; [by left|done]. }
  intros Hr. destruct (IH _ Hr) as (d & Hd & He). exists d. split; [by right|done].
Qed.

Lemma numbered_snoc start events payload now db :
  numbered start events db ->
  acknowledged (envelope (start + Z.of_nat (length events)) payload now) db ->
  numbered start (events ++ [(payload, now)]) db.
Proof.
  intros Hn Ha k p n Hk. apply lookup_app_Some in Hk as [Hk|[Hge Hk]]; [by apply Hn|].
  apply list_lookup_singleton_Some in Hk as [Hk [= <- <-]].
  by replace (Z.of_nat k) with (Z.of_nat (length events)) by lia.
Qed.

(** The report after the events of the execution. *)
Lemma reported_after x outcome events first s db drain s' db' :
  report state peer a x outcome s db = (Some (Ok drain), s', db') ->
  xs_lost_terminal x = false -> xs_lost_completion x = false -> ledger_ok db ->
  rl_unacknowledged (es_reliable s) = [] ->
  rl_next_seq (es_reliable s) = 2 + Z.of_nat (length events) ->
  acknowledged (envelope 1 first.1 first.2) db -> numbered 2 events db -> manifest_ok (es_manifest s) ->
  drain = xs_drain x
  /\ numbered 1 (first :: events ++ [(Event_Terminal (payload_digest outcome), (xs_terminal x).1)]) db'
  /\ recorded (2 + Z.of_nat (length events)) outcome (es_manifest s') db'
  /\ NoDup (ad_logical_key <$> es_manifest s').
Proof.
  intros Hr Hl1 Hl2 Hok Hu Hn Hfirst Hev Hm.
  destruct (report_records _ _ _ _ _ _ _ Hr Hl1 Hl2 Hu Hok) as (-> & Hms & Hrec & Hack & Hk).
  rewrite Hms, <- Hn. split_and!; try done. destruct first as [payload now].
  apply numbered_cons; [by eapply acknowledged_keeps|].
  apply numbered_snoc; [by eapply numbered_keeps | by rewrite Hn in Hack].
Qed.

(** C27: A report is what the daemon records.  A worker executes an assignment, over
    any network and among any other transactions, keeps its lease and returns
    normally.  Then its reliable events (the acceptance, every phase of the driver
    and the terminal event) are stored and acknowledged under consecutive numbers
    from one; the attempt is finished with the outcome of the driver (or with a
    cancellation that came before it started) under the terminal event's number;
    the recorded manifest is the sink's, which binds no logical key twice, and
    every object of it is promoted. *)
Theorem execution_reported x db drain s db' :
  execute_assignment state peer config a x db = (Some (Ok drain), s, db') ->
  keeps_lease x = true -> ledger_ok db ->
  exists outcome events, outcome_known x outcome events /\ drain = xs_drain x
  /\ numbered 1 ((Event_Phase (lit "accepted") ((xs_accepted x).1.1 mod 2 ^ 64), (xs_accepted x).1.2)
                  :: events ++ [(Event_Terminal (payload_digest outcome), (xs_terminal x).1)]) db'
  /\ recorded (2 + Z.of_nat (length events)) outcome (es_manifest s) db'
  /\ NoDup (ad_logical_key <$> es_manifest s).
Proof.
  unfold execute_assignment, keeps_lease. intros Hr Hk Hok. bool_hyps.
  repeat match goal with E : _ x = _ |- _ => rewrite E in Hr end. simpl in Hr.
  destruct (xs_accepted x) as [[elapsed now] script].
  destruct (phase _ _ _ _ _ _ _ _ _) as [[y st] db1] eqn:Ep. unfold phase in Ep.
  pose proof Ep as R1. apply send_reached in R1.
  apply send_one in Ep as (_ & Hn & _ & Hsent); [|done].
  destruct y as [[e|e]|]; [|done..]. destruct (Hsent e eq_refl) as (Hu & -> & Hack).
  destruct (fetch_repository_credential _ _ _ _ _) as [cred db2] eqn:Ef.
  pose proof (fetch_reached _ _ _ _ _ _ _ Ef) as R2.
  assert (Hok2 : ledger_ok db2) by (eapply reached_ledger; [exact R2|]; by eapply reached_ledger).
  apply (acknowledged_keeps _ _ db2) in Hack; [|by eapply reached_keeps].
  destruct cred as [[[token|]|]|]; [| |done..].
  - unfold execute_driver in Hr. destruct (execution_request _ _ _); [|done].
    destruct (drive _ _ _ _ _ _) as [[z s3] db3] eqn:Ed. pose proof (drive_reached _ _ _ _ _ _ _ _ _ Ed) as R3.
    destruct z as [[outcome|]|]; [|done..]. pose proof (drive_finished _ _ _ _ _ _ Ed) as Hfin.
    apply drive_reports in Ed as (Hu3 & Hm3 & Hn3 & Hnum); [|done|done|apply NoDup_nil_2].
    exists outcome, (phases (xs_driver x)). split; [by left|]. simpl in Hn3, Hnum. rewrite Hn in Hn3, Hnum.
    eapply (reported_after x outcome _ (_, _)); try done.
    + by eapply reached_ledger.
    + simpl. eapply acknowledged_keeps; [by eapply reached_keeps | exact Hack].
  - exists (Outcome_Cancelled (lit "orchestrator requested cancellation")), [].
    apply fetch_cancelled in Ef. split; [by right|].
    eapply (reported_after x _ [] (_, _)); try done; [apply NoDup_nil_2].
Qed.

(** The completion of an outcome. *)
Definition completes_with (outcome : TerminalOutcome) (o : FleetOp) : Prop :=
  exists env worker sub, o = Op_Terminal env worker (as_identity a) sub /\ ts_outcome sub = outcome.

Lemma complete_obeys_outcome e outcome manifest :
  obeys (fun o => silent o \/ completes_with outcome o)
    (complete state peer (completion_request a e outcome manifest)).
Proof.
  unfold complete, authorize_attempt. svc_obeys; try apply obeys_authorize; try apply obeys_lift.
  all: try (by apply obeys_verify_uploads; left); try (by apply obeys_promote; left).
  store_op. intros env. right. by eexists _, _, _.
Qed.

Lemma retry_reached_outcome e outcome manifest steps db x db' :
  retry_terminal state peer (completion_request a e outcome manifest) steps db = (x, db') ->
  reached (fun o => silent o \/ completes_with outcome o) (map cp_net steps) db db'.
Proof. apply retry_reached, complete_obeys_outcome. Qed.

Lemma report_reached x outcome s db r s' db' :
  report state peer a x outcome s db = (r, s', db') ->
  reached (fun o => silent o \/ completes_with outcome o)
    (map dv_net (xs_terminal x).2 ++ map cp_net (xs_completion x)) db db'.
Proof.
  unfold report. destruct (xs_terminal x) as [now script]. simpl.
  destruct (send _ _ _ _ _ _ _ _ _) as [[y st] db1] eqn:Es. apply send_reached in Es.
  apply (reached_weaken _ (fun o => silent o \/ completes_with outcome o)) in Es; [|by left].
  assert (Hstop : forall z, (z, with_reliable st s, db1) = (r, s', db') ->
            reached (fun o => silent o \/ completes_with outcome o)
              (map dv_net script ++ map cp_net (xs_completion x)) db db').
  { intros z [= _ _ <-]. by apply reached_prefix. }
  destruct y as [sent|]; [|apply Hstop]. destruct (xs_lost_terminal x); [apply Hstop|].
  destruct sent as [e|e]; [|apply Hstop]. destruct (validate _); [|apply Hstop].
  destruct (retry_terminal _ _ _ _ _) as [answer db2] eqn:Et. apply retry_reached_outcome in Et.
  intros Hr. assert (db2 = db') as -> by (by repeat case_match; simplify_eq).
  by eapply reached_app.
Qed.

(** The transactions a worker's own calls may run. *)
Definition teardown_first (x : ExecutionScript) (o : FleetOp) : Prop :=
  silent o \/ exists outcome events, outcome_known x outcome events /\ completes_with outcome o.

Lemma executed_reached x db r s db' :
  execute_assignment state peer config a x db = (r, s, db') ->
  reached (teardown_first x) (script_nets x) db db'.
Proof.
  assert (Hs : forall script d d', reached silent script d d' -> reached (teardown_first x) script d d').
  { intros script d d'. apply reached_weaken. by left. }
  unfold execute_assignment, script_nets. destruct (xs_confirmed x); simpl;
    [|intros; simplify_eq; apply reached_nil].
  destruct (xs_accepted x) as [[elapsed now] script]. simpl.
  destruct (phase _ _ _ _ _ _ _ _ _) as [[y st] db1] eqn:Ep. unfold phase in Ep.
  apply send_reached, Hs in Ep.
  assert (Hstop : forall rest z t, (z, t, db1) = (r, s, db') -> reached (teardown_first x)
            (map dv_net script ++ rest) db db').
  { intros rest z t [= _ _ <-]. by apply reached_prefix. }
  destruct y as [accepted|]; [|apply Hstop]. destruct (xs_lost_accepted x); [apply Hstop|].
  destruct accepted as [e|e]; [clear Hstop|apply Hstop].
  destruct (fetch_repository_credential _ _ _ _ _) as [cred db2] eqn:Ef.
  pose proof (reached_app _ _ _ _ _ _ Ep (Hs _ _ _ (fetch_reached _ _ _ _ _ _ _ Ef))) as R2.
  rewrite !app_assoc, <- (app_assoc _ (map dv_net (xs_terminal x).2)).
  set (tail := map dv_net (xs_terminal x).2 ++ _).
  set (steps := concat (map step_nets (xs_driver x))).
  assert (Hstop : forall z t, (z, t, db2) = (r, s, db') -> reached (teardown_first x)
            (((map dv_net script ++ map cs_net (xs_credential x)) ++ steps) ++ tail) db db').
  { intros z t [= _ _ <-]. by do 2 apply reached_prefix. }
  assert (Hreport : forall outcome events t db3, reached (teardown_first x) steps db2 db3 ->
            outcome_known x outcome events -> report state peer a x outcome t db3 = (r, s, db') ->
            reached (teardown_first x)
              (((map dv_net script ++ map cs_net (xs_credential x)) ++ steps) ++ tail) db db').
  { intros outcome events t db3 R3 Hk Hr. apply report_reached in Hr.
    eapply reached_app; [by eapply reached_app|]. eapply reached_weaken; [|exact Hr].
    intros o [Ho|Ho]; [by left|]. right. eauto. }
  destruct cred as [[[token|]|]|]; [| |apply Hstop..].
  - unfold execute_driver. destruct (execution_request _ _ _); [|apply Hstop].
    destruct (drive _ _ _ _ _ _) as [[z s3] db3] eqn:Ed. pose proof (Hs _ _ _ (drive_reached _ _ _ _ _ _ _ _ _ Ed)) as R3.
    assert (Hend : forall z t, (z, t, db3) = (r, s, db') -> reached (teardown_first x)
              (((map dv_net script ++ map cs_net (xs_credential x)) ++ steps) ++ tail) db db').
    { intros ? ? [= _ _ <-]. apply reached_prefix. by eapply reached_app. }
    destruct z as [[outcome|]|]; [|apply Hend..]. destruct (xs_lost_driver x); [apply Hend|].
    intros Hr. eapply (Hreport outcome (phases (xs_driver x))); [exact R3| |exact Hr].
    left. split; [done|]. by eapply drive_finished.
  - destruct (xs_lost_driver x); [apply Hstop|]. intros Hr.
    eapply (Hreport _ []); [apply reached_nil| |exact Hr]. right. apply fetch_cancelled in Ef. done.
Qed.

(** C28: Nothing is reported before the teardown.  However an execution goes (lost
    leases, refused calls, a driver that dies, a run that is still going on), the
    only completion that the worker's own calls bring to the store is that of its
    assignment with the outcome of a driver run that ended, was joined and whose
    resources were verified as cleaned up, or with the cancellation that came
    before the driver started. *)
Theorem report_after_teardown x db r s db' :
  execute_assignment state peer config a x db = (r, s, db') ->
  exists ops, db' = run ops db
  /\ Forall (fun o => o ∈ script_others (script_nets x) \/ silent o
              \/ exists outcome events, outcome_known x outcome events /\ completes_with outcome o) ops.
Proof.
  intros Hr. apply executed_reached in Hr as (ops & -> & Hf). exists ops. split; [done|].
  eapply Forall_impl; [exact Hf|]. intros o [[Ho|Ho]|Ho]; auto.
Qed.
End Reported.

(** ** A concrete execution *)
Definition demo_minting : ServiceEnv :=
  {| hmac_sha256 := fun _ m => map (fun b => Z.land b 255) m;
     mint_repository_read_token := fun _ _ => Some (lit "token", 1700000100000);
     json_from_slice := fun _ => None |}.
Definition demo_staging : ArtifactStore :=
  {| fleet_put_grant := fun key _ _ _ => Some {| agr_method := lit "PUT"; agr_key := key;
       agr_url := lit "https://s"; agr_headers := []; agr_expires_at_ms := 1700000100000 |};
     fleet_get_grant := fun _ _ => None;
     verify_fleet_upload := fun _ => true; promote_fleet_upload := fun _ => true;
     delete_fleet_staging := fun _ => true; archived := fun _ => None;
     run_metric := fun _ => None |}.
Definition demo_assignment : Assignment :=
  {| as_identity := demo_signed demo_attempt 1; as_trace_id := 502;
     as_context := {| ac_job_id := demo_job; ac_repository := lit "o/r"; ac_commit := repeat 97 40 |};
     as_payload := Task_BuildOnly; as_payload_hash := repeat 97 64; as_vcpu_cpuset := None |}.
Definition demo_served (t : Z) (n : nat) : Net := Net_Served (repeat (Call_Runs [] (at_time t)) n) true.
Definition demo_key_of (name : string) : rstr := uuid_string demo_job ++ lit "/" ++ lit name.

(** Calls are lost and repeated; the log is
    uploaded twice. *)
Definition demo_execution : ExecutionScript :=
  {| xs_confirmed := true;
     xs_accepted := (5, 1700000000000, demo_attempts 100); xs_lost_accepted := false;
     xs_credential :=
       [{| cs_cancelled := false; cs_net := Net_Lost; cs_now := 1700000000010; cs_sleep_cancelled := false |};
        {| cs_cancelled := false; cs_net := demo_served 110 3; cs_now := 1700000000010;
           cs_sleep_cancelled := false |}];
     xs_driver :=
       [Drive_Phase (lit "building") 0 false 1700000000020 (demo_attempts 120);
        Drive_Progress {| dp_workflow_step := Step_Run; dp_run_index := 0;
          dp_requested_run_count := 1; dp_phase := lit "p"; dp_progress := 1; dp_total := None;
          dp_message := None |} false Net_Lost;
        Drive_Heartbeat (lit "building") 10;
        Drive_Put (demo_key_of "log") (Some (3, demo_hash)) (demo_served 130 3) 130 true;
        Drive_Put (demo_key_of "log") (Some (3, demo_hash)) (demo_served 131 3) 131 true;
        Drive_Finished (Term_SetupError (lit "no disk")) true true false];
     xs_lost_driver := false;
     xs_terminal := (1700000000030, demo_attempts 200); xs_lost_terminal := false;
     xs_completion :=
       [{| cp_net := Net_Lost; cp_shutdown := false |};
        {| cp_net := demo_served 300 6; cp_shutdown := false |}];
     xs_lost_completion := false; xs_drain := true |}.
Definition demo_executed :=
  @execute_assignment demo_digest demo_minting demo_staging demo_state demo_key demo_worker_config
    demo_assignment demo_execution demo_running.
Definition demo_execution_result : option bool * nat :=
  (match demo_executed.1.1 with Some (Ok b) => Some b | _ => None end,
   length (es_manifest demo_executed.1.2)).
Lemma demo_execution_returns : demo_execution_result = (Some true, 1%nat).
Proof. vm_compute. reflexivity. Qed.
Lemma demo_keeps_lease : keeps_lease demo_execution = true.
Proof. reflexivity. Qed.

Lemma execution_reported_witness :
  exists s db', demo_executed = (Some (Ok true), s, db') /\ length (es_manifest s) = 1%nat
  /\ exists outcome events, outcome_known demo_execution outcome events
     /\ recorded demo_assignment (2 + Z.of_nat (length events)) outcome (es_manifest s) db'.
Proof.
  pose proof demo_execution_returns as Hd. unfold demo_execution_result in Hd.
  destruct demo_executed as [[r s] db'] eqn:He. simpl in Hd.
  destruct r as [[b|]|]; [|discriminate Hd..]. injection Hd as -> Hn. exists s, db'.
  split; [reflexivity|]. split; [exact Hn|].
  destruct (@execution_reported demo_digest demo_minting demo_staging demo_state demo_key
    demo_worker_config demo_assignment demo_execution demo_running true s db' He demo_keeps_lease
    (@after_ledger demo_digest _ _ _)) as (outcome & events & Hk & _ & _ & Hr & _).
  exists outcome, events. split; [exact Hk | exact Hr].
Defined.

Lemma report_after_teardown_witness :
  exists ops, demo_executed.2 = @run demo_digest ops demo_running
  /\ Forall (fun o => o ∈ script_others (script_nets demo_execution) \/ silent o
              \/ exists outcome events, outcome_known demo_execution outcome events
                 /\ completes_with demo_assignment outcome o) ops.
Proof.
  destruct demo_executed as [[r s] db'] eqn:He.
  exact (@report_after_teardown demo_digest demo_minting demo_staging demo_state demo_key
    demo_worker_config demo_assignment demo_execution demo_running r s db' He).
Defined.
