(* ===== verification/FleetFindings.v ===== *)
(** * An offer that expires unswept

    [poll_offer] ignores an offer past its deadline and makes another one, while
    the sweep later ends the session of every expired offer.  The execution
    accepted in between then belongs to an ended session, and completing it would
    write a live status next to [ended_at], which the table's [CHECK] refuses. *)
From stdpp Require Import base list strings gmap relations.
From Stdlib Require Import ZArith Lia.
From S2P Require Import Prelude RustStr Json FleetModel Negotiation Validate FleetDb.
From S2P Require Import FleetSessions FleetScheduling FleetEvents FleetAdmin FleetSpec.
From S2P Require Import FleetRefine FleetSystem FleetDemo FleetSafety FleetRetry.

Local Open Scope Z_scope.

Section EndedSession.
Context `{DigestEnv}.

End EndedSession.




