(* ===== verification/FleetRegistration.v ===== *)
(** * Session registration

    What a successful registration establishes: the negotiated contract, the
    effective capabilities, and that the worker's earlier sessions are over. *)
From stdpp Require Import base list strings gmap relations.
From Stdlib Require Import ZArith Lia.
From S2P Require Import Prelude RustStr Json FleetModel Negotiation Validate FleetDb.
From S2P Require Import FleetSessions FleetScheduling FleetEvents FleetAdmin FleetSpec.
From S2P Require Import FleetRefine FleetSystem FleetDemo FleetSafety FleetRetry FleetSweep.

Local Open Scope Z_scope.

Section Fencing.
Context (env : TxEnv).

Lemma retire_status to dr reason id a db b :
  db_attempts db !! id = Some b ->
  attempt_status_of id (retire_attempt env to dr reason id a db) = Some to.
Proof.
  intros Hb. unfold attempt_status_of, retire_attempt, insert_obligation.
  repeat case_match; simpl; by rewrite !lookup_alter_eq, Hb.
Qed.

Lemma retire_sessions to dr reason id a db :
  db_sessions (retire_attempt env to dr reason id a db) = db_sessions db.
Proof. unfold retire_attempt, insert_obligation. by repeat case_match. Qed.

(** Fencing a list of attempts fences them all and nothing else. *)
Lemma fence_attempts_spec l db :
  NoDup (map fst l) -> (forall id, id ∈ map fst l -> is_Some (db_attempts db !! id)) ->
  (forall id, id ∉ map fst l ->
     db_attempts (fence_attempts env l db) !! id = db_attempts db !! id)
  /\ (forall id, id ∈ map fst l ->
        attempt_status_of id (fence_attempts env l db) = Some A_Fenced)
  /\ db_sessions (fence_attempts env l db) = db_sessions db.
Proof.
  revert db. induction l as [|[id a] l IH]; intros db Hnd Hall.
  - split_and!; try done. intros id Hid. by apply not_elem_of_nil in Hid.
  - inversion Hnd as [|? ? Hni Hnd']; subst.
    set (db1 := retire_attempt env A_Fenced (lit "predecessor worker session was fenced")
                  (lit "worker process registered a successor session") id a db).
    change (fence_attempts env ((id, a) :: l) db) with (fence_attempts env l db1).
    assert (Hne : forall k, k <> id -> db_attempts db1 !! k = db_attempts db !! k)
      by (intros k Hk; by apply retire_attempts_ne).
    destruct (IH db1 Hnd') as (H1 & H2 & H3).
    { intros k Hk. rewrite Hne by (intros ->; done). apply Hall. by right. }
    split_and!.
    + intros k Hk. apply not_elem_of_cons in Hk as [Hk Hkl]. rewrite (H1 k Hkl). by apply Hne.
    + intros k Hk. apply elem_of_cons in Hk as [->|Hk]; [|by apply H2].
      destruct (Hall id ltac:(left)) as [b Hb].
      etrans; [exact (f_equal (fmap at_status) (H1 id Hni)) | by eapply retire_status].
    + rewrite H3. apply retire_sessions.
Qed.

(** The predecessors' attempts are all fenced. *)
Lemma predecessors_fenced worker session db id a :
  let db' := fence_attempts env (predecessor_attempts worker session db) db in
  db_attempts db' !! id = Some a -> ar_worker (at_row a) = worker ->
  attempt_active (at_status a) = true -> ar_session (at_row a) = session.
Proof.
  intros db' Ha Hw Hact.
  destruct (fence_attempts_spec (predecessor_attempts worker session db) db) as (H1 & H2 & _).
  - apply rows_NoDup.
  - intros k Hk. apply list_elem_of_fmap in Hk as ([k' b] & -> & Hin).
    apply elem_of_rows in Hin as [Hb _]. by exists b.
  - destruct (decide (id ∈ map fst (predecessor_attempts worker session db))) as [Hin|Hn].
    + specialize (H2 id Hin). unfold attempt_status_of in H2. fold db' in H2. rewrite Ha in H2.
      injection H2 as H2. by rewrite H2 in Hact.
    + unfold db' in Ha. rewrite (H1 id Hn) in Ha.
      destruct (Z.eq_dec (ar_session (at_row a)) session) as [|Hne]; [done|]. exfalso. apply Hn.
      apply list_elem_of_fmap. exists (id, a). split; [done|]. apply elem_of_rows.
      split; [done|]. rewrite Hact, (proj2 (Z.eqb_eq _ _) Hw).
      by rewrite (proj2 (Z.eqb_neq _ _) Hne).
Qed.
End Fencing.

(** Registration supersedes.  When a worker registers a session identifier
    that is new, the session becomes the worker's only live one; no active
    attempt of the worker belongs to any other session; its capabilities are the
    advertised ones the registry allows, and there is at least one; and its
    contract is the one negotiated from its offer at the current floor. *)
Theorem registration_supersedes env worker key r ttl db au db' :
  register_session env worker key r ttl db = Ok (au, db') ->
  db_sessions db !! rs_worker_session_id r = None ->
  let session := rs_worker_session_id r in
  (exists s, db_sessions db' !! session = Some s /\ session_live (ws_status s) = true
     /\ sr_worker (ws_row s) = worker /\ sr_contract (ws_row s) = au_contract au
     /\ ws_effective s = au_effective au)
  /\ (forall id s, db_sessions db' !! id = Some s -> sr_worker (ws_row s) = worker ->
        session_live (ws_status s) = true -> id = session)
  /\ (forall id a, db_attempts db' !! id = Some a -> ar_worker (at_row a) = worker ->
        attempt_active (at_status a) = true -> ar_session (at_row a) = session)
  /\ (exists w, db_workers db !! worker = Some w /\ wk_enabled w = true
        /\ au_effective au = rs_advertised_capabilities r ∩ wk_allowed w /\ au_effective au <> ∅)
  /\ (exists offer,
        ProtocolOffer_registration (rs_protocol_version r) (rs_protocol_offer r) = Ok offer
        /\ negotiate offer (pp_minimum_revision (db_protocol db)) = Ok (au_contract au)).
Proof.
  intros Hr Hnone session. unfold register_session in Hr.
  destruct (map_err InvalidRequest _); [|done].
  destruct (ProtocolOffer_registration _ _) as [offer|] eqn:Eo; [|done]. simpl in Hr.
  unfold lock_protocol_policy in Hr. head_case Hr Ef; [|done]. head_case Ef Ew; [|done].
  injection Ef as <-.
  destruct (negotiate offer _) as [contract|] eqn:En; [|done]. simpl in Hr.
  destruct (registered_worker worker key db) as [w|] eqn:Erw; [|done]. simpl in Hr.
  head_case Hr Een; [done|]. head_case Hr Eem; [done|]. rewrite Hnone in Hr.
  assert (Hw : db_workers db !! worker = Some w).
  { unfold registered_worker in Erw. destruct (db_workers db !! worker); [|done].
    destruct (db_identities db !! key); [|done]. destruct (_ && _); [|done]. congruence. }
  unfold register_new in Hr. fold session in Hr.
  match type of Hr with context [predecessor_attempts _ _ ?d] => set (db0 := d) in * end.
  set (db1 := fence_attempts env (predecessor_attempts worker session db0) db0) in *.
  set (db2 := end_sessions _ _ db1) in *.
  head_case Hr Es2; [done|]. destruct (put_session _ _ _) as [db3|] eqn:Ep; [|done].
  apply put_session_Ok in Ep as ->. injection Hr as <- <-. simpl.
  split_and!.
  - rewrite lookup_insert_eq. eexists. split_and!; try done. by destruct (wk_draining w).
  - intros id s Hs Hsw Hlive. destruct (Z.eq_dec id session) as [|Hne]; [done|]. exfalso.
    rewrite lookup_insert_ne in Hs by done. rewrite lookup_update_where in Hs.
    destruct (db_sessions db1 !! id) as [t|]; [|done]. simpl in Hs. injection Hs as Hs.
    head_case Hs Ec; [subst s; done|]. subst t. rewrite Hsw, Hlive, Z.eqb_refl in Ec.
    by rewrite (proj2 (Z.eqb_neq _ _) Hne) in Ec.
  - apply predecessors_fenced.
  - exists w. split_and!; try done; [by destruct (wk_enabled w)|]. by apply bool_decide_eq_false in Eem.
  - by exists offer.
Qed.

(** The worker of the running trace comes back with a new session. *)
Definition demo_successor : RegisterSessionRequest :=
  {| rs_preflight := None; rs_protocol_version := 2;
     rs_protocol_offer := Some ProtocolOffer_current; rs_worker_session_id := 11;
     rs_software_version := lit "1"; rs_advertised_capabilities := {[Cap_BuildOnly]};
     rs_resources := {| rf_logical_cpus := 4; rf_memory_bytes := 1024 |} |}.
Lemma demo_succeeds : db_sessions demo_running !! rs_worker_session_id demo_successor = None
  /\ exists au db', register_session (at_time 100) demo_worker demo_key demo_successor 100000
                      demo_running = Ok (au, db').
Proof.
  split; [vm_compute; reflexivity|].
  assert (E : is_ok (register_session (at_time 100) demo_worker demo_key demo_successor 100000
                       demo_running) = true) by (vm_compute; reflexivity).
  destruct (register_session _ _ _ _ _ _) as [[au d]|]; [|discriminate E].
  exists au, d. reflexivity.
Qed.
Lemma registration_supersedes_witness : exists db', forall id a,
  db_attempts db' !! id = Some a -> ar_worker (at_row a) = demo_worker ->
  attempt_active (at_status a) = true -> ar_session (at_row a) = 11.
Proof.
  destruct demo_succeeds as (Hn & au & db' & Hdb). exists db'.
  exact (proj1 (proj2 (proj2 (registration_supersedes (at_time 100) demo_worker demo_key
    demo_successor 100000 _ au db' Hdb Hn)))).
Defined.
