(* ===== verification/FleetGenerations.v ===== *)
(** * Generations of a recovered submission

    What [recover_submission] leaves behind: the prior generation holds no
    execution and owes no cleanup, and the next one starts from its first job
    under a higher fence. *)
From stdpp Require Import base list strings gmap.
From Stdlib Require Import ZArith Lia.
From S2P Require Import Prelude RustStr Json FleetModel Negotiation Validate FleetDb.
From S2P Require Import FleetSessions FleetScheduling FleetEvents FleetAdmin FleetRecovery.
From S2P Require Import FleetSpec FleetRefine FleetSystem FleetDemo FleetRetry.

Local Open Scope Z_scope.

Section Abandon.
Context (env : TxEnv) (submission : Uuid) (reason : rstr).

Definition cancel_if_running (j : Job) : Job :=
  if decide (jb_status j = J_Running) then with_job_status J_Cancelled j else j.

Lemma cancel_if_running_idem j : cancel_if_running (cancel_if_running j) = cancel_if_running j.
Proof. unfold cancel_if_running. by repeat case_decide. Qed.

Lemma abandon_job_jobs job db k :
  db_jobs (abandon_job submission reason job db) !! k
  = (fun j => if job =? k then cancel_if_running j else j) <$> db_jobs db !! k.
Proof.
  unfold abandon_job, cancel_if_running. destruct (Z.eqb_spec job k) as [<-|Hne].
  - destruct (db_jobs db !! job) as [j|] eqn:Hj; simpl; [|by rewrite Hj].
    case_decide; simpl; [by rewrite lookup_insert_eq | by rewrite Hj].
  - repeat case_match; simpl; rewrite ?lookup_insert_ne by done; by destruct (db_jobs db !! k).
Qed.

Lemma abandon_fold_jobs l db k :
  db_jobs (foldl (waive env submission reason) db l) !! k
  = (fun j => if existsb (fun e => ob_job e.2 =? k) l then cancel_if_running j else j)
      <$> db_jobs db !! k.
Proof.
  revert db. induction l as [|[ob o] l IH]; intros db; simpl; [by destruct (db_jobs db !! k)|].
  rewrite IH. unfold waive. rewrite abandon_job_jobs. simpl.
  destruct (db_jobs db !! k) as [j|]; simpl; [|done].
  by destruct (ob_job o =? k), (existsb _ l); rewrite ?cancel_if_running_idem.
Qed.

(** The job of an owed obligation is cancelled if it was running. *)
Lemma abandon_jobs db k :
  db_jobs (abandon_cleanup env submission reason db) !! k
  = (fun j => if exists_row (fun _ o => owed submission db o && (ob_job o =? k)) (db_obligations db)
              then cancel_if_running j else j) <$> db_jobs db !! k.
Proof.
  rewrite abandon_cleanup_waive, abandon_fold_jobs. destruct (db_jobs db !! k) as [j|]; [|done].
  simpl. f_equal. match goal with |- context [existsb ?f ?l] =>
    replace (existsb f l) with (exists_row (fun _ o => owed submission db o && (ob_job o =? k))
      (db_obligations db)); [done|] end.
  apply eq_true_iff_eq. rewrite exists_row_true, existsb_exists. split.
  - intros (ob & o & Ho & Hp). bool_hyps. exists (ob, o). split; [|done].
    by apply list_elem_of_In, elem_of_rows.
  - intros ([ob o] & Hin & Hp). apply list_elem_of_In, elem_of_rows in Hin as [Ho Hw].
    exists ob, o. split; [done|]. by apply andb_true_iff.
Qed.

Lemma abandon_obligations db :
  db_obligations (abandon_cleanup env submission reason db)
  = update_where (fun _ o => owed submission db o)
      (with_obligation_status C_Abandoned (tx_now env)) (db_obligations db).
Proof.
  unfold abandon_cleanup.
  generalize (rows (fun _ o => owed submission db o) (db_obligations db)). intros l.
  induction l as [|[ob o] l IH] using rev_ind; [done|]. rewrite foldl_app. simpl.
  by rewrite (proj1 (abandon_job_frame _ _ _ _)).
Qed.
End Abandon.

Section Generations.
Context `{DigestEnv} (scheduler : SchedulerPolicy) (protocol : ProtocolPolicy).
Notation after := (fleet_after scheduler protocol).

(** Without active attempts of the submission, its jobs are queued, finished, or
    waiting for cleanup. *)
Lemma job_at_rest db submission job j :
  fleet_ok db ->
  exists_row (fun _ a => (ar_submission (at_row a) =? submission)
                && attempt_active (at_status a)) (db_attempts db) = false ->
  db_jobs db !! job = Some j -> jr_submission (jb_row j) = submission ->
  jb_status j <> J_Claimed
  /\ (jb_status j = J_Running ->
      exists_row (fun _ o => owed submission db o && (ob_job o =? job)) (db_obligations db) = true).
Proof.
  intros [Hlife _] Hidle Hj Hsub. rewrite exists_row_false in Hidle.
  pose proof (lookup_view job_view _ _ _ Hj) as Hv.
  assert (Hno : forall id la, lf_attempts (lifecycle_of db) !! id = Some la -> la_job la = job ->
            ~ la_active la).
  { intros id la Hla Hjob Hact.
    destruct (li_active _ Hlife id la Hla Hact) as (lj & Hlj & Hs & _).
    apply lookup_view_inv in Hla as (a & Ha & ->). simpl in Hjob, Hs, Hlj.
    rewrite Hjob in Hlj. simpl in Hv. rewrite Hv in Hlj. simplify_eq. simpl in Hs.
    specialize (Hidle id a Ha). unfold la_active in Hact. simpl in Hact.
    rewrite Hact, <- Hs, Z.eqb_refl in Hidle. done. }
  split.
  - intros Hc. destruct (li_claimed _ Hlife job _ Hv Hc) as (id & la & Hla & Hjob & Ho).
    apply (Hno id la Hla Hjob). unfold la_active. by rewrite Ho.
  - intros Hr. destruct (li_running _ Hlife job _ Hv Hr)
      as [(id & la & Hla & Hjob & He)|(ob & c & Hc & Hjob & Hp)].
    + exfalso. apply (Hno id la Hla Hjob). by apply executing_active.
    + apply lookup_view_inv in Hc as (o & Ho & ->). simpl in Hjob, Hp.
      apply exists_row_true. exists ob, o. split; [done|]. unfold owed.
      rewrite Hjob, Hj, Z.eqb_refl, bool_decide_eq_true_2 by done. simpl.
      by rewrite Hsub, Z.eqb_refl.
Qed.

Lemma move_slack_frame old new slack db :
  db_jobs (move_slack old new slack db) = db_jobs db
  /\ db_obligations (move_slack old new slack db) = db_obligations db
  /\ (forall k, with_slack None <$> db_submissions (move_slack old new slack db) !! k
                = with_slack None <$> db_submissions db !! k).
Proof.
  unfold move_slack. destruct slack as [s|]; [|done]. simpl. split_and!; try done. intros k.
  destruct (decide (new = k)) as [<-|Hn]; [rewrite lookup_alter_eq|rewrite lookup_alter_ne by done];
    (destruct (decide (old = k)) as [<-|Ho] || destruct (decide (old = new)) as [<-|Ho]);
    rewrite ?lookup_alter_eq, ?lookup_alter_ne by done; by destruct (db_submissions db !! _).
Qed.

(** The copied job's original, in the database recovery started from. *)
Lemma first_job_original env submission reason ids sub f db old j :
  let db1 := abandon_cleanup env submission reason db in
  first_job submission (with_specs f (with_submissions <[rc_submission ids := sub]> db1))
    = Some (old, j) ->
  exists j0, db_jobs db !! old = Some j0 /\ jb_payload j = jb_payload j0
    /\ jb_commit j = jb_commit j0.
Proof.
  intros db1 Hf. apply first_by_elem, elem_of_rows in Hf as [Hj _]. simpl in Hj.
  unfold db1 in Hj. rewrite abandon_jobs in Hj.
  destruct (db_jobs db !! old) as [j0|]; [|done]. simpl in Hj. simplify_eq.
  exists j0. unfold cancel_if_running. by repeat case_match.
Qed.

(** The jobs after recovery: the copied one, and the old ones with those that
    still owed a cleanup cancelled. *)
Lemma recovered_jobs env ids submission target reason db r db' :
  recover_submission env ids submission target reason db = Ok (r, db') ->
  db_jobs db !! sv_first_job r = None
  /\ forall k j, db_jobs db' !! k = Some j ->
     (k = sv_first_job r /\ jr_submission (jb_row j) = sv_new_submission r)
     \/ (k <> sv_first_job r
         /\ (fun j => if exists_row (fun _ o => owed submission db o && (ob_job o =? k))
                           (db_obligations db)
                      then cancel_if_running j else j) <$> db_jobs db !! k = Some j).
Proof.
  intros Hr. apply recover_cases in Hr
    as (prior & f & old & j & _ & _ & _ & _ & Hj & -> & g & ->). simpl in Hj |- *.
  rewrite (proj1 (move_slack_frame _ _ _ _)). simpl. split.
  - rewrite abandon_jobs in Hj. by apply fmap_None in Hj.
  - intros k j' Hk. destruct (decide (rc_job ids = k)) as [<-|Hne].
    + rewrite lookup_insert_eq in Hk. simplify_eq. by left.
    + rewrite lookup_insert_ne, abandon_jobs in Hk by done. right. by split.
Qed.

Lemma recovered_obligations env ids submission target reason db r db' :
  recover_submission env ids submission target reason db = Ok (r, db') ->
  db_obligations db' = update_where (fun _ o => owed submission db o)
    (with_obligation_status C_Abandoned (tx_now env)) (db_obligations db).
Proof.
  intros Hr. apply recover_cases in Hr as (prior & f & old & j & _ & _ & _ & _ & _ & -> & g & ->).
  rewrite (proj1 (proj2 (move_slack_frame _ _ _ _))). simpl. apply abandon_obligations.
Qed.

(** The submission rows after recovery, their Slack column aside. *)
Lemma recovered_submissions env ids submission target reason db r db' :
  recover_submission env ids submission target reason db = Ok (r, db') ->
  exists prior, db_submissions db !! submission = Some prior
  /\ db_submissions db !! sv_new_submission r = None
  /\ forall k, with_slack None <$> db_submissions db' !! k
       = with_slack None <$> <[sv_new_submission r := next_generation submission target prior]>
           (db_submissions db) !! k.
Proof.
  intros Hr. apply recover_cases in Hr as (prior & f & old & j & Hp & _ & Hs & _ & _ & -> & g & ->).
  destruct (abandon_cleanup_frame env submission reason db) as (_ & _ & He).
  simpl in Hs |- *. rewrite He in Hs. exists prior. split_and!; try done. intros k.
  rewrite (proj2 (proj2 (move_slack_frame _ _ _ _))). simpl. by rewrite He.
Qed.

(** Recovery hands over.  After an operator recovers a submission, the prior
    generation is at rest: each of its jobs is queued or finished, no cleanup of
    it is pending, and only jobs of it that were running were touched.  The next
    generation is a new submission under the next execution generation and a
    higher fence, placed on the requested worker, and its first job is queued
    with the commit and payload of a job of the prior generation. *)
Theorem recovery_hands_over trace env ids submission target reason r db' :
  let db := after trace in
  recover_submission env ids submission target reason db = Ok (r, db') ->
  (forall job j, db_jobs db' !! job = Some j -> jr_submission (jb_row j) = submission ->
     jb_status j = J_Queued \/ job_terminal (jb_status j) = true)
  /\ (forall ob o j, db_obligations db' !! ob = Some o -> ob_status o = C_Pending ->
        db_jobs db' !! ob_job o = Some j -> jr_submission (jb_row j) <> submission)
  /\ (forall job j, db_jobs db !! job = Some j ->
        jr_submission (jb_row j) <> submission \/ jb_status j <> J_Running ->
        db_jobs db' !! job = Some j)
  /\ (exists prior next, db_submissions db !! submission = Some prior
        /\ db_submissions db !! sv_new_submission r = None
        /\ db_submissions db' !! sv_new_submission r = Some next
        /\ sb_execution_generation next = sb_execution_generation prior + 1
        /\ sb_fencing_generation next = sb_fencing_generation prior + 1
        /\ sb_required_worker next = target)
  /\ (exists j old j0, db_jobs db' !! sv_first_job r = Some j /\ jb_status j = J_Queued
        /\ jr_submission (jb_row j) = sv_new_submission r /\ db_jobs db !! old = Some j0
        /\ jb_payload j = jb_payload j0 /\ jb_commit j = jb_commit j0).
Proof.
  intros db Hr. pose proof (after_ok scheduler protocol trace) as Hok. fold db in Hok.
  pose proof Hr as Hc. apply recover_cases in Hc
    as (prior & f & old & j & Hp & Hidle & _ & Hf & _ & Hrr & g & Hdb').
  destruct (recovered_jobs _ _ _ _ _ _ _ _ Hr) as [Hfresh Hjobs].
  destruct (recovered_submissions _ _ _ _ _ _ _ _ Hr) as (prior' & Hp' & Hnew & Hsubs).
  rewrite Hp in Hp'. simplify_eq Hp'. intros <-.
  assert (Hne : sv_new_submission r <> submission) by (intros Heq; rewrite Heq in Hnew; congruence).
  assert (Hcopy : db_jobs db' !! sv_first_job r = Some (copied_job env ids j)).
  { rewrite Hdb', (proj1 (move_slack_frame _ _ _ _)), Hrr. simpl. apply lookup_insert_eq. }
  assert (Hback : forall k j', db_jobs db' !! k = Some j' -> jr_submission (jb_row j') = submission ->
            exists j0, db_jobs db !! k = Some j0 /\ jr_submission (jb_row j0) = submission
            /\ j' = if exists_row (fun _ o => owed submission db o && (ob_job o =? k))
                         (db_obligations db) then cancel_if_running j0 else j0).
  { intros k j' Hk Hsub. destruct (Hjobs k j' Hk) as [[_ Hs]|[_ Hfm]]; [congruence|].
    apply fmap_Some in Hfm as (j0 & Hj0 & ->). exists j0. split_and!; try done.
    revert Hsub. unfold cancel_if_running. by repeat case_match. }
  split_and!.
  - intros job j' Hj' Hsub. destruct (Hback job j' Hj' Hsub) as (j0 & Hj0 & Hs0 & ->).
    destruct (job_at_rest db submission job j0 Hok Hidle Hj0 Hs0) as [Hcl Hrun].
    destruct (decide (jb_status j0 = J_Running)) as [Hrn|Hnr].
    + rewrite (Hrun Hrn). unfold cancel_if_running. rewrite decide_True by done. by right.
    + unfold cancel_if_running. rewrite decide_False by done.
      match goal with |- context [if ?b then j0 else j0] => destruct b end;
        destruct (jb_status j0); done || (by left) || (by right).
  - intros ob o j' Ho Hpend Hj' Hsub. destruct (Hback _ j' Hj' Hsub) as (j0 & Hj0 & Hs0 & _).
    rewrite (recovered_obligations _ _ _ _ _ _ _ _ Hr), lookup_update_where in Ho.
    apply fmap_Some in Ho as (o0 & Ho0 & ->). case_match eqn:How; [done|].
    unfold owed in How. rewrite Hpend, Hj0, Hs0, Z.eqb_refl in How. done.
  - intros job j' Hj' Hkeep. rewrite Hdb', (proj1 (move_slack_frame _ _ _ _)). simpl.
    rewrite lookup_insert_ne by (intros <-; rewrite Hrr in Hfresh; simpl in Hfresh; congruence).
    rewrite abandon_jobs, Hj'. simpl. f_equal. case_match eqn:How; [|done].
    apply exists_row_true in How as (ob & o & _ & How). unfold cancel_if_running, owed in *.
    apply andb_true_iff in How as [How Hjob]. apply Z.eqb_eq in Hjob.
    rewrite Hjob, Hj' in How. bool_hyps. case_decide; [|done]. destruct Hkeep as [Hk|Hk]; [|done]. by destruct Hk; apply Z.eqb_eq.
  - exists prior. specialize (Hsubs (sv_new_submission r)). rewrite lookup_insert_eq in Hsubs.
    apply fmap_Some in Hsubs as (next & Hn & Heq). exists next.
    split_and!; [done..| | |];
      [exact (eq_sym (f_equal sb_execution_generation Heq))
      |exact (eq_sym (f_equal sb_fencing_generation Heq))
      |exact (eq_sym (f_equal sb_required_worker Heq))].
  - destruct (first_job_original _ _ _ _ _ _ _ _ _ Hf) as (j0 & Hj0 & Hpay & Hcom).
    exists (copied_job env ids j), old, j0. rewrite Hrr in *. by split_and!.
Qed.
End Generations.

(** The lost execution of the demonstration, its submission described by a
    benchmark spec. *)
Definition trace_recoverable : list FleetOp :=
  trace_lost ++ [Op_Spec 101 {| sx_submission := 100; sx_index := 0;
    sx_task_kind := Kind_Benchmark; sx_commit := None; sx_calibration := None |}].
Definition demo_recovery_ids : RecoveryIds :=
  {| rc_submission := 300; rc_spec := fun i => 301 + i; rc_job := 3000 |}.
Definition demo_recovery : result (SubmissionRecovery * FleetDb) StoreError :=
  recover_submission (at_time 6000) demo_recovery_ids 100 None (lit "host lost")
    (demo_db trace_recoverable).

Definition recovery_of (x : result (SubmissionRecovery * FleetDb) StoreError)
  : option SubmissionRecovery := match x with Ok (r, _) => Some r | Err _ => None end.
Lemma demo_recovery_succeeds :
  recovery_of demo_recovery
  = Some {| sv_prior_submission := 100; sv_new_submission := 300; sv_first_job := 3000;
            sv_execution_generation := 2 |}.
Proof. vm_compute. reflexivity. Qed.

Lemma recovery_hands_over_witness :
  exists r db', demo_recovery = Ok (r, db')
  /\ (exists j old j0, db_jobs db' !! sv_first_job r = Some j /\ jb_status j = J_Queued
        /\ jr_submission (jb_row j) = sv_new_submission r
        /\ db_jobs (demo_db trace_recoverable) !! old = Some j0
        /\ jb_payload j = jb_payload j0 /\ jb_commit j = jb_commit j0).
Proof.
  pose proof demo_recovery_succeeds as Hs. unfold recovery_of in Hs.
  destruct demo_recovery as [[r db']|e] eqn:Hr; [|discriminate Hs].
  exists r, db'. split; [reflexivity|].
  exact (proj2 (proj2 (proj2 (proj2
    (@recovery_hands_over demo_digest demo_scheduler demo_protocol trace_recoverable
       (at_time 6000) demo_recovery_ids 100 None (lit "host lost") r db' Hr))))).
Defined.
